(* ===== verification/_CoqProject ===== *)
-Q . S2P
Prelude.v
Mutex.v
MutexSpec.v
Util.v
Endian.v
Ordered.v
Double.v
ByteArray.v
ByteArraySpec.v
ByteArrayCodec.v
ByteArrayMessage.v
ByteArrayView.v
Timer.v
TimerSpec.v
FdManager.v
Fiber.v
Scheduler.v
SchedulerSafe.v
SchedulerSpec.v
SchedulerTls.v
IOManager.v
IOManagerSpec.v
CString.v
Thread.v
ThreadSpec.v
SchedulerCaller.v
SchedulerCallerSpec.v
SchedulerLife.v
IOLife.v
Socket.v
SocketSpec.v
Address.v
AddressSpec.v
Stream.v
SocketStream.v
StreamByteArray.v
Http.v
HttpResponse.v
HttpRequest.v
HttpRequestSpec.v
HttpParser.v
HttpWire.v
HttpWireSpec.v
HttpResponseParser.v
HttpSession.v
HttpSessionSpec.v
Uri.v
UriMachine.v
UriStates1.v
UriStates2.v
UriParser.v
UriSafe.v
UriRoundtrip.v
HttpConnection.v
HttpConnectionSpec.v
HttpClient.v
HttpClientSpec.v
Servlet.v
Config.v
ConfigSpec.v
ConfigRun.v
ConfigCasts.v
ConfigUnordered.v
Log.v
LogSpec.v
LogManager.v
LogRoutes.v
LogConf.v
LogCasts.v
LogYaml.v
Hook.v
HookIo.v
HookSpec.v
HookTimeout.v
HookCalls.v
HookCallsSpec.v
IOLoop.v
SocketDatagram.v
TcpServer.v
TcpServerSpec.v
