(* ===== verification/Prelude.v ===== *)
(** * A verification library for the sylar server framework

    sylar is a C++ framework for network servers: fibers run on the threads of a
    scheduler, an IOManager wakes the fibers that wait for descriptors and
    timers, hooks turn the blocking calls of the C library into waiting of a
    fiber, sockets and streams are built on the hooked calls, and HTTP servers
    and clients on the streams; configuration, logging, byte buffers, addresses
    and URIs serve all of them.

    ** How the code is modelled

    A C++ function is a Rocq function with the source's name.  Integers are [Z]
    with the wrap-around of their width written out (this file).  A call that
    changes state is of type [M S A]: it takes the state and returns the state
    after it and an [outcome], which is a value, an exception ([Throw]) or a
    fault ([Undef]: a failed assertion, a null pointer, an access out of
    bounds, signed overflow).  Objects that several owners share live in a heap
    (timers, fibers, descriptor contexts, sockets of a server, appenders);
    objects with one owner are values.  Where threads interleave, the code is
    cut into steps at the points where other threads can see a difference, and
    the theorems quantify over all sequences of steps.  Locks appear as the
    atomicity of the critical sections, which the guards of Mutex.v provide
    ([guards_respect_lock]).

    ** Files and the code they model (under src/sylar/)

    - Prelude: machine integers, outcomes and the monad, lists.  Ordered: the
      sorted sequences behind std::set and std::map.  Double: the products with
      1.5 and the ceiling of a quotient in double precision.  CString: C strings.
    - Mutex, MutexSpec: mutex.h, mutex.cpp: the locks behind one interface, the
      scoped guards over it, the semaphore.  Thread, ThreadSpec: thread.h,
      thread.cpp.  Util: util.cpp.
    - Endian: endian.h.  ByteArray, ByteArrayCodec, ByteArrayView (bytearray.h,
      bytearray.cpp): the chain of blocks, typed reads and writes, buffers and
      files.  ByteArraySpec, ByteArrayMessage: the abstract buffer and its
      refinement, round trips of messages.
    - Timer, TimerSpec: timer.h, timer.cpp.
    - FdManager: fd_manager.h, fd_manager.cpp.
    - Fiber, Scheduler, SchedulerSafe, SchedulerSpec: fiber.cpp and the loop of
      scheduler.cpp.  SchedulerTls: the thread-local pointers in the loop.
      SchedulerCaller, SchedulerCallerSpec, SchedulerLife: the constructor, Start,
      Stop with the root fiber and the joins, and the destructor, on the thread
      of the owner.
    - IOManager, IOManagerSpec, IOLoop, IOLife: iomanager.h, iomanager.cpp.
    - Hook (do_io and connect_with_timeout as steps of a system of IOManager,
      timers and calls), HookIo, HookSpec, HookTimeout; HookCalls (sleeping,
      socket, close, fcntl, ioctl, setsockopt), HookCallsSpec: hook.cpp.
    - Socket, SocketSpec, SocketDatagram: socket.h, socket.cpp.  TcpServer,
      TcpServerSpec: tcp_server.h, tcp_server.cpp.
    - Address, AddressSpec: address.h, address.cpp.
    - Stream, SocketStream, StreamByteArray: stream.cpp, streams/socket_stream.cpp.
    - Http, HttpRequest, HttpResponse, HttpRequestSpec: http/http.h, http.cpp.
      HttpParser, HttpResponseParser: http/http_parser.cpp.  HttpWire,
      HttpWireSpec: the grammar of http11_parser.rl for requests in origin form,
      and requests sent and parsed.
    - HttpSession, HttpSessionSpec: http/http_session.cpp, http_server.cpp.
      Servlet: http/servlet.cpp.
    - HttpConnection, HttpConnectionSpec, HttpClient, HttpClientSpec:
      http/http_connection.cpp, with the connection pool.
    - Uri, UriMachine, UriStates1 and 2, UriParser, UriSafe, UriRoundtrip: uri.h
      and the goto code of uri.cpp, one table entry per label.
    - Config, ConfigSpec, ConfigRun, ConfigCasts, ConfigUnordered: config.h,
      config.cpp.
    - Log, LogSpec, LogManager, LogRoutes, LogConf, LogCasts, LogYaml: log.h,
      log.cpp.

    ** What the theorems show

    - Byte buffers: the block chain refines an abstract byte sequence with a
      cursor, and a read of no bytes behind the last block is its one undefined
      call; typed values survive writing and reading on hosts of either byte order
      exactly when they are storable.
    - Timers: in every run no operation is undefined, exactly the due timers are
      handed out in order, a cancelled timer never fires, and with a clock that
      does not run backwards no earlier deadline is missed by a sleeping thread.
    - Locks and threads: over locks that keep the laws, with calls that the lock
      accepts, guards exclude each other, never unlock what they do not hold and
      lose no lock; a thread is handed over completely before its constructor
      returns, and its object may die at any time after; it is used after its end
      only when a signal interrupted the constructor.
    - Fibers and scheduler: in every interleaving in which fibers are scheduled by
      a rule that the code leaves to its callers (not twice at a time), no thread
      of the loop fails an assertion, a fiber is on one thread at a time, and the
      counters are exact; the same with the thread of the owner as a worker, whose
      Stop fails exactly when its root fiber is used up and work is left; a stopped
      scheduler has no threads left.
    - IOManager and hooks: the contexts are a registry of waiting tasks in step
      with epoll; a turn of the idle loop delivers exactly what is due and what was
      reported, or aborts on a stale report; a fiber in a hooked call is held
      exactly once; a returned call leaves no timer and no registration; a timer
      that is not lost brings its call to ETIMEDOUT by itself in six steps (and
      [timeout_lost] shows how one is lost).
    - Descriptors: sockets, client calls, the connection pool and the TCP server
      own their descriptors exclusively and close what they opened, but for a
      descriptor that accept got and could not wrap.
    - HTTP: a dumped request is rebuilt by the parser and by a session whatever
      the pieces of its body, and what the session drops; chunks are concatenated;
      header, parameter and cookie tables are maps; dispatch by the history of the
      dispatcher.
    - URIs: Create of toString is the identity on RFC 3986 parts (a user without a
      colon, a registered name as host); Create is defined on every text without
      an empty port.
    - Configuration: what a YAML document does to a variable, the invariant of
      the registry, the history a listener is told, round trips of containers.
    - Logging: the pattern parser agrees with a recursive reader, patterns print
      as documented, events reach exactly their appenders, and what a changed
      configuration does.

    ** Parameters and hypotheses

    Code that is not in the repository is a parameter: system calls ([Kernel]
    with [KernelLaws], [accept_registers]), the parsers that ragel generates
    ([HttpAutomaton] with [reads_requests], [ClientAutomaton] with
    [reads_chunks]), boost::lexical_cast ([LexicalCast], [casts_decimals]), the
    YAML library ([Yaml]), fnmatch, fstat, strftime, getaddrinfo, getifaddrs,
    inet_pton and the original functions behind the hooks.  The pthread calls have
    their documented behaviour, errors included, as definitions of Mutex.v.  Clock
    values and addresses of new objects are arguments of the operations.  The
    witness of a theorem with such a hypothesis instantiates the parameter with a
    concrete function.

    ** Bounds and fuel

    Loops over data are structural or run on a measure of it; where fuel appears
    (loops over blocks, varints and pattern characters, the transfer and receive
    loops) the theorems say how much is enough for their inputs, so that they
    speak of results and not of runs that may not end.  Hooks that call themselves run on
    fuel, and [selfcalls_never_return] shows that no fuel is enough.
    Descriptors are below 2^30, so that the tables that grow to 1.5 times a
    descriptor stay in an int.

    ** Not modelled

    macro.h, singleton.h, noncopyable.h: macros and templates without state
    ([cassert] is SYLAR_ASSERT).  The automata that ragel generates from the
    HTTP grammars are not in the repository and stay parameters.  Of the
    threads, the destruction of the thread-local main fiber when a worker ends;
    of the locks, the destruction of the pthread objects and memory orders
    weaker than sequential consistency; log lines inside other components. *)


From stdpp Require Import base list numbers option.
From Stdlib Require Import ZArith Lia.

Local Open Scope Z_scope.

(** ** Machine integers

    A [w]-bit unsigned integer is a [Z] in [[0, 2^w)], a signed one a [Z] in
    [[-2^(w-1), 2^(w-1))]; the conversions of C++ are the two wrap functions. *)

Definition uwrap (w x : Z) : Z := x mod 2 ^ w.
Definition swrap (w x : Z) : Z := (x + 2 ^ (w - 1)) mod 2 ^ w - 2 ^ (w - 1).

Definition u_range (w x : Z) : Prop := 0 <= x < 2 ^ w.
Definition s_range (w x : Z) : Prop := - 2 ^ (w - 1) <= x < 2 ^ (w - 1).

Abbreviation u8 := (uwrap 8).
Abbreviation u16 := (uwrap 16).
Abbreviation u32 := (uwrap 32).
Abbreviation u64 := (uwrap 64).
Abbreviation i32 := (swrap 32).
Abbreviation i64 := (swrap 64).

(** ** Outcomes and the state-and-fault monad

    A C++ call returns a value, throws an exception (the object keeps the
    changes made so far), fails an assertion, or has undefined behaviour. *)

Inductive exn : Type :=
  | OutOfRange
  | LengthError
  | InvalidArgument
  | LogicError.

Inductive fault : Type :=
  | AssertFailed
  | NullDeref
  | DivByZero
  | OutOfBounds
  | SignedOverflow
  | FuelExhausted
  | BadUnlock
  | UseAfterFree
  | Terminated.

Inductive outcome (A : Type) : Type :=
  | Ret (a : A)
  | Throw (e : exn)
  | Undef (f : fault).
Arguments Ret {A} a.
Arguments Throw {A} e.
Arguments Undef {A} f.

Definition M (S A : Type) : Type := S -> S * outcome A.

Definition cret {S A} (a : A) : M S A := fun s => (s, Ret a).
Definition cthrow {S A} (e : exn) : M S A := fun s => (s, Throw e).
Definition cundef {S A} (f : fault) : M S A := fun s => (s, Undef f).
Definition cget {S A} (f : S -> A) : M S A := fun s => (s, Ret (f s)).
Definition cmod {S} (f : S -> S) : M S unit := fun s => (f s, Ret tt).

Definition cbind {S A B} (m : M S A) (k : A -> M S B) : M S B := fun s =>
  match m s with
  | (s', Ret a) => k a s'
  | (s', Throw e) => (s', Throw e)
  | (s', Undef f) => (s', Undef f)
  end.

Definition lift {S A} (o : outcome A) : M S A := fun s => (s, o).

Definition obind {A B} (o : outcome A) (k : A -> outcome B) : outcome B :=
  match o with Ret a => k a | Throw e => Throw e | Undef f => Undef f end.

(** [SYLAR_ASSERT]: the build does not define NDEBUG, so a failed one aborts. *)
Definition cassert {S} (b : bool) : M S unit := if b then cret tt else cundef AssertFailed.

Declare Scope cpp_scope.
Delimit Scope cpp_scope with cpp.
Notation "'let!' x := m 'in' k" := (cbind m (fun x => k))
  (at level 10, x name, m at level 100, k at level 200,
   format "'[v' 'let!'  x  :=  m  'in' '/' k ']'") : cpp_scope.
Notation "m ;;; k" := (cbind m (fun _ => k))
  (at level 100, k at level 200, right associativity,
   format "'[v' m  ;;; '/' k ']'") : cpp_scope.

Create HintDb sylar.
Create Rewrite HintDb sylar.

(** Equations of the monad on a known first step. *)
Section monad_laws.
Context {S A B : Type}.
Implicit Types (m : M S A) (k : A -> M S B).

Lemma cbind_ret m k s s' a : m s = (s', Ret a) -> cbind m k s = k a s'.
Proof. intros E. unfold cbind. rewrite E. reflexivity. Qed.

Lemma cbind_ret_inv (m : M S A) (k : A -> M S B) s s' b :
  cbind m k s = (s', Ret b) -> exists s1 a, m s = (s1, Ret a) /\ k a s1 = (s', Ret b).
Proof. unfold cbind. destruct (m s) as [s1 [a| |]]; intros E; try discriminate. eauto. Qed.

Lemma cbind_throw m k s s' e :
  m s = (s', Throw e) -> cbind m k s = (s', Throw e).
Proof. intros E. unfold cbind. rewrite E. reflexivity. Qed.

Lemma cbind_undef m k s s' f :
  m s = (s', Undef f) -> cbind m k s = (s', Undef f).
Proof. intros E. unfold cbind. rewrite E. reflexivity. Qed.

Lemma cbind_get (f : S -> A) k s : cbind (cget f) k s = k (f s) s.
Proof. reflexivity. Qed.

Lemma cbind_mod (f : S -> S) (k : unit -> M S B) s : cbind (cmod f) k s = k tt (f s).
Proof. reflexivity. Qed.

Lemma cbind_cret (a : A) k s : cbind (cret a) k s = k a s.
Proof. reflexivity. Qed.

Lemma cbind_assert b (k : unit -> M S B) s : b = true -> cbind (cassert b) k s = k tt s.
Proof. intros ->. reflexivity. Qed.
End monad_laws.

Create Rewrite HintDb cmonad.
#[export] Hint Rewrite @cbind_get @cbind_mod @cbind_cret : cmonad.

(** [cstep E] runs the first command of a bind with the equation [E]. *)
Ltac cstep E :=
  first [ erewrite (cbind_ret _ _ _ _ _ E)
        | erewrite (cbind_throw _ _ _ _ _ E)
        | erewrite (cbind_undef _ _ _ _ _ E) ].

(** ** Arithmetic of the wrap functions *)

Lemma uwrap_range w x : 0 <= w -> u_range w (uwrap w x).
Proof. intros. unfold u_range, uwrap. apply Z.mod_pos_bound. lia. Qed.

Lemma uwrap_id w x : u_range w x -> uwrap w x = x.
Proof. unfold u_range, uwrap. intros. apply Z.mod_small. lia. Qed.

Lemma pow2_split w : 0 < w -> 2 ^ w = 2 * 2 ^ (w - 1).
Proof. intros. rewrite <- Z.pow_succ_r by lia. f_equal. lia. Qed.

Lemma swrap_range w x : 0 < w -> s_range w (swrap w x).
Proof.
  intros. unfold s_range, swrap.
  pose proof (pow2_split w ltac:(lia)) as E.
  pose proof (Z.mod_pos_bound (x + 2 ^ (w - 1)) (2 ^ w) ltac:(lia)). lia.
Qed.

Lemma swrap_id w x : 0 < w -> s_range w x -> swrap w x = x.
Proof.
  unfold s_range, swrap. intros Hw H.
  pose proof (pow2_split w ltac:(lia)) as E.
  rewrite Z.mod_small by lia. lia.
Qed.

(** Reinterpreting a signed value as unsigned and back is the identity. *)
Lemma swrap_uwrap w x : 0 < w -> s_range w x -> swrap w (uwrap w x) = x.
Proof.
  intros Hw H. rewrite <- (swrap_id w x) at 2 by assumption.
  unfold swrap, uwrap. rewrite Zplus_mod_idemp_l. reflexivity.
Qed.

Lemma uwrap_uwrap w x : 0 <= w -> uwrap w (uwrap w x) = uwrap w x.
Proof. intros. apply uwrap_id, uwrap_range. assumption. Qed.

(** ** Byte sequences *)


Definition zlen {A} (l : list A) : Z := Z.of_nat (length l).

(** [slice off n l] is the [n] elements of [l] from [off] on. *)
Definition slice {A} (off n : Z) (l : list A) : list A :=
  take (Z.to_nat n) (drop (Z.to_nat off) l).

(** [overlay off d l]: [l] with [d] written over it at [off]. *)
Definition overlay {A} (off : Z) (d l : list A) : list A :=
  take (Z.to_nat off) l ++ d ++ drop (Z.to_nat off + length d) l.

Section lists.
Context {A : Type}.
Implicit Types (l d : list A) (off n m : Z).

Lemma zlen_nonneg l : 0 <= zlen l.
Proof. unfold zlen. lia. Qed.

Lemma zlen_app l d : zlen (l ++ d) = zlen l + zlen d.
Proof. unfold zlen. rewrite length_app. lia. Qed.

Lemma zlen_cons x l : zlen (x :: l) = 1 + zlen l.
Proof. unfold zlen. simpl. lia. Qed.

Lemma zlen_slice off n l :
  0 <= off -> 0 <= n -> off + n <= zlen l -> zlen (slice off n l) = n.
Proof. unfold zlen, slice. intros. rewrite length_take, length_drop. lia. Qed.

Lemma zlen_overlay off d l :
  0 <= off -> off + zlen d <= zlen l -> zlen (overlay off d l) = zlen l.
Proof.
  unfold zlen, overlay. intros.
  rewrite !length_app, length_take, length_drop. lia.
Qed.

Lemma slice_app off n m l :
  0 <= off -> 0 <= n -> 0 <= m ->
  slice off (n + m) l = slice off n l ++ slice (off + n) m l.
Proof.
  intros. unfold slice.
  rewrite !Z2Nat.inj_add by lia.
  rewrite <- (drop_drop l), <- take_take_drop. reflexivity.
Qed.

Lemma slice_0 off l : slice off 0 l = [].
Proof. reflexivity. Qed.

Lemma slice_all l : slice 0 (zlen l) l = l.
Proof. unfold slice, zlen. rewrite Nat2Z.id. simpl. apply take_ge. lia. Qed.

Lemma overlay_nil off l : overlay off [] l = l.
Proof.
  unfold overlay. simpl. rewrite Nat.add_0_r. apply take_drop.
Qed.


Lemma slice_ext_app off n l d :
  0 <= off -> off + n <= zlen l -> slice off n (l ++ d) = slice off n l.
Proof.
  intros. unfold slice, zlen in *. destruct (Z.le_gt_cases n 0).
  - replace (Z.to_nat n) with 0%nat by lia. reflexivity.
  - rewrite drop_app_le by lia. apply take_app_le. rewrite length_drop. lia.
Qed.

(** A piece of the middle of [l ++ m ++ r]. *)
Lemma slice_middle (l m r : list A) k n :
  0 <= k -> k + n <= zlen m -> slice (zlen l + k) n (l ++ m ++ r) = slice k n m.
Proof.
  intros. rewrite <- (slice_ext_app k n m r) by lia.
  unfold slice, zlen. rewrite Z2Nat.inj_add, Nat2Z.id by lia.
  rewrite <- (drop_drop (l ++ m ++ r)), drop_app_length. reflexivity.
Qed.

Lemma overlay_middle (l m r : list A) d k :
  0 <= k -> k + zlen d <= zlen m ->
  overlay (zlen l + k) d (l ++ m ++ r) = l ++ overlay k d m ++ r.
Proof.
  intros. unfold overlay, zlen in *. rewrite Z2Nat.inj_add, Nat2Z.id by lia.
  rewrite take_app_ge, drop_app_ge by lia.
  replace (length l + Z.to_nat k - length l)%nat with (Z.to_nat k) by lia.
  replace (length l + Z.to_nat k + length d - length l)%nat
    with (Z.to_nat k + length d)%nat by lia.
  rewrite take_app_le, drop_app_le by lia. rewrite <- !(assoc_L (++)). reflexivity.
Qed.

(** What was written is read back, also beyond the old end. *)
Lemma slice_overlay off d l :
  0 <= off <= zlen l -> slice off (zlen d) (overlay off d l) = d.
Proof.
  intros H. unfold overlay.
  replace off with (zlen (take (Z.to_nat off) l) + 0) at 1
    by (unfold zlen in *; rewrite length_take; lia).
  rewrite slice_middle by lia. apply slice_all.
Qed.

Lemma overlay_prefix (p d x : list A) :
  overlay (zlen p) d (p ++ x) = p ++ d ++ drop (length d) x.
Proof.
  unfold overlay, zlen. rewrite Nat2Z.id, take_app_length.
  rewrite drop_app_ge by lia. do 3 f_equal. lia.
Qed.

Lemma overlay_overlay off d (d' : list A) l :
  0 <= off <= zlen l ->
  overlay (off + zlen d) d' (overlay off d l) = overlay off (d ++ d') l.
Proof.
  intros. unfold overlay at 2 3.
  replace (off + zlen d) with (zlen (take (Z.to_nat off) l ++ d))
    by (rewrite zlen_app; unfold zlen in *; rewrite length_take; lia).
  rewrite (assoc_L (++) (take _ _)), overlay_prefix, drop_drop, length_app.
  rewrite <- !(assoc_L (++)), Nat.add_assoc. reflexivity.
Qed.

Lemma slice_overlay_before off d l a n :
  0 <= a -> a + n <= off -> off + zlen d <= zlen l ->
  slice a n (overlay off d l) = slice a n l.
Proof.
  intros. unfold overlay.
  destruct (Z.le_gt_cases n 0).
  { unfold slice. replace (Z.to_nat n) with 0%nat by lia. reflexivity. }
  pose proof (zlen_nonneg d).
  rewrite slice_ext_app by (unfold zlen in *; rewrite ?length_take; lia).
  rewrite <- (take_drop (Z.to_nat off) l) at 2.
  symmetry. apply slice_ext_app; unfold zlen in *; rewrite ?length_take; lia.
Qed.

(** A piece of a prefix. *)
Lemma slice_prefix off n m l :
  0 <= off -> off + n <= m -> slice off n (slice 0 m l) = slice off n l.
Proof.
  intros. unfold slice. change (Z.to_nat 0) with 0%nat. rewrite drop_0.
  destruct (Z.le_gt_cases n 0).
  { replace (Z.to_nat n) with 0%nat by lia. reflexivity. }
  rewrite !take_drop_commute, take_take. do 2 f_equal. lia.
Qed.

(** The first [n] elements after an overlay that ends before or after [n]. *)
Lemma take_overlay_grow off d l n :
  0 <= off <= n -> off + zlen d <= zlen l -> n <= zlen l ->
  slice 0 (Z.max n (off + zlen d)) (overlay off d l)
  = overlay off d (slice 0 n l).
Proof.
  intros. unfold slice, overlay, zlen in *. rewrite !drop_0.
  rewrite take_take, Nat.min_l by lia.
  rewrite !take_app, !length_take.
  rewrite take_ge by (rewrite length_take; lia). f_equal.
  rewrite take_ge by lia. f_equal.
  destruct (Z.le_gt_cases (off + Z.of_nat (length d)) n).
  - rewrite take_drop_commute. f_equal. f_equal. lia.
  - rewrite (drop_ge (take _ _)) by (rewrite length_take; lia).
    replace (_ - _ - _)%nat with 0%nat by lia. reflexivity.
Qed.

Lemma alter_at (f : A -> A) l (i : nat) x : l !! i = Some x -> alter f i l = <[i := f x]> l.
Proof.
  revert i. induction l as [|y l IH]; intros [|i] H; try discriminate; simpl in *.
  - injection H as ->. reflexivity.
  - change (y :: alter f i l = y :: <[i := f x]> l). rewrite (IH i H). reflexivity.
Qed.
End lists.

#[export] Hint Resolve zlen_nonneg uwrap_range : sylar.
#[export] Hint Rewrite @zlen_app @zlen_cons @overlay_nil @slice_0 : sylar.
