(* ===== verification/Mutex.v ===== *)
(** * Locks, guards and the semaphore (sylar/mutex.h, sylar/mutex.cpp)

    The wrappers of the pthread locks, the lock built on an atomic flag, and
    the three guard templates.  One attempt of a lock call takes the lock, makes
    the caller wait (or spin) and try again, or returns an error code, which the
    wrappers ignore.  [Lockable] is what a guard asks of a lock, [LockLaws] what
    the guards rely on; every lock of the file is an instance.  A world is one
    lock and the guards that live on it; its steps are the calls of the guards
    by any thread in any order. *)

From stdpp Require Import base gmap list.
From Stdlib Require Import ZArith Lia.
From S2P Require Import Prelude.

Local Open Scope Z_scope.
Local Open Scope cpp_scope.

(** ** Attempts, modes and the interface of a lock *)

Inductive attempt (L : Type) : Type :=
  | Acquired (l : L)
  | Again (l : L)
  | Refused (l : L).
Arguments Acquired {L} l.
Arguments Again {L} l.
Arguments Refused {L} l.

(** [lock] and [wrlock] are exclusive, [rdlock] is shared. *)
Inductive mode := Shared | Exclusive.

#[export] Instance mode_eq_dec : EqDecision mode.
Proof. solve_decision. Defined.

(** [acquire md t]: the call of the mode by thread [t]; a lock without a shared
    mode refuses it. *)
Class Lockable (L : Type) := {
  unlocked : L;
  acquire : mode -> Z -> L -> attempt L;
  release : Z -> L -> outcome L
}.

(** At most one hold, or shared ones only. *)
Definition exclusive (hs : list (Z * mode)) : Prop :=
  (length hs <= 1)%nat \/ forall h, h ∈ hs -> h.2 = Shared.

(** What a lock promises: [rep l hs] says that [l] is the state of the lock
    while exactly the threads of [hs] hold it. *)
Class LockLaws (L : Type) `{Lockable L} := {
  rep : L -> list (Z * mode) -> Prop;
  rep_perm l hs hs' : rep l hs -> hs ≡ₚ hs' -> rep l hs';
  rep_unlocked : rep unlocked [];
  rep_exclusive l hs : rep l hs -> exclusive hs;
  rep_acquired md t l l' hs :
    rep l hs -> acquire md t l = Acquired l' -> rep l' ((t, md) :: hs);
  rep_again md t l l' hs : rep l hs -> acquire md t l = Again l' -> rep l' hs;
  rep_release md t l hs :
    rep l ((t, md) :: hs) -> exists l', release t l = Ret l' /\ rep l' hs;
  rep_free t l : rep l [] -> exists l', acquire Exclusive t l = Acquired l'
}.

(** ** The locks *)

(** [Mutex]: a pthread mutex of the default kind, with its owner.  Locking it
    again in the same thread waits for ever; only the owner may unlock it. *)
Module Mutex.
Record t := mk { owner : option Z }.

Definition Mutex_new : t := mk None.

Definition lock (tid : Z) (m : t) : attempt t :=
  match owner m with None => Acquired (mk (Some tid)) | Some _ => Again m end.

Definition unlock (tid : Z) (m : t) : outcome t :=
  if bool_decide (owner m = Some tid) then Ret (mk None) else Undef BadUnlock.
End Mutex.

(** [SpinLock]: the same contract for a pthread spin lock. *)
Module SpinLock.
Record t := mk { owner : option Z }.

Definition SpinLock_new : t := mk None.

Definition lock (tid : Z) (m : t) : attempt t :=
  match owner m with None => Acquired (mk (Some tid)) | Some _ => Again m end.

Definition unlock (tid : Z) (m : t) : outcome t :=
  if bool_decide (owner m = Some tid) then Ret (mk None) else Undef BadUnlock.
End SpinLock.

(** [CASLock]: an atomic flag.  [lock] is the body of its loop: the flag is set
    and its old value decides whether the loop goes round again.  Nothing
    records who set the flag, and [unlock] clears it whoever calls. *)
Module CASLock.
Definition test_and_set (m_mutex : bool) : bool * bool := (true, m_mutex).

Definition CASLock_new : bool := false.

Definition lock (tid : Z) (m_mutex : bool) : attempt bool :=
  let '(m', old) := test_and_set m_mutex in
  if old then Again m' else Acquired m'.

Definition unlock (tid : Z) (m_mutex : bool) : outcome bool := Ret false.
End CASLock.

(** [RWMutex]: a pthread rwlock.  A thread that holds it for writing gets
    EDEADLK from either call, and [limit] readers give EAGAIN. *)
Module RWMutex.
Record t := mk { readers : list Z; writer : option Z }.

Definition RWMutex_new : t := mk [] None.

Definition rdlock (limit : nat) (tid : Z) (m : t) : attempt t :=
  match writer m with
  | Some w => if w =? tid then Refused m else Again m
  | None =>
      if (length (readers m) <? limit)%nat then Acquired (mk (tid :: readers m) None)
      else Refused m
  end.

Definition wrlock (tid : Z) (m : t) : attempt t :=
  match writer m, readers m with
  | Some w, _ => if w =? tid then Refused m else Again m
  | None, [] => Acquired (mk [] (Some tid))
  | None, _ :: _ => Again m
  end.

Fixpoint remove_reader (tid : Z) (l : list Z) : option (list Z) :=
  match l with
  | [] => None
  | x :: r => if x =? tid then Some r else (cons x) <$> remove_reader tid r
  end.

Definition unlock (tid : Z) (m : t) : outcome t :=
  match writer m with
  | Some w => if w =? tid then Ret (mk (readers m) None) else Undef BadUnlock
  | None =>
      match remove_reader tid (readers m) with
      | Some r => Ret (mk r None)
      | None => Undef BadUnlock
      end
  end.
End RWMutex.

(** [NullMutex] and [NullRWMutex] do nothing. *)
Module NullMutex.
Definition lock (tid : Z) (m : unit) : attempt unit := Acquired m.
Definition unlock (tid : Z) (m : unit) : outcome unit := Ret m.
End NullMutex.

Module NullRWMutex.
Definition rdlock (tid : Z) (m : unit) : attempt unit := Acquired m.
Definition wrlock (tid : Z) (m : unit) : attempt unit := Acquired m.
Definition unlock (tid : Z) (m : unit) : outcome unit := Ret m.
End NullRWMutex.

Definition no_shared {L} (lock : Z -> L -> attempt L) (md : mode) (tid : Z) (l : L) : attempt L :=
  match md with Exclusive => lock tid l | Shared => Refused l end.

#[export] Instance Mutex_lockable : Lockable Mutex.t :=
  {| unlocked := Mutex.Mutex_new; acquire := no_shared Mutex.lock; release := Mutex.unlock |}.

#[export] Instance SpinLock_lockable : Lockable SpinLock.t :=
  {| unlocked := SpinLock.SpinLock_new; acquire := no_shared SpinLock.lock;
     release := SpinLock.unlock |}.

#[export] Instance CASLock_lockable : Lockable bool :=
  {| unlocked := CASLock.CASLock_new; acquire := no_shared CASLock.lock;
     release := CASLock.unlock |}.

Definition RWMutex_lockable (limit : nat) : Lockable RWMutex.t :=
  {| unlocked := RWMutex.RWMutex_new;
     acquire := fun md => match md with Shared => RWMutex.rdlock limit
                                   | Exclusive => RWMutex.wrlock end;
     release := RWMutex.unlock |}.

Definition NullMutex_lockable : Lockable unit :=
  {| unlocked := tt; acquire := no_shared NullMutex.lock; release := NullMutex.unlock |}.

Definition NullRWMutex_lockable : Lockable unit :=
  {| unlocked := tt;
     acquire := fun md => match md with Shared => NullRWMutex.rdlock
                                   | Exclusive => NullRWMutex.wrlock end;
     release := NullRWMutex.unlock |}.

(** ** The guards

    A guard is an object on the stack of one thread.  [SocpedLockImpl] and
    [WriteSocpedLockImpl] are the guards of mode [Exclusive] (of a lock with
    [lock] and of one with [wrlock]), [ReadSocpedLockImpl] those of mode
    [Shared]. *)
Record Guard := mkGuard { g_thread : Z; g_mode : mode; m_locked : bool }.

Record World (L : Type) := mkWorld { m_mutex : L; guards : gmap nat Guard }.
Arguments mkWorld {L} m_mutex guards.
Arguments m_mutex {L} w.
Arguments guards {L} w.

Section guards.
Context {L : Type} `{Lockable L}.

Definition set_mutex (l : L) (w : World L) : World L := mkWorld l (guards w).
Definition set_guard (g : nat) (x : Guard) (w : World L) : World L :=
  mkWorld (m_mutex w) (<[g := x]> (guards w)).
Definition drop_guard (g : nat) (w : World L) : World L :=
  mkWorld (m_mutex w) (delete g (guards w)).

(** The call of the lock: [true] when it returned. *)
Definition mutex_acquire (md : mode) (tid : Z) : M (World L) bool :=
  let! l := cget m_mutex in
  match acquire md tid l with
  | Acquired l' => cmod (set_mutex l') ;;; cret true
  | Refused l' => cmod (set_mutex l') ;;; cret true
  | Again l' => cmod (set_mutex l') ;;; cret false
  end.

Definition mutex_unlock (tid : Z) : M (World L) unit :=
  let! l := cget m_mutex in
  let! l' := lift (release tid l) in
  cmod (set_mutex l').

Definition get_guard (g : nat) : M (World L) Guard :=
  let! m := cget guards in
  match m !! g with Some x => cret x | None => cundef UseAfterFree end.

(** The constructor: the guard exists once the lock call has returned. *)
Definition guard_new (md : mode) (g : nat) (tid : Z) : M (World L) unit :=
  let! returned := mutex_acquire md tid in
  if returned then cmod (set_guard g (mkGuard tid md true)) else cret tt.

Definition guard_lock (g : nat) : M (World L) unit :=
  let! x := get_guard g in
  if negb (m_locked x) then
    let! returned := mutex_acquire (g_mode x) (g_thread x) in
    if returned then cmod (set_guard g (mkGuard (g_thread x) (g_mode x) true)) else cret tt
  else cret tt.

Definition guard_unlock (g : nat) : M (World L) unit :=
  let! x := get_guard g in
  if m_locked x then
    mutex_unlock (g_thread x) ;;;
    cmod (set_guard g (mkGuard (g_thread x) (g_mode x) false))
  else cret tt.

(** The destructor. *)
Definition guard_delete (g : nat) : M (World L) unit :=
  guard_unlock g ;;; cmod (drop_guard g).

(** The three templates. *)
Definition SocpedLockImpl_new := guard_new Exclusive.
Definition ReadSocpedLockImpl_new := guard_new Shared.
Definition WriteSocpedLockImpl_new := guard_new Exclusive.

(** ** The calls of any threads in any order *)
Inductive call :=
  | CNew (g : nat) (tid : Z) (md : mode)
  | CLock (g : nat)
  | CUnlock (g : nat)
  | CDelete (g : nat).

Definition perform (c : call) : M (World L) unit :=
  match c with
  | CNew g tid md => guard_new md g tid
  | CLock g => guard_lock g
  | CUnlock g => guard_unlock g
  | CDelete g => guard_delete g
  end.

(** A call is made on a guard that exists, and a new guard is a new object. *)
Definition enabled (c : call) (w : World L) : bool :=
  match c with
  | CNew g _ _ => bool_decide (guards w !! g = None)
  | CLock g | CUnlock g | CDelete g => bool_decide (is_Some (guards w !! g))
  end.

Definition refused (a : attempt L) : bool := match a with Refused _ => true | _ => false end.

(** No lock call of [c] returns an error code. *)
Definition accepted (c : call) (w : World L) : bool :=
  match c with
  | CNew _ tid md => negb (refused (acquire md tid (m_mutex w)))
  | CLock g =>
      match guards w !! g with
      | Some x => m_locked x || negb (refused (acquire (g_mode x) (g_thread x) (m_mutex w)))
      | None => true
      end
  | _ => true
  end.

Definition perform_all (cs : list call) (w : World L) : World L :=
  fold_left (fun w c => (perform c w).1) cs w.

Inductive reachable : World L -> Prop :=
  | reach_init : reachable (mkWorld unlocked ∅)
  | reach_step w c w' r :
      reachable w -> enabled c w -> accepted c w -> perform c w = (w', r) -> reachable w'.

(** Who holds the lock according to the guards. *)
Definition hold_of (x : Guard) : option (Z * mode) :=
  if m_locked x then Some (g_thread x, g_mode x) else None.

Definition holds (w : World L) : list (Z * mode) := omap (hold_of ∘ snd) (map_to_list (guards w)).
End guards.

(** ** The semaphore

    [sem_init] refuses a count above SEM_VALUE_MAX, [sem_post] refuses to pass
    it, and [sem_wait] can be interrupted by a signal; the class throws. *)
Module Semaphore.
Definition SEM_VALUE_MAX : Z := 2 ^ 31 - 1.

(** What a wait does at one attempt: [None] while the caller sleeps. *)
Definition Semaphore_new (count : Z) : outcome Z :=
  if count <=? SEM_VALUE_MAX then Ret count else Throw LogicError.

Definition wait (interrupted : bool) : M Z bool :=
  let! n := cget id in
  if 0 <? n then cmod (fun _ => n - 1) ;;; cret true
  else if interrupted then cthrow LogicError
  else cret false.

Definition notify : M Z unit :=
  let! n := cget id in
  if n <? SEM_VALUE_MAX then cmod (fun _ => n + 1) else cthrow LogicError.

Inductive op := OWait (interrupted : bool) | ONotify.

(** A run of calls from any threads: the count after it, the waits that
    returned and the notifications that were accepted. *)
Fixpoint run (ops : list op) (st : Z * Z * Z) : Z * Z * Z :=
  match ops with
  | [] => st
  | OWait b :: r =>
      let '(n, w, p) := st in
      match wait b n with
      | (n', Ret true) => run r (n', w + 1, p)
      | (n', _) => run r (n', w, p)
      end
  | ONotify :: r =>
      let '(n, w, p) := st in
      match notify n with
      | (n', Ret _) => run r (n', w, p + 1)
      | (n', _) => run r (n', w, p)
      end
  end.
End Semaphore.
