(* ===== verification/MutexSpec.v ===== *)
(** * Guards over locks: exclusion, no misuse, no lost lock

    The laws of a lock for [Mutex], [SpinLock], [CASLock] and [RWMutex], the
    invariant of a world of guards over any lock with the laws, and what the
    semaphore conserves. *)

From stdpp Require Import base gmap list.
From Stdlib Require Import ZArith Lia.
From S2P Require Import Prelude Mutex.

Local Open Scope Z_scope.
Local Open Scope cpp_scope.

#[export] Instance exclusive_proper : Proper ((≡ₚ) ==> iff) exclusive.
Proof. intros hs hs' E. unfold exclusive. by setoid_rewrite E. Qed.

Lemma exclusive_nil : exclusive [].
Proof. left. simpl. lia. Qed.

Lemma exclusive_one h : exclusive [h].
Proof. left. simpl. lia. Qed.

Lemma exclusive_shared (l : list Z) : exclusive ((fun t => (t, Shared)) <$> l).
Proof. right. intros h (t & -> & _)%list_elem_of_fmap. reflexivity. Qed.

#[export] Hint Resolve exclusive_nil exclusive_one exclusive_shared : sylar.

(** ** Locks with an owner *)

(** The holds of a lock that one thread owns. *)
Definition owner_holds (o : option Z) : list (Z * mode) :=
  match o with Some t => [(t, Exclusive)] | None => [] end.

Lemma owner_exclusive o : exclusive (owner_holds o).
Proof. destruct o; simpl; auto with sylar. Qed.

Lemma owner_holds_cons o t md hs :
  (t, md) :: hs ≡ₚ owner_holds o -> o = Some t /\ md = Exclusive /\ hs = [].
Proof.
  destruct o as [x|]; simpl; intros E.
  - apply Permutation_sym, Permutation_singleton_l in E. by simplify_eq.
  - by apply Permutation_sym, Permutation_nil in E.
Qed.

Lemma owner_holds_nil o : [] ≡ₚ owner_holds o -> o = None.
Proof. destruct o; simpl; [|done]. by intros E%Permutation_nil. Qed.

(** The laws of a lock whose state is its owner. *)
Ltac owner_laws lock unlock :=
  solve [ intros l hs hs' R E; by rewrite <- E
   | reflexivity
   | intros [o] hs R; simpl in R; rewrite R; apply owner_exclusive
   | intros [] t [[]] l' hs; unfold acquire; simpl; unfold lock; simpl; intros R;
       try discriminate; intros [= <-]; apply Permutation_sym, Permutation_nil in R; by subst
   | intros [] t [[]] l' hs; unfold acquire; simpl; unfold lock; simpl; intros R;
       try discriminate; by intros [= <-]
   | intros md t [o] hs R; simpl in R; apply owner_holds_cons in R as (-> & -> & ->);
       unfold release; simpl; unfold unlock; simpl; rewrite bool_decide_true by done;
       by eexists
   | intros t [o] R; simpl in R; apply owner_holds_nil in R; subst; by eexists ].

#[export] Instance Mutex_laws : LockLaws Mutex.t.
Proof.
  refine {| rep := fun m hs => hs ≡ₚ owner_holds (Mutex.owner m) |}.
  all: owner_laws Mutex.lock Mutex.unlock.
Defined.

#[export] Instance SpinLock_laws : LockLaws SpinLock.t.
Proof.
  refine {| rep := fun m hs => hs ≡ₚ owner_holds (SpinLock.owner m) |}.
  all: owner_laws SpinLock.lock SpinLock.unlock.
Defined.

(** ** The flag: set while somebody holds it, whoever that is *)
#[export] Instance CASLock_laws : LockLaws bool.
Proof.
  refine {| rep := fun (m : bool) (hs : list (Z * mode)) => if m then exists t : Z, hs = [(t, Exclusive)] else hs = [] |}.
  - intros [] hs hs'; [intros (t & ->) E|intros -> E].
    + apply Permutation_singleton_l in E. by exists t.
    + by apply Permutation_nil in E.
  - reflexivity.
  - intros [] hs; [intros (t & ->)|intros ->]; auto with sylar.
  - intros [] t [] l' hs; unfold acquire; simpl; intros R; try discriminate.
    intros [= <-]. subst. by exists t.
  - intros [] t [] l' hs; unfold acquire; simpl; intros R; try discriminate. by intros [= <-].
  - intros md t [] hs R; [|discriminate]. destruct R as (x & [= -> -> ->]). by eexists.
  - intros t [] R; [by destruct R|]. by eexists.
Defined.

(** ** The rwlock *)
Definition rw_holds (m : RWMutex.t) : list (Z * mode) :=
  match RWMutex.writer m with
  | Some w => [(w, Exclusive)]
  | None => (fun t => (t, Shared)) <$> RWMutex.readers m
  end.

Lemma remove_reader_spec t l :
  t ∈ l -> exists r, RWMutex.remove_reader t l = Some r /\ l ≡ₚ t :: r.
Proof.
  induction l as [|x l IH]; intros Hin; [by apply not_elem_of_nil in Hin|]. simpl.
  destruct (Z.eqb_spec x t) as [->|Hne]; [by exists l|].
  apply elem_of_cons in Hin as [->|Hin]; [done|].
  destruct (IH Hin) as (r & -> & E). exists (x :: r). split; [done|].
  by rewrite E, Permutation_swap.
Qed.

Lemma rw_exclusive m : exclusive (rw_holds m).
Proof. unfold rw_holds. destruct (RWMutex.writer m); auto with sylar. Qed.

Lemma rw_release t md m hs :
  (RWMutex.writer m = None \/ RWMutex.readers m = []) ->
  (t, md) :: hs ≡ₚ rw_holds m ->
  exists m', RWMutex.unlock t m = Ret m' /\
    (RWMutex.writer m' = None \/ RWMutex.readers m' = []) /\ hs ≡ₚ rw_holds m'.
Proof.
  destruct m as [rs [w|]]; unfold rw_holds, RWMutex.unlock; simpl; intros Hw E.
  - destruct Hw as [ | -> ]; [discriminate|].
    apply Permutation_sym, Permutation_singleton_l in E. simplify_eq.
    rewrite Z.eqb_refl. eexists. by repeat split; auto.
  - assert (t ∈ rs) as Hin.
    { assert ((t, md) ∈ (fun x => (x, Shared)) <$> rs) as (x & ? & ?)%list_elem_of_fmap
        by (rewrite <- E; left). by simplify_eq. }
    destruct (remove_reader_spec t rs Hin) as (r & -> & Er).
    eexists. split; [reflexivity|]. split; [by left|]. simpl.
    assert (md = Shared) as ->.
    { assert ((t, md) ∈ (fun x => (x, Shared)) <$> rs) as (x & ? & ?)%list_elem_of_fmap
        by (rewrite <- E; left). by simplify_eq. }
    apply (Permutation_cons_inv (a := (t, Shared))). by rewrite E, Er.
Qed.

Definition RWMutex_laws (limit : nat) : LockLaws RWMutex.t (H := RWMutex_lockable limit).
Proof.
  refine {| rep := fun m hs =>
              (RWMutex.writer m = None \/ RWMutex.readers m = []) /\ hs ≡ₚ rw_holds m |}.
  - intros l hs hs' [Hw R] E. split; [done|]. by rewrite <- E.
  - split; [by left|reflexivity].
  - intros l hs [_ R]. rewrite R. apply rw_exclusive.
  - intros md t [rs [w|]] l' hs [Hw R]; destruct md; simpl;
      unfold RWMutex.rdlock, RWMutex.wrlock; simpl; try (by destruct (_ =? _)).
    + destruct (_ <? _)%nat; [|done]. intros [= <-]. simpl. split; [by left|].
      change (rw_holds {| RWMutex.readers := t :: rs; RWMutex.writer := None |})
        with ((t, Shared) :: rw_holds {| RWMutex.readers := rs; RWMutex.writer := None |}).
      by rewrite R.
    + destruct rs; [|done]. intros [= <-]. simpl. split; [by right|].
      apply Permutation_sym, Permutation_nil in R. by subst.
  - intros md t [rs [w|]] l' hs [Hw R]; destruct md; simpl;
      unfold RWMutex.rdlock, RWMutex.wrlock; simpl.
    1, 2: destruct (_ =? _); [done|]; by intros [= <-].
    + by destruct (_ <? _)%nat.
    + destruct rs; [done|]. by intros [= <-].
  - intros md t m hs [Hw R]. by apply (rw_release t md).
  - intros t [rs [w|]] [Hw R]; simpl in *;
      [by apply Permutation_nil in R|].
    destruct rs; [by eexists|by apply Permutation_nil in R].
Defined.

(** A lock with the laws makes somebody wait. *)
Lemma laws_make_wait {L} `{LockLaws L} :
  ~ (forall t l, exists l', acquire Exclusive t l = Acquired l').
Proof.
  intros Hall. destruct (Hall 1 unlocked) as [l1 E1], (Hall 2 l1) as [l2 E2].
  pose proof (rep_acquired _ _ _ _ _ (rep_acquired _ _ _ _ _ rep_unlocked E1) E2) as R.
  apply rep_exclusive in R as [R|R]; [simpl in R; lia|].
  specialize (R (2, Exclusive) (list_elem_of_here _ _)). discriminate R.
Qed.

(** The null locks exclude nobody: no representation satisfies the laws. *)
Lemma null_locks_have_no_laws :
  (LockLaws unit (H := NullMutex_lockable) -> False) /\
  (LockLaws unit (H := NullRWMutex_lockable) -> False).
Proof. split; intros HL; apply (@laws_make_wait _ _ HL); intros t []; by exists tt. Qed.

(** ** Guards over a lock with the laws *)
Section world.
Context {L : Type} `{LockLaws L}.
Implicit Types (w : World L) (g : nat) (x : Guard).

Definition world_ok w : Prop := rep (m_mutex w) (holds w).

Lemma holds_new g x w :
  guards w !! g = None -> holds (set_guard g x w) ≡ₚ option_list (hold_of x) ++ holds w.
Proof.
  intros E. unfold holds; simpl. rewrite map_to_list_insert by done. simpl.
  by destruct (hold_of x).
Qed.

Lemma holds_split g x w :
  guards w !! g = Some x -> holds w ≡ₚ option_list (hold_of x) ++ holds (drop_guard g w).
Proof.
  intros E. unfold holds; simpl. rewrite <- (map_to_list_delete (guards w) g x) by done. simpl.
  by destruct (hold_of x).
Qed.

Lemma holds_set g x w :
  holds (set_guard g x w) ≡ₚ option_list (hold_of x) ++ holds (drop_guard g w).
Proof.
  rewrite (holds_split g x) by (simpl; apply lookup_insert_eq).
  unfold holds; simpl. by rewrite delete_insert_eq.
Qed.

Lemma holds_drop g x w :
  guards w !! g = Some x -> hold_of x = None -> holds (drop_guard g w) ≡ₚ holds w.
Proof. intros E Hx. rewrite (holds_split g x w E), Hx. reflexivity. Qed.

(** An accepted call of the lock: it returned with the lock, or not yet. *)
Lemma mutex_acquire_ok md t w :
  world_ok w -> refused (acquire md t (m_mutex w)) = false ->
  exists l, rep l (if mutex_acquire md t w is (_, Ret true) then (t, md) :: holds w else holds w) /\
    exists b, mutex_acquire md t w = (set_mutex l w, Ret b).
Proof.
  intros Hw Ha. unfold mutex_acquire. cbn.
  destruct (acquire md t (m_mutex w)) as [l|l|l] eqn:E; [| |discriminate]; exists l; cbn.
  - split; [eapply rep_acquired; eauto|by exists true].
  - split; [eapply rep_again; eauto|by exists false].
Qed.

Lemma guard_new_ok md g t w :
  world_ok w -> guards w !! g = None -> refused (acquire md t (m_mutex w)) = false ->
  exists w', guard_new md g t w = (w', Ret tt) /\ world_ok w'.
Proof.
  intros Hw Hg Ha. destruct (mutex_acquire_ok md t w Hw Ha) as (l & Hl & b & E).
  unfold guard_new. cstep E. rewrite E in Hl. destruct b; eexists; (split; [reflexivity|]).
  - unfold world_ok; simpl. eapply rep_perm; [exact Hl|]. by rewrite holds_new.
  - exact Hl.
Qed.

Lemma get_guard_ok g x w : guards w !! g = Some x -> get_guard g w = (w, Ret x).
Proof. intros E. unfold get_guard. cbn. by rewrite E. Qed.

Lemma guard_lock_ok g x w :
  world_ok w -> guards w !! g = Some x ->
  m_locked x || negb (refused (acquire (g_mode x) (g_thread x) (m_mutex w))) ->
  exists w', guard_lock g w = (w', Ret tt) /\ world_ok w'.
Proof.
  intros Hw Hg Ha. unfold guard_lock. cstep (get_guard_ok g x w Hg).
  destruct (m_locked x) eqn:El; simpl in *; [by eexists|].
  apply negb_prop_elim, Is_true_false in Ha.
  destruct (mutex_acquire_ok _ _ w Hw Ha) as (l & Hl & b & E). cstep E. rewrite E in Hl.
  destruct b; eexists; (split; [reflexivity|]); [|exact Hl].
  unfold world_ok; simpl. eapply rep_perm; [exact Hl|].
  rewrite holds_set. simpl. constructor. symmetry.
  change (holds (drop_guard g w) ≡ₚ holds w). apply (holds_drop g x); [done|]. unfold hold_of. by rewrite El.
Qed.

Lemma guard_unlock_ok g x w :
  world_ok w -> guards w !! g = Some x ->
  exists w', guard_unlock g w = (w', Ret tt) /\ world_ok w' /\
    guards w' !! g = Some (mkGuard (g_thread x) (g_mode x) false).
Proof.
  intros Hw Hg. unfold guard_unlock. cstep (get_guard_ok g x w Hg).
  destruct x as [t md []]; simpl.
  - destruct (rep_release md t (m_mutex w) (holds (drop_guard g w))) as (l' & E & Hl).
    { eapply rep_perm; [exact Hw|]. by rewrite (holds_split g _ w Hg). }
    unfold mutex_unlock, cbind, cget, lift. rewrite E. eexists. split; [reflexivity|].
    split; [|apply lookup_insert_eq]. unfold world_ok; simpl. eapply rep_perm; [exact Hl|].
    by rewrite holds_set.
  - eexists. split; [reflexivity|]. by split.
Qed.

Lemma guard_delete_ok g x w :
  world_ok w -> guards w !! g = Some x ->
  exists w', guard_delete g w = (w', Ret tt) /\ world_ok w'.
Proof.
  intros Hw Hg. destruct (guard_unlock_ok g x w Hw Hg) as (w1 & E & Hw1 & Hg1).
  unfold guard_delete. cstep E. eexists. split; [reflexivity|].
  unfold world_ok; simpl. eapply rep_perm; [exact Hw1|]. symmetry. by eapply holds_drop.
Qed.

Lemma guard_perform_ok c w :
  world_ok w -> enabled c w -> accepted c w ->
  exists w', perform c w = (w', Ret tt) /\ world_ok w'.
Proof.
  intros Hw He Ha. destruct c as [g t md|g|g|g]; simpl in *;
    apply bool_decide_unpack in He; [|destruct He as [x Hx]..].
  - apply guard_new_ok; [done..|]. by apply negb_prop_elim, Is_true_false in Ha.
  - rewrite Hx in Ha. by apply (guard_lock_ok g x).
  - destruct (guard_unlock_ok g x w Hw Hx) as (w' & ? & ? & _). by exists w'.
  - by apply (guard_delete_ok g x).
Qed.

Lemma world_reachable_ok w : reachable w -> world_ok w.
Proof.
  induction 1 as [|w c w' r _ IH He Ha E].
  - unfold world_ok. apply rep_unlocked.
  - destruct (guard_perform_ok c w IH He Ha) as (w2 & E2 & Hok).
    rewrite E in E2. by simplify_eq.
Qed.

Lemma two_locked g1 g2 x1 x2 w :
  guards w !! g1 = Some x1 -> guards w !! g2 = Some x2 -> g1 <> g2 ->
  m_locked x1 = true -> m_locked x2 = true -> exclusive (holds w) ->
  g_mode x1 = Shared /\ g_mode x2 = Shared.
Proof.
  intros G1 G2 Hne L1 L2. rewrite (holds_split g1 x1) by done.
  rewrite (holds_split g2 x2 (drop_guard g1 w)) by (simpl; by rewrite lookup_delete_ne).
  destruct x1 as [t1 m1 []], x2 as [t2 m2 []]; try discriminate. simpl.
  intros [Hle|Hsh]; [simpl in Hle; lia|].
  split; [apply (Hsh (t1, m1)); left | apply (Hsh (t2, m2)); right; left].
Qed.

(** Legal sequences of calls reach their result. *)
Fixpoint legal (cs : list call) w : bool :=
  match cs with
  | [] => true
  | c :: r => enabled c w && accepted c w && legal r (perform c w).1
  end.

Lemma legal_reachable cs w : reachable w -> legal cs w -> reachable (perform_all cs w).
Proof.
  revert w. induction cs as [|c cs IH]; intros w Hr Hl; [done|]. simpl in Hl.
  apply andb_prop_elim in Hl as [[He Ha]%andb_prop_elim Hl]. apply IH; [|done].
  destruct (perform c w) as [w' r] eqn:E. by eapply reach_step.
Qed.

(** C3: over any lock with the laws (the mutex, the spin lock, the flag and the
    rwlock have them, the null locks have not: [null_locks_have_no_laws]), in every
    interleaving of the calls of any number of threads that the lock accepts:
    mutex, spin lock and flag accept all, the rwlock those of a thread that does
    not hold it for writing, while the readers are below the limit (the guards
    ignore a refusal: [nested_write_guard_loses_lock]).  Then two guards that are locked at the same time are both
    shared; no call of a guard unlocks a lock that its thread does not hold, or
    unlocks twice; and a lock none of whose guards is locked is free for the next
    thread that asks, whatever the guards did and in which order they died. *)
Theorem guards_respect_lock w :
  reachable w ->
  (forall g1 g2 x1 x2, guards w !! g1 = Some x1 -> guards w !! g2 = Some x2 -> g1 <> g2 ->
     m_locked x1 = true -> m_locked x2 = true -> g_mode x1 = Shared /\ g_mode x2 = Shared) /\
  (forall c, enabled c w -> accepted c w -> exists w', perform c w = (w', Ret tt)) /\
  ((forall g x, guards w !! g = Some x -> m_locked x = false) ->
   forall t, exists l, acquire Exclusive t (m_mutex w) = Acquired l).
Proof.
  intros Hr. pose proof (world_reachable_ok w Hr) as Hw. split; [|split].
  - intros g1 g2 x1 x2 G1 G2 Hne L1 L2. apply (two_locked g1 g2 x1 x2 w); try done.
    by apply (rep_exclusive (m_mutex w)).
  - intros c He Ha. destruct (guard_perform_ok c w Hw He Ha) as (w' & E & _). by exists w'.
  - intros Hall t. apply (rep_free t). eapply rep_perm; [exact Hw|].
    assert (holds w = []) as ->; [|done]. unfold holds.
    apply elem_of_nil_inv. intros h ([g x] & Hin & Hx)%list_elem_of_omap.
    apply elem_of_map_to_list in Hin. unfold hold_of in Hx. simpl in Hx.
    by rewrite (Hall g x Hin) in Hx.
Qed.
End world.

(** ** When a lock call is accepted *)

(** The locks with one mode accept every call of it. *)
Lemma CASLock_accepts t l : refused (acquire (L := bool) Exclusive t l) = false.
Proof. by destruct l. Qed.

Lemma Mutex_accepts t (l : Mutex.t) : refused (acquire Exclusive t l) = false.
Proof. by destruct l as [[]]. Qed.

(** The rwlock refuses only a thread that holds it for writing, and a reader
    above the limit. *)
Lemma RWMutex_accepts limit md t (l : RWMutex.t) :
  RWMutex.writer l <> Some t -> (length (RWMutex.readers l) < limit)%nat ->
  refused (acquire (Lockable := RWMutex_lockable limit) md t l) = false.
Proof.
  destruct l as [rs [x|]], md; simpl; unfold RWMutex.rdlock, RWMutex.wrlock; simpl; intros Hw Hl.
  1, 2: destruct (Z.eqb_spec x t); [by subst|done].
  - apply Nat.ltb_lt in Hl. by rewrite Hl.
  - by destruct rs.
Qed.

(** ** A write guard inside a write guard

    [wrlock] of a thread that already holds the lock returns EDEADLK; the guard
    takes it for success, and its destructor gives up the outer hold. *)
(** Thread 1 nests a write guard in another one and loses the lock when the
    inner guard dies: thread 2 gets a write guard while the outer one is still
    locked. *)
Theorem nested_write_guard_loses_lock :
  let w := perform_all (H := RWMutex_lockable 100)
             [CNew 0 1 Exclusive; CNew 1 1 Exclusive; CDelete 1; CNew 2 2 Exclusive]
             (mkWorld RWMutex.RWMutex_new ∅) in
  guards w !! 0%nat = Some (mkGuard 1 Exclusive true) /\
  guards w !! 2%nat = Some (mkGuard 2 Exclusive true).
Proof. split; vm_compute; reflexivity. Qed.

(** Threads 1 and 2 read while thread 3 waits to write; and two threads on the
    flag, one of which unlocks and locks again. *)
Definition readers_and_writer : list call :=
  [CNew 0 1 Shared; CNew 1 2 Shared; CNew 2 3 Exclusive].

Definition flag_users : list call :=
  [CNew 0 1 Exclusive; CNew 1 2 Exclusive; CUnlock 0; CLock 0].

Lemma guards_respect_lock_witness :
  (let w := perform_all (H := RWMutex_lockable 100) readers_and_writer
              (mkWorld RWMutex.RWMutex_new ∅) in
   exists x1 x2, guards w !! 0%nat = Some x1 /\ guards w !! 1%nat = Some x2 /\
     g_mode x1 = Shared /\ g_mode x2 = Shared) /\
  exists w', perform (H := CASLock_lockable) (CDelete 0)
    (perform_all flag_users (mkWorld CASLock.CASLock_new ∅)) = (w', Ret tt).
Proof.
  split.
  - set (w := perform_all _ _). exists (mkGuard 1 Shared true), (mkGuard 2 Shared true).
    split; [vm_compute; reflexivity|]. split; [vm_compute; reflexivity|].
    eapply (proj1 (@guards_respect_lock RWMutex.t (RWMutex_lockable 100) (RWMutex_laws 100) w
      ltac:(apply legal_reachable; [exact (@reach_init _ (RWMutex_lockable 100))|vm_compute; exact I]))
      0%nat 1%nat); try (vm_compute; reflexivity); lia.
  - apply (guards_respect_lock (L := bool)); [|vm_compute; exact I..].
    apply legal_reachable; [exact (@reach_init _ CASLock_lockable)|vm_compute; exact I].
Defined.

(** ** The semaphore *)

(** The semaphore conserves its units: after any calls of any threads the
    count is the initial one, plus the accepted notifications, minus the waits
    that returned, and it stays between 0 and SEM_VALUE_MAX; so a wait returns
    only for a unit that was there. *)
Theorem semaphore_conserves ops n :
  0 <= n <= Semaphore.SEM_VALUE_MAX ->
  exists n' w p, Semaphore.run ops (n, 0, 0) = (n', w, p) /\
    n' = n + p - w /\ 0 <= n' <= Semaphore.SEM_VALUE_MAX /\ 0 <= w /\ 0 <= p.
Proof.
  intros Hn. assert (forall k w p, 0 <= k <= Semaphore.SEM_VALUE_MAX -> 0 <= w -> 0 <= p ->
    exists n' w' p', Semaphore.run ops (k, w, p) = (n', w', p') /\
      n' - p' + w' = k - p + w /\ 0 <= n' <= Semaphore.SEM_VALUE_MAX /\ 0 <= w' /\ 0 <= p') as G.
  { clear. induction ops as [|[b|] ops IH]; intros k w p Hk Hw Hp; simpl.
    - exists k, w, p. split; [done|lia].
    - unfold Semaphore.wait, cbind, cget, id. destruct (0 <? k) eqn:E; simpl;
        [|destruct b; simpl; apply IH; lia].
      destruct (IH (k - 1) (w + 1) p) as (? & ? & ? & -> & ?); [lia..|]. do 3 eexists.
      split; [done|lia].
    - unfold Semaphore.notify, cbind, cget, id. destruct (k <? _) eqn:E; simpl; [|apply IH; lia].
      destruct (IH (k + 1) w (p + 1)) as (? & ? & ? & -> & ?); [lia..|]. do 3 eexists.
      split; [done|lia]. }
  destruct (G n 0 0) as (n' & w & p & E & ?); [lia..|]. exists n', w, p. split; [done|lia].
Qed.
