(* ===== verification/Util.v ===== *)
(** * Clocks and backtraces (sylar/util.h, sylar/util.cpp)

    [gettimeofday] and the functions of execinfo.h are parameters: the time is
    an argument, and so are the symbols of the frames that [backtrace] found, or
    the failure of [backtrace_symbols].  Memory is the number of blocks that are
    allocated and not freed. *)

From Stdlib Require Import ZArith Lia String.
From stdpp Require Import base list strings.
From S2P Require Import Prelude.

Local Open Scope Z_scope.
Local Open Scope cpp_scope.

(** ** The clock *)
Record timeval := mkTv { tv_sec : Z; tv_usec : Z }.

(** [tv_sec * 1000ul + tv_usec / 1000]: unsigned from the first product on. *)
Definition GetCurrentMS (tv : timeval) : outcome Z :=
  Ret (u64 (u64 (u64 (tv_sec tv) * 1000) + u64 (Z.quot (tv_usec tv) 1000))).

(** [tv_sec * 1000 * 1000ul + tv_usec]: the first product is a signed one. *)
Definition GetCurrentUS (tv : timeval) : outcome Z :=
  if bool_decide (s_range 64 (tv_sec tv * 1000))
  then Ret (u64 (u64 (u64 (tv_sec tv * 1000) * 1000) + u64 (tv_usec tv)))
  else Undef SignedOverflow.

(** ** The backtrace *)

(** [Backtrace(bt, size, skip)] on [blocks] allocated blocks: [frames] are the
    symbols of the call stack; [malloc] fails for a request that is too large
    (a negative [size] is one). *)
Definition Backtrace (frames : list string) (symbols_ok : bool) (bt : list string) (size skip : Z)
    : M Z (list string) :=
  if size <? 0 then cundef NullDeref
  else
    cmod (fun blocks => blocks + 1) ;;;
    let s := take (Z.to_nat size) frames in
    if negb symbols_ok then cret bt
    else
      cmod (fun blocks => blocks + 1) ;;;
      cmod (fun blocks => blocks - 1) ;;;
      cmod (fun blocks => blocks - 1) ;;;
      cret (bt ++ (if skip <? 0 then [] else drop (Z.to_nat skip) s)).

Definition endl : string := String (Ascii.ascii_of_nat 10) "".

Fixpoint print_lines (prefix : string) (bt : list string) : string :=
  match bt with
  | [] => ""
  | l :: r => (prefix ++ l ++ endl ++ print_lines prefix r)%string
  end.

Definition BacktraceToString (frames : list string) (symbols_ok : bool) (size skip : Z)
    (prefix : string) : M Z string :=
  let! bt := Backtrace frames symbols_ok [] size skip in
  cret (print_lines prefix bt).

(** ** What they guarantee *)

(** Dates after 1970 for which microseconds fit 64 bits. *)
Definition ordinary (tv : timeval) : Prop :=
  0 <= tv_sec tv < 2 ^ 43 /\ 0 <= tv_usec tv < 1000000.

Lemma ordinary_us tv : ordinary tv -> GetCurrentUS tv = Ret (tv_sec tv * 1000000 + tv_usec tv).
Proof.
  intros [H1 H2]. unfold GetCurrentUS.
  change (2 ^ 43) with 8796093022208 in H1.
  rewrite bool_decide_eq_true_2 by (unfold s_range; change (2 ^ (64 - 1)) with 9223372036854775808; lia).
  unfold uwrap. change (2 ^ 64) with 18446744073709551616. f_equal.
  rewrite (Z.mod_small (tv_sec tv * 1000)), (Z.mod_small (tv_sec tv * 1000 * 1000)),
    (Z.mod_small (tv_usec tv)), Z.mod_small; lia.
Qed.

Lemma ordinary_ms tv : ordinary tv -> GetCurrentMS tv = Ret (tv_sec tv * 1000 + tv_usec tv / 1000).
Proof.
  intros [H1 H2]. unfold GetCurrentMS. rewrite Z.quot_div_nonneg by lia.
  assert (0 <= tv_usec tv / 1000 < 1000) by (split; [apply Z.div_pos; lia|apply Z.div_lt_upper_bound; lia]).
  change (2 ^ 43) with 8796093022208 in H1.
  unfold uwrap. change (2 ^ 64) with 18446744073709551616. f_equal.
  rewrite (Z.mod_small (tv_sec tv)), (Z.mod_small (tv_sec tv * 1000)),
    (Z.mod_small (tv_usec tv / 1000)), Z.mod_small; lia.
Qed.

(** The two clocks agree: the milliseconds are the microseconds divided by a
    thousand, and a later time never reads as an earlier one on either. *)
Theorem clocks_agree tv tv' :
  ordinary tv -> ordinary tv' ->
  tv_sec tv < tv_sec tv' \/ tv_sec tv = tv_sec tv' /\ tv_usec tv <= tv_usec tv' ->
  exists ms us ms' us',
    GetCurrentMS tv = Ret ms /\ GetCurrentUS tv = Ret us /\
    GetCurrentMS tv' = Ret ms' /\ GetCurrentUS tv' = Ret us' /\
    ms = us / 1000 /\ ms <= ms' /\ us <= us'.
Proof.
  intros H H' Hle. do 4 eexists.
  split; [by apply ordinary_ms|]. split; [by apply ordinary_us|].
  split; [by apply ordinary_ms|]. split; [by apply ordinary_us|].
  destruct H as [H1 H2], H' as [H3 H4].
  assert (forall t, t.(tv_sec) * 1000 + t.(tv_usec) / 1000 = (t.(tv_sec) * 1000000 + t.(tv_usec)) / 1000) as E.
  { intros t. replace (tv_sec t * 1000000 + tv_usec t) with (tv_usec t + (tv_sec t * 1000) * 1000) by ring.
    rewrite Z.div_add by lia. ring. }
  rewrite !E. assert (tv_sec tv * 1000000 + tv_usec tv <= tv_sec tv' * 1000000 + tv_usec tv') by lia.
  split; [done|]. split; [apply Z.div_le_mono; lia|lia].
Qed.

(** A time beyond 2^63 / 1000 seconds is a signed overflow in
    [GetCurrentUS], although the millisecond clock still reads it. *)
Lemma us_overflows : GetCurrentUS (mkTv (2 ^ 60) 0) = Undef SignedOverflow
  /\ GetCurrentMS (mkTv (2 ^ 60) 0) = Ret ((2 ^ 60 * 1000) mod 2 ^ 64).
Proof. split; vm_compute; reflexivity. Qed.

(** A backtrace that succeeds gives its memory back; one whose symbols cannot
    be found keeps the array of addresses. *)
Theorem failed_backtrace_leaks frames bt size skip blocks :
  0 <= size ->
  (Backtrace frames true bt size skip blocks).1 = blocks /\
  Backtrace frames false bt size skip blocks = (blocks + 1, Ret bt).
Proof.
  intros H. unfold Backtrace. replace (size <? 0) with false by lia. split; [|reflexivity].
  cbn. lia.
Qed.
