(* ===== verification/Endian.v ===== *)
(** * Byte order: sylar/endian.h

    Integers as byte sequences, [byteswap], and the memory image of an integer
    on a host of either byte order.  [SYLAR_BYTE_ORDER] is a compile-time
    choice of the header, so it is a parameter here ([host]) and every lemma
    holds for both values. *)

From stdpp Require Import base list numbers.
From Stdlib Require Import ZArith Lia.
From S2P Require Import Prelude.

Local Open Scope Z_scope.

Definition SYLAR_LITTLE_ENDIAN : Z := 1.
Definition SYLAR_BIG_ENDIAN : Z := 2.

Definition is_order (e : Z) : Prop :=
  e = SYLAR_LITTLE_ENDIAN \/ e = SYLAR_BIG_ENDIAN.

(** The [n] low bytes of [x], least significant first, and back. *)
Fixpoint bytes_of (n : nat) (x : Z) : list Z :=
  match n with
  | O => []
  | S n' => x mod 256 :: bytes_of n' (x / 256)
  end.

Fixpoint of_bytes (l : list Z) : Z :=
  match l with
  | [] => 0
  | b :: l' => b + 256 * of_bytes l'
  end.

(** [bswap_16], [bswap_32] and [bswap_64] of <byteswap.h>. *)
Definition bswap (n : nat) (x : Z) : Z := of_bytes (rev (bytes_of n x)).

(** The three [byteswap] templates: convert to the unsigned type of the same
    size, swap, convert back to [T]. *)
Definition byteswap_u (n : nat) (value : Z) : Z :=
  bswap n (uwrap (8 * Z.of_nat n) value).

Definition byteswap_s (n : nat) (value : Z) : Z :=
  swrap (8 * Z.of_nat n) (bswap n (uwrap (8 * Z.of_nat n) value)).

Definition byteswapOnLittleEndian (host : Z) (n : nat) (t : Z) : Z :=
  if host =? SYLAR_BIG_ENDIAN then t else byteswap_u n t.

Definition byteswapOnBigEndian (host : Z) (n : nat) (t : Z) : Z :=
  if host =? SYLAR_BIG_ENDIAN then byteswap_u n t else t.

(** The bytes of an [n]-byte integer object in memory, lowest address first,
    and the value of such an object. *)
Definition mem_image (order : Z) (n : nat) (x : Z) : list Z :=
  if order =? SYLAR_LITTLE_ENDIAN then bytes_of n x else rev (bytes_of n x).

Definition mem_value (order : Z) (l : list Z) : Z :=
  of_bytes (if order =? SYLAR_LITTLE_ENDIAN then l else rev l).

Definition is_byte (b : Z) : Prop := 0 <= b < 256.

(** ** Lemmas *)

Lemma length_bytes_of n x : length (bytes_of n x) = n.
Proof. revert x; induction n; intros; simpl; auto. Qed.

Lemma bytes_of_is_byte n x : Forall is_byte (bytes_of n x).
Proof.
  revert x; induction n; intros; simpl; constructor; auto.
  unfold is_byte. apply Z.mod_pos_bound. lia.
Qed.

Lemma of_bytes_of n x : of_bytes (bytes_of n x) = x mod 256 ^ Z.of_nat n.
Proof.
  revert x; induction n; intros x; simpl bytes_of; simpl of_bytes.
  - rewrite Z.mod_1_r. reflexivity.
  - rewrite IHn, Nat2Z.inj_succ, Z.pow_succ_r by lia.
    rewrite Z.rem_mul_r by lia. lia.
Qed.

Lemma bytes_of_bytes l : Forall is_byte l -> bytes_of (length l) (of_bytes l) = l.
Proof.
  induction 1 as [|b l Hb Hl IH]; simpl; [reflexivity|].
  unfold is_byte in Hb. f_equal.
  - rewrite Z.mul_comm, Z.mod_add by lia. apply Z.mod_small. lia.
  - rewrite Z.mul_comm, Z.div_add by lia.
    rewrite Z.div_small by lia. exact IH.
Qed.

Lemma pow256 n : 256 ^ Z.of_nat n = 2 ^ (8 * Z.of_nat n).
Proof. rewrite Z.pow_mul_r by lia. reflexivity. Qed.

Lemma of_bytes_range l : Forall is_byte l -> u_range (8 * zlen l) (of_bytes l).
Proof.
  intros H. unfold u_range, zlen. rewrite <- pow256, <- (bytes_of_bytes l H).
  rewrite of_bytes_of, length_bytes_of. apply Z.mod_pos_bound. lia.
Qed.

Lemma bytes_of_uwrap n x : bytes_of n (uwrap (8 * Z.of_nat n) x) = bytes_of n x.
Proof.
  unfold uwrap. rewrite <- pow256, <- of_bytes_of.
  rewrite <- (length_bytes_of n x) at 1.
  apply bytes_of_bytes, bytes_of_is_byte.
Qed.

Lemma bytes_of_bswap n x : bytes_of n (bswap n x) = rev (bytes_of n x).
Proof.
  unfold bswap. replace n with (length (rev (bytes_of n x))) at 1
    by (rewrite length_rev; apply length_bytes_of).
  apply bytes_of_bytes, Forall_rev, bytes_of_is_byte.
Qed.

Lemma bytes_of_swrap n x :
  (0 < n)%nat -> bytes_of n (swrap (8 * Z.of_nat n) x) = bytes_of n x.
Proof.
  intros. rewrite <- (bytes_of_uwrap n (swrap _ _)), <- (bytes_of_uwrap n x).
  f_equal. unfold uwrap, swrap.
  rewrite Zminus_mod_idemp_l. f_equal. lia.
Qed.

Lemma bytes_of_byteswap_u n x : bytes_of n (byteswap_u n x) = rev (bytes_of n x).
Proof. unfold byteswap_u. rewrite bytes_of_bswap, bytes_of_uwrap. reflexivity. Qed.

Lemma bytes_of_byteswap_s n x :
  (0 < n)%nat -> bytes_of n (byteswap_s n x) = rev (bytes_of n x).
Proof.
  intros. unfold byteswap_s.
  rewrite bytes_of_swrap, bytes_of_bswap, bytes_of_uwrap by assumption. reflexivity.
Qed.

Lemma length_mem_image e n x : length (mem_image e n x) = n.
Proof.
  unfold mem_image. destruct (_ =? _); rewrite ?length_rev; apply length_bytes_of.
Qed.

Lemma mem_image_is_byte e n x : Forall is_byte (mem_image e n x).
Proof.
  unfold mem_image. destruct (_ =? _); [|apply Forall_rev]; apply bytes_of_is_byte.
Qed.

Lemma mem_value_image e n x :
  mem_value e (mem_image e n x) = uwrap (8 * Z.of_nat n) x.
Proof.
  unfold mem_value, mem_image. destruct (_ =? _); rewrite ?rev_involutive;
    rewrite of_bytes_of, pow256; reflexivity.
Qed.

Lemma mem_image_rev e h n x :
  is_order e -> is_order h -> h <> e -> rev (mem_image h n x) = mem_image e n x.
Proof.
  intros [->| ->] [->| ->] Hne; try congruence; unfold mem_image; simpl;
    rewrite ?rev_involutive; reflexivity.
Qed.

(** Storing a swapped integer on the host writes the image of the other
    order. *)
Lemma mem_image_swapped e h n x y :
  is_order e -> is_order h -> h <> e -> bytes_of n y = rev (bytes_of n x) ->
  mem_image h n y = mem_image e n x.
Proof.
  intros He Hh Hne E. rewrite <- (mem_image_rev e h) by assumption.
  unfold mem_image. destruct (h =? _); rewrite E, ?rev_involutive; reflexivity.
Qed.

Lemma byteswap_u_involutive n x :
  byteswap_u n (byteswap_u n x) = uwrap (8 * Z.of_nat n) x.
Proof.
  unfold byteswap_u at 1. unfold bswap.
  rewrite bytes_of_uwrap, bytes_of_byteswap_u, rev_involutive, of_bytes_of, pow256.
  reflexivity.
Qed.

Lemma byteswap_s_involutive n x :
  (0 < n)%nat -> byteswap_s n (byteswap_s n x) = swrap (8 * Z.of_nat n) x.
Proof.
  intros. unfold byteswap_s at 1, bswap.
  rewrite bytes_of_uwrap, bytes_of_byteswap_s, rev_involutive, of_bytes_of, pow256
    by assumption.
  unfold swrap. rewrite Zplus_mod_idemp_l. reflexivity.
Qed.

#[export] Hint Resolve bytes_of_is_byte mem_image_is_byte : sylar.
