(* ===== verification/Ordered.v ===== *)
(** * Ordered containers: std::set and std::map as sorted sequences

    The red-black trees behind [std::set] and [std::map] are observed only
    through their in-order sequence and their comparator.  The container is
    that sequence; the operations are those of the Standard Library, decided by
    calls to the comparator alone.  [StrictWeak] is what the standard demands of
    a comparator; the clients discharge it for [Timer::Comparator]
    (Timer.v) and [CaseInsensitiveLess] (Http.v). *)

From stdpp Require Import base list sorting sets.
From Stdlib Require Import Lia.
From S2P Require Import Prelude.

(** A strict weak order, as a [bool] function. *)
Class StrictWeak {E : Type} (lt : E -> E -> bool) : Prop := {
  sw_irrefl a : lt a a = false;
  sw_trans a b c : lt a b = true -> lt b c = true -> lt a c = true;
  sw_split a b c : lt a b = true -> lt a c = true \/ lt c b = true
}.

Section ordered.
Context {E : Type} (lt : E -> E -> bool).

Definition sorted (l : list E) : Prop := StronglySorted (fun a b => lt a b = true) l.

(** Neither is less than the other: the same key to the container. *)
Definition same_key (a b : E) : Prop := lt a b = false /\ lt b a = false.

Fixpoint lower_bound (x : E) (l : list E) : nat :=
  match l with
  | [] => 0
  | y :: r => if lt y x then S (lower_bound x r) else 0
  end.

(** [insert(x)]: nothing happens when the key is there. *)
Fixpoint set_insert (x : E) (l : list E) : list E :=
  match l with
  | [] => [x]
  | y :: r => if lt y x then y :: set_insert x r else if lt x y then x :: l else l
  end.

(** [find(x)]: the position of the element with the key of [x]; [None] is
    [end()]. *)
Definition set_find (x : E) (l : list E) : option nat :=
  let i := lower_bound x l in
  match l !! i with
  | Some y => if lt x y then None else Some i
  | None => None
  end.

Context {SW : StrictWeak lt}.

Lemma lt_asym a b : lt a b = true -> lt b a = false.
Proof.
  intros H. destruct (lt b a) eqn:Hba; [|reflexivity].
  pose proof (sw_trans _ _ _ H Hba) as Haa. rewrite sw_irrefl in Haa. discriminate.
Qed.

Lemma same_key_refl a : same_key a a.
Proof. split; apply sw_irrefl. Qed.

Lemma same_key_sym a b : same_key a b -> same_key b a.
Proof. intros [? ?]. split; assumption. Qed.

Lemma same_key_lt_l a b c : same_key a b -> lt a c = true -> lt b c = true.
Proof.
  intros [H1 H2] H. destruct (sw_split a c b H) as [Hab|Hbc]; [congruence|assumption].
Qed.

Lemma same_key_lt_r a b c : same_key a b -> lt c a = true -> lt c b = true.
Proof.
  intros [H1 H2] H. destruct (sw_split c a b H) as [Hab|Hbc]; [assumption|congruence].
Qed.

Lemma same_key_trans a b c : same_key a b -> same_key b c -> same_key a c.
Proof.
  intros Hab Hbc. split; apply not_true_is_false; intros H.
  - apply (same_key_lt_l _ _ _ Hab) in H. destruct Hbc; congruence.
  - apply (same_key_lt_r _ _ _ Hab) in H. destruct Hbc; congruence.
Qed.

(** ** Membership *)

Lemma elem_set_insert x y l :
  y ∈ set_insert x l -> y = x \/ y ∈ l.
Proof.
  induction l as [|z r IH]; simpl; [set_solver|].
  destruct (lt z x); [set_solver|]. destruct (lt x z); set_solver.
Qed.

Lemma set_insert_perm x l :
  (forall y, y ∈ l -> ~ same_key x y) -> set_insert x l ≡ₚ x :: l.
Proof.
  induction l as [|z r IH]; simpl; intros Hn; [reflexivity|].
  destruct (lt z x) eqn:Hzx.
  - rewrite IH by set_solver. constructor.
  - destruct (lt x z) eqn:Hxz; [reflexivity|]. destruct (Hn z); [set_solver|split; assumption].
Qed.

Lemma sorted_cons_inv a l : sorted (a :: l) -> sorted l /\ (forall y, y ∈ l -> lt a y = true).
Proof.
  intros H. inversion H as [|? ? Hs Hf]; subst. split; [assumption|].
  intros y Hy. rewrite Forall_forall in Hf. apply Hf. assumption.
Qed.

Lemma sorted_cons a l : sorted l -> (forall y, y ∈ l -> lt a y = true) -> sorted (a :: l).
Proof. intros Hs Hf. constructor; [assumption|]. apply Forall_forall. assumption. Qed.

Lemma set_insert_sorted x l : sorted l -> sorted (set_insert x l).
Proof.
  induction l as [|z r IH]; simpl; intros Hs; [apply sorted_cons; [constructor|set_solver]|].
  destruct (sorted_cons_inv _ _ Hs) as [Hr Hz].
  destruct (lt z x) eqn:Hzx.
  - apply sorted_cons; [auto|]. intros y Hy.
    destruct (elem_set_insert _ _ _ Hy) as [->|]; auto.
  - destruct (lt x z) eqn:Hxz; [|assumption]. apply sorted_cons; [assumption|].
    intros y Hy. apply elem_of_cons in Hy as [->|Hy]; [assumption|].
    apply (sw_trans _ z); auto.
Qed.

Lemma sorted_delete i l : sorted l -> sorted (delete i l).
Proof.
  revert i. induction l as [|z r IH]; intros i Hs; [destruct i; assumption|].
  destruct (sorted_cons_inv _ _ Hs) as [Hr Hz]. destruct i as [|i]; [exact Hr|]. simpl.
  apply sorted_cons; [auto|]. intros y Hy. apply Hz.
  clear -Hy. revert i Hy. induction r as [|w r IH]; intros [|i] Hy; simpl in *; set_solver.
Qed.

Lemma sorted_app_inv l1 l2 :
  sorted (l1 ++ l2) ->
  sorted l1 /\ sorted l2 /\ (forall a b, a ∈ l1 -> b ∈ l2 -> lt a b = true).
Proof.
  induction l1 as [|a l1 IH]; simpl; intros Hs; [split; [constructor|set_solver]|].
  destruct (sorted_cons_inv _ _ Hs) as [Hs' Ha]. destruct (IH Hs') as (H1 & H2 & H3).
  split; [apply sorted_cons; set_solver|]. split; [assumption|].
  intros x y Hx Hy. apply elem_of_cons in Hx as [->|Hx]; [apply Ha; set_solver|auto].
Qed.

(** Two members with the same key are one. *)
Lemma sorted_same_key l a b : sorted l -> a ∈ l -> b ∈ l -> same_key a b -> a = b.
Proof.
  induction l as [|z r IH]; intros Hs Ha Hb [H1 H2]; [set_solver|].
  destruct (sorted_cons_inv _ _ Hs) as [Hr Hz].
  apply elem_of_cons in Ha as [->|Ha]; apply elem_of_cons in Hb as [->|Hb]; auto.
  - rewrite Hz in H1 by assumption. discriminate.
  - rewrite Hz in H2 by assumption. discriminate.
  - apply IH; auto. split; assumption.
Qed.

Lemma sorted_nodup l : sorted l -> NoDup l.
Proof.
  induction l as [|z r IH]; intros Hs; [constructor|].
  destruct (sorted_cons_inv _ _ Hs) as [Hr Hz]. constructor; [|auto].
  intros Hin. specialize (Hz z Hin). rewrite sw_irrefl in Hz. discriminate.
Qed.

(** ** Searching *)

Lemma lower_bound_take x l y : y ∈ take (lower_bound x l) l -> lt y x = true.
Proof.
  induction l as [|z r IH]; simpl; [set_solver|].
  destruct (lt z x) eqn:Hzx; simpl; [|set_solver].
  intros Hy. apply elem_of_cons in Hy as [->|Hy]; auto.
Qed.

Lemma lower_bound_drop x l y :
  sorted l -> y ∈ drop (lower_bound x l) l -> lt y x = false.
Proof.
  induction l as [|z r IH]; simpl; intros Hs Hy; [set_solver|].
  destruct (sorted_cons_inv _ _ Hs) as [Hr Hz].
  destruct (lt z x) eqn:Hzx; simpl in Hy; [auto|].
  apply elem_of_cons in Hy as [->|Hy]; [assumption|].
  apply not_true_is_false. intros Hyx. rewrite (sw_trans z y x) in Hzx; auto; discriminate.
Qed.

Lemma set_find_some x l i :
  sorted l -> set_find x l = Some i ->
  exists y, l !! i = Some y /\ same_key x y.
Proof.
  unfold set_find. intros Hs H. destruct (l !! lower_bound x l) as [y|] eqn:Hy; [|discriminate].
  destruct (lt x y) eqn:Hxy; [discriminate|]. injection H as <-. exists y. split; [assumption|].
  split; [assumption|]. apply (lower_bound_drop x l y Hs).
  apply list_elem_of_lookup. exists 0. rewrite lookup_drop, Nat.add_0_r. assumption.
Qed.

Lemma set_find_complete x l y :
  sorted l -> y ∈ l -> same_key x y ->
  exists i, set_find x l = Some i /\ l !! i = Some y.
Proof.
  intros Hs Hy [H1 H2]. unfold set_find.
  rewrite <- (take_drop (lower_bound x l) l) in Hy. apply elem_of_app in Hy as [Hy|Hy].
  { apply lower_bound_take in Hy. congruence. }
  destruct (drop (lower_bound x l) l) as [|z r] eqn:Hd; [set_solver|].
  assert (Hz : l !! lower_bound x l = Some z).
  { rewrite <- (Nat.add_0_r (lower_bound x l)), <- lookup_drop, Hd. reflexivity. }
  assert (Hzx : lt z x = false) by (apply (lower_bound_drop x l z Hs); rewrite Hd; set_solver).
  rewrite Hz. destruct (lt x z) eqn:Hxz.
  - exfalso. rewrite <- (take_drop (lower_bound x l) l) in Hs.
    destruct (sorted_app_inv _ _ Hs) as (_ & Hs2 & _). rewrite Hd in Hs2.
    destruct (sorted_cons_inv _ _ Hs2) as [_ Hall].
    apply elem_of_cons in Hy as [->|Hy]; [congruence|].
    rewrite (sw_trans x z y) in H1; auto. discriminate.
  - exists (lower_bound x l). split; [reflexivity|]. rewrite Hz. f_equal.
    apply (sorted_same_key l); [assumption| | |].
    + eapply list_elem_of_lookup_2. exact Hz.
    + rewrite <- (take_drop (lower_bound x l) l), Hd. set_solver.
    + apply (same_key_trans _ x); split; assumption.
Qed.

Lemma set_find_none x l :
  sorted l -> set_find x l = None -> forall y, y ∈ l -> ~ same_key x y.
Proof.
  intros Hs Hn y Hy Hk. destruct (set_find_complete x l y Hs Hy Hk) as (i & Hi & _). congruence.
Qed.
End ordered.

(** The container depends on the values of the comparator only. *)
Lemma set_find_ext {E} (lt lt' : E -> E -> bool) x l :
  (forall a b, lt a b = lt' a b) -> set_find lt x l = set_find lt' x l.
Proof.
  intros H. unfold set_find.
  assert (El : lower_bound lt x l = lower_bound lt' x l)
    by (induction l as [|y r IH]; simpl; rewrite ?H, ?IH; reflexivity).
  rewrite El. destruct (l !! _); rewrite ?H; reflexivity.
Qed.

(** ** [std::map]: the pairs, ordered by their keys

    [m[key] = value] on a present key keeps the key that is stored and replaces
    the value; [find] and [erase] go by the comparator, so a key is found under
    any other spelling the comparator does not tell apart. *)

Lemma filter_all {A} (P : A -> bool) l :
  (forall y, y ∈ l -> P y = true) -> List.filter P l = l.
Proof.
  induction l as [|y l IH]; simpl; intros H; [reflexivity|].
  rewrite H, IH by set_solver. reflexivity.
Qed.

Section assoc.
Context {K V : Type} (klt : K -> K -> bool).

Definition entry_lt (p q : K * V) : bool := klt p.1 q.1.

Fixpoint map_set (k : K) (v : V) (l : list (K * V)) : list (K * V) :=
  match l with
  | [] => [(k, v)]
  | (k', v') :: r =>
      if klt k' k then (k', v') :: map_set k v r
      else if klt k k' then (k, v) :: l else (k', v) :: r
  end.

Fixpoint map_find (k : K) (l : list (K * V)) : option (K * V) :=
  match l with
  | [] => None
  | (k', v') :: r =>
      if klt k' k then map_find k r else if klt k k' then None else Some (k', v')
  end.

Fixpoint map_erase (k : K) (l : list (K * V)) : list (K * V) :=
  match l with
  | [] => []
  | (k', v') :: r =>
      if klt k' k then (k', v') :: map_erase k r else if klt k k' then l else r
  end.

Definition map_get (k : K) (l : list (K * V)) : option V := snd <$> map_find k l.

Definition same_keyb (a b : K) : bool := negb (klt a b) && negb (klt b a).

Context {SW : StrictWeak klt}.

#[global] Instance entry_lt_strict : StrictWeak entry_lt.
Proof.
  split; unfold entry_lt.
  - intros a. apply sw_irrefl.
  - intros a b c. apply sw_trans.
  - intros a b c. apply sw_split.
Qed.

Lemma same_keyb_spec a b : same_keyb a b = true <-> same_key klt a b.
Proof.
  unfold same_keyb, same_key. rewrite andb_true_iff, !negb_true_iff. reflexivity.
Qed.

Lemma same_keyb_refl a : same_keyb a a = true.
Proof. apply same_keyb_spec, same_key_refl, _. Qed.

Lemma elem_map_set k v y l : y ∈ map_set k v l -> same_key klt y.1 k \/ y ∈ l.
Proof.
  induction l as [|[k' v'] r IH]; simpl.
  - intros ->%list_elem_of_singleton. left. apply same_key_refl, _.
  - destruct (klt k' k) eqn:H1; [set_solver|]. destruct (klt k k') eqn:H2.
    + intros [->|?]%elem_of_cons; [left; apply same_key_refl, _|auto].
    + intros [->|?]%elem_of_cons; [left; split; assumption|set_solver].
Qed.

Lemma map_set_sorted k v l : sorted entry_lt l -> sorted entry_lt (map_set k v l).
Proof.
  induction l as [|[k' v'] r IH]; simpl; intros Hs; [apply sorted_cons; [constructor|set_solver]|].
  destruct (sorted_cons_inv _ _ _ Hs) as [Hr Hz].
  destruct (klt k' k) eqn:H1; [|destruct (klt k k') eqn:H2]; apply sorted_cons; auto; intros y Hy.
  - apply elem_map_set in Hy as [Hy|Hy]; [|auto]. unfold entry_lt. simpl.
    apply (same_key_lt_r klt k); [apply same_key_sym|]; assumption.
  - apply elem_of_cons in Hy as [->|Hy]; [assumption|].
    apply (sw_trans (lt := klt) _ k'); [assumption|]. apply Hz. assumption.
Qed.

Lemma map_erase_sublist k l : map_erase k l `sublist_of` l.
Proof.
  induction l as [|[k' v'] r IH]; simpl; [constructor|].
  destruct (klt k' k); [constructor; assumption|].
  destruct (klt k k'); [reflexivity|constructor; reflexivity].
Qed.

Lemma map_erase_sorted k l : sorted entry_lt l -> sorted entry_lt (map_erase k l).
Proof.
  induction l as [|[k' v'] r IH]; simpl; intros Hs; [constructor|].
  destruct (sorted_cons_inv _ _ _ Hs) as [Hr Hz].
  destruct (klt k' k); [|destruct (klt k k'); assumption].
  apply sorted_cons; [auto|]. intros y Hy. apply Hz.
  eapply elem_of_submseteq; [exact Hy|apply sublist_submseteq, map_erase_sublist].
Qed.

(** A key before every entry is not found. *)
Lemma map_find_before k l : (forall y, y ∈ l -> klt k y.1 = true) -> map_find k l = None.
Proof.
  destruct l as [|[k' v'] r]; simpl; intros H; [reflexivity|].
  specialize (H (k', v') ltac:(set_solver)). simpl in H.
  rewrite (lt_asym klt k k' H), H. reflexivity.
Qed.

Lemma map_get_set k v k2 l :
  sorted entry_lt l ->
  map_get k2 (map_set k v l) = if same_keyb k k2 then Some v else map_get k2 l.
Proof.
  unfold map_get. induction l as [|[k' v'] r IH]; simpl; intros Hs.
  - unfold same_keyb. destruct (klt k k2), (klt k2 k); reflexivity.
  - destruct (sorted_cons_inv _ _ _ Hs) as [Hr Hz].
    destruct (klt k' k) eqn:H1; [|destruct (klt k k') eqn:H2]; simpl.
    + destruct (klt k' k2) eqn:H3; [auto|].
      assert (H4 : klt k2 k = true)
        by (destruct (sw_split k' k k2 H1); [congruence|assumption]).
      unfold same_keyb. rewrite H4, andb_false_r. destruct (klt k2 k'); reflexivity.
    + unfold same_keyb. destruct (klt k k2) eqn:H3, (klt k2 k) eqn:H4; simpl; try reflexivity.
      rewrite (sw_trans k2 k k' H4 H2), (lt_asym klt k2 k' (sw_trans k2 k k' H4 H2)). reflexivity.
    + assert (Hk : same_key klt k k') by (split; assumption).
      destruct (klt k' k2) eqn:H3.
      * assert (H4 : klt k k2 = true) by (apply (same_key_lt_l klt k'); [apply same_key_sym|]; assumption).
        unfold same_keyb. rewrite H4. reflexivity.
      * destruct (klt k2 k') eqn:H4; simpl.
        -- assert (H5 : klt k2 k = true) by (apply (same_key_lt_r klt k'); [apply same_key_sym|]; assumption).
           unfold same_keyb. rewrite H5, andb_false_r. reflexivity.
        -- replace (same_keyb k k2) with true; [reflexivity|]. symmetry. apply same_keyb_spec.
           apply (same_key_trans klt k k'); [assumption|split; assumption].
Qed.

Lemma map_get_erase k k2 l :
  sorted entry_lt l ->
  map_get k2 (map_erase k l) = if same_keyb k k2 then None else map_get k2 l.
Proof.
  unfold map_get. induction l as [|[k' v'] r IH]; simpl; intros Hs.
  - destruct (same_keyb k k2); reflexivity.
  - destruct (sorted_cons_inv _ _ _ Hs) as [Hr Hz].
    destruct (klt k' k) eqn:H1; [|destruct (klt k k') eqn:H2]; simpl.
    + destruct (klt k' k2) eqn:H3; [auto|].
      assert (H4 : klt k2 k = true)
        by (destruct (sw_split k' k k2 H1); [congruence|assumption]).
      unfold same_keyb. rewrite H4, andb_false_r. destruct (klt k2 k'); reflexivity.
    + destruct (same_keyb k k2) eqn:Hk; [|reflexivity]. apply same_keyb_spec in Hk.
      assert (H4 : klt k2 k' = true) by (apply (same_key_lt_l klt k); assumption).
      rewrite H4, (lt_asym klt k2 k' H4). reflexivity.
    + assert (Hk : same_key klt k k') by (split; assumption).
      destruct (same_keyb k k2) eqn:Hk2.
      * apply same_keyb_spec in Hk2. rewrite map_find_before; [reflexivity|].
        intros y Hy. apply (same_key_lt_l klt k'); [|apply (Hz y Hy)].
        apply (same_key_trans klt _ k); [apply same_key_sym|]; assumption.
      * destruct (klt k' k2) eqn:H3; [reflexivity|]. destruct (klt k2 k') eqn:H4.
        -- rewrite map_find_before; [reflexivity|].
           intros y Hy. apply (sw_trans (lt := klt) _ k'); [assumption|apply (Hz y Hy)].
        -- exfalso. apply not_true_iff_false in Hk2. apply Hk2, same_keyb_spec.
           apply (same_key_trans klt _ k'); [assumption|split; assumption].
Qed.

(** Erasing a key is filtering it out. *)
Lemma map_erase_filter k l :
  sorted entry_lt l -> List.filter (fun y => negb (same_keyb y.1 k)) l = map_erase k l.
Proof.
  assert (Hgt : forall r, (forall y, y ∈ r -> klt k y.1 = true) ->
    List.filter (fun y : K * V => negb (same_keyb y.1 k)) r = r).
  { intros r H. apply filter_all. intros y Hy. unfold same_keyb. rewrite (H y Hy), andb_false_r. reflexivity. }
  induction l as [|[k' v'] r IH]; simpl; intros Hs; [reflexivity|].
  destruct (sorted_cons_inv _ _ _ Hs) as [Hr Hz]. unfold same_keyb at 1. simpl.
  destruct (klt k' k) eqn:H1; simpl; [rewrite IH by assumption; reflexivity|].
  destruct (klt k k') eqn:H2; simpl; rewrite Hgt; try reflexivity; intros y Hy; specialize (Hz y Hy).
  - apply (sw_trans (lt := klt) _ k'); assumption.
  - apply (same_key_lt_l klt k'); [split|]; assumption.
Qed.

(** Assigning the entries of a map over another: the newer entry wins. *)
Lemma map_get_fold l m k :
  sorted entry_lt l -> sorted entry_lt m ->
  map_get k (fold_left (fun m p => map_set p.1 p.2 m) l m)
  = match map_get k l with Some v => Some v | None => map_get k m end.
Proof.
  revert m. induction l as [|[k' v'] r IH]; intros m Hs Hm; [reflexivity|].
  destruct (sorted_cons_inv _ _ _ Hs) as [Hr Hz]. cbn [fold_left].
  rewrite IH by (assumption || apply map_set_sorted; assumption).
  rewrite map_get_set by assumption. unfold map_get at 3. simpl. unfold same_keyb.
  destruct (klt k' k) eqn:H1; [reflexivity|].
  assert (Hn : map_get k r = None).
  { unfold map_get. rewrite map_find_before; [reflexivity|]. intros y Hy. specialize (Hz y Hy).
    destruct (klt k k') eqn:H2; [apply (sw_trans (lt := klt) _ k'); assumption|].
    apply (same_key_lt_l klt k'); [split|]; assumption. }
  rewrite Hn. destruct (klt k k'); reflexivity.
Qed.

(** The keys of a map are pairwise different to the comparator. *)
Lemma sorted_keys_distinct l i j p q :
  sorted entry_lt l -> l !! i = Some p -> l !! j = Some q -> same_key klt p.1 q.1 -> i = j.
Proof.
  intros Hs Hi Hj Hk.
  assert (p = q).
  { apply (sorted_same_key entry_lt l); [assumption| | |assumption];
      eapply list_elem_of_lookup_2; eassumption. }
  subst q. exact (NoDup_lookup l i j p (sorted_nodup entry_lt l Hs) Hi Hj).
Qed.
End assoc.

#[export] Hint Resolve set_insert_sorted map_set_sorted map_erase_sorted sorted_delete sorted_nodup : sylar.
