(* ===== verification/Double.v ===== *)
(** * The double-precision arithmetic the sources use on sizes

    [ByteArray::addCapacity] computes a block count as
    [ceil(1.0 * size / m_baseSize)], [IOManager] and [FdManager] grow their
    tables to [fd * 1.5]: integers go through IEEE 754 double precision
    (53-bit significand, round to nearest, ties to even).  Every value that
    occurs is normal, so an operation is the exact rational result rounded to
    53 significant bits.  [ceil_div_exact] shows that below 2^53 the block
    count is the exact ceiling. *)

From Stdlib Require Import ZArith Lia.
From S2P Require Import Prelude.

Local Open Scope Z_scope.

(** The integer nearest to [p / q], ties to even. *)
Definition rne (p q : Z) : Z :=
  let d := p / q in
  let r := p mod q in
  if 2 * r <? q then d
  else if q <? 2 * r then d + 1
  else if Z.even d then d else d + 1.

(** The double nearest to the integer [n >= 0]; it is an integer again. *)
Definition double_of_Z (n : Z) : Z :=
  if n <? 2 ^ 53 then n
  else let k := Z.log2 n - 52 in rne n (2 ^ k) * 2 ^ k.

(** The binary exponent of [a / b], for [a, b > 0]. *)
Definition ratio_exp (a b : Z) : Z :=
  let e := Z.log2 a - Z.log2 b in
  if (if 0 <=? e then a <? b * 2 ^ e else a * 2 ^ (- e) <? b) then e - 1 else e.

(** [ceil(a / b)] with [a / b] rounded to a double, for doubles [a, b > 0]. *)
Definition ceil_double_ratio (a b : Z) : Z :=
  let k := 52 - ratio_exp a b in
  if 0 <=? k then (rne (a * 2 ^ k) b + (2 ^ k - 1)) / 2 ^ k
  else rne a (b * 2 ^ (- k)) * 2 ^ (- k).

(** [ceil(1.0 * size / base)]. *)
Definition ceil_double_div (size base : Z) : Z :=
  ceil_double_ratio (double_of_Z size) (double_of_Z base).

(** [(size_t)(fd * 1.5)]: the product is exact for an [int]. *)
Definition times_1_5 (fd : Z) : Z := fd * 3 / 2.

(** ** Lemmas *)

(** [rne] is within one half. *)
Lemma rne_near p q : 0 < q -> 2 * p - q <= 2 * q * rne p q <= 2 * p + q.
Proof.
  intros Hq. unfold rne.
  pose proof (Z.div_mod p q ltac:(lia)) as E.
  pose proof (Z.mod_pos_bound p q Hq).
  destruct (Z.ltb_spec (2 * (p mod q)) q); [nia|].
  destruct (Z.ltb_spec q (2 * (p mod q))); [nia|].
  destruct (Z.even _); nia.
Qed.

(** [rne] does not cross an integer bound. *)
Lemma rne_le_int p q c : 0 < q -> p <= q * c -> rne p q <= c.
Proof. intros Hq H. pose proof (rne_near p q Hq). nia. Qed.

Lemma ratio_exp_spec a b :
  0 < a -> 0 < b -> ratio_exp a b <= 52 ->
  let k := 52 - ratio_exp a b in 2 ^ 52 * b <= a * 2 ^ k.
Proof.
  intros Ha Hb. unfold ratio_exp.
  pose proof (Z.log2_spec a Ha) as [La1 La2].
  pose proof (Z.log2_spec b Hb) as [Lb1 Lb2].
  pose proof (Z.log2_nonneg a). pose proof (Z.log2_nonneg b).
  set (e := Z.log2 a - Z.log2 b).
  assert (Hlow : b < a * 2 ^ (1 - e) \/ 1 <= e) by
    (destruct (Z.le_gt_cases 1 e); [auto|left];
     replace (Z.succ (Z.log2 b)) with (Z.log2 a + (1 - e)) in Lb2 by (unfold e; lia);
     rewrite Z.pow_add_r in Lb2 by lia; nia).
  assert (Hlow' : 1 <= e -> b * 2 ^ (e - 1) <= a) by
    (intros He; replace (Z.log2 a) with (Z.succ (Z.log2 b) + (e - 1)) in La1 by (unfold e; lia);
     rewrite Z.pow_add_r in La1 by lia;
     pose proof (Z.pow_pos_nonneg 2 (e - 1)); nia).
  assert (Hfin : forall x, x <= 52 ->
            (0 <= x -> b * 2 ^ x <= a) -> (x < 0 -> b <= a * 2 ^ (- x)) ->
            2 ^ 52 * b <= a * 2 ^ (52 - x)).
  { intros x Hx Hge Hlt. destruct (Z.le_gt_cases 0 x) as [Hp|Hn].
    - specialize (Hge Hp).
      replace (2 ^ 52) with (2 ^ x * 2 ^ (52 - x)) by (rewrite <- Z.pow_add_r by lia; f_equal; lia).
      pose proof (Z.pow_pos_nonneg 2 (52 - x)). nia.
    - specialize (Hlt Hn). rewrite <- (Z.add_opp_r 52 x), Z.pow_add_r by lia.
      pose proof (Z.pow_pos_nonneg 2 52). nia. }
  assert (Hneg : forall x, - (x - 1) = 1 - x) by (intros; lia).
  destruct (Z.leb_spec 0 e) as [He|He];
    [ destruct (Z.ltb_spec a (b * 2 ^ e)) | destruct (Z.ltb_spec (a * 2 ^ (- e)) b) ];
    intros Hk; apply Hfin; intros; rewrite ?Hneg; try lia; apply Hlow'; lia.
Qed.

Lemma ratio_exp_small a b : 0 < a < 2 ^ 53 -> 0 < b -> ratio_exp a b <= 52.
Proof.
  intros Ha Hb. unfold ratio_exp.
  pose proof (Z.log2_lt_pow2 a 53 ltac:(lia)) as [Hl _].
  pose proof (Z.log2_nonneg b). specialize (Hl ltac:(lia)). cbv zeta.
  match goal with |- context [if ?c then _ else _] => destruct c end; lia.
Qed.

(** Below 2^53 the computed ceiling is exact. *)
Lemma ceil_div_exact size base :
  0 < size < 2 ^ 53 -> 0 < base < 2 ^ 53 ->
  ceil_double_div size base = (size + base - 1) / base.
Proof.
  intros Hs Hb. unfold ceil_double_div, double_of_Z.
  rewrite (proj2 (Z.ltb_lt size _)), (proj2 (Z.ltb_lt base _)) by lia.
  unfold ceil_double_ratio.
  pose proof (ratio_exp_small size base ltac:(lia) ltac:(lia)) as He.
  pose proof (ratio_exp_spec size base ltac:(lia) ltac:(lia) He) as Hk. simpl in Hk.
  set (k := 52 - ratio_exp size base) in *.
  rewrite (proj2 (Z.leb_le 0 k)) by lia.
  assert (Hp : 0 < 2 ^ k) by (apply Z.pow_pos_nonneg; lia).
  set (P := 2 ^ k) in *. set (m := rne (size * P) base).
  set (c := (size + base - 1) / base).
  assert (Hc1 : base * c <= size + base - 1) by (apply Z.mul_div_le; lia).
  assert (Hc2 : size + base - 1 < base * Z.succ c) by (apply Z.mul_succ_div_gt; lia).
  assert (Hm : m <= P * c) by (apply rne_le_int; nia).
  pose proof (rne_near (size * P) base ltac:(lia)) as [Hn _]. fold m in Hn.
  assert (Hm' : P * (c - 1) < m).
  { assert (2 * base * (P * (c - 1)) < 2 * base * m); [|nia].
    assert (base < 2 * P) by nia. nia. }
  symmetry. apply Z.div_unique with (m + (P - 1) - P * c); lia.
Qed.

Lemma times_1_5_gt fd : 2 <= fd -> fd < times_1_5 fd.
Proof. intros. unfold times_1_5. apply Z.le_succ_l, Z.div_le_lower_bound; lia. Qed.
