(* ===== verification/ByteArray.v ===== *)
(** * The chunked byte buffer: sylar/bytearray.h, sylar/bytearray.cpp

    The chain of [Node]s is the list [m_nodes] in chain order, [m_root] its
    head and [next] the following element; [m_cur] is the index of the node it
    points to, [None] when it is NULL.  A memory block that [new char[s]]
    returns holds indeterminate bytes: they are the values of the parameter
    [junk] for the number of the allocation, counted by the ghost field
    [m_allocs].  A size is a [size_t], with its wrap-around written out.

    Contract: the buffer is a byte sequence [contents] with a cursor;
    [WF] is the representation invariant, and the lemmas [write_ok],
    [read_ok], [setPosition_ok] and [clear_ok] describe every operation on
    that abstraction. *)

From stdpp Require Import base list numbers.
From Stdlib Require Import ZArith Lia.
From S2P Require Import Prelude Endian Double.

Local Open Scope Z_scope.
Local Open Scope cpp_scope.

Record Node := mkNode { ptr : list Z; nsize : Z }.

Record ByteArray := mkByteArray {
  m_baseSize : Z;
  m_position : Z;
  m_capacity : Z;
  m_size : Z;
  m_endian : Z;
  m_nodes : list Node;
  m_cur : option nat;
  m_allocs : nat
}.

Definition set_position (p : Z) (s : ByteArray) : ByteArray :=
  mkByteArray (m_baseSize s) p (m_capacity s) (m_size s) (m_endian s)
    (m_nodes s) (m_cur s) (m_allocs s).
Definition set_size (n : Z) (s : ByteArray) : ByteArray :=
  mkByteArray (m_baseSize s) (m_position s) (m_capacity s) n (m_endian s)
    (m_nodes s) (m_cur s) (m_allocs s).
Definition set_endian (e : Z) (s : ByteArray) : ByteArray :=
  mkByteArray (m_baseSize s) (m_position s) (m_capacity s) (m_size s) e
    (m_nodes s) (m_cur s) (m_allocs s).
Definition set_nodes (l : list Node) (s : ByteArray) : ByteArray :=
  mkByteArray (m_baseSize s) (m_position s) (m_capacity s) (m_size s) (m_endian s)
    l (m_cur s) (m_allocs s).
Definition set_cur (c : option nat) (s : ByteArray) : ByteArray :=
  mkByteArray (m_baseSize s) (m_position s) (m_capacity s) (m_size s) (m_endian s)
    (m_nodes s) c (m_allocs s).

Definition getPosition (s : ByteArray) : Z := m_position s.
Definition getBaseSize (s : ByteArray) : Z := m_baseSize s.
Definition getReadSize (s : ByteArray) : Z := u64 (m_size s - m_position s).
Definition getSize (s : ByteArray) : Z := m_size s.
Definition getCapacity (s : ByteArray) : Z := u64 (m_capacity s - m_position s).

Definition isLittleEndian (s : ByteArray) : bool := m_endian s =? SYLAR_LITTLE_ENDIAN.

Definition setIsLittleEndian (val : bool) (s : ByteArray) : ByteArray :=
  if val then set_endian SYLAR_LITTLE_ENDIAN s else set_endian SYLAR_BIG_ENDIAN s.

Abbreviation BM := (M ByteArray).

(** [c->next]. *)
Definition next_of (s : ByteArray) (i : nat) : option nat :=
  if decide (S i < length (m_nodes s))%nat then Some (S i) else None.

(** [*c], undefined for NULL. *)
Definition deref (s : ByteArray) (c : option nat) : outcome (nat * Node) :=
  match c with
  | None => Undef NullDeref
  | Some i =>
      match m_nodes s !! i with
      | Some nd => Ret (i, nd)
      | None => Undef OutOfBounds
      end
  end.

Definition cur_node : BM (nat * Node) := fun s => (s, deref s (m_cur s)).

(** [m_cur = m_cur->next]. *)
Definition advance : BM unit :=
  let! c := cur_node in
  fun s => (set_cur (next_of s (fst c)) s, Ret tt).

(** [memcpy(m_cur->ptr + npos, src, n)]. *)
Definition memcpy_in (npos : Z) (src : list Z) (n : Z) : BM unit :=
  let! c := cur_node in
  if (zlen src <? n) || (zlen (ptr (snd c)) <? npos + n)
  then cundef OutOfBounds
  else fun s =>
    (set_nodes (<[fst c := mkNode (overlay npos (take (Z.to_nat n) src) (ptr (snd c)))
                                  (nsize (snd c))]> (m_nodes s)) s, Ret tt).

(** The bytes [memcpy(dst, c->ptr + npos, n)] copies. *)
Definition memcpy_out (c : option nat) (npos n : Z) : BM (list Z) := fun s =>
  match deref s c with
  | Ret (_, nd) =>
      if zlen (ptr nd) <? npos + n then (s, Undef OutOfBounds)
      else (s, Ret (slice npos n (ptr nd)))
  | Throw e => (s, Throw e)
  | Undef f => (s, Undef f)
  end.

Section ops.
  (** [junk k i]: byte [i] of the [k]-th block the allocator returns. *)
  Context (junk : nat -> nat -> Z).

Definition new_node (k : nat) (s : Z) : Node :=
  mkNode (map (junk k) (seq 0 (Z.to_nat s))) s.

Definition ByteArray_new (base_size : Z) : ByteArray :=
  mkByteArray base_size 0 base_size 0 SYLAR_BIG_ENDIAN [new_node 0 base_size] (Some 0%nat) 1.

(** The loop of [addCapacity] that appends [count] nodes to the chain. *)
Fixpoint append_nodes (count : nat) (s : ByteArray) : ByteArray :=
  match count with
  | O => s
  | S n =>
      append_nodes n
        (mkByteArray (m_baseSize s) (m_position s) (u64 (m_capacity s + m_baseSize s))
           (m_size s) (m_endian s)
           (m_nodes s ++ [new_node (m_allocs s) (m_baseSize s)])
           (m_cur s) (S (m_allocs s)))
  end.

(** A zero [m_baseSize] makes the quotient infinite and its conversion to
    [size_t] undefined. *)
Definition addCapacity (size : Z) : BM unit := fun s =>
  if size =? 0 then (s, Ret tt)
  else
    let old_cap := getCapacity s in
    if old_cap >=? size then (s, Ret tt)
    else if m_baseSize s =? 0 then (s, Undef DivByZero)
    else
      let size := u64 (size - old_cap) in
      let count := Z.to_nat (ceil_double_div size (m_baseSize s)) in
      let first := if decide (count = O) then None else Some (length (m_nodes s)) in
      let s' := append_nodes count s in
      ((if old_cap =? 0 then set_cur first s' else s'), Ret tt).

(** The copy loop of [write].  One iteration consumes one node, so the number
    of nodes plus one is enough fuel. *)
Fixpoint write_loop (fuel : nat) (buf : list Z) (npos ncap bpos size : Z) : BM unit :=
  if size >? 0 then
    match fuel with
    | O => cundef FuelExhausted
    | S fuel' =>
        if ncap >=? size then
          memcpy_in npos (drop (Z.to_nat bpos) buf) size ;;;
          let! c := cur_node in
          (if nsize (snd c) =? u64 (npos + size) then advance else cret tt) ;;;
          cmod (fun s => set_position (u64 (m_position s + size)) s) ;;;
          write_loop fuel' buf npos ncap (u64 (bpos + size)) 0
        else
          memcpy_in npos (drop (Z.to_nat bpos) buf) ncap ;;;
          cmod (fun s => set_position (u64 (m_position s + ncap)) s) ;;;
          advance ;;;
          let! c := cur_node in
          write_loop fuel' buf 0 (nsize (snd c)) (u64 (bpos + ncap)) (u64 (size - ncap))
    end
  else cret tt.

Definition write (buf : list Z) (size : Z) : BM unit :=
  if size =? 0 then cret tt
  else
    addCapacity size ;;;
    let! st := cget id in
    if m_baseSize st =? 0 then cundef DivByZero
    else
      let npos := m_position st mod m_baseSize st in
      let! c := cur_node in
      let ncap := u64 (nsize (snd c) - npos) in
      write_loop (S (length (m_nodes st))) buf npos ncap 0 size ;;;
      cmod (fun s => if m_position s >? m_size s then set_size (m_position s) s else s).

End ops.

(** The copy loop of [read]; the bytes are those stored to [buf]. *)
Fixpoint read_loop (fuel : nat) (npos ncap size : Z) : BM (list Z) :=
  if size >? 0 then
    match fuel with
    | O => cundef FuelExhausted
    | S fuel' =>
        let! p := cget m_cur in
        if ncap >=? size then
          let! d := memcpy_out p npos size in
          let! c := cur_node in
          (if nsize (snd c) =? u64 (npos + size) then advance else cret tt) ;;;
          cmod (fun s => set_position (u64 (m_position s + size)) s) ;;;
          let! d' := read_loop fuel' npos ncap 0 in
          cret (d ++ d')
        else
          let! d := memcpy_out p npos ncap in
          cmod (fun s => set_position (u64 (m_position s + ncap)) s) ;;;
          advance ;;;
          let! c := cur_node in
          let! d' := read_loop fuel' 0 (nsize (snd c)) (u64 (size - ncap)) in
          cret (d ++ d')
    end
  else cret [].

Definition read (size : Z) : BM (list Z) :=
  let! st := cget id in
  if size >? getReadSize st then cthrow OutOfRange
  else if m_baseSize st =? 0 then cundef DivByZero
  else
    let npos := m_position st mod m_baseSize st in
    let! c := cur_node in
    let ncap := u64 (nsize (snd c) - npos) in
    read_loop (S (length (m_nodes st))) npos ncap size.

(** The loop of [setPosition] that looks for the node of offset [v]. *)
Fixpoint seek (fuel : nat) (v : Z) : BM Z :=
  match fuel with
  | O => cundef FuelExhausted
  | S fuel' =>
      let! c := cur_node in
      if v >? nsize (snd c) then
        advance ;;; seek fuel' (u64 (v - nsize (snd c)))
      else cret v
  end.

Definition setPosition (v : Z) : BM unit :=
  let! st := cget id in
  if v >? m_capacity st then cthrow OutOfRange
  else
    cmod (fun s =>
      let s := set_position v s in
      let s := if m_position s >? m_size s then set_size (m_position s) s else s in
      set_cur (Some 0%nat) s) ;;;
    let! v' := seek (S (length (m_nodes st))) v in
    let! c := cur_node in
    if v' =? nsize (snd c) then advance else cret tt.

(** [clear] deletes every node after the root. *)
Definition clear (s : ByteArray) : ByteArray :=
  mkByteArray (m_baseSize s) 0 (m_baseSize s) 0 (m_endian s)
    (take 1 (m_nodes s)) (Some 0%nat) (m_allocs s).

(** ** The representation invariant and the abstraction *)

(** Every size of a well-formed buffer stays below the integers a double
    represents exactly (eight petabytes). *)
Definition LIMIT : Z := 2 ^ 53.

Definition node_ok (b : Z) (nd : Node) : Prop := nsize nd = b /\ zlen (ptr nd) = b.

Definition flat_of (l : list Node) : list Z := concat (map ptr l).
Definition flat (s : ByteArray) : list Z := flat_of (m_nodes s).

(** The node of offset [pos] in a chain of [n] blocks of [b] bytes. *)
Definition cur_of (b n pos : Z) : option nat :=
  if pos =? b * n then None else Some (Z.to_nat (pos / b)).

Record WF (s : ByteArray) : Prop := {
  wf_base : 0 < m_baseSize s;
  wf_nodes : Forall (node_ok (m_baseSize s)) (m_nodes s);
  wf_root : 0 < zlen (m_nodes s);
  wf_cap : m_capacity s = m_baseSize s * zlen (m_nodes s);
  wf_limit : m_capacity s <= LIMIT;
  wf_pos : 0 <= m_position s <= m_size s;
  wf_size : m_size s <= m_capacity s;
  wf_endian : is_order (m_endian s);
  wf_cur : m_cur s = cur_of (m_baseSize s) (zlen (m_nodes s)) (m_position s)
}.

(** The byte sequence a buffer stands for. *)
Definition contents (s : ByteArray) : list Z := slice 0 (m_size s) (flat s).

(** ** Chains of blocks *)

Lemma zlen_flat b l : Forall (node_ok b) l -> zlen (flat_of l) = b * zlen l.
Proof.
  induction 1 as [|nd l [_ Hn] Hl IH]; unfold flat_of in *; simpl.
  - unfold zlen. simpl. lia.
  - rewrite zlen_app, zlen_cons, IH, Hn. lia.
Qed.

Lemma flat_split l i nd :
  l !! i = Some nd ->
  flat_of l = flat_of (take i l) ++ ptr nd ++ flat_of (drop (S i) l).
Proof.
  intros H. rewrite <- (take_drop_middle l i nd H) at 1.
  unfold flat_of. rewrite map_app, concat_app. reflexivity.
Qed.

Lemma zlen_flat_take b l i :
  Forall (node_ok b) l -> (i <= length l)%nat ->
  zlen (flat_of (take i l)) = b * Z.of_nat i.
Proof.
  intros H Hi. rewrite (zlen_flat b) by (apply Forall_take; assumption).
  unfold zlen. rewrite length_take_le by assumption. reflexivity.
Qed.

Lemma flat_slice b l i nd npos n :
  Forall (node_ok b) l -> l !! i = Some nd -> 0 <= npos -> npos + n <= b ->
  slice npos n (ptr nd) = slice (b * Z.of_nat i + npos) n (flat_of l).
Proof.
  intros Hl Hi Hp Hn. pose proof (lookup_lt_Some _ _ _ Hi).
  rewrite (flat_split l i nd Hi), <- (zlen_flat_take b l i) by (assumption || lia).
  symmetry. apply slice_middle; [lia|].
  destruct (Forall_lookup_1 _ _ _ _ Hl Hi) as [_ ->]. lia.
Qed.

Lemma flat_insert b l i nd npos d sz :
  Forall (node_ok b) l -> l !! i = Some nd -> 0 <= npos -> npos + zlen d <= b ->
  flat_of (<[i := mkNode (overlay npos d (ptr nd)) sz]> l)
  = overlay (b * Z.of_nat i + npos) d (flat_of l).
Proof.
  intros Hl Hi Hp Hn. pose proof (lookup_lt_Some _ _ _ Hi) as Hlt.
  rewrite (flat_split l i nd Hi), <- (zlen_flat_take b l i) by (assumption || lia).
  rewrite overlay_middle by
    (lia || (destruct (Forall_lookup_1 _ _ _ _ Hl Hi) as [_ ->]; lia)).
  erewrite flat_split by (apply list_lookup_insert_eq; assumption).
  rewrite take_insert_ge, drop_insert_lt by lia. reflexivity.
Qed.

Lemma insert_node_ok b l i nd npos d :
  Forall (node_ok b) l -> l !! i = Some nd -> 0 <= npos -> npos + zlen d <= b ->
  Forall (node_ok b) (<[i := mkNode (overlay npos d (ptr nd)) (nsize nd)]> l).
Proof.
  intros Hl Hi Hp Hn. destruct (Forall_lookup_1 _ _ _ _ Hl Hi) as [H1 H2].
  apply Forall_insert; [assumption|].
  split; simpl; [assumption|]. rewrite zlen_overlay; lia.
Qed.

Lemma node_at b l i :
  Forall (node_ok b) l -> (i < length l)%nat ->
  exists nd, l !! i = Some nd /\ nsize nd = b /\ zlen (ptr nd) = b.
Proof.
  intros Hl Hi. destruct (lookup_lt_is_Some_2 l i Hi) as [nd E].
  exists nd. split; [assumption|]. exact (Forall_lookup_1 _ _ _ _ Hl E).
Qed.

(** The cursor after [k] bytes of node [i]. *)
Lemma cur_of_inside b n i k :
  0 < b -> 0 <= k < b -> Z.of_nat i < n ->
  cur_of b n (b * Z.of_nat i + k) = Some i.
Proof.
  intros Hb Hk Hi. unfold cur_of. rewrite (proj2 (Z.eqb_neq _ _)) by nia.
  f_equal. rewrite Z.mul_comm, Z.div_add_l, Z.div_small by lia. lia.
Qed.

Lemma cur_of_end b s i :
  0 < b -> (i < length (m_nodes s))%nat ->
  next_of s i = cur_of b (zlen (m_nodes s)) (b * Z.of_nat i + b).
Proof.
  intros Hb Hi. unfold next_of, zlen. destruct (decide _).
  - replace (b * Z.of_nat i + b) with (b * Z.of_nat (S i) + 0) by lia.
    rewrite cur_of_inside by lia. reflexivity.
  - unfold cur_of. rewrite (proj2 (Z.eqb_eq _ _)) by nia. reflexivity.
Qed.

(** ** Running the primitives *)

Lemma cur_node_run s i nd :
  m_cur s = Some i -> m_nodes s !! i = Some nd -> cur_node s = (s, Ret (i, nd)).
Proof. intros Hc Hn. unfold cur_node, deref. rewrite Hc, Hn. reflexivity. Qed.

Lemma advance_run s i nd :
  m_cur s = Some i -> m_nodes s !! i = Some nd ->
  advance s = (set_cur (next_of s i) s, Ret tt).
Proof.
  intros Hc Hn. unfold advance. cstep (cur_node_run s i nd Hc Hn). reflexivity.
Qed.

Lemma memcpy_in_run s i nd npos src n :
  m_cur s = Some i -> m_nodes s !! i = Some nd ->
  n <= zlen src -> npos + n <= zlen (ptr nd) ->
  memcpy_in npos src n s =
    (set_nodes (<[i := mkNode (overlay npos (take (Z.to_nat n) src) (ptr nd)) (nsize nd)]>
       (m_nodes s)) s, Ret tt).
Proof.
  intros Hc Hn H1 H2. unfold memcpy_in. cstep (cur_node_run s i nd Hc Hn). simpl.
  rewrite (proj2 (Z.ltb_ge _ _)), (proj2 (Z.ltb_ge _ _)) by lia. reflexivity.
Qed.

Lemma memcpy_out_run s i nd npos n :
  m_nodes s !! i = Some nd -> npos + n <= zlen (ptr nd) ->
  memcpy_out (Some i) npos n s = (s, Ret (slice npos n (ptr nd))).
Proof.
  intros Hn H. unfold memcpy_out, deref. rewrite Hn.
  rewrite (proj2 (Z.ltb_ge _ _)) by lia. reflexivity.
Qed.

Ltac u64_small := rewrite ?(uwrap_id 64) by (unfold u_range, LIMIT in *; lia).

(** What [write_loop] needs of a state whose cursor is [npos] bytes into node
    [i], and what the loops keep. *)
Record at_node (b : Z) (s : ByteArray) (i : nat) (npos : Z) : Prop := {
  an_base : 0 < b;
  an_nodes : Forall (node_ok b) (m_nodes s);
  an_limit : b * zlen (m_nodes s) <= LIMIT;
  an_cur : m_cur s = Some i;
  an_lt : (i < length (m_nodes s))%nat;
  an_npos : 0 <= npos < b;
  an_pos : m_position s = b * Z.of_nat i + npos
}.

(** [s] moved by a loop to [pos], with the chain [l]. *)
Definition moved (b : Z) (s : ByteArray) (l : list Node) (pos : Z) : ByteArray :=
  mkByteArray (m_baseSize s) pos (m_capacity s) (m_size s) (m_endian s)
    l (cur_of b (zlen (m_nodes s)) pos) (m_allocs s).

(** The last iteration of both loops: the cursor after [size] more bytes of
    the same node. *)
Lemma finish_run {A} b s i npos size (k : unit -> BM A) nd :
  at_node b s i npos -> m_nodes s !! i = Some nd -> nsize nd = b ->
  0 <= size -> npos + size <= b ->
  cbind (if nsize nd =? u64 (npos + size) then advance else cret tt)
    (fun _ => cmod (fun s => set_position (u64 (m_position s + size)) s) ;;; k tt) s
  = k tt (moved b s (m_nodes s) (m_position s + size)).
Proof.
  intros [Hb Hl Hlim Hc Hi Hp Hpos] Hnd Hns Hs Hle.
  assert (Hfit : m_position s + size <= b * zlen (m_nodes s)) by (unfold zlen; nia).
  assert (b <= LIMIT) by (unfold zlen in *; nia).
  rewrite Hns, Hpos in *. u64_small.
  destruct (Z.eqb_spec b (npos + size)) as [E|E].
  - cstep (advance_run s i nd Hc Hnd). rewrite cbind_mod. simpl. rewrite Hpos. u64_small.
    unfold moved, set_position; simpl. f_equal. f_equal.
    rewrite (cur_of_end b) by assumption. f_equal. lia.
  - autorewrite with cmonad. rewrite Hpos. u64_small. unfold moved, set_position. f_equal. f_equal.
    rewrite <- Z.add_assoc, cur_of_inside by (unfold zlen; lia). assumption.
Qed.

Lemma gtb_true x y : y < x -> (x >? y) = true.
Proof. intros. apply Z.gtb_lt. lia. Qed.
Lemma gtb_false x y : x <= y -> (x >? y) = false.
Proof. intros. rewrite Z.gtb_ltb. apply Z.ltb_ge. lia. Qed.

(** Moving to the next node. *)
Lemma at_node_next b s i npos l :
  at_node b s i npos -> Forall (node_ok b) l -> length l = length (m_nodes s) ->
  (S i < length (m_nodes s))%nat ->
  at_node b (moved b s l (m_position s + (b - npos))) (S i) 0.
Proof.
  intros [Hb Hl Hlim Hc Hi Hp Hpos] Hl' Hlen Hnext.
  assert (zlen l = zlen (m_nodes s)) as Hz by (unfold zlen; lia).
  constructor; simpl; auto; try lia.
  rewrite Hpos. replace (_ + npos + (b - npos)) with (b * Z.of_nat (S i) + 0) by lia.
  rewrite cur_of_inside by (unfold zlen; lia). reflexivity.
Qed.

(** The step both loops make from one node to the next. *)
Lemma hop_run b s i npos :
  at_node b s i npos -> (S i < length (m_nodes s))%nat ->
  let s' := moved b s (m_nodes s) (m_position s + (b - npos)) in
  at_node b s' (S i) 0 /\
  exists nd, nsize nd = b /\ forall A (k : nat * Node -> BM A),
    cbind (cmod (fun s => set_position (u64 (m_position s + (b - npos))) s))
      (fun _ => advance ;;; cbind cur_node k) s = k (S i, nd) s'.
Proof.
  intros Hat Hnext s'. destruct Hat as [Hb Hl Hlim Hc Hi Hp Hpos] eqn:EH.
  pose proof (at_node_next b s i npos _ Hat Hl eq_refl Hnext) as Hat2. clear EH.
  split; [exact Hat2|].
  destruct (node_at b _ i Hl Hi) as (nd0 & Hnd0 & _).
  destruct (node_at b _ (S i) Hl Hnext) as (nd & Hnd & Hns & _).
  exists nd. split; [assumption|]. intros A k. rewrite cbind_mod.
  assert (m_position s + (b - npos) <= LIMIT) by (unfold zlen in *; nia).
  u64_small.
  erewrite cbind_ret by (eapply advance_run; simpl; [exact Hc|exact Hnd0]).
  rewrite (cur_of_end b) by (simpl; lia).
  replace (set_cur _ _) with s'
    by (unfold s', moved, set_cur, set_position; simpl; do 2 f_equal; lia).
  cstep (cur_node_run s' (S i) nd (an_cur _ _ _ _ Hat2) Hnd). reflexivity.
Qed.

(** [memcpy_in] on the current node. *)
Lemma at_node_copy b s i npos src n :
  at_node b s i npos -> 0 <= n -> n <= zlen src -> npos + n <= b ->
  exists l nd, memcpy_in npos src n s = (set_nodes l s, Ret tt)
    /\ Forall (node_ok b) l /\ length l = length (m_nodes s)
    /\ flat_of l = overlay (m_position s) (take (Z.to_nat n) src) (flat_of (m_nodes s))
    /\ at_node b (set_nodes l s) i npos /\ l !! i = Some nd /\ nsize nd = b.
Proof.
  intros Hat Hn0 Hn Hfit. destruct Hat as [Hb Hl Hlim Hc Hi Hp Hpos].
  destruct (node_at b _ i Hl Hi) as (nd & Hnd & Hns & Hptr).
  set (d := take (Z.to_nat n) src).
  assert (Hd : zlen d = n) by (unfold d, zlen in *; rewrite length_take; lia).
  set (l := <[i := mkNode (overlay npos d (ptr nd)) (nsize nd)]> (m_nodes s)).
  assert (Hok : Forall (node_ok b) l) by (apply insert_node_ok; auto; lia).
  assert (Hlen : length l = length (m_nodes s)) by apply length_insert.
  eexists l, _. split; [apply (memcpy_in_run s i nd); auto; lia|].
  repeat split; simpl; auto; try lia.
  - rewrite Hpos. apply flat_insert; auto; lia.
  - unfold zlen in *. rewrite Hlen. assumption.
  - apply list_lookup_insert_eq. assumption.
  - assumption.
Qed.

Lemma write_loop_ok b fuel : forall s buf i npos bpos size,
  at_node b s i npos -> 0 <= bpos -> 0 < size -> bpos + size <= zlen buf ->
  zlen buf <= LIMIT -> m_position s + size <= b * zlen (m_nodes s) ->
  (length (m_nodes s) <= fuel + i)%nat ->
  exists l,
    write_loop fuel buf npos (b - npos) bpos size s
      = (moved b s l (m_position s + size), Ret tt)
    /\ Forall (node_ok b) l /\ length l = length (m_nodes s)
    /\ flat_of l = overlay (m_position s) (slice bpos size buf) (flat_of (m_nodes s)).
Proof.
  induction fuel as [|fuel IH]; intros s buf i npos bpos size Hat Hb0 Hsz Hbuf Hlim Hfit Hfuel.
  { pose proof (an_lt _ _ _ _ Hat). lia. }
  pose proof (an_npos _ _ _ _ Hat). pose proof (an_pos _ _ _ _ Hat).
  pose proof (an_base _ _ _ _ Hat). pose proof (an_lt _ _ _ _ Hat).
  pose proof (an_limit _ _ _ _ Hat).
  cbn [write_loop]. rewrite gtb_true by lia.
  assert (Hdrop : zlen (drop (Z.to_nat bpos) buf) = zlen buf - bpos)
    by (unfold zlen in *; rewrite length_drop; lia).
  rewrite Z.geb_leb. destruct (Z.leb_spec size (b - npos)) as [Hlast|Hmore].
  - destruct (at_node_copy b s i npos (drop (Z.to_nat bpos) buf) size)
      as (l & nd & Hrun & Hok & Hlen & Hflat & Hat' & Hnd & Hns); auto; try lia.
    cstep Hrun. cstep (cur_node_run (set_nodes l s) i nd (an_cur _ _ _ _ Hat') Hnd).
    cbn [snd]. rewrite (finish_run b (set_nodes l s) i npos size
      (fun _ => write_loop fuel buf npos (b - npos) (u64 (bpos + size)) 0) nd) by (auto; lia).
    exists l. split; [|auto].
    destruct fuel; cbn [write_loop]; unfold moved, cret; simpl;
      unfold zlen; rewrite Hlen; reflexivity.
  - assert (Hnext : (S i < length (m_nodes s))%nat) by (unfold zlen in *; nia).
    destruct (at_node_copy b s i npos (drop (Z.to_nat bpos) buf) (b - npos))
      as (l & nd & Hrun & Hok & Hlen & Hflat & Hat' & Hnd & Hns); auto; try lia.
    assert (b <= LIMIT) by (unfold zlen in *; nia).
    cstep Hrun.
    destruct (hop_run b (set_nodes l s) i npos Hat') as (Hat2 & nd2 & Hns2 & Hhop);
      [simpl; lia|].
    rewrite Hhop. cbn [snd]. rewrite Hns2. u64_small.
    set (s2 := moved b (set_nodes l s) _ _) in *.
    assert (Hz : zlen l = zlen (m_nodes s)) by (unfold zlen; lia).
    destruct (IH s2 buf (S i) 0 (bpos + (b - npos)) (size - (b - npos)))
      as (l' & Hrun' & Hok' & Hlen' & Hflat'); auto; simpl; try lia.
    rewrite Z.sub_0_r in Hrun'. change (m_nodes s2) with l in Hlen', Hflat'.
    change (m_position s2) with (m_position s + (b - npos)) in Hflat'. exists l'. rewrite Hrun'. split; [|split; [assumption|split; [lia|]]].
    + unfold moved; simpl. rewrite Hz. do 2 f_equal; [lia|f_equal; lia].
    + rewrite Hflat', Hflat.
      replace (b - npos) with (zlen (take (Z.to_nat (b - npos)) (drop (Z.to_nat bpos) buf))) at 1
        by (unfold zlen in *; rewrite length_take; lia).
      rewrite overlay_overlay; [f_equal|].
      * replace size with ((b - npos) + (size - (b - npos))) at 2 by lia.
        rewrite slice_app by lia. reflexivity.
      * rewrite (zlen_flat b) by (apply (an_nodes _ _ _ _ Hat)).
        unfold zlen in *. nia.
Qed.

Lemma read_loop_ok b fuel : forall s i npos size,
  at_node b s i npos -> 0 < size -> m_position s + size <= b * zlen (m_nodes s) ->
  (length (m_nodes s) <= fuel + i)%nat ->
  read_loop fuel npos (b - npos) size s
    = (moved b s (m_nodes s) (m_position s + size),
       Ret (slice (m_position s) size (flat s))).
Proof.
  induction fuel as [|fuel IH]; intros s i npos size Hat Hsz Hfit Hfuel.
  { pose proof (an_lt _ _ _ _ Hat). lia. }
  destruct Hat as [Hb Hl Hlim Hc Hi Hp Hpos] eqn:EH. clear EH.
  destruct (node_at b _ i Hl Hi) as (nd & Hnd & Hns & Hptr).
  cbn [read_loop]. rewrite gtb_true by lia. rewrite cbind_get, Hc.
  rewrite Z.geb_leb. destruct (Z.leb_spec size (b - npos)) as [Hlast|Hmore].
  - cstep (memcpy_out_run s i nd npos size Hnd ltac:(lia)).
    cstep (cur_node_run s i nd Hc Hnd). cbn [snd].
    rewrite (finish_run b s i npos size (fun _ =>
       let! d' := read_loop fuel npos (b - npos) 0 in
       cret (slice npos size (ptr nd) ++ d')) nd) by (auto; lia).
    destruct fuel; cbn [read_loop]; rewrite gtb_false by lia; rewrite cbind_cret, app_nil_r;
      unfold cret;
      rewrite (flat_slice b (m_nodes s) i), <- Hpos by (auto; lia); reflexivity.
  - assert (Hnext : (S i < length (m_nodes s))%nat) by (unfold zlen in *; nia).
    cstep (memcpy_out_run s i nd npos (b - npos) Hnd ltac:(lia)).
    destruct (hop_run b s i npos Hat Hnext) as (Hat2 & nd2 & Hns2 & Hhop).
    rewrite Hhop. cbn [snd]. rewrite Hns2.
    assert (size <= LIMIT) by nia. assert (b <= LIMIT) by (unfold zlen in *; nia). u64_small.
    pose proof (IH _ (S i) 0 (size - (b - npos)) Hat2 ltac:(lia)) as Hrun.
    rewrite Z.sub_0_r in Hrun. simpl in Hrun. cstep (Hrun ltac:(lia) ltac:(lia)).
    unfold cret, moved; simpl. rewrite (flat_slice b (m_nodes s) i), <- Hpos by (auto; lia).
    unfold flat; simpl. rewrite <- slice_app by lia.
    replace (m_position s + (b - npos) + _) with (m_position s + size) by lia.
    replace (b - npos + _) with size by lia. reflexivity.
Qed.

Lemma seek_ok b fuel : forall s i v,
  0 < b -> Forall (node_ok b) (m_nodes s) -> b * zlen (m_nodes s) <= LIMIT ->
  m_cur s = Some i -> (i < length (m_nodes s))%nat ->
  0 <= v -> b * Z.of_nat i + v <= b * zlen (m_nodes s) -> 
  (length (m_nodes s) <= fuel + i)%nat ->
  exists j v', seek fuel v s = (set_cur (Some j) s, Ret v')
    /\ (j < length (m_nodes s))%nat /\ 0 <= v' <= b
    /\ b * Z.of_nat j + v' = b * Z.of_nat i + v.
Proof.
  induction fuel as [|fuel IH]; intros s i v Hb Hl Hlim Hc Hi Hv Hfit Hfuel; [lia|].
  destruct (node_at b _ i Hl Hi) as (nd & Hnd & Hns & _).
  cbn [seek]. cstep (cur_node_run s i nd Hc Hnd). cbn [snd]. rewrite Hns.
  destruct (Z.le_gt_cases v b).
  - rewrite gtb_false by lia. exists i, v. destruct s; simpl in *; subst. auto.
  - rewrite gtb_true by lia. cstep (advance_run s i nd Hc Hnd).
    assert (Hnext : (S i < length (m_nodes s))%nat) by (unfold zlen in *; nia).
    assert (v <= LIMIT) by nia. u64_small. unfold next_of. rewrite decide_True by assumption.
    destruct (IH (set_cur (Some (S i)) s) (S i) (v - b)) as (j & v' & Hrun & Hj & Hv' & E);
      simpl; auto; try lia.
    exists j, v'. rewrite Hrun. split; [reflexivity|]. simpl in Hj. lia.
Qed.

Section growth.
Context (junk : nat -> nat -> Z).

Lemma new_node_ok k b : 0 <= b -> node_ok b (new_node junk k b).
Proof. intros. split; simpl; [reflexivity|]. unfold zlen. rewrite length_map, length_seq. lia. Qed.

Lemma append_nodes_ok n : forall s,
  0 < m_baseSize s -> m_capacity s + Z.of_nat n * m_baseSize s <= LIMIT -> 0 <= m_capacity s ->
  exists ext, append_nodes junk n s
    = mkByteArray (m_baseSize s) (m_position s) (m_capacity s + Z.of_nat n * m_baseSize s)
        (m_size s) (m_endian s) (m_nodes s ++ ext) (m_cur s) (m_allocs s + n)
    /\ Forall (node_ok (m_baseSize s)) ext /\ length ext = n.
Proof.
  induction n as [|n IH]; intros s Hb Hlim Hc; simpl append_nodes.
  - exists []. rewrite app_nil_r, Nat.add_0_r. destruct s; simpl. split; [|auto].
    f_equal. lia.
  - u64_small. edestruct IH as (ext & -> & Hext & Hlen); simpl; [assumption|nia|lia|].
    eexists (_ :: ext). rewrite <- app_assoc. simpl. split; [f_equal; lia|].
    split; [|simpl; lia]. constructor; [apply new_node_ok; lia|assumption].
Qed.

(** [s'] is [s] with blocks appended to its chain. *)
Record grown (s s' : ByteArray) : Prop := {
  gr_base : m_baseSize s' = m_baseSize s;
  gr_pos : m_position s' = m_position s;
  gr_size : m_size s' = m_size s;
  gr_endian : m_endian s' = m_endian s;
  gr_flat : exists ext, flat s' = flat s ++ ext
}.

Lemma addCapacity_ok size s :
  WF s -> 0 <= size -> m_position s + size + m_baseSize s <= LIMIT ->
  exists s', addCapacity junk size s = (s', Ret tt) /\ WF s' /\ grown s s'
    /\ m_position s + size <= m_capacity s'
       <= Z.max (m_capacity s) (m_position s + size + m_baseSize s).
Proof.
  intros W Hs Hlim. destruct W as [Hb Hn Hr Hcap Hl Hp Hsz He Hcur] eqn:EW. clear EW.
  assert (Hself : grown s s) by (constructor; auto; exists []; rewrite app_nil_r; reflexivity).
  unfold addCapacity, getCapacity. u64_small.
  destruct (Z.eqb_spec size 0) as [->|Hs0]; [exists s; split; [|split; [|split]]; auto; lia|].
  rewrite Z.geb_leb. destruct (Z.leb_spec size (m_capacity s - m_position s)) as [Hfit|Hgrow];
    [exists s; split; [|split; [|split]]; auto; lia|].
  rewrite (proj2 (Z.eqb_neq _ _)) by lia. u64_small.
  set (d := size - (m_capacity s - m_position s)) in *. set (b := m_baseSize s) in *.
  rewrite ceil_div_exact by (unfold LIMIT in *; lia).
  set (c := (d + b - 1) / b).
  assert (Hc1 : b * c <= d + b - 1) by (apply Z.mul_div_le; lia).
  assert (Hc2 : d + b - 1 < b * Z.succ c) by (apply Z.mul_succ_div_gt; lia).
  assert (Hc0 : 0 < c) by nia.
  destruct (append_nodes_ok (Z.to_nat c) s) as (ext & -> & Hext & Hlen); try (fold b; nia).
  assert (Hz : zlen (m_nodes s ++ ext) = zlen (m_nodes s) + c) by (rewrite zlen_app; unfold zlen; lia).
  rewrite decide_False by lia. eexists. split; [reflexivity|].
  assert (Hpc : m_position s <= m_capacity s) by lia.
  assert (Hflat : exists e, flat_of (m_nodes s ++ ext) = flat s ++ e)
    by (eexists; unfold flat, flat_of; rewrite map_app, concat_app; reflexivity).
  destruct (Z.eqb_spec (m_capacity s - m_position s) 0) as [Hfull|Hroom];
    (split; [constructor; simpl|split; [constructor; simpl; auto|simpl; fold b; nia]]);
    fold b; rewrite ?Hz; auto; try nia; try (apply Forall_app; auto).
  - replace (m_position s) with (b * Z.of_nat (length (m_nodes s)) + 0)
      by (unfold zlen in *; lia).
    rewrite cur_of_inside; [reflexivity|lia|lia|unfold zlen; lia].
  - rewrite Hcur. unfold cur_of. fold b.
    rewrite (proj2 (Z.eqb_neq _ _)), (proj2 (Z.eqb_neq _ _)) by nia. reflexivity.
Qed.

End growth.

(** ** The abstract buffer

    What the class promises: a byte sequence, a cursor in it and the order of
    multi-byte integers. *)

Record Buf := mkBuf { b_data : list Z; b_pos : Z; b_order : Z }.

Definition abs (s : ByteArray) : Buf := mkBuf (contents s) (m_position s) (m_endian s).

Definition buf_write (d : list Z) (B : Buf) : Buf :=
  mkBuf (overlay (b_pos B) d (b_data B)) (b_pos B + zlen d) (b_order B).

Definition buf_advance (n : Z) (B : Buf) : Buf := mkBuf (b_data B) (b_pos B + n) (b_order B).

Lemma zlen_flat_wf s : WF s -> zlen (flat s) = m_capacity s.
Proof. intros W. unfold flat. rewrite (zlen_flat _ _ (wf_nodes s W)), (wf_cap s W). reflexivity. Qed.

Lemma zlen_contents s : WF s -> zlen (contents s) = m_size s.
Proof.
  intros W. pose proof (wf_pos s W). pose proof (wf_size s W).
  apply zlen_slice; rewrite ?zlen_flat_wf; auto; lia.
Qed.

Lemma wf_at_node s :
  WF s -> m_position s < m_capacity s ->
  exists i, at_node (m_baseSize s) s i (m_position s mod m_baseSize s).
Proof.
  intros [Hb Hn Hr Hcap Hl Hp Hsz He Hcur] Hlt.
  pose proof (Z.div_mod (m_position s) (m_baseSize s) ltac:(lia)) as Hdm.
  pose proof (Z.mod_pos_bound (m_position s) (m_baseSize s) Hb) as Hmod.
  assert (Hq : 0 <= m_position s / m_baseSize s < zlen (m_nodes s)) by (split; nia).
  exists (Z.to_nat (m_position s / m_baseSize s)).
  unfold zlen in *. constructor; unfold zlen; auto; try lia.
  rewrite Hcur. unfold cur_of. rewrite (proj2 (Z.eqb_neq _ _)) by lia. reflexivity.
Qed.

(** Leaving a loop at [pos] restores the invariant. *)
Lemma wf_moved s l pos :
  WF s -> Forall (node_ok (m_baseSize s)) l -> length l = length (m_nodes s) ->
  0 <= pos <= m_capacity s ->
  WF (set_size (Z.max (m_size s) pos) (moved (m_baseSize s) s l pos)).
Proof.
  intros [Hb Hn Hr Hcap Hl Hp Hsz He Hcur] Hok Hlen Hpos.
  assert (zlen l = zlen (m_nodes s)) as Hz by (unfold zlen; lia).
  constructor; simpl; rewrite ?Hz; auto; lia.
Qed.

Section core_ops.
Context (junk : nat -> nat -> Z).

Lemma write_ok buf s :
  WF s -> m_position s + zlen buf + m_baseSize s <= LIMIT ->
  exists s', write junk buf (zlen buf) s = (s', Ret tt) /\ WF s'
    /\ abs s' = buf_write buf (abs s) /\ m_baseSize s' = m_baseSize s
    /\ m_capacity s' <= Z.max (m_capacity s) (m_position s + zlen buf + m_baseSize s).
Proof.
  intros W Hlim. unfold write. pose proof (zlen_nonneg buf).
  destruct (Z.eqb_spec (zlen buf) 0) as [Hz|Hz].
  { exists s. destruct buf; [|unfold zlen in Hz; simpl in Hz; lia].
    pose proof (wf_base s W). repeat split; auto; try apply W; try lia.
    unfold buf_write, abs; simpl. rewrite overlay_nil. f_equal. unfold zlen. simpl. lia. }
  destruct (addCapacity_ok junk (zlen buf) s W ltac:(lia) Hlim) as (s1 & Hrun & W1 & G & Hcap).
  destruct G as [Gb Gp Gs Ge [ext Gf]].
  cstep Hrun. rewrite cbind_get. unfold id.
  pose proof (wf_base s1 W1). rewrite (proj2 (Z.eqb_neq _ _)) by lia.
  destruct (wf_at_node s1 W1 ltac:(lia)) as [i Hat].
  destruct (node_at _ _ i (an_nodes _ _ _ _ Hat) (an_lt _ _ _ _ Hat)) as (nd & Hnd & Hns & _).
  cstep (cur_node_run s1 i nd (an_cur _ _ _ _ Hat) Hnd). cbn [snd]. rewrite Hns.
  pose proof (an_npos _ _ _ _ Hat). pose proof (wf_limit s1 W1). pose proof (wf_cap s1 W1).
  pose proof (wf_pos s W). pose proof (wf_size s W).
  set (b := m_baseSize s1) in *. u64_small.
  destruct (write_loop_ok b (S (length (m_nodes s1))) s1 buf i (m_position s1 mod b) 0 (zlen buf))
    as (l & Hloop & Hok & Hlen & Hflat); auto; try lia.
  cstep Hloop. unfold cmod. rewrite slice_all in Hflat.
  assert (Hfin : (if m_position (moved b s1 l (m_position s1 + zlen buf)) >? m_size (moved b s1 l (m_position s1 + zlen buf))
             then set_size (m_position (moved b s1 l (m_position s1 + zlen buf))) (moved b s1 l (m_position s1 + zlen buf))
             else moved b s1 l (m_position s1 + zlen buf))
          = set_size (Z.max (m_size s1) (m_position s1 + zlen buf)) (moved b s1 l (m_position s1 + zlen buf))).
  { simpl. destruct (Z.le_gt_cases (m_position s1 + zlen buf) (m_size s1)).
    - rewrite gtb_false, Z.max_l by lia. reflexivity.
    - rewrite gtb_true, Z.max_r by lia. reflexivity. }
  rewrite Hfin. eexists. split; [reflexivity|].
  split; [apply wf_moved; auto; lia|]. split; [|simpl; lia].
  unfold abs, buf_write, contents, flat; simpl. rewrite Hflat, Gs, Gp, Ge. f_equal.
  change (flat_of (m_nodes s1)) with (flat s1).
  rewrite take_overlay_grow; rewrite ?zlen_flat_wf by assumption; try lia.
  - f_equal. rewrite Gf. fold (flat s). apply slice_ext_app; rewrite ?zlen_flat_wf by assumption; lia.
  - pose proof (wf_size s1 W1). lia.
Qed.

End core_ops.

Lemma read_ok n s :
  WF s -> 0 < n -> m_position s + n <= m_size s ->
  exists s', read n s = (s', Ret (slice (m_position s) n (contents s))) /\ WF s'
    /\ abs s' = buf_advance n (abs s) /\ m_baseSize s' = m_baseSize s
    /\ m_capacity s' = m_capacity s.
Proof.
  intros W Hn Hfit. unfold read. rewrite cbind_get. unfold id, getReadSize.
  pose proof (wf_limit s W). pose proof (wf_cap s W). pose proof (wf_base s W).
  pose proof (wf_pos s W). pose proof (wf_size s W). u64_small.
  rewrite gtb_false, (proj2 (Z.eqb_neq _ _)) by lia.
  destruct (wf_at_node s W ltac:(lia)) as [i Hat].
  destruct (node_at _ _ i (an_nodes _ _ _ _ Hat) (an_lt _ _ _ _ Hat)) as (nd & Hnd & Hns & _).
  cstep (cur_node_run s i nd (an_cur _ _ _ _ Hat) Hnd). cbn [snd]. rewrite Hns.
  pose proof (an_npos _ _ _ _ Hat). pose proof (an_limit _ _ _ _ Hat).
  assert (m_baseSize s <= LIMIT) by (pose proof (wf_root s W); nia). u64_small.
  rewrite (read_loop_ok _ _ s i) by (auto; lia).
  eexists. split; [unfold contents; rewrite slice_prefix by lia; reflexivity|].
  split; [|split; [reflexivity|split; reflexivity]].
  - pose proof (wf_moved s (m_nodes s) (m_position s + n) W (wf_nodes s W) eq_refl ltac:(lia)) as Hw.
    rewrite Z.max_l in Hw by lia. exact Hw.
Qed.

Lemma read_short n s :
  WF s -> m_size s < m_position s + n -> read n s = (s, Throw OutOfRange).
Proof.
  intros W Hlt. unfold read. rewrite cbind_get. unfold id, getReadSize.
  pose proof (wf_limit s W). pose proof (wf_pos s W). pose proof (wf_size s W). u64_small.
  rewrite gtb_true by lia. reflexivity.
Qed.

(** A read of no bytes through the cursor: NULL behind the last block. *)
Lemma read_zero s :
  WF s -> read 0 s = (s, if m_position s =? m_capacity s then Undef NullDeref else Ret []).
Proof.
  intros W. unfold read. rewrite cbind_get. unfold id, getReadSize.
  pose proof (wf_pos s W). pose proof (wf_size s W). pose proof (wf_base s W).
  rewrite gtb_false by (unfold uwrap; apply Z.mod_pos_bound; lia).
  rewrite (proj2 (Z.eqb_neq (m_baseSize s) 0)) by lia.
  destruct (Z.eqb_spec (m_position s) (m_capacity s)) as [E|E].
  - unfold cbind, cur_node, deref. rewrite (wf_cur s W). unfold cur_of.
    rewrite (proj2 (Z.eqb_eq _ _)) by (rewrite <- (wf_cap s W); assumption). reflexivity.
  - destruct (wf_at_node s W ltac:(lia)) as [i Hat].
    destruct (node_at _ _ i (an_nodes _ _ _ _ Hat) (an_lt _ _ _ _ Hat)) as (nd & Hnd & _ & _).
    cstep (cur_node_run s i nd (an_cur _ _ _ _ Hat) Hnd). reflexivity.
Qed.

Lemma setPosition_ok v s :
  WF s -> 0 <= v <= m_capacity s ->
  exists s', setPosition v s = (s', Ret tt) /\ WF s'
    /\ m_position s' = v /\ m_size s' = Z.max (m_size s) v
    /\ flat s' = flat s /\ m_endian s' = m_endian s
    /\ m_baseSize s' = m_baseSize s /\ m_capacity s' = m_capacity s.
Proof.
  intros W Hv. unfold setPosition. rewrite cbind_get. unfold id.
  rewrite gtb_false by lia. rewrite cbind_mod.
  set (s1 := set_size (Z.max (m_size s) v) (set_cur (Some 0%nat) (set_position v s))).
  match goal with |- context [cbind (seek _ _) _ ?x] => assert (Hx : x = s1) end.
  { unfold s1. simpl. destruct (Z.le_gt_cases v (m_size s)).
    - rewrite gtb_false, Z.max_l by lia. reflexivity.
    - rewrite gtb_true, Z.max_r by lia. reflexivity. }
  rewrite Hx. clear Hx. set (b := m_baseSize s).
  destruct W as [Hb Hn Hr Hcap Hl Hp Hsz He Hcur] eqn:EW. clear EW. fold b in Hb, Hn, Hcap.
  destruct (seek_ok b (S (length (m_nodes s))) s1 0%nat v) as (j & v' & Hrun & Hj & Hv' & E);
    simpl; auto; try (unfold zlen in *; lia).
  cstep Hrun. destruct (node_at b _ j Hn Hj) as (nd & Hnd & Hns & _).
  cstep (cur_node_run (set_cur (Some j) s1) j nd eq_refl Hnd). cbn [snd]. rewrite Hns.
  pose proof (wf_moved s (m_nodes s) v W Hn eq_refl ltac:(lia)) as Hw. fold b in Hw.
  assert (Hgoal : (if v' =? b then advance else cret tt) (set_cur (Some j) s1)
            = (set_size (Z.max (m_size s) v) (moved b s (m_nodes s) v), Ret tt)).
  { destruct (Z.eqb_spec v' b) as [->|Hne].
    - rewrite (advance_run (set_cur (Some j) s1) j nd eq_refl Hnd), (cur_of_end b) by assumption.
      unfold moved, set_cur, set_size; simpl. do 3 f_equal. simpl in *. lia.
    - unfold cret, moved, set_cur, set_size; simpl. do 2 f_equal. simpl in *.
      replace v with (b * Z.of_nat j + v') by lia.
      rewrite cur_of_inside; [reflexivity|lia|lia|unfold zlen; lia]. }
  rewrite Hgoal. eexists. split; [reflexivity|]. split; [exact Hw|]. simpl. auto 10.
Qed.

Lemma clear_ok s :
  WF s -> WF (clear s) /\ abs (clear s) = mkBuf [] 0 (m_endian s)
    /\ m_baseSize (clear s) = m_baseSize s /\ m_capacity (clear s) = m_baseSize s.
Proof.
  intros [Hb Hn Hr Hcap Hl Hp Hsz He Hcur].
  destruct (m_nodes s) as [|nd l] eqn:El; [unfold zlen in Hr; simpl in Hr; lia|].
  inversion Hn as [|? ? Hnd Hn']; subst.
  split; [|split; [reflexivity|split; reflexivity]].
  constructor; simpl; rewrite ?El; simpl; auto; rewrite ?zlen_cons in *;
    pose proof (zlen_nonneg l); try (unfold zlen; simpl; lia); try nia.
  - pose proof (cur_of_inside (m_baseSize s) 1 0%nat 0 Hb ltac:(lia) ltac:(lia)) as Hc.
    change (Z.of_nat 0) with 0 in Hc. rewrite Z.mul_0_r in Hc. symmetry. exact Hc.
Qed.
