(* ===== verification/ByteArraySpec.v ===== *)
(** * The byte buffer refines its contract

    Sequences of calls on a [ByteArray] against the abstract buffer [Buf] of
    ByteArray.v.  [buf_step] is what one call promises; its only undefined
    outcome is that of a read of no bytes at the end of the data, so the
    simulation is also the memory safety of the class. *)

From stdpp Require Import base list numbers.
From Stdlib Require Import ZArith Lia.
From S2P Require Import Prelude Endian Double ByteArray.

Local Open Scope Z_scope.
Local Open Scope cpp_scope.

Inductive op : Type :=
  | OWrite (d : list Z)
  | ORead (n : Z)
  | OSeek (v : Z)
  | OClear
  | OOrder (little : bool).

Definition run_op (junk : nat -> nat -> Z) (o : op) : M ByteArray (list Z) :=
  match o with
  | OWrite d => write junk d (zlen d) ;;; cret []
  | ORead n => read n
  | OSeek v => setPosition v ;;; cret []
  | OClear => cmod clear ;;; cret []
  | OOrder b => cmod (setIsLittleEndian b) ;;; cret []
  end.

(** The caller of a throwing call may catch the exception and go on; an
    undefined call is the last one. *)
Fixpoint run_ops (junk : nat -> nat -> Z) (ops : list op) (s : ByteArray)
    : ByteArray * list (outcome (list Z)) :=
  match ops with
  | [] => (s, [])
  | o :: ops' =>
      match run_op junk o s with
      | (s1, Undef f) => (s1, [Undef f])
      | (s1, r) => let '(s2, rs) := run_ops junk ops' s1 in (s2, r :: rs)
      end
  end.

Inductive buf_step (B : Buf) : op -> outcome (list Z) -> Buf -> Prop :=
  | bs_write d : buf_step B (OWrite d) (Ret []) (buf_write d B)
  | bs_read n :
      b_pos B + n <= zlen (b_data B) ->
      buf_step B (ORead n) (Ret (slice (b_pos B) n (b_data B))) (buf_advance n B)
  | bs_read_null :
      b_pos B = zlen (b_data B) -> buf_step B (ORead 0) (Undef NullDeref) B
  | bs_read_short n :
      zlen (b_data B) < b_pos B + n -> buf_step B (ORead n) (Throw OutOfRange) B
  | bs_seek v :
      0 <= v <= zlen (b_data B) ->
      buf_step B (OSeek v) (Ret []) (mkBuf (b_data B) v (b_order B))
  | bs_seek_grow v pad :
      zlen (b_data B) < v -> zlen (b_data B ++ pad) = v ->
      buf_step B (OSeek v) (Ret []) (mkBuf (b_data B ++ pad) v (b_order B))
  | bs_seek_throw v :
      zlen (b_data B) < v -> buf_step B (OSeek v) (Throw OutOfRange) B
  | bs_clear : buf_step B OClear (Ret []) (mkBuf [] 0 (b_order B))
  | bs_order (b : bool) :
      buf_step B (OOrder b) (Ret [])
        (mkBuf (b_data B) (b_pos B) (if b then SYLAR_LITTLE_ENDIAN else SYLAR_BIG_ENDIAN)).

Inductive buf_run : Buf -> list op -> list (outcome (list Z)) -> Buf -> Prop :=
  | br_nil B : buf_run B [] [] B
  | br_fault B o f B1 ops :
      buf_step B o (Undef f) B1 -> buf_run B (o :: ops) [Undef f] B1
  | br_cons B o r B1 ops rs B2 :
      (forall f, r <> Undef f) ->
      buf_step B o r B1 -> buf_run B1 ops rs B2 -> buf_run B (o :: ops) (r :: rs) B2.

(** The cursor is behind the last byte of the last block. *)
Definition full (s : ByteArray) : Prop := m_position s = m_capacity s.

(** A [size_t] argument is not negative. *)
Definition op_ok (o : op) : bool :=
  match o with
  | ORead n => 0 <=? n
  | OSeek v => 0 <=? v
  | _ => true
  end.

(** The memory a call may add. *)
Definition op_cost (base : Z) (o : op) : Z :=
  match o with OWrite d => zlen d + base | _ => 0 end.

Fixpoint ops_cost (base : Z) (ops : list op) : Z :=
  match ops with [] => 0 | o :: ops' => op_cost base o + ops_cost base ops' end.

(** ** Lemmas *)

Lemma ops_cost_nonneg base ops : 0 <= base -> 0 <= ops_cost base ops.
Proof.
  intros Hb. induction ops as [|o ops IH]; simpl; [lia|].
  destruct o as [d| | | |]; simpl; try lia. pose proof (zlen_nonneg d). lia.
Qed.

Lemma wf_new junk base : 0 < base <= LIMIT -> WF (ByteArray_new junk base).
Proof.
  intros Hb. constructor; simpl; try (unfold zlen; simpl; lia).
  - constructor; [apply new_node_ok; lia|constructor].
  - right. reflexivity.
  - pose proof (cur_of_inside base 1 0%nat 0 ltac:(lia) ltac:(lia) ltac:(lia)) as Hc.
    change (Z.of_nat 0) with 0 in Hc. rewrite Z.mul_0_r in Hc. symmetry. exact Hc.
Qed.

Lemma abs_new junk base : abs (ByteArray_new junk base) = mkBuf [] 0 SYLAR_BIG_ENDIAN.
Proof. reflexivity. Qed.

(** The contents after the logical size moved to [v]. *)
Lemma contents_grow s s' v :
  WF s -> WF s' -> flat s' = flat s -> m_size s' = Z.max (m_size s) v ->
  exists pad, contents s' = contents s ++ pad
    /\ (v <= m_size s -> pad = []) /\ zlen (contents s ++ pad) = Z.max (m_size s) v.
Proof.
  intros W W' Hf Hs. pose proof (wf_pos s W). pose proof (wf_size s' W').
  exists (slice (m_size s) (m_size s' - m_size s) (flat s)).
  assert (E : contents s' = contents s ++ slice (m_size s) (m_size s' - m_size s) (flat s)).
  { unfold contents. rewrite Hf, <- (Z.add_0_l (m_size s)) at 1. rewrite <- slice_app by lia.
    f_equal. lia. }
  split; [exact E|]. split.
  - intros. replace (m_size s' - m_size s) with 0 by lia. apply slice_0.
  - rewrite <- E, zlen_contents by assumption. exact Hs.
Qed.

Lemma buf_advance_0 B : buf_advance 0 B = B.
Proof. destruct B. unfold buf_advance. simpl. f_equal. lia. Qed.

Lemma run_op_ok junk o s :
  WF s -> op_ok o = true -> m_capacity s + op_cost (m_baseSize s) o <= LIMIT ->
  let '(s', r) := run_op junk o s in
  WF s' /\ buf_step (abs s) o r (abs s') /\ m_baseSize s' = m_baseSize s
  /\ m_capacity s' <= m_capacity s + op_cost (m_baseSize s) o
  /\ forall f, r = Undef f -> full s'.
Proof.
  intros W Hok Hlim. pose proof (wf_pos s W). pose proof (wf_size s W).
  pose proof (zlen_contents s W) as Hzc. unfold full.
  destruct o as [d|n|v| |b]; simpl in *.
  - destruct (write_ok junk d s W ltac:(lia)) as (s' & Hrun & W' & Habs & Hb & Hc).
    unfold cbind. rewrite Hrun. simpl. rewrite Habs. split; [assumption|].
    pose proof (zlen_nonneg d). pose proof (wf_base s W). repeat split; [constructor|lia..|discriminate].
  - apply Z.leb_le in Hok. destruct (Z.eq_dec n 0) as [->|Hn0].
    { rewrite read_zero by assumption. split; [assumption|].
      destruct (Z.eqb_spec (m_position s) (m_capacity s)) as [E|E].
      - repeat split; [constructor; simpl; lia|lia|auto].
      - repeat split; [|lia|discriminate]. rewrite <- (buf_advance_0 (abs s)) at 2.
        rewrite <- (slice_0 (b_pos (abs s)) (b_data (abs s))). constructor. simpl. lia. }
    destruct (Z.le_gt_cases (m_position s + n) (m_size s)) as [Hle|Hgt].
    + destruct (read_ok n s W ltac:(lia) Hle) as (s' & -> & W' & Habs & Hb & Hc).
      rewrite Habs. split; [assumption|]. repeat split; [|lia..|discriminate]. constructor. simpl. lia.
    + rewrite read_short by (assumption || lia). split; [assumption|].
      repeat split; [|lia..|discriminate]. constructor. simpl. lia.
  - apply Z.leb_le in Hok. destruct (Z.le_gt_cases v (m_capacity s)) as [Hle|Hgt].
    + destruct (setPosition_ok v s W ltac:(lia)) as (s' & Hrun & W' & Hp & Hs & Hf & He & Hb & Hc).
      unfold cbind. rewrite Hrun. simpl. split; [assumption|]. repeat split; [|lia..|discriminate].
      destruct (contents_grow s s' v W W' Hf Hs) as (pad & E & Hpad & Hz).
      unfold abs. rewrite E, Hp, He. destruct (Z.le_gt_cases v (m_size s)) as [Hin|Hout].
      * rewrite (Hpad Hin), app_nil_r. apply (bs_seek (abs s)). simpl. lia.
      * apply (bs_seek_grow (abs s)); simpl; lia.
    + unfold setPosition, cbind, cget. rewrite gtb_true by (unfold id; lia). simpl.
      split; [assumption|]. repeat split; [|lia..|discriminate]. constructor. simpl. lia.
  - destruct (clear_ok s W) as (W' & Habs & Hb & Hc). rewrite Habs.
    split; [assumption|]. pose proof (wf_root s W). pose proof (wf_cap s W). pose proof (wf_base s W).
    repeat split; [constructor|nia..|discriminate].
  - assert (W' : WF (setIsLittleEndian b s)).
    { destruct W. destruct b; constructor; simpl; auto; [left|right]; reflexivity. }
    split; [assumption|]. destruct b; simpl; repeat split; try constructor; (lia || discriminate).
Qed.

Lemma run_ops_ok junk ops : forall s,
  WF s -> forallb op_ok ops = true -> m_capacity s + ops_cost (m_baseSize s) ops <= LIMIT ->
  let '(s', rs) := run_ops junk ops s in
  WF s' /\ buf_run (abs s) ops rs (abs s') /\ forall f, Undef f ∈ rs -> full s'.
Proof.
  induction ops as [|o ops IH]; intros s W Hok Hlim; cbn [run_ops].
  - split; [assumption|]. split; [constructor|]. intros f Hf. inversion Hf.
  - simpl in Hok, Hlim. apply andb_true_iff in Hok as [Ho Hok].
    pose proof (ops_cost_nonneg (m_baseSize s) ops ltac:(pose proof (wf_base s W); lia)).
    pose proof (run_op_ok junk o s W Ho ltac:(lia)) as H1.
    destruct (run_op junk o s) as [s1 r]. destruct H1 as (W1 & Hstep & Hb & Hc & Hfull).
    specialize (IH s1 W1 Hok). rewrite Hb in IH. specialize (IH ltac:(lia)).
    destruct r as [x|e|f]; [| |split; [assumption|split; [by constructor|eauto]]].
    all: destruct (run_ops junk ops s1) as [s2 rs]; destruct IH as (W2 & Hrun & Hf);
      split; [assumption|]; split; [by econstructor|].
    all: intros f [Hin|Hin]%elem_of_cons; [discriminate|eauto].
Qed.

Lemma buf_run_undef B ops rs B' f : buf_run B ops rs B' -> Undef f ∈ rs -> f = NullDeref.
Proof.
  induction 1 as [|B o g B1 ops Hs|B o r B1 ops rs B2 Hr Hs _ IH]; intros Hin.
  - inversion Hin.
  - apply list_elem_of_singleton in Hin as [= ->]. by inversion Hs.
  - apply elem_of_cons in Hin as [<-|Hin]; [by destruct (Hr f)|auto].
Qed.

(** ** Properties *)

(** C1: a freshly constructed [ByteArray] of any block size, driven by any
    sequence of writes, reads, seeks, clears and byte-order changes that stays
    below the memory limit of 2^53 bytes, behaves as the abstract buffer: writes
    overwrite or extend the byte sequence at the cursor across block borders,
    reads return exactly the bytes of the sequence or throw [out_of_range]
    without moving, seeks move or extend.  No call leaves a block or exhausts
    the loop bound, whatever the allocator leaves in fresh memory.  The one
    undefined call is a read of no bytes while the cursor is behind the last
    block: it dereferences NULL, always then and only then. *)
Theorem bytearray_refines junk base ops :
  0 < base -> forallb op_ok ops = true -> base + ops_cost base ops <= LIMIT ->
  let '(s, rs) := run_ops junk ops (ByteArray_new junk base) in
  WF s /\ buf_run (mkBuf [] 0 SYLAR_BIG_ENDIAN) ops rs (abs s)
  /\ (forall f, Undef f ∈ rs -> f = NullDeref /\ full s)
  /\ (run_op junk (ORead 0) s = (s, Undef NullDeref) <-> full s).
Proof.
  intros Hb Hok Hlim. pose proof (ops_cost_nonneg base ops ltac:(lia)).
  pose proof (run_ops_ok junk ops (ByteArray_new junk base) ltac:(apply wf_new; lia) Hok Hlim) as H1.
  rewrite abs_new in H1. destruct (run_ops _ _ _) as [s rs]. destruct H1 as (W & Hrun & Hf).
  split; [assumption|]. split; [assumption|]. split.
  - intros f Hin. split; [by eapply buf_run_undef|eauto].
  - simpl. rewrite read_zero by assumption. unfold full.
    destruct (Z.eqb_spec (m_position s) (m_capacity s)); split; congruence.
Qed.

Definition demo_ops : list op :=
  [OWrite [1; 2; 3; 4; 5]; OSeek 1; ORead 3; ORead 0; ORead 9; OSeek 3; OWrite [9; 9; 9]; ORead 0; OClear].

Lemma bytearray_refines_witness :
  (let '(s, rs) := run_ops (fun _ _ => 7) demo_ops (ByteArray_new (fun _ _ => 7) 2) in
   WF s /\ buf_run (mkBuf [] 0 SYLAR_BIG_ENDIAN) demo_ops rs (abs s)
   /\ (forall f, Undef f ∈ rs -> f = NullDeref /\ full s)
   /\ (run_op (fun _ _ => 7) (ORead 0) s = (s, Undef NullDeref) <-> full s))
  /\ snd (run_ops (fun _ _ => 7) demo_ops (ByteArray_new (fun _ _ => 7) 2))
     = [Ret []; Ret []; Ret [2; 3; 4]; Ret []; Throw OutOfRange; Ret []; Ret []; Undef NullDeref].
Proof.
  split; [|vm_compute; reflexivity].
  apply (bytearray_refines (fun _ _ => 7) 2 demo_ops); vm_compute; congruence.
Defined.

(** The number of blocks [addCapacity] appends, computed in double
    precision as [ceil(1.0 * size / m_baseSize)], is the exact ceiling of the
    quotient for all sizes below 2^53. *)
Theorem addCapacity_count_exact size base :
  0 < size < 2 ^ 53 -> 0 < base < 2 ^ 53 ->
  let count := ceil_double_div size base in
  base * (count - 1) < size <= base * count.
Proof.
  intros Hs Hb. cbv zeta. rewrite ceil_div_exact by assumption.
  pose proof (Z.mul_div_le (size + base - 1) base ltac:(lia)).
  pose proof (Z.mul_succ_div_gt (size + base - 1) base ltac:(lia)). lia.
Qed.

Lemma addCapacity_count_exact_witness :
  0 < 10000 < 2 ^ 53 /\ ceil_double_div 10000 4096 = 3
  /\ 4096 * (3 - 1) < 10000 <= 4096 * 3.
Proof.
  split; [lia|]. split; [vm_compute; reflexivity|].
  exact (addCapacity_count_exact 10000 4096 ltac:(lia) ltac:(lia)).
Defined.

(** Asking for zero bytes at the very end of a buffer whose blocks are
    all full reads through the NULL cursor: [read] tests the length but not
    the emptiness of the request before it dereferences [m_cur]. *)
Theorem read_zero_at_capacity s :
  WF s -> m_position s = m_capacity s -> read 0 s = (s, Undef NullDeref).
Proof. intros W Hfull. rewrite read_zero by assumption. by rewrite Hfull, Z.eqb_refl. Qed.

Definition full_buffer : ByteArray :=
  fst (write (fun _ _ => 0) [1; 2] 2 (ByteArray_new (fun _ _ => 0) 2)).

Lemma read_zero_at_capacity_witness :
  read 0 full_buffer = (full_buffer, Undef NullDeref).
Proof.
  apply (read_zero_at_capacity full_buffer); [|reflexivity].
  constructor; vm_compute; try congruence; try (split; congruence).
  - constructor; [split; reflexivity|constructor].
  - right; reflexivity.
Defined.
