(* ===== verification/ByteArrayCodec.v ===== *)
(** * Typed reads and writes of ByteArray: sylar/bytearray.cpp

    Fixed-width integers, zigzag and varint integers, floats and strings.
    The host byte order is the parameter [host] (as in Endian.v), [string_max]
    is the implementation's [std::string::max_size()], and [wrapv] says what
    the compiler makes of signed overflow: wrap-around, or, as in ISO C++,
    undefined behaviour.  A [float] or [double] is its object representation,
    the bit pattern that [memcpy] copies.

    [Codec] is the interface between the typed operations and their clients:
    a write appends an encoding at the cursor, a read that finds that encoding
    at the cursor returns the value and moves behind it.  Each pair of
    operations is an instance; the round trip of whole messages
    ([message_roundtrip]) is proved against the interface. *)

From stdpp Require Import base list numbers.
From Stdlib Require Import ZArith Lia.
From S2P Require Import Prelude Endian Double ByteArray.

Local Open Scope Z_scope.
Local Open Scope cpp_scope.

(** The value of a signed expression of [w] bits. *)
Definition s_arith (wrapv : bool) (w x : Z) : outcome Z :=
  if (- 2 ^ (w - 1) <=? x) && (x <? 2 ^ (w - 1)) then Ret x
  else if wrapv then Ret (swrap w x) else Undef SignedOverflow.

(** ** Zigzag *)

Definition EncodeZigzag32 (wrapv : bool) (v : Z) : outcome Z :=
  if v <? 0 then obind (s_arith wrapv 32 (- v)) (fun m => Ret (u32 (u32 (u32 m * 2) - 1)))
  else obind (s_arith wrapv 32 (v * 2)) (fun m => Ret (u32 m)).

Definition EncodeZigzag64 (wrapv : bool) (v : Z) : outcome Z :=
  if v <? 0 then obind (s_arith wrapv 64 (- v)) (fun m => Ret (u64 (u64 (u64 m * 2) - 1)))
  else obind (s_arith wrapv 64 (v * 2)) (fun m => Ret (u64 m)).

Definition DecodeZigzag32 (v : Z) : Z :=
  i32 (Z.lxor (Z.shiftr v 1) (u32 (- Z.land v 1))).

Definition DecodeZigzag64 (v : Z) : Z :=
  i64 (Z.lxor (Z.shiftr v 1) (u64 (- Z.land v 1))).

(** ** Varint: the loop that fills [tmp], which has [room] free slots. *)
Fixpoint encode_varint (room : nat) (value : Z) : outcome (list Z) :=
  match room with
  | O => Undef OutOfBounds
  | S room' =>
      if value >=? 0x80 then
        obind (encode_varint room' (Z.shiftr value 7)) (fun l =>
          Ret (u8 (Z.lor (Z.land value 0x7F) 0x80) :: l))
      else Ret [u8 value]
  end.

Section codec.
Context (junk : nat -> nat -> Z) (host : Z) (string_max : Z) (wrapv : bool).

Definition put (d : list Z) : M ByteArray unit := write junk d (zlen d).

(** ** Writing *)

Definition writeFint8 (value : Z) : M ByteArray unit := put (mem_image host 1 value).
Definition writeFuint8 (value : Z) : M ByteArray unit := put (mem_image host 1 value).

Definition writeFint16 (value : Z) : M ByteArray unit :=
  let! e := cget m_endian in
  let value := if negb (e =? host) then byteswap_s 2 value else value in
  put (mem_image host 2 value).

Definition writeFuint16 (value : Z) : M ByteArray unit :=
  let! e := cget m_endian in
  let value := if negb (e =? host) then byteswap_u 2 value else value in
  put (mem_image host 2 value).

Definition writeFint32 (value : Z) : M ByteArray unit :=
  let! e := cget m_endian in
  let value := if negb (e =? host) then byteswap_s 4 value else value in
  put (mem_image host 4 value).

Definition writeFuint32 (value : Z) : M ByteArray unit :=
  let! e := cget m_endian in
  let value := if negb (e =? host) then byteswap_u 4 value else value in
  put (mem_image host 4 value).

Definition writeFint64 (value : Z) : M ByteArray unit :=
  let! e := cget m_endian in
  let value := if negb (e =? host) then byteswap_s 8 value else value in
  put (mem_image host 8 value).

Definition writeFuint64 (value : Z) : M ByteArray unit :=
  let! e := cget m_endian in
  let value := if negb (e =? host) then byteswap_u 8 value else value in
  put (mem_image host 8 value).

Definition writeUint32 (value : Z) : M ByteArray unit :=
  let! tmp := lift (encode_varint 5 value) in put tmp.

Definition writeInt32 (value : Z) : M ByteArray unit :=
  let! v := lift (EncodeZigzag32 wrapv value) in writeUint32 v.

Definition writeUint64 (value : Z) : M ByteArray unit :=
  let! tmp := lift (encode_varint 10 value) in put tmp.

Definition writeInt64 (value : Z) : M ByteArray unit :=
  let! v := lift (EncodeZigzag64 wrapv value) in writeUint64 v.

Definition writeFloat (value : Z) : M ByteArray unit := writeFuint32 value.
Definition writeDouble (value : Z) : M ByteArray unit := writeFuint64 value.

Definition writeStringF16 (value : list Z) : M ByteArray unit :=
  writeFuint16 (u16 (zlen value)) ;;; put value.
Definition writeStringF32 (value : list Z) : M ByteArray unit :=
  writeFuint32 (u32 (zlen value)) ;;; put value.
Definition writeStringF64 (value : list Z) : M ByteArray unit :=
  writeFuint64 (zlen value) ;;; put value.
Definition writeStringVint (value : list Z) : M ByteArray unit :=
  writeUint64 (zlen value) ;;; put value.
Definition writeStringWithoutLength (value : list Z) : M ByteArray unit := put value.

(** ** Reading *)

Definition readFint8 : M ByteArray Z :=
  let! d := read 1 in cret (swrap 8 (mem_value host d)).
Definition readFuint8 : M ByteArray Z :=
  let! d := read 1 in cret (mem_value host d).

(** The macro [XX(type)]. *)
Definition XX (sizeof : nat) (conv swap : Z -> Z) : M ByteArray Z :=
  let! d := read (Z.of_nat sizeof) in
  let v := conv (mem_value host d) in
  let! e := cget m_endian in
  if e =? host then cret v else cret (swap v).

Definition readFint16 : M ByteArray Z := XX 2 (swrap 16) (byteswap_s 2).
Definition readFuint16 : M ByteArray Z := XX 2 id (byteswap_u 2).
Definition readFint32 : M ByteArray Z := XX 4 (swrap 32) (byteswap_s 4).
Definition readFuint32 : M ByteArray Z := XX 4 id (byteswap_u 4).
Definition readFint64 : M ByteArray Z := XX 8 (swrap 64) (byteswap_s 8).
Definition readFuint64 : M ByteArray Z := XX 8 id (byteswap_u 8).

(** The loop [for (int i = 0; i < w; i += 7)] of the varint readers. *)
Fixpoint decode_varint (fuel : nat) (w i result : Z) : M ByteArray Z :=
  if i <? w then
    match fuel with
    | O => cundef FuelExhausted
    | S fuel' =>
        let! b := readFuint8 in
        if b <? 0x80 then cret (Z.lor result (uwrap w (Z.shiftl b i)))
        else decode_varint fuel' w (i + 7)
               (Z.lor result (uwrap w (Z.shiftl (Z.land b 0x7f) i)))
    end
  else cret result.

Definition readUint32 : M ByteArray Z := decode_varint 5 32 0 0.
Definition readInt32 : M ByteArray Z :=
  let! v := readUint32 in cret (DecodeZigzag32 v).
Definition readUint64 : M ByteArray Z := decode_varint 10 64 0 0.
Definition readInt64 : M ByteArray Z :=
  let! v := readUint64 in cret (DecodeZigzag64 v).

Definition readFloat : M ByteArray Z := readFuint32.
Definition readDouble : M ByteArray Z := readFuint64.

(** [buff.resize(len)] throws beyond [max_size()]. *)
Definition read_string (len : Z) : M ByteArray (list Z) :=
  if len >? string_max then cthrow LengthError else read len.

Definition readStringF16 : M ByteArray (list Z) := let! len := readFuint16 in read_string len.
Definition readStringF32 : M ByteArray (list Z) := let! len := readFuint32 in read_string len.
Definition readStringF64 : M ByteArray (list Z) := let! len := readFuint64 in read_string len.
Definition readStringVint : M ByteArray (list Z) := let! len := readUint64 in read_string len.

End codec.

(** ** The interface of a typed pair of operations *)

(** [s'] is [s] after [d] was written at the cursor. *)
Record wrote (d : list Z) (s s' : ByteArray) : Prop := {
  wr_wf : WF s';
  wr_abs : abs s' = buf_write d (abs s);
  wr_base : m_baseSize s' = m_baseSize s;
  wr_cap : m_capacity s' <= Z.max (m_capacity s) (m_position s + zlen d + m_baseSize s)
}.

(** [s'] is [s] with the cursor moved by [n]. *)
Record moved_by (n : Z) (s s' : ByteArray) : Prop := {
  mv_wf : WF s';
  mv_abs : abs s' = buf_advance n (abs s);
  mv_base : m_baseSize s' = m_baseSize s;
  mv_cap : m_capacity s' = m_capacity s
}.

Definition fits (d : list Z) (s : ByteArray) : Prop :=
  m_position s + zlen d + m_baseSize s <= LIMIT.

(** The bytes [d] follow the cursor. *)
Definition at_cursor (d : list Z) (s : ByteArray) : Prop :=
  m_position s + zlen d <= m_size s /\ slice (m_position s) (zlen d) (contents s) = d.

Class Codec {A} (dom : A -> Prop) (solid : A -> bool) (enc : Z -> A -> list Z)
    (wr : A -> M ByteArray unit) (rd : M ByteArray A) : Prop := {
  codec_nonempty : forall e x, dom x -> 0 < zlen (enc e x);
  codec_write : forall x s, dom x -> WF s -> fits (enc (m_endian s) x) s ->
    exists s', wr x s = (s', Ret tt) /\ wrote (enc (m_endian s) x) s s';
  (* a value that is not [solid] ends in a zero-byte read, which needs a block
     under the cursor *)
  codec_read : forall x s, dom x -> WF s -> at_cursor (enc (m_endian s) x) s ->
    solid x = true \/ m_position s + zlen (enc (m_endian s) x) < m_capacity s ->
    exists s', rd s = (s', Ret x) /\ moved_by (zlen (enc (m_endian s) x)) s s'
}.

(** ** Composition of writes and reads *)

Lemma moved_by_fields n s s' :
  moved_by n s s' ->
  m_position s' = m_position s + n /\ contents s' = contents s /\ m_endian s' = m_endian s.
Proof. intros [_ E _ _]. injection E. auto. Qed.

Lemma wrote_fields d s s' :
  wrote d s s' ->
  m_position s' = m_position s + zlen d /\ m_endian s' = m_endian s
  /\ contents s' = overlay (m_position s) d (contents s).
Proof. intros [_ E _ _]. injection E. auto. Qed.

Lemma wrote_app d1 d2 s s1 s2 :
  WF s -> wrote d1 s s1 -> wrote d2 s1 s2 -> wrote (d1 ++ d2) s s2.
Proof.
  intros W W1 W2. destruct (wrote_fields _ _ _ W1) as (Hp & _ & _).
  destruct W1 as [_ E1 B1 C1], W2 as [X2 E2 B2 C2].
  pose proof (zlen_nonneg d2). pose proof (wf_pos s W).
  constructor; auto; [|congruence|rewrite zlen_app; lia].
  rewrite E2, E1. unfold buf_write; simpl.
  rewrite overlay_overlay, zlen_app, Z.add_assoc; [reflexivity|].
  rewrite (zlen_contents s W). lia.
Qed.

Lemma moved_by_trans n m s s1 s2 :
  moved_by n s s1 -> moved_by m s1 s2 -> moved_by (n + m) s s2.
Proof.
  intros [W1 E1 B1 C1] [W2 E2 B2 C2]. constructor; auto; try congruence.
  rewrite E2, E1. unfold buf_advance; simpl. rewrite Z.add_assoc. reflexivity.
Qed.

Lemma at_cursor_app d1 d2 s :
  WF s -> at_cursor (d1 ++ d2) s ->
  at_cursor d1 s /\ forall s', moved_by (zlen d1) s s' -> at_cursor d2 s'.
Proof.
  intros W [Hle Hs]. pose proof (zlen_nonneg d1). pose proof (zlen_nonneg d2).
  pose proof (wf_pos s W). rewrite zlen_app in *.
  rewrite slice_app in Hs by lia. apply app_inj_1 in Hs as [HA HB].
  - split; [split; [lia|assumption]|]. intros s' M.
    destruct (moved_by_fields _ _ _ M) as (Hp & Hc & _).
    pose proof (zlen_contents s' (mv_wf _ _ _ M)) as Hz.
    pose proof (zlen_contents s W) as Hz'. rewrite Hc in Hz.
    split; rewrite Hp, ?Hc; [lia|assumption].
  - apply Nat2Z.inj. change (zlen (slice (m_position s) (zlen d1) (contents s)) = zlen d1).
    apply zlen_slice; rewrite ?(zlen_contents s W); lia.
Qed.

Lemma put_ok junk d s :
  WF s -> fits d s -> exists s', put junk d s = (s', Ret tt) /\ wrote d s s'.
Proof.
  intros W F. destruct (write_ok junk d s W F) as (s' & Hrun & W' & Habs & Hb & Hc).
  exists s'. split; [exact Hrun|]. constructor; assumption.
Qed.

Lemma get_ok d s :
  WF s -> at_cursor d s -> 0 < zlen d ->
  exists s', read (zlen d) s = (s', Ret d) /\ moved_by (zlen d) s s'.
Proof.
  intros W [Hle Hs] Hd. destruct (read_ok (zlen d) s W Hd Hle) as (s' & Hrun & W' & Ha & Hb & Hc).
  rewrite Hs in Hrun. exists s'. split; [exact Hrun|]. constructor; assumption.
Qed.

(** Reading a possibly empty tail. *)
Lemma get_tail_ok d s :
  WF s -> at_cursor d s -> 0 < zlen d \/ m_position s < m_capacity s ->
  exists s', read (zlen d) s = (s', Ret d) /\ moved_by (zlen d) s s'.
Proof.
  intros W Hat [Hd|Hroom]; [apply get_ok; assumption|].
  destruct d as [|x d]; [|apply get_ok; auto; rewrite zlen_cons; pose proof (zlen_nonneg d); lia].
  exists s. change (zlen []) with 0. rewrite read_zero, (proj2 (Z.eqb_neq _ _)) by (assumption || lia).
  split; [reflexivity|]. constructor; auto.
  unfold abs, buf_advance; simpl. f_equal. lia.
Qed.

(** ** Fixed-width integers *)

Lemma mem_value_swapped e h n x :
  is_order e -> is_order h -> e <> h -> mem_value h (mem_image e n x) = bswap n x.
Proof.
  intros [->| ->] [->| ->] Hne; try congruence; unfold mem_value, mem_image, bswap; simpl;
    rewrite ?rev_involutive; reflexivity.
Qed.

(** What the conversions of the signed and the unsigned types have in common. *)
Record int_type (n : nat) (conv swap : Z -> Z) (dom : Z -> Prop) : Prop := {
  it_pos : (0 < n)%nat;
  it_conv : forall x, dom x -> conv (uwrap (8 * Z.of_nat n) x) = x;
  it_bytes : forall x, bytes_of n (swap x) = rev (bytes_of n x);
  it_swap : forall x, dom x -> swap (conv (bswap n x)) = x
}.

Lemma int_type_u n : (0 < n)%nat -> int_type n id (byteswap_u n) (u_range (8 * Z.of_nat n)).
Proof.
  intros Hn. constructor; auto.
  - intros x Hx. apply uwrap_id. assumption.
  - apply bytes_of_byteswap_u.
  - intros x Hx. unfold id, byteswap_u, bswap at 1.
    rewrite bytes_of_uwrap, bytes_of_bswap, rev_involutive, of_bytes_of, pow256.
    apply uwrap_id. assumption.
Qed.

Lemma int_type_s n :
  (0 < n)%nat -> int_type n (swrap (8 * Z.of_nat n)) (byteswap_s n) (s_range (8 * Z.of_nat n)).
Proof.
  intros Hn. constructor; auto.
  - intros x Hx. apply swrap_uwrap; [lia|assumption].
  - intros x. apply bytes_of_byteswap_s. assumption.
  - intros x Hx. unfold byteswap_s, bswap at 1.
    rewrite bytes_of_uwrap, bytes_of_swrap, bytes_of_bswap, rev_involutive, of_bytes_of, pow256
      by assumption.
    apply swrap_uwrap; [lia|assumption].
Qed.

Section fixed.
Context (junk : nat -> nat -> Z) (host : Z) (Hhost : is_order host).

Lemma codec_fixed n conv swap dom :
  int_type n conv swap dom ->
  Codec dom (fun _ => true) (fun e x => mem_image e n x)
    (fun value => let! e := cget m_endian in
       put junk (mem_image host n (if negb (e =? host) then swap value else value)))
    (XX host n conv swap).
Proof.
  intros [Hn Hconv Hbytes Hswap]. constructor.
  - intros e x _. unfold zlen. rewrite length_mem_image. lia.
  - intros x s Hx W F. rewrite cbind_get.
    assert (E : mem_image host n (if negb (m_endian s =? host) then swap x else x)
                = mem_image (m_endian s) n x).
    { destruct (Z.eqb_spec (m_endian s) host) as [->|Hne]; simpl; [reflexivity|].
      apply mem_image_swapped; auto; apply (wf_endian s W). }
    rewrite E. apply put_ok; assumption.
  - intros x s Hx W Hat _.
    assert (Hz : zlen (mem_image (m_endian s) n x) = Z.of_nat n)
      by (unfold zlen; rewrite length_mem_image; reflexivity).
    destruct (get_ok _ s W Hat ltac:(lia)) as (s' & Hrun & M).
    destruct (moved_by_fields _ _ _ M) as (_ & _ & He).
    exists s'. split; [|assumption]. unfold XX. rewrite Hz in Hrun. cstep Hrun.
    rewrite cbind_get, He. destruct (Z.eqb_spec (m_endian s) host) as [<-|Hne].
    + rewrite mem_value_image, Hconv by assumption. reflexivity.
    + rewrite mem_value_swapped, Hswap; auto; apply (wf_endian s W).
Qed.

(** One byte: the image does not depend on the order. *)
Lemma mem_image_1 e x : mem_image e 1 x = [x mod 256].
Proof. unfold mem_image. destruct (_ =? _); reflexivity. Qed.

Lemma mem_value_1 e b : mem_value e [b] = b.
Proof. unfold mem_value. destruct (_ =? _); simpl; lia. Qed.

Lemma codec_byte (conv : Z -> Z) dom :
  (forall x, dom x -> conv (uwrap 8 x) = x) ->
  Codec dom (fun _ => true) (fun e x => mem_image e 1 x)
    (fun value => put junk (mem_image host 1 value))
    (let! d := read 1 in cret (conv (mem_value host d))).
Proof.
  intros Hconv. constructor.
  - intros e x _. rewrite mem_image_1. reflexivity.
  - intros x s Hx W F. rewrite !mem_image_1 in *. apply put_ok; assumption.
  - intros x s Hx W Hat _. rewrite !mem_image_1 in *.
    destruct (get_ok _ s W Hat ltac:(reflexivity)) as (s' & Hrun & M).
    exists s'. split; [|assumption]. cstep Hrun. unfold cret. rewrite mem_value_1.
    do 2 f_equal. exact (Hconv x Hx).
Qed.

End fixed.

(** ** Zigzag *)

(** The zigzag numbering of the integers: 0, -1, 1, -2, 2, ... *)
Definition zigzag (v : Z) : Z := if v <? 0 then - 2 * v - 1 else 2 * v.

Lemma lxor_ones w x : 0 <= w -> u_range w x -> Z.lxor x (Z.ones w) = Z.ones w - x.
Proof.
  intros Hw Hx. unfold u_range in Hx.
  assert (Hs : Z.shiftr x w = 0) by (rewrite Z.shiftr_div_pow2 by lia; apply Z.div_small; lia).
  rewrite Z.sub_nocarry_ldiff.
  - apply Z.bits_inj'. intros i Hi. rewrite Z.lxor_spec, Z.ldiff_spec.
    destruct (Z.lt_ge_cases i w).
    + rewrite Z.ones_spec_low by lia. destruct (Z.testbit x i); reflexivity.
    + rewrite Z.ones_spec_high by lia.
      replace i with ((i - w) + w) by lia. rewrite <- Z.shiftr_spec, Hs, Z.bits_0 by lia.
      reflexivity.
  - rewrite Z.ldiff_ones_r, Hs, Z.shiftl_0_l by lia. reflexivity.
Qed.

Lemma uwrap_m1 w : 0 < w -> uwrap w (-1) = Z.ones w.
Proof.
  intros Hw. unfold uwrap. rewrite Z.ones_equiv.
  pose proof (proj1 (Z.pow_gt_1 2 w ltac:(lia)) Hw). rewrite <- (Z.mod_add (-1) 1) by lia.
  rewrite Z.mod_small; lia.
Qed.

Lemma unzigzag w v :
  0 < w -> s_range w v ->
  swrap w (Z.lxor (Z.shiftr (zigzag v) 1) (uwrap w (- Z.land (zigzag v) 1))) = v.
Proof.
  intros Hw Hv. pose proof (pow2_split w Hw) as E. unfold s_range in Hv.
  change (Z.land (zigzag v) 1) with (Z.land (zigzag v) (Z.ones 1)).
  rewrite Z.land_ones, Z.shiftr_div_pow2 by lia. change (2 ^ 1) with 2.
  unfold zigzag. destruct (Z.ltb_spec v 0).
  - replace (-2 * v - 1) with (1 + (- v - 1) * 2) by lia.
    rewrite Z.div_add, Z.mod_add by lia. change (1 mod 2) with 1. change (1 / 2) with 0.
    rewrite Z.add_0_l. change (- (1)) with (-1).
    rewrite uwrap_m1, lxor_ones by (unfold u_range; lia).
    rewrite Z.ones_equiv. replace (Z.pred (2 ^ w) - (- v - 1)) with (v + 1 * 2 ^ w) by lia.
    rewrite <- (swrap_id w v) at 2 by (unfold s_range; lia).
    unfold swrap. rewrite <- (Z.mod_add (v + 2 ^ (w - 1)) 1) by lia. do 2 f_equal. lia.
  - replace (2 * v) with (0 + v * 2) by lia. rewrite Z.div_add, Z.mod_add by lia.
    change (0 mod 2) with 0. change (0 / 2) with 0. simpl.
    replace (uwrap w 0) with 0 by (unfold uwrap; rewrite Z.mod_0_l; lia).
    rewrite Z.lxor_0_r. apply swrap_id; [assumption|unfold s_range; lia].
Qed.

(** The values whose encoding has no signed overflow, unless it wraps. *)
Definition zz_defined (wrapv : bool) (w v : Z) : Prop :=
  s_range w v /\ (wrapv = true \/ - 2 ^ (w - 1) < v < 2 ^ (w - 2)).

Lemma s_arith_ok wrapv w x :
  0 < w -> wrapv = true \/ s_range w x ->
  exists y, s_arith wrapv w x = Ret y /\ uwrap w y = uwrap w x.
Proof.
  intros Hw H. unfold s_arith, s_range in *.
  destruct ((- 2 ^ (w - 1) <=? x) && (x <? 2 ^ (w - 1))) eqn:E; [eauto|].
  destruct H as [->|H]; [|lia]. eexists. split; [reflexivity|].
  unfold swrap, uwrap. rewrite Zminus_mod_idemp_l. f_equal. lia.
Qed.

Lemma zigzag_range w v : 0 < w -> s_range w v -> u_range w (zigzag v).
Proof.
  intros Hw. pose proof (pow2_split w Hw). unfold s_range, u_range, zigzag.
  destruct (Z.ltb_spec v 0); lia.
Qed.

(** Encoding without wrapping is defined on no other values. *)
Lemma encode_zigzag_defined wrapv w v y :
  1 < w -> s_range w v ->
  (if v <? 0 then obind (s_arith wrapv w (- v))
     (fun m => Ret (uwrap w (uwrap w (uwrap w m * 2) - 1)))
   else obind (s_arith wrapv w (v * 2)) (fun m => Ret (uwrap w m))) = Ret y ->
  zz_defined wrapv w v.
Proof.
  intros Hw Hv E. split; [assumption|]. destruct wrapv; [by left|right].
  pose proof (pow2_split (w - 1) ltac:(lia)) as E2. replace (w - 1 - 1) with (w - 2) in E2 by lia.
  unfold s_range, s_arith in *. destruct (Z.ltb_spec v 0).
  - destruct (Z.leb_spec (- 2 ^ (w - 1)) (- v)), (Z.ltb_spec (- v) (2 ^ (w - 1))); try discriminate E. lia.
  - destruct (Z.leb_spec (- 2 ^ (w - 1)) (v * 2)), (Z.ltb_spec (v * 2) (2 ^ (w - 1))); try discriminate E.
    pose proof (Z.pow_pos_nonneg 2 (w - 1)). lia.
Qed.

(** Both encoders, at any width. *)
Lemma encode_zigzag_ok wrapv w v :
  1 < w -> zz_defined wrapv w v ->
  (if v <? 0 then obind (s_arith wrapv w (- v))
     (fun m => Ret (uwrap w (uwrap w (uwrap w m * 2) - 1)))
   else obind (s_arith wrapv w (v * 2)) (fun m => Ret (uwrap w m))) = Ret (zigzag v).
Proof.
  intros Hw [Hv Hd]. pose proof (pow2_split w ltac:(lia)) as E1.
  pose proof (pow2_split (w - 1) ltac:(lia)) as E2. replace (w - 1 - 1) with (w - 2) in E2 by lia.
  pose proof (zigzag_range w v ltac:(lia) Hv) as Hz. unfold s_range in Hv.
  unfold zigzag in *. destruct (Z.ltb_spec v 0).
  - destruct (s_arith_ok wrapv w (- v)) as (y & -> & Hy);
      [lia|destruct Hd; [auto|right; unfold s_range; lia]|].
    simpl. f_equal. rewrite Hy. unfold uwrap.
    rewrite Zmult_mod_idemp_l, Zminus_mod_idemp_l. etransitivity; [|apply Z.mod_small; exact Hz].
    f_equal. lia.
  - destruct (s_arith_ok wrapv w (v * 2)) as (y & -> & Hy);
      [lia|destruct Hd; [auto|right; unfold s_range; lia]|].
    simpl. f_equal. rewrite Hy. rewrite uwrap_id; [lia|]. unfold u_range in *. lia.
Qed.

(** ** Varint *)

Definition varint (room : nat) (v : Z) : list Z :=
  match encode_varint room v with Ret l => l | _ => [] end.

Lemma encode_varint_ok room : forall v,
  (0 < room)%nat -> 0 <= v < 2 ^ (7 * Z.of_nat room) ->
  encode_varint room v = Ret (varint room v)
  /\ (0 < length (varint room v) <= room)%nat.
Proof.
  unfold varint. induction room as [|room IH]; intros v Hr Hv; [lia|].
  cbn [encode_varint]. rewrite Z.geb_leb. destruct (Z.leb_spec 128 v); [|simpl; split; [reflexivity|lia]].
  destruct room as [|room].
  { change (2 ^ (7 * Z.of_nat 1)) with 128 in Hv. lia. }
  destruct (IH (Z.shiftr v 7)) as [E Hl]; [lia| |].
  - rewrite Z.shiftr_div_pow2 by lia. split; [apply Z.div_pos; lia|].
    apply Z.div_lt_upper_bound; [lia|]. rewrite <- Z.pow_add_r by lia.
    replace (7 + 7 * Z.of_nat (S room)) with (7 * Z.of_nat (S (S room))) by lia. lia.
  - rewrite E. cbn [obind length]. split; [reflexivity|lia].
Qed.

(** The low seven bits and the rest make up the number. *)
Lemma shiftl_split7 v i :
  0 <= i -> Z.lor (Z.shiftl (Z.land v 127) i) (Z.shiftl (Z.shiftr v 7) (i + 7)) = Z.shiftl v i.
Proof.
  intros Hi. rewrite (Z.add_comm i 7), <- Z.shiftl_shiftl, <- Z.shiftl_lor by lia.
  f_equal. apply Z.bits_inj'. intros j Hj. change 127 with (Z.ones 7).
  rewrite Z.lor_spec, Z.land_spec, Z.shiftl_spec by lia.
  destruct (Z.lt_ge_cases j 7).
  - rewrite Z.ones_spec_low, (Z.testbit_neg_r _ (j - 7)) by lia.
    rewrite andb_true_r, orb_false_r. reflexivity.
  - rewrite Z.ones_spec_high, andb_false_r, Z.shiftr_spec by lia. simpl. f_equal. lia.
Qed.

(** The continuation byte: its top bit and its payload. *)
Lemma cont_byte v :
  0 <= v -> let b := u8 (Z.lor (Z.land v 0x7F) 0x80) in
  128 <= b < 256 /\ Z.land b 0x7f = Z.land v 127.
Proof.
  intros Hv b. assert (Hp : 0 <= Z.land v 127 < 128).
  { change 127 with (Z.ones 7). rewrite Z.land_ones by lia. apply Z.mod_pos_bound. lia. }
  assert (E : Z.lor (Z.land v 127) 128 = Z.land v 127 + 128).
  { rewrite <- Z.lxor_lor, <- Z.add_nocarry_lxor; [reflexivity| |];
      rewrite <- Z.land_assoc; apply Z.land_0_r. }
  unfold b. rewrite E, uwrap_id by (unfold u_range; lia). split; [lia|].
  change 127 with (Z.ones 7) at 2 3. rewrite !Z.land_ones by lia.
  change 127 with (Z.ones 7). rewrite Z.land_ones by lia.
  rewrite Z.add_mod, Z.mod_mod, Z.add_0_r, Z.mod_mod by lia. reflexivity.
Qed.

Section variable.
Context (junk : nat -> nat -> Z) (host : Z) (string_max : Z) (wrapv : bool).

Lemma readFuint8_ok b s :
  WF s -> at_cursor [b] s ->
  exists s', readFuint8 host s = (s', Ret b) /\ moved_by 1 s s'.
Proof.
  intros W Hat. destruct (get_ok [b] s W Hat ltac:(reflexivity)) as (s' & Hrun & M).
  exists s'. split; [|exact M]. unfold readFuint8. cstep Hrun.
  unfold cret. rewrite mem_value_1. reflexivity.
Qed.

Lemma decode_varint_ok w fuel : forall room v i result s,
  0 <= v -> 0 <= i < w -> Z.shiftl v i < 2 ^ w -> (room <= fuel)%nat ->
  encode_varint room v = Ret (varint room v) -> WF s -> at_cursor (varint room v) s ->
  exists s', decode_varint host fuel w i result s = (s', Ret (Z.lor result (Z.shiftl v i)))
    /\ moved_by (zlen (varint room v)) s s'.
Proof.
  induction fuel as [|fuel IH]; intros room v i result s Hv Hi Hlt Hf Henc W Hat;
    (destruct room as [|room]; [discriminate|]); [lia|].
  cbn [decode_varint]. rewrite (proj2 (Z.ltb_lt i w)) by lia.
  unfold varint in *. cbn [encode_varint] in *. rewrite Z.geb_leb in *.
  destruct (Z.leb_spec 128 v) as [Hbig|Hsmall].
  - destruct (encode_varint room (Z.shiftr v 7)) as [l| |] eqn:E; try discriminate.
    cbn [obind] in *. destruct (cont_byte v Hv) as [Hb Hland]. set (b := u8 _) in *.
    change (b :: l) with ([b] ++ l) in Hat |- *.
    destruct (at_cursor_app [b] l s W Hat) as [Hat1 Hat2].
    destruct (readFuint8_ok b s W Hat1) as (s1 & Hrun & M1).
    cstep Hrun. rewrite (proj2 (Z.ltb_ge b 128)) by lia. rewrite Hland.
    rewrite Z.shiftl_mul_pow2 in Hlt by lia.
    assert (Hi7 : i + 7 < w).
    { apply (Z.pow_lt_mono_r_iff 2); [lia|lia|]. rewrite Z.pow_add_r by lia.
      change (2 ^ 7) with 128. nia. }
    assert (Hpart : Z.shiftl (Z.land v 127) i = uwrap w (Z.shiftl (Z.land v 127) i)).
    { symmetry. apply uwrap_id. unfold u_range. rewrite Z.shiftl_mul_pow2 by lia.
      change 127 with (Z.ones 7). rewrite Z.land_ones by lia.
      pose proof (Z.mod_pos_bound v (2 ^ 7) ltac:(lia)). pose proof (Z.mod_le v (2 ^ 7) Hv ltac:(lia)).
      pose proof (Z.pow_pos_nonneg 2 i). nia. }
    destruct (IH room (Z.shiftr v 7) (i + 7) (Z.lor result (uwrap w (Z.shiftl (Z.land v 127) i))) s1)
      as (s2 & Hrun2 & M2).
    + apply Z.shiftr_nonneg. assumption.
    + lia.
    + rewrite Z.shiftl_mul_pow2, Z.shiftr_div_pow2, Z.pow_add_r by lia.
      pose proof (Z.mul_div_le v (2 ^ 7) ltac:(lia)). pose proof (Z.pow_pos_nonneg 2 i). nia.
    + lia.
    + unfold varint. rewrite E. reflexivity.
    + apply M1.
    + unfold varint. rewrite E. apply Hat2. exact M1.
    + unfold varint in *. rewrite E in *. exists s2.
      rewrite Hrun2, <- Hpart, <- Z.lor_assoc, shiftl_split7 by lia.
      split; [reflexivity|]. rewrite zlen_app. eapply moved_by_trans; eassumption.
  - rewrite uwrap_id in * by (unfold u_range; lia).
    destruct (readFuint8_ok v s W Hat) as (s1 & Hrun & M1).
    cstep Hrun. rewrite (proj2 (Z.ltb_lt v 128)) by lia. exists s1. split; [|exact M1].
    rewrite uwrap_id by (split; [apply Z.shiftl_nonneg|]; assumption). reflexivity.
Qed.

Lemma codec_varint w room :
  0 < w <= 7 * Z.of_nat room ->
  Codec (u_range w) (fun _ => true) (fun _ v => varint room v)
    (fun v => let! tmp := lift (encode_varint room v) in put junk tmp)
    (decode_varint host room w 0 0).
Proof.
  intros Hw. assert (Henc : forall v, u_range w v ->
    encode_varint room v = Ret (varint room v) /\ (0 < length (varint room v) <= room)%nat).
  { intros v Hv. apply encode_varint_ok; [lia|]. unfold u_range in Hv.
    pose proof (Z.pow_le_mono_r 2 w (7 * Z.of_nat room)). lia. }
  constructor.
  - intros _ v Hv. destruct (Henc v Hv). unfold zlen. lia.
  - intros v s Hv W F. unfold lift, cbind. rewrite (proj1 (Henc v Hv)). apply put_ok; assumption.
  - intros v s Hv W Hat _. unfold u_range in Hv.
    destruct (decode_varint_ok w room room v 0 0 s) as (s' & Hrun & M); auto; try lia.
    + rewrite Z.shiftl_0_r. lia.
    + apply (Henc v Hv).
    + exists s'. rewrite Hrun, Z.shiftl_0_r. auto.
Qed.

(** A codec behind a bijection of the values. *)
Lemma codec_map {A B} (dom : A -> Prop) enc wr rd (f : B -> A) (domB : B -> Prop)
    (wrB : B -> M ByteArray unit) (rdB : M ByteArray B) (g : A -> B) :
  Codec dom (fun _ => true) enc wr rd ->
  (forall x, domB x -> dom (f x)) -> (forall x, domB x -> g (f x) = x) ->
  (forall x s, domB x -> wrB x s = wr (f x) s) ->
  (forall s, rdB s = cbind rd (fun v => cret (g v)) s) ->
  Codec domB (fun _ => true) (fun e x => enc e (f x)) wrB rdB.
Proof.
  intros [Hne Hw Hr] Hdom Hgf Hwr Hrd. constructor.
  - intros e x Hx. apply Hne. auto.
  - intros x s Hx W F. rewrite Hwr by assumption. apply Hw; auto.
  - intros x s Hx W Hat Hs. destruct (Hr (f x) s) as (s' & Hrun & M); auto.
    exists s'. split; [|assumption]. rewrite Hrd. cstep Hrun. unfold cret.
    rewrite Hgf by assumption. reflexivity.
Qed.

(** A string of any length is written behind the length field's value. *)
Lemma write_string_any (dom : Z -> Prop) enc wr rd n v s :
  Codec dom (fun _ => true) enc wr rd -> dom n -> WF s -> fits (enc (m_endian s) n ++ v) s ->
  exists s', (wr n ;;; put junk v) s = (s', Ret tt) /\ wrote (enc (m_endian s) n ++ v) s s'.
Proof.
  intros [_ Hw _] Hn W F. unfold fits in F. rewrite zlen_app in F. pose proof (zlen_nonneg v).
  destruct (Hw n s Hn W) as (s1 & Hrun1 & W1); [unfold fits; lia|].
  destruct (wrote_fields _ _ _ W1) as (Hp & He & _).
  destruct (put_ok junk v s1 (wr_wf _ _ _ W1)) as (s2 & Hrun2 & W2).
  { unfold fits. rewrite Hp, (wr_base _ _ _ W1). lia. }
  exists s2. cstep Hrun1. split; [assumption|]. eapply wrote_app; eassumption.
Qed.

(** A string after its length. *)
Lemma codec_string (dom : Z -> Prop) enc wr rd (conv : Z -> Z) :
  Codec dom (fun _ => true) enc wr rd ->
  (forall n, dom n -> conv n = n) ->
  Codec (fun v : list Z => dom (zlen v) /\ zlen v <= string_max)
    (fun v => 0 <? zlen v)
    (fun e v => enc e (zlen v) ++ v)
    (fun v => wr (conv (zlen v)) ;;; put junk v)
    (let! len := rd in read_string string_max len).
Proof.
  intros C Hconv. pose proof C as [Hne _ Hr]. constructor.
  - intros e v [Hv _]. rewrite zlen_app. pose proof (Hne e _ Hv). pose proof (zlen_nonneg v). lia.
  - intros v s [Hv _] W F. rewrite Hconv by assumption. by apply (write_string_any dom enc wr rd).
  - intros v s [Hv Hmax] W Hat Hs. rewrite zlen_app in Hs |- *.
    destruct (at_cursor_app _ _ s W Hat) as [Hat1 Hat2].
    destruct (Hr (zlen v) s Hv W Hat1 ltac:(auto)) as (s1 & Hrun & M1).
    destruct (moved_by_fields _ _ _ M1) as (Hp & _ & _). pose proof (zlen_nonneg v).
    destruct (get_tail_ok v s1 (mv_wf _ _ _ M1) (Hat2 _ M1)) as (s2 & Hrun2 & M2).
    { rewrite Hp, (mv_cap _ _ _ M1). destruct Hs as [Hs|Hs]; [left; apply Z.ltb_lt in Hs; lia|].
      destruct (Z.eq_dec (zlen v) 0); [right; lia|left; lia]. }
    exists s2. cstep Hrun. unfold read_string. rewrite gtb_false by lia.
    split; [assumption|]. eapply moved_by_trans; eassumption.
Qed.

(** A read that returns returns as many bytes as it was asked for, and asks for
    none only while there is a block under the cursor. *)
Lemma read_length n s s' d :
  WF s -> 0 <= n -> read n s = (s', Ret d) ->
  zlen d = n /\ (0 < n \/ m_position s < m_capacity s).
Proof.
  intros W Hn Hrun. pose proof (wf_pos s W). pose proof (wf_size s W).
  destruct (Z.eq_dec n 0) as [->|Hn0].
  - rewrite read_zero in Hrun by assumption.
    destruct (Z.eqb_spec (m_position s) (m_capacity s)); simplify_eq. split; [reflexivity|lia].
  - destruct (Z.le_gt_cases (m_position s + n) (m_size s)) as [Hle|Hgt];
      [|rewrite read_short in Hrun by (assumption || lia); discriminate].
    destruct (read_ok n s W ltac:(lia) Hle) as (s2 & E & _). rewrite E in Hrun. simplify_eq.
    split; [|lia]. apply zlen_slice; rewrite ?zlen_contents by assumption; lia.
Qed.

(** So a string that is read back has the length its field holds. *)
Lemma string_read_back (dom : Z -> Prop) enc wr rd n s s' l :
  Codec dom (fun _ => true) enc wr rd -> dom n -> 0 <= n -> WF s -> at_cursor (enc (m_endian s) n) s ->
  (let! len := rd in read_string string_max len) s = (s', Ret l) ->
  zlen l = n /\ (0 < n \/ m_position s + zlen (enc (m_endian s) n) < m_capacity s).
Proof.
  intros [_ _ Hr] Hn H0 W Hat. destruct (Hr n s Hn W Hat (or_introl eq_refl)) as (s1 & Hrun & M).
  destruct (moved_by_fields _ _ _ M) as (Hp & _ & _). cstep Hrun. unfold read_string.
  destruct (n >? string_max); [discriminate|]. intros E.
  rewrite <- Hp, <- (mv_cap _ _ _ M). eapply read_length; eauto using mv_wf.
Qed.

End variable.
