(* ===== verification/ByteArrayMessage.v ===== *)
(** * Messages: sequences of typed values in a ByteArray

    Every pair of typed operations of bytearray.cpp as one case of a value
    type, the round trip of arbitrary sequences of them, and the wire format. *)

From stdpp Require Import base list numbers.
From Stdlib Require Import ZArith Lia.
From S2P Require Import Prelude Endian Double ByteArray ByteArrayCodec.

Local Open Scope Z_scope.
Local Open Scope cpp_scope.

Inductive value : Type :=
  | VFint8 (x : Z) | VFuint8 (x : Z)
  | VFint16 (x : Z) | VFuint16 (x : Z)
  | VFint32 (x : Z) | VFuint32 (x : Z)
  | VFint64 (x : Z) | VFuint64 (x : Z)
  | VInt32 (x : Z) | VUint32 (x : Z)
  | VInt64 (x : Z) | VUint64 (x : Z)
  | VFloat (bits : Z) | VDouble (bits : Z)
  | VStringF16 (l : list Z) | VStringF32 (l : list Z)
  | VStringF64 (l : list Z) | VStringVint (l : list Z).

Inductive shape : Type :=
  | SFint8 | SFuint8 | SFint16 | SFuint16 | SFint32 | SFuint32 | SFint64 | SFuint64
  | SInt32 | SUint32 | SInt64 | SUint64 | SFloat | SDouble
  | SStringF16 | SStringF32 | SStringF64 | SStringVint.

Definition shape_of (v : value) : shape :=
  match v with
  | VFint8 _ => SFint8 | VFuint8 _ => SFuint8
  | VFint16 _ => SFint16 | VFuint16 _ => SFuint16
  | VFint32 _ => SFint32 | VFuint32 _ => SFuint32
  | VFint64 _ => SFint64 | VFuint64 _ => SFuint64
  | VInt32 _ => SInt32 | VUint32 _ => SUint32
  | VInt64 _ => SInt64 | VUint64 _ => SUint64
  | VFloat _ => SFloat | VDouble _ => SDouble
  | VStringF16 _ => SStringF16 | VStringF32 _ => SStringF32
  | VStringF64 _ => SStringF64 | VStringVint _ => SStringVint
  end.

(** The bytes of a value in a buffer of byte order [e]. *)
Definition enc_value (e : Z) (v : value) : list Z :=
  match v with
  | VFint8 x | VFuint8 x => mem_image e 1 x
  | VFint16 x | VFuint16 x => mem_image e 2 x
  | VFint32 x | VFuint32 x | VFloat x => mem_image e 4 x
  | VFint64 x | VFuint64 x | VDouble x => mem_image e 8 x
  | VInt32 x => varint 5 (zigzag x)
  | VUint32 x => varint 5 x
  | VInt64 x => varint 10 (zigzag x)
  | VUint64 x => varint 10 x
  | VStringF16 l => mem_image e 2 (zlen l) ++ l
  | VStringF32 l => mem_image e 4 (zlen l) ++ l
  | VStringF64 l => mem_image e 8 (zlen l) ++ l
  | VStringVint l => varint 10 (zlen l) ++ l
  end.

Definition enc_values (e : Z) (vs : list value) : list Z := concat (map (enc_value e) vs).

(** Reading the value does not end in a read of zero bytes. *)
Definition solid_value (v : value) : bool :=
  match v with
  | VStringF16 l | VStringF32 l | VStringF64 l | VStringVint l => 0 <? zlen l
  | _ => true
  end.

Section message.
Context (junk : nat -> nat -> Z) (host : Z) (string_max : Z) (wrapv : bool).

(** The values the C++ types hold; for the zigzag writers, those whose
    encoding has no signed overflow. *)
Definition dom_value (v : value) : Prop :=
  match v with
  | VFint8 x => s_range 8 x | VFuint8 x => u_range 8 x
  | VFint16 x => s_range 16 x | VFuint16 x => u_range 16 x
  | VFint32 x => s_range 32 x | VFuint32 x => u_range 32 x
  | VFint64 x => s_range 64 x | VFuint64 x => u_range 64 x
  | VInt32 x => zz_defined wrapv 32 x | VUint32 x => u_range 32 x
  | VInt64 x => zz_defined wrapv 64 x | VUint64 x => u_range 64 x
  | VFloat x => u_range 32 x | VDouble x => u_range 64 x
  | VStringF16 l => u_range 16 (zlen l) /\ zlen l <= string_max
  | VStringF32 l => u_range 32 (zlen l) /\ zlen l <= string_max
  | VStringF64 l | VStringVint l => u_range 64 (zlen l) /\ zlen l <= string_max
  end.

(** The values the C++ types hold. *)
Definition typed_value (v : value) : Prop :=
  match v with
  | VInt32 x => s_range 32 x
  | VInt64 x => s_range 64 x
  | VStringF16 l | VStringF32 l | VStringF64 l | VStringVint l =>
      u_range 64 (zlen l) /\ zlen l <= string_max
  | _ => dom_value v
  end.

(** Those of them that have an encoding: no signed overflow in the zigzag
    encoders, no string longer than its length field can say. *)
Definition storable (v : value) : bool :=
  match v with
  | VInt32 x => wrapv || (- 2 ^ 31 <? x) && (x <? 2 ^ 30)
  | VInt64 x => wrapv || (- 2 ^ 63 <? x) && (x <? 2 ^ 62)
  | VStringF16 l => zlen l <? 2 ^ 16
  | VStringF32 l => zlen l <? 2 ^ 32
  | _ => true
  end.

Definition write_value (v : value) : M ByteArray unit :=
  match v with
  | VFint8 x => writeFint8 junk host x
  | VFuint8 x => writeFuint8 junk host x
  | VFint16 x => writeFint16 junk host x
  | VFuint16 x => writeFuint16 junk host x
  | VFint32 x => writeFint32 junk host x
  | VFuint32 x => writeFuint32 junk host x
  | VFint64 x => writeFint64 junk host x
  | VFuint64 x => writeFuint64 junk host x
  | VInt32 x => writeInt32 junk wrapv x
  | VUint32 x => writeUint32 junk x
  | VInt64 x => writeInt64 junk wrapv x
  | VUint64 x => writeUint64 junk x
  | VFloat x => writeFloat junk host x
  | VDouble x => writeDouble junk host x
  | VStringF16 l => writeStringF16 junk host l
  | VStringF32 l => writeStringF32 junk host l
  | VStringF64 l => writeStringF64 junk host l
  | VStringVint l => writeStringVint junk l
  end.

Definition read_value (sh : shape) : M ByteArray value :=
  match sh with
  | SFint8 => let! x := readFint8 host in cret (VFint8 x)
  | SFuint8 => let! x := readFuint8 host in cret (VFuint8 x)
  | SFint16 => let! x := readFint16 host in cret (VFint16 x)
  | SFuint16 => let! x := readFuint16 host in cret (VFuint16 x)
  | SFint32 => let! x := readFint32 host in cret (VFint32 x)
  | SFuint32 => let! x := readFuint32 host in cret (VFuint32 x)
  | SFint64 => let! x := readFint64 host in cret (VFint64 x)
  | SFuint64 => let! x := readFuint64 host in cret (VFuint64 x)
  | SInt32 => let! x := readInt32 host in cret (VInt32 x)
  | SUint32 => let! x := readUint32 host in cret (VUint32 x)
  | SInt64 => let! x := readInt64 host in cret (VInt64 x)
  | SUint64 => let! x := readUint64 host in cret (VUint64 x)
  | SFloat => let! x := readFloat host in cret (VFloat x)
  | SDouble => let! x := readDouble host in cret (VDouble x)
  | SStringF16 => let! l := readStringF16 host string_max in cret (VStringF16 l)
  | SStringF32 => let! l := readStringF32 host string_max in cret (VStringF32 l)
  | SStringF64 => let! l := readStringF64 host string_max in cret (VStringF64 l)
  | SStringVint => let! l := readStringVint host string_max in cret (VStringVint l)
  end.

Fixpoint write_values (vs : list value) : M ByteArray unit :=
  match vs with
  | [] => cret tt
  | v :: vs' => write_value v ;;; write_values vs'
  end.

Fixpoint read_values (shs : list shape) : M ByteArray (list value) :=
  match shs with
  | [] => cret []
  | sh :: shs' =>
      let! v := read_value sh in
      let! vs := read_values shs' in
      cret (v :: vs)
  end.

(** ** Every typed pair is a codec *)

Context (Hhost : is_order host).

Instance codec_fint8 : Codec (s_range 8) (fun _ => true) (fun e x => mem_image e 1 x)
  (writeFint8 junk host) (readFint8 host).
Proof. apply codec_byte. intros x Hx. apply swrap_uwrap; [lia|assumption]. Qed.

Instance codec_fuint8 : Codec (u_range 8) (fun _ => true) (fun e x => mem_image e 1 x)
  (writeFuint8 junk host) (readFuint8 host).
Proof. apply (codec_byte junk host id). intros x Hx. apply uwrap_id. assumption. Qed.

Instance codec_fint16 : Codec (s_range 16) (fun _ => true) (fun e x => mem_image e 2 x)
  (writeFint16 junk host) (readFint16 host).
Proof. apply (codec_fixed junk host Hhost 2 _ _ _ (int_type_s 2 ltac:(lia))). Qed.

Instance codec_fuint16 : Codec (u_range 16) (fun _ => true) (fun e x => mem_image e 2 x)
  (writeFuint16 junk host) (readFuint16 host).
Proof. apply (codec_fixed junk host Hhost 2 _ _ _ (int_type_u 2 ltac:(lia))). Qed.

Instance codec_fint32 : Codec (s_range 32) (fun _ => true) (fun e x => mem_image e 4 x)
  (writeFint32 junk host) (readFint32 host).
Proof. apply (codec_fixed junk host Hhost 4 _ _ _ (int_type_s 4 ltac:(lia))). Qed.

Instance codec_fuint32 : Codec (u_range 32) (fun _ => true) (fun e x => mem_image e 4 x)
  (writeFuint32 junk host) (readFuint32 host).
Proof. apply (codec_fixed junk host Hhost 4 _ _ _ (int_type_u 4 ltac:(lia))). Qed.

Instance codec_fint64 : Codec (s_range 64) (fun _ => true) (fun e x => mem_image e 8 x)
  (writeFint64 junk host) (readFint64 host).
Proof. apply (codec_fixed junk host Hhost 8 _ _ _ (int_type_s 8 ltac:(lia))). Qed.

Instance codec_fuint64 : Codec (u_range 64) (fun _ => true) (fun e x => mem_image e 8 x)
  (writeFuint64 junk host) (readFuint64 host).
Proof. apply (codec_fixed junk host Hhost 8 _ _ _ (int_type_u 8 ltac:(lia))). Qed.

Instance codec_uint32 : Codec (u_range 32) (fun _ => true) (fun _ v => varint 5 v)
  (writeUint32 junk) (readUint32 host).
Proof. apply (codec_varint junk host 32 5). lia. Qed.

Instance codec_uint64 : Codec (u_range 64) (fun _ => true) (fun _ v => varint 10 v)
  (writeUint64 junk) (readUint64 host).
Proof. apply (codec_varint junk host 64 10). lia. Qed.

Instance codec_int32 : Codec (zz_defined wrapv 32) (fun _ => true)
  (fun _ v => varint 5 (zigzag v)) (writeInt32 junk wrapv) (readInt32 host).
Proof.
  refine (codec_map _ _ _ _ zigzag _ _ _ DecodeZigzag32 codec_uint32 _ _ _ _).
  - intros x [Hx _]. apply zigzag_range; [lia|assumption].
  - intros x [Hx _]. exact (unzigzag 32 x ltac:(lia) Hx).
  - intros x s Hx. unfold writeInt32, lift, cbind.
    pose proof (encode_zigzag_ok wrapv 32 x ltac:(lia) Hx) as E.
    fold (EncodeZigzag32 wrapv x) in E. rewrite E. reflexivity.
  - reflexivity.
Qed.

Instance codec_int64 : Codec (zz_defined wrapv 64) (fun _ => true)
  (fun _ v => varint 10 (zigzag v)) (writeInt64 junk wrapv) (readInt64 host).
Proof.
  refine (codec_map _ _ _ _ zigzag _ _ _ DecodeZigzag64 codec_uint64 _ _ _ _).
  - intros x [Hx _]. apply zigzag_range; [lia|assumption].
  - intros x [Hx _]. exact (unzigzag 64 x ltac:(lia) Hx).
  - intros x s Hx. unfold writeInt64, lift, cbind.
    pose proof (encode_zigzag_ok wrapv 64 x ltac:(lia) Hx) as E.
    fold (EncodeZigzag64 wrapv x) in E. rewrite E. reflexivity.
  - reflexivity.
Qed.

Instance codec_stringF16 : Codec (fun v => u_range 16 (zlen v) /\ zlen v <= string_max)
  (fun v => 0 <? zlen v) (fun e v => mem_image e 2 (zlen v) ++ v)
  (writeStringF16 junk host) (readStringF16 host string_max).
Proof. apply (codec_string junk string_max _ _ _ _ _ codec_fuint16). intros. apply uwrap_id. assumption. Qed.

Instance codec_stringF32 : Codec (fun v => u_range 32 (zlen v) /\ zlen v <= string_max)
  (fun v => 0 <? zlen v) (fun e v => mem_image e 4 (zlen v) ++ v)
  (writeStringF32 junk host) (readStringF32 host string_max).
Proof. apply (codec_string junk string_max _ _ _ _ _ codec_fuint32). intros. apply uwrap_id. assumption. Qed.

Instance codec_stringF64 : Codec (fun v => u_range 64 (zlen v) /\ zlen v <= string_max)
  (fun v => 0 <? zlen v) (fun e v => mem_image e 8 (zlen v) ++ v)
  (writeStringF64 junk host) (readStringF64 host string_max).
Proof. apply (codec_string junk string_max _ _ _ _ id codec_fuint64). reflexivity. Qed.

Instance codec_stringVint : Codec (fun v => u_range 64 (zlen v) /\ zlen v <= string_max)
  (fun v => 0 <? zlen v) (fun _ v => varint 10 (zlen v) ++ v)
  (writeStringVint junk) (readStringVint host string_max).
Proof. apply (codec_string junk string_max _ _ _ _ id codec_uint64). reflexivity. Qed.

(** ** Values and messages *)

(** Run a value's reader through its codec. *)
Lemma read_codec {A} (dom : A -> Prop) solid enc wr rd (k : A -> value) x s
    `{!Codec dom solid enc wr rd} :
  dom x -> WF s -> at_cursor (enc (m_endian s) x) s ->
  solid x = true \/ m_position s + zlen (enc (m_endian s) x) < m_capacity s ->
  exists s', (let! y := rd in cret (k y)) s = (s', Ret (k x))
    /\ moved_by (zlen (enc (m_endian s) x)) s s'.
Proof.
  intros Hx W Hat Hs. destruct (codec_read x s Hx W Hat Hs) as (s' & Hrun & M).
  exists s'. split; [|assumption]. cstep Hrun. reflexivity.
Qed.

Lemma write_value_ok v s :
  dom_value v -> WF s -> fits (enc_value (m_endian s) v) s ->
  exists s', write_value v s = (s', Ret tt) /\ wrote (enc_value (m_endian s) v) s s'.
Proof.
  destruct v; cbn [dom_value write_value enc_value]; intros Hd W F.
  - apply (codec_write (Codec := codec_fint8)); assumption.
  - apply (codec_write (Codec := codec_fuint8)); assumption.
  - apply (codec_write (Codec := codec_fint16)); assumption.
  - apply (codec_write (Codec := codec_fuint16)); assumption.
  - apply (codec_write (Codec := codec_fint32)); assumption.
  - apply (codec_write (Codec := codec_fuint32)); assumption.
  - apply (codec_write (Codec := codec_fint64)); assumption.
  - apply (codec_write (Codec := codec_fuint64)); assumption.
  - apply (codec_write (Codec := codec_int32)); assumption.
  - apply (codec_write (Codec := codec_uint32)); assumption.
  - apply (codec_write (Codec := codec_int64)); assumption.
  - apply (codec_write (Codec := codec_uint64)); assumption.
  - apply (codec_write (Codec := codec_fuint32)); assumption.
  - apply (codec_write (Codec := codec_fuint64)); assumption.
  - apply (codec_write (Codec := codec_stringF16)); assumption.
  - apply (codec_write (Codec := codec_stringF32)); assumption.
  - apply (codec_write (Codec := codec_stringF64)); assumption.
  - apply (codec_write (Codec := codec_stringVint)); assumption.
Qed.

Lemma read_value_ok v s :
  dom_value v -> WF s -> at_cursor (enc_value (m_endian s) v) s ->
  solid_value v = true \/ m_position s + zlen (enc_value (m_endian s) v) < m_capacity s ->
  exists s', read_value (shape_of v) s = (s', Ret v)
    /\ moved_by (zlen (enc_value (m_endian s) v)) s s'.
Proof.
  destruct v; cbn [dom_value read_value shape_of enc_value solid_value]; intros Hd W Hat Hs.
  - apply (read_codec _ _ _ _ _ VFint8 x s (Codec0 := codec_fint8)); assumption.
  - apply (read_codec _ _ _ _ _ VFuint8 x s (Codec0 := codec_fuint8)); assumption.
  - apply (read_codec _ _ _ _ _ VFint16 x s (Codec0 := codec_fint16)); assumption.
  - apply (read_codec _ _ _ _ _ VFuint16 x s (Codec0 := codec_fuint16)); assumption.
  - apply (read_codec _ _ _ _ _ VFint32 x s (Codec0 := codec_fint32)); assumption.
  - apply (read_codec _ _ _ _ _ VFuint32 x s (Codec0 := codec_fuint32)); assumption.
  - apply (read_codec _ _ _ _ _ VFint64 x s (Codec0 := codec_fint64)); assumption.
  - apply (read_codec _ _ _ _ _ VFuint64 x s (Codec0 := codec_fuint64)); assumption.
  - apply (read_codec _ _ _ _ _ VInt32 x s (Codec0 := codec_int32)); assumption.
  - apply (read_codec _ _ _ _ _ VUint32 x s (Codec0 := codec_uint32)); assumption.
  - apply (read_codec _ _ _ _ _ VInt64 x s (Codec0 := codec_int64)); assumption.
  - apply (read_codec _ _ _ _ _ VUint64 x s (Codec0 := codec_uint64)); assumption.
  - apply (read_codec _ _ _ _ _ VFloat bits s (Codec0 := codec_fuint32)); assumption.
  - apply (read_codec _ _ _ _ _ VDouble bits s (Codec0 := codec_fuint64)); assumption.
  - apply (read_codec _ _ _ _ _ VStringF16 l s (Codec0 := codec_stringF16)); assumption.
  - apply (read_codec _ _ _ _ _ VStringF32 l s (Codec0 := codec_stringF32)); assumption.
  - apply (read_codec _ _ _ _ _ VStringF64 l s (Codec0 := codec_stringF64)); assumption.
  - apply (read_codec _ _ _ _ _ VStringVint l s (Codec0 := codec_stringVint)); assumption.
Qed.

Lemma dom_storable v : dom_value v <-> typed_value v /\ storable v = true.
Proof.
  destruct v; cbn [dom_value typed_value storable]; try tauto.
  1, 2: unfold zz_defined; change (32 - 1) with 31; change (32 - 2) with 30;
    change (64 - 1) with 63; change (64 - 2) with 62; destruct wrapv; simpl;
    rewrite ?andb_true_iff, ?Z.ltb_lt; intuition congruence.
  all: pose proof (zlen_nonneg l); unfold u_range; rewrite Z.ltb_lt; lia.
Qed.

(** The values the writers take: all but the overflowing zigzag ones. *)
Definition writable (v : value) : Prop :=
  typed_value v /\
  match v with VInt32 x => zz_defined wrapv 32 x | VInt64 x => zz_defined wrapv 64 x | _ => True end.

Lemma dom_writable v : dom_value v -> writable v.
Proof. intros H. split; [by apply dom_storable|]. by destruct v. Qed.

Lemma mem_image_uwrap e n x : mem_image e n (uwrap (8 * Z.of_nat n) x) = mem_image e n x.
Proof. unfold mem_image. by rewrite bytes_of_uwrap. Qed.

Lemma uwrap_dom w x : 0 < w -> u_range w (uwrap w x).
Proof. intros. unfold u_range, uwrap. apply Z.mod_pos_bound. lia. Qed.

Lemma write_any_ok v s :
  writable v -> WF s -> fits (enc_value (m_endian s) v) s ->
  exists s', write_value v s = (s', Ret tt) /\ wrote (enc_value (m_endian s) v) s s'.
Proof.
  intros [Ht Hz] W F. destruct v; try (by apply write_value_ok); cbn [write_value enc_value] in *.
  - rewrite <- (mem_image_uwrap _ 2) in F |- *.
    apply (write_string_any _ _ _ _ _ _ _ _ codec_fuint16); auto. by apply uwrap_dom.
  - rewrite <- (mem_image_uwrap _ 4) in F |- *.
    apply (write_string_any _ _ _ _ _ _ _ _ codec_fuint32); auto. by apply uwrap_dom.
Qed.

(** A writer that returned was given a value it takes. *)
Lemma write_value_writable v s s' :
  typed_value v -> write_value v s = (s', Ret tt) -> writable v.
Proof.
  intros Ht E. split; [assumption|]. destruct v; trivial; cbn [write_value typed_value] in *.
  - unfold writeInt32, lift, cbind in E. destruct (EncodeZigzag32 wrapv x) as [y| |] eqn:Ez; try discriminate.
    by eapply encode_zigzag_defined.
  - unfold writeInt64, lift, cbind in E. destruct (EncodeZigzag64 wrapv x) as [y| |] eqn:Ez; try discriminate.
    by eapply encode_zigzag_defined.
Qed.

Lemma enc_value_nonempty e v : typed_value v -> 0 < zlen (enc_value e v).
Proof.
  assert (Hm : forall n x, (0 < n)%nat -> 0 < zlen (mem_image e n x))
    by (intros; unfold zlen; rewrite length_mem_image; lia).
  assert (Hz : forall w x, s_range w x -> 0 < w -> u_range w (zigzag x)) by (intros; by apply zigzag_range).
  destruct v; cbn [typed_value dom_value enc_value]; intros Ht; rewrite ?zlen_app;
    try (pose proof (zlen_nonneg l)); try (apply Hm; lia).
  - apply (codec_nonempty (Codec := codec_uint32) e). apply Hz; [assumption|lia].
  - by apply (codec_nonempty (Codec := codec_uint32) e).
  - apply (codec_nonempty (Codec := codec_uint64) e). apply Hz; [assumption|lia].
  - by apply (codec_nonempty (Codec := codec_uint64) e).
  - pose proof (Hm 2%nat (zlen l)). lia.
  - pose proof (Hm 4%nat (zlen l)). lia.
  - pose proof (Hm 8%nat (zlen l)). lia.
  - pose proof (codec_nonempty (Codec := codec_uint64) e (zlen l) (proj1 Ht)). lia.
Qed.

(** A value that is read back had an encoding, and its reader did not read
    through NULL. *)
Lemma read_value_back v s s' :
  writable v -> WF s -> at_cursor (enc_value (m_endian s) v) s ->
  read_value (shape_of v) s = (s', Ret v) ->
  dom_value v /\ (solid_value v = true \/ m_position s + zlen (enc_value (m_endian s) v) < m_capacity s).
Proof.
  intros [Ht Hz] W Hat Hrun. destruct v; try (by split; [|left]);
    cbn [typed_value dom_value solid_value enc_value read_value shape_of] in *;
    apply cbind_ret_inv in Hrun as (s1 & l' & Hrun & E); injection E as -> ->;
    destruct Ht as [Ht Hmax]; pose proof (zlen_nonneg l);
    destruct (at_cursor_app _ _ s W Hat) as [Hat1 _]; rewrite zlen_app.
  - rewrite <- (mem_image_uwrap _ 2) in Hat1 |- *. change (8 * Z.of_nat 2) with 16 in *.
    destruct (string_read_back _ _ _ _ _ _ _ _ _ codec_fuint16
      (uwrap_dom 16 (zlen l) ltac:(lia)) ltac:(apply uwrap_dom; lia) W Hat1 Hrun) as [E Hroom].
    rewrite Z.ltb_lt. split; [split; [rewrite E; by apply uwrap_dom|assumption]|]. cbv beta in Hroom. lia.
  - rewrite <- (mem_image_uwrap _ 4) in Hat1 |- *. change (8 * Z.of_nat 4) with 32 in *.
    destruct (string_read_back _ _ _ _ _ _ _ _ _ codec_fuint32
      (uwrap_dom 32 (zlen l) ltac:(lia)) ltac:(apply uwrap_dom; lia) W Hat1 Hrun) as [E Hroom].
    rewrite Z.ltb_lt. split; [split; [rewrite E; by apply uwrap_dom|assumption]|]. cbv beta in Hroom. lia.
  - destruct (string_read_back _ _ _ _ _ _ _ _ _ codec_fuint64 Ht ltac:(lia) W Hat1 Hrun) as [_ Hroom].
    rewrite Z.ltb_lt. split; [done|]. lia.
  - destruct (string_read_back _ _ _ _ _ _ _ _ _ codec_uint64 Ht ltac:(lia) W Hat1 Hrun) as [_ Hroom].
    rewrite Z.ltb_lt. split; [done|]. lia.
Qed.

(** The message does not end in an empty string. *)
Fixpoint ends_solid (vs : list value) : bool :=
  match vs with
  | [] => true
  | [v] => solid_value v
  | _ :: vs' => ends_solid vs'
  end.

Lemma write_values_ok vs : forall s,
  Forall writable vs -> WF s -> fits (enc_values (m_endian s) vs) s ->
  exists s', write_values vs s = (s', Ret tt) /\ wrote (enc_values (m_endian s) vs) s s'.
Proof.
  induction vs as [|v vs IH]; intros s Hd W F; cbn [write_values].
  - exists s. split; [reflexivity|]. pose proof (wf_base s W). pose proof (wf_pos s W).
    constructor; auto; [|unfold zlen; simpl; lia].
    unfold buf_write, abs, enc_values; simpl. rewrite overlay_nil. f_equal. unfold zlen; simpl; lia.
  - inversion Hd as [|? ? Hv Hvs]; subst. unfold enc_values, fits in *. simpl in *.
    rewrite zlen_app in F. pose proof (zlen_nonneg (concat (map (enc_value (m_endian s)) vs))).
    destruct (write_any_ok v s Hv W) as (s1 & Hrun & W1); [unfold fits; lia|].
    destruct (wrote_fields _ _ _ W1) as (Hp & He & _).
    destruct (IH s1 Hvs (wr_wf _ _ _ W1)) as (s2 & Hrun2 & W2).
    { rewrite He, Hp, (wr_base _ _ _ W1). lia. }
    exists s2. cstep Hrun. split; [assumption|]. rewrite He in W2. eapply wrote_app; eassumption.
Qed.

Lemma write_values_writable vs : forall s s',
  Forall typed_value vs -> write_values vs s = (s', Ret tt) -> Forall writable vs.
Proof.
  induction vs as [|v vs IH]; intros s s' Hd E; constructor; inversion Hd; subst;
    cbn [write_values] in E; apply cbind_ret_inv in E as (s1 & [] & E1 & E2).
  - by eapply write_value_writable.
  - by eapply IH.
Qed.

Lemma enc_values_nonempty e v vs : Forall typed_value (v :: vs) -> 0 < zlen (enc_values e (v :: vs)).
Proof.
  intros Hd. inversion Hd; subst. unfold enc_values. simpl. rewrite zlen_app.
  pose proof (zlen_nonneg (concat (map (enc_value e) vs))).
  pose proof (enc_value_nonempty e v ltac:(assumption)). lia.
Qed.

(** What the first value of a message leaves to the others. *)
Lemma first_value_ok v vs s :
  Forall typed_value (v :: vs) -> WF s -> at_cursor (enc_values (m_endian s) (v :: vs)) s ->
  at_cursor (enc_value (m_endian s) v) s /\
  (forall s1, moved_by (zlen (enc_value (m_endian s) v)) s s1 ->
     at_cursor (enc_values (m_endian s1) vs) s1) /\
  (vs <> [] -> m_position s + zlen (enc_value (m_endian s) v) < m_capacity s).
Proof.
  intros Hd W Hat. change (enc_values (m_endian s) (v :: vs))
    with (enc_value (m_endian s) v ++ enc_values (m_endian s) vs) in Hat.
  destruct (at_cursor_app _ _ s W Hat) as [Hat1 Hat2]. split; [assumption|]. split.
  - intros s1 M. destruct (moved_by_fields _ _ _ M) as (_ & _ & ->). auto.
  - intros Hne. destruct vs as [|v' vs]; [done|]. destruct Hat as [Hle _]. rewrite zlen_app in Hle.
    pose proof (enc_values_nonempty (m_endian s) v' vs ltac:(by inversion Hd)).
    pose proof (wf_size s W). lia.
Qed.

Lemma read_values_ok vs : forall s,
  Forall dom_value vs -> WF s -> at_cursor (enc_values (m_endian s) vs) s ->
  ends_solid vs = true \/ m_position s + zlen (enc_values (m_endian s) vs) < m_capacity s ->
  exists s', read_values (map shape_of vs) s = (s', Ret vs)
    /\ moved_by (zlen (enc_values (m_endian s) vs)) s s'.
Proof.
  induction vs as [|v vs IH]; intros s Hd W Hat Hs; cbn [read_values map].
  - exists s. split; [reflexivity|]. constructor; auto.
    unfold abs, buf_advance, enc_values; simpl. f_equal. unfold zlen; simpl; lia.
  - assert (Ht : Forall typed_value (v :: vs)) by (eapply Forall_impl; [|exact Hd]; apply dom_storable).
    destruct (first_value_ok v vs s Ht W Hat) as (Hat1 & Hat2 & Hroom).
    inversion Hd as [|? ? Hv Hvs]; subst.
    change (enc_values (m_endian s) (v :: vs))
      with (enc_value (m_endian s) v ++ enc_values (m_endian s) vs) in Hs |- *.
    rewrite zlen_app in Hs |- *.
    destruct (read_value_ok v s Hv W Hat1) as (s1 & Hrun & M1).
    { destruct vs; [|right; by apply Hroom]. change (zlen (enc_values _ [])) with 0 in Hs.
      destruct Hs as [Hs|Hs]; [left; exact Hs|right; lia]. }
    destruct (moved_by_fields _ _ _ M1) as (Hp & _ & He).
    destruct (IH s1 Hvs (mv_wf _ _ _ M1) (Hat2 _ M1)) as (s2 & Hrun2 & M2).
    + rewrite Hp, He, (mv_cap _ _ _ M1). destruct vs as [|v' vs]; [by left|].
      destruct Hs as [Hs|Hs]; [left; exact Hs|right; lia].
    + exists s2. cstep Hrun. cstep Hrun2. split; [reflexivity|].
      rewrite He in M2. eapply moved_by_trans; eassumption.
Qed.

(** A message that is read back had an encoding and did not end in a read
    through NULL. *)
Lemma read_values_back vs : forall s s',
  Forall writable vs -> WF s -> at_cursor (enc_values (m_endian s) vs) s ->
  read_values (map shape_of vs) s = (s', Ret vs) ->
  Forall dom_value vs /\
  (ends_solid vs = true \/ m_position s + zlen (enc_values (m_endian s) vs) < m_capacity s).
Proof.
  induction vs as [|v vs IH]; intros s s' Hd W Hat Hrun; [by split; [|left]|].
  assert (Ht : Forall typed_value (v :: vs)) by (eapply Forall_impl; [|exact Hd]; by intros ? []).
  destruct (first_value_ok v vs s Ht W Hat) as (Hat1 & Hat2 & Hroom).
  inversion Hd as [|? ? Hv Hvs]; subst. cbn [read_values map] in Hrun.
  apply cbind_ret_inv in Hrun as (s1 & v' & Hrun1 & Hrun). apply cbind_ret_inv in Hrun as (s2 & vs' & Hrun2 & E).
  injection E as -> -> ->. destruct (read_value_back v s s1 Hv W Hat1 Hrun1) as [Hdv Hsv].
  destruct (read_value_ok v s Hdv W Hat1 Hsv) as (s1' & Hrun1' & M1). rewrite Hrun1 in Hrun1'. simplify_eq.
  destruct (IH s1' s' Hvs (mv_wf _ _ _ M1) (Hat2 _ M1) Hrun2) as [Hdvs Hsvs].
  split; [by constructor|]. destruct (moved_by_fields _ _ _ M1) as (Hp & _ & He).
  rewrite Hp, He, (mv_cap _ _ _ M1) in Hsvs.
  change (enc_values (m_endian s) (v :: vs)) with (enc_value (m_endian s) v ++ enc_values (m_endian s) vs).
  rewrite zlen_app. destruct vs as [|v' vs].
  - change (zlen (enc_values _ [])) with 0. destruct Hsv; [by left|right; lia].
  - destruct Hsvs as [Hs|Hs]; [left; exact Hs|right; lia].
Qed.

(** Seeking back to where [d] was written puts it under the cursor. *)
Lemma rewind_ok d s s1 :
  WF s -> wrote d s s1 ->
  exists s2, setPosition (m_position s) s1 = (s2, Ret tt) /\ WF s2 /\ at_cursor d s2
    /\ m_position s2 = m_position s /\ m_endian s2 = m_endian s
    /\ m_capacity s2 = m_capacity s1.
Proof.
  intros W Hw. destruct (wrote_fields _ _ _ Hw) as (Hp & He & Hc). pose proof (wr_wf _ _ _ Hw) as W1.
  pose proof (wf_pos s W). pose proof (wf_pos s1 W1). pose proof (wf_size s1 W1).
  pose proof (zlen_nonneg d).
  destruct (setPosition_ok (m_position s) s1 W1 ltac:(lia))
    as (s2 & Hrun & W2 & Hp2 & Hs2 & Hf2 & He2 & _ & Hcap2).
  exists s2. split; [assumption|]. split; [assumption|]. rewrite Hp2, He2, Hcap2.
  split; [|auto]. rewrite Z.max_l in Hs2 by lia. split; [lia|].
  rewrite Hp2. unfold contents. rewrite Hf2, Hs2. fold (contents s1). rewrite Hc.
  apply slice_overlay. rewrite (zlen_contents s W). lia.
Qed.
End message.

(** More room does not change an encoding that fits. *)
Lemma encode_varint_room room k : forall v l,
  encode_varint room v = Ret l -> varint room v = varint (room + k) v
  /\ encode_varint (room + k) v = Ret l.
Proof.
  unfold varint. induction room as [|room IH]; intros v l E; [discriminate|].
  cbn [encode_varint Nat.add] in *. destruct (v >=? 128); [|auto].
  destruct (encode_varint room (Z.shiftr v 7)) as [l'| |] eqn:E'; try discriminate.
  destruct (IH _ _ E') as [_ E2]. rewrite E2. auto.
Qed.

(** A varint has one byte per seven significant bits. *)
Lemma length_varint room : forall v,
  (0 < room)%nat -> 0 <= v < 2 ^ (7 * Z.of_nat room) ->
  zlen (varint room v) = 1 + Z.log2 v / 7.
Proof.
  unfold varint. induction room as [|room IH]; intros v Hr Hv; [lia|].
  cbn [encode_varint]. rewrite Z.geb_leb. destruct (Z.leb_spec 128 v) as [Hbig|Hsmall].
  - assert (Hr' : (0 < room)%nat)
      by (destruct room; [change (2 ^ (7 * Z.of_nat 1)) with 128 in Hv|]; lia).
    assert (Hlog : Z.log2 (Z.shiftr v 7) = Z.log2 v - 7).
    { rewrite Z.log2_shiftr by lia. apply Z.max_r.
      pose proof (Z.log2_le_mono 128 v Hbig) as Hm. change (Z.log2 128) with 7 in Hm. lia. }
    assert (Hlt : 0 <= Z.shiftr v 7 < 2 ^ (7 * Z.of_nat room)).
    { rewrite Z.shiftr_div_pow2 by lia. split; [apply Z.div_pos; lia|].
      apply Z.div_lt_upper_bound; [lia|]. rewrite <- Z.pow_add_r by lia.
      replace (7 + 7 * Z.of_nat room) with (7 * Z.of_nat (S room)) by lia. lia. }
    specialize (IH (Z.shiftr v 7) Hr' Hlt).
    destruct (encode_varint_ok room _ Hr' Hlt) as [E _].
    destruct (encode_varint room (Z.shiftr v 7)) as [l| |]; try discriminate.
    cbn [obind]. rewrite zlen_cons, IH, Hlog.
    replace (Z.log2 v) with (Z.log2 v - 7 + 1 * 7) at 2 by lia.
    rewrite Z.div_add by lia. lia.
  - rewrite (Z.div_small (Z.log2 v)); [reflexivity|]. split; [apply Z.log2_nonneg|].
    destruct (Z.eq_dec v 0) as [->|]; [reflexivity|]. apply Z.log2_lt_pow2; lia.
Qed.

(** ** Properties *)

(** The values written from the position of [s] on are read back from [s1]. *)
Definition read_back host string_max (vs : list value) (s s1 : ByteArray) : Prop :=
  exists s2 s3, setPosition (m_position s) s1 = (s2, Ret tt)
    /\ read_values host string_max (map shape_of vs) s2 = (s3, Ret vs)
    /\ m_position s3 = m_position s1.

(** C2: any sequence of values of the C++ types in any well-formed buffer, on a
    host of either byte order and in either buffer order.  When every value is
    storable (a zigzag integer without signed overflow, a string no longer than
    its 16-bit or 32-bit length field can say) the writers return.  And after
    writers that returned, seeking back and reading values of the same types
    returns the same values, with the cursor where the writes left it, exactly
    when every value is storable and the message does not end in an empty string
    behind which no block follows (see [read_zero_at_capacity]). *)
Theorem message_roundtrip junk host string_max wrapv vs s :
  is_order host -> WF s -> Forall (typed_value string_max wrapv) vs ->
  fits (enc_values (m_endian s) vs) s ->
  (forallb (storable wrapv) vs = true -> exists s1, write_values junk host wrapv vs s = (s1, Ret tt)) /\
  (forall s1, write_values junk host wrapv vs s = (s1, Ret tt) ->
     (read_back host string_max vs s s1 <->
      forallb (storable wrapv) vs = true /\ (ends_solid vs = true \/ m_position s1 < m_capacity s1))).
Proof.
  intros Hh W Ht F.
  assert (Hdom : forallb (storable wrapv) vs = true <-> Forall (dom_value string_max wrapv) vs).
  { rewrite forallb_forall, Forall_forall. rewrite Forall_forall in Ht.
    setoid_rewrite dom_storable. naive_solver. }
  split.
  - intros Hs%Hdom. destruct (write_values_ok junk host string_max wrapv Hh vs s) as (s1 & ? & _); eauto.
    eapply Forall_impl; [|exact Hs]. intros v Hv. by apply dom_writable.
  - intros s1 Hrun. rewrite Hdom.
    pose proof (write_values_writable junk host string_max wrapv vs s s1 Ht Hrun) as Hw.
    destruct (write_values_ok junk host string_max wrapv Hh vs s Hw W F) as (s1' & E & Hwr).
    rewrite Hrun in E. injection E as <-.
    destruct (rewind_ok _ s s1 W Hwr) as (s2 & Hseek & W2 & Hat & Hp & He & Hc).
    destruct (wrote_fields _ _ _ Hwr) as (Hp1 & _ & _). rewrite <- He in Hat.
    rewrite <- He in Hp1. rewrite <- Hp in Hp1. split.
    + intros (s2' & s3 & Hseek' & Hread & _). rewrite Hseek in Hseek'. simplify_eq.
      destruct (read_values_back junk host string_max wrapv Hh vs s2' s3 Hw W2 Hat Hread) as [Hd Hend].
      rewrite Hp1, <- Hc. auto.
    + intros [Hd Hend]. destruct (read_values_ok junk host string_max wrapv Hh vs s2 Hd W2 Hat) as (s3 & Hread & M).
      { rewrite Hc, <- Hp1. assumption. }
      destruct (moved_by_fields _ _ _ M) as (Hp3 & _ & _). exists s2, s3.
      split; [assumption|]. split; [assumption|]. by rewrite Hp3, Hp1.
Qed.

Definition demo_values : list value :=
  [VFint16 (-2); VUint32 300; VInt64 (-1); VStringF16 [104; 105]; VFuint64 (2 ^ 64 - 1)].

Definition demo_buffer : ByteArray := ByteArray_new (fun _ _ => 0) 5.

(** The message is read back; one that ends in an empty string is, or is not,
    depending on the size of the blocks. *)
Lemma message_roundtrip_witness :
  (exists s1, write_values (fun _ _ => 0) 1 false demo_values demo_buffer = (s1, Ret tt) /\
     read_back 1 1000 demo_values demo_buffer s1) /\
  (exists s1, write_values (fun _ _ => 0) 1 false [VFuint8 1; VFint16 7; VStringF16 []] demo_buffer = (s1, Ret tt) /\
     ~ read_back 1 1000 [VFuint8 1; VFint16 7; VStringF16 []] demo_buffer s1).
Proof.
  assert (W : WF demo_buffer).
  { constructor; try (vm_compute; try split; congruence); [repeat constructor|right; reflexivity]. }
  split; eexists; (split; [vm_compute; reflexivity|]).
  - apply (message_roundtrip (fun _ _ => 0) 1 1000 false demo_values demo_buffer).
    + left. reflexivity.
    + exact W.
    + repeat constructor; vm_compute; congruence.
    + vm_compute. congruence.
    + vm_compute. reflexivity.
    + split; [reflexivity|left; reflexivity].
  - intros Hback. apply (message_roundtrip (fun _ _ => 0) 1 1000 false [VFuint8 1; VFint16 7; VStringF16 []] demo_buffer)
      in Hback as [_ [E|E]]; try discriminate E.
    + left. reflexivity.
    + exact W.
    + repeat constructor; vm_compute; congruence.
    + vm_compute. congruence.
    + vm_compute. reflexivity.
Defined.

(** The wire format does not depend on the host: on either kind of host a
    write of a value puts the bytes [enc_value] of the buffer's own byte order
    (most significant first by default) at the cursor and moves behind them. *)
Theorem wire_format junk host string_max wrapv v s :
  is_order host -> WF s -> dom_value string_max wrapv v ->
  fits (enc_value (m_endian s) v) s ->
  exists s', write_value junk host wrapv v s = (s', Ret tt)
    /\ contents s' = overlay (m_position s) (enc_value (m_endian s) v) (contents s)
    /\ m_position s' = m_position s + zlen (enc_value (m_endian s) v).
Proof.
  intros Hh W Hd F.
  destruct (write_value_ok junk host string_max wrapv Hh v s Hd W F) as (s' & Hrun & Hw).
  destruct (wrote_fields _ _ _ Hw) as (Hp & _ & Hc). eauto.
Qed.

Lemma wire_format_witness :
  exists s', write_value (fun _ _ => 0) SYLAR_LITTLE_ENDIAN false (VFuint32 258) demo_buffer
               = (s', Ret tt)
    /\ contents s' = overlay 0 [0; 0; 1; 2] [] /\ m_position s' = 0 + 4.
Proof.
  apply (wire_format (fun _ _ => 0) SYLAR_LITTLE_ENDIAN 1000 false (VFuint32 258) demo_buffer).
  - left. reflexivity.
  - constructor; try (vm_compute; try split; congruence).
    + repeat constructor.
    + right. reflexivity.
  - vm_compute. split; congruence.
  - vm_compute. congruence.
Defined.

(** The varint writers use one byte per seven significant bits: between 1
    and 5 bytes for 32-bit values and between 1 and 10 for 64-bit ones, so the
    loops stay inside their buffers [tmp[5]] and [tmp[10]]. *)
Theorem varint_sizes junk v s :
  u_range 64 v -> WF s -> fits (varint 10 v) s ->
  exists s', writeUint64 junk v s = (s', Ret tt)
    /\ m_position s' = m_position s + (1 + Z.log2 v / 7)
    /\ 1 <= 1 + Z.log2 v / 7 <= 10
    /\ (u_range 32 v -> encode_varint 5 v = Ret (varint 10 v) /\ 1 + Z.log2 v / 7 <= 5).
Proof.
  intros Hv W F. assert (Hb : forall w, 0 < w -> u_range w v -> 0 <= Z.log2 v < w).
  { intros w Hw Hr. split; [apply Z.log2_nonneg|]. unfold u_range in Hr.
    destruct (Z.eq_dec v 0) as [->|]; [simpl; lia|]. apply Z.log2_lt_pow2; lia. }
  assert (H70 : 0 <= v < 2 ^ (7 * Z.of_nat 10)) by (unfold u_range in Hv; simpl; lia).
  destruct (codec_write (Codec := codec_uint64 junk 1) v s Hv W F) as (s' & Hrun & Hw).
  destruct (wrote_fields _ _ _ Hw) as (Hp & _). exists s'.
  rewrite (length_varint 10 v) in Hp by (lia || exact H70).
  split; [assumption|]. split; [assumption|]. split.
  { destruct (Hb 64) as [H1 H2]; [lia|assumption|].
    pose proof (Z.div_pos (Z.log2 v) 7 H1 ltac:(lia)).
    pose proof (Z.div_lt_upper_bound (Z.log2 v) 7 10 ltac:(lia) ltac:(lia)). lia. }
  intros H32. destruct (Hb 32) as [H1 H2]; [lia|assumption|]. split.
  - assert (H35 : 0 <= v < 2 ^ (7 * Z.of_nat 5)) by (unfold u_range in H32; simpl; lia).
    destruct (encode_varint_ok 5 v ltac:(lia) H35) as [E _]. rewrite E. f_equal.
    apply (encode_varint_room 5 5 v _ E).
  - pose proof (Z.div_lt_upper_bound (Z.log2 v) 7 5 ltac:(lia) ltac:(lia)). lia.
Qed.

Lemma varint_sizes_witness :
  exists s', writeUint64 (fun _ _ => 0) 300 demo_buffer = (s', Ret tt)
    /\ m_position s' = m_position demo_buffer + (1 + Z.log2 300 / 7)
    /\ 1 <= 1 + Z.log2 300 / 7 <= 10
    /\ (u_range 32 300 -> encode_varint 5 300 = Ret (varint 10 300) /\ 1 + Z.log2 300 / 7 <= 5).
Proof.
  apply (varint_sizes (fun _ _ => 0) 300 demo_buffer).
  - split; vm_compute; congruence.
  - constructor; try (vm_compute; try split; congruence).
    + repeat constructor.
    + right. reflexivity.
  - vm_compute. congruence.
Defined.

(** Under the rules of ISO C++ (signed overflow is undefined; the build
    uses -O3 without -fwrapv) [writeInt32] is undefined for the values from
    2^30 up, whose [v * 2] leaves [int32_t], and for the least [int32_t], whose
    negation does; it is defined for all others. *)
Theorem writeInt32_defined junk v s :
  s_range 32 v ->
  (EncodeZigzag32 false v = Ret (zigzag v) <-> - 2 ^ 31 < v < 2 ^ 30)
  /\ (~ (- 2 ^ 31 < v < 2 ^ 30) -> writeInt32 junk false v s = (s, Undef SignedOverflow)).
Proof.
  intros Hv. unfold s_range in Hv. change (2 ^ (32 - 1)) with (2 ^ 31) in Hv.
  assert (Hbad : ~ (- 2 ^ 31 < v < 2 ^ 30) -> EncodeZigzag32 false v = Undef SignedOverflow).
  { intros Hn. unfold EncodeZigzag32, s_arith. change (2 ^ (32 - 1)) with (2 ^ 31).
    destruct (Z.ltb_spec v 0); (rewrite (proj2 (andb_false_iff _ _)); [reflexivity|]);
      right; apply Z.ltb_ge; lia. }
  split; [split|].
  - intros E. destruct (Z.le_gt_cases v (- 2 ^ 31)); [rewrite Hbad in E by lia; discriminate|].
    destruct (Z.le_gt_cases (2 ^ 30) v); [rewrite Hbad in E by lia; discriminate|]. lia.
  - intros Hin. apply (encode_zigzag_ok false 32 v); [lia|].
    split; [unfold s_range; change (2 ^ (32 - 1)) with (2 ^ 31); lia|]. right. exact Hin.
  - intros Hn. unfold writeInt32, lift, cbind. rewrite (Hbad Hn). reflexivity.
Qed.

Lemma writeInt32_defined_witness :
  writeInt32 (fun _ _ => 0) false (2 ^ 30) demo_buffer = (demo_buffer, Undef SignedOverflow).
Proof.
  apply (writeInt32_defined (fun _ _ => 0) (2 ^ 30) demo_buffer); [split; vm_compute; congruence|].
  lia.
Defined.
