(* ===== verification/ByteArrayView.v ===== *)
(** * Views of a ByteArray: positional reads, strings, scatter/gather buffers
      and files (sylar/bytearray.cpp)

    The const operations read a state and return an outcome.  An [iovec] is a
    node, an offset in it and a length; [iov_data] is what it covers and
    [scatter] what a scatter write (recvmsg) stores through a vector of them.
    Files are byte sequences: [writeToFile] returns what it hands to the output
    stream, [readFromFile] takes what the input stream delivers; whether the
    file opens is a parameter. *)

From stdpp Require Import base list numbers.
From Stdlib Require Import ZArith Lia.
From S2P Require Import Prelude Endian Double ByteArray ByteArrayCodec.

Local Open Scope Z_scope.
Local Open Scope cpp_scope.

(** The copy loop of the const [read]. *)
Fixpoint read_at_loop (fuel : nat) (s : ByteArray) (cur : option nat) (npos ncap size : Z)
    : outcome (list Z) :=
  if size >? 0 then
    match fuel with
    | O => Undef FuelExhausted
    | S fuel' =>
        obind (deref s cur) (fun c =>
        if ncap >=? size then
          if zlen (ptr (snd c)) <? npos + size then Undef OutOfBounds
          else
            let cur' := if nsize (snd c) =? u64 (npos + size) then next_of s (fst c) else cur in
            obind (read_at_loop fuel' s cur' npos ncap 0) (fun d =>
            Ret (slice npos size (ptr (snd c)) ++ d))
        else
          if zlen (ptr (snd c)) <? npos + ncap then Undef OutOfBounds
          else
            obind (deref s (next_of s (fst c))) (fun c' =>
            obind (read_at_loop fuel' s (next_of s (fst c)) 0 (nsize (snd c')) (u64 (size - ncap)))
              (fun d => Ret (slice npos ncap (ptr (snd c)) ++ d))))
    end
  else Ret [].

(** [read(buf, size, position) const]. *)
Definition read_at (size position : Z) (s : ByteArray) : outcome (list Z) :=
  if size >? u64 (m_size s - position) then Throw OutOfRange
  else if m_baseSize s =? 0 then Undef DivByZero
  else
    let npos := position mod m_baseSize s in
    obind (deref s (m_cur s)) (fun c =>
    let ncap := u64 (nsize (snd c) - npos) in
    read_at_loop (S (length (m_nodes s))) s (m_cur s) npos ncap size).

Definition toString (s : ByteArray) : outcome (list Z) :=
  if getReadSize s =? 0 then Ret [] else read_at (getReadSize s) (m_position s) s.

(** [setw(2) << setfill('0') << hex] of a byte, and the blank after it. *)
Definition hex_digit (d : Z) : Z := if d <? 10 then 48 + d else 87 + d.
Definition hex_byte (b : Z) : list Z := [hex_digit (b / 16); hex_digit (b mod 16); 32].

Fixpoint hex_loop (i : Z) (str : list Z) : list Z :=
  match str with
  | [] => []
  | b :: str' =>
      (if (i >? 0) && (i mod 32 =? 0) then [10] else []) ++ hex_byte (u8 b) ++ hex_loop (i + 1) str'
  end.

Definition toHexString (s : ByteArray) : outcome (list Z) :=
  obind (toString s) (fun str => Ret (hex_loop 0 str)).

(** ** Scatter/gather buffers *)

Record iovec := mkIovec { iov_node : nat; iov_off : Z; iov_len : Z }.

(** The loop the three functions share. *)
Fixpoint iov_loop (fuel : nat) (s : ByteArray) (cur : option nat) (npos ncap len : Z)
    : outcome (list iovec) :=
  if len >? 0 then
    match fuel with
    | O => Undef FuelExhausted
    | S fuel' =>
        obind (deref s cur) (fun c =>
        if ncap >=? len then
          obind (iov_loop fuel' s cur npos ncap 0) (fun l =>
          Ret (mkIovec (fst c) npos len :: l))
        else
          obind (deref s (next_of s (fst c))) (fun c' =>
          obind (iov_loop fuel' s (next_of s (fst c)) 0 (nsize (snd c')) (u64 (len - ncap)))
            (fun l => Ret (mkIovec (fst c) npos ncap :: l))))
    end
  else Ret [].

Definition getReadBuffers (len : Z) (s : ByteArray) : outcome (list iovec * Z) :=
  let len := if len >? getReadSize s then getReadSize s else len in
  if len =? 0 then Ret ([], 0)
  else if m_baseSize s =? 0 then Undef DivByZero
  else
    let npos := m_position s mod m_baseSize s in
    obind (deref s (m_cur s)) (fun c =>
    let ncap := u64 (nsize (snd c) - npos) in
    obind (iov_loop (S (length (m_nodes s))) s (m_cur s) npos ncap len) (fun l =>
    Ret (l, len))).

(** [while (count > 0) { cur = cur->next; --count; }]. *)
Fixpoint walk (s : ByteArray) (count : nat) (cur : option nat) : outcome (option nat) :=
  match count with
  | O => Ret cur
  | S n => obind (deref s cur) (fun c => walk s n (next_of s (fst c)))
  end.

(** The overload with a position. *)
Definition getReadBuffers_at (len position : Z) (s : ByteArray) : outcome (list iovec * Z) :=
  let len := if len >? getReadSize s then getReadSize s else len in
  if len =? 0 then Ret ([], 0)
  else if m_baseSize s =? 0 then Undef DivByZero
  else
    let npos := position mod m_baseSize s in
    let count := position / m_baseSize s in
    obind (walk s (Z.to_nat count) (Some 0%nat)) (fun cur =>
    obind (deref s cur) (fun c =>
    let ncap := u64 (nsize (snd c) - npos) in
    obind (iov_loop (S (length (m_nodes s))) s cur npos ncap len) (fun l =>
    Ret (l, len)))).

Definition getWriteBuffers (junk : nat -> nat -> Z) (len : Z) : M ByteArray (list iovec * Z) :=
  if len =? 0 then cret ([], 0)
  else
    addCapacity junk len ;;;
    let! st := cget id in
    if m_baseSize st =? 0 then cundef DivByZero
    else
      let npos := m_position st mod m_baseSize st in
      let! c := cur_node in
      let ncap := u64 (nsize (snd c) - npos) in
      let! l := lift (iov_loop (S (length (m_nodes st))) st (m_cur st) npos ncap len) in
      cret (l, len).

(** The bytes an [iovec] covers, and a store of [d] through a vector. *)
Definition iov_data (s : ByteArray) (v : iovec) : list Z :=
  match m_nodes s !! iov_node v with
  | Some nd => slice (iov_off v) (iov_len v) (ptr nd)
  | None => []
  end.

Fixpoint scatter (iovs : list iovec) (d : list Z) (l : list Node) : list Node :=
  match iovs with
  | [] => l
  | v :: iovs' =>
      scatter iovs' (drop (Z.to_nat (iov_len v)) d)
        (alter (fun nd => mkNode (overlay (iov_off v) (take (Z.to_nat (iov_len v)) d) (ptr nd))
                            (nsize nd)) (iov_node v) l)
  end.

(** ** Files *)

(** The loop of [writeToFile]: [diff] is an [int], [len] an [int64_t]; the
    subtraction is done in [size_t]. *)
Fixpoint write_file_loop (fuel : nat) (s : ByteArray) (cur : option nat) (pos read_size : Z)
    : outcome (list Z) :=
  if read_size >? 0 then
    match fuel with
    | O => Undef FuelExhausted
    | S fuel' =>
        let diff := i32 (u64 pos mod m_baseSize s) in
        let len := i64 (u64 ((if read_size >? i64 (m_baseSize s) then m_baseSize s
                              else u64 read_size) - diff)) in
        obind (deref s cur) (fun c =>
        if (diff <? 0) || (len <? 0) || (zlen (ptr (snd c)) <? diff + len) then Undef OutOfBounds
        else
          obind (write_file_loop fuel' s (next_of s (fst c)) (pos + len) (read_size - len))
            (fun d => Ret (slice diff len (ptr (snd c)) ++ d)))
    end
  else Ret [].

Definition writeToFile (opened : bool) (s : ByteArray) : outcome (bool * list Z) :=
  if negb opened then Ret (false, [])
  else
    let read_size := i64 (getReadSize s) in
    if (read_size >? 0) && (m_baseSize s =? 0) then Undef DivByZero
    else obind (write_file_loop (S (S (length (m_nodes s)))) s (m_cur s)
                  (i64 (m_position s)) read_size) (fun d => Ret (true, d)).

(** The loop [while (!ifs.eof())]: a read that delivers less than asked for
    sets the end-of-file flag. *)
Fixpoint read_file_loop (junk : nat -> nat -> Z) (fuel : nat) (rest : list Z) : M ByteArray unit :=
  match fuel with
  | O => cundef FuelExhausted
  | S fuel' =>
      let! b := cget m_baseSize in
      let chunk := take (Z.to_nat b) rest in
      write junk chunk (zlen chunk) ;;;
      if zlen chunk <? b then cret tt
      else read_file_loop junk fuel' (drop (Z.to_nat b) rest)
  end.

Definition readFromFile (junk : nat -> nat -> Z) (file : option (list Z)) : M ByteArray bool :=
  match file with
  | None => cret false
  | Some data => read_file_loop junk (S (length data)) data ;;; cret true
  end.

(** A vector of buffers that covers [[off, off + len)] in order. *)
Inductive covers (b : Z) (n : nat) : list iovec -> Z -> Z -> Prop :=
  | covers_nil off : covers b n [] off 0
  | covers_cons i npos len off l rest :
      (i < n)%nat -> 0 <= npos -> 0 < len -> npos + len <= b ->
      off = b * Z.of_nat i + npos -> 0 <= rest -> covers b n l (off + len) rest ->
      covers b n (mkIovec i npos len :: l) off (len + rest).

(** ** Walking a well-formed chain *)

Section chain.
Context (s : ByteArray) (W : WF s).
Let b := m_baseSize s.
Let n := length (m_nodes s).

Lemma deref_ok i :
  (i < n)%nat ->
  exists nd, deref s (Some i) = Ret (i, nd) /\ m_nodes s !! i = Some nd
    /\ nsize nd = b /\ zlen (ptr nd) = b.
Proof.
  intros Hi. destruct (node_at b _ i (wf_nodes s W) Hi) as (nd & Hnd & H1 & H2).
  exists nd. unfold deref. rewrite Hnd. auto.
Qed.

Lemma cap_eq : m_capacity s = b * Z.of_nat n.
Proof. rewrite (wf_cap s W). reflexivity. Qed.

Lemma next_some i : (S i < n)%nat -> next_of s i = Some (S i).
Proof. intros. unfold next_of. apply decide_True. assumption. Qed.

Lemma base_pos : 0 < b <= LIMIT.
Proof.
  pose proof (wf_base s W). pose proof (wf_limit s W). pose proof (wf_root s W).
  pose proof (wf_cap s W). unfold b, zlen in *. nia.
Qed.

Lemma read_at_loop_ok fuel : forall i npos size,
  (i < n)%nat -> 0 <= npos < b -> 0 < size -> b * Z.of_nat i + npos + size <= m_capacity s ->
  (n <= fuel + i)%nat ->
  read_at_loop fuel s (Some i) npos (b - npos) size
    = Ret (slice (b * Z.of_nat i + npos) size (flat s)).
Proof.
  pose proof base_pos. pose proof cap_eq. pose proof (wf_limit s W). pose proof (wf_nodes s W).
  induction fuel as [|fuel IH]; intros i npos size Hi Hp Hsz Hfit Hfuel; [lia|].
  destruct (deref_ok i Hi) as (nd & Hd & Hnd & Hns & Hptr).
  cbn [read_at_loop]. rewrite gtb_true, Hd by lia. cbn [obind fst snd].
  rewrite Z.geb_leb. destruct (Z.leb_spec size (b - npos)) as [Hlast|Hmore].
  - rewrite (proj2 (Z.ltb_ge _ _)) by lia.
    destruct fuel; cbn [read_at_loop]; rewrite gtb_false by lia; cbn [obind];
      rewrite app_nil_r, (flat_slice b (m_nodes s) i) by (auto; lia);
      reflexivity.
  - rewrite (proj2 (Z.ltb_ge _ _)) by lia.
    assert (Hnext : (S i < n)%nat) by nia. rewrite (next_some i Hnext).
    destruct (deref_ok (S i) Hnext) as (nd' & Hd' & _ & Hns' & _). rewrite Hd'. cbn [obind snd].
    rewrite Hns'. u64_small. rewrite <- (Z.sub_0_r b) at 1. rewrite IH by lia. cbn [obind].
    rewrite (flat_slice b (m_nodes s) i) by (auto; lia).
    replace (b * Z.of_nat (S i) + 0) with (b * Z.of_nat i + npos + (b - npos)) by lia.
    unfold flat. rewrite <- slice_app by lia. do 2 f_equal. lia.
Qed.

Lemma iov_loop_ok fuel : forall i npos len,
  (i < n)%nat -> 0 <= npos < b -> 0 < len -> b * Z.of_nat i + npos + len <= m_capacity s ->
  (n <= fuel + i)%nat ->
  exists l, iov_loop fuel s (Some i) npos (b - npos) len = Ret l
    /\ covers b n l (b * Z.of_nat i + npos) len.
Proof.
  pose proof base_pos. pose proof cap_eq. pose proof (wf_limit s W). pose proof (wf_nodes s W).
  induction fuel as [|fuel IH]; intros i npos len Hi Hp Hsz Hfit Hfuel; [lia|].
  destruct (deref_ok i Hi) as (nd & Hd & Hnd & Hns & Hptr).
  cbn [iov_loop]. rewrite gtb_true, Hd by lia. cbn [obind fst snd].
  rewrite Z.geb_leb. destruct (Z.leb_spec len (b - npos)) as [Hlast|Hmore].
  - eexists. split.
    + destruct fuel; cbn [iov_loop]; rewrite gtb_false by lia; reflexivity.
    + rewrite <- (Z.add_0_r len) at 2. constructor; auto; try lia. constructor.
  - assert (Hnext : (S i < n)%nat) by nia. rewrite (next_some i Hnext).
    destruct (deref_ok (S i) Hnext) as (nd' & Hd' & _ & Hns' & _). rewrite Hd'. cbn [obind snd].
    rewrite Hns'. u64_small.
    destruct (IH (S i) 0 (len - (b - npos))) as (l & Hrun & Hcov); try lia.
    rewrite Z.sub_0_r in Hrun. rewrite Hrun. eexists. split; [reflexivity|].
    replace len with ((b - npos) + (len - (b - npos))) by lia.
    constructor; auto; try lia.
    replace (b * Z.of_nat i + npos + (b - npos)) with (b * Z.of_nat (S i) + 0) by lia. exact Hcov.
Qed.

Lemma covers_data l off len :
  covers b n l off len -> concat (map (iov_data s) l) = slice off len (flat s).
Proof.
  pose proof base_pos. pose proof (wf_nodes s W).
  induction 1 as [off|i npos len off l rest Hi Hp Hl Hle -> Hr _ IH]; [reflexivity|].
  simpl. rewrite IH, slice_app by nia. f_equal. unfold iov_data. simpl.
  destruct (deref_ok i Hi) as (nd & _ & Hnd & _ & _). rewrite Hnd.
  apply (flat_slice b); auto.
Qed.

Lemma covers_total l off len : covers b n l off len -> len = foldr Z.add 0 (map iov_len l).
Proof. induction 1; simpl; congruence. Qed.
End chain.


(** A store through a covering vector overwrites the bytes it covers. *)
Lemma scatter_ok b n iovs off len :
  0 < b -> covers b n iovs off len -> forall d l,
  length l = n -> Forall (node_ok b) l -> zlen d <= len -> 
  length (scatter iovs d l) = n /\ Forall (node_ok b) (scatter iovs d l)
  /\ flat_of (scatter iovs d l) = overlay off d (flat_of l).
Proof.
  intros Hb. induction 1 as [off|i npos len off iovs rest Hi Hp Hl Hle -> Hr _ IH];
    intros d l Hn Hok Hd; cbn [scatter iov_len iov_node iov_off].
  - destruct d; [|rewrite zlen_cons in Hd; pose proof (zlen_nonneg d); lia].
    rewrite overlay_nil. auto.
  - destruct (node_at b l i Hok ltac:(lia)) as (nd & Hnd & Hns & Hptr).
    rewrite (alter_at _ l i nd) by assumption.
    assert (Ht : zlen (take (Z.to_nat len) d) = Z.min len (zlen d))
      by (unfold zlen; rewrite length_take; lia).
    assert (Hdr : zlen (drop (Z.to_nat len) d) = Z.max 0 (zlen d - len))
      by (unfold zlen; rewrite length_drop; lia).
    destruct (IH (drop (Z.to_nat len) d)
                (<[i := mkNode (overlay npos (take (Z.to_nat len) d) (ptr nd)) (nsize nd)]> l))
      as (H1 & H2 & H3).
    + rewrite length_insert. assumption.
    + apply insert_node_ok; auto; lia.
    + lia.
    + split; [assumption|]. split; [assumption|]. rewrite H3.
      rewrite (flat_insert b l i) by (auto; lia).
      assert (Hoff : 0 <= b * Z.of_nat i + npos <= zlen (flat_of l)).
      { rewrite (zlen_flat b) by assumption. unfold zlen. nia. }
      destruct (Z.le_gt_cases len (zlen d)).
      * replace (b * Z.of_nat i + npos + len)
          with (b * Z.of_nat i + npos + zlen (take (Z.to_nat len) d)) by lia.
        rewrite overlay_overlay, take_drop by assumption. reflexivity.
      * rewrite (drop_ge d), overlay_nil, (take_ge d) by (unfold zlen in *; lia). reflexivity.
Qed.

(** ** The operations *)

Lemma readsize_ok s : WF s -> getReadSize s = m_size s - m_position s.
Proof.
  intros W. pose proof (wf_limit s W). pose proof (wf_pos s W). pose proof (wf_size s W).
  unfold getReadSize. u64_small. reflexivity.
Qed.

(** The cursor of a well-formed buffer that is not full. *)
Lemma cursor_ok s :
  WF s -> m_position s < m_capacity s ->
  exists i, m_cur s = Some i /\ (i < length (m_nodes s))%nat
    /\ 0 <= m_position s mod m_baseSize s < m_baseSize s
    /\ m_position s = m_baseSize s * Z.of_nat i + m_position s mod m_baseSize s
    /\ Z.of_nat i = m_position s / m_baseSize s.
Proof.
  intros W Hlt. destruct (wf_at_node s W Hlt) as [i [Hb _ _ Hc Hi Hp Hpos]].
  exists i. repeat split; auto; try lia.
  apply (Z.div_unique (m_position s) (m_baseSize s) (Z.of_nat i)
           (m_position s mod m_baseSize s)); [lia|assumption].
Qed.

(** Where the const [read] really reads: in the block of the cursor. *)
Lemma read_at_ok s size position :
  WF s -> m_position s < m_capacity s -> 0 < size -> 0 <= position ->
  position + size <= m_size s ->
  let start := m_baseSize s * (m_position s / m_baseSize s) + position mod m_baseSize s in
  start + size <= m_capacity s ->
  read_at size position s = Ret (slice start size (flat s)).
Proof.
  intros W Hlt Hsz Hp Hle start Hfit. unfold read_at.
  pose proof (wf_limit s W). pose proof (wf_pos s W). pose proof (wf_size s W).
  pose proof (base_pos s W). u64_small. rewrite gtb_false, (proj2 (Z.eqb_neq _ _)) by lia.
  destruct (cursor_ok s W Hlt) as (i & Hc & Hi & _ & _ & Hq).
  destruct (deref_ok s W i Hi) as (nd & Hd & _ & Hns & _). rewrite Hc, Hd. cbn [obind snd].
  pose proof (Z.mod_pos_bound position (m_baseSize s) ltac:(lia)).
  rewrite Hns. u64_small. rewrite (read_at_loop_ok s W) by (unfold start in *; lia).
  unfold start. rewrite Hq. reflexivity.
Qed.

Lemma toString_ok s :
  WF s -> toString s = Ret (slice (m_position s) (m_size s - m_position s) (contents s)).
Proof.
  intros W. unfold toString. rewrite (readsize_ok s W).
  pose proof (wf_pos s W). pose proof (wf_size s W).
  destruct (Z.eqb_spec (m_size s - m_position s) 0) as [->|Hne]; [reflexivity|].
  pose proof (wf_base s W). pose proof (Z.div_mod (m_position s) (m_baseSize s) ltac:(lia)).
  rewrite read_at_ok by (auto; lia). unfold contents. rewrite slice_prefix by lia.
  do 2 f_equal. lia.
Qed.

Lemma iov_from_cursor s len :
  WF s -> 0 < len -> m_position s + len <= m_capacity s ->
  exists i nd l, m_cur s = Some i /\ deref s (Some i) = Ret (i, nd)
    /\ m_nodes s !! i = Some nd
    /\ iov_loop (S (length (m_nodes s))) s (Some i) (m_position s mod m_baseSize s)
         (u64 (nsize nd - m_position s mod m_baseSize s)) len = Ret l
    /\ covers (m_baseSize s) (length (m_nodes s)) l (m_position s) len.
Proof.
  intros W Hl Hfit. pose proof (wf_limit s W). pose proof (wf_pos s W). pose proof (wf_size s W).
  pose proof (base_pos s W).
  destruct (cursor_ok s W ltac:(lia)) as (i & Hc & Hi & Hm & Hpos & _).
  destruct (deref_ok s W i Hi) as (nd & Hd & Hnd & Hns & _).
  destruct (iov_loop_ok s W (S (length (m_nodes s))) i (m_position s mod m_baseSize s) len)
    as (l & Hrun & Hcov); auto; try lia.
  exists i, nd, l. rewrite Hns. u64_small. rewrite Hpos at 3. auto 10.
Qed.

Lemma getReadBuffers_ok len s :
  WF s -> 0 <= len ->
  exists l, getReadBuffers len s = Ret (l, Z.min len (m_size s - m_position s))
    /\ covers (m_baseSize s) (length (m_nodes s)) l (m_position s)
         (Z.min len (m_size s - m_position s)).
Proof.
  intros W Hl. unfold getReadBuffers. rewrite (readsize_ok s W).
  pose proof (wf_pos s W). pose proof (wf_size s W). pose proof (wf_base s W).
  replace (if len >? m_size s - m_position s then m_size s - m_position s else len)
    with (Z.min len (m_size s - m_position s))
    by (rewrite Z.gtb_ltb; destruct (Z.ltb_spec (m_size s - m_position s) len); lia).
  set (k := Z.min len (m_size s - m_position s)).
  destruct (Z.eqb_spec k 0) as [->|Hne]; [exists []; split; [reflexivity|constructor]|].
  rewrite (proj2 (Z.eqb_neq _ _)) by lia.
  destruct (iov_from_cursor s k W ltac:(lia) ltac:(lia)) as (i & nd & l & Hc & Hd & _ & Hrun & Hcov).
  rewrite Hc, Hd. cbn [obind snd]. rewrite Hrun. exists l. auto.
Qed.

Lemma getWriteBuffers_ok junk len s :
  WF s -> 0 < len -> m_position s + len + m_baseSize s <= LIMIT ->
  exists s' l, getWriteBuffers junk len s = (s', Ret (l, len)) /\ WF s'
    /\ covers (m_baseSize s') (length (m_nodes s')) l (m_position s') len
    /\ abs s' = abs s /\ m_baseSize s' = m_baseSize s
    /\ m_position s + len <= m_capacity s'.
Proof.
  intros W Hl Hlim. unfold getWriteBuffers. rewrite (proj2 (Z.eqb_neq len 0)) by lia.
  destruct (addCapacity_ok junk len s W ltac:(lia) Hlim) as (s1 & Hrun & W1 & G & Hcap).
  destruct G as [Gb Gp Gs Ge [ext Gf]]. cstep Hrun. rewrite cbind_get. unfold id.
  pose proof (wf_base s1 W1). pose proof (wf_pos s W). pose proof (wf_size s W).
  rewrite (proj2 (Z.eqb_neq _ _)) by lia.
  destruct (iov_from_cursor s1 len W1 Hl ltac:(lia)) as (i & nd & l & Hc & Hd & Hnd & Hloop & Hcov).
  cstep (cur_node_run s1 i nd Hc Hnd). cbn [snd]. unfold lift. rewrite Hc, Hloop.
  exists s1, l. split; [reflexivity|]. split; [assumption|]. split; [assumption|].
  split; [|split; [assumption|lia]]. unfold abs. rewrite Gp, Ge. f_equal. unfold contents.
  rewrite Gs, Gf. apply slice_ext_app; rewrite ?zlen_flat_wf by assumption; lia.
Qed.

(** Received bytes stored through the write buffers, and the cursor moved
    behind them, amount to a write. *)
Lemma scatter_write_ok s l len d :
  WF s -> covers (m_baseSize s) (length (m_nodes s)) l (m_position s) len ->
  0 <= len -> zlen d <= len -> m_position s + len <= m_capacity s ->
  exists s', setPosition (m_position s + zlen d) (set_nodes (scatter l d (m_nodes s)) s) = (s', Ret tt)
    /\ WF s' /\ abs s' = buf_write d (abs s) /\ m_baseSize s' = m_baseSize s.
Proof.
  intros W Hcov Hl Hd Hfit. pose proof (wf_pos s W). pose proof (wf_size s W).
  pose proof (zlen_nonneg d).
  destruct (scatter_ok _ _ _ _ _ (wf_base s W) Hcov d (m_nodes s) eq_refl (wf_nodes s W) Hd)
    as (Hlen & Hok & Hflat).
  set (s1 := set_nodes (scatter l d (m_nodes s)) s).
  assert (W1 : WF s1).
  { destruct W. assert (zlen (scatter l d (m_nodes s)) = zlen (m_nodes s)) as Hz by (unfold zlen; lia).
    constructor; simpl; rewrite ?Hz; auto. }
  destruct (setPosition_ok (m_position s + zlen d) s1 W1) as (s2 & Hrun & W2 & Hp & Hs & Hf & He & Hb & _);
    [simpl; lia|].
  exists s2. split; [assumption|]. split; [assumption|]. split; [|assumption].
  unfold abs, buf_write, contents; simpl. rewrite Hp, He, Hf, Hs. f_equal.
  change (flat s1) with (flat_of (scatter l d (m_nodes s))). rewrite Hflat. fold (flat s).
  change (m_size s1) with (m_size s).
  apply take_overlay_grow; rewrite ?zlen_flat_wf by assumption; lia.
Qed.

(** ** Files *)

Section file.
Context (s : ByteArray) (W : WF s) (Hint : m_baseSize s < 2 ^ 31).
Local Abbreviation b := (m_baseSize s).

(** The offset and the length of one iteration. *)
Lemma file_step i diff rs :
  (i < length (m_nodes s))%nat -> 0 <= diff < b -> 0 < rs <= m_capacity s ->
  let pos := b * Z.of_nat i + diff in
  i32 (u64 pos mod b) = diff
  /\ i64 (u64 ((if rs >? i64 b then b else u64 rs) - i32 (u64 pos mod b))) = Z.min b rs - diff.
Proof.
  intros Hi Hd Hrs pos. pose proof (wf_limit s W). pose proof (cap_eq s W).
  assert (Hpos : 0 <= pos <= LIMIT) by (unfold pos; split; nia).
  assert (E : i32 (u64 pos mod b) = diff).
  { u64_small. unfold pos. rewrite Z.mul_comm, Z.add_comm, Z.mod_add, Z.mod_small by lia.
    apply swrap_id; [lia|]. unfold s_range. change (2 ^ (32 - 1)) with (2 ^ 31). unfold b in *. lia. }
  split; [exact E|]. rewrite E.
  assert (Eb : i64 b = b).
  { apply swrap_id; [lia|]. unfold s_range. change (2 ^ (64 - 1)) with (2 ^ 63). unfold b in *. lia. }
  rewrite Eb, (uwrap_id 64 rs) by (unfold u_range, LIMIT in *; lia).
  replace (if rs >? b then b else rs) with (Z.min b rs)
    by (rewrite Z.gtb_ltb; destruct (Z.ltb_spec b rs); lia).
  apply swrap_uwrap; [lia|].
  unfold s_range, LIMIT in *. change (2 ^ (64 - 1)) with (2 ^ 63). lia.
Qed.

Lemma write_file_loop_ok fuel : forall i diff rs,
  (i < length (m_nodes s))%nat -> 0 <= diff < b -> 0 < rs ->
  b * Z.of_nat i + diff + rs <= m_capacity s -> diff = 0 \/ b <= rs ->
  (length (m_nodes s) <= fuel + i)%nat ->
  write_file_loop fuel s (Some i) (b * Z.of_nat i + diff) rs
    = Ret (slice (b * Z.of_nat i + diff) rs (flat s)).
Proof.
  pose proof (wf_limit s W). pose proof (cap_eq s W). pose proof (wf_nodes s W) as Hn.
  induction fuel as [|fuel IH]; intros i diff rs Hi Hd Hrs Hfit Hok Hfuel; [lia|].
  destruct (deref_ok s W i Hi) as (nd & Hde & Hnd & _ & Hptr).
  destruct (file_step i diff rs) as [E1 E2]; auto; [nia|].
  cbn [write_file_loop]. rewrite gtb_true, Hde by lia.  rewrite E2, E1. cbn [obind fst snd].
  rewrite (proj2 (Z.ltb_ge diff 0)), (proj2 (Z.ltb_ge _ 0)), (proj2 (Z.ltb_ge _ _)) by lia.
  cbn [orb]. rewrite (flat_slice b (m_nodes s) i) by (auto; lia). fold (flat s).
  destruct (Z.le_gt_cases (b - diff) rs) as [Hge|Hlt].
  - replace (Z.min b rs) with b in * by lia.
    destruct (Z.eq_dec rs (b - diff)) as [->|Hne].
    + destruct fuel; cbn [write_file_loop]; rewrite gtb_false by lia; cbn [obind];
        rewrite app_nil_r; reflexivity.
    + assert (Hnext : (S i < length (m_nodes s))%nat) by nia.
      rewrite (next_some s i Hnext).
      replace (b * Z.of_nat i + diff + (b - diff)) with (b * Z.of_nat (S i) + 0) by lia.
      rewrite IH by lia. cbn [obind].
      replace (b * Z.of_nat (S i) + 0) with (b * Z.of_nat i + diff + (b - diff)) by lia.
      rewrite <- slice_app by lia. do 2 f_equal. lia.
  - assert (diff = 0) as -> by lia. replace (Z.min b rs - 0) with rs by lia.
    destruct fuel; cbn [write_file_loop]; rewrite gtb_false by lia; cbn [obind];
      rewrite app_nil_r; reflexivity.
Qed.

(** Less than a block, starting inside a block: the length comes out negative,
    at once or after the first piece, or the loop runs off the chain. *)
Lemma write_file_loop_bad fuel : forall cur pos rs,
  (forall i, cur = Some i -> (i < length (m_nodes s))%nat) ->
  0 <= pos -> 0 < pos mod b -> 0 < rs <= pos mod b -> pos + rs <= m_capacity s ->
  (S (length (m_nodes s)) <= fuel + from_option id (length (m_nodes s)) cur)%nat ->
  exists f, write_file_loop fuel s cur pos rs = Undef f.
Proof.
  pose proof (wf_limit s W). pose proof (cap_eq s W). pose proof (base_pos s W).
  induction fuel as [|fuel IH]; intros cur pos rs Hcur Hpos Hmod Hrs Hfit Hfuel.
  { destruct cur as [i|]; simpl in Hfuel; [pose proof (Hcur i eq_refl); unfold id in *|]; lia. }
  cbn [write_file_loop]. rewrite gtb_true by lia.
  destruct cur as [i|]; [|eauto]. simpl in Hfuel. unfold id in Hfuel.
  pose proof (Hcur i eq_refl) as Hi. pose proof (Z.mod_pos_bound pos b ltac:(lia)) as Hd.
  destruct (deref_ok s W i Hi) as (nd & Hde & Hnd & _ & Hptr).
  assert (Hq : pos = b * Z.of_nat (Z.to_nat (pos / b)) + pos mod b).
  { rewrite Z2Nat.id by (apply Z.div_pos; lia). apply Z.div_mod. lia. }
  assert (Hi' : (Z.to_nat (pos / b) < length (m_nodes s))%nat) by nia.
  destruct (file_step (Z.to_nat (pos / b)) (pos mod b) rs) as [E1 E2]; auto; [nia|].
  rewrite <- Hq in E1, E2. rewrite Hde, E2, E1. cbn [obind fst snd].
  replace (Z.min b rs) with rs by lia. rewrite (proj2 (Z.ltb_ge (pos mod b) 0)) by lia. cbn [orb].
  destruct (Z.ltb_spec (rs - pos mod b) 0) as [Hneg|Hz]; [simpl; eauto|].
  replace (rs - pos mod b) with 0 by lia. rewrite !Z.add_0_r, Z.sub_0_r.
  rewrite (proj2 (Z.ltb_ge _ _)) by lia. cbn [orb].
  destruct (IH (next_of s i) pos rs) as [f E]; auto.
  - unfold next_of. intros j. destruct (decide _); [|discriminate]. congruence.
  - unfold next_of. destruct (decide _); simpl; unfold id; lia.
  - rewrite E. simpl. eauto.
Qed.

Lemma write_file_loop_short i diff rs fuel :
  (i < length (m_nodes s))%nat -> 0 < diff < b -> 0 < rs < b ->
  b * Z.of_nat i + diff + rs <= m_capacity s -> (S (S (length (m_nodes s))) <= fuel)%nat ->
  exists f, write_file_loop fuel s (Some i) (b * Z.of_nat i + diff) rs = Undef f.
Proof.
  intros Hi Hd Hrs Hfit Hfuel. pose proof (cap_eq s W).
  assert (Hm : (b * Z.of_nat i + diff) mod b = diff)
    by (rewrite Z.mul_comm, Z.add_comm, Z.mod_add, Z.mod_small; lia).
  destruct (Z.le_gt_cases rs diff) as [Hle|Hgt].
  { apply write_file_loop_bad; rewrite ?Hm; try nia; congruence || (simpl; unfold id; lia). }
  destruct fuel as [|fuel]; [lia|]. cbn [write_file_loop]. rewrite gtb_true by lia.
  destruct (deref_ok s W i Hi) as (nd & Hde & Hnd & _ & Hptr).
  destruct (file_step i diff rs) as [E1 E2]; auto; [lia|nia|].
  rewrite Hde, E2, E1. cbn [obind fst snd]. replace (Z.min b rs) with rs by lia.
  rewrite (proj2 (Z.ltb_ge diff 0)), (proj2 (Z.ltb_ge _ 0)), (proj2 (Z.ltb_ge _ _)) by lia. cbn [orb].
  assert (Hm' : (b * Z.of_nat i + diff + (rs - diff)) mod b = rs).
  { replace (b * Z.of_nat i + diff + (rs - diff)) with (rs + Z.of_nat i * b) by lia.
    rewrite Z.mod_add, Z.mod_small; lia. }
  destruct (write_file_loop_bad fuel (next_of s i) (b * Z.of_nat i + diff + (rs - diff))
              (rs - (rs - diff))) as [f E]; rewrite ?Hm'; try nia;
    [unfold next_of; intros j; destruct (decide _); [congruence|discriminate]|].
  rewrite E. simpl. eauto.
Qed.
End file.

Lemma read_file_loop_ok junk fuel : forall rest s,
  WF s -> fits rest s -> (length rest < fuel)%nat ->
  exists s', read_file_loop junk fuel rest s = (s', Ret tt) /\ wrote rest s s'.
Proof.
  induction fuel as [|fuel IH]; intros rest s W F Hf; [lia|].
  pose proof (wf_base s W). cbn [read_file_loop]. rewrite cbind_get.
  set (chunk := take (Z.to_nat (m_baseSize s)) rest).
  assert (Hz : zlen chunk + zlen (drop (Z.to_nat (m_baseSize s)) rest) = zlen rest)
    by (rewrite <- zlen_app; unfold chunk; rewrite take_drop; reflexivity).
  pose proof (zlen_nonneg (drop (Z.to_nat (m_baseSize s)) rest)).
  destruct (put_ok junk chunk s W) as (s1 & Hrun & W1); [unfold fits in *; lia|].
  unfold put in Hrun. cstep Hrun. destruct (Z.ltb_spec (zlen chunk) (m_baseSize s)) as [Hlt|Hge].
  - exists s1. split; [reflexivity|]. replace rest with chunk; [assumption|].
    unfold chunk, zlen in *. rewrite length_take in Hlt. apply take_ge. lia.
  - destruct (wrote_fields _ _ _ W1) as (Hp & _).
    destruct (IH (drop (Z.to_nat (m_baseSize s)) rest) s1 (wr_wf _ _ _ W1)) as (s2 & Hrun2 & W2).
    + unfold fits in *. rewrite Hp, (wr_base _ _ _ W1). lia.
    + unfold zlen, chunk in *. rewrite length_drop. rewrite length_take in Hge. lia.
    + exists s2. split; [assumption|]. rewrite <- (take_drop (Z.to_nat (m_baseSize s)) rest).
      eapply wrote_app; eassumption.
Qed.

(** Decoding of the hexadecimal dump: blanks and newlines separate bytes. *)
Definition hex_val (c : Z) : Z := if c <? 58 then c - 48 else c - 87.

Fixpoint unhex (l : list Z) : list Z :=
  match l with
  | a :: r =>
      if (a =? 10) || (a =? 32) then unhex r
      else match r with c :: r' => (16 * hex_val a + hex_val c) :: unhex r' | [] => [] end
  | [] => []
  end.

Lemma hex_digit_ok d : 0 <= d < 16 -> 48 <= hex_digit d /\ hex_val (hex_digit d) = d.
Proof.
  intros Hd. unfold hex_digit, hex_val. destruct (Z.ltb_spec d 10).
  - rewrite (proj2 (Z.ltb_lt _ _)); lia.
  - rewrite (proj2 (Z.ltb_ge _ _)); lia.
Qed.

Lemma unhex_byte b r : is_byte b -> unhex (hex_byte b ++ r) = b :: unhex r.
Proof.
  unfold is_byte. intros Hb. simpl.
  pose proof (Z.mod_pos_bound b 16 ltac:(lia)) as Hm.
  pose proof (Z.div_mod b 16 ltac:(lia)) as E.
  assert (Hq : 0 <= b / 16 < 16) by (split; [apply Z.div_pos; lia|apply Z.div_lt_upper_bound; lia]).
  destruct (hex_digit_ok _ Hq) as [H1 H2], (hex_digit_ok _ Hm) as [H3 H4].
  rewrite (proj2 (Z.eqb_neq _ 10)), (proj2 (Z.eqb_neq _ 32)) by lia. cbn [orb].
  rewrite H2, H4. f_equal. lia.
Qed.

Lemma unhex_loop str : forall i, Forall is_byte str -> unhex (hex_loop i str) = str.
Proof.
  induction str as [|b str IH]; intros i Hs; [reflexivity|].
  inversion Hs as [|? ? Hb Hs']; subst. cbn [hex_loop].
  assert (E : u8 b = b) by (apply uwrap_id; exact Hb). rewrite E.
  destruct ((i >? 0) && (i mod 32 =? 0)); cbn [app];
    [change (unhex (hex_byte b ++ hex_loop (i + 1) str) = b :: str)|];
    rewrite unhex_byte, IH by assumption; reflexivity.
Qed.

(** ** The properties *)

Ltac wf_closed :=
  constructor;
  lazymatch goal with
  | |- Forall _ _ => repeat constructor
  | |- is_order _ => right; reflexivity
  | |- _ => vm_compute; try split; congruence
  end.

Lemma unread_contents s :
  WF s -> slice (m_position s) (m_size s - m_position s) (contents s)
          = drop (Z.to_nat (m_position s)) (contents s).
Proof.
  intros W. pose proof (wf_pos s W). pose proof (zlen_contents s W) as Hz.
  unfold slice. apply take_ge. rewrite length_drop. unfold zlen in Hz. lia.
Qed.

(** [toString] is the unread part of the contents, and [toHexString] loses
    nothing of it: decoding the pairs of digits gives the bytes back. *)
Theorem dump_roundtrip s :
  WF s -> Forall is_byte (contents s) ->
  toString s = Ret (drop (Z.to_nat (m_position s)) (contents s))
  /\ exists h, toHexString s = Ret h /\ unhex h = drop (Z.to_nat (m_position s)) (contents s).
Proof.
  intros W Hb. pose proof (wf_pos s W). pose proof (wf_size s W).
  unfold toHexString. rewrite (toString_ok s W), (unread_contents s W). split; [reflexivity|].
  eexists. split; [reflexivity|]. apply unhex_loop. apply Forall_drop. assumption.
Qed.

Definition view_buffer : ByteArray := Eval vm_compute in
  fst (setPosition 2 (fst (write (fun _ _ => 0) [65; 66; 200; 10; 32; 71; 72] 7
                             (ByteArray_new (fun _ _ => 0) 3)))).

Lemma dump_roundtrip_witness :
  toString view_buffer = Ret [200; 10; 32; 71; 72]
  /\ exists h, toHexString view_buffer = Ret h /\ unhex h = [200; 10; 32; 71; 72].
Proof.
  apply (dump_roundtrip view_buffer); [wf_closed|].
  vm_compute. repeat constructor; congruence.
Defined.

(** The vector [getReadBuffers] fills gathers exactly the next [len] unread
    bytes (all of them when there are fewer), in order, and the value returned
    is the number of bytes it covers. *)
Theorem getReadBuffers_gathers len s :
  WF s -> 0 <= len ->
  let k := Z.min len (m_size s - m_position s) in
  exists l, getReadBuffers len s = Ret (l, k)
    /\ concat (map (iov_data s) l) = slice (m_position s) k (contents s)
    /\ foldr Z.add 0 (map iov_len l) = k.
Proof.
  intros W Hl k. pose proof (wf_pos s W). pose proof (wf_size s W).
  destruct (getReadBuffers_ok len s W Hl) as (l & Hrun & Hcov). exists l.
  split; [assumption|]. rewrite (covers_data s W _ _ _ Hcov).
  split; [unfold contents; rewrite slice_prefix by (unfold k; lia); reflexivity|].
  symmetry. exact (covers_total _ _ _ _ Hcov).
Qed.

Lemma getReadBuffers_gathers_witness :
  let k := Z.min 4 (m_size view_buffer - m_position view_buffer) in
  exists l, getReadBuffers 4 view_buffer = Ret (l, k)
    /\ concat (map (iov_data view_buffer) l)
       = slice (m_position view_buffer) k (contents view_buffer)
    /\ foldr Z.add 0 (map iov_len l) = k.
Proof. apply (getReadBuffers_gathers 4 view_buffer); [wf_closed|lia]. Defined.

(** Receiving into the buffers of [getWriteBuffers] and moving the
    position behind the [zlen d] bytes received amounts to a [write] of these
    bytes, for every short receive too. *)
Theorem receive_is_write junk len d s :
  WF s -> 0 < len -> zlen d <= len -> m_position s + len + m_baseSize s <= LIMIT ->
  exists s1 l s2, getWriteBuffers junk len s = (s1, Ret (l, len))
    /\ foldr Z.add 0 (map iov_len l) = len
    /\ setPosition (m_position s1 + zlen d) (set_nodes (scatter l d (m_nodes s1)) s1)
       = (s2, Ret tt)
    /\ WF s2 /\ abs s2 = buf_write d (abs s).
Proof.
  intros W Hl Hd Hlim.
  destruct (getWriteBuffers_ok junk len s W Hl Hlim) as (s1 & l & Hrun & W1 & Hcov & Ha & Hb & Hc).
  assert (Hp : m_position s1 = m_position s) by (unfold abs in Ha; congruence).
  destruct (scatter_write_ok s1 l len d W1 Hcov) as (s2 & Hset & W2 & Ha2 & _); try lia.
  exists s1, l, s2. split; [assumption|].
  split; [symmetry; exact (covers_total _ _ _ _ Hcov)|].
  split; [assumption|]. split; [assumption|]. rewrite Ha2, Ha. reflexivity.
Qed.

Lemma receive_is_write_witness :
  exists s1 l s2, getWriteBuffers (fun _ _ => 0) 6 view_buffer = (s1, Ret (l, 6))
    /\ foldr Z.add 0 (map iov_len l) = 6
    /\ setPosition (m_position s1 + zlen [1; 2; 3; 4])
         (set_nodes (scatter l [1; 2; 3; 4] (m_nodes s1)) s1) = (s2, Ret tt)
    /\ WF s2 /\ abs s2 = buf_write [1; 2; 3; 4] (abs view_buffer).
Proof.
  apply (receive_is_write (fun _ _ => 0) 6 [1; 2; 3; 4] view_buffer);
    [wf_closed|vm_compute; congruence..].
Defined.

(** [writeToFile] writes the unread bytes exactly when there are none, or
    the cursor is at the start of a block, or at least a whole block is unread;
    in every other state its length [min(read_size, m_baseSize) - diff] lets it
    run past the data, and it is undefined. *)
Theorem writeToFile_correct_iff s :
  WF s -> m_baseSize s < 2 ^ 31 ->
  let rs := m_size s - m_position s in
  let good := rs = 0 \/ m_position s mod m_baseSize s = 0 \/ m_baseSize s <= rs in
  (good -> writeToFile true s = Ret (true, drop (Z.to_nat (m_position s)) (contents s)))
  /\ (~ good -> exists f, writeToFile true s = Undef f).
Proof.
  intros W Hint rs good. pose proof (wf_pos s W). pose proof (wf_size s W).
  pose proof (wf_limit s W). pose proof (wf_base s W). pose proof (zlen_contents s W) as Hz.
  unfold writeToFile. cbn [negb]. rewrite (readsize_ok s W).
  rewrite !swrap_id by (lia || unfold s_range, LIMIT in *; change (2 ^ (64 - 1)) with (2 ^ 63); lia).
  rewrite (proj2 (Z.eqb_neq _ _)), andb_false_r by lia. fold rs.
  destruct (Z.eq_dec rs 0) as [E0|Hne].
  { split; [intros _|intros []; left; assumption]. rewrite E0. cbn [write_file_loop].
    rewrite gtb_false by lia. cbn [obind]. rewrite drop_ge; [reflexivity|unfold zlen in Hz; lia]. }
  destruct (cursor_ok s W ltac:(lia)) as (i & Hc & Hi & Hd & Hp & _). rewrite Hc.
  split; intros Hg.
  - rewrite Hp at 1. rewrite (write_file_loop_ok s W Hint) by (unfold good in Hg; lia).
    cbn [obind]. rewrite <- Hp, <- (unread_contents s W). unfold contents.
    rewrite slice_prefix by lia. reflexivity.
  - destruct (write_file_loop_short s W Hint i (m_position s mod m_baseSize s) rs
                (S (S (length (m_nodes s))))) as [f E]; auto; try (unfold good in Hg; lia).
    rewrite <- Hp in E. rewrite E. simpl. eauto.
Qed.

Lemma writeToFile_correct_iff_witness :
  writeToFile true view_buffer
    = Ret (true, drop (Z.to_nat (m_position view_buffer)) (contents view_buffer)).
Proof.
  apply (writeToFile_correct_iff view_buffer); [wf_closed|vm_compute; congruence|].
  right. right. vm_compute. congruence.
Defined.

(** [readFromFile] appends at the cursor what the file holds, whatever the
    length of the file is compared with the block size, and terminates. *)
Theorem readFromFile_is_write junk data s :
  WF s -> m_position s + zlen data + m_baseSize s <= LIMIT ->
  exists s', readFromFile junk (Some data) s = (s', Ret true)
    /\ WF s' /\ abs s' = buf_write data (abs s).
Proof.
  intros W F. unfold readFromFile.
  destruct (read_file_loop_ok junk (S (length data)) data s W F) as (s' & Hrun & Hw); [lia|].
  cstep Hrun. exists s'. destruct Hw. auto.
Qed.

Lemma readFromFile_is_write_witness :
  exists s', readFromFile (fun _ _ => 0) (Some [1; 2; 3; 4; 5; 6]) view_buffer = (s', Ret true)
    /\ WF s' /\ abs s' = buf_write [1; 2; 3; 4; 5; 6] (abs view_buffer).
Proof.
  apply (readFromFile_is_write (fun _ _ => 0) [1; 2; 3; 4; 5; 6] view_buffer);
    [wf_closed|vm_compute; congruence].
Defined.

(** The const [read] at a position starts in the block of the cursor, not
    in the block of the position: it returns the bytes at the position when
    both are in the same block, and in general those at the same offset of the
    cursor's block. *)
Theorem read_at_position size position s :
  WF s -> m_position s < m_capacity s -> 0 < size -> 0 <= position ->
  position + size <= m_size s ->
  let start := m_baseSize s * (m_position s / m_baseSize s) + position mod m_baseSize s in
  (position / m_baseSize s = m_position s / m_baseSize s ->
   read_at size position s = Ret (slice position size (contents s)))
  /\ (start + size <= m_capacity s -> read_at size position s = Ret (slice start size (flat s))).
Proof.
  intros W Hc Hs Hp Hle start. split.
  - intros Hq. pose proof (wf_base s W). pose proof (wf_size s W).
    assert (E : start = position) by (unfold start; rewrite <- Hq; symmetry; apply Z.div_mod; lia).
    unfold contents. rewrite slice_prefix by lia. rewrite <- E at 2.
    apply read_at_ok; auto. fold start. lia.
  - intros Hf. apply read_at_ok; auto.
Qed.

Definition view_buffer_4 : ByteArray := Eval vm_compute in fst (setPosition 4 view_buffer).

Lemma read_at_position_witness :
  let b := view_buffer_4 in
  read_at 2 0 b
    = Ret (slice (m_baseSize b * (m_position b / m_baseSize b) + 0 mod m_baseSize b) 2 (flat b))
  /\ slice 0 2 (contents b) = [65; 66] /\ read_at 2 0 b = Ret [10; 32].
Proof.
  split; [|split; vm_compute; reflexivity].
  apply (read_at_position 2 0 view_buffer_4); [wf_closed|vm_compute; congruence..].
Defined.
