(* ===== verification/Timer.v ===== *)
(** * Timers (sylar/timer.h, sylar/timer.cpp)

    Timer objects live in a heap addressed by integers, because the comparator
    of [m_timers] breaks ties by address and because [cancel], [refresh] and
    [reset] mutate an object that the set shares with its owner.  [m_timers] is
    the in-order sequence of the [std::set] (Ordered.v).  The clock and the
    addresses the allocator hands out are arguments of the operations.  Every
    operation holds the write lock of the manager over its accesses to the set,
    so a run of the system is a sequence of operations.  [front_calls] counts
    the calls of the virtual [onTimerInsertedAtFront]. *)

From stdpp Require Import base gmap list sorting sets.
From Stdlib Require Import ZArith Lia.
From S2P Require Import Prelude Ordered.

Local Open Scope Z_scope.
Local Open Scope cpp_scope.

(** [std::function<void()>]: a plain function or the result of
    [std::bind(&OnTimer, weak_cond, cb)]; [None] is the empty function. *)
Inductive callback :=
  | Fun (id : nat)
  | OnTimer (weak_cond : nat) (cb : option callback).

(** What a call runs, when [alive] says which conditions still exist; [None]
    is the [bad_function_call] of an empty function. *)
Fixpoint call (alive : nat -> bool) (cb : callback) : option (list nat) :=
  match cb with
  | Fun id => Some [id]
  | OnTimer w cb' =>
      if alive w then match cb' with Some c => call alive c | None => None end else Some []
  end.

Record Timer := mkTimer {
  m_recurring : bool;
  m_ms : Z;
  m_next : Z;
  m_cb : option callback
}.

Record TimerManager := mkManager {
  heap : gmap Z Timer;
  m_timers : list Z;
  m_trickled : bool;
  m_previouseTime : Z;
  front_calls : nat
}.

Definition set_heap h s := mkManager h (m_timers s) (m_trickled s) (m_previouseTime s) (front_calls s).
Definition set_timers l s := mkManager (heap s) l (m_trickled s) (m_previouseTime s) (front_calls s).
Definition set_trickled b s := mkManager (heap s) (m_timers s) b (m_previouseTime s) (front_calls s).
Definition set_previous t s := mkManager (heap s) (m_timers s) (m_trickled s) t (front_calls s).
Definition inserted_at_front s :=
  mkManager (heap s) (m_timers s) (m_trickled s) (m_previouseTime s) (S (front_calls s)).

Definition set_next n t := mkTimer (m_recurring t) (m_ms t) n (m_cb t).
Definition set_period ms t := mkTimer (m_recurring t) ms (m_next t) (m_cb t).
Definition drop_cb t := mkTimer (m_recurring t) (m_ms t) (m_next t) None.

(** The two constructors. *)
Definition Timer_new (now ms : Z) (cb : option callback) (recurring : bool) : Timer :=
  mkTimer recurring ms (u64 (now + ms)) cb.
Definition Timer_at (next : Z) : Timer := mkTimer false 0 next None.

(** [Timer::Comparator]; a pointer is [None] or the address with its object. *)
Definition Comparator (lhs rhs : option (Z * Timer)) : bool :=
  match lhs, rhs with
  | None, None => false
  | None, Some _ => true
  | Some _, None => false
  | Some (a, x), Some (b, y) =>
      if m_next x <? m_next y then true
      else if m_next x >? m_next y then false
      else a <? b
  end.

Definition at_ (h : gmap Z Timer) (p : Z) : option (Z * Timer) := pair p <$> (h !! p).
Definition less (h : gmap Z Timer) (a b : Z) : bool := Comparator (at_ h a) (at_ h b).

Definition TimerManager_new (now : Z) : TimerManager := mkManager ∅ [] false now 0.

Definition object (p : Z) : M TimerManager Timer :=
  let! h := cget heap in
  match h !! p with Some t => cret t | None => cundef NullDeref end.

Definition store (p : Z) (t : Timer) : M TimerManager unit :=
  cmod (fun s => set_heap (<[p := t]> (heap s)) s).

(** [m_timers.insert(val)], [m_timers.find(val)] and [m_timers.erase(it)]. *)
Definition insert_timer (p : Z) : M TimerManager unit :=
  cmod (fun s => set_timers (set_insert (less (heap s)) p (m_timers s)) s).
Definition find_timer (p : Z) : M TimerManager (option nat) :=
  cget (fun s => set_find (less (heap s)) p (m_timers s)).
Definition erase_timer (it : option nat) : M TimerManager unit :=
  match it with
  | Some i => cmod (fun s => set_timers (delete i (m_timers s)) s)
  | None => cundef OutOfBounds
  end.

(** [TimerManager::addTimer(val, lock)]. *)
Definition addTimer_locked (p : Z) : M TimerManager unit :=
  insert_timer p ;;;
  let! at_front := cget (fun s =>
    (lower_bound (less (heap s)) p (m_timers s) =? 0)%nat && negb (m_trickled s)) in
  if at_front then cmod (set_trickled true) ;;; cmod inserted_at_front
  else cret tt.

Definition addTimer (now p ms : Z) (cb : option callback) (recurring : bool) : M TimerManager Z :=
  store p (Timer_new now ms cb recurring) ;;;
  addTimer_locked p ;;;
  cret p.

Definition addConditionTimer (now p ms : Z) (cb : option callback) (weak_cond : nat)
    (recuring : bool) : M TimerManager Z :=
  addTimer now p ms (Some (OnTimer weak_cond cb)) recuring.

Definition cancel (p : Z) : M TimerManager bool :=
  let! t := object p in
  match m_cb t with
  | Some _ =>
      store p (drop_cb t) ;;;
      let! it := find_timer p in
      erase_timer it ;;;
      cret true
  | None => cret false
  end.

Definition refresh (now p : Z) : M TimerManager bool :=
  let! t := object p in
  match m_cb t with
  | None => cret false
  | Some _ =>
      let! it := find_timer p in
      match it with
      | None => cret false
      | Some _ =>
          erase_timer it ;;;
          store p (set_next (u64 (now + m_ms t)) t) ;;;
          insert_timer p ;;;
          cret true
      end
  end.

Definition reset (now p ms : Z) (from_now : bool) : M TimerManager bool :=
  let! t := object p in
  if (ms =? m_ms t) && negb from_now then cret true
  else
    match m_cb t with
    | None => cret false
    | Some _ =>
        let! it := find_timer p in
        match it with
        | None => cret false
        | Some _ =>
            erase_timer it ;;;
            let start := if from_now then now else u64 (m_next t - m_ms t) in
            store p (set_next (u64 (start + ms)) (set_period ms t)) ;;;
            addTimer_locked p ;;;
            cret true
        end
    end.

Definition getNextTimer (now_ms : Z) : M TimerManager Z :=
  cmod (set_trickled false) ;;;
  let! l := cget m_timers in
  match l with
  | [] => cret (2 ^ 64 - 1)
  | p :: _ =>
      let! next := object p in
      if now_ms >=? m_next next then cret 0 else cret (u64 (m_next next - now_ms))
  end.

Definition hasTimer : M TimerManager bool :=
  let! l := cget m_timers in cret (negb (bool_decide (l = []))).

Definition detectClockRollover (now_ms : Z) : M TimerManager bool :=
  let! prev := cget m_previouseTime in
  cmod (set_previous now_ms) ;;;
  cret ((now_ms <? prev) && (now_ms <? u64 (prev - 60 * 60 * 1000))).

(** [while (it != end() && ( *it)->m_next == now_ms) ++it], as the number of
    steps. *)
Fixpoint run_eq (h : gmap Z Timer) (now_ms : Z) (l : list Z) : nat :=
  match l with
  | p :: l' =>
      if bool_decide (m_next <$> h !! p = Some now_ms) then S (run_eq h now_ms l') else O
  | [] => O
  end.

(** The first half of [listExpiredCb]: which timers have expired; they leave
    the set.  [q] is the address of [now_timer]. *)
Definition take_expired (now_ms q : Z) : M TimerManager (list Z) :=
  let! l := cget m_timers in
  match l with
  | [] => cret []
  | p :: _ =>
      let! rollower := detectClockRollover now_ms in
      let! first := object p in
      if negb rollower && (m_next first >? now_ms) then cret []
      else
        let! h := cget heap in
        let it := if rollower then length l
                  else lower_bound (less (<[q := Timer_at now_ms]> h)) q l in
        let it := (it + run_eq h now_ms (drop it l))%nat in
        cmod (set_timers (drop it l)) ;;;
        cret (take it l)
  end.

(** The second half: the loop over [expired]. *)
Fixpoint expire_loop (now_ms : Z) (expired : list Z) : M TimerManager (list (option callback)) :=
  match expired with
  | [] => cret []
  | p :: rest =>
      let! t := object p in
      (if m_recurring t then
         store p (set_next (u64 (now_ms + m_ms t)) t) ;;; insert_timer p
       else store p (drop_cb t)) ;;;
      let! cbs := expire_loop now_ms rest in
      cret (m_cb t :: cbs)
  end.

Definition listExpiredCb (now_ms q : Z) : M TimerManager (list (option callback)) :=
  let! expired := take_expired now_ms q in
  expire_loop now_ms expired.

(** ** The comparator *)

(** The comparator sees an object only through its deadline. *)
Definition deadline (h : gmap Z Timer) (p : Z) : option Z := m_next <$> h !! p.

Lemma less_deadline h a b :
  less h a b = match deadline h a, deadline h b with
               | None, None => false
               | None, Some _ => true
               | Some _, None => false
               | Some x, Some y => (x <? y) || ((x =? y) && (a <? b))
               end.
Proof.
  unfold less, at_, deadline. destruct (h !! a) as [x|], (h !! b) as [y|]; simpl; try reflexivity.
  rewrite Z.gtb_ltb.
  destruct (Z.ltb_spec (m_next x) (m_next y)), (Z.ltb_spec (m_next y) (m_next x)),
    (Z.eqb_spec (m_next x) (m_next y)); simpl; reflexivity || lia.
Qed.

#[export] Instance less_strict_weak h : StrictWeak (less h).
Proof.
  assert (L : forall x y a b : Z, (x <? y) || ((x =? y) && (a <? b)) = true
              <-> x < y \/ x = y /\ a < b).
  { intros. rewrite orb_true_iff, andb_true_iff, !Z.ltb_lt, Z.eqb_eq. reflexivity. }
  constructor; intros; rewrite ?less_deadline in *.
  - destruct (deadline h a); [|reflexivity]. apply not_true_is_false. rewrite L. lia.
  - destruct (deadline h a), (deadline h b), (deadline h c); try congruence; rewrite L in *; lia.
  - destruct (deadline h a), (deadline h b), (deadline h c); try (congruence || tauto);
      rewrite ?L in *; lia.
Qed.

Lemma less_ext h h' a b :
  deadline h a = deadline h' a -> deadline h b = deadline h' b -> less h a b = less h' a b.
Proof. intros Ha Hb. rewrite !less_deadline, Ha, Hb. reflexivity. Qed.

Lemma same_key_eq h a b : is_Some (h !! a) -> same_key (less h) a b -> a = b.
Proof.
  intros [t Ht] [H1 H2]. rewrite less_deadline in H1, H2.
  unfold deadline in *. rewrite Ht in *. simpl in *.
  destruct (h !! b) as [u|]; simpl in *; [|congruence].
  rewrite orb_false_iff, andb_false_iff, !Z.ltb_ge, Z.eqb_neq in *. lia.
Qed.

Lemma sorted_ext h h' l :
  (forall p, p ∈ l -> deadline h p = deadline h' p) -> sorted (less h) l -> sorted (less h') l.
Proof.
  induction l as [|a l IH]; intros He Hs; [constructor|].
  destruct (sorted_cons_inv _ _ _ Hs) as [Hl Ha].
  apply sorted_cons; [apply IH; set_solver|].
  intros y Hy. rewrite <- (less_ext h h') by (apply He; set_solver). auto.
Qed.

Lemma deadline_insert_ne h p t q : q <> p -> deadline (<[p := t]> h) q = deadline h q.
Proof. intros. unfold deadline. rewrite lookup_insert_ne by congruence. reflexivity. Qed.

(** ** The invariant *)

(** The set is sorted, its members are live objects, and a timer with a
    callback is in the set, the timers [X] on their way out of it excepted. *)
Record TInvX (X : list Z) (s : TimerManager) : Prop := {
  ti_sorted : sorted (less (heap s)) (m_timers s);
  ti_heap : forall p, p ∈ m_timers s -> is_Some (heap s !! p);
  ti_cb : forall p t, heap s !! p = Some t -> m_cb t <> None -> p ∈ m_timers s \/ p ∈ X
}.

Abbreviation TInv := (TInvX []).

(** The parts of the state the set operations leave alone. *)
Definition same_rest (s s' : TimerManager) : Prop :=
  m_trickled s' = m_trickled s /\ m_previouseTime s' = m_previouseTime s
  /\ front_calls s' = front_calls s.

(** [s'] is [s] with the object at [p] replaced, in the set or not. *)
Record touched (p : Z) (t : Timer) (member : bool) (s s' : TimerManager) : Prop := {
  to_heap : heap s' = <[p := t]> (heap s);
  to_elem q : q ∈ m_timers s' <-> (if decide (q = p) then member = true else q ∈ m_timers s)
}.

Lemma TInv_weaken X Y s : (forall p, p ∈ X -> p ∈ Y) -> TInvX X s -> TInvX Y s.
Proof.
  intros H [H1 H2 H3]. constructor; auto. intros p t Hp Hc.
  destruct (H3 p t Hp Hc); auto.
Qed.

Lemma object_run p s t : heap s !! p = Some t -> object p s = (s, Ret t).
Proof. intros H. unfold object. rewrite cbind_get, H. reflexivity. Qed.

Lemma find_in s X p :
  TInvX X s -> p ∈ m_timers s ->
  exists i, set_find (less (heap s)) p (m_timers s) = Some i /\ m_timers s !! i = Some p.
Proof.
  intros I Hp. apply (set_find_complete _ p _ p (ti_sorted _ _ I) Hp).
  apply same_key_refl; exact _.
Qed.

Lemma find_out s X p :
  TInvX X s -> is_Some (heap s !! p) -> p ∉ m_timers s ->
  set_find (less (heap s)) p (m_timers s) = None.
Proof.
  intros I Hp Hn. destruct (set_find _ _ _) as [i|] eqn:E; [|reflexivity].
  destruct (set_find_some _ _ _ _ (ti_sorted _ _ I) E) as (y & Hy & Hk).
  apply same_key_eq in Hk as ->; [|assumption]. destruct Hn. eapply list_elem_of_lookup_2. eauto.
Qed.

Lemma elem_delete s X i p q :
  TInvX X s -> m_timers s !! i = Some p ->
  q ∈ delete i (m_timers s) <-> q ∈ m_timers s /\ q <> p.
Proof.
  intros I Hi. pose proof (sorted_nodup _ _ (ti_sorted _ _ I)) as Hnd.
  rewrite (delete_Permutation _ _ _ Hi) in Hnd. apply NoDup_cons in Hnd as [Hp _].
  rewrite (delete_Permutation _ _ _ Hi) at 2. set_solver.
Qed.

(** Erasing a member. *)
Lemma erase_ok s X i p :
  TInvX X s -> m_timers s !! i = Some p ->
  let s' := set_timers (delete i (m_timers s)) s in
  TInvX (p :: X) s' /\ (p ∉ m_timers s')
  /\ (forall q, q ∈ m_timers s' <-> q ∈ m_timers s /\ q <> p).
Proof.
  intros I Hi s'. pose proof (fun q => elem_delete s X i p q I Hi) as He.
  split; [|split; [simpl; rewrite He; tauto|exact He]].
  constructor; simpl.
  - apply sorted_delete, I.
  - intros q Hq. apply He in Hq as [Hq _]. apply (ti_heap _ _ I _ Hq).
  - intros q t Hq Hc. destruct (ti_cb _ _ I q t Hq Hc); [|set_solver].
    destruct (decide (q = p)) as [->|Hne]; [set_solver|]. left. apply He. auto.
Qed.

(** Writing an object that is not in the set, and inserting it or not. *)
Lemma timer_put_ok s X p t :
  TInvX (p :: X) s -> p ∉ m_timers s ->
  let s1 := set_heap (<[p := t]> (heap s)) s in
  let s2 := set_timers (set_insert (less (heap s1)) p (m_timers s1)) s1 in
  TInvX X s2 /\ touched p t true s s2.
Proof.
  intros I Hp s1 s2.
  assert (Hs : sorted (less (<[p := t]> (heap s))) (m_timers s)).
  { apply (sorted_ext (heap s)); [|apply I]. intros q Hq.
    rewrite deadline_insert_ne by set_solver. reflexivity. }
  assert (Hperm : set_insert (less (<[p := t]> (heap s))) p (m_timers s) ≡ₚ p :: m_timers s).
  { apply set_insert_perm; [exact _|]. intros y Hy Hk. apply same_key_eq in Hk as ->; [contradiction|].
    rewrite lookup_insert_eq. eauto. }
  split; constructor; simpl.
  - apply set_insert_sorted; [exact _|assumption].
  - intros q. rewrite Hperm. intros Hq. destruct (decide (q = p)) as [->|Hne].
    + rewrite lookup_insert_eq. eauto.
    + rewrite lookup_insert_ne by congruence. apply (ti_heap _ _ I). set_solver.
  - intros q u Hq Hc. rewrite Hperm. destruct (decide (q = p)) as [->|Hne]; [set_solver|].
    rewrite lookup_insert_ne in Hq by congruence. destruct (ti_cb _ _ I q u Hq Hc); set_solver.
  - reflexivity.
  - intros q. rewrite Hperm. destruct (decide (q = p)); set_solver.
Qed.

Lemma kill_ok s X p t :
  TInvX (p :: X) s -> p ∉ m_timers s -> m_cb t = None ->
  let s1 := set_heap (<[p := t]> (heap s)) s in
  TInvX X s1 /\ touched p t false s s1.
Proof.
  intros I Hp Ht s1. split; constructor; simpl.
  - apply (sorted_ext (heap s)); [|apply I]. intros q Hq.
    rewrite deadline_insert_ne by set_solver. reflexivity.
  - intros q Hq. rewrite lookup_insert_ne by set_solver. apply (ti_heap _ _ I _ Hq).
  - intros q u Hq Hc. destruct (decide (q = p)) as [->|Hne].
    + rewrite lookup_insert_eq in Hq. congruence.
    + rewrite lookup_insert_ne in Hq by congruence. destruct (ti_cb _ _ I q u Hq Hc); set_solver.
  - reflexivity.
  - intros q. destruct (decide (q = p)) as [->|]; [|reflexivity]. split; [tauto|discriminate].
Qed.

(** ** The operations on one timer *)

Lemma addTimer_locked_run p s :
  let s1 := set_timers (set_insert (less (heap s)) p (m_timers s)) s in
  let front := (lower_bound (less (heap s1)) p (m_timers s1) =? 0)%nat && negb (m_trickled s) in
  addTimer_locked p s
    = ((if front then inserted_at_front (set_trickled true s1) else s1), Ret tt).
Proof.
  intros s1 front. unfold addTimer_locked, insert_timer. rewrite cbind_mod, cbind_get.
  fold s1. change (m_trickled s1) with (m_trickled s). fold front. destruct front; reflexivity.
Qed.

(** [addTimer(val, lock)] of an object outside the set, just written: the
    callback for the earliest timer runs when the object comes first and the
    flag is down. *)
Lemma add_locked_ok s X p t :
  TInvX (p :: X) s -> p ∉ m_timers s ->
  exists s', addTimer_locked p (set_heap (<[p := t]> (heap s)) s) = (s', Ret tt)
    /\ TInvX X s' /\ touched p t true s s' /\ m_previouseTime s' = m_previouseTime s
    /\ (if decide (head (m_timers s') = Some p /\ m_trickled s = false)
        then m_trickled s' = true /\ front_calls s' = S (front_calls s)
        else m_trickled s' = m_trickled s /\ front_calls s' = front_calls s).
Proof.
  intros I Hp. rewrite addTimer_locked_run.
  destruct (timer_put_ok s X p t I Hp) as [I2 T2].
  set (s1 := set_heap (<[p := t]> (heap s)) s) in *.
  set (s2 := set_timers (set_insert (less (heap s1)) p (m_timers s1)) s1) in *.
  assert (Hin : p ∈ m_timers s2) by (apply (to_elem _ _ _ _ _ T2); rewrite decide_True; auto).
  assert (Hhd : (lower_bound (less (heap s2)) p (m_timers s2) =? 0)%nat = true
                <-> head (m_timers s2) = Some p).
  { rewrite Nat.eqb_eq. destruct (find_in s2 X p I2 Hin) as (i & Hf & Hi).
    unfold set_find in Hf. destruct (m_timers s2) as [|y r] eqn:Hl; [simpl in Hi; discriminate|].
    rewrite <- Hl in *. split.
    - intros E. rewrite E in Hf. rewrite Hl in Hf at 1. simpl in Hf.
      destruct (less _ p y); [discriminate|]. injection Hf as <-.
      rewrite Hl in Hi |- *. exact Hi.
    - intros E. rewrite Hl in E |- *. simpl in E. injection E as ->. simpl.
      rewrite (sw_irrefl (lt := less (heap s2))). reflexivity. }
  eexists. split; [reflexivity|]. change (m_trickled s1) with (m_trickled s).
  destruct (m_trickled s) eqn:Htr; [rewrite andb_false_r|rewrite andb_true_r];
    [|destruct (lower_bound _ _ _ =? 0)%nat eqn:Hb].
  - split; [assumption|]. split; [assumption|]. split; [reflexivity|].
    rewrite decide_False by intuition discriminate. split; [exact Htr|reflexivity].
  - split; [destruct I2; constructor; assumption|]. split; [destruct T2; constructor; assumption|].
    split; [reflexivity|]. rewrite decide_True by (split; [apply Hhd; reflexivity|reflexivity]).
    split; reflexivity.
  - split; [assumption|]. split; [assumption|]. split; [reflexivity|].
    rewrite decide_False by (intros [Hh _]; apply Hhd in Hh; discriminate).
    split; [exact Htr|reflexivity].
Qed.

Lemma fresh_out s p : TInv s -> heap s !! p = None -> (p ∉ m_timers s) /\ TInvX [p] s.
Proof.
  intros I Hp. split; [|apply (TInv_weaken []); [set_solver|assumption]].
  intros Hin. destruct (ti_heap _ _ I p Hin). congruence.
Qed.

(** What the four operations do to the manager: the object they replace. *)
Definition front_rule (p : Z) (s s' : TimerManager) : Prop :=
  m_previouseTime s' = m_previouseTime s /\
  (if decide (head (m_timers s') = Some p /\ m_trickled s = false)
   then m_trickled s' = true /\ front_calls s' = S (front_calls s)
   else m_trickled s' = m_trickled s /\ front_calls s' = front_calls s).

Lemma addTimer_ok now p ms cb recurring s :
  TInv s -> heap s !! p = None ->
  exists s', addTimer now p ms cb recurring s = (s', Ret p) /\ TInv s'
    /\ touched p (Timer_new now ms cb recurring) true s s' /\ front_rule p s s'.
Proof.
  intros I Hp. destruct (fresh_out s p I Hp) as [Hout I1].
  destruct (add_locked_ok s [] p (Timer_new now ms cb recurring) I1 Hout)
    as (s' & Hrun & I' & T & Hprev & Hfront).
  exists s'. unfold addTimer, store. rewrite cbind_mod. cstep Hrun.
  split; [reflexivity|]. split; [assumption|]. split; [assumption|]. split; assumption.
Qed.

Lemma timer_cancel_ok p t s :
  TInv s -> heap s !! p = Some t ->
  match m_cb t with
  | None => cancel p s = (s, Ret false)
  | Some _ => exists s', cancel p s = (s', Ret true) /\ TInv s'
      /\ touched p (drop_cb t) false s s' /\ same_rest s s'
  end.
Proof.
  intros I Hp. unfold cancel. cstep (object_run p s t Hp).
  destruct (m_cb t) as [c|] eqn:Hc; [|reflexivity].
  destruct (ti_cb _ _ I p t Hp ltac:(congruence)) as [Hin|]; [|set_solver].
  unfold store. rewrite cbind_mod. unfold find_timer. rewrite cbind_get.
  destruct (find_in s [] p I Hin) as (i & Hf & Hi).
  assert (Hs : forall a b, less (<[p := drop_cb t]> (heap s)) a b = less (heap s) a b).
  { intros a b. apply less_ext; unfold deadline;
      [destruct (decide (a = p)) as [->|]|destruct (decide (b = p)) as [->|]];
      rewrite ?lookup_insert_eq, ?lookup_insert_ne by congruence; rewrite ?Hp; reflexivity. }
  destruct (erase_ok s [] i p I Hi) as (I1 & Hn & He).
  destruct (kill_ok _ [] p (drop_cb t) I1 Hn eq_refl) as [I2 T2].
  exists (set_timers (delete i (m_timers s)) (set_heap (<[p := drop_cb t]> (heap s)) s)).
  split; [|split; [|split]].
  - change (heap (set_heap ?h ?s)) with h. change (m_timers (set_heap ?h ?s)) with (m_timers s).
    rewrite (set_find_ext _ _ p (m_timers s) Hs), Hf. reflexivity.
  - destruct I2. constructor; assumption.
  - constructor; [reflexivity|]. intros q. simpl. rewrite (elem_delete s [] i p q I Hi).
    destruct (decide (q = p)); [split; [tauto|discriminate]|tauto].
  - repeat split.
Qed.

(** [find] and [erase] of a member, as [refresh] and [reset] do it. *)
Lemma unlink_ok p t s :
  TInv s -> heap s !! p = Some t -> m_cb t <> None ->
  exists i, set_find (less (heap s)) p (m_timers s) = Some i
    /\ let s1 := set_timers (delete i (m_timers s)) s in
       TInvX [p] s1 /\ (p ∉ m_timers s1)
       /\ (forall u b s', touched p u b s1 s' -> touched p u b s s').
Proof.
  intros I Hp Hc. destruct (ti_cb _ _ I p t Hp Hc) as [Hin|]; [|set_solver].
  destruct (find_in s [] p I Hin) as (i & Hf & Hi). exists i. split; [assumption|].
  destruct (erase_ok s [] i p I Hi) as (I1 & Hn & He).
  split; [assumption|]. split; [assumption|].
  intros u b s' [Hh Hq]. constructor; [exact Hh|]. intros q. rewrite Hq.
  destruct (decide (q = p)); [tauto|]. rewrite He. tauto.
Qed.

Lemma refresh_ok now p t s :
  TInv s -> heap s !! p = Some t ->
  match m_cb t with
  | None => refresh now p s = (s, Ret false)
  | Some _ => exists s', refresh now p s = (s', Ret true) /\ TInv s'
      /\ touched p (set_next (u64 (now + m_ms t)) t) true s s' /\ same_rest s s'
  end.
Proof.
  intros I Hp. unfold refresh. cstep (object_run p s t Hp).
  destruct (m_cb t) as [c|] eqn:Hc; [|reflexivity].
  destruct (unlink_ok p t s I Hp ltac:(congruence)) as (i & Hf & I1 & Hn & Hlift).
  unfold find_timer. rewrite cbind_get, Hf. unfold erase_timer, store, insert_timer.
  rewrite !cbind_mod.
  destruct (timer_put_ok _ [] p (set_next (u64 (now + m_ms t)) t) I1 Hn) as [I2 T2].
  eexists. split; [reflexivity|]. split; [exact I2|]. split; [apply Hlift; exact T2|].
  repeat split.
Qed.

Definition reset_to (now ms : Z) (from_now : bool) (t : Timer) : Timer :=
  set_next (u64 ((if from_now then now else u64 (m_next t - m_ms t)) + ms)) (set_period ms t).

Lemma timer_reset_ok now p ms from_now t s :
  TInv s -> heap s !! p = Some t ->
  if (ms =? m_ms t) && negb from_now then reset now p ms from_now s = (s, Ret true)
  else match m_cb t with
  | None => reset now p ms from_now s = (s, Ret false)
  | Some _ => exists s', reset now p ms from_now s = (s', Ret true) /\ TInv s'
      /\ touched p (reset_to now ms from_now t) true s s' /\ front_rule p s s'
  end.
Proof.
  intros I Hp. unfold reset. cstep (object_run p s t Hp).
  destruct ((ms =? m_ms t) && negb from_now); [reflexivity|].
  destruct (m_cb t) as [c|] eqn:Hc; [|reflexivity].
  destruct (unlink_ok p t s I Hp ltac:(congruence)) as (i & Hf & I1 & Hn & Hlift).
  unfold find_timer. rewrite cbind_get, Hf. unfold erase_timer, store. rewrite !cbind_mod.
  destruct (add_locked_ok _ [] p (reset_to now ms from_now t) I1 Hn)
    as (s' & Hrun & I' & T & Hprev & Hfront).
  exists s'. unfold reset_to in Hrun. cstep Hrun.
  split; [reflexivity|]. split; [assumption|]. split; [apply Hlift; exact T|].
  split; assumption.
Qed.

(** ** Expiry *)

(** [detectClockRollover]: the clock went back by more than an hour. *)
Definition rolled_over (now : Z) (s : TimerManager) : bool :=
  (now <? m_previouseTime s) && (now <? u64 (m_previouseTime s - 60 * 60 * 1000)).

Lemma run_eq_ok h now l :
  sorted (less h) l -> (forall p, p ∈ l -> exists d, deadline h p = Some d /\ now <= d) ->
  (forall p, p ∈ take (run_eq h now l) l -> deadline h p = Some now)
  /\ (forall p, p ∈ drop (run_eq h now l) l -> exists d, deadline h p = Some d /\ now < d).
Proof.
  induction l as [|a l IH]; intros Hs Hd; simpl; [set_solver|].
  destruct (sorted_cons_inv _ _ _ Hs) as [Hl Ha].
  change (m_next <$> h !! a) with (deadline h a).
  destruct (bool_decide_reflect (deadline h a = Some now)) as [E|Hne].
  - destruct (IH Hl) as [H1 H2]; [set_solver|]. split; [|exact H2].
    intros p Hp. simpl in Hp. apply elem_of_cons in Hp as [->|Hp]; auto.
  - split; [simpl; set_solver|]. simpl. intros p Hp.
    destruct (Hd a) as (da & Ea & Hda); [set_solver|].
    assert (now < da) by (destruct (Z.eq_dec now da); [congruence|lia]).
    apply elem_of_cons in Hp as [->|Hp]; [eauto|].
    destruct (Hd p) as (dp & Ep & _); [set_solver|]. exists dp. split; [assumption|].
    specialize (Ha p Hp). rewrite less_deadline, Ea, Ep in Ha.
    rewrite orb_true_iff, andb_true_iff, !Z.ltb_lt, Z.eqb_eq in Ha. lia.
Qed.

Lemma deadline_member X s p :
  TInvX X s -> p ∈ m_timers s -> exists d, deadline (heap s) p = Some d.
Proof.
  intros I Hp. destruct (ti_heap _ _ I p Hp) as [t Ht]. exists (m_next t).
  unfold deadline. rewrite Ht. reflexivity.
Qed.

(** The index [it] separates what is due from what is not, wherever the
    temporary [now_timer] is allocated. *)
Lemma cut_ok s now q :
  TInv s -> heap s !! q = None ->
  let l := m_timers s in
  let i0 := lower_bound (less (<[q := Timer_at now]> (heap s))) q l in
  let it := (i0 + run_eq (heap s) now (drop i0 l))%nat in
  (forall p, p ∈ take it l -> exists d, deadline (heap s) p = Some d /\ d <= now)
  /\ (forall p, p ∈ drop it l -> exists d, deadline (heap s) p = Some d /\ now < d).
Proof.
  intros I Hq l i0 it.
  set (h' := <[q := Timer_at now]> (heap s)) in *.
  assert (Hne : forall p, p ∈ l -> p <> q).
  { intros p Hp ->. destruct (ti_heap _ _ I q Hp). congruence. }
  assert (Hdl : forall p, p ∈ l -> deadline h' p = deadline (heap s) p).
  { intros p Hp. apply deadline_insert_ne. auto. }
  assert (Hdq : deadline h' q = Some now) by (unfold deadline, h'; rewrite lookup_insert_eq; reflexivity).
  assert (Hs' : sorted (less h') l)
    by (apply (sorted_ext (heap s)); [intros; symmetry; auto|apply I]).
  assert (Hsub : forall p, p ∈ take i0 l \/ p ∈ drop i0 l -> p ∈ l)
    by (intros p Hp; rewrite <- (take_drop i0 l); set_solver).
  destruct (run_eq_ok (heap s) now (drop i0 l)) as [H1 H2].
  - pose proof (ti_sorted _ _ I) as Hs. fold l in Hs. rewrite <- (take_drop i0 l) in Hs.
    destruct (sorted_app_inv _ _ _ Hs) as (_ & Hs2 & _). exact Hs2.
  - intros p Hp. destruct (deadline_member [] s p I) as [d Hd]; [apply Hsub; auto|].
    exists d. split; [assumption|]. pose proof (lower_bound_drop _ _ _ _ Hs' Hp) as Hlb.
    rewrite less_deadline, Hdq, Hdl, Hd in Hlb by auto.
    rewrite orb_false_iff, Z.ltb_ge in Hlb. lia.
  - split; intros p Hp.
    + unfold it in Hp. rewrite <- take_take_drop in Hp. apply elem_of_app in Hp as [Hp|Hp].
      * destruct (deadline_member [] s p I) as [d Hd]; [apply Hsub; auto|].
        exists d. split; [assumption|]. pose proof (lower_bound_take _ _ _ _ Hp) as Hlb.
        rewrite less_deadline, Hdq, Hdl, Hd in Hlb by auto.
        rewrite orb_true_iff, andb_true_iff, !Z.ltb_lt, Z.eqb_eq in Hlb. lia.
      * exists now. split; [auto|lia].
    + unfold it in Hp. rewrite <- drop_drop in Hp. auto.
Qed.

Record cut (now : Z) (s s1 : TimerManager) (expired : list Z) : Prop := {
  cut_list : m_timers s = expired ++ m_timers s1;
  cut_heap : heap s1 = heap s;
  cut_due p : p ∈ expired -> rolled_over now s = true
              \/ exists d, deadline (heap s) p = Some d /\ d <= now;
  cut_later p : p ∈ m_timers s1 -> rolled_over now s = false
                /\ exists d, deadline (heap s) p = Some d /\ now < d;
  cut_flags : m_trickled s1 = m_trickled s /\ front_calls s1 = front_calls s;
  cut_prev : m_previouseTime s1 = if decide (m_timers s = []) then m_previouseTime s else now
}.

Lemma take_expired_ok s now q :
  TInv s -> heap s !! q = None ->
  exists s1 expired, take_expired now q s = (s1, Ret expired) /\ cut now s s1 expired.
Proof.
  intros I Hq. unfold take_expired. rewrite cbind_get.
  destruct (m_timers s) as [|a r] eqn:Hl.
  { exists s, []. split; [reflexivity|]. constructor; rewrite ?Hl; auto; set_solver. }
  unfold detectClockRollover. unfold cbind at 1. unfold cbind, cget, cmod, cret at 1 2.
  fold (rolled_over now s). rewrite <- Hl.
  destruct (ti_heap _ _ I a) as [ta Hta]; [rewrite Hl; set_solver|].
  rewrite (object_run a (set_previous now s) ta Hta).
  destruct (rolled_over now s) eqn:Hroll; cbn [negb andb].
  - eexists _, _. split; [reflexivity|]. rewrite drop_all. simpl. rewrite Nat.add_0_r.
    rewrite drop_all, take_ge by lia.
    constructor; simpl; rewrite ?app_nil_r; auto; [set_solver|].
    rewrite decide_False; congruence.
  - assert (Hda : deadline (heap s) a = Some (m_next ta)) by (unfold deadline; rewrite Hta; reflexivity).
    rewrite Z.gtb_ltb. destruct (Z.ltb_spec now (m_next ta)) as [Hlt|Hge].
    + eexists _, _. split; [reflexivity|]. constructor; simpl; auto; [set_solver| |].
      * intros p Hp. split; [assumption|]. pose proof (ti_sorted _ _ I) as Hs. rewrite Hl in Hs, Hp.
        destruct (sorted_cons_inv _ _ _ Hs) as [_ Ha].
        apply elem_of_cons in Hp as [->|Hp]; [eauto|].
        destruct (deadline_member [] s p I) as [d Hd]; [rewrite Hl; set_solver|].
        exists d. split; [assumption|]. specialize (Ha p Hp).
        rewrite less_deadline, Hda, Hd in Ha.
        rewrite orb_true_iff, andb_true_iff, !Z.ltb_lt, Z.eqb_eq in Ha. lia.
      * rewrite decide_False; congruence.
    + destruct (cut_ok s now q I Hq) as [H1 H2].
      eexists _, _. split; [reflexivity|].
      constructor; simpl; auto; [rewrite take_drop; reflexivity|].
      rewrite decide_False; congruence.
Qed.

Definition fired (now : Z) (t : Timer) : Timer :=
  if m_recurring t then set_next (u64 (now + m_ms t)) t else drop_cb t.

Record expired_to (now : Z) (expired : list Z) (s s' : TimerManager) : Prop := {
  ex_inv : TInv s';
  ex_heap p : heap s' !! p = if decide (p ∈ expired) then fired now <$> heap s !! p else heap s !! p;
  ex_elem p : p ∈ m_timers s' <-> p ∈ m_timers s
              \/ p ∈ expired /\ exists t, heap s !! p = Some t /\ m_recurring t = true;
  ex_rest : same_rest s s'
}.

Lemma expire_loop_ok now expired : forall s,
  TInvX expired s -> NoDup expired ->
  (forall p, p ∈ expired -> is_Some (heap s !! p) /\ p ∉ m_timers s) ->
  exists s' cbs, expire_loop now expired s = (s', Ret cbs) /\ expired_to now expired s s'
    /\ map Some cbs = map (fun p => m_cb <$> heap s !! p) expired.
Proof.
  induction expired as [|p rest IH]; intros s I Hnd Hin.
  { exists s, []. split; [reflexivity|]. split; [|reflexivity].
    constructor; [assumption|set_solver|set_solver|repeat split]. }
  apply NoDup_cons in Hnd as [Hp Hnd].
  destruct (Hin p) as [[t Ht] Hout]; [set_solver|].
  cbn [expire_loop]. cstep (object_run p s t Ht).
  assert (Hstep : exists s1,
    (if m_recurring t then store p (set_next (u64 (now + m_ms t)) t) ;;; insert_timer p
     else store p (drop_cb t)) s = (s1, Ret tt)
    /\ TInvX rest s1 /\ touched p (fired now t) (m_recurring t) s s1 /\ same_rest s s1).
  { unfold fired. destruct (m_recurring t) eqn:Hr.
    - destruct (timer_put_ok s rest p (set_next (u64 (now + m_ms t)) t) I Hout) as [I1 T1].
      eexists. split; [reflexivity|]. split; [exact I1|]. split; [exact T1|repeat split].
    - destruct (kill_ok s rest p (drop_cb t) I Hout eq_refl) as [I1 T1].
      eexists. split; [reflexivity|]. split; [exact I1|]. split; [exact T1|repeat split]. }
  destruct Hstep as (s1 & Hrun & I1 & T1 & R1). cstep Hrun.
  assert (Hother : forall x, x <> p -> heap s1 !! x = heap s !! x).
  { intros x Hx. rewrite (to_heap _ _ _ _ _ T1), lookup_insert_ne; congruence. }
  destruct (IH s1 I1 Hnd) as (s2 & cbs & Hrun2 & X2 & Hcbs).
  { intros x Hx. assert (x <> p) by set_solver. rewrite Hother by assumption.
    destruct (Hin x) as [H1 H2]; [set_solver|]. split; [assumption|].
    rewrite (to_elem _ _ _ _ _ T1), decide_False by assumption. assumption. }
  cstep Hrun2. exists s2, (m_cb t :: cbs). split; [reflexivity|]. split.
  - constructor.
    + apply X2.
    + intros x. rewrite (ex_heap _ _ _ _ X2). destruct (decide (x = p)) as [->|Hne].
      * rewrite decide_False, (decide_True (P := p ∈ p :: rest)) by set_solver.
        rewrite (to_heap _ _ _ _ _ T1), lookup_insert_eq, Ht. reflexivity.
      * rewrite Hother by assumption.
        destruct (decide (x ∈ rest)); [rewrite decide_True|rewrite decide_False]; set_solver.
    + intros x. rewrite (ex_elem _ _ _ _ X2), (to_elem _ _ _ _ _ T1).
      destruct (decide (x = p)) as [->|Hne].
      * split; [intros [Hr|[? _]]; [right|contradiction]|intros [?|[_ (u & Hu & Hr)]]; [contradiction|]].
        -- split; [set_solver|eauto].
        -- left. congruence.
      * rewrite Hother by assumption. set_solver.
    + destruct R1 as (? & ? & ?), (ex_rest _ _ _ _ X2) as (? & ? & ?). repeat split; congruence.
  - simpl. rewrite Hcbs, Ht. simpl. f_equal. apply map_ext_in.
    intros x Hx. apply list_elem_of_In in Hx. rewrite Hother; [reflexivity|]. set_solver.
Qed.
