(* ===== verification/TimerSpec.v ===== *)
(** * What the timers promise (sylar/timer.cpp)

    Runs of the timer manager are sequences of its operations, called by any
    threads in any order; [exec] runs one and reports it as an event.  The
    theorems: no operation is ever undefined; [listExpiredCb] hands out exactly
    what is due, in order; [getNextTimer] is the time to the earliest deadline;
    a cancelled timer never fires, a one-shot timer fires at most once; and an
    earlier deadline is never added without waking the waiting thread. *)

From stdpp Require Import base gmap list sorting sets.
From Stdlib Require Import ZArith Lia.
From S2P Require Import Prelude Ordered Timer.

Local Open Scope Z_scope.
Local Open Scope cpp_scope.

Inductive op :=
  | OAdd (now p ms : Z) (cb : option callback) (recurring : bool)
  | OAddCond (now p ms : Z) (cb : option callback) (weak : nat) (recurring : bool)
  | OCancel (p : Z)
  | ORefresh (now p : Z)
  | OReset (now p ms : Z) (from_now : bool)
  | ONext (now : Z)
  | OExpire (now q : Z).

Inductive event :=
  | EAdded (p : Z)
  | ECancelled (p : Z) (r : bool)
  | ERefreshed (p : Z) (r : bool)
  | EReset (p : Z) (r : bool)
  | ENext (v : Z)
  | EExpired (ps : list Z) (cbs : list (option callback)).

Definition exec (o : op) : M TimerManager event :=
  match o with
  | OAdd now p ms cb rec => let! p' := addTimer now p ms cb rec in cret (EAdded p')
  | OAddCond now p ms cb w rec =>
      let! p' := addConditionTimer now p ms cb w rec in cret (EAdded p')
  | OCancel p => let! r := cancel p in cret (ECancelled p r)
  | ORefresh now p => let! r := refresh now p in cret (ERefreshed p r)
  | OReset now p ms f => let! r := reset now p ms f in cret (EReset p r)
  | ONext now => let! v := getNextTimer now in cret (ENext v)
  | OExpire now q =>
      let! ps := take_expired now q in
      let! cbs := expire_loop now ps in
      cret (EExpired ps cbs)
  end.

(** The allocator hands out an address not in use; the caller of [cancel],
    [refresh] and [reset] holds a pointer to a timer. *)
Definition valid (o : op) (s : TimerManager) : Prop :=
  match o with
  | OAdd _ p _ _ _ | OAddCond _ p _ _ _ _ => heap s !! p = None
  | OCancel p | ORefresh _ p | OReset _ p _ _ => is_Some (heap s !! p)
  | ONext now => u_range 64 now
  | OExpire _ q => heap s !! q = None
  end.

Inductive run : TimerManager -> list event -> TimerManager -> Prop :=
  | run_nil s : run s [] s
  | run_cons s o e s1 es s2 :
      valid o s -> exec o s = (s1, Ret e) -> run s1 es s2 -> run s (e :: es) s2.

(** Deadlines are 64-bit values. *)
Definition in_range (s : TimerManager) : Prop :=
  forall p t, heap s !! p = Some t -> u_range 64 (m_next t).

(** ** One operation *)

(** The five shapes of a step. *)
Inductive stepped (s s' : TimerManager) : event -> Prop :=
  | st_same e : s' = s -> (forall ps cbs, e <> EExpired ps cbs) -> stepped s s' e
  | st_next v : s' = set_trickled false s -> stepped s s' (ENext v)
  | st_touch e p t m (old : option Timer) :
      heap s !! p = old -> touched p t m s s' -> front_rule p s s' \/ same_rest s s' ->
      u_range 64 (m_next t) \/ m_next <$> old = Some (m_next t) ->
      (forall u, old = Some u -> m_cb u <> None) -> (m = false -> m_cb t = None) ->
      (forall u, old = Some u -> m_recurring t = m_recurring u) ->
      (forall ps cbs, e <> EExpired ps cbs) -> stepped s s' e
  | st_expire now s1 ps cbs :
      cut now s s1 ps -> expired_to now ps s1 s' ->
      map Some cbs = map (fun p => m_cb <$> heap s !! p) ps -> stepped s s' (EExpired ps cbs).

Lemma u64_range x : u_range 64 (u64 x).
Proof. apply uwrap_range. lia. Qed.

Lemma cut_inv now s s1 ps :
  TInv s -> cut now s s1 ps ->
  TInvX ps s1 /\ NoDup ps /\ (forall p, p ∈ ps -> is_Some (heap s1 !! p) /\ p ∉ m_timers s1).
Proof.
  intros I C. pose proof (cut_heap _ _ _ _ C) as Hh. pose proof (cut_list _ _ _ _ C) as Hl.
  pose proof (ti_sorted _ _ I) as Hs. rewrite Hl in Hs.
  pose proof (sorted_nodup _ _ Hs) as Hnd. apply NoDup_app in Hnd as (N1 & N2 & N3).
  destruct (sorted_app_inv _ _ _ Hs) as (_ & Hs2 & _).
  split; [constructor|split; [assumption|]].
  - rewrite Hh. assumption.
  - intros p Hp. rewrite Hh. apply (ti_heap _ _ I). rewrite Hl. set_solver.
  - intros p t Hp Hc. rewrite Hh in Hp. destruct (ti_cb _ _ I p t Hp Hc) as [Hin|]; [|set_solver].
    rewrite Hl in Hin. set_solver.
  - intros p Hp. split; [|auto]. rewrite Hh. apply (ti_heap _ _ I). rewrite Hl. set_solver.
Qed.

Lemma getNextTimer_ok now s :
  TInv s -> exists v, getNextTimer now s = (set_trickled false s, Ret v)
    /\ match m_timers s with
       | [] => v = 2 ^ 64 - 1
       | p :: _ => exists t, heap s !! p = Some t
                     /\ v = if now >=? m_next t then 0 else u64 (m_next t - now)
       end.
Proof.
  intros I. unfold getNextTimer. rewrite cbind_mod, cbind_get. simpl.
  destruct (m_timers s) as [|p l] eqn:Hl; [eauto|].
  destruct (ti_heap _ _ I p) as [t Ht]; [rewrite Hl; set_solver|].
  cstep (object_run p (set_trickled false s) t Ht).
  destruct (now >=? m_next t) eqn:E; eexists; (split; [reflexivity|]);
    exists t; rewrite E; auto.
Qed.

Ltac touch_step :=
  eapply st_touch; [eassumption|eassumption|auto| |..]; try congruence;
  [(left; apply u64_range) || (right; simpl; congruence)|..];
  intros; simplify_eq/=; congruence.

Lemma exec_ok o s :
  TInv s -> valid o s -> exists s' e, exec o s = (s', Ret e) /\ TInv s' /\ stepped s s' e.
Proof.
  intros I V. destruct o as [now p ms cb rec|now p ms cb w rec|p|now p|now p ms f|now|now q];
    simpl in V; unfold exec.
  1,2: unfold addConditionTimer;
    match goal with |- context [addTimer _ _ _ ?c _] =>
      destruct (addTimer_ok now p ms c rec s I V) as (s' & Hrun & I' & T & F) end;
    cstep Hrun; exists s', (EAdded p); (split; [reflexivity|]); (split; [assumption|]);
    touch_step.
  - destruct V as [t Ht]. pose proof (timer_cancel_ok p t s I Ht) as H.
    destruct (m_cb t) eqn:Hc.
    + destruct H as (s' & Hrun & I' & T & F). cstep Hrun. eexists s', _.
      split; [reflexivity|]. split; [assumption|].
      touch_step.
    + cstep H. exists s, (ECancelled p false). split; [reflexivity|]. split; [assumption|].
      apply st_same; congruence.
  - destruct V as [t Ht]. pose proof (refresh_ok now p t s I Ht) as H.
    destruct (m_cb t) eqn:Hc.
    + destruct H as (s' & Hrun & I' & T & F). cstep Hrun. eexists s', _.
      split; [reflexivity|]. split; [assumption|].
      touch_step.
    + cstep H. exists s, (ERefreshed p false). split; [reflexivity|]. split; [assumption|].
      apply st_same; congruence.
  - destruct V as [t Ht]. pose proof (timer_reset_ok now p ms f t s I Ht) as H.
    destruct (_ && _); [|destruct (m_cb t) eqn:Hc].
    + cstep H. exists s, (EReset p true). split; [reflexivity|]. split; [assumption|].
      apply st_same; congruence.
    + destruct H as (s' & Hrun & I' & T & F). cstep Hrun. eexists s', _.
      split; [reflexivity|]. split; [assumption|].
      touch_step.
    + cstep H. exists s, (EReset p false). split; [reflexivity|]. split; [assumption|].
      apply st_same; congruence.
  - destruct (getNextTimer_ok now s I) as (v & Hrun & _). cstep Hrun.
    eexists _, _. split; [reflexivity|]. split; [destruct I; constructor; assumption|].
    apply st_next. reflexivity.
  - destruct (take_expired_ok s now q I V) as (s1 & ps & Hrun & C). cstep Hrun.
    destruct (cut_inv _ _ _ _ I C) as (I1 & N & Hin).
    destruct (expire_loop_ok now ps s1 I1 N Hin) as (s2 & cbs & Hrun2 & X & Hcbs). cstep Hrun2.
    eexists _, _. split; [reflexivity|]. split; [apply X|]. eapply st_expire; eauto.
    rewrite Hcbs, (cut_heap _ _ _ _ C). reflexivity.
Qed.

Lemma exec_step o s s' e :
  TInv s -> valid o s -> exec o s = (s', Ret e) -> TInv s' /\ stepped s s' e.
Proof.
  intros I V H. destruct (exec_ok o s I V) as (s2 & e2 & H2 & I2 & S2).
  rewrite H in H2. injection H2 as <- <-. auto.
Qed.

Lemma run_inv s es s' : run s es s' -> TInv s -> TInv s'.
Proof.
  induction 1 as [|s o e s1 es s2 V H R IH]; intros I; [assumption|].
  apply IH. apply (exec_step _ _ _ _ I V H).
Qed.

Lemma new_inv now : TInv (TimerManager_new now).
Proof. constructor; simpl; [constructor|set_solver|]. intros p t Hp. rewrite lookup_empty in Hp. discriminate. Qed.

(** ** Invariants of runs *)

Lemma stepped_range s s' e : stepped s s' e -> in_range s -> in_range s'.
Proof.
  intros S R. destruct S as [e E _|v E|e p t m old Ho T _ Hr _ _ _ _|now s1 ps cbs C X _].
  - subst. exact R.
  - subst. exact R.
  - intros q u Hq. rewrite (to_heap _ _ _ _ _ T) in Hq. destruct (decide (q = p)) as [->|Hne].
    + rewrite lookup_insert_eq in Hq. injection Hq as <-. destruct Hr as [Hr|Hr]; [exact Hr|].
      destruct old as [u|]; simplify_eq/=. rewrite <- Hr. eauto.
    + rewrite lookup_insert_ne in Hq by congruence. eauto.
  - intros q u Hq. rewrite (ex_heap _ _ _ _ X), (cut_heap _ _ _ _ C) in Hq.
    destruct (decide (q ∈ ps)); [|eauto].
    destruct (heap s !! q) as [w|] eqn:Hw; simplify_eq/=. unfold fired.
    destruct (m_recurring w); [apply u64_range|apply (R q w Hw)].
Qed.

Lemma run_range s es s' : run s es s' -> TInv s -> in_range s -> in_range s'.
Proof.
  induction 1 as [|s o e s1 es s2 V H R IH]; intros I Hr; [assumption|].
  destruct (exec_step _ _ _ _ I V H) as [I1 S1]. apply IH; [assumption|].
  eapply stepped_range; eassumption.
Qed.

(** A timer that is out of the set without a callback. *)
Definition dead (p : Z) (s : TimerManager) : Prop :=
  (exists t, heap s !! p = Some t /\ m_cb t = None) /\ p ∉ m_timers s.

Definition fires (p : Z) (e : event) : bool :=
  match e with EExpired ps _ => bool_decide (p ∈ ps) | _ => false end.

Lemma fires_other p e : (forall ps cbs, e <> EExpired ps cbs) -> fires p e = false.
Proof. intros H. destruct e; try reflexivity. destruct (H ps cbs eq_refl). Qed.

Lemma stepped_dead p s s' e :
  stepped s s' e -> dead p s -> fires p e = false /\ dead p s'.
Proof.
  intros S [(t & Ht & Hc) Hn].
  destruct S as [e E He|v E|e p' t' m old Ho T _ _ Hold _ _ He|now s1 ps cbs C X _].
  - subst. split; [apply fires_other; assumption|]. split; eauto.
  - subst. split; [reflexivity|]. split; [exists t; auto|assumption].
  - split; [apply fires_other; assumption|].
    assert (p <> p') by (intros ->; destruct (Hold t); congruence).
    split.
    + exists t. rewrite (to_heap _ _ _ _ _ T), lookup_insert_ne by congruence. auto.
    + rewrite (to_elem _ _ _ _ _ T), decide_False by congruence. assumption.
  - rewrite (cut_list _ _ _ _ C) in Hn.
    assert (Hps : p ∉ ps) by set_solver.
    split; [simpl; apply bool_decide_eq_false_2; assumption|]. split.
    + exists t. rewrite (ex_heap _ _ _ _ X), decide_False, (cut_heap _ _ _ _ C) by assumption. auto.
    + rewrite (ex_elem _ _ _ _ X). set_solver.
Qed.

Lemma run_dead p s es s' :
  run s es s' -> TInv s -> dead p s -> Forall (fun e => fires p e = false) es.
Proof.
  induction 1 as [|s o e s1 es s2 V H R IH]; intros I D; constructor.
  - destruct (exec_step _ _ _ _ I V H) as [I1 S1]. apply (stepped_dead p _ _ _ S1 D).
  - destruct (exec_step _ _ _ _ I V H) as [I1 S1]. apply IH; [assumption|].
    apply (stepped_dead p _ _ _ S1 D).
Qed.

(** A one-shot timer stays one, or is dead after it fires. *)
Lemma stepped_one_shot p t s s' e :
  TInv s -> stepped s s' e -> heap s !! p = Some t -> m_recurring t = false ->
  (exists t', heap s' !! p = Some t' /\ m_recurring t' = false)
  /\ (fires p e = true -> dead p s').
Proof.
  intros I S Ht Hr.
  destruct S as [e E He|v E|e p' t' m old Ho T _ _ _ _ Hrec He|now s1 ps cbs C X _].
  - subst. rewrite fires_other by assumption. split; [eauto|discriminate].
  - subst. split; [eauto|discriminate].
  - rewrite fires_other by assumption. split; [|discriminate].
    rewrite (to_heap _ _ _ _ _ T). destruct (decide (p = p')) as [->|Hne].
    + rewrite lookup_insert_eq. exists t'. split; [reflexivity|].
      rewrite (Hrec t) by congruence. assumption.
    + rewrite lookup_insert_ne by congruence. eauto.
  - assert (Hh : heap s1 !! p = Some t) by (rewrite (cut_heap _ _ _ _ C); assumption).
    rewrite (ex_heap _ _ _ _ X), Hh. simpl. unfold fired. rewrite Hr. split.
    { destruct (decide (p ∈ ps)); eauto. }
    rewrite bool_decide_eq_true. intros Hps. split.
    + exists (drop_cb t). rewrite (ex_heap _ _ _ _ X), decide_True, Hh by assumption. simpl.
      unfold fired. rewrite Hr. auto.
    + rewrite (ex_elem _ _ _ _ X). destruct (cut_inv _ _ _ _ I C) as (_ & _ & Hin).
      destruct (Hin p Hps) as [_ Hout]. intros [?|[_ (u & Hu & Hru)]]; [auto|congruence].
Qed.

(** ** The properties *)

Abbreviation start t0 := (TimerManager_new t0).

(** C5: whatever operations ran before, in whatever order, with whatever
    clock, the set is sorted and holds every timer that has a callback, and
    every operation called on a timer returns: in particular [cancel] never
    erases [end()] and [listExpiredCb] never runs off the set. *)
Theorem timers_never_stuck t0 es s o :
  run (start t0) es s -> valid o s ->
  TInv s /\ exists s' e, exec o s = (s', Ret e) /\ TInv s'.
Proof.
  intros R V. pose proof (run_inv _ _ _ R (new_inv t0)) as I. split; [assumption|].
  destruct (exec_ok o s I V) as (s' & e & H & I' & _). eauto.
Qed.

Definition demo_manager : TimerManager :=
  fst ((let! _ := exec (OAdd 1000 16 50 (Some (Fun 1)) false) in
        let! _ := exec (OAdd 1000 32 20 (Some (Fun 2)) true) in
        exec (OAddCond 1000 48 50 (Some (Fun 3)) 7 false)) (start 1000)).

Lemma demo_run : exists es, run (start 1000) es demo_manager.
Proof.
  eexists.
  eapply (run_cons _ (OAdd 1000 16 50 (Some (Fun 1)) false)); [reflexivity|reflexivity|].
  eapply (run_cons _ (OAdd 1000 32 20 (Some (Fun 2)) true)); [reflexivity|reflexivity|].
  eapply (run_cons _ (OAddCond 1000 48 50 (Some (Fun 3)) 7 false)); [reflexivity|reflexivity|].
  apply run_nil.
Qed.

Lemma timers_never_stuck_witness :
  TInv demo_manager /\ exists s' e, exec (OCancel 48) demo_manager = (s', Ret e) /\ TInv s'.
Proof.
  destruct demo_run as [es R].
  apply (timers_never_stuck 1000 es demo_manager (OCancel 48) R). eexists. reflexivity.
Defined.

Lemma expired_exact s now q :
  TInv s -> heap s !! q = None ->
  exists s' expired cbs,
    listExpiredCb now q s = (s', Ret cbs)
    /\ sorted (less (heap s)) expired
    /\ (forall p, p ∈ expired <-> p ∈ m_timers s
          /\ (rolled_over now s = true \/ exists d, deadline (heap s) p = Some d /\ d <= now))
    /\ map Some cbs = map (fun p => m_cb <$> heap s !! p) expired
    /\ (forall p, heap s' !! p = if decide (p ∈ expired) then fired now <$> heap s !! p
                                 else heap s !! p)
    /\ (forall p, p ∈ m_timers s' <-> (p ∈ m_timers s /\ p ∉ expired)
          \/ (p ∈ expired /\ exists t, heap s !! p = Some t /\ m_recurring t = true))
    /\ TInv s'.
Proof.
  intros I Hq.
  destruct (take_expired_ok s now q I Hq) as (s1 & ps & Hrun & C).
  destruct (cut_inv _ _ _ _ I C) as (I1 & N & Hin).
  destruct (expire_loop_ok now ps s1 I1 N Hin) as (s2 & cbs & Hrun2 & X & Hcbs).
  pose proof (ti_sorted _ _ I) as Hs. rewrite (cut_list _ _ _ _ C) in Hs.
  destruct (sorted_app_inv _ _ _ Hs) as (Hs1 & _ & _).
  pose proof (cut_heap _ _ _ _ C) as Hh. pose proof (cut_list _ _ _ _ C) as Hl.
  exists s2, ps, cbs. split; [unfold listExpiredCb; cstep Hrun; exact Hrun2|].
  split; [assumption|]. split; [|split; [rewrite Hcbs, Hh; reflexivity|split; [|split; [|apply X]]]].
  - intros p. rewrite Hl. split.
    + intros Hp. split; [set_solver|apply (cut_due _ _ _ _ C p Hp)].
    + intros [Hp Hd]. apply elem_of_app in Hp as [Hp|Hp]; [assumption|].
      destruct (cut_later _ _ _ _ C p Hp) as [H1 (d & H2 & H3)].
      destruct Hd as [|(d' & H4 & H5)]; [congruence|]. simplify_eq. lia.
  - intros p. rewrite (ex_heap _ _ _ _ X), Hh. reflexivity.
  - intros p. rewrite (ex_elem _ _ _ _ X), Hh, Hl.
    split; (intros [H|H]; [left|right; exact H]).
    + split; [set_solver|]. intros Hp. destruct (Hin p Hp). contradiction.
    + set_solver.
Qed.

(** C6: [listExpiredCb] takes out exactly the timers whose deadline is not
    after [now] (all of them when the clock fell back by over an hour), hands
    out their callbacks in the order of the deadlines, puts the recurring ones
    back with the deadline [now + m_ms], and leaves every other timer alone. *)
Theorem listExpiredCb_exact t0 es s now q :
  run (start t0) es s -> heap s !! q = None ->
  exists s' expired cbs,
    listExpiredCb now q s = (s', Ret cbs)
    /\ sorted (less (heap s)) expired
    /\ (forall p, p ∈ expired <-> p ∈ m_timers s
          /\ (rolled_over now s = true \/ exists d, deadline (heap s) p = Some d /\ d <= now))
    /\ map Some cbs = map (fun p => m_cb <$> heap s !! p) expired
    /\ (forall p, heap s' !! p = if decide (p ∈ expired) then fired now <$> heap s !! p
                                 else heap s !! p)
    /\ (forall p, p ∈ m_timers s' <-> (p ∈ m_timers s /\ p ∉ expired)
          \/ (p ∈ expired /\ exists t, heap s !! p = Some t /\ m_recurring t = true)).
Proof.
  intros R Hq. pose proof (run_inv _ _ _ R (new_inv t0)) as I.
  destruct (expired_exact s now q I Hq) as (s' & ps & cbs & H1 & H2 & H3 & H4 & H5 & H6 & _). eauto 10.
Qed.

Lemma listExpiredCb_exact_witness :
  exists s' (expired : list Z) cbs,
    listExpiredCb 1020 99 demo_manager = (s', Ret cbs) /\ cbs = [Some (Fun 2)]
    /\ (forall p, p ∈ expired <-> p ∈ m_timers demo_manager
          /\ (rolled_over 1020 demo_manager = true
              \/ exists d, deadline (heap demo_manager) p = Some d /\ d <= 1020)).
Proof.
  destruct demo_run as [es R].
  destruct (listExpiredCb_exact 1000 es demo_manager 1020 99 R) as (s' & ps & cbs & H & _ & Hp & _);
    [reflexivity|].
  exists s', ps, cbs. split; [assumption|]. split; [|assumption].
  vm_compute in H. injection H as _ <-. reflexivity.
Defined.

(** [getNextTimer] returns 2^64 - 1 when no timer waits, and otherwise
    the time that is left to the earliest deadline, 0 when it has passed: no
    timer is due before that time is over, and one is due then. *)
Theorem getNextTimer_earliest t0 es s now :
  run (start t0) es s -> u_range 64 now ->
  exists v, getNextTimer now s = (set_trickled false s, Ret v)
    /\ (m_timers s = [] -> v = 2 ^ 64 - 1)
    /\ (m_timers s <> [] ->
        (forall p d, p ∈ m_timers s -> deadline (heap s) p = Some d -> v <= Z.max 0 (d - now))
        /\ exists p d, p ∈ m_timers s /\ deadline (heap s) p = Some d /\ v = Z.max 0 (d - now)).
Proof.
  intros R Hnow. pose proof (run_inv _ _ _ R (new_inv t0)) as I.
  assert (Hr : in_range s).
  { apply (run_range _ _ _ R (new_inv t0)). intros p t Hp. simpl in Hp.
    rewrite lookup_empty in Hp. discriminate. }
  destruct (getNextTimer_ok now s I) as (v & Hrun & Hv). exists v. split; [assumption|].
  pose proof (ti_sorted _ _ I) as Hs.
  destruct (m_timers s) as [|a l]; [split; [auto|congruence]|]. split; [discriminate|intros _].
  destruct Hv as (t & Ht & Hv). pose proof (Hr a t Ht) as Hrt.
  assert (Ev : v = Z.max 0 (m_next t - now)).
  { rewrite Hv, Z.geb_leb. destruct (Z.leb_spec (m_next t) now); [lia|].
    rewrite uwrap_id; [lia|]. unfold u_range in *. lia. }
  assert (Ea : deadline (heap s) a = Some (m_next t)) by (unfold deadline; rewrite Ht; reflexivity).
  split.
  - intros p d Hp Hd. destruct (sorted_cons_inv _ _ _ Hs) as [_ Ha].
    apply elem_of_cons in Hp as [->|Hp]; [simplify_eq; lia|].
    specialize (Ha p Hp). rewrite less_deadline, Ea, Hd in Ha.
    rewrite orb_true_iff, andb_true_iff, !Z.ltb_lt, Z.eqb_eq in Ha. lia.
  - exists a, (m_next t). split; [set_solver|]. auto.
Qed.

Lemma getNextTimer_earliest_witness :
  exists v, getNextTimer 1005 demo_manager = (set_trickled false demo_manager, Ret v) /\ v = 15.
Proof.
  destruct demo_run as [es R].
  destruct (getNextTimer_earliest 1000 es demo_manager 1005 R) as (v & H & _);
    [split; vm_compute; congruence|].
  exists v. split; [assumption|]. vm_compute in H. injection H as <-. reflexivity.
Defined.

(** C7: once [cancel] has returned true, the timer never fires again,
    whatever is done to it or to the others: neither [refresh] nor [reset] nor
    a second [cancel] brings it back. *)
Theorem cancelled_never_fires t0 es s p s1 es' s2 :
  run (start t0) es s -> cancel p s = (s1, Ret true) -> run s1 es' s2 ->
  Forall (fun e => fires p e = false) es'.
Proof.
  intros R Hc R'. pose proof (run_inv _ _ _ R (new_inv t0)) as I.
  destruct (heap s !! p) as [t|] eqn:Ht;
    [|unfold cancel, object, cbind, cget in Hc; rewrite Ht in Hc; discriminate].
  pose proof (timer_cancel_ok p t s I Ht) as H.
  destruct (m_cb t) eqn:Hcb; [|rewrite H in Hc; discriminate].
  destruct H as (s' & Hrun & I' & T & _). rewrite Hrun in Hc. injection Hc as <-.
  apply (run_dead p _ _ _ R' I'). split.
  - exists (drop_cb t). rewrite (to_heap _ _ _ _ _ T), lookup_insert_eq. auto.
  - rewrite (to_elem _ _ _ _ _ T), decide_True by reflexivity. discriminate.
Qed.

Lemma cancelled_never_fires_witness :
  exists e, run (fst (cancel 16 demo_manager)) [e]
              (fst (listExpiredCb 9000 99 (fst (cancel 16 demo_manager))))
    /\ fires 32 e = true /\ Forall (fun e => fires 16 e = false) [e].
Proof.
  destruct demo_run as [es R]. eexists.
  assert (R' : run (fst (cancel 16 demo_manager)) [EExpired [32; 48] [Some (Fun 2); Some (OnTimer 7 (Some (Fun 3)))]]
              (fst (listExpiredCb 9000 99 (fst (cancel 16 demo_manager))))).
  { eapply (run_cons _ (OExpire 9000 99)); [reflexivity|vm_compute; reflexivity|].
    vm_compute. apply run_nil. }
  split; [exact R'|]. split; [reflexivity|].
  apply (cancelled_never_fires 1000 es demo_manager 16 (fst (cancel 16 demo_manager)) _ _ R
           ltac:(vm_compute; reflexivity) R').
Defined.

(** A timer that does not recur fires at most once in any run. *)
Theorem one_shot_fires_once t0 es s p t es' s' :
  run (start t0) es s -> heap s !! p = Some t -> m_recurring t = false -> run s es' s' ->
  (length (List.filter (fires p) es') <= 1)%nat.
Proof.
  intros R Ht Hr R'. pose proof (run_inv _ _ _ R (new_inv t0)) as I. clear R.
  revert I t Ht Hr. induction R' as [|s o e s1 es2 s2 V H R IH]; intros I t Ht Hr; simpl; [lia|].
  destruct (exec_step _ _ _ _ I V H) as [I1 S1].
  destruct (stepped_one_shot p t _ _ _ I S1 Ht Hr) as [(t' & Ht' & Hr') Hd].
  destruct (fires p e) eqn:Hf; [|eauto].
  pose proof (run_dead p _ _ _ R I1 (Hd eq_refl)) as Hall. simpl.
  assert (E : List.filter (fires p) es2 = []).
  { clear -Hall. induction Hall as [|x l Hx Hall IH]; simpl; [reflexivity|]. rewrite Hx. exact IH. }
  rewrite E. simpl. lia.
Qed.

Definition demo_events : list event :=
  [EExpired [32; 16; 48] [Some (Fun 2); Some (Fun 1); Some (OnTimer 7 (Some (Fun 3)))]].

Lemma one_shot_fires_once_witness :
  (length (List.filter (fires 16) demo_events) <= 1)%nat.
Proof.
  destruct demo_run as [es R].
  apply (one_shot_fires_once 1000 es demo_manager 16 (Timer_new 1000 50 (Some (Fun 1)) false)
           demo_events
           (fst (listExpiredCb 9000 99 demo_manager)) R); [reflexivity|reflexivity|].
  eapply (run_cons _ (OExpire 9000 99)); [reflexivity|vm_compute; reflexivity|].
  vm_compute. apply run_nil.
Defined.

(** ** Waking the waiting thread *)

(** A clock that does not run backwards goes from [clk] to [clk'] before the
    operation.  [refresh] reads it under the lock; the reading of the others may
    be older, that of [listExpiredCb] by an hour at most.  Readings are later
    than an hour after the epoch, and they and the periods are below 2^63. *)
Definition HOUR : Z := 60 * 60 * 1000.

Definition reading (now clk' : Z) : Prop := HOUR <= now <= clk'.
Definition period (ms : Z) : Prop := 0 <= ms < 2 ^ 63.

Definition ticks (clk clk' : Z) (o : op) : Prop :=
  clk <= clk' < 2 ^ 63 /\
  match o with
  | OAdd now _ ms _ _ | OAddCond now _ ms _ _ _ | OReset now _ ms _ => reading now clk' /\ period ms
  | ORefresh now _ => now = clk'
  | OExpire now _ => reading now clk' /\ clk' - HOUR <= now
  | OCancel _ | ONext _ => True
  end.

(** Runs with the clock at their beginning and at their end. *)
Inductive timed : Z -> TimerManager -> Z -> TimerManager -> Prop :=
  | timed_nil clk s : timed clk s clk s
  | timed_cons clk s o clk1 e s1 clk2 s2 :
      valid o s -> ticks clk clk1 o -> exec o s = (s1, Ret e) -> timed clk1 s1 clk2 s2 ->
      timed clk s clk2 s2.

(** Every deadline is a reading of the clock and a period. *)
Record clocked (clk : Z) (s : TimerManager) : Prop := {
  ck_now : clk < 2 ^ 63;
  ck_prev : reading (m_previouseTime s) clk;
  ck_heap p t : heap s !! p = Some t -> period (m_ms t) /\ reading (m_next t - m_ms t) clk
}.

Definition none_before (d : Z) (s : TimerManager) : Prop :=
  forall p x, p ∈ m_timers s -> deadline (heap s) p = Some x -> d <= x.

(** The thread was woken, or nothing is due earlier than it expects. *)
Definition awake_or_late (n : nat) (d : Z) (s : TimerManager) : Prop :=
  (n < front_calls s)%nat \/ (n = front_calls s /\ m_trickled s = false /\ none_before d s).

Lemma none_before_touched d p t m s s' :
  none_before d s -> touched p t m s s' -> (m = true -> d <= m_next t) -> none_before d s'.
Proof.
  intros N T Hm q x Hq Hx. rewrite (to_elem _ _ _ _ _ T) in Hq.
  unfold deadline in Hx. rewrite (to_heap _ _ _ _ _ T) in Hx.
  destruct (decide (q = p)) as [->|Hne].
  - rewrite lookup_insert_eq in Hx. simplify_eq/=. auto.
  - rewrite lookup_insert_ne in Hx by congruence. apply (N q x Hq Hx).
Qed.

(** Behind a head that is not the new timer nothing is earlier. *)
Lemma none_before_front d p t s s' :
  TInv s' -> none_before d s -> touched p t true s s' -> head (m_timers s') <> Some p ->
  none_before d s'.
Proof.
  intros I N T Hh. pose proof (ti_sorted _ _ I) as Hs.
  destruct (m_timers s') as [|a l] eqn:Hl; [intros q x Hq; rewrite Hl in Hq; set_solver|].
  destruct (deadline_member [] s' a I) as [da Ha]; [rewrite Hl; set_solver|].
  assert (Hda : d <= da).
  { assert (Hne : a <> p) by (intros ->; apply Hh; reflexivity).
    assert (Hin : a ∈ m_timers s').
    { rewrite Hl. set_solver. }
    rewrite (to_elem _ _ _ _ _ T), decide_False in Hin by assumption.
    apply (N a da Hin). unfold deadline in *.
    rewrite (to_heap _ _ _ _ _ T), lookup_insert_ne in Ha by congruence. exact Ha. }
  intros q x Hq Hx. rewrite Hl in Hq. destruct (sorted_cons_inv _ _ _ Hs) as [_ Hall].
  apply elem_of_cons in Hq as [->|Hq]; [simplify_eq; lia|].
  specialize (Hall q Hq). rewrite less_deadline, Ha, Hx in Hall.
  rewrite orb_true_iff, andb_true_iff, !Z.ltb_lt, Z.eqb_eq in Hall. lia.
Qed.

Lemma front_rule_awake n d p t s s' :
  TInv s' -> touched p t true s s' -> front_rule p s s' -> awake_or_late n d s ->
  awake_or_late n d s'.
Proof.
  intros I T [_ F] [Hc|(Hc & Htr & N)].
  - left. destruct (decide _); destruct F as [_ ->]; lia.
  - destruct (decide _) as [_|Hno]; destruct F as [F1 F2]; [left; lia|].
    right. split; [congruence|]. split; [congruence|].
    eapply none_before_front; eauto.
Qed.

Lemma touched_awake n d p t m s s' :
  touched p t m s s' -> same_rest s s' -> (none_before d s -> m = true -> d <= m_next t) ->
  awake_or_late n d s -> awake_or_late n d s'.
Proof.
  intros T (Htr & _ & Hc) Hm [A|(A1 & A2 & N)]; [left; lia|].
  right. split; [congruence|]. split; [congruence|].
  eapply none_before_touched; eauto.
Qed.

#[local] Arguments uwrap : simpl never.

Lemma clocked_touched clk clk' p t m s s' :
  clocked clk s -> clk <= clk' < 2 ^ 63 -> touched p t m s s' -> m_previouseTime s' = m_previouseTime s ->
  period (m_ms t) -> reading (m_next t - m_ms t) clk' -> clocked clk' s'.
Proof.
  intros [Hn Hp Hh] Hc T Hprev Hper Hr. unfold reading in *. constructor; unfold reading; [lia|rewrite Hprev; lia|].
  intros q u Hq. rewrite (to_heap _ _ _ _ _ T) in Hq. destruct (decide (q = p)) as [->|Hne].
  - rewrite lookup_insert_eq in Hq. by simplify_eq.
  - rewrite lookup_insert_ne in Hq by congruence. specialize (Hh q u Hq). split; [apply Hh|lia].
Qed.

Lemma clocked_later clk clk' s : clocked clk s -> clk <= clk' < 2 ^ 63 -> clocked clk' s.
Proof.
  intros [Hn Hp Hh] Hc. constructor; unfold reading in *; [lia..|].
  intros p t Ht. specialize (Hh p t Ht). split; [apply Hh|lia].
Qed.

(** Sums of a reading and a period do not wrap. *)
Lemma reading_sum now clk ms :
  clk < 2 ^ 63 -> reading now clk -> period ms -> u64 (now + ms) = now + ms.
Proof. unfold reading, period, HOUR. intros. apply uwrap_id. unfold u_range. lia. Qed.

Lemma no_rollover now clk clk' s :
  clocked clk s -> ticks clk clk' (OExpire now 0) -> rolled_over now s = false.
Proof.
  intros [Hn Hp _] (Hc & Hr & Hl). unfold reading, HOUR in *. unfold rolled_over.
  rewrite uwrap_id by (unfold u_range; lia). apply andb_false_iff. right. apply Z.ltb_ge. lia.
Qed.

(** The callbacks of the due timers are handed out: a recurring timer was due
    at its reading of the clock, so it does not come back earlier than that. *)
Lemma expire_clocked clk clk' now s s1 s' ps :
  TInv s -> clocked clk s -> ticks clk clk' (OExpire now 0) -> cut now s s1 ps -> expired_to now ps s1 s' ->
  clocked clk' s' /\ forall n d, awake_or_late n d s -> awake_or_late n d s'.
Proof.
  intros I K Tk C X. pose proof (no_rollover now clk clk' s K Tk) as Hroll.
  destruct Tk as (Hc & Hr & Hl). destruct (ex_rest _ _ _ _ X) as (E1 & E2 & E3).
  destruct (cut_flags _ _ _ _ C) as [F1 F2]. pose proof (cut_prev _ _ _ _ C) as Hprev.
  pose proof (ex_heap _ _ _ _ X) as Hh. rewrite (cut_heap _ _ _ _ C) in Hh. split.
  - destruct K as [Hn Hp Hk]. constructor; [lia| |].
    + rewrite E2, Hprev. unfold reading in *. destruct (decide _); lia.
    + intros p t Ht. rewrite Hh in Ht. destruct (decide (p ∈ ps)).
      * destruct (heap s !! p) as [u|] eqn:Hu; simplify_eq/=. specialize (Hk p u Hu) as [Hk1 Hk2].
        unfold fired. destruct (m_recurring u); simpl.
        -- rewrite (reading_sum now clk') by (assumption || lia). split; [done|]. unfold reading in *. lia.
        -- split; [done|]. unfold reading in *. lia.
      * specialize (Hk p t Ht) as [Hk1 Hk2]. split; [done|]. unfold reading in *. lia.
  - intros n d [A|(A1 & A2 & N)]; [left; lia|right]. split; [congruence|]. split; [congruence|].
    intros p x Hp Hx. unfold deadline in Hx. rewrite Hh in Hx.
    assert (Hin : p ∈ m_timers s).
    { rewrite (cut_list _ _ _ _ C). apply (ex_elem _ _ _ _ X) in Hp as [Hp|[Hp _]]; set_solver. }
    destruct (decide (p ∈ ps)) as [Hps|Hps]; [|by apply (N p x Hin)].
    destruct (heap s !! p) as [u|] eqn:Hu; simplify_eq/=.
    assert (Hd : d <= m_next u) by (apply (N p); [done|]; unfold deadline; by rewrite Hu).
    unfold fired. destruct (m_recurring u); simpl; [|done].
    destruct (cut_due _ _ _ _ C p Hps) as [Hro|(y & Hy & Hle)]; [congruence|].
    unfold deadline in Hy. rewrite Hu in Hy. simplify_eq/=.
    destruct (ck_heap _ _ K p u Hu) as [Hper _].
    rewrite (reading_sum now clk') by (assumption || lia). unfold period in Hper. lia.
Qed.

Lemma timed_step clk clk' o s s1 e :
  TInv s -> clocked clk s -> valid o s -> ticks clk clk' o -> exec o s = (s1, Ret e) ->
  clocked clk' s1 /\ forall n d, awake_or_late n d s -> awake_or_late n d s1.
Proof.
  intros I K V Tk H. pose proof Tk as [Hc To].
  destruct o as [now p ms cb rec|now p ms cb w rec|p|now p|now p ms f|now|now q];
    simpl in V, To; unfold exec, addConditionTimer in H.
  1,2: match type of H with context [addTimer _ _ _ ?c _] =>
      destruct (addTimer_ok now p ms c rec s I V) as (s' & Hrun & I' & T & F) end;
    unfold cbind in H; rewrite Hrun in H; injection H as <- _; destruct To as [Hr Hper];
    split; [|intros; eapply front_rule_awake; eauto];
    apply (clocked_touched clk clk' _ _ _ _ _ K Hc T); [apply F|done|simpl];
    rewrite (reading_sum now clk') by (assumption || lia); unfold reading in *; lia.
  1-3: destruct V as [t Ht]; pose proof (ck_heap _ _ K p t Ht) as [Hper Hrd].
  - pose proof (timer_cancel_ok p t s I Ht) as Hk. unfold cbind in H. destruct (m_cb t).
    + destruct Hk as (s' & Hrun & I' & T & R). rewrite Hrun in H. injection H as <- _. split.
      * apply (clocked_touched clk clk' _ _ _ _ _ K Hc T); [apply R|done|simpl; unfold reading in *; lia].
      * intros. eapply touched_awake; eauto. discriminate.
    + rewrite Hk in H. injection H as <- _. split; [by eapply clocked_later|auto].
  - pose proof (refresh_ok now p t s I Ht) as Hk. unfold cbind in H. subst now. destruct (m_cb t) eqn:Hcb.
    + destruct Hk as (s' & Hrun & I' & T & R). rewrite Hrun in H. injection H as <- _.
      assert (E : u64 (clk' + m_ms t) = clk' + m_ms t)
        by (apply (reading_sum clk' clk'); unfold reading in *; [lia..|done]). split.
      * apply (clocked_touched clk clk' _ _ _ _ _ K Hc T); [apply R|done|].
        simpl. rewrite E. unfold reading in *. lia.
      * intros n d. eapply touched_awake; eauto. intros N _. simpl. rewrite E.
        destruct (ti_cb _ _ I p t Ht ltac:(congruence)) as [Hin|]; [|set_solver].
        specialize (N p (m_next t) Hin). unfold deadline in N. rewrite Ht in N.
        specialize (N eq_refl). unfold reading in *. lia.
    + rewrite Hk in H. injection H as <- _. split; [by eapply clocked_later|auto].
  - pose proof (timer_reset_ok now p ms f t s I Ht) as Hk. unfold cbind in H. destruct To as [Hr Hms].
    destruct (_ && _); [|destruct (m_cb t)].
    1, 3: rewrite Hk in H; injection H as <- _; split; [by eapply clocked_later|auto].
    destruct Hk as (s' & Hrun & I' & T & F). rewrite Hrun in H. injection H as <- _.
    split; [|intros; eapply front_rule_awake; eauto].
    apply (clocked_touched clk clk' _ _ _ _ _ K Hc T); [apply F|done|].
    assert (Hst : reading (if f then now else u64 (m_next t - m_ms t)) clk').
    { destruct f; [done|]. unfold reading, period, HOUR in *. pose proof (ck_now _ _ K).
      rewrite uwrap_id by (unfold u_range; lia). lia. }
    unfold reset_to. simpl. rewrite (reading_sum _ clk') by (assumption || lia). unfold reading in *. lia.
  - destruct (getNextTimer_ok now s I) as (v & Hrun & _). unfold cbind in H. rewrite Hrun in H.
    injection H as <- _. split; [by destruct (clocked_later clk clk' s K Hc)|].
    intros n d [A|(A1 & _ & N)]; [by left|by right].
  - destruct (take_expired_ok s now q I V) as (s2 & ps & Hrun & C). unfold cbind in H. rewrite Hrun in H.
    destruct (cut_inv _ _ _ _ I C) as (I1 & N & Hin).
    destruct (expire_loop_ok now ps s2 I1 N Hin) as (s3 & cbs & Hrun2 & X & Hcbs).
    rewrite Hrun2 in H. injection H as <- _. eapply expire_clocked; eauto. exact Tk.
Qed.

Lemma timed_inv clk s clk' s' :
  timed clk s clk' s' -> TInv s -> clocked clk s ->
  TInv s' /\ clocked clk' s' /\ forall n d, awake_or_late n d s -> awake_or_late n d s'.
Proof.
  induction 1 as [clk s|clk s o clk1 e s1 clk2 s2 V Tk H R IH]; intros I K; [auto|].
  pose proof (proj1 (exec_step _ _ _ _ I V H)) as I1.
  destruct (timed_step _ _ _ _ _ _ I K V Tk H) as [K1 A1].
  destruct (IH I1 K1) as (I2 & K2 & A2). auto.
Qed.

(** C8: no lost wake-up, with a clock that does not run backwards, in runs as
    [timed] has them: readings of the clock from an hour after the epoch on, they
    and the periods below 2^63; a reading may be old when it is used, but that of
    [refresh] is taken under the lock, and that of [listExpiredCb] is an hour old at
    most.  When a
    thread has asked [getNextTimer] and sleeps until the earliest deadline [d],
    and other threads then add, reset, refresh or cancel timers, ask for the next
    deadline or take the expired timers, then either [onTimerInsertedAtFront]
    was called, or every timer is due at [d] or later.  A clock that is set back
    can lose a wake-up: [refresh_back_is_lost]. *)
Theorem no_lost_wakeup t0 clk s now v s1 clk2 s2 d :
  HOUR <= t0 < 2 ^ 63 -> timed t0 (start t0) clk s -> getNextTimer now s = (s1, Ret v) ->
  none_before d s1 -> timed clk s1 clk2 s2 ->
  (front_calls s1 < front_calls s2)%nat \/ none_before d s2.
Proof.
  intros Ht0 R Hn N A. destruct (timed_inv _ _ _ _ R (new_inv t0)) as (I & K & _).
  { constructor; [lia|unfold reading; simpl; lia|]. intros p t Hp. simpl in Hp. by rewrite lookup_empty in Hp. }
  destruct (getNextTimer_ok now s I) as (v' & Hrun & _). rewrite Hrun in Hn. injection Hn as <- _.
  destruct (timed_inv _ _ _ _ A) as (_ & _ & Hl).
  - destruct I; constructor; assumption.
  - destruct K; constructor; assumption.
  - destruct (Hl (front_calls s) d) as [|(_ & _ & ?)]; auto. right. auto.
Qed.

Definition DAY : Z := 24 * HOUR.

(** Two timers; a thread sleeps; the nearer one is refreshed, what is due is
    taken, and a timer in front of the others is added. *)
Definition day_ops : list op :=
  [OAdd DAY 16 50 (Some (Fun 1)) false; OAdd DAY 32 20 (Some (Fun 2)) true].
Definition sleep_ops : list op :=
  [ORefresh (DAY + 10) 32; OExpire (DAY + 15) 8; OAdd (DAY + 15) 64 5 (Some (Fun 4)) false].

Definition after (os : list op) (s : TimerManager) : TimerManager :=
  fold_left (fun s o => fst (exec o s)) os s.

Ltac tick o clk :=
  eapply (timed_cons _ _ o clk);
    [by vm_compute; eauto|vm_compute; repeat split; congruence|vm_compute; reflexivity|].

Lemma no_lost_wakeup_witness :
  let s := after day_ops (start DAY) in
  let s1 := fst (getNextTimer DAY s) in
  let s2 := after sleep_ops s1 in
  (front_calls s1 < front_calls s2)%nat \/ none_before (DAY + 20) s2.
Proof.
  apply (no_lost_wakeup DAY DAY (after day_ops (start DAY)) DAY 20 _ (DAY + 15) _ (DAY + 20)).
  - vm_compute. split; congruence.
  - tick (OAdd DAY 16 50 (Some (Fun 1)) false) DAY. tick (OAdd DAY 32 20 (Some (Fun 2)) true) DAY.
    apply timed_nil.
  - vm_compute. reflexivity.
  - intros p x Hp Hx. vm_compute in Hp.
    repeat (apply elem_of_cons in Hp as [->|Hp]; [vm_compute in Hx; injection Hx as <-; vm_compute; congruence|]).
    set_solver.
  - tick (ORefresh (DAY + 10) 32) (DAY + 10). tick (OExpire (DAY + 15) 8) (DAY + 15).
    tick (OAdd (DAY + 15) 64 5 (Some (Fun 4)) false) (DAY + 15). apply timed_nil.
Defined.

(** With a clock that is set back the wake-up is lost: [refresh] inserts without
    looking at the front.  The thread sleeps until 50 ms after [DAY], the timer
    is due 40 ms before it. *)
Theorem refresh_back_is_lost :
  let s1 := fst (getNextTimer DAY (after [OAdd DAY 16 50 (Some (Fun 1)) false] (start DAY))) in
  let s2 := after [ORefresh (DAY - 90) 16] s1 in
  deadline (heap s1) 16 = Some (DAY + 50) /\ deadline (heap s2) 16 = Some (DAY - 40) /\
  front_calls s2 = front_calls s1 /\ m_trickled s1 = false.
Proof. repeat split; vm_compute; reflexivity. Qed.
