(* ===== verification/FdManager.v ===== *)
(** * File descriptor contexts (sylar/fd_manager.h, sylar/fd_manager.cpp)

    [FdManager] is a vector of shared pointers indexed by the descriptor.  A
    context lives in a heap, because the hooks change it through the pointer
    they got from [get].  What the kernel knows of a descriptor (whether it is
    open and a socket) is a parameter; its file status flags are state, since
    [FdCtx::init] changes them.  [get] takes the read lock, gives it up and
    takes the write lock: [get_read] and [get_create] are the two critical
    sections. *)

From stdpp Require Import base gmap list.
From Stdlib Require Import ZArith Lia.
From S2P Require Import Prelude Double.

Local Open Scope Z_scope.
Local Open Scope cpp_scope.

Definition O_NONBLOCK : Z := 2048.
Definition SO_RCVTIMEO : Z := 20.
Definition SO_SNDTIMEO : Z := 21.

Record FdCtx := mkFdCtx {
  m_isInit : bool;
  m_isSocket : bool;
  m_sysNonblock : bool;
  m_userNonblock : bool;
  m_isClsed : bool;
  m_fd : Z;
  m_recvTimeout : Z;
  m_sendTimeout : Z
}.

Record FdManager := mkFdManager {
  m_datas : list (option nat);
  ctxs : gmap nat FdCtx;
  fl : gmap Z Z
}.

Definition set_datas d s := mkFdManager d (ctxs s) (fl s).
Definition set_ctxs c s := mkFdManager (m_datas s) c (fl s).
Definition set_fl f s := mkFdManager (m_datas s) (ctxs s) f.

(** [vector::resize]: new slots are null pointers. *)
Definition resize {A} (n : Z) (l : list (option A)) : list (option A) :=
  take (Z.to_nat n) l ++ replicate (Z.to_nat n - length l) None.

Definition FdManager_new : FdManager := mkFdManager (resize 64 []) ∅ ∅.

Section kernel.
(** [fstat]: [None] is the error, [Some b] whether the descriptor is a socket. *)
Variable fstat : Z -> option bool.

Definition is_socket (fd : Z) : bool := match fstat fd with Some b => b | None => false end.

(** [FdCtx::init] on the object and on the flags of the descriptor. *)
Definition init (c : FdCtx) (f : gmap Z Z) : FdCtx * gmap Z Z * bool :=
  if m_isInit c then (c, f, true)
  else
    let isInit := match fstat (m_fd c) with Some _ => true | None => false end in
    let isSocket := is_socket (m_fd c) in
    let flags := default 0 (f !! m_fd c) in
    let f' := if isSocket && (Z.land flags O_NONBLOCK =? 0)
              then <[m_fd c := Z.lor flags O_NONBLOCK]> f else f in
    (mkFdCtx isInit isSocket isSocket false false (m_fd c) (u64 (-1)) (u64 (-1)), f', isInit).

Definition FdCtx_new (fd : Z) (f : gmap Z Z) : FdCtx * gmap Z Z :=
  fst (init (mkFdCtx false false false false false fd (u64 (-1)) (u64 (-1))) f).

Definition setTimeout (type v : Z) (c : FdCtx) : FdCtx :=
  if type =? SO_RCVTIMEO
  then mkFdCtx (m_isInit c) (m_isSocket c) (m_sysNonblock c) (m_userNonblock c) (m_isClsed c)
         (m_fd c) v (m_sendTimeout c)
  else mkFdCtx (m_isInit c) (m_isSocket c) (m_sysNonblock c) (m_userNonblock c) (m_isClsed c)
         (m_fd c) (m_recvTimeout c) v.

Definition getTimeout (type : Z) (c : FdCtx) : Z :=
  if type =? SO_RCVTIMEO then m_recvTimeout c else m_sendTimeout c.

Definition setUserNonblock (v : bool) (c : FdCtx) : FdCtx :=
  mkFdCtx (m_isInit c) (m_isSocket c) (m_sysNonblock c) v (m_isClsed c) (m_fd c)
    (m_recvTimeout c) (m_sendTimeout c).

Definition setSysNonblock (v : bool) (c : FdCtx) : FdCtx :=
  mkFdCtx (m_isInit c) (m_isSocket c) v (m_userNonblock c) (m_isClsed c) (m_fd c)
    (m_recvTimeout c) (m_sendTimeout c).

(** [m_datas[fd]] and the store into it: no bounds check. *)
Definition slot (fd : Z) (s : FdManager) : outcome (option nat) :=
  if fd <? 0 then Undef OutOfBounds
  else match m_datas s !! Z.to_nat fd with Some p => Ret p | None => Undef OutOfBounds end.

Definition set_slot (fd : Z) (p : option nat) : M FdManager unit := fun s =>
  if (fd <? 0) || (zlen (m_datas s) <=? fd) then (s, Undef OutOfBounds)
  else (set_datas (<[Z.to_nat fd := p]> (m_datas s)) s, Ret tt).

(** The part of [get] under the read lock: [Some r] is an early return. *)
Definition get_read (fd : Z) (auto_create : bool) : M FdManager (option (option nat)) := fun s =>
  if fd =? -1 then (s, Ret (Some None))
  else if i32 (zlen (m_datas s)) <=? fd then
    if negb auto_create then (s, Ret (Some None)) else (s, Ret None)
  else
    match slot fd s with
    | Ret p =>
        if bool_decide (is_Some p) || negb auto_create then (s, Ret (Some p)) else (s, Ret None)
    | Throw e => (s, Throw e)
    | Undef f => (s, Undef f)
    end.

(** The part under the write lock; the allocator returns an unused address. *)
Definition get_create (fd : Z) : M FdManager (option nat) :=
  let! s := cget id in
  let p := fresh (dom (ctxs s)) in
  let c := FdCtx_new fd (fl s) in
  cmod (fun s => set_fl (snd c) (set_ctxs (<[p := fst c]> (ctxs s)) s)) ;;;
  let! n := cget (fun s => i32 (zlen (m_datas s))) in
  (if fd >=? n then cmod (fun s => set_datas (resize (times_1_5 fd) (m_datas s)) s) else cret tt) ;;;
  set_slot fd (Some p) ;;;
  cret (Some p).

Definition get (fd : Z) (auto_create : bool) : M FdManager (option nat) :=
  let! r := get_read fd auto_create in
  match r with Some p => cret p | None => get_create fd end.

Definition del (fd : Z) : M FdManager unit :=
  let! n := cget (fun s => i32 (zlen (m_datas s))) in
  if n <=? fd then cret tt else set_slot fd None.

(** ** The table as a finite map *)

(** The vector never shrinks below its first size, and stays an [int]. *)
Definition table_ok (s : FdManager) : Prop := 64 <= zlen (m_datas s) < 2 ^ 31.

Definition entry (fd : Z) (s : FdManager) : option nat :=
  if fd <? 0 then None else mjoin (m_datas s !! Z.to_nat fd).

Lemma i32_size s : table_ok s -> i32 (zlen (m_datas s)) = zlen (m_datas s).
Proof.
  unfold table_ok. intros. apply swrap_id; [lia|].
  unfold s_range. change (2 ^ (32 - 1)) with (2 ^ 31). lia.
Qed.

Lemma slot_entry fd s : 0 <= fd < zlen (m_datas s) -> slot fd s = Ret (entry fd s).
Proof.
  intros H. unfold slot, entry. rewrite (proj2 (Z.ltb_ge _ _)) by lia.
  destruct (m_datas s !! Z.to_nat fd) as [p|] eqn:E; [reflexivity|].
  apply lookup_ge_None_1 in E. unfold zlen in H. lia.
Qed.

Lemma entry_out fd s : zlen (m_datas s) <= fd -> entry fd s = None.
Proof.
  intros H. unfold entry. pose proof (zlen_nonneg (m_datas s)).
  rewrite (proj2 (Z.ltb_ge _ _)) by lia.
  rewrite lookup_ge_None_2; [reflexivity|]. unfold zlen in H. lia.
Qed.

Lemma zlen_resize {A} n (l : list (option A)) : zlen l <= n -> zlen (resize n l) = n.
Proof.
  intros H. unfold resize, zlen in *. rewrite length_app, length_take, length_replicate. lia.
Qed.

Lemma lookup_resize {A} n (l : list (option A)) i :
  zlen l <= n -> mjoin (resize n l !! i) = mjoin (l !! i).
Proof.
  intros H. unfold resize, zlen in *. rewrite take_ge by lia.
  destruct (decide (i < length l)%nat) as [Hi|Hi].
  - rewrite lookup_app_l by assumption. reflexivity.
  - rewrite lookup_app_r, (lookup_ge_None_2 l i) by lia.
    destruct (replicate _ None !! _) as [x|] eqn:E; [|reflexivity].
    apply lookup_replicate in E as [-> _]. reflexivity.
Qed.

Lemma set_slot_ok fd p s :
  0 <= fd < zlen (m_datas s) ->
  exists s', set_slot fd p s = (s', Ret tt) /\ ctxs s' = ctxs s /\ fl s' = fl s
    /\ zlen (m_datas s') = zlen (m_datas s)
    /\ forall x, entry x s' = if decide (x = fd) then p else entry x s.
Proof.
  intros H. unfold set_slot. rewrite (proj2 (Z.ltb_ge fd 0)), (proj2 (Z.leb_gt _ fd)) by lia.
  eexists. split; [reflexivity|]. split; [reflexivity|]. split; [reflexivity|].
  split; [unfold zlen; simpl; rewrite length_insert; reflexivity|].
  intros x. unfold entry. simpl. destruct (decide (x = fd)) as [->|Hne].
  - rewrite (proj2 (Z.ltb_ge fd 0)), list_lookup_insert_eq by (unfold zlen in H; lia). reflexivity.
  - destruct (Z.ltb_spec x 0); [reflexivity|].
    rewrite list_lookup_insert_ne by lia. reflexivity.
Qed.

Lemma get_create_ok fd s :
  table_ok s -> 0 <= fd < 2 ^ 30 ->
  exists s' p, get_create fd s = (s', Ret (Some p)) /\ table_ok s' /\ ctxs s !! p = None
    /\ ctxs s' = <[p := fst (FdCtx_new fd (fl s))]> (ctxs s)
    /\ fl s' = snd (FdCtx_new fd (fl s))
    /\ forall x, entry x s' = if decide (x = fd) then Some p else entry x s.
Proof.
  intros T Hfd. unfold get_create. rewrite cbind_get, cbind_mod, cbind_get. unfold id.
  set (p := fresh (dom (ctxs s))). set (c := FdCtx_new fd (fl s)).
  set (s1 := set_fl _ _).
  assert (Hs1 : m_datas s1 = m_datas s) by reflexivity. rewrite Hs1, (i32_size s T).
  assert (Hgrow : exists s2,
    (if fd >=? zlen (m_datas s) then cmod (fun s => set_datas (resize (times_1_5 fd) (m_datas s)) s)
     else cret tt) s1 = (s2, Ret tt)
    /\ ctxs s2 = ctxs s1 /\ fl s2 = fl s1 /\ fd < zlen (m_datas s2) /\ table_ok s2
    /\ forall x, entry x s2 = entry x s).
  { rewrite Z.geb_leb. destruct (Z.leb_spec (zlen (m_datas s)) fd) as [Hge|Hlt].
    - pose proof (times_1_5_gt fd) as Hg. unfold table_ok in T.
      eexists. split; [reflexivity|]. split; [reflexivity|]. split; [reflexivity|].
      assert (Hz : zlen (resize (times_1_5 fd) (m_datas s)) = times_1_5 fd)
        by (apply zlen_resize; lia).
      assert (Hup : times_1_5 fd < 2 ^ 31)
        by (unfold times_1_5; apply Z.div_lt_upper_bound; lia).
      split; [simpl; rewrite Hz; lia|]. split; [unfold table_ok; simpl; rewrite Hz; lia|].
      intros x. unfold entry. simpl. destruct (x <? 0); [reflexivity|]. apply lookup_resize. lia.
    - exists s1. repeat split; auto; try apply T; try lia. }
  destruct Hgrow as (s2 & Hrun & Hc2 & Hf2 & Hlt & T2 & He). cstep Hrun.
  destruct (set_slot_ok fd (Some p) s2 ltac:(lia)) as (s3 & Hset & Hc3 & Hf3 & Hz3 & He3).
  cstep Hset. exists s3, p. split; [reflexivity|].
  split; [unfold table_ok in *; rewrite Hz3; assumption|].
  split; [apply not_elem_of_dom, is_fresh|]. split; [rewrite Hc3, Hc2; reflexivity|].
  split; [rewrite Hf3, Hf2; reflexivity|]. intros x. rewrite He3, He. reflexivity.
Qed.
End kernel.

(** [get] without a creation, and [get] that creates. *)
Lemma get_entry fstat fd b s :
  table_ok s -> 0 <= fd -> is_Some (entry fd s) \/ b = false -> get fstat fd b s = (s, Ret (entry fd s)).
Proof.
  intros T Hfd Hb. pose proof (i32_size s T) as Hi.
  unfold get, get_read, cbind. rewrite (proj2 (Z.eqb_neq fd (-1))), Hi by lia.
  destruct (Z.leb_spec (zlen (m_datas s)) fd) as [Hge|Hlt].
  - rewrite entry_out by assumption. destruct Hb as [[p Hp]| ->]; [|reflexivity].
    rewrite entry_out in Hp by assumption. discriminate.
  - rewrite slot_entry by lia. destruct Hb as [Hs| ->].
    + rewrite bool_decide_eq_true_2 by assumption. reflexivity.
    + rewrite orb_true_r. reflexivity.
Qed.

Lemma get_new fstat fd s :
  table_ok s -> 0 <= fd -> entry fd s = None -> get fstat fd true s = get_create fstat fd s.
Proof.
  intros T Hfd He. assert (Hr : get_read fd true s = (s, Ret None)).
  { unfold get_read. rewrite (proj2 (Z.eqb_neq fd (-1))), (i32_size s T) by lia.
    destruct (Z.leb_spec (zlen (m_datas s)) fd); [reflexivity|]. rewrite slot_entry, He by lia. reflexivity. }
  unfold get. cstep Hr. reflexivity.
Qed.

Lemma nonblock_set n : Z.land (if Z.land n O_NONBLOCK =? 0 then Z.lor n O_NONBLOCK else n) O_NONBLOCK = O_NONBLOCK.
Proof.
  destruct (Z.eqb_spec (Z.land n O_NONBLOCK) 0) as [E|E]; [rewrite Z.land_lor_distr_l, E; reflexivity|].
  assert (Hb : Z.testbit n 11 = true).
  { apply not_false_is_true. intros Hn. apply E. apply Z.bits_inj'. intros k Hpos.
    rewrite Z.land_spec, Z.bits_0. change O_NONBLOCK with (2 ^ 11).
    rewrite Z.pow2_bits_eqb by lia. destruct (Z.eqb_spec 11 k) as [<-|]; [|apply andb_false_r].
    rewrite Hn. reflexivity. }
  apply Z.bits_inj'. intros k Hpos. rewrite Z.land_spec. change O_NONBLOCK with (2 ^ 11).
  rewrite Z.pow2_bits_eqb by lia. destruct (Z.eqb_spec 11 k) as [<-|]; [|apply andb_false_r].
  rewrite Hb. reflexivity.
Qed.

(** A new descriptor that is a socket is left non-blocking. *)
Lemma new_nonblock fstat fd f :
  is_socket fstat fd = true -> Z.land (default 0 ((FdCtx_new fstat fd f).2 !! fd)) O_NONBLOCK = O_NONBLOCK.
Proof.
  intros Hsock. unfold FdCtx_new, init. simpl. rewrite Hsock. cbn [andb].
  pose proof (nonblock_set (default 0 (f !! fd))) as K.
  destruct (Z.land (default 0 (f !! fd)) O_NONBLOCK =? 0); [rewrite lookup_insert_eq|]; exact K.
Qed.

(** C9: the table is a finite map from descriptors to contexts.  For every
    descriptor of a process (below 2^30) [get] returns the entry; with
    [auto_create] a missing entry becomes a new context for that descriptor,
    initialised from the kernel, whose socket is left non-blocking; [del]
    empties the entry; no call touches another entry, also when the vector
    grows. *)
Theorem fd_table_is_map fstat fd s :
  table_ok s -> 0 <= fd < 2 ^ 30 ->
  get fstat fd false s = (s, Ret (entry fd s))
  /\ (is_Some (entry fd s) -> get fstat fd true s = (s, Ret (entry fd s)))
  /\ (entry fd s = None -> exists s' p c,
        get fstat fd true s = (s', Ret (Some p)) /\ table_ok s' /\ ctxs s !! p = None
        /\ ctxs s' = <[p := c]> (ctxs s) /\ m_fd c = fd
        /\ m_isSocket c = is_socket fstat fd /\ m_isInit c = bool_decide (is_Some (fstat fd))
        /\ (is_socket fstat fd = true -> Z.land (default 0 (fl s' !! fd)) O_NONBLOCK = O_NONBLOCK)
        /\ forall x, entry x s' = if decide (x = fd) then Some p else entry x s)
  /\ (exists s', del fd s = (s', Ret tt) /\ table_ok s' /\ ctxs s' = ctxs s
        /\ forall x, entry x s' = if decide (x = fd) then None else entry x s).
Proof.
  intros T Hfd. pose proof (i32_size s T) as Hi.
  split; [apply get_entry; auto; lia|]. split; [intros Hs; apply get_entry; auto; lia|]. split.
  - intros He. destruct (get_create_ok fstat fd s T Hfd) as (s' & p & Hrun & T' & Hf & Hc & Hfl & Hx).
    exists s', p, (fst (FdCtx_new fstat fd (fl s))). rewrite get_new by (auto; lia). do 4 (split; [assumption|]).
    split; [reflexivity|]. split; [reflexivity|]. split; [simpl; destruct (fstat fd); reflexivity|].
    split; [|assumption]. intros Hsock. rewrite Hfl. apply new_nonblock, Hsock.
  - unfold del. rewrite cbind_get, Hi. destruct (Z.leb_spec (zlen (m_datas s)) fd) as [Hge|Hlt].
    + exists s. split; [reflexivity|]. split; [assumption|]. split; [reflexivity|].
      intros x. destruct (decide (x = fd)) as [->|]; [apply entry_out; assumption|reflexivity].
    + destruct (set_slot_ok fd None s ltac:(lia)) as (s' & Hrun & Hc & _ & Hz & Hx).
      exists s'. split; [assumption|]. split; [unfold table_ok in *; rewrite Hz; assumption|]. auto.
Qed.

Definition demo_kernel (fd : Z) : option bool := if fd <? 100 then Some true else None.

Lemma fd_table_is_map_witness :
  exists s' p c,
    get demo_kernel 70 true FdManager_new = (s', Ret (Some p)) /\ table_ok s'
    /\ ctxs FdManager_new !! p = None /\ ctxs s' = <[p := c]> (ctxs FdManager_new) /\ m_fd c = 70
    /\ m_isSocket c = is_socket demo_kernel 70
    /\ m_isInit c = bool_decide (is_Some (demo_kernel 70))
    /\ (is_socket demo_kernel 70 = true ->
        Z.land (default 0 (fl s' !! 70)) O_NONBLOCK = O_NONBLOCK)
    /\ forall x, entry x s' = if decide (x = 70) then Some p else entry x FdManager_new.
Proof.
  apply (fd_table_is_map demo_kernel 70 FdManager_new);
    [split; vm_compute; congruence|lia|reflexivity].
Defined.

(** [get] checks under the read lock and stores under the write lock
    without checking again.  When two threads ask for the same new descriptor
    and both have done the check, they get two different contexts, and only
    the second one stays in the table: what the first thread records in its
    context is lost. *)
Theorem fd_get_race fstat fd s :
  table_ok s -> 0 <= fd < 2 ^ 30 -> entry fd s = None ->
  get_read fd true s = (s, Ret None) /\
  exists s1 p1 s2 p2,
    get_create fstat fd s = (s1, Ret (Some p1)) /\ get_create fstat fd s1 = (s2, Ret (Some p2))
    /\ p1 <> p2 /\ entry fd s2 = Some p2 /\ is_Some (ctxs s2 !! p1).
Proof.
  intros T Hfd He. split.
  - unfold get_read. rewrite (proj2 (Z.eqb_neq fd (-1))), (i32_size s T) by lia.
    destruct (Z.leb_spec (zlen (m_datas s)) fd); [reflexivity|].
    rewrite slot_entry, He by lia. reflexivity.
  - destruct (get_create_ok fstat fd s T Hfd) as (s1 & p1 & H1 & T1 & _ & Hc1 & _ & _).
    destruct (get_create_ok fstat fd s1 T1 Hfd) as (s2 & p2 & H2 & T2 & Hf2 & Hc2 & _ & Hx2).
    assert (Hne : p1 <> p2).
    { intros ->. rewrite Hc1, lookup_insert_eq in Hf2. discriminate. }
    exists s1, p1, s2, p2. split; [assumption|]. split; [assumption|]. split; [assumption|].
    split; [rewrite Hx2, decide_True; reflexivity|].
    rewrite Hc2, lookup_insert_ne, Hc1, lookup_insert_eq by congruence. eauto.
Qed.

Lemma fd_get_race_witness :
  get_read 5 true FdManager_new = (FdManager_new, Ret None) /\
  exists s1 p1 s2 p2,
    get_create demo_kernel 5 FdManager_new = (s1, Ret (Some p1))
    /\ get_create demo_kernel 5 s1 = (s2, Ret (Some p2))
    /\ p1 <> p2 /\ entry 5 s2 = Some p2 /\ is_Some (ctxs s2 !! p1).
Proof.
  apply (fd_get_race demo_kernel 5 FdManager_new);
    [split; vm_compute; congruence|lia|reflexivity].
Defined.
