(* ===== verification/Fiber.v ===== *)
(** * Fibers (sylar/fiber.h, sylar/fiber.cpp)

    A fiber is an object in a heap shared by all threads; each thread has its
    thread-local pointers.  User code is a [prog]: what a callback does between
    two calls into the library is invisible to it, so a program is the sequence
    of its library calls, its return or its exception.  A saved [ucontext_t] is
    the code that a [swapcontext] into it continues with; the context saved for
    the scheduler's own fiber is the location of its loop (Scheduler.v). *)

From stdpp Require Import base gmap list.
From Stdlib Require Import ZArith Lia.
From S2P Require Import Prelude.

Local Open Scope Z_scope.
Local Open Scope cpp_scope.

Inductive Status := INIT | HOLD | EXEC | TERM | READY | EXCEPT.

#[export] Instance Status_eq_dec : EqDecision Status.
Proof. solve_decision. Defined.

(** Code that runs in a fiber: the calls it makes.  [PIdle] is
    [Scheduler::idle], the loop [while (!stopping()) YieldToHold()]; [PRun] is
    [Scheduler::run], the callback of a scheduler's root fiber. *)
Inductive prog :=
  | PRet
  | PThrow
  | PYieldReady (k : prog)
  | PYieldHold (k : prog)
  | PScheduleCb (cb : prog) (thread : Z) (k : prog)
  | PScheduleFiber (f : nat) (thread : Z) (k : prog)
  | PIdle
  | PRun.

(** What a context continues with: [MainFunc], [CallerMainFunc], the return
    of a [swapOut] in the middle of the code, or the line after the last
    [swapOut] of [MainFunc]. *)
Inductive ctx := CMain | CCallerMain | CResume (k : prog) | CDone.

Record Fiber := mkFiber {
  m_id : Z;
  m_stacksize : Z;
  m_state : Status;
  m_ctx : ctx;
  m_stack : bool;
  m_cb : option prog
}.

Definition set_state st fb :=
  mkFiber (m_id fb) (m_stacksize fb) st (m_ctx fb) (m_stack fb) (m_cb fb).
Definition set_ctx c fb :=
  mkFiber (m_id fb) (m_stacksize fb) (m_state fb) c (m_stack fb) (m_cb fb).
Definition set_cb cb fb :=
  mkFiber (m_id fb) (m_stacksize fb) (m_state fb) (m_ctx fb) (m_stack fb) cb.

(** The heap and the counters of the process, and the thread-local pointers of
    the thread that runs. *)
Record FS := mkFS {
  fibers : gmap nat Fiber;
  s_fiber_id : Z;
  s_fiber_count : Z;
  t_fiber : option nat;
  t_threadFiber : option nat;
  t_sheduler_fiber : option nat
}.

Definition set_fibers h s :=
  mkFS h (s_fiber_id s) (s_fiber_count s) (t_fiber s) (t_threadFiber s) (t_sheduler_fiber s).
Definition set_counters i n s :=
  mkFS (fibers s) i n (t_fiber s) (t_threadFiber s) (t_sheduler_fiber s).
Definition set_t_fiber f s :=
  mkFS (fibers s) (s_fiber_id s) (s_fiber_count s) f (t_threadFiber s) (t_sheduler_fiber s).
Definition set_t_threadFiber f s :=
  mkFS (fibers s) (s_fiber_id s) (s_fiber_count s) (t_fiber s) f (t_sheduler_fiber s).

Definition fiber (f : nat) : M FS Fiber :=
  let! h := cget fibers in
  match h !! f with Some fb => cret fb | None => cundef NullDeref end.

Definition update (f : nat) (g : Fiber -> Fiber) : M FS unit :=
  let! fb := fiber f in cmod (fun s => set_fibers (<[f := g fb]> (fibers s)) s).

Definition deref_ptr (p : option nat) : M FS nat :=
  match p with Some f => cret f | None => cundef NullDeref end.

Definition SetThis (f : option nat) : M FS unit := cmod (set_t_fiber f).

Definition getState (f : nat) : M FS Status := let! fb := fiber f in cret (m_state fb).

(** [new]: the allocator returns an unused address. *)
Definition alloc (fb : Fiber) : M FS nat :=
  let! h := cget fibers in
  let f := fresh (dom h) in
  cmod (set_fibers (<[f := fb]> h)) ;;; cret f.

(** [Fiber::Fiber()], the main fiber of a thread. *)
Definition Fiber_main : M FS nat :=
  let! f := alloc (mkFiber 0 0 EXEC CDone false None) in
  SetThis (Some f) ;;;
  cmod (fun s => set_counters (s_fiber_id s) (u64 (s_fiber_count s + 1)) s) ;;;
  cret f.

Definition stack_size_default : Z := 128 * 1024.

(** [Fiber::Fiber(cb, stack_size, use_caller)]; [config] is the value of
    [fiber.stack_size]. *)
Definition Fiber_new (config : Z) (cb : option prog) (stack_size : Z) (use_caller : bool) : M FS nat :=
  cmod (fun s => set_counters (u64 (s_fiber_id s + 1)) (u64 (s_fiber_count s + 1)) s) ;;;
  let! id := cget s_fiber_id in
  alloc (mkFiber id (u32 (if stack_size =? 0 then config else stack_size)) INIT
           (if use_caller then CCallerMain else CMain) true cb).

Definition finished (st : Status) : bool :=
  match st with TERM | EXCEPT | INIT => true | _ => false end.

(** [Fiber::~Fiber]. *)
Definition Fiber_delete (f : nat) : M FS unit :=
  cmod (fun s => set_counters (s_fiber_id s) (u64 (s_fiber_count s - 1)) s) ;;;
  let! fb := fiber f in
  (if m_stack fb then cassert (finished (m_state fb))
   else
     cassert (bool_decide (m_cb fb = None)) ;;;
     cassert (bool_decide (m_state fb = EXEC)) ;;;
     let! cur := cget t_fiber in
     if bool_decide (cur = Some f) then SetThis None else cret tt) ;;;
  cmod (fun s => set_fibers (delete f (fibers s)) s).

(** [Fiber::reset]. *)
Definition reset (f : nat) (cb : option prog) : M FS unit :=
  let! fb := fiber f in
  cassert (m_stack fb) ;;;
  cassert (finished (m_state fb)) ;;;
  update f (fun fb => set_state INIT (set_ctx CMain (set_cb cb fb))).

(** Control passes to the context of [f]: an empty [m_cb] throws
    [bad_function_call] inside [MainFunc]; beyond the end of [MainFunc] is the
    assertion that is never to be reached. *)
Definition enter (f : nat) : M FS prog :=
  let! fb := fiber f in
  match m_ctx fb with
  | CMain | CCallerMain => cret (match m_cb fb with Some k => k | None => PThrow end)
  | CResume k => cret k
  | CDone => cundef AssertFailed
  end.

Definition swapIn (f : nat) : M FS prog :=
  SetThis (Some f) ;;;
  let! st := getState f in
  cassert (bool_decide (st <> EXEC)) ;;;
  update f (set_state EXEC) ;;;
  let! p := cget t_sheduler_fiber in
  let! main := deref_ptr p in
  enter f.

Definition call (f : nat) : M FS prog :=
  SetThis (Some f) ;;;
  update f (set_state EXEC) ;;;
  let! p := cget t_threadFiber in
  let! main := deref_ptr p in
  enter f.

(** [swapOut] and [back]: the rest of the code is saved, the thread continues
    where the fiber was entered. *)
Definition swapOut (f : nat) (rest : ctx) : M FS unit :=
  let! p := cget t_sheduler_fiber in
  SetThis p ;;;
  let! main := deref_ptr p in
  update f (set_ctx rest).

Definition back (f : nat) (rest : ctx) : M FS unit :=
  let! p := cget t_threadFiber in
  SetThis p ;;;
  let! main := deref_ptr p in
  update f (set_ctx rest).

Definition GetThis : M FS nat :=
  let! cur := cget t_fiber in
  match cur with
  | Some f => cret f
  | None =>
      let! f := Fiber_main in
      cmod (set_t_threadFiber (Some f)) ;;; cret f
  end.

Definition GetFiberId : M FS Z :=
  let! cur := cget t_fiber in
  match cur with Some f => let! fb := fiber f in cret (m_id fb) | None => cret 0 end.

Definition YieldToReady (k : prog) : M FS unit :=
  let! cur := GetThis in
  let! st := getState cur in
  cassert (bool_decide (st = EXEC)) ;;;
  update cur (set_state READY) ;;;
  swapOut cur (CResume k).

Definition YieldToHold (k : prog) : M FS unit :=
  let! cur := GetThis in
  let! st := getState cur in
  cassert (bool_decide (st = EXEC)) ;;;
  swapOut cur (CResume k).

(** The end of [MainFunc] after the callback returned or threw. *)
Definition MainFunc_end (normal : bool) : M FS unit :=
  let! cur := GetThis in
  (if normal then update cur (fun fb => set_state TERM (set_cb None fb))
   else update cur (set_state EXCEPT)) ;;;
  swapOut cur CDone.

(** The end of [CallerMainFunc]. *)
Definition CallerMainFunc_end (normal : bool) : M FS unit :=
  let! cur := GetThis in
  (if normal then update cur (fun fb => set_state TERM (set_cb None fb))
   else update cur (set_state EXCEPT)) ;;;
  back cur CDone.

(** ** Running the operations *)

Lemma fiber_run f fb s : fibers s !! f = Some fb -> fiber f s = (s, Ret fb).
Proof. intros H. unfold fiber. rewrite cbind_get, H. reflexivity. Qed.

Lemma update_run f g fb s :
  fibers s !! f = Some fb -> update f g s = (set_fibers (<[f := g fb]> (fibers s)) s, Ret tt).
Proof. intros H. unfold update. cstep (fiber_run f fb s H). reflexivity. Qed.

Lemma getState_run f fb s : fibers s !! f = Some fb -> getState f s = (s, Ret (m_state fb)).
Proof. intros H. unfold getState. cstep (fiber_run f fb s H). reflexivity. Qed.

Lemma deref_run {A} f (k : nat -> M FS A) s : cbind (deref_ptr (Some f)) k s = k f s.
Proof. reflexivity. Qed.

(** What a context yields when it is entered. *)
Definition entry_code (fb : Fiber) : option prog :=
  match m_ctx fb with
  | CMain | CCallerMain => Some (match m_cb fb with Some k => k | None => PThrow end)
  | CResume k => Some k
  | CDone => None
  end.

Lemma swapIn_ok f fb main k s :
  fibers s !! f = Some fb -> m_state fb <> EXEC -> t_sheduler_fiber s = Some main ->
  entry_code fb = Some k ->
  swapIn f s = (set_fibers (<[f := set_state EXEC fb]> (fibers s)) (set_t_fiber (Some f) s), Ret k).
Proof.
  intros Hf Hst Hm Hk. unfold swapIn, SetThis. rewrite cbind_mod.
  assert (Hf1 : fibers (set_t_fiber (Some f) s) !! f = Some fb) by exact Hf.
  cstep (getState_run f fb _ Hf1).
  rewrite cbind_assert by (apply bool_decide_eq_true_2; assumption).
  cstep (update_run f (set_state EXEC) fb _ Hf1). rewrite cbind_get. cbn [t_sheduler_fiber set_fibers set_t_fiber].
  rewrite Hm, deref_run.
  unfold enter. erewrite cbind_ret by (apply fiber_run; simpl; apply lookup_insert_eq).
  unfold entry_code in Hk. simpl. destruct (m_ctx fb); simplify_eq; reflexivity.
Qed.

Lemma reset_ok f fb cb s :
  fibers s !! f = Some fb -> m_stack fb = true -> finished (m_state fb) = true ->
  reset f cb s = (set_fibers (<[f := set_state INIT (set_ctx CMain (set_cb cb fb))]> (fibers s)) s,
                  Ret tt).
Proof.
  intros Hf Hs Hd. unfold reset. cstep (fiber_run f fb s Hf). rewrite !cbind_assert by assumption. rewrite (update_run f _ fb s Hf). reflexivity.
Qed.

(** Leaving a fiber from its own code. *)
Lemma swapOut_ok f fb main rest s :
  fibers s !! f = Some fb -> t_sheduler_fiber s = Some main ->
  swapOut f rest s = (set_fibers (<[f := set_ctx rest fb]> (fibers s)) (set_t_fiber (Some main) s),
                      Ret tt).
Proof.
  intros Hf Hm. unfold swapOut, SetThis. rewrite cbind_get, Hm, cbind_mod, deref_run.
  rewrite (update_run f _ fb (set_t_fiber (Some main) s) Hf). reflexivity.
Qed.

(** The three ways out: the state the fiber is left in. *)
Lemma leave_ok f fb main k s :
  t_fiber s = Some f -> fibers s !! f = Some fb -> m_state fb = EXEC ->
  t_sheduler_fiber s = Some main ->
  let out fb' := (set_fibers (<[f := fb']> (fibers s)) (set_t_fiber (Some main) s), Ret tt) in
  YieldToReady k s = out (set_ctx (CResume k) (set_state READY fb))
  /\ YieldToHold k s = out (set_ctx (CResume k) fb)
  /\ MainFunc_end true s = out (set_ctx CDone (set_state TERM (set_cb None fb)))
  /\ MainFunc_end false s = out (set_ctx CDone (set_state EXCEPT fb)).
Proof.
  intros Hc Hf Hst Hm out. unfold YieldToReady, YieldToHold, MainFunc_end, GetThis.
  assert (Hg : cbind (cget t_fiber) (fun cur => match cur with
      | Some f0 => cret f0
      | None => let! f0 := Fiber_main in cmod (set_t_threadFiber (Some f0)) ;;; cret f0
      end) s = (s, Ret f)) by (rewrite cbind_get, Hc; reflexivity).
  pose proof (getState_run f fb s Hf) as Hs.
  assert (Hup : forall g rest,
    (update f g ;;; swapOut f rest) s = out (set_ctx rest (g fb))).
  { intros g rest. cstep (update_run f g fb s Hf).
    rewrite (swapOut_ok f (g fb) main rest) by (exact Hm || apply lookup_insert_eq).
    unfold out, set_fibers, set_t_fiber. simpl. rewrite insert_insert_eq. reflexivity. }
  split; [|split; [|split]].
  - cstep Hg. cstep Hs. rewrite cbind_assert by (apply bool_decide_eq_true_2; assumption).
    apply Hup.
  - cstep Hg. cstep Hs. rewrite cbind_assert by (apply bool_decide_eq_true_2; assumption).
    apply (swapOut_ok f fb main _ s Hf Hm).
  - cstep Hg. apply Hup.
  - cstep Hg. apply Hup.
Qed.

Definition new_fiber (config : Z) (cb : option prog) (stack_size : Z) (s : FS) : Fiber :=
  mkFiber (u64 (s_fiber_id s + 1)) (u32 (if stack_size =? 0 then config else stack_size)) INIT
    CMain true cb.

Lemma Fiber_new_run config cb stack_size s :
  let f := fresh (dom (fibers s)) in
  Fiber_new config cb stack_size false s
    = (set_fibers (<[f := new_fiber config cb stack_size s]> (fibers s))
         (set_counters (u64 (s_fiber_id s + 1)) (u64 (s_fiber_count s + 1)) s), Ret f).
Proof. reflexivity. Qed.

(** The first [GetThis] of a thread makes its main fiber. *)
Definition main_fiber : Fiber := mkFiber 0 0 EXEC CDone false None.

Lemma GetThis_new s :
  t_fiber s = None ->
  let f := fresh (dom (fibers s)) in
  GetThis s = (mkFS (<[f := main_fiber]> (fibers s)) (s_fiber_id s) (u64 (s_fiber_count s + 1))
                 (Some f) (Some f) (t_sheduler_fiber s), Ret f).
Proof. intros H. unfold GetThis. rewrite cbind_get, H. reflexivity. Qed.
