(* ===== verification/Scheduler.v ===== *)
(** * The scheduler (sylar/scheduler.h, sylar/scheduler.cpp)

    N threads run [Scheduler::run] over one queue of tasks.  A thread has its
    thread-local pointers, the locals [cb_fiber] and [idle_fiber] of [run], and
    a location; [thread_step] is what a thread does from its location to the
    next point where other threads can see a difference: the critical section
    that takes a task, the switch into a fiber, each library call the fiber
    makes, the switch back, the decrement of the counter, and what follows it.
    Any interleaving of the steps of the threads, of calls of [schedule] from
    outside and of [Stop] is a run. *)

From stdpp Require Import base gmap list.
From Stdlib Require Import ZArith Lia.
From S2P Require Import Prelude Fiber.

Local Open Scope Z_scope.
Local Open Scope cpp_scope.

(** A task: a fiber or a callback, and the thread it is bound to (-1: any). *)
Record FiberAndThread := mkFT {
  ft_fiber : option nat;
  ft_cb : option prog;
  ft_thread : Z
}.

Definition ft_empty : FiberAndThread := mkFT None None (-1).

(** Where a thread is in [run].  [KFiber]: inside the branch that runs a
    queued fiber; [KCb]: inside the one that runs a callback in [cb_fiber]. *)
Inductive kind := KFiber | KCb.

Inductive loc :=
  | LTop
  | LPicked (ft : FiberAndThread) (trickle_me is_active : bool)
  | LIn (k : kind) (f : nat) (code : prog)
  | LBack (k : kind) (f : nat)
  | LAfter (k : kind) (f : nat)
  | LInIdle (code : prog)
  | LBackIdle
  | LExit.

Record Thread := mkThread {
  th_loc : loc;
  th_cb_fiber : option nat;
  th_idle : nat;
  th_t_fiber : option nat;
  th_threadFiber : option nat;
  th_main : option nat
}.

Record Sched := mkSched {
  sfibers : gmap nat Fiber;
  sid : Z;
  scount : Z;
  m_fibers : list FiberAndThread;
  m_activeThreadCount : Z;
  m_idleThreadCount : Z;
  m_stopping : bool;
  m_autoStop : bool;
  threads : gmap Z Thread;
  trickles : nat
}.

Definition set_queue q s := mkSched (sfibers s) (sid s) (scount s) q (m_activeThreadCount s)
  (m_idleThreadCount s) (m_stopping s) (m_autoStop s) (threads s) (trickles s).
Definition add_active d s := mkSched (sfibers s) (sid s) (scount s) (m_fibers s)
  (u64 (m_activeThreadCount s + d)) (m_idleThreadCount s) (m_stopping s) (m_autoStop s)
  (threads s) (trickles s).
Definition add_idle d s := mkSched (sfibers s) (sid s) (scount s) (m_fibers s)
  (m_activeThreadCount s) (u64 (m_idleThreadCount s + d)) (m_stopping s) (m_autoStop s)
  (threads s) (trickles s).
Definition set_flags st au s := mkSched (sfibers s) (sid s) (scount s) (m_fibers s)
  (m_activeThreadCount s) (m_idleThreadCount s) st au (threads s) (trickles s).
Definition set_threads t s := mkSched (sfibers s) (sid s) (scount s) (m_fibers s)
  (m_activeThreadCount s) (m_idleThreadCount s) (m_stopping s) (m_autoStop s) t (trickles s).
Definition add_trickle s := mkSched (sfibers s) (sid s) (scount s) (m_fibers s)
  (m_activeThreadCount s) (m_idleThreadCount s) (m_stopping s) (m_autoStop s) (threads s)
  (S (trickles s)).

Definition set_loc l th :=
  mkThread l (th_cb_fiber th) (th_idle th) (th_t_fiber th) (th_threadFiber th) (th_main th).
Definition set_cb_fiber c th :=
  mkThread (th_loc th) c (th_idle th) (th_t_fiber th) (th_threadFiber th) (th_main th).

Definition Scheduler_new : Sched := mkSched ∅ 0 0 [] 0 0 true false ∅ 0.

Definition thread (tid : Z) : M Sched Thread :=
  let! m := cget threads in
  match m !! tid with Some th => cret th | None => cundef NullDeref end.

Definition upd_thread (tid : Z) (g : Thread -> Thread) : M Sched unit :=
  cmod (fun s => set_threads (alter g tid (threads s)) s).

Definition goto (tid : Z) (l : loc) : M Sched unit := upd_thread tid (set_loc l).

(** A fiber operation run by a thread: on the shared heap and on the thread's
    own thread-local pointers. *)
Definition view (s : Sched) (th : Thread) : FS :=
  mkFS (sfibers s) (sid s) (scount s) (th_t_fiber th) (th_threadFiber th) (th_main th).

Definition unview (fs : FS) (tid : Z) (th : Thread) (s : Sched) : Sched :=
  mkSched (fibers fs) (s_fiber_id fs) (s_fiber_count fs) (m_fibers s) (m_activeThreadCount s)
    (m_idleThreadCount s) (m_stopping s) (m_autoStop s)
    (<[tid := mkThread (th_loc th) (th_cb_fiber th) (th_idle th) (t_fiber fs) (t_threadFiber fs)
               (t_sheduler_fiber fs)]> (threads s))
    (trickles s).

Definition on_thread {A} (tid : Z) (m : M FS A) : M Sched A := fun s =>
  match threads s !! tid with
  | None => (s, Undef NullDeref)
  | Some th => let '(fs, r) := m (view s th) in (unview fs tid th s, r)
  end.

(** [Scheduler::trickle]: the base class logs only. *)
Definition trickle : M Sched unit := cmod add_trickle.

Definition hasIdleThreads : M Sched bool := cget (fun s => m_idleThreadCount s >? 0).

(** [scheduleNoLock] and [schedule]. *)
Definition scheduleNoLock (ft : FiberAndThread) : M Sched bool :=
  let! q := cget m_fibers in
  (if bool_decide (is_Some (ft_fiber ft)) || bool_decide (is_Some (ft_cb ft))
   then cmod (set_queue (q ++ [ft])) else cret tt) ;;;
  cret (bool_decide (q = [])).

Definition schedule (ft : FiberAndThread) : M Sched unit :=
  let! need_trickle := scheduleNoLock ft in
  if need_trickle then trickle else cret tt.

(** [schedule(begin, end)]. *)
Fixpoint schedule_loop (fts : list FiberAndThread) (need_trickle : bool) : M Sched bool :=
  match fts with
  | [] => cret need_trickle
  | ft :: rest => let! b := scheduleNoLock ft in schedule_loop rest (b || need_trickle)
  end.

Definition schedule_all (fts : list FiberAndThread) : M Sched unit :=
  let! need_trickle := schedule_loop fts false in
  if need_trickle then trickle else cret tt.

Definition stopping : M Sched bool :=
  cget (fun s => m_autoStop s && m_stopping s && bool_decide (m_fibers s = [])
                 && (m_activeThreadCount s =? 0)).

(** The scan of the queue under the lock: the task taken, the rest, and
    [trickle_me]. *)
Fixpoint pick (tid : Z) (h : gmap nat Fiber) (q : list FiberAndThread)
    : outcome (option FiberAndThread * list FiberAndThread * bool) :=
  match q with
  | [] => Ret (None, [], false)
  | ft :: r =>
      if negb (ft_thread ft =? -1) && negb (ft_thread ft =? tid) then
        obind (pick tid h r) (fun x => Ret (x.1.1, ft :: x.1.2, true))
      else if negb (bool_decide (is_Some (ft_fiber ft))) && negb (bool_decide (is_Some (ft_cb ft)))
      then Undef AssertFailed
      else
        match ft_fiber ft with
        | Some f =>
            match h !! f with
            | None => Undef NullDeref
            | Some fb =>
                if bool_decide (m_state fb = EXEC)
                then obind (pick tid h r) (fun x => Ret (x.1.1, ft :: x.1.2, x.2))
                else Ret (Some ft, r, negb (bool_decide (r = [])))
            end
        | None => Ret (Some ft, r, negb (bool_decide (r = [])))
        end
  end.

(** A library call of the code running in a fiber of thread [tid].  The loop of
    the scheduler is never the code of a fiber that the loop itself runs. *)
Definition fiber_step (tid : Z) (code : prog) (cont : prog -> loc) (back : loc) : M Sched unit :=
  match code with
  | PRet => on_thread tid (MainFunc_end true) ;;; goto tid back
  | PThrow => on_thread tid (MainFunc_end false) ;;; goto tid back
  | PYieldReady k => on_thread tid (YieldToReady k) ;;; goto tid back
  | PYieldHold k => on_thread tid (YieldToHold k) ;;; goto tid back
  | PScheduleCb cb t k => schedule (mkFT None (Some cb) t) ;;; goto tid (cont k)
  | PScheduleFiber f t k => schedule (mkFT (Some f) None t) ;;; goto tid (cont k)
  | PIdle =>
      let! b := stopping in
      if b then on_thread tid (MainFunc_end true) ;;; goto tid back
      else on_thread tid (YieldToHold PIdle) ;;; goto tid back
  | PRun => cundef AssertFailed
  end.

Definition live (st : Status) : bool := match st with TERM | EXCEPT => false | _ => true end.

(** The steps of [Scheduler::run]; [config] is [fiber.stack_size]. *)
Definition step_top (tid : Z) : M Sched unit :=
  let! s := cget id in
  let! x := lift (pick tid (sfibers s) (m_fibers s)) in
  cmod (set_queue x.1.2) ;;;
  match x.1.1 with
  | Some ft => cmod (add_active 1) ;;; goto tid (LPicked ft x.2 true)
  | None => goto tid (LPicked ft_empty x.2 false)
  end.

(** [reset] of the cached fiber, or a new one. *)
Definition take_cb_fiber (config : Z) (tid : Z) (cb : prog) : M Sched nat :=
  let! th := thread tid in
  match th_cb_fiber th with
  | Some c => on_thread tid (reset c (Some cb)) ;;; cret c
  | None =>
      let! c := on_thread tid (Fiber_new config (Some cb) 0 false) in
      upd_thread tid (set_cb_fiber (Some c)) ;;; cret c
  end.

Definition step_picked (config : Z) (tid : Z) (ft : FiberAndThread) (trickle_me is_active : bool)
    : M Sched unit :=
  (if trickle_me then trickle else cret tt) ;;;
  let! go := (match ft_fiber ft with
              | Some f => let! st := on_thread tid (getState f) in cret (live st)
              | None => cret false
              end) in
  match ft_fiber ft, go with
  | Some f, true =>
      let! code := on_thread tid (swapIn f) in goto tid (LIn KFiber f code)
  | _, _ =>
      match ft_cb ft with
      | Some cb =>
          let! c := take_cb_fiber config tid cb in
          let! code := on_thread tid (swapIn c) in
          goto tid (LIn KCb c code)
      | None =>
          if is_active then cmod (add_active (-1)) ;;; goto tid LTop
          else
            let! th := thread tid in
            let! st := on_thread tid (getState (th_idle th)) in
            if bool_decide (st = TERM) then goto tid LExit
            else
              cmod (add_idle 1) ;;;
              let! code := on_thread tid (swapIn (th_idle th)) in
              goto tid (LInIdle code)
      end
  end.

Definition step_after (tid : Z) (k : kind) (f : nat) : M Sched unit :=
  let! st := on_thread tid (getState f) in
  (match k with
   | KFiber =>
       if bool_decide (st = READY) then schedule (mkFT (Some f) None (-1))
       else if live st then on_thread tid (update f (set_state HOLD))
       else cret tt
   | KCb =>
       if bool_decide (st = READY) then
         schedule (mkFT (Some f) None (-1)) ;;; upd_thread tid (set_cb_fiber None)
       else if live st then
         on_thread tid (update f (set_state HOLD)) ;;; upd_thread tid (set_cb_fiber None)
       else on_thread tid (reset f None)
   end) ;;;
  goto tid LTop.

Definition step_back_idle (tid : Z) : M Sched unit :=
  cmod (add_idle (-1)) ;;;
  let! th := thread tid in
  let! st := on_thread tid (getState (th_idle th)) in
  (if live st then on_thread tid (update (th_idle th) (set_state HOLD)) else cret tt) ;;;
  goto tid LTop.

Definition thread_step (config : Z) (tid : Z) : M Sched unit :=
  let! th := thread tid in
  match th_loc th with
  | LTop => step_top tid
  | LPicked ft trickle_me is_active => step_picked config tid ft trickle_me is_active
  | LIn k f code => fiber_step tid code (LIn k f) (LBack k f)
  | LBack k f => cmod (add_active (-1)) ;;; goto tid (LAfter k f)
  | LAfter k f => step_after tid k f
  | LInIdle code => fiber_step tid code LInIdle LBackIdle
  | LBackIdle => step_back_idle tid
  | LExit => cret tt
  end.

(** The beginning of [run] in a new thread: the thread's main fiber becomes
    its scheduling fiber, and the idle fiber is created. *)
Definition run_start (config : Z) (tid : Z) : M Sched unit :=
  cmod (fun s => set_threads (<[tid := mkThread LTop None 0 None None None]> (threads s)) s) ;;;
  let! m := on_thread tid GetThis in
  upd_thread tid (fun th => mkThread (th_loc th) (th_cb_fiber th) (th_idle th) (th_t_fiber th)
                              (th_threadFiber th) (Some m)) ;;;
  let! i := on_thread tid (Fiber_new config (Some PIdle) 0 false) in
  upd_thread tid (fun th => mkThread (th_loc th) (th_cb_fiber th) i (th_t_fiber th)
                              (th_threadFiber th) (th_main th)).

(** What [Stop] does to the loop: the flags, and a trickle for each thread. *)
Definition request_stop (n : nat) : M Sched unit :=
  cmod (set_flags true true) ;;;
  Nat.iter n (fun m => trickle ;;; m) (cret tt).
