(* ===== verification/SchedulerSafe.v ===== *)
(** * Fibers run on one thread at a time (sylar/scheduler.cpp)

    The safety argument of the scheduler.  Every fiber has one [role]: free,
    queued, taken by a thread, running on a thread (and perhaps queued already
    for its next turn), cached as a thread's [cb_fiber], a thread's idle or main
    fiber, or a fiber of a thread that is not in the loop: its main fiber, or the
    root fiber of the scheduler.  [SInv] ties the roles to the queue, the heap and the locations of
    the threads.  The code relies on a rule that it does not check: a fiber is
    scheduled only while it is in nobody's hands or about to be held
    ([can_schedule]), and it does not end or yield to READY while it is queued
    ([allowed]). *)

From stdpp Require Import base gmap list.
From Stdlib Require Import ZArith Lia.
From S2P Require Import Prelude Fiber Scheduler.

Local Open Scope Z_scope.
Local Open Scope cpp_scope.

Inductive role :=
  | RFree
  | RQueued
  | RPicked (t : Z)
  | RRun (t : Z) (q : bool)
  | RCached (t : Z)
  | RIdle (t : Z)
  | RMain (t : Z)
  | RCaller.

Definition owner (r : role) : option Z :=
  match r with
  | RPicked t | RRun t _ | RCached t | RIdle t | RMain t => Some t
  | RFree | RQueued | RCaller => None
  end.

Definition isq (r : role) : bool :=
  match r with RQueued | RRun _ true => true | _ => false end.

Definition upd (ro : nat -> role) (f : nat) (r : role) (g : nat) : role :=
  if decide (g = f) then r else ro g.

Lemma upd_eq ro f r : upd ro f r f = r.
Proof. unfold upd. rewrite decide_True; reflexivity. Qed.

Lemma upd_ne ro f r g : g <> f -> upd ro f r g = ro g.
Proof. intros. unfold upd. rewrite decide_False; auto. Qed.

(** Only a dead fiber is past the end of [MainFunc]. *)
Definition resumable (fb : Fiber) : Prop :=
  m_ctx fb = CDone -> m_state fb = TERM \/ m_state fb = EXCEPT.

Definition at_rest (fb : Fiber) : Prop :=
  m_stack fb = true /\ m_state fb <> EXEC /\ resumable fb.

Definition fiber_ok (r : role) (o : option Fiber) : Prop :=
  match r with
  | RFree => forall fb, o = Some fb -> at_rest fb
  | RQueued | RPicked _ => exists fb, o = Some fb /\ at_rest fb
  | RRun _ q => exists fb, o = Some fb /\ m_stack fb = true /\ (q = true -> m_state fb = EXEC)
  | RCached _ => exists fb, o = Some fb /\ m_stack fb = true /\ finished (m_state fb) = true
  | RIdle _ => exists fb, o = Some fb /\ m_stack fb = true
  | RMain _ => exists fb, o = Some fb
  | RCaller => exists fb, o = Some fb
  end.

Definition running (l : loc) : option (kind * nat) :=
  match l with
  | LIn k f _ | LBack k f | LAfter k f => Some (k, f)
  | _ => None
  end.

Definition back_ok (q : bool) (fb : Fiber) : Prop :=
  (m_state fb = EXEC /\ m_ctx fb <> CDone)
  \/ (q = false /\ ((m_state fb = READY /\ m_ctx fb <> CDone)
                    \/ m_state fb = TERM \/ m_state fb = EXCEPT)).

Definition loc_ok (ro : nat -> role) (h : gmap nat Fiber) (tid : Z) (th : Thread) : Prop :=
  match th_loc th with
  | LPicked ft _ act =>
      (act = false -> ft = ft_empty)
      /\ (act = true -> is_Some (ft_fiber ft) <-> ft_cb ft = None)
      /\ (forall f, ft_fiber ft = Some f -> ro f = RPicked tid)
  | LIn k f code =>
      th_t_fiber th = Some f
      /\ exists q fb, ro f = RRun tid q /\ h !! f = Some fb /\ m_state fb = EXEC
  | LBack k f | LAfter k f => exists q fb, ro f = RRun tid q /\ h !! f = Some fb /\ back_ok q fb
  | LInIdle code => code = PIdle /\ th_t_fiber th = Some (th_idle th)
  | _ => True
  end.

(** The state of the idle fiber [fb] of a thread at [l]. *)
Definition idle_at (l : loc) (fb : Fiber) : Prop :=
  match l with
  | LInIdle _ => m_state fb = EXEC
  | LBackIdle => (m_state fb = EXEC /\ m_ctx fb = CResume PIdle) \/ m_state fb = TERM
  | LExit => m_state fb = TERM
  | _ => m_state fb = TERM
         \/ (m_state fb <> EXEC /\ m_state fb <> EXCEPT /\ entry_code fb = Some PIdle)
  end.

Definition idle_ok (h : gmap nat Fiber) (th : Thread) : Prop :=
  exists fb, h !! th_idle th = Some fb /\ idle_at (th_loc th) fb.

Definition cb_ok (ro : nat -> role) (tid : Z) (th : Thread) : Prop :=
  match running (th_loc th) with
  | Some (KCb, f) => th_cb_fiber th = Some f
  | _ => forall c, th_cb_fiber th = Some c -> ro c = RCached tid
  end.

Record thr_ok (ro : nat -> role) (h : gmap nat Fiber) (tid : Z) (th : Thread) : Prop := {
  tk_loc : loc_ok ro h tid th;
  tk_idle : idle_ok h th;
  tk_ridle : ro (th_idle th) = RIdle tid;
  tk_cb : cb_ok ro tid th;
  tk_main : exists m, th_main th = Some m /\ ro m = RMain tid
}.

Definition owns (th : Thread) (g : nat) (r : role) : Prop :=
  match r with
  | RPicked _ => exists ft tm act, th_loc th = LPicked ft tm act /\ ft_fiber ft = Some g
  | RRun _ _ => exists k, running (th_loc th) = Some (k, g)
  | RCached _ => th_cb_fiber th = Some g /\ running (th_loc th) <> Some (KCb, g)
  | RIdle _ => th_idle th = g
  | RMain _ => th_main th = Some g
  | RFree | RQueued | RCaller => True
  end.

(** The fibers in the queue. *)
Definition qf (q : list FiberAndThread) : list nat := omap ft_fiber q.

Definition entry_ok (ft : FiberAndThread) : Prop := is_Some (ft_fiber ft) <-> ft_cb ft = None.

Record queue_ok (ro : nat -> role) (q : list FiberAndThread) : Prop := {
  qk_elem g : g ∈ qf q <-> isq (ro g) = true;
  qk_nodup : NoDup (qf q);
  qk_entry : Forall entry_ok q
}.

(** Fibers of threads outside the loop that nobody touches, with what is in
    them: the root fiber of a scheduler before it is called and after. *)
Class Protected := protected : gmap nat Fiber.

Section invariant.
Context {Pr : Protected}.

Record SInv (ro : nat -> role) (s : Sched) : Prop := {
  si_thr tid th : threads s !! tid = Some th -> thr_ok ro (sfibers s) tid th;
  si_own g t : owner (ro g) = Some t -> exists th, threads s !! t = Some th /\ owns th g (ro g);
  si_queue : queue_ok ro (m_fibers s);
  si_fiber g : fiber_ok (ro g) (sfibers s !! g);
  si_prot g fb : protected !! g = Some fb -> ro g = RCaller /\ sfibers s !! g = Some fb;
  si_caller g fb : ro g = RCaller -> sfibers s !! g = Some fb -> m_stack fb = true ->
    is_Some (protected !! g)
}.

#[local] Hint Extern 1 (_ <> RCaller) => congruence : core.

(** ** Framing *)

Lemma thr_ok_frame ro h ro' h' tid th :
  (forall g, owner (ro g) = Some tid -> ro' g = ro g /\ h' !! g = h !! g) ->
  thr_ok ro h tid th -> thr_ok ro' h' tid th.
Proof.
  intros F [Hl Hi Hri Hc (m & Hm & Hrm)].
  destruct (F (th_idle th)) as [F1 F2]; [rewrite Hri; reflexivity|].
  constructor.
  - unfold loc_ok in *. destruct (th_loc th); auto.
    + destruct Hl as (H1 & H2 & H3). split; [assumption|]. split; [assumption|]. intros f Hf.
      destruct (F f) as [-> _]; rewrite (H3 f Hf); reflexivity.
    + destruct Hl as (Ht & q & fb & H1 & H2 & H3). split; [assumption|]. exists q, fb.
      destruct (F f) as [-> ->]; rewrite ?H1; auto.
    + destruct Hl as (q & fb & H1 & H2 & H3). exists q, fb.
      destruct (F f) as [-> ->]; rewrite ?H1; auto.
    + destruct Hl as (q & fb & H1 & H2 & H3). exists q, fb.
      destruct (F f) as [-> ->]; rewrite ?H1; auto.
  - unfold idle_ok in *. rewrite F2. assumption.
  - congruence.
  - unfold cb_ok in *. destruct (running (th_loc th)) as [[[] f]|]; auto;
      intros c Hcb; destruct (F c) as [-> _]; rewrite (Hc c Hcb); reflexivity.
  - exists m. split; [assumption|]. destruct (F m) as [-> _]; rewrite Hrm; reflexivity.
Qed.

(** A step of thread [tid] that changes one fiber. *)
Lemma local_step ro s s' tid th th' f r :
  SInv ro s -> threads s !! tid = Some th ->
  threads s' = <[tid := th']> (threads s) ->
  (owner (ro f) = None \/ owner (ro f) = Some tid) ->
  (owner r = None \/ owner r = Some tid) ->
  (forall g, g <> f -> sfibers s' !! g = sfibers s !! g) ->
  thr_ok (upd ro f r) (sfibers s') tid th' ->
  (forall g, g <> f -> owner (ro g) = Some tid -> owns th' g (ro g)) ->
  (owner r = Some tid -> owns th' f r) ->
  queue_ok (upd ro f r) (m_fibers s') ->
  fiber_ok r (sfibers s' !! f) ->
  ro f <> RCaller -> r <> RCaller ->
  SInv (upd ro f r) s'.
Proof.
  intros I Ht Ht' Ho Ho' Hh Hk Hown Hown' Hq Hf Hnc Hrc. constructor; [| |assumption| | |].
  - intros t u Hu. rewrite Ht' in Hu. destruct (decide (t = tid)) as [->|Hne].
    + rewrite lookup_insert_eq in Hu. injection Hu as <-. assumption.
    + rewrite lookup_insert_ne in Hu by congruence.
      apply (thr_ok_frame ro (sfibers s)); [|apply (si_thr _ _ I _ _ Hu)].
      intros g Hg. assert (g <> f) by (intros ->; destruct Ho; congruence).
      rewrite upd_ne by assumption. auto.
  - intros g t Hg. rewrite Ht'. destruct (decide (g = f)) as [->|Hne].
    + rewrite upd_eq in *. assert (t = tid) as -> by (destruct Ho'; congruence).
      exists th'. rewrite lookup_insert_eq. auto.
    + rewrite upd_ne in * by assumption. destruct (decide (t = tid)) as [->|Hnt].
      * exists th'. rewrite lookup_insert_eq. auto.
      * rewrite lookup_insert_ne by congruence. apply (si_own _ _ I _ _ Hg).
  - intros g. destruct (decide (g = f)) as [->|Hne].
    + rewrite upd_eq. assumption.
    + rewrite upd_ne, Hh by assumption. apply (si_fiber _ _ I).
  - intros g fb Hg. destruct (si_prot _ _ I g fb Hg) as [Hr Hgb].
    assert (g <> f) by congruence. by rewrite upd_ne, Hh.
  - intros g fb Hg Hgb. assert (g <> f) as Hne by (intros ->; by rewrite upd_eq in Hg).
    rewrite upd_ne in Hg by done. rewrite Hh in Hgb by done. by apply (si_caller _ _ I).
Qed.

(** Roles of other fibers than the protected ones may change. *)
Lemma prot_upd ro s f r :
  SInv ro s -> ro f <> RCaller ->
  forall g fb, protected !! g = Some fb -> upd ro f r g = RCaller /\ sfibers s !! g = Some fb.
Proof.
  intros I Hf g fb Hg. destruct (si_prot _ _ I g fb Hg) as [Hr Hgb].
  rewrite upd_ne by congruence. auto.
Qed.

Lemma caller_upd ro s f r :
  SInv ro s -> r <> RCaller ->
  forall g fb, upd ro f r g = RCaller -> sfibers s !! g = Some fb -> m_stack fb = true ->
    is_Some (protected !! g).
Proof.
  intros I Hr g fb Hg. destruct (decide (g = f)) as [->|Hne].
  - by rewrite upd_eq in Hg.
  - rewrite upd_ne in Hg by done. by apply (si_caller _ _ I).
Qed.

Lemma queue_same ro q f r :
  queue_ok ro q -> isq r = isq (ro f) -> queue_ok (upd ro f r) q.
Proof.
  intros [H1 H2 H3] E. constructor; auto. intros g. rewrite H1.
  destruct (decide (g = f)) as [->|]; [rewrite upd_eq, E|rewrite upd_ne by assumption]; reflexivity.
Qed.

Lemma queue_push_cb ro q cb t :
  queue_ok ro q -> queue_ok ro (q ++ [mkFT None (Some cb) t]).
Proof.
  intros [H1 H2 H3]. assert (E : qf (q ++ [mkFT None (Some cb) t]) = qf q).
  { unfold qf. rewrite omap_app. simpl. apply app_nil_r. }
  constructor; rewrite ?E; auto. apply Forall_app. split; [assumption|]. repeat constructor.
  - intros [x Hx]. discriminate.
  - discriminate.
Qed.

Lemma queue_push_fiber ro q f t r :
  queue_ok ro q -> isq (ro f) = false -> isq r = true ->
  queue_ok (upd ro f r) (q ++ [mkFT (Some f) None t]).
Proof.
  intros [H1 H2 H3] Hf Hr. assert (E : qf (q ++ [mkFT (Some f) None t]) = qf q ++ [f]).
  { unfold qf. rewrite omap_app. reflexivity. }
  constructor; rewrite ?E.
  - intros g. rewrite elem_of_app, list_elem_of_singleton, H1.
    destruct (decide (g = f)) as [->|Hne]; [rewrite upd_eq|rewrite upd_ne by assumption]; tauto.
  - apply NoDup_app. split; [assumption|]. split; [|apply NoDup_singleton].
    intros g Hg Hgf. apply list_elem_of_singleton in Hgf as ->. apply H1 in Hg. congruence.
  - apply Forall_app. split; [assumption|]. repeat constructor. intros _. eexists. reflexivity.
Qed.

Lemma thread_only ro s s' tid th th' :
  SInv ro s -> threads s !! tid = Some th ->
  threads s' = <[tid := th']> (threads s) -> sfibers s' = sfibers s ->
  thr_ok ro (sfibers s) tid th' ->
  (forall g, owner (ro g) = Some tid -> owns th' g (ro g)) ->
  queue_ok ro (m_fibers s') -> SInv ro s'.
Proof.
  intros I Ht Ht' Hh Hk Hown Hq. constructor; [| |assumption|rewrite Hh; apply I..].
  - intros t u Hu. rewrite Ht', Hh in *. destruct (decide (t = tid)) as [->|Hne].
    + rewrite lookup_insert_eq in Hu. injection Hu as <-. assumption.
    + rewrite lookup_insert_ne in Hu by congruence. apply (si_thr _ _ I _ _ Hu).
  - intros g t Hg. rewrite Ht'. destruct (decide (t = tid)) as [->|Hnt].
    + exists th'. rewrite lookup_insert_eq. auto.
    + rewrite lookup_insert_ne by congruence. apply (si_own _ _ I _ _ Hg).
Qed.

Lemma own_th ro s tid th g :
  SInv ro s -> threads s !! tid = Some th -> owner (ro g) = Some tid -> owns th g (ro g).
Proof.
  intros I Ht Hg. destruct (si_own _ _ I _ _ Hg) as (th0 & Ht0 & Ho). simplify_eq. assumption.
Qed.

(** ** Running the steps *)

Lemma on_thread_run {A} tid (m : M FS A) s th fs r :
  threads s !! tid = Some th -> m (view s th) = (fs, r) ->
  on_thread tid m s = (unview fs tid th s, r).
Proof. intros Ht Hm. unfold on_thread. rewrite Ht, Hm. reflexivity. Qed.

Lemma on_goto {A} tid (m : M FS A) (l : A -> loc) s th fs a :
  threads s !! tid = Some th -> m (view s th) = (fs, Ret a) ->
  (let! x := on_thread tid m in goto tid (l x)) s = (unview fs tid (set_loc (l a) th) s, Ret tt).
Proof.
  intros Ht Hm. cstep (on_thread_run tid m s th fs (Ret a) Ht Hm).
  unfold goto, upd_thread, cmod, unview, set_threads. simpl.
  rewrite alter_insert_eq. reflexivity.
Qed.

Lemma goto_run tid l s th :
  threads s !! tid = Some th ->
  goto tid l s = (set_threads (<[tid := set_loc l th]> (threads s)) s, Ret tt).
Proof.
  intros Ht. unfold goto, upd_thread, cmod. do 2 f_equal.
  rewrite <- (insert_id (threads s) tid th Ht) at 1. rewrite alter_insert_eq. reflexivity.
Qed.

Lemma thread_run tid s th : threads s !! tid = Some th -> thread tid s = (s, Ret th).
Proof. intros Ht. unfold thread. rewrite cbind_get, Ht. reflexivity. Qed.

(** Reading the state of a fiber changes nothing. *)
Lemma state_run tid s th f fb :
  threads s !! tid = Some th -> sfibers s !! f = Some fb ->
  on_thread tid (getState f) s = (s, Ret (m_state fb)).
Proof.
  intros Ht Hf. rewrite (on_thread_run tid _ s th (view s th) (Ret (m_state fb)) Ht).
  - f_equal. unfold unview, view. simpl. destruct th; simpl.
    rewrite insert_id by assumption. destruct s; reflexivity.
  - apply getState_run. exact Hf.
Qed.

(** ** Taking a task *)

Definition eligible (tid : Z) (h : gmap nat Fiber) (ft : FiberAndThread) : Prop :=
  (ft_thread ft = -1 \/ ft_thread ft = tid)
  /\ forall f fb, ft_fiber ft = Some f -> h !! f = Some fb -> m_state fb <> EXEC.

Lemma pick_ok tid h q :
  Forall entry_ok q -> (forall f, f ∈ qf q -> is_Some (h !! f)) ->
  exists p rest tm, pick tid h q = Ret (p, rest, tm) /\
  match p with
  | None => rest = q /\ Forall (fun ft => ~ eligible tid h ft) q
  | Some ft => exists l1 l2, q = l1 ++ ft :: l2 /\ rest = l1 ++ l2 /\ eligible tid h ft
                 /\ Forall (fun ft => ~ eligible tid h ft) l1
  end.
Proof.
  induction q as [|ft q IH]; intros He Hh.
  { exists None, [], false. split; [reflexivity|]. auto. }
  inversion He as [|? ? Hft Hq]; subst.
  destruct IH as (p & rest & tm & Hrun & Hp); [assumption| |].
  { intros f Hf. apply Hh. unfold qf in *. simpl. destruct (ft_fiber ft); set_solver. }
  assert (Hskip : ~ eligible tid h ft ->
    match p with
    | None => ft :: rest = ft :: q /\ Forall (fun ft => ~ eligible tid h ft) (ft :: q)
    | Some ft0 => exists l1 l2, ft :: q = l1 ++ ft0 :: l2 /\ ft :: rest = l1 ++ l2
        /\ eligible tid h ft0 /\ Forall (fun ft => ~ eligible tid h ft) l1
    end).
  { intros Hn. destruct p as [ft0|].
    - destruct Hp as (l1 & l2 & -> & -> & H1 & H2). exists (ft :: l1), l2. auto.
    - destruct Hp as [-> H]. auto. }
  assert (Htake : eligible tid h ft ->
    exists l1 l2, ft :: q = l1 ++ ft :: l2 /\ q = l1 ++ l2 /\ eligible tid h ft
      /\ Forall (fun ft => ~ eligible tid h ft) l1) by (intros; exists [], q; auto).
  cbn [pick]. rewrite Hrun. cbn [obind fst snd].
  destruct (negb (ft_thread ft =? -1) && negb (ft_thread ft =? tid)) eqn:Hthr.
  { eexists _, _, _. split; [reflexivity|]. apply Hskip. intros [[Ht|Ht] _];
      rewrite Ht, Z.eqb_refl, ?andb_false_r in Hthr; discriminate. }
  assert (Hok : ft_thread ft = -1 \/ ft_thread ft = tid).
  { apply andb_false_iff in Hthr as [H|H]; apply negb_false_iff, Z.eqb_eq in H; auto. }
  unfold entry_ok in Hft. destruct (ft_fiber ft) as [f|] eqn:Hf.
  - cbn [bool_decide negb andb].
    destruct (Hh f) as [fb Hfb]; [unfold qf; simpl; rewrite Hf; set_solver|]. rewrite Hfb.
    rewrite (bool_decide_eq_true_2 (is_Some (Some f))) by eauto. cbn [negb andb].
    case_bool_decide as Hst.
    + eexists _, _, _. split; [reflexivity|]. apply Hskip. intros [_ Hn]. apply (Hn f fb); auto.
    + eexists _, _, _. split; [reflexivity|]. apply Htake. split; [assumption|].
      intros f' fb' Hf' Hfb'. congruence.
  - destruct (ft_cb ft) as [cb|] eqn:Hcb.
    + rewrite (bool_decide_eq_true_2 (is_Some (Some cb))) by eauto. cbn [negb]. rewrite andb_false_r.
      eexists _, _, _. split; [reflexivity|]. apply Htake. split; [assumption|]. congruence.
    + destruct (proj2 Hft eq_refl). discriminate.
Qed.

Lemma queue_take ro l1 ft l2 :
  queue_ok ro (l1 ++ ft :: l2) ->
  match ft_fiber ft with
  | None => queue_ok ro (l1 ++ l2)
  | Some f => forall r, isq r = false -> queue_ok (upd ro f r) (l1 ++ l2)
  end.
Proof.
  intros [H1 H2 H3]. apply Forall_app in H3 as [H3 H4]. inversion H4; subst.
  unfold qf in *. rewrite omap_app in *. simpl in *.
  destruct (ft_fiber ft) as [f|]; [intros r Hr|]; constructor; unfold qf; rewrite ?omap_app;
    try (apply Forall_app; auto); auto.
  - intros g. apply NoDup_app in H2 as (N1 & N2 & N3). apply NoDup_cons in N3 as [N3 N4].
    destruct (decide (g = f)) as [->|Hne].
    + rewrite upd_eq, Hr, elem_of_app. split; [|discriminate].
      intros [Hg|Hg]; [|contradiction]. destruct (N2 f Hg). set_solver.
    + rewrite upd_ne, <- H1 by assumption. set_solver.
  - apply NoDup_app in H2 as (N1 & N2 & N3). apply NoDup_cons in N3 as [N3 N4].
    apply NoDup_app. split; [assumption|]. split; [|assumption]. set_solver.
Qed.

(** The obligations on the fibers a thread keeps. *)
Ltac keeps I Ht :=
  let g := fresh "g" in let Ho := fresh "Ho" in
  intros g; intros;
  match goal with Hg : owner (?ro g) = Some _ |- _ =>
    pose proof (own_th _ _ _ _ _ I Ht Hg) as Ho; destruct (ro g)
  end;
  simpl in *; simplify_eq;
  repeat match goal with
  | H : th_loc _ = _ |- _ => rewrite H in *
  end; simpl in *; try tauto;
  repeat match goal with
  | H : ex _ |- _ => destruct H
  | H : _ /\ _ |- _ => destruct H
  end; simplify_eq/=; eauto.

(** The thread has taken [ft]. *)
Lemma picked_thr_ok ro h tid th ft tm act :
  th_loc th = LTop -> (act = false -> ft = ft_empty) ->
  (act = true -> is_Some (ft_fiber ft) <-> ft_cb ft = None) ->
  (forall f, ft_fiber ft = Some f -> ro f = RPicked tid) ->
  thr_ok ro h tid th -> thr_ok ro h tid (set_loc (LPicked ft tm act) th).
Proof.
  intros Hl H1 H2 H3 [K1 K2 K3 K4 K5]. constructor; auto.
  - simpl. split; [assumption|]. split; assumption.
  - unfold idle_ok in *. rewrite Hl in K2. exact K2.
  - unfold cb_ok in *. rewrite Hl in K4. exact K4.
Qed.

Lemma step_top_ok config ro s tid th :
  SInv ro s -> threads s !! tid = Some th -> th_loc th = LTop ->
  exists ro' s', thread_step config tid s = (s', Ret tt) /\ SInv ro' s'.
Proof.
  intros I Ht Hl. unfold thread_step. cstep (thread_run tid s th Ht). rewrite Hl.
  unfold step_top. rewrite cbind_get. unfold id, lift.
  pose proof (si_queue _ _ I) as Q. pose proof (si_thr _ _ I _ _ Ht) as K.
  destruct (pick_ok tid (sfibers s) (m_fibers s)) as (p & rest & tm & Hp & Hspec).
  { apply Q. }
  { intros f Hf. apply (qk_elem _ _ Q) in Hf. pose proof (si_fiber _ _ I f) as Hok.
    destruct (ro f) as [| | |? []| | | |]; try discriminate; destruct Hok as (fb & -> & _); eauto. }
  unfold cbind at 1. rewrite Hp. cbn [fst snd]. rewrite cbind_mod.
  pose proof (fun ro' ft => picked_thr_ok ro' (sfibers s) tid th ft tm) as Hk.
  destruct p as [ft|].
  - destruct Hspec as (l1 & l2 & Hq & -> & [Hthr Hst] & _). rewrite Hq in Q.
    rewrite cbind_mod, (goto_run tid _ _ th) by exact Ht.
    assert (Hent : entry_ok ft)
      by (pose proof (qk_entry _ _ Q) as E; apply Forall_app in E as [_ E]; inversion E; assumption).
    pose proof (queue_take ro l1 ft l2 Q) as Qt. destruct (ft_fiber ft) as [f|] eqn:Hf.
    + assert (Hin : isq (ro f) = true).
      { apply (qk_elem _ _ Q). unfold qf. rewrite omap_app. simpl. rewrite Hf. set_solver. }
      pose proof (si_fiber _ _ I f) as Hok.
      assert (Hr : ro f = RQueued).
      { destruct (ro f) as [| | |t []| | | |]; try discriminate; [reflexivity|].
        destruct Hok as (fb & Hfb & _ & He). destruct (Hst f fb eq_refl Hfb (He eq_refl)). }
      exists (upd ro f (RPicked tid)). eexists. split; [reflexivity|].
      rewrite Hr in Hok. eapply (local_step ro s _ tid th); eauto; simpl; auto.
      * rewrite Hr. simpl. auto.
      * apply Hk; [exact Hl|..]; [discriminate|intros _; exact Hent|intros g Hg; rewrite Hf in Hg; simplify_eq; apply upd_eq|].
        apply (thr_ok_frame ro (sfibers s)); [|exact K]. intros g Hg.
        rewrite upd_ne; [auto|]. intros ->. rewrite Hr in Hg. discriminate.
      * keeps I Ht.
      * intros _. eauto.
    + exists ro. eexists. split; [reflexivity|].
      eapply (thread_only ro s _ tid th); eauto; simpl; auto.
      * apply Hk; [exact Hl|..]; auto; [discriminate|congruence].
      * keeps I Ht.
  - destruct Hspec as [-> _]. rewrite (goto_run tid _ _ th) by exact Ht.
    exists ro. eexists. split; [reflexivity|].
    eapply (thread_only ro s _ tid th); eauto; simpl; auto.
    + apply Hk; [exact Hl|..]; auto; discriminate.
    + keeps I Ht.
Qed.

(** ** Entering a fiber *)

(** The invariant reads three components of the state. *)
Lemma SInv_ext ro s s' :
  threads s' = threads s -> sfibers s' = sfibers s -> m_fibers s' = m_fibers s ->
  SInv ro s -> SInv ro s'.
Proof. intros H1 H2 H3 [I1 I2 I3 I4 I5 I6]. constructor; rewrite ?H1, ?H2, ?H3; assumption. Qed.

Definition outside_idle (l : loc) : bool :=
  match l with LInIdle _ | LBackIdle | LExit => false | _ => true end.

(** The thread moves and one fiber that is neither its idle nor its main
    fiber changes. *)
Lemma thr_ok_move ro h tid th f r h' th' :
  thr_ok ro h tid th -> ro f <> RIdle tid -> ro f <> RMain tid ->
  (forall g, g <> f -> h' !! g = h !! g) ->
  th_idle th' = th_idle th -> th_main th' = th_main th ->
  outside_idle (th_loc th) = true -> outside_idle (th_loc th') = true ->
  loc_ok (upd ro f r) h' tid th' -> cb_ok (upd ro f r) tid th' -> thr_ok (upd ro f r) h' tid th'.
Proof.
  intros [K1 (fb & K2 & K3) K4 K5 (m & K6 & K7)] Hi Hm Hh Ei Em O O' L C.
  assert (th_idle th <> f) by congruence. assert (m <> f) by congruence.
  constructor; auto.
  - exists fb. rewrite Ei, Hh by assumption. split; [assumption|].
    destruct (th_loc th), (th_loc th'); try discriminate; assumption.
  - rewrite Ei, upd_ne by assumption. assumption.
  - exists m. rewrite Em, upd_ne by assumption. auto.
Qed.

Lemma entry_live fb : resumable fb -> live (m_state fb) = true -> exists k, entry_code fb = Some k.
Proof.
  unfold resumable, entry_code. intros R L. destruct (m_ctx fb); eauto.
  destruct (R eq_refl) as [E|E]; rewrite E in L; discriminate.
Qed.

(** Switching into a fiber that this thread has taken, or that it has cached. *)
Lemma enter_ok ro s tid th k f fb code :
  SInv ro s -> threads s !! tid = Some th -> sfibers s !! f = Some fb ->
  (ro f = RPicked tid /\ k = KFiber \/ ro f = RCached tid /\ k = KCb) ->
  m_stack fb = true -> m_state fb <> EXEC -> entry_code fb = Some code ->
  (k = KCb -> th_cb_fiber th = Some f) -> outside_idle (th_loc th) = true ->
  running (th_loc th) = None ->
  (forall g, g <> f -> ro g <> RPicked tid) ->
  exists ro' s',
    (let! code := on_thread tid (swapIn f) in goto tid (LIn k f code)) s = (s', Ret tt)
    /\ SInv ro' s'.
Proof.
  intros I Ht Hf Hr Hs Hst Hc Hcb Ho Hrun Hown.
  pose proof (si_thr _ _ I _ _ Ht) as K. destruct (tk_main _ _ _ _ K) as (m & Hm & Hrm).
  eexists (upd ro f (RRun tid false)), _. split.
  { eapply (on_goto tid (swapIn f) (LIn k f) s th); [exact Ht|].
    apply (swapIn_ok f fb m code); assumption. }
  assert (Hne : ro f <> RIdle tid /\ ro f <> RMain tid /\ isq (ro f) = false
                /\ (owner (ro f) = None \/ owner (ro f) = Some tid)).
  { destruct Hr as [[-> _]|[-> _]]; simpl; auto. }
  destruct Hne as (N1 & N2 & N3 & N4).
  eapply (local_step ro s _ tid th); eauto; simpl; auto.
  - intros g Hg. apply lookup_insert_ne. congruence.
  - apply (thr_ok_move ro (sfibers s) tid th); auto; simpl.
    + intros g Hg. apply lookup_insert_ne. congruence.
    + split; [reflexivity|]. exists false, (set_state EXEC fb).
      rewrite upd_eq, lookup_insert_eq. auto.
    + pose proof (tk_cb _ _ _ _ K) as C. unfold cb_ok in *. simpl. rewrite Hrun in C.
      destruct k; [|auto]. intros c Hcc. specialize (C c Hcc). rewrite upd_ne; [assumption|].
      intros ->. destruct Hr as [[Hr _]|[_ Hk]]; congruence.
  - intros g Hg Hog. pose proof (own_th _ _ _ _ _ I Ht Hog) as Ow. specialize (Hown g Hg).
    destruct (ro g); simpl in *; simplify_eq; auto.
    + destruct Ow as [kk Hk]. congruence.
    + destruct Ow as [H1 H2]. split; [assumption|]. intros E. injection E as -> ->. contradiction.
  - eauto.
  - apply queue_same; [apply I|]. rewrite N3. reflexivity.
  - exists (set_state EXEC fb). rewrite lookup_insert_eq. auto.
  - destruct Hr as [[-> _]|[-> _]]; discriminate.
Qed.

Lemma unview_threads fs tid th s :
  threads (unview fs tid th s) !! tid
    = Some (mkThread (th_loc th) (th_cb_fiber th) (th_idle th) (t_fiber fs) (t_threadFiber fs)
              (t_sheduler_fiber fs)).
Proof. apply lookup_insert_eq. Qed.

(** [cb_fiber] for a callback: the cached fiber is reset, *)
Lemma cached_cb_ok config ro s tid th ft tm act cb c :
  SInv ro s -> threads s !! tid = Some th -> th_loc th = LPicked ft tm act -> ft_fiber ft = None ->
  th_cb_fiber th = Some c ->
  exists ro' s' c th' fb, take_cb_fiber config tid cb s = (s', Ret c) /\ SInv ro' s'
    /\ threads s' !! tid = Some th' /\ th_loc th' = LPicked ft tm act /\ th_cb_fiber th' = Some c
    /\ ro' c = RCached tid /\ sfibers s' !! c = Some fb
    /\ m_stack fb = true /\ m_state fb = INIT /\ entry_code fb = Some cb.
Proof.
  intros I Ht Hl Hft Hcb. unfold take_cb_fiber. cstep (thread_run tid s th Ht).
  pose proof (si_thr _ _ I _ _ Ht) as K. pose proof (tk_cb _ _ _ _ K) as C.
  unfold cb_ok in C. rewrite Hl in C. simpl in C. rewrite Hcb in *.
  specialize (C c eq_refl). pose proof (si_fiber _ _ I c) as Hok. rewrite C in Hok.
  destruct Hok as (fb & Hfb & Hs & Hfin).
  set (fb' := set_state INIT (set_ctx CMain (set_cb (Some cb) fb))).
  cstep (on_thread_run tid _ s th _ _ Ht (reset_ok c fb (Some cb) (view s th) Hfb Hs Hfin)).
  set (s1 := unview _ _ _ _).
  exists (upd ro c (RCached tid)), s1, c, th, fb'. split; [reflexivity|].
  assert (Ht1 : threads s1 = <[tid := th]> (threads s)).
  { unfold s1, unview. simpl. destruct th; reflexivity. }
  split; [|rewrite Ht1, lookup_insert_eq, upd_eq; repeat split; auto;
           simpl; apply lookup_insert_eq].
  eapply (local_step ro s _ tid th); eauto; simpl.
  - rewrite C. simpl. auto.
  - intros g Hg. apply lookup_insert_ne. congruence.
  - apply (thr_ok_move ro (sfibers s) tid th); auto; try (rewrite C; discriminate);
      rewrite ?Hl; auto.
    + intros g Hg. apply lookup_insert_ne. congruence.
    + pose proof (tk_loc _ _ _ _ K) as L. unfold loc_ok in *. rewrite Hl in *.
      destruct L as (L1 & L2 & L3). split; [assumption|]. split; [assumption|].
      intros f Hf. congruence.
    + unfold cb_ok. rewrite Hl. simpl. intros c' Hc'. simplify_eq. apply upd_eq.
  - intros g _ Hg. apply (own_th _ _ _ _ _ I Ht Hg).
  - rewrite Hl. split; [assumption|discriminate].
  - apply queue_same; [apply I|]. rewrite C. reflexivity.
  - exists fb'. rewrite lookup_insert_eq. auto.
Qed.

(** or a new one is made. *)
Lemma new_cb_ok config ro s tid th ft tm act cb :
  SInv ro s -> threads s !! tid = Some th -> th_loc th = LPicked ft tm act -> ft_fiber ft = None ->
  th_cb_fiber th = None ->
  exists ro' s' c th' fb, take_cb_fiber config tid cb s = (s', Ret c) /\ SInv ro' s'
    /\ threads s' !! tid = Some th' /\ th_loc th' = LPicked ft tm act /\ th_cb_fiber th' = Some c
    /\ ro' c = RCached tid /\ sfibers s' !! c = Some fb
    /\ m_stack fb = true /\ m_state fb = INIT /\ entry_code fb = Some cb.
Proof.
  intros I Ht Hl Hft Hcb. unfold take_cb_fiber. cstep (thread_run tid s th Ht).
  pose proof (si_thr _ _ I _ _ Ht) as K. pose proof (tk_cb _ _ _ _ K) as C.
  unfold cb_ok in C. rewrite Hl in C. simpl in C. rewrite Hcb in *.
  set (c := fresh (dom (sfibers s))).
  assert (Hc : sfibers s !! c = None) by (apply not_elem_of_dom, is_fresh).
  assert (Hr : ro c = RFree).
  { pose proof (si_fiber _ _ I c) as Hok. rewrite Hc in Hok.
    destruct (ro c); auto; destruct Hok as (fb & ? & _) || destruct Hok as (fb & ?); discriminate. }
  set (fb := new_fiber config (Some cb) 0 (view s th)).
  cstep (on_thread_run tid _ s th _ _ Ht (Fiber_new_run config (Some cb) 0 (view s th))).
  unfold upd_thread. rewrite cbind_mod. set (s1 := set_threads _ _).
  assert (Ht1 : threads s1 = <[tid := set_cb_fiber (Some c) th]> (threads s)).
  { unfold s1, unview, set_threads. simpl. rewrite alter_insert_eq. destruct th; reflexivity. }
  assert (Hh1 : sfibers s1 = <[c := fb]> (sfibers s)) by reflexivity.
  exists (upd ro c (RCached tid)), s1, c, (set_cb_fiber (Some c) th), fb. split; [reflexivity|].
  split; [|rewrite Ht1, Hh1, !lookup_insert_eq, upd_eq; auto 10].
  eapply (local_step ro s _ tid th); eauto; rewrite ?Hh1; simpl.
  - rewrite Hr. simpl. auto.
  - intros g Hg. apply lookup_insert_ne. congruence.
  - apply (thr_ok_move ro (sfibers s) tid th); auto; try (rewrite Hr; discriminate);
      simpl; rewrite ?Hl; auto.
    + intros g Hg. apply lookup_insert_ne. congruence.
    + pose proof (tk_loc _ _ _ _ K) as L. unfold loc_ok in *. simpl. rewrite Hl in *.
      destruct L as (L1 & L2 & L3). split; [assumption|]. split; [assumption|].
      intros f Hf. congruence.
    + unfold cb_ok. simpl. rewrite Hl. simpl. intros c' Hc'. simplify_eq. apply upd_eq.
  - intros g Hne Hg. pose proof (own_th _ _ _ _ _ I Ht Hg) as Ow.
    destruct (ro g); simpl in *; auto. destruct Ow. congruence.
  - rewrite Hl. split; [reflexivity|discriminate].
  - apply queue_same; [apply I|]. rewrite Hr. reflexivity.
  - exists fb. rewrite lookup_insert_eq. auto.
Qed.

(** It ends up cached, fresh and ready to run the callback. *)
Lemma take_cb_ok config ro s tid th ft tm act cb :
  SInv ro s -> threads s !! tid = Some th -> th_loc th = LPicked ft tm act -> ft_fiber ft = None ->
  exists ro' s' c th' fb, take_cb_fiber config tid cb s = (s', Ret c) /\ SInv ro' s'
    /\ threads s' !! tid = Some th' /\ th_loc th' = LPicked ft tm act /\ th_cb_fiber th' = Some c
    /\ ro' c = RCached tid /\ sfibers s' !! c = Some fb
    /\ m_stack fb = true /\ m_state fb = INIT /\ entry_code fb = Some cb.
Proof.
  intros I Ht Hl Hft. destruct (th_cb_fiber th) as [c|] eqn:Hcb.
  - exact (cached_cb_ok config ro s tid th ft tm act cb c I Ht Hl Hft Hcb).
  - exact (new_cb_ok config ro s tid th ft tm act cb I Ht Hl Hft Hcb).
Qed.

Lemma picked_other ro s tid th ft tm act :
  SInv ro s -> threads s !! tid = Some th -> th_loc th = LPicked ft tm act ->
  forall g, ft_fiber ft <> Some g -> ro g <> RPicked tid.
Proof.
  intros I Ht Hl g Hg Hr. destruct (si_own _ _ I g tid) as (th0 & Ht0 & Ow); [rewrite Hr; reflexivity|].
  simplify_eq. rewrite Hr in Ow. destruct Ow as (ft0 & tm0 & act0 & E & Hf). congruence.
Qed.

(** A task whose fiber has ended is dropped. *)
Lemma picked_dead_ok ro s tid th ft tm f :
  SInv ro s -> threads s !! tid = Some th -> th_loc th = LPicked ft tm true -> ft_fiber ft = Some f ->
  exists ro' s', (cmod (add_active (-1)) ;;; goto tid LTop) s = (s', Ret tt) /\ SInv ro' s'.
Proof.
  intros I Ht Hl Hft. pose proof (si_thr _ _ I _ _ Ht) as K. pose proof (tk_loc _ _ _ _ K) as L.
  unfold loc_ok in L. rewrite Hl in L. destruct L as (_ & _ & L3). specialize (L3 f Hft).
  pose proof (picked_other ro s tid th ft tm true I Ht Hl) as Hoth. pose proof (si_fiber _ _ I f) as Hok. rewrite L3 in Hok.
  destruct Hok as (fb & Hfb & Hs & Hne & Hres). rewrite cbind_mod, (goto_run tid _ _ th) by exact Ht.
  exists (upd ro f RFree). eexists. split; [reflexivity|].
  eapply (local_step ro s _ tid th); eauto; simpl.
  - rewrite L3. simpl. auto.
  - apply (thr_ok_move ro (sfibers s) tid th); auto; try (rewrite L3; discriminate);
      [rewrite Hl; reflexivity|exact Logic.I|].
    pose proof (tk_cb _ _ _ _ K) as C. unfold cb_ok in *. rewrite Hl in C. simpl in *.
    intros c Hc. specialize (C c Hc). rewrite upd_ne; congruence.
  - intros g Hg Hog. pose proof (own_th _ _ _ _ _ I Ht Hog) as Ow.
    specialize (Hoth g ltac:(congruence)).
    destruct (ro g); simpl in *; simplify_eq; auto; rewrite Hl in Ow; simpl in Ow.
    + destruct Ow; discriminate.
    + destruct Ow as [H1 _]. split; [assumption|discriminate].
  - discriminate.
  - apply queue_same; [apply I|]. rewrite L3. reflexivity.
  - intros fb0 Hfb0. simplify_eq. split; auto.
Qed.

(** Switching into the idle fiber. *)
Lemma enter_idle_ok ro s tid th ft tm fb :
  SInv ro s -> threads s !! tid = Some th -> th_loc th = LPicked ft tm false -> ft_fiber ft = None ->
  sfibers s !! th_idle th = Some fb -> m_state fb <> EXEC -> m_state fb <> EXCEPT -> m_state fb <> TERM -> entry_code fb = Some PIdle ->
  exists ro' s', (cmod (add_idle 1) ;;; let! code := on_thread tid (swapIn (th_idle th)) in goto tid (LInIdle code)) s = (s', Ret tt)
    /\ SInv ro' s'.
Proof.
  intros I Ht Hl Hft Hfb Hx Hy Hterm Hcode. pose proof (si_thr _ _ I _ _ Ht) as K. pose proof (tk_ridle _ _ _ _ K) as Hri.
  rewrite cbind_mod. destruct (tk_main _ _ _ _ K) as (m & Hm & Hrm).
  eexists (upd ro (th_idle th) (RIdle tid)), _. split.
  { eapply (on_goto tid (swapIn (th_idle th)) LInIdle (add_idle 1 s) th); [exact Ht|].
    apply (swapIn_ok (th_idle th) fb m PIdle); assumption. }
  eapply (local_step ro s _ tid th); eauto; simpl.
  - rewrite Hri. simpl. auto.
  - intros g Hg. apply lookup_insert_ne. congruence.
  - constructor; simpl.
    + split; reflexivity.
    + exists (set_state EXEC fb). simpl. rewrite lookup_insert_eq. auto.
    + apply upd_eq.
    + pose proof (tk_cb _ _ _ _ K) as C. unfold cb_ok in *. rewrite Hl in C. simpl in *.
      intros c Hc. specialize (C c Hc). rewrite upd_ne; congruence.
    + exists m. split; [assumption|]. rewrite upd_ne; congruence.
  - keeps I Ht.
  - reflexivity.
  - apply queue_same; [apply I|]. rewrite Hri. reflexivity.
  - exists (set_state EXEC fb). rewrite lookup_insert_eq. split; [reflexivity|].
    pose proof (si_fiber _ _ I (th_idle th)) as Hok. rewrite Hri in Hok.
    destruct Hok as (fb0 & Hfb0 & Hs0). simplify_eq. exact Hs0.
Qed.

(** No task: the idle fiber, or the end of the loop when it has ended. *)
Lemma picked_none_ok ro s tid th ft tm :
  SInv ro s -> threads s !! tid = Some th -> th_loc th = LPicked ft tm false -> ft_fiber ft = None ->
  exists ro' s',
    (let! th := thread tid in
     let! st := on_thread tid (getState (th_idle th)) in
     if bool_decide (st = TERM) then goto tid LExit
     else cmod (add_idle 1) ;;; let! code := on_thread tid (swapIn (th_idle th)) in goto tid (LInIdle code)) s = (s', Ret tt)
    /\ SInv ro' s'.
Proof.
  intros I Ht Hl Hft. pose proof (si_thr _ _ I _ _ Ht) as K.
  cstep (thread_run tid s th Ht). destruct (tk_idle _ _ _ _ K) as (fb & Hfb & Hst).
  rewrite Hl in Hst. cstep (state_run tid s th _ fb Ht Hfb). case_bool_decide as Hterm.
  - rewrite (goto_run tid _ _ th) by exact Ht. exists ro. eexists. split; [reflexivity|].
    eapply (thread_only ro s _ tid th); eauto; simpl.
    + destruct K as [K1 K2 K3 K4 K5]. constructor; auto; [exact Logic.I| |].
      * exists fb. auto.
      * unfold cb_ok in *. rewrite Hl in K4. exact K4.
    + keeps I Ht.
    + apply I.
  - destruct Hst as [|(Hx & Hy & Hcode)]; [contradiction|].
    exact (enter_idle_ok ro s tid th ft tm fb I Ht Hl Hft Hfb Hx Hy Hterm Hcode).
Qed.

Lemma step_picked_ok config ro s tid th ft tm act :
  SInv ro s -> threads s !! tid = Some th -> th_loc th = LPicked ft tm act ->
  exists ro' s', thread_step config tid s = (s', Ret tt) /\ SInv ro' s'.
Proof.
  intros I0 Ht Hl. unfold thread_step. cstep (thread_run tid s th Ht). rewrite Hl.
  unfold step_picked.
  assert (Hpre : exists s1, (if tm then trickle else cret tt) s = (s1, Ret tt) /\ SInv ro s1
                            /\ threads s1 !! tid = Some th).
  { destruct tm; eexists; (split; [reflexivity|]); split; auto.
    apply (SInv_ext ro s); auto. }
  destruct Hpre as (s1 & Hrun & I & Ht1). cstep Hrun. clear I0 Ht Hrun s.
  rename s1 into s, Ht1 into Ht.
  pose proof (si_thr _ _ I _ _ Ht) as K. pose proof (tk_loc _ _ _ _ K) as L.
  unfold loc_ok in L. rewrite Hl in L. destruct L as (L1 & L2 & L3).
  pose proof (picked_other ro s tid th ft tm act I Ht Hl) as Hoth.
  destruct (ft_fiber ft) as [f|] eqn:Hft.
  - assert (act = true) as -> by (destruct act; [reflexivity|rewrite L1 in Hft by reflexivity; discriminate]).
    assert (Hcb : ft_cb ft = None) by (apply L2; eauto).
    specialize (L3 f eq_refl). pose proof (si_fiber _ _ I f) as Hok. rewrite L3 in Hok.
    destruct Hok as (fb & Hfb & Hs & Hne & Hres).
    erewrite cbind_ret by (cstep (state_run tid s th f fb Ht Hfb); reflexivity).
    destruct (live (m_state fb)) eqn:Hlive.
    + destruct (entry_live fb Hres Hlive) as [code Hcode].
      apply (enter_ok ro s tid th KFiber f fb code); auto; try (rewrite Hl; reflexivity);
        [discriminate|]. intros g Hg. apply Hoth. congruence.
    + rewrite Hcb. exact (picked_dead_ok ro s tid th ft tm f I Ht Hl Hft).
  - rewrite cbind_cret. destruct (ft_cb ft) as [cb|] eqn:Hcb.
    + destruct (take_cb_ok config ro s tid th ft tm act cb I Ht Hl Hft)
        as (ro1 & s1 & c & th1 & fb & Hrun & I1 & Ht1 & Hl1 & Hc1 & Hr1 & Hf1 & Hs1 & Hst1 & Hcode).
      cstep Hrun. apply (enter_ok ro1 s1 tid th1 KCb c fb cb); auto;
        try (rewrite Hl1; reflexivity); [congruence|].
      intros g _. apply (picked_other ro1 s1 tid th1 ft tm act I1 Ht1 Hl1). congruence.
    + assert (act = false) as ->.
      { destruct act; [|reflexivity]. destruct (proj2 (L2 eq_refl) eq_refl). discriminate. }
      exact (picked_none_ok ro s tid th ft tm I Ht Hl Hft).
Qed.

(** ** Scheduling a fiber *)

(** What the code relies on when a fiber is scheduled: it is a fiber of its
    own, in nobody's hands, or running and about to be held. *)
Definition can_schedule (s : Sched) (g : nat) : Prop :=
  (exists fb, sfibers s !! g = Some fb /\ m_stack fb = true) /\ protected !! g = None /\
  (g ∉ qf (m_fibers s)) /\
  forall tid th, threads s !! tid = Some th ->
    g <> th_idle th /\ th_main th <> Some g
    /\ (forall ft tm act, th_loc th = LPicked ft tm act -> ft_fiber ft <> Some g)
    /\ (forall k, running (th_loc th) = Some (k, g) ->
          exists fb, sfibers s !! g = Some fb /\ m_state fb = EXEC)
    /\ (th_cb_fiber th = Some g -> running (th_loc th) = Some (KCb, g)).

Lemma can_schedule_role ro s g :
  SInv ro s -> can_schedule s g ->
  ro g = RFree \/ exists t fb, ro g = RRun t false /\ sfibers s !! g = Some fb /\ m_state fb = EXEC.
Proof.
  intros I ((fb0 & Hs & Hst) & Hpr & Hq & Hth). pose proof (qk_elem _ _ (si_queue _ _ I) g) as Hqe.
  pose proof (si_own _ _ I g) as Own. pose proof (si_caller _ _ I g fb0) as Hca.
  destruct (ro g) as [| |t|t [|]|t|t|t|]; simpl in *; auto; try tauto;
    [..|rewrite Hpr in Hca; by destruct (Hca eq_refl Hs Hst)];
    destruct (Own t eq_refl) as (th & Ht & Ow); destruct (Hth t th Ht) as (H1 & H2 & H3 & H4 & H5);
    try congruence.
  - destruct Ow as (ft & tm & act & E & F). destruct (H3 ft tm act E F).
  - destruct Ow as [k Hk]. destruct (H4 k Hk) as (fb & Hfb & He). right. eauto.
  - destruct Ow as [Hc Hr]. destruct (Hr (H5 Hc)).
Qed.

Lemma schedule_run ft s :
  entry_ok ft ->
  exists s', schedule ft s = (s', Ret tt) /\ m_fibers s' = m_fibers s ++ [ft]
    /\ threads s' = threads s /\ sfibers s' = sfibers s
    /\ m_activeThreadCount s' = m_activeThreadCount s
    /\ m_idleThreadCount s' = m_idleThreadCount s.
Proof.
  intros He. unfold schedule, scheduleNoLock.
  assert (Hor : bool_decide (is_Some (ft_fiber ft)) || bool_decide (is_Some (ft_cb ft)) = true).
  { apply orb_true_iff. unfold entry_ok in He. destruct (ft_fiber ft) as [f|].
    - left. apply bool_decide_eq_true_2. eauto.
    - right. apply bool_decide_eq_true_2. destruct (ft_cb ft); [eauto|].
      destruct (proj2 He eq_refl). discriminate. }
  unfold cbind, cget. rewrite Hor. unfold cmod, cret.
  destruct (bool_decide (m_fibers s = [])); eexists; repeat split.
Qed.

(** The queue flag of a running fiber goes up. *)
Lemma thr_ok_queued ro h tid th f q fb :
  thr_ok ro h tid th -> ro f = RRun tid q -> h !! f = Some fb -> m_state fb = EXEC ->
  thr_ok (upd ro f (RRun tid true)) h tid th.
Proof.
  intros [K1 K2 K3 K4 (m & K5 & K6)] Hr Hf He. constructor; auto.
  - unfold loc_ok in *. destruct (th_loc th); auto.
    + destruct K1 as (H1 & H2 & H3). split; [assumption|]. split; [assumption|].
      intros g Hg. rewrite upd_ne; [auto|]. intros ->. rewrite (H3 _ Hg) in Hr. discriminate.
    + destruct K1 as (H1 & q' & fb' & H2 & H3 & H4). split; [assumption|].
      destruct (decide (f0 = f)) as [->|Hne].
      * exists true, fb'. rewrite upd_eq. auto.
      * exists q', fb'. rewrite upd_ne by assumption. auto.
    + destruct K1 as (q' & fb' & H2 & H3 & H4). destruct (decide (f0 = f)) as [->|Hne].
      * exists true, fb'. rewrite upd_eq. simplify_eq. repeat split; auto. left.
        destruct H4 as [|[_ [[]|[]]]]; [assumption|congruence..].
      * exists q', fb'. rewrite upd_ne by assumption. auto.
    + destruct K1 as (q' & fb' & H2 & H3 & H4). destruct (decide (f0 = f)) as [->|Hne].
      * exists true, fb'. rewrite upd_eq. simplify_eq. repeat split; auto. left.
        destruct H4 as [|[_ [[]|[]]]]; [assumption|congruence..].
      * exists q', fb'. rewrite upd_ne by assumption. auto.
  - rewrite upd_ne; congruence.
  - unfold cb_ok in *. destruct (running (th_loc th)) as [[[] x]|]; auto;
      intros c Hc; rewrite upd_ne; auto; intros ->; rewrite (K4 _ Hc) in Hr; discriminate.
  - exists m. rewrite upd_ne by congruence. auto.
Qed.

Lemma schedule_fiber_inv ro s s' g t :
  SInv ro s -> can_schedule s g ->
  m_fibers s' = m_fibers s ++ [mkFT (Some g) None t] ->
  threads s' = threads s -> sfibers s' = sfibers s ->
  exists ro', SInv ro' s' /\ forall x, owner (ro' x) = owner (ro x).
Proof.
  intros I Hc Hq Ht Hh.
  assert (Hown : forall r, owner r = owner (ro g) -> forall x, owner (upd ro g r x) = owner (ro x)).
  { intros r Hr x. unfold upd. destruct (decide (x = g)) as [->|]; congruence. }
  destruct (can_schedule_role ro s g I Hc) as [Hr|(u & fb & Hr & Hf & He)].
  - exists (upd ro g RQueued). split; [|apply Hown; rewrite Hr; reflexivity].
    constructor; rewrite ?Hq, ?Ht, ?Hh.
    + intros tid th Hth. apply (thr_ok_frame ro (sfibers s)); [|apply (si_thr _ _ I _ _ Hth)].
      intros x Hx. rewrite upd_ne; [auto|]. intros ->. rewrite Hr in Hx. discriminate.
    + intros x tid Hx. destruct (decide (x = g)) as [->|Hne]; [rewrite upd_eq in Hx; discriminate|].
      rewrite upd_ne in * by assumption. apply (si_own _ _ I _ _ Hx).
    + apply queue_push_fiber; [apply I|rewrite Hr; reflexivity|reflexivity].
    + intros x. destruct (decide (x = g)) as [->|Hne];
        [rewrite upd_eq|rewrite upd_ne by assumption; apply (si_fiber _ _ I)].
      pose proof (si_fiber _ _ I g) as Hok. rewrite Hr in Hok.
      destruct Hc as ((fb & Hfb & _) & _). exists fb. auto.
    + apply prot_upd; [assumption|congruence].
    + by apply caller_upd.
  - exists (upd ro g (RRun u true)). split; [|apply Hown; rewrite Hr; reflexivity].
    constructor; rewrite ?Hq, ?Ht, ?Hh.
    + intros tid th Hth. destruct (decide (tid = u)) as [->|Hne].
      * apply (thr_ok_queued ro _ u th g false fb); auto. apply (si_thr _ _ I _ _ Hth).
      * apply (thr_ok_frame ro (sfibers s)); [|apply (si_thr _ _ I _ _ Hth)].
        intros x Hx. rewrite upd_ne; [auto|]. intros ->. rewrite Hr in Hx. simpl in Hx. congruence.
    + intros x tid Hx. destruct (decide (x = g)) as [->|Hne].
      * rewrite upd_eq in *. destruct (si_own _ _ I g tid) as (th & Hth & Ow);
          [rewrite Hr; exact Hx|]. exists th. rewrite Hr in Ow. auto.
      * rewrite upd_ne in * by assumption. apply (si_own _ _ I _ _ Hx).
    + apply queue_push_fiber; [apply I|rewrite Hr; reflexivity|reflexivity].
    + intros x. destruct (decide (x = g)) as [->|Hne];
        [rewrite upd_eq|rewrite upd_ne by assumption; apply (si_fiber _ _ I)].
      pose proof (si_fiber _ _ I g) as Hok. rewrite Hr in Hok. destruct Hok as (fb0 & H1 & H2 & _).
      exists fb0. repeat split; auto; congruence.
    + apply prot_upd; [assumption|congruence].
    + by apply caller_upd.
Qed.

Lemma schedule_cb_inv ro s s' cb t :
  SInv ro s -> m_fibers s' = m_fibers s ++ [mkFT None (Some cb) t] ->
  threads s' = threads s -> sfibers s' = sfibers s -> SInv ro s'.
Proof.
  intros [I1 I2 I3 I4 I5 I6] Hq Ht Hh. constructor; rewrite ?Hq, ?Ht, ?Hh; auto.
  apply queue_push_cb. assumption.
Qed.

(** ** Inside a fiber and back *)

(** What the running code may do: see the head of the file. *)
Definition allowed (s : Sched) (th : Thread) : Prop :=
  match th_loc th with
  | LIn k f code =>
      match code with
      | PRet | PThrow | PYieldReady _ | PIdle => f ∉ qf (m_fibers s)
      | PScheduleFiber g _ _ => can_schedule s g
      | PRun => False
      | _ => True
      end
  | _ => True
  end.

Lemma code_move ro s tid th k f code code' :
  SInv ro s -> threads s !! tid = Some th -> th_loc th = LIn k f code ->
  exists s', goto tid (LIn k f code') s = (s', Ret tt) /\ SInv ro s'.
Proof.
  intros I Ht Hl. rewrite (goto_run tid _ _ th Ht). eexists. split; [reflexivity|].
  pose proof (si_thr _ _ I _ _ Ht) as [K1 K2 K3 K4 K5].
  eapply (thread_only ro s _ tid th); eauto; simpl.
  - constructor; auto.
    + unfold loc_ok in *. rewrite Hl in K1. exact K1.
    + unfold idle_ok in *. rewrite Hl in K2. exact K2.
    + unfold cb_ok in *. rewrite Hl in K4. exact K4.
  - keeps I Ht.
  - apply I.
Qed.

(** Leaving the fiber: its object and the location change. *)
Lemma leave_step ro s tid th k f code q fb' main (m : M FS unit) :
  SInv ro s -> threads s !! tid = Some th -> th_loc th = LIn k f code -> ro f = RRun tid q ->
  th_main th = Some main ->
  m (view s th) = (set_fibers (<[f := fb']> (fibers (view s th))) (set_t_fiber (Some main) (view s th)),
                   Ret tt) ->
  m_stack fb' = true -> back_ok q fb' ->
  exists ro' s', (on_thread tid m ;;; goto tid (LBack k f)) s = (s', Ret tt) /\ SInv ro' s'.
Proof.
  intros I Ht Hl Hr Hm Hrun Hs Hb.
  eexists (upd ro f (RRun tid q)), _. split.
  { apply (on_goto tid m (fun _ => LBack k f) s th _ tt Ht Hrun). }
  pose proof (si_thr _ _ I _ _ Ht) as K.
  eapply (local_step ro s _ tid th); eauto; simpl.
  - rewrite Hr. simpl. auto.
  - intros g Hg. apply lookup_insert_ne. congruence.
  - apply (thr_ok_move ro (sfibers s) tid th); auto; try (rewrite Hr; discriminate);
      try (rewrite Hl; reflexivity); simpl.
    + intros g Hg. apply lookup_insert_ne. congruence.
    + exists q, fb'. rewrite upd_eq, lookup_insert_eq. auto.
    + pose proof (tk_cb _ _ _ _ K) as C. unfold cb_ok in *. rewrite Hl in C. simpl in *.
      destruct k; [|assumption]. intros c Hc. specialize (C c Hc). rewrite upd_ne; congruence.
  - keeps I Ht.
  - eauto.
  - apply queue_same; [apply I|]. rewrite Hr. reflexivity.
  - exists fb'. rewrite lookup_insert_eq. split; [reflexivity|]. split; [assumption|].
    intros ->. destruct Hb as [[]|[]]; [assumption|discriminate].
Qed.

Lemma step_in_ok config ro s tid th k f code :
  SInv ro s -> threads s !! tid = Some th -> th_loc th = LIn k f code -> allowed s th ->
  exists ro' s', thread_step config tid s = (s', Ret tt) /\ SInv ro' s'.
Proof.
  intros I Ht Hl Ha. unfold thread_step. cstep (thread_run tid s th Ht). rewrite Hl.
  pose proof (si_thr _ _ I _ _ Ht) as K. pose proof (tk_loc _ _ _ _ K) as L.
  unfold loc_ok in L. rewrite Hl in L. destruct L as (Htf & q & fb & Hr & Hf & He).
  destruct (tk_main _ _ _ _ K) as (main & Hm & _).
  assert (Hs : m_stack fb = true).
  { pose proof (si_fiber _ _ I f) as Hok. rewrite Hr in Hok. destruct Hok as (? & ? & ? & _). congruence. }
  unfold allowed in Ha. rewrite Hl in Ha.
  assert (Hq : (f ∉ qf (m_fibers s)) -> q = false).
  { rewrite (qk_elem _ _ (si_queue _ _ I) f), Hr. destruct q; simpl; tauto. }
  destruct (leave_ok f fb main PRet (view s th) Htf Hf He Hm) as (_ & _ & Hret & Hthrow).
  assert (Hy := fun k => leave_ok f fb main k (view s th) Htf Hf He Hm).
  destruct code as [| |k'|k'|cb t k'|g t k'| |]; cbn [fiber_step]; [..|destruct Ha].
  - eapply leave_step; eauto. right. rewrite Hq by assumption. auto.
  - eapply leave_step; eauto. right. rewrite Hq by assumption. auto.
  - destruct (Hy k') as (H1 & _). eapply leave_step; eauto. right. rewrite Hq by assumption.
    split; [reflexivity|]. left. split; [reflexivity|discriminate].
  - destruct (Hy k') as (_ & H1 & _). eapply leave_step; eauto. left. split; [assumption|discriminate].
  - destruct (schedule_run (mkFT None (Some cb) t) s) as (s1 & Hrun & Hq1 & Ht1 & Hh1 & _).
    { split; [intros [? ?]; discriminate|discriminate]. }
    cstep Hrun. destruct (code_move ro s1 tid th k f (PScheduleCb cb t k') k') as (s2 & Hg & I2); eauto.
    + eapply schedule_cb_inv; eauto.
    + congruence.
  - destruct (schedule_run (mkFT (Some g) None t) s) as (s1 & Hrun & Hq1 & Ht1 & Hh1 & _).
    { split; eauto. }
    cstep Hrun. destruct (schedule_fiber_inv ro s s1 g t I Ha Hq1 Ht1 Hh1) as (ro1 & I1 & _).
    destruct (code_move ro1 s1 tid th k f (PScheduleFiber g t k') k') as (s2 & Hg & I2); eauto.
    congruence.
  - unfold stopping. rewrite cbind_get. destruct (_ && _).
    + eapply leave_step; eauto. right. rewrite Hq by assumption. auto.
    + destruct (Hy PIdle) as (_ & H1 & _). eapply leave_step; eauto. left.
      split; [assumption|discriminate].
Qed.

Lemma step_back_ok config ro s tid th k f :
  SInv ro s -> threads s !! tid = Some th -> th_loc th = LBack k f ->
  exists ro' s', thread_step config tid s = (s', Ret tt) /\ SInv ro' s'.
Proof.
  intros I Ht Hl. unfold thread_step. cstep (thread_run tid s th Ht). rewrite Hl, cbind_mod.
  rewrite (goto_run tid _ _ th) by exact Ht. exists ro. eexists. split; [reflexivity|].
  pose proof (si_thr _ _ I _ _ Ht) as [K1 K2 K3 K4 K5].
  eapply (thread_only ro s _ tid th); eauto; simpl.
  - constructor; auto.
    + unfold loc_ok in *. rewrite Hl in K1. exact K1.
    + unfold idle_ok in *. rewrite Hl in K2. exact K2.
    + unfold cb_ok in *. rewrite Hl in K4. exact K4.
  - keeps I Ht.
  - apply I.
Qed.

(** The thread lets go of the fiber it ran. *)
Lemma release_step ro s s' tid th th' k f q fb' r :
  SInv ro s -> threads s !! tid = Some th -> th_loc th = LAfter k f -> ro f = RRun tid q ->
  threads s' = <[tid := th']> (threads s) ->
  sfibers s' = <[f := fb']> (sfibers s) -> queue_ok (upd ro f r) (m_fibers s') ->
  th_loc th' = LTop -> th_idle th' = th_idle th -> th_main th' = th_main th ->
  (r = RCached tid /\ k = KCb /\ th_cb_fiber th' = th_cb_fiber th
     /\ m_stack fb' = true /\ finished (m_state fb') = true
   \/ (r = RFree \/ r = RQueued) /\ at_rest fb'
      /\ th_cb_fiber th' = match k with KFiber => th_cb_fiber th | KCb => None end) ->
  SInv (upd ro f r) s'.
Proof.
  intros I Ht Hl Hr Ht' Hh Hq Hl' Hi Hm Hcase.
  pose proof (si_thr _ _ I _ _ Ht) as K. pose proof (tk_cb _ _ _ _ K) as C.
  unfold cb_ok in C. rewrite Hl in C. simpl in C.
  eapply (local_step ro s _ tid th); eauto; rewrite ?Hh.
  - rewrite Hr. simpl. auto.
  - destruct Hcase as [(-> & _)|([-> | ->] & _)]; simpl; auto.
  - intros g Hg. apply lookup_insert_ne. congruence.
  - apply (thr_ok_move ro (sfibers s) tid th); auto; try (rewrite Hr; discriminate).
    + intros g Hg. apply lookup_insert_ne. congruence.
    + rewrite Hl. reflexivity.
    + rewrite Hl'. reflexivity.
    + unfold loc_ok. rewrite Hl'. exact Logic.I.
    + unfold cb_ok. rewrite Hl'. simpl. intros c Hc.
      destruct Hcase as [(-> & -> & E & _)|(_ & _ & E)]; rewrite E in Hc.
      * simpl in C. simplify_eq. apply upd_eq.
      * destruct k; [|discriminate]. specialize (C c Hc). rewrite upd_ne; congruence.
  - intros g Hg Hog. pose proof (own_th _ _ _ _ _ I Ht Hog) as Ow.
    destruct (ro g); simpl in *; rewrite ?Hl in Ow; simpl in Ow; try congruence; auto.
    + destruct Ow as (? & ? & ? & ? & _). discriminate.
    + destruct Ow as [k0 E]. congruence.
    + destruct Ow as [E1 E2]. rewrite Hl'. split; [|discriminate].
      destruct Hcase as [(_ & -> & E & _)|(_ & _ & E)]; rewrite E.
      * congruence.
      * destruct k; [assumption|]. simpl in C. congruence.
  - destruct Hcase as [(-> & -> & E & _)|([-> | ->] & _)]; simpl; try discriminate.
    intros _. rewrite Hl', E. split; [exact C|discriminate].
  - rewrite lookup_insert_eq.
    destruct Hcase as [(-> & _ & _ & H1 & H2)|([-> | ->] & H & _)]; simpl; eauto.
    intros fb0 E. simplify_eq. assumption.
  - destruct Hcase as [(-> & _)|([-> | ->] & _)]; discriminate.
Qed.

Lemma held_role ro s f tid q :
  SInv ro s -> ro f = RRun tid q ->
  queue_ok (upd ro f (if q then RQueued else RFree)) (m_fibers s).
Proof. intros I Hr. apply queue_same; [apply I|]. rewrite Hr. destruct q; reflexivity. Qed.

(** Reading the location of a thread after a fiber operation. *)
Lemma on_goto_top tid (m : M FS unit) s th h :
  threads s !! tid = Some th ->
  m (view s th) = (set_fibers h (view s th), Ret tt) ->
  (on_thread tid m ;;; goto tid LTop) s
    = (unview (set_fibers h (view s th)) tid (set_loc LTop th) s, Ret tt).
Proof. intros Ht Hm. apply (on_goto tid m (fun _ => LTop) s th _ tt Ht Hm). Qed.

(** What is known of a fiber that a thread has just come back from. *)
Record came_back (ro : nat -> role) (s : Sched) (tid : Z) (f : nat) (q : bool) (fb : Fiber) : Prop := {
  cb_role : ro f = RRun tid q;
  cb_heap : sfibers s !! f = Some fb;
  cb_stack : m_stack fb = true;
  cb_ready : m_state fb = READY -> q = false /\ at_rest fb;
  cb_dead : live (m_state fb) = false -> q = false /\ at_rest fb /\ finished (m_state fb) = true;
  cb_hold : live (m_state fb) = true -> m_state fb <> READY -> at_rest (set_state HOLD fb)
}.

Lemma came_back_ok ro s tid th k f :
  SInv ro s -> threads s !! tid = Some th -> th_loc th = LAfter k f -> exists q fb, came_back ro s tid f q fb.
Proof.
  intros I Ht Hl. pose proof (si_thr _ _ I _ _ Ht) as K. pose proof (tk_loc _ _ _ _ K) as L.
  unfold loc_ok in L. rewrite Hl in L. destruct L as (q & fb & Hr & Hf & Hb).
  assert (Hs : m_stack fb = true).
  { pose proof (si_fiber _ _ I f) as Hok. rewrite Hr in Hok. destruct Hok as (? & ? & ? & _). congruence. }
  exists q, fb. split; auto.
  - intros E. destruct Hb as [[? _]|[-> [[_ Hx]|[?|?]]]]; try congruence.
    split; [reflexivity|]. split; [assumption|]. split; [congruence|]. intros ?. contradiction.
  - intros E. destruct Hb as [[Hx _]|[-> [[Hx _]|[Hx|Hx]]]]; rewrite Hx in E; try discriminate;
      (split; [reflexivity|]); unfold at_rest, resumable; rewrite Hx; repeat split; auto; discriminate.
  - intros E1 E2. destruct Hb as [[Hx Hy]|[-> [[Hx Hy]|[Hx|Hx]]]]; try congruence;
      try (rewrite Hx in E1; discriminate). split; [assumption|]. split; [discriminate|].
    intros ?. contradiction.
Qed.

(** The fiber is put on the queue again. *)
Lemma requeue_ok ro s tid f fb :
  SInv ro s -> came_back ro s tid f false fb ->
  exists s1, schedule (mkFT (Some f) None (-1)) s = (s1, Ret tt) /\ threads s1 = threads s /\ sfibers s1 = sfibers s
    /\ queue_ok (upd ro f RQueued) (m_fibers s1).
Proof.
  intros I B. destruct (schedule_run (mkFT (Some f) None (-1)) s) as (s1 & Hsch & Hq1 & Ht1 & Hh1 & _); [split; eauto|].
  exists s1. split_and!; auto. rewrite Hq1.
  apply queue_push_fiber; [apply I|rewrite (cb_role _ _ _ _ _ _ B); reflexivity|reflexivity].
Qed.

Lemma hold_run s th f fb :
  sfibers s !! f = Some fb ->
  update f (set_state HOLD) (view s th)
    = (set_fibers (<[f := set_state HOLD fb]> (fibers (view s th))) (view s th), Ret tt).
Proof. intros Hf. apply update_run. exact Hf. Qed.

(** Behind a fiber of the queue. *)
Lemma after_fiber_ok ro s tid th f :
  SInv ro s -> threads s !! tid = Some th -> th_loc th = LAfter KFiber f ->
  exists ro' s', step_after tid KFiber f s = (s', Ret tt) /\ SInv ro' s'.
Proof.
  intros I Ht Hl. destruct (came_back_ok ro s tid th KFiber f I Ht Hl) as (q & fb & B).
  pose proof B as [Hr Hf Hs Hready Hdead Hhold]. unfold step_after. cstep (state_run tid s th f fb Ht Hf).
  assert (Hid : <[f := fb]> (sfibers s) = sfibers s) by (apply insert_id; assumption).
  case_bool_decide as Hst.
  - destruct (Hready Hst) as [-> Hrest]. destruct (requeue_ok ro s tid f fb I B) as (s1 & Hsch & Ht1 & Hh1 & Hq1).
    cstep Hsch. rewrite (goto_run tid _ s1 th) by congruence. eexists (upd ro f RQueued), _. split; [reflexivity|].
    eapply (release_step ro s _ tid th (set_loc LTop th) KFiber f false fb); eauto; simpl; rewrite ?Ht1, ?Hh1; auto.
  - destruct (live (m_state fb)) eqn:Hlive.
    + rewrite (on_goto_top tid _ s th _ Ht (hold_run s th f fb Hf)).
      eexists (upd ro f (if q then RQueued else RFree)), _. split; [reflexivity|].
      eapply (release_step ro s _ tid th (set_loc LTop th) KFiber f q (set_state HOLD fb)); eauto; simpl; auto.
      * apply (held_role ro s f tid q I Hr).
      * right. destruct q; auto.
    + rewrite cbind_cret, (goto_run tid _ s th Ht). destruct (Hdead eq_refl) as (Hqf & Hrest & _).
      eexists (upd ro f RFree), _. split; [reflexivity|].
      eapply (release_step ro s _ tid th (set_loc LTop th) KFiber f q fb); eauto; simpl; auto.
      pose proof (held_role ro s f tid q I Hr) as Q. subst q. exact Q.
Qed.

(** Behind the fiber of a callback. *)
Lemma after_cb_ok ro s tid th f :
  SInv ro s -> threads s !! tid = Some th -> th_loc th = LAfter KCb f ->
  exists ro' s', step_after tid KCb f s = (s', Ret tt) /\ SInv ro' s'.
Proof.
  intros I Ht Hl. destruct (came_back_ok ro s tid th KCb f I Ht Hl) as (q & fb & B).
  pose proof B as [Hr Hf Hs Hready Hdead Hhold]. unfold step_after. cstep (state_run tid s th f fb Ht Hf).
  assert (Hid : <[f := fb]> (sfibers s) = sfibers s) by (apply insert_id; assumption).
  case_bool_decide as Hst.
  - destruct (Hready Hst) as [-> Hrest]. destruct (requeue_ok ro s tid f fb I B) as (s1 & Hsch & Ht1 & Hh1 & Hq1).
    erewrite cbind_ret by (cstep Hsch; reflexivity).
    erewrite goto_run by (simpl; rewrite Ht1, lookup_alter_eq, Ht; reflexivity).
    eexists (upd ro f RQueued), _. split; [reflexivity|].
    eapply (release_step ro s _ tid th (set_loc LTop (set_cb_fiber None th)) KCb f false fb);
      eauto; simpl; rewrite ?Ht1, ?Hh1; auto.
    rewrite <- (insert_id (threads s) tid th Ht) at 1. rewrite alter_insert_eq, insert_insert_eq.
    reflexivity.
  - destruct (live (m_state fb)) eqn:Hlive.
    + erewrite cbind_ret by (cstep (on_thread_run tid _ s th _ _ Ht (hold_run s th f fb Hf)); reflexivity).
      erewrite goto_run by (simpl; rewrite alter_insert_eq; apply lookup_insert_eq).
      eexists (upd ro f (if q then RQueued else RFree)), _. split; [reflexivity|].
      eapply (release_step ro s _ tid th (set_loc LTop (set_cb_fiber None th)) KCb f q (set_state HOLD fb));
        eauto; simpl; auto.
      * rewrite alter_insert_eq, insert_insert_eq. destruct th; reflexivity.
      * apply (held_role ro s f tid q I Hr).
      * right. destruct q; auto.
    + destruct (Hdead eq_refl) as (Hqf & Hrest & Hfin).
      rewrite (on_goto_top tid _ s th _ Ht (reset_ok f fb None (view s th) Hf Hs Hfin)).
      eexists (upd ro f (RCached tid)), _. split; [reflexivity|].
      eapply (release_step ro s _ tid th (set_loc LTop th) KCb f q); eauto; simpl; auto.
      * apply queue_same; [apply I|]. rewrite Hr. subst q. reflexivity.
      * left. auto.
Qed.

Lemma step_after_ok config ro s tid th k f :
  SInv ro s -> threads s !! tid = Some th -> th_loc th = LAfter k f ->
  exists ro' s', thread_step config tid s = (s', Ret tt) /\ SInv ro' s'.
Proof.
  intros I Ht Hl. unfold thread_step. cstep (thread_run tid s th Ht). rewrite Hl. destruct k.
  - exact (after_fiber_ok ro s tid th f I Ht Hl).
  - exact (after_cb_ok ro s tid th f I Ht Hl).
Qed.

(** ** The idle fiber *)

Lemma idle_move ro s tid th th' fb' s' :
  SInv ro s -> threads s !! tid = Some th -> running (th_loc th) = None ->
  (forall ft tm act, th_loc th <> LPicked ft tm act) ->
  threads s' = <[tid := th']> (threads s) -> sfibers s' = <[th_idle th := fb']> (sfibers s) ->
  m_fibers s' = m_fibers s ->
  th_idle th' = th_idle th -> th_main th' = th_main th -> th_cb_fiber th' = th_cb_fiber th ->
  running (th_loc th') = None -> (forall ft tm act, th_loc th' <> LPicked ft tm act) ->
  m_stack fb' = true ->
  loc_ok (upd ro (th_idle th) (RIdle tid)) (<[th_idle th := fb']> (sfibers s)) tid th' ->
  idle_at (th_loc th') fb' ->
  SInv (upd ro (th_idle th) (RIdle tid)) s'.
Proof.
  intros I Ht Hrun Hnp Ht' Hh Hq Ei Em Ec Hrun' Hnp' Hs L Hst.
  pose proof (si_thr _ _ I _ _ Ht) as K. pose proof (tk_ridle _ _ _ _ K) as Hri.
  pose proof (tk_cb _ _ _ _ K) as C. unfold cb_ok in C. rewrite Hrun in C.
  destruct (tk_main _ _ _ _ K) as (m & Hm & Hrm).
  eapply (local_step ro s _ tid th th'); eauto; rewrite ?Hh, ?Hq.
  - rewrite Hri. simpl. auto.
  - intros g Hg. apply lookup_insert_ne. congruence.
  - constructor; [exact L| | | |].
    + exists fb'. rewrite Ei, lookup_insert_eq. split; [reflexivity|exact Hst].
    + rewrite Ei. apply upd_eq.
    + unfold cb_ok. rewrite Hrun', Ec. intros c Hc. specialize (C c Hc). rewrite upd_ne; congruence.
    + exists m. rewrite Em. split; [assumption|]. rewrite upd_ne; congruence.
  - intros g Hg Hog. pose proof (own_th _ _ _ _ _ I Ht Hog) as Ow.
    destruct (ro g); simpl in *; try congruence.
    + destruct Ow as (ft & tm & act & E & _). destruct (Hnp ft tm act E).
    + destruct Ow as [k E]. rewrite Hrun in E. discriminate.
  - apply queue_same; [apply I|]. rewrite Hri. reflexivity.
  - rewrite lookup_insert_eq. simpl. eauto.
Qed.

Lemma step_idle_ok config ro s tid th :
  SInv ro s -> threads s !! tid = Some th ->
  ((exists code, th_loc th = LInIdle code) \/ th_loc th = LBackIdle) ->
  exists ro' s', thread_step config tid s = (s', Ret tt) /\ SInv ro' s'.
Proof.
  intros I Ht Hl. unfold thread_step. cstep (thread_run tid s th Ht).
  pose proof (si_thr _ _ I _ _ Ht) as K. pose proof (tk_ridle _ _ _ _ K) as Hri.
  destruct (tk_main _ _ _ _ K) as (main & Hm & _).
  destruct (tk_idle _ _ _ _ K) as (fb & Hf & Hst). pose proof (tk_loc _ _ _ _ K) as L.
  assert (Hs : m_stack fb = true).
  { pose proof (si_fiber _ _ I (th_idle th)) as Hok. rewrite Hri in Hok.
    destruct Hok as (? & ? & ?). congruence. }
  destruct Hl as [[code Hl]|Hl]; unfold loc_ok in L; rewrite Hl in *.
  - destruct L as [-> Htf].
    destruct (leave_ok (th_idle th) fb main PIdle (view s th) Htf Hf Hst Hm) as (_ & Hy & He & _).
    cbn [fiber_step]. unfold stopping. rewrite cbind_get.
    eexists (upd ro (th_idle th) (RIdle tid)). destruct (_ && _).
    + rewrite (on_goto tid _ (fun _ => LBackIdle) s th _ tt Ht He).
      eexists. split; [reflexivity|]. eapply (idle_move ro s tid th); eauto; simpl; auto;
        rewrite ?Hl; (reflexivity || discriminate || exact Logic.I).
    + rewrite (on_goto tid _ (fun _ => LBackIdle) s th _ tt Ht Hy).
      eexists. split; [reflexivity|]. eapply (idle_move ro s tid th); eauto; simpl; auto;
        rewrite ?Hl; (reflexivity || discriminate || exact Logic.I).
  - unfold step_back_idle. rewrite cbind_mod.
    cstep (thread_run tid (add_idle (-1) s) th Ht).
    cstep (state_run tid (add_idle (-1) s) th (th_idle th) fb Ht Hf).
    eexists (upd ro (th_idle th) (RIdle tid)).
    destruct Hst as [[Hx Hy]|Hx]; rewrite Hx; cbn [live].
    + rewrite (on_goto_top tid _ (add_idle (-1) s) th _ Ht (update_run _ (set_state HOLD) fb (view _ th) Hf)).
      eexists. split; [reflexivity|]. eapply (idle_move ro s tid th); eauto; simpl; auto;
        rewrite ?Hl; try (reflexivity || discriminate || exact Logic.I).
      right. split; [discriminate|]. split; [discriminate|]. unfold entry_code. simpl. rewrite Hy. reflexivity.
    + rewrite cbind_cret, (goto_run tid _ (add_idle (-1) s) th Ht).
      eexists. split; [reflexivity|]. eapply (idle_move ro s tid th _ fb); eauto; simpl; auto;
        rewrite ?Hl; try (reflexivity || discriminate || exact Logic.I).
      rewrite insert_id by assumption. reflexivity.
Qed.

(** ** Runs *)

Lemma absent_free ro s x : SInv ro s -> sfibers s !! x = None -> ro x = RFree.
Proof.
  intros I Hx. pose proof (si_fiber _ _ I x) as Hok. rewrite Hx in Hok.
  destruct (ro x); auto; destruct Hok as (? & ? & _) || destruct Hok as (? & ?); discriminate.
Qed.

(** A thread joins with its scheduling fiber [m] and its idle fiber [i]. *)
Lemma thread_joins ro s s2 tid m mb i fb x y :
  SInv ro s -> protected !! m = None -> threads s !! tid = None -> owner (ro m) = None -> isq (ro m) = false ->
  sfibers s !! i = None -> i <> m ->
  m_state fb <> EXEC -> m_state fb <> EXCEPT -> entry_code fb = Some PIdle -> m_stack fb = true ->
  threads s2 = <[tid := mkThread LTop None i x y (Some m)]> (threads s) ->
  sfibers s2 = <[i := fb]> (<[m := mb]> (sfibers s)) -> m_fibers s2 = m_fibers s ->
  SInv (upd (upd ro m (RMain tid)) i (RIdle tid)) s2.
Proof.
  intros I Pm Ht Rm Qm Hi Him Hst1 Hst2 Hcode Hstack Hth Hh Hq.
  pose proof (absent_free ro s i I Hi) as Ri.
  set (ro' := upd (upd ro m (RMain tid)) i (RIdle tid)).
  assert (Hro : forall x, x <> m -> x <> i -> ro' x = ro x)
    by (intros; unfold ro'; rewrite !upd_ne by assumption; reflexivity).
  assert (Hro_m : ro' m = RMain tid) by (unfold ro'; rewrite upd_ne, upd_eq by congruence; reflexivity).
  assert (Hro_i : ro' i = RIdle tid) by apply upd_eq.
  assert (Hnone : forall g, owner (ro g) <> Some tid).
  { intros g Hg. destruct (si_own _ _ I g tid Hg) as (th & E & _). congruence. }
  constructor; rewrite ?Hh, ?Hq.
  - intros t th E. rewrite Hth in E. destruct (decide (t = tid)) as [->|Hne].
    + rewrite lookup_insert_eq in E. injection E as <-. constructor; simpl; auto.
      * exact Logic.I.
      * exists fb. simpl. rewrite lookup_insert_eq. split; [reflexivity|]. right. auto.
      * unfold cb_ok. simpl. discriminate.
      * eauto.
    + rewrite lookup_insert_ne in E by congruence.
      apply (thr_ok_frame ro (sfibers s)); [|apply (si_thr _ _ I _ _ E)].
      intros g Hg. assert (g <> m) by congruence.
      assert (g <> i) by (intros ->; rewrite Ri in Hg; discriminate).
      rewrite Hro, !lookup_insert_ne by congruence. auto.
  - intros g t Hg. rewrite Hth. destruct (decide (g = m)) as [->|Hgm]; [|destruct (decide (g = i)) as [->|Hgi]].
    + rewrite Hro_m in *. simpl in Hg. injection Hg as <-. rewrite lookup_insert_eq.
      eexists. split; reflexivity.
    + rewrite Hro_i in *. simpl in Hg. injection Hg as <-. rewrite lookup_insert_eq.
      eexists. split; reflexivity.
    + rewrite Hro in * by assumption. assert (t <> tid) by (intros ->; apply (Hnone g Hg)).
      rewrite lookup_insert_ne by congruence. apply (si_own _ _ I _ _ Hg).
  - apply queue_same; [apply queue_same; [apply I|]|].
    + rewrite Qm. reflexivity.
    + rewrite upd_ne, Ri by assumption. reflexivity.
  - intros g. destruct (decide (g = i)) as [->|Hgi]; [|destruct (decide (g = m)) as [->|Hgm]].
    + rewrite Hro_i, lookup_insert_eq. simpl. eauto.
    + rewrite Hro_m, lookup_insert_ne, lookup_insert_eq by congruence. simpl. eauto.
    + rewrite Hro, !lookup_insert_ne by congruence. apply (si_fiber _ _ I).
  - intros g fb0 Hg. destruct (si_prot _ _ I g fb0 Hg) as [Hr Hgb].
    assert (g <> m) by congruence. assert (g <> i) by congruence.
    by rewrite Hro, !lookup_insert_ne by congruence.
  - intros g gb Hg Hgb Hs. assert (g <> m) by congruence. assert (g <> i) by congruence.
    rewrite !lookup_insert_ne in Hgb by congruence. rewrite Hro in Hg by done.
    by apply (si_caller _ _ I g gb).
Qed.

(** A fiber that does not exist is not protected. *)
Lemma absent_unprotected ro s x : SInv ro s -> sfibers s !! x = None -> protected !! x = None.
Proof.
  intros I Hx. destruct (protected !! x) as [fb|] eqn:E; [|done].
  destruct (si_prot _ _ I x fb E). congruence.
Qed.

(** The beginning of [run] in a new thread: its main fiber [m] and its idle
    fiber [i]. *)
Lemma run_start_run config s tid :
  exists s2 m i, run_start config tid s = (s2, Ret tt) /\
    sfibers s !! m = None /\ sfibers s !! i = None /\ i <> m /\
    threads s2 = <[tid := mkThread LTop None i (Some m) (Some m) (Some m)]> (threads s) /\
    (exists fb, sfibers s2 = <[i := fb]> (<[m := main_fiber]> (sfibers s)) /\
       m_state fb = INIT /\ entry_code fb = Some PIdle /\ m_stack fb = true) /\
    m_fibers s2 = m_fibers s /\ m_stopping s2 = m_stopping s /\ m_autoStop s2 = m_autoStop s.
Proof.
  unfold run_start. rewrite cbind_mod.
  set (th0 := mkThread LTop None 0 None None None).
  set (s0 := set_threads _ s).
  assert (Ht0 : threads s0 !! tid = Some th0) by apply lookup_insert_eq.
  cstep (on_thread_run tid _ s0 th0 _ _ Ht0 (GetThis_new (view s0 th0) eq_refl)).
  set (m := fresh (dom (fibers (view s0 th0)))).
  unfold upd_thread at 1. rewrite cbind_mod. set (s1 := set_threads _ _).
  set (th1 := mkThread LTop None 0 (Some m) (Some m) (Some m)).
  assert (Ht1 : threads s1 = <[tid := th1]> (threads s)).
  { unfold s1, s0. simpl. rewrite alter_insert_eq, insert_insert_eq. reflexivity. }
  assert (Ht1' : threads s1 !! tid = Some th1) by (rewrite Ht1; apply lookup_insert_eq).
  cstep (on_thread_run tid _ s1 th1 _ _ Ht1' (Fiber_new_run config (Some PIdle) 0 (view s1 th1))).
  set (i := fresh (dom (fibers (view s1 th1)))). set (fb := new_fiber _ _ _ _).
  unfold upd_thread. eexists _, m, i. split; [reflexivity|].
  assert (Hm : sfibers s !! m = None) by (apply not_elem_of_dom, is_fresh).
  assert (Hi : sfibers s1 !! i = None) by (apply not_elem_of_dom, is_fresh).
  change (sfibers s1) with (<[m := main_fiber]> (sfibers s)) in Hi.
  assert (Him : i <> m) by (intros ->; rewrite lookup_insert_eq in Hi; discriminate).
  rewrite lookup_insert_ne in Hi by congruence.
  split; [exact Hm|]. split; [exact Hi|]. split; [exact Him|]. split; [|split; [by exists fb|done]].
  match goal with |- threads ?st = _ =>
    change (threads st) with (alter (fun th => mkThread (th_loc th) (th_cb_fiber th) i (th_t_fiber th)
      (th_threadFiber th) (th_main th)) tid (<[tid := th1]> (threads s1))) end.
  rewrite alter_insert_eq, Ht1, insert_insert_eq. reflexivity.
Qed.

Lemma run_start_ok config ro s tid :
  SInv ro s -> threads s !! tid = None ->
  exists ro' s', run_start config tid s = (s', Ret tt) /\ SInv ro' s'.
Proof.
  intros I Ht.
  destruct (run_start_run config s tid)
    as (s2 & m & i & E & Hm & Hi & Him & Hth & (fb & Hh & F1 & F2 & F3) & Hq & _).
  exists (upd (upd ro m (RMain tid)) i (RIdle tid)), s2. split; [exact E|].
  pose proof (absent_free ro s m I Hm) as Rm.
  apply (thread_joins ro s s2 tid m main_fiber i fb (Some m) (Some m)); try done.
  - exact (absent_unprotected ro s m I Hm).
  - by rewrite Rm.
  - by rewrite Rm.
  - by rewrite F1.
  - by rewrite F1.
Qed.

(** A thread step, whatever the location. *)
Lemma thread_step_ok config ro s tid th :
  SInv ro s -> threads s !! tid = Some th -> allowed s th ->
  exists ro' s', thread_step config tid s = (s', Ret tt) /\ SInv ro' s'.
Proof.
  intros I Ht Ha. destruct (th_loc th) as [|ft tm act|k f code|k f|k f|code| |] eqn:Hl.
  - eapply step_top_ok; eauto.
  - eapply step_picked_ok; eauto.
  - eapply step_in_ok; eauto.
  - eapply step_back_ok; eauto.
  - eapply step_after_ok; eauto.
  - eapply step_idle_ok; eauto.
  - eapply step_idle_ok; eauto.
  - exists ro, s. unfold thread_step. cstep (thread_run tid s th Ht). rewrite Hl. auto.
Qed.

(** [new Fiber(cb)] by user code. *)
Definition new_user_fiber (config : Z) (cb : prog) (s : Sched) : Sched :=
  let f := fresh (dom (sfibers s)) in
  mkSched (<[f := mkFiber (u64 (sid s + 1)) (u32 config) INIT CMain true (Some cb)]> (sfibers s))
    (u64 (sid s + 1)) (u64 (scount s + 1)) (m_fibers s) (m_activeThreadCount s)
    (m_idleThreadCount s) (m_stopping s) (m_autoStop s) (threads s) (trickles s).

Inductive sstep (config : Z) : Sched -> Sched -> Prop :=
  | ss_start tid s s' : threads s !! tid = None -> run_start config tid s = (s', Ret tt) ->
      sstep config s s'
  | ss_thread tid th s s' : threads s !! tid = Some th -> allowed s th ->
      thread_step config tid s = (s', Ret tt) -> sstep config s s'
  | ss_cb cb t s s' : schedule (mkFT None (Some cb) t) s = (s', Ret tt) -> sstep config s s'
  | ss_fiber g t s s' : can_schedule s g -> schedule (mkFT (Some g) None t) s = (s', Ret tt) ->
      sstep config s s'
  | ss_new cb s : sstep config s (new_user_fiber config cb s)
  | ss_stop n s s' : request_stop n s = (s', Ret tt) -> sstep config s s'.

Lemma request_stop_run n s :
  exists s', request_stop n s = (s', Ret tt) /\ threads s' = threads s /\ sfibers s' = sfibers s
    /\ m_fibers s' = m_fibers s /\ m_activeThreadCount s' = m_activeThreadCount s
    /\ m_idleThreadCount s' = m_idleThreadCount s.
Proof.
  unfold request_stop. rewrite cbind_mod.
  assert (H : forall s, exists s', Nat.iter n (fun m : M Sched unit => trickle ;;; m) (cret tt) s = (s', Ret tt)
    /\ threads s' = threads s /\ sfibers s' = sfibers s
    /\ m_fibers s' = m_fibers s /\ m_activeThreadCount s' = m_activeThreadCount s
    /\ m_idleThreadCount s' = m_idleThreadCount s).
  { induction n as [|n IH]; intros s1; simpl; [exists s1; auto 10|].
    unfold trickle. rewrite cbind_mod. apply (IH (add_trickle s1)). }
  apply (H (set_flags true true s)).
Qed.

Lemma sstep_inv config s s' : sstep config s s' -> (exists ro, SInv ro s) -> exists ro, SInv ro s'.
Proof.
  intros Hst [ro I]. destruct Hst as [tid s s' Ht H|tid th s s' Ht Ha H|cb t s s' H|g t s s' Hc H|cb s|n s s' H].
  - destruct (run_start_ok config ro s tid I Ht) as (ro' & s2 & H2 & I2). assert (s2 = s') as -> by congruence. eauto.
  - destruct (thread_step_ok config ro s tid th I Ht Ha) as (ro' & s2 & H2 & I2). assert (s2 = s') as -> by congruence. eauto.
  - destruct (schedule_run (mkFT None (Some cb) t) s) as (s2 & H2 & Hq & Hth & Hh & _).
    { split; [intros [? ?]; discriminate|discriminate]. }
    assert (s2 = s') as -> by congruence. exists ro. eapply schedule_cb_inv; eauto.
  - destruct (schedule_run (mkFT (Some g) None t) s) as (s2 & H2 & Hq & Hth & Hh & _).
    { split; eauto. }
    assert (s2 = s') as -> by congruence. destruct (schedule_fiber_inv ro s s' g t I Hc Hq Hth Hh) as (ro' & I' & _). eauto.
  - exists ro. set (f := fresh (dom (sfibers s))).
    assert (Hf : sfibers s !! f = None) by (apply not_elem_of_dom, is_fresh).
    pose proof (absent_free ro s f I Hf) as Hr.
    pose proof (absent_unprotected ro s f I Hf) as Pf.
    destruct I as [I1 I2 I3 I4 I5 I6]. constructor; simpl; auto; fold f.
    + intros tid th Ht. apply (thr_ok_frame ro (sfibers s)); [|auto]. intros g Hg.
      rewrite lookup_insert_ne; [auto|]. intros ->. rewrite Hr in Hg. discriminate.
    + intros g. destruct (decide (g = f)) as [->|Hne].
      * rewrite Hr, lookup_insert_eq. intros fb E. injection E as <-.
        split; [reflexivity|]. split; [discriminate|]. intros E. discriminate.
      * rewrite lookup_insert_ne by congruence. apply I4.
    + intros g fb Hg. rewrite lookup_insert_ne by congruence. by apply I5.
    + intros g fb Hg Hgb. assert (g <> f) by congruence.
      rewrite lookup_insert_ne in Hgb by congruence. by apply I6.
  - destruct (request_stop_run n s) as (s2 & H2 & Hth & Hh & Hq & _). assert (s2 = s') as -> by congruence.
    exists ro. apply (SInv_ext ro s); auto.
Qed.

End invariant.

Abbreviation reach config := (rtc (sstep config) Scheduler_new).

(** At the beginning there is nothing to protect. *)
#[export] Instance nothing_protected : Protected := (∅ : gmap nat Fiber).

Lemma new_SInv : SInv (fun _ => RFree) Scheduler_new.
Proof.
  constructor; simpl; try discriminate.
  constructor; simpl; [|constructor|constructor]. intros g. set_solver.
Qed.

Lemma reach_inv config s : reach config s -> exists ro, SInv ro s.
Proof.
  intros R. assert (H : exists ro, SInv ro Scheduler_new) by (eexists; apply new_SInv).
  revert H. induction R as [|x y z Hxy _ IH]; intros H; [assumption|].
  apply IH. eapply sstep_inv; eauto.
Qed.
