(* ===== verification/SchedulerSpec.v ===== *)
(** * What the scheduler promises (sylar/scheduler.cpp)

    Over all interleavings ([reach]): the counters are exact, no assertion
    fails, a fiber runs on one thread at a time, tasks are taken in order by
    the threads they may run on, and [stopping] means that nothing is left to
    do. *)

From stdpp Require Import base gmap list relations.
From Stdlib Require Import ZArith Lia.
From S2P Require Import Prelude Fiber Scheduler SchedulerSafe.

Local Open Scope Z_scope.
Local Open Scope cpp_scope.

(** ** Counting threads *)

Definition locs (s : Sched) : gmap Z loc := th_loc <$> threads s.

Definition count (b : loc -> bool) (m : gmap Z loc) : Z :=
  Z.of_nat (size (filter (fun p => b p.2 = true) m)).

(** Between the increment and the decrement of the two counters. *)
Definition busy (l : loc) : bool :=
  match l with LPicked _ _ act => act | LIn _ _ _ | LBack _ _ => true | _ => false end.

Definition idling (l : loc) : bool :=
  match l with LInIdle _ | LBackIdle => true | _ => false end.

Lemma count_insert_delete b m i y : count b (<[i := y]> m) = count b (delete i m) + Z.b2z (b y).
Proof.
  unfold count. rewrite map_filter_insert. destruct (decide _) as [Hy|Hn]; simpl in *.
  - rewrite Hy, map_filter_delete. simpl.
    rewrite <- (insert_delete_eq (filter _ m) i y), map_size_insert_None by apply lookup_delete_eq.
    lia.
  - apply not_true_is_false in Hn. rewrite Hn. simpl. lia.
Qed.

Lemma count_insert b m i x y :
  m !! i = Some x -> count b (<[i := y]> m) = count b m + (Z.b2z (b y) - Z.b2z (b x)).
Proof.
  intros Hx. rewrite <- (insert_id m i x Hx) at 2. rewrite !count_insert_delete. lia.
Qed.

Lemma count_new b m i y :
  m !! i = None -> count b (<[i := y]> m) = count b m + Z.b2z (b y).
Proof. intros Hx. rewrite count_insert_delete, delete_id by assumption. reflexivity. Qed.

Lemma count_pos b m i x : m !! i = Some x -> b x = true -> 0 < count b m.
Proof.
  intros Hx Hb. rewrite <- (insert_id m i x Hx), count_insert_delete, Hb. unfold count. simpl. lia.
Qed.

Lemma count_le b m : 0 <= count b m <= Z.of_nat (size m).
Proof.
  unfold count. split; [lia|]. apply inj_le, map_subseteq_size, map_filter_subseteq.
Qed.

(** ** Operations that leave the locations and the counters alone *)

Definition counters (s : Sched) : Z * Z := (m_activeThreadCount s, m_idleThreadCount s).

Definition quiet {A} (m : M Sched A) : Prop := forall s s' a,
  m s = (s', Ret a) -> locs s' = locs s /\ counters s' = counters s.

Lemma bind_inv {A B} (m : M Sched A) (k : A -> M Sched B) s s' b :
  cbind m k s = (s', Ret b) -> exists s1 a, m s = (s1, Ret a) /\ k a s1 = (s', Ret b).
Proof. unfold cbind. destruct (m s) as [s1 [a|e|f]]; intros H; try discriminate. eauto. Qed.

Lemma quiet_bind {A B} (m : M Sched A) (k : A -> M Sched B) :
  quiet m -> (forall a, quiet (k a)) -> quiet (cbind m k).
Proof.
  intros Hm Hk s s' b H. apply bind_inv in H as (s1 & a & H1 & H2).
  destruct (Hm _ _ _ H1) as [E1 E2]. destruct (Hk _ _ _ _ H2) as [E3 E4]. split; congruence.
Qed.

Lemma quiet_ret {A} (a : A) : quiet (cret a).
Proof. intros s s' b H. injection H as <- _. auto. Qed.

Lemma quiet_get {A} (f : Sched -> A) : quiet (cget f).
Proof. intros s s' b H. injection H as <- _. auto. Qed.

Lemma quiet_undef {A} f : quiet (@cundef Sched A f).
Proof. intros s s' b H. discriminate. Qed.

Lemma locs_insert_same s tid th th' :
  threads s !! tid = Some th -> th_loc th' = th_loc th ->
  th_loc <$> (<[tid := th']> (threads s)) = locs s.
Proof.
  intros Ht E. rewrite fmap_insert, E. apply insert_id. unfold locs.
  rewrite lookup_fmap, Ht. reflexivity.
Qed.

Lemma quiet_on_thread {A} tid (m : M FS A) : quiet (on_thread tid m).
Proof.
  intros s s' a H. unfold on_thread in H. destruct (threads s !! tid) as [th|] eqn:Ht; [|discriminate].
  destruct (m (view s th)) as [fs r]. injection H as <- ->.
  split; [|reflexivity]. unfold locs at 1. simpl. eapply locs_insert_same; eauto.
Qed.

Lemma quiet_upd tid g : (forall th, th_loc (g th) = th_loc th) -> quiet (upd_thread tid g).
Proof.
  intros Hg s s' a H. injection H as <- _. split; [|reflexivity]. unfold locs. simpl.
  apply map_eq. intros t. rewrite !lookup_fmap.
  destruct (decide (t = tid)) as [->|Hne].
  - rewrite lookup_alter_eq. destruct (threads s !! tid); simpl; [rewrite Hg|]; reflexivity.
  - rewrite lookup_alter_ne by congruence. reflexivity.
Qed.

Lemma quiet_thread tid : quiet (thread tid).
Proof.
  apply quiet_bind; [apply quiet_get|]. intros m.
  destruct (m !! tid); [apply quiet_ret|apply quiet_undef].
Qed.

Lemma quiet_trickle : quiet trickle.
Proof. intros s s' a H. injection H as <- _. auto. Qed.

Lemma quiet_queue q : quiet (cmod (set_queue q)).
Proof. intros s s' a H. injection H as <- _. auto. Qed.

Lemma quiet_schedule ft : quiet (schedule ft).
Proof.
  apply quiet_bind.
  - apply quiet_bind; [apply quiet_get|]. intros q. apply quiet_bind; [|intros; apply quiet_ret].
    destruct (_ || _); [apply quiet_queue|apply quiet_ret].
  - intros []; [apply quiet_trickle|apply quiet_ret].
Qed.

Lemma quiet_take_cb config tid cb : quiet (take_cb_fiber config tid cb).
Proof.
  apply quiet_bind; [apply quiet_thread|]. intros th. destruct (th_cb_fiber th).
  - apply quiet_bind; [apply quiet_on_thread|intros; apply quiet_ret].
  - apply quiet_bind; [apply quiet_on_thread|]. intros c.
    apply quiet_bind; [apply quiet_upd; reflexivity|intros; apply quiet_ret].
Qed.

Create HintDb quiet.
#[export] Hint Resolve quiet_bind quiet_ret quiet_get quiet_undef quiet_on_thread quiet_thread
  quiet_trickle quiet_queue quiet_schedule quiet_take_cb : quiet.

(** ** The effect of a step on the counters *)

(** A counter follows a change of location. *)
Definition follows (b : loc -> bool) (l l' : loc) (n n' : Z) : Prop :=
  n' = (if eqb (b l) (b l') then n else u64 (n + (Z.b2z (b l') - Z.b2z (b l)))).

Definition effect (tid : Z) (l : loc) (s s' : Sched) : Prop := exists l',
  locs s' = <[tid := l']> (locs s)
  /\ follows busy l l' (m_activeThreadCount s) (m_activeThreadCount s')
  /\ follows idling l l' (m_idleThreadCount s) (m_idleThreadCount s').

Lemma goto_effect tid l s s' a :
  goto tid l s = (s', Ret a) -> is_Some (locs s !! tid) ->
  locs s' = <[tid := l]> (locs s) /\ counters s' = counters s.
Proof.
  intros H [x Hx]. injection H as <- _. split; [|reflexivity]. unfold locs in *. simpl.
  rewrite lookup_fmap in Hx. destruct (threads s !! tid) as [th|] eqn:Ht; [|discriminate].
  rewrite <- (insert_id (threads s) tid th Ht) at 1. rewrite alter_insert_eq, fmap_insert. reflexivity.
Qed.

Lemma effect_shift tid l s s1 s' :
  locs s1 = locs s -> counters s1 = counters s -> effect tid l s1 s' -> effect tid l s s'.
Proof.
  intros L C (l' & F1 & F2 & F3). injection C as C1 C2. exists l'.
  rewrite L in F1. rewrite C1 in F2. rewrite C2 in F3. auto.
Qed.

(** A quiet computation and then a jump that changes no counter. *)
Lemma quiet_goto {A} (m : M Sched A) tid (f : A -> loc) l s s' b :
  quiet m -> (let! a := m in goto tid (f a)) s = (s', Ret b) -> locs s !! tid = Some l ->
  (forall a, busy (f a) = busy l /\ idling (f a) = idling l) -> effect tid l s s'.
Proof.
  intros Hq H Hl Hf. apply bind_inv in H as (s1 & a & H1 & H2). destruct (Hq _ _ _ H1) as [E1 E2].
  apply goto_effect in H2 as [E3 E4]; [|rewrite E1; eauto].
  destruct (Hf a) as [F1 F2]. exists (f a). unfold follows. rewrite F1, F2, !eqb_reflx.
  rewrite E2 in E4. injection E4 as -> ->. rewrite E3, E1. split; [reflexivity|]. split; reflexivity.
Qed.

Lemma fiber_step_effect tid code cont back l s s' b :
  fiber_step tid code cont back s = (s', Ret b) -> locs s !! tid = Some l ->
  (forall k, busy (cont k) = busy l /\ idling (cont k) = idling l) ->
  busy back = busy l /\ idling back = idling l -> effect tid l s s'.
Proof.
  intros H Hl Hc Hb. destruct code; cbn [fiber_step] in H;
    try (eapply quiet_goto; [|exact H|exact Hl|]; eauto with quiet; fail); [|discriminate].
  apply bind_inv in H as (s1 & st & H1 & H2). injection H1 as <- <-.
  destruct (_ && _); eapply quiet_goto; [|exact H2|exact Hl| | |exact H2|exact Hl|]; eauto with quiet.
Qed.

(** The same with one counter moved before the jump. *)
Lemma active_goto tid d l l' s s' b :
  (cmod (add_active d) ;;; goto tid l') s = (s', Ret b) -> locs s !! tid = Some l ->
  d = Z.b2z (busy l') - Z.b2z (busy l) -> busy l <> busy l' -> idling l = idling l' -> effect tid l s s'.
Proof.
  intros H Hl Hd Hb Hi. rewrite cbind_mod in H. apply goto_effect in H as [E1 E2]; [|exists l; exact Hl].
  exists l'. unfold follows. rewrite Hi, eqb_reflx.
  replace (eqb (busy l) (busy l')) with false by (symmetry; apply eqb_false_iff; assumption).
  injection E2 as -> ->. subst d. split; [exact E1|]. split; reflexivity.
Qed.

Lemma step_top_effect tid s s' b :
  step_top tid s = (s', Ret b) -> locs s !! tid = Some LTop -> effect tid LTop s s'.
Proof.
  intros H Hl. apply bind_inv in H as (s1 & x & H1 & H). injection H1 as <- <-.
  apply bind_inv in H as (s1 & y & H1 & H). injection H1 as <- _.
  rewrite cbind_mod in H. destruct (y.1.1) as [ft|].
  - eapply (active_goto tid 1 LTop) in H; [exact H|exact Hl|reflexivity|discriminate|reflexivity].
  - eapply (quiet_goto (cret tt) tid (fun _ => LPicked ft_empty y.2 false) LTop) in H;
      [exact H|apply quiet_ret|exact Hl|auto].
Qed.

(** Without a task: the idle fiber or the end. *)
Lemma picked_none_effect tid ft tm s s' b :
  (let! th := thread tid in
   let! st := on_thread tid (getState (th_idle th)) in
   if bool_decide (st = TERM) then goto tid LExit
   else cmod (add_idle 1) ;;; let! code := on_thread tid (swapIn (th_idle th)) in goto tid (LInIdle code)) s = (s', Ret b) ->
  locs s !! tid = Some (LPicked ft tm false) -> effect tid (LPicked ft tm false) s s'.
Proof.
  intros Hm Hl2. apply bind_inv in Hm as (s3 & th & H3 & Hm). destruct (quiet_thread tid _ _ _ H3) as [L3 C3].
  apply bind_inv in Hm as (s4 & st & H4 & Hm).
  destruct (quiet_on_thread tid _ _ _ _ H4) as [L4 C4].
  assert (Hl4 : locs s4 !! tid = Some (LPicked ft tm false)) by (rewrite L4, L3; exact Hl2).
  apply (effect_shift tid _ s s4); [congruence..|]. case_bool_decide.
  - eapply (quiet_goto (cret tt) tid (fun _ => LExit)) in Hm; [exact Hm|apply quiet_ret|exact Hl4|auto].
  - rewrite cbind_mod in Hm. apply bind_inv in Hm as (s5 & code & H5 & Hm).
    destruct (quiet_on_thread tid _ _ _ _ H5) as [L5 C5].
    apply goto_effect in Hm as [L6 C6]; [|rewrite L5; eexists; exact Hl4].
    exists (LInIdle code). rewrite C5 in C6. injection C6 as -> ->. rewrite L6, L5.
    split; [reflexivity|]. split; reflexivity.
Qed.

(** With a callback. *)
Lemma picked_cb_effect config tid ft tm cb s s' b :
  (let! c := take_cb_fiber config tid cb in
   let! code := on_thread tid (swapIn c) in
   goto tid (LIn KCb c code)) s = (s', Ret b) ->
  locs s !! tid = Some (LPicked ft tm true) -> effect tid (LPicked ft tm true) s s'.
Proof.
  intros Hm Hl2. apply bind_inv in Hm as (s3 & c & H3 & Hm).
  destruct (quiet_take_cb config tid cb _ _ _ H3) as [L3 C3].
  eapply (quiet_goto _ tid (LIn KCb c) (LPicked ft tm true)) in Hm;
    [|apply quiet_on_thread|rewrite L3; exact Hl2|auto].
  apply (effect_shift tid _ s s3); assumption.
Qed.

Lemma step_picked_effect config tid ft tm act s s' b :
  step_picked config tid ft tm act s = (s', Ret b) ->
  locs s !! tid = Some (LPicked ft tm act) -> (act = false -> ft = ft_empty) ->
  effect tid (LPicked ft tm act) s s'.
Proof.
  intros H Hl He. apply bind_inv in H as (s1 & x & H1 & H).
  assert (Q : quiet (if tm then trickle else cret tt)) by (destruct tm; auto with quiet).
  destruct (Q _ _ _ H1) as [L1 C1]. apply bind_inv in H as (s2 & go & H2 & H).
  assert (Q2 : quiet (match ft_fiber ft with
              | Some f => let! st := on_thread tid (getState f) in cret (live st)
              | None => cret false end)) by (destruct (ft_fiber ft); auto with quiet).
  destruct (Q2 _ _ _ H2) as [L2 C2].
  assert (Hl2 : locs s2 !! tid = Some (LPicked ft tm act)) by (rewrite L2, L1; exact Hl).
  apply (effect_shift tid _ s s2); [congruence..|].
  clear H1 H2 Q Q2 L1 L2 C1 C2 Hl x s s1.
  assert (Hact : is_Some (ft_fiber ft) \/ is_Some (ft_cb ft) -> act = true).
  { destruct act; [reflexivity|]. rewrite He by reflexivity. intros [[? ?]|[? ?]]; discriminate. }
  assert (Hdrop : (cmod (add_active (-1)) ;;; goto tid LTop) s2 = (s', Ret b) -> act = true -> effect tid (LPicked ft tm act) s2 s').
  { intros Hm ->. eapply (active_goto tid (-1) (LPicked ft tm true)) in Hm;
      [exact Hm|exact Hl2|reflexivity|discriminate|reflexivity]. }
  destruct (ft_fiber ft) as [f|]; [destruct go|].
  - assert (act = true) as -> by eauto.
    eapply (quiet_goto _ tid (LIn KFiber f)) in H; [exact H|apply quiet_on_thread|exact Hl2|auto].
  - assert (act = true) as -> by eauto. destruct (ft_cb ft); [exact (picked_cb_effect _ _ _ _ _ _ _ _ H Hl2)|auto].
  - destruct (ft_cb ft); [assert (act = true) as -> by eauto; exact (picked_cb_effect _ _ _ _ _ _ _ _ H Hl2)|].
    destruct act; [auto|]. exact (picked_none_effect _ _ _ _ _ _ H Hl2).
Qed.

Lemma thread_step_effect {Pr : Protected} config ro tid th s s' b :
  SInv ro s -> threads s !! tid = Some th -> thread_step config tid s = (s', Ret b) ->
  effect tid (th_loc th) s s'.
Proof.
  intros I Ht H. unfold thread_step in H. rewrite (cbind_ret _ _ _ _ _ (thread_run tid s th Ht)) in H.
  assert (Hl : locs s !! tid = Some (th_loc th)) by (unfold locs; rewrite lookup_fmap, Ht; reflexivity).
  pose proof (tk_loc _ _ _ _ (si_thr _ _ I _ _ Ht)) as L. unfold loc_ok in L.
  destruct (th_loc th) as [|ft tm act|k f code|k f|k f|code| |].
  - eapply step_top_effect; eauto.
  - eapply step_picked_effect; eauto. apply L.
  - eapply fiber_step_effect; eauto.
  - eapply (active_goto tid (-1) (LBack k f)) in H; [exact H|exact Hl|reflexivity|discriminate|reflexivity].
  - unfold step_after in H. apply bind_inv in H as (s1 & st & H1 & H).
    destruct (quiet_on_thread tid _ _ _ _ H1) as [L1 C1].
    eapply (quiet_goto _ tid (fun _ => LTop) (LAfter k f)) in H; [| |rewrite L1; exact Hl|auto].
    + apply (effect_shift tid _ s s1); assumption.
    + assert (Hc : quiet (upd_thread tid (set_cb_fiber None))) by (apply quiet_upd; reflexivity).
      destruct k, (bool_decide (st = READY)), (live st); auto with quiet.
  - eapply fiber_step_effect; eauto.
  - unfold step_back_idle in H. rewrite cbind_mod in H. apply bind_inv in H as (s1 & th1 & H1 & H).
    destruct (quiet_thread tid _ _ _ H1) as [L1 C1]. apply bind_inv in H as (s2 & st & H2 & H).
    destruct (quiet_on_thread tid _ _ _ _ H2) as [L2 C2]. apply bind_inv in H as (s3 & u & H3 & H).
    assert (Q : quiet (if live st then on_thread tid (update (th_idle th1) (set_state HOLD)) else cret tt))
      by (destruct (live st); auto with quiet).
    destruct (Q _ _ _ H3) as [L3 C3].
    apply goto_effect in H as [L4 C4]; [|rewrite L3, L2, L1; eexists; exact Hl].
    exists LTop. rewrite C3, C2, C1 in C4. injection C4 as -> ->. rewrite L4, L3, L2, L1.
    split; [reflexivity|]. split; reflexivity.
  - injection H as <- _. exists LExit. rewrite (insert_id (locs s)) by exact Hl.
    split; [reflexivity|]. split; reflexivity.
Qed.

(** Modulo 2^64 the counters count. *)
Definition counted (s : Sched) : Prop :=
  m_activeThreadCount s = u64 (count busy (locs s))
  /\ m_idleThreadCount s = u64 (count idling (locs s)).

Lemma follows_count b l l' n n' m i :
  m !! i = Some l -> n = u64 (count b m) -> follows b l l' n n' ->
  n' = u64 (count b (<[i := l']> m)).
Proof.
  intros Hm Hn Hf. unfold follows in Hf. rewrite (count_insert b m i l l' Hm), Hf, Hn.
  destruct (b l), (b l'); simpl; unfold uwrap; rewrite ?Z.add_0_r, ?Zplus_mod_idemp_l; reflexivity.
Qed.

Lemma run_start_counts config tid s s' :
  threads s !! tid = None -> run_start config tid s = (s', Ret tt) ->
  locs s' = <[tid := LTop]> (locs s) /\ counters s' = counters s.
Proof.
  intros Ht H. unfold run_start in H. rewrite cbind_mod in H.
  match type of H with cbind ?m _ ?st = _ => set (s0 := st) in H end.
  assert (L0 : locs s0 = <[tid := LTop]> (locs s)).
  { unfold s0, locs. simpl. rewrite fmap_insert. reflexivity. }
  match type of H with ?m s0 = _ => assert (Q : quiet m) end.
  { apply quiet_bind; [apply quiet_on_thread|]. intros m.
    apply quiet_bind; [apply quiet_upd; reflexivity|]. intros _.
    apply quiet_bind; [apply quiet_on_thread|]. intros i. apply quiet_upd. reflexivity. }
  destruct (Q _ _ _ H) as [L C]. rewrite L, C. auto.
Qed.

Lemma sstep_counted config s s' :
  sstep config s s' -> (exists ro, SInv ro s) -> counted s -> counted s'.
Proof.
  intros Hst [ro I] [C1 C2].
  assert (Hq : forall s', locs s' = locs s -> counters s' = counters s -> counted s').
  { intros s0 L C. injection C as E1 E2. split; rewrite L; congruence. }
  destruct Hst as [tid s s' Ht H|tid th s s' Ht Ha H|cb t s s' H|g t s s' Hc H|cb s|n s s' H].
  - destruct (run_start_counts config tid s s' Ht H) as [L C]. injection C as E1 E2.
    split; rewrite L, count_new by (unfold locs; rewrite lookup_fmap, Ht; reflexivity);
      simpl; rewrite Z.add_0_r; congruence.
  - destruct (thread_step_effect config ro tid th s s' tt I Ht H) as (l' & L & F1 & F2).
    assert (Hl : locs s !! tid = Some (th_loc th)) by (unfold locs; rewrite lookup_fmap, Ht; reflexivity).
    split; rewrite L; eapply follows_count; eauto.
  - apply (quiet_schedule _ _ _ _) in H as [L C]. auto.
  - apply (quiet_schedule _ _ _ _) in H as [L C]. auto.
  - apply Hq; reflexivity.
  - destruct (request_stop_run n s) as (s2 & H2 & Hth & _ & _ & Ha & Hi).
    assert (s2 = s') as -> by congruence. apply Hq; unfold locs, counters; congruence.
Qed.

Lemma reach_counted config s : reach config s -> counted s.
Proof.
  intros R. assert (H : (exists ro, SInv ro Scheduler_new) /\ counted Scheduler_new).
  { split; [eexists; apply new_SInv|]. split; reflexivity. }
  revert H. induction R as [|x y z Hxy _ IH]; intros [H1 H2]; [assumption|].
  apply IH. split; [eapply sstep_inv; eauto|eapply sstep_counted; eauto].
Qed.

(** ** The properties *)

(** Thread [tid] executes the code of fiber [f]. *)
Definition executing (s : Sched) (tid : Z) (f : nat) : Prop :=
  exists th code, threads s !! tid = Some th
    /\ ((exists k, th_loc th = LIn k f code) \/ (th_loc th = LInIdle code /\ th_idle th = f)).

(** No assertion of the fibers or of the scheduler fails and no null
    pointer is dereferenced, in any interleaving: a thread can always take its
    next step ([swapIn] of a fiber that is not running, [reset] of a finished
    one, a resume before the end of [MainFunc]). *)
Theorem scheduler_never_stuck config s tid th :
  reach config s -> threads s !! tid = Some th -> allowed s th ->
  exists s', thread_step config tid s = (s', Ret tt).
Proof.
  intros R Ht Ha. destruct (reach_inv config s R) as [ro I].
  destruct (thread_step_ok config ro s tid th I Ht Ha) as (_ & s' & H & _). eauto.
Qed.

(** Two threads; a callback that yields, taken by thread 1; a second one in
    the queue, bound to thread 2. *)
Definition demo_sched : Sched := Eval vm_compute in
  fst ((run_start 131072 1 ;;; run_start 131072 2 ;;;
        schedule (mkFT None (Some (PYieldHold PRet)) (-1)) ;;;
        schedule (mkFT None (Some PRet) 2) ;;;
        thread_step 131072 1 ;;; thread_step 131072 1) Scheduler_new).

Lemma demo_reach : reach 131072 demo_sched.
Proof.
  eapply rtc_l; [eapply (ss_start _ 1); [reflexivity|vm_compute; reflexivity]|].
  eapply rtc_l; [eapply (ss_start _ 2); [reflexivity|vm_compute; reflexivity]|].
  eapply rtc_l; [eapply (ss_cb _ (PYieldHold PRet) (-1)); vm_compute; reflexivity|].
  eapply rtc_l; [eapply (ss_cb _ PRet 2); vm_compute; reflexivity|].
  eapply rtc_l; [eapply (ss_thread _ 1); [vm_compute; reflexivity|exact I|vm_compute; reflexivity]|].
  eapply rtc_l; [eapply (ss_thread _ 1); [vm_compute; reflexivity|exact I|vm_compute; reflexivity]|].
  apply rtc_refl.
Qed.

Lemma scheduler_never_stuck_witness :
  exists s', thread_step 131072 1 demo_sched = (s', Ret tt).
Proof.
  eapply (scheduler_never_stuck 131072 demo_sched 1); [apply demo_reach|reflexivity|exact I].
Defined.

(** C12: in every run in which fibers are scheduled by the rule of
    SchedulerSafe.v, which the code does not check (a fiber is scheduled only
    while it is not queued, not taken by a thread and not on its way out of one,
    and while it is queued it neither ends nor yields to READY): a fiber runs on
    at most one thread at a time, although it can be queued for its next turn
    while it still runs. *)
Theorem fiber_on_one_thread config s t1 t2 f :
  reach config s -> executing s t1 f -> executing s t2 f -> t1 = t2.
Proof.
  intros R E1 E2. destruct (reach_inv config s R) as [ro I].
  assert (H : forall t, executing s t f -> owner (ro f) = Some t).
  { intros t (th & code & Ht & Hl). pose proof (si_thr _ _ I _ _ Ht) as K.
    destruct Hl as [[k Hl]|[Hl <-]].
    - pose proof (tk_loc _ _ _ _ K) as L. unfold loc_ok in L. rewrite Hl in L.
      destruct L as (_ & q & fb & Hr & _). rewrite Hr. reflexivity.
    - rewrite (tk_ridle _ _ _ _ K). reflexivity. }
  apply H in E1. apply H in E2. congruence.
Qed.

Lemma fiber_on_one_thread_witness :
  exists f, executing demo_sched 1 f /\ (executing demo_sched 2 f -> 1 = 2).
Proof.
  assert (H : exists f, executing demo_sched 1 f).
  { eexists. eexists _, _. split; [reflexivity|]. left. eexists. reflexivity. }
  destruct H as [f H]. exists f. split; [exact H|].
  intros H2. exact (fiber_on_one_thread 131072 demo_sched 1 2 f demo_reach H H2).
Defined.

(** Without the rule: a fiber that is scheduled twice is taken by two threads,
    and the second one runs into the assertion of [swapIn]. *)
Definition two_threads : Sched := Eval vm_compute in
  fst ((run_start 131072 1 ;;; run_start 131072 2) Scheduler_new).

Definition with_fiber : Sched := Eval vm_compute in new_user_fiber 131072 PRet two_threads.

(** A thread at the top of the loop that has nothing to do with fiber [f]. *)
Definition unaware (f : nat) (th : Thread) : bool :=
  match th_loc th with
  | LTop => bool_decide (th_idle th <> f) && bool_decide (th_main th <> Some f)
            && bool_decide (th_cb_fiber th = None)
  | _ => false
  end.

Theorem scheduled_twice_aborts :
  let f := fresh (dom (sfibers two_threads)) in
  let twice := schedule (mkFT (Some f) None (-1)) ;;; schedule (mkFT (Some f) None (-1)) ;;;
    thread_step 131072 1 ;;; thread_step 131072 2 ;;; thread_step 131072 1 in
  with_fiber = new_user_fiber 131072 PRet two_threads /\ can_schedule with_fiber f /\
  snd (twice with_fiber) = Ret tt /\
  snd ((twice ;;; thread_step 131072 2) with_fiber) = Undef AssertFailed.
Proof.
  assert (E : fresh (dom (sfibers two_threads)) = 4%nat) by (vm_compute; reflexivity).
  rewrite E. cbv zeta. split; [vm_compute; reflexivity|]. split; [|split; vm_compute; reflexivity].
  split; [|split; [|split]].
  - eexists. split; vm_compute; reflexivity.
  - vm_compute. reflexivity.
  - intros H. vm_compute in H. inversion H.
  - assert (H : bool_decide (map_Forall (fun _ th => unaware 4 th = true) (threads with_fiber)) = true)
      by (vm_compute; reflexivity).
    apply bool_decide_eq_true in H.
    intros tid th Ht. specialize (H tid th Ht). unfold unaware in H.
    destruct (th_loc th); try discriminate. apply andb_true_iff in H as [[H1 H2]%andb_true_iff H3].
    apply bool_decide_eq_true in H1, H2, H3. rewrite H3. naive_solver.
Qed.

(** C13: the two atomic counters are exact at every point of every run: they
    count the threads between taking a task and finishing it, and the threads
    inside their idle fiber; in particular they never fall below zero. *)
Theorem counters_exact config s :
  reach config s -> Z.of_nat (size (locs s)) < 2 ^ 64 ->
  m_activeThreadCount s = count busy (locs s) /\ m_idleThreadCount s = count idling (locs s).
Proof.
  intros R Hn. destruct (reach_counted config s R) as [E1 E2]. rewrite E1, E2.
  split; apply uwrap_id; unfold u_range.
  - pose proof (count_le busy (locs s)). lia.
  - pose proof (count_le idling (locs s)). lia.
Qed.

Lemma counters_exact_witness :
  m_activeThreadCount demo_sched = count busy (locs demo_sched)
  /\ m_idleThreadCount demo_sched = count idling (locs demo_sched).
Proof. apply (counters_exact 131072); [apply demo_reach|vm_compute; reflexivity]. Defined.

(** When [stopping] says that the scheduler may stop, [Stop] was called,
    the queue is empty and no thread holds or runs a task; a thread that has a
    task in its hands keeps every idle loop alive. *)
Theorem stopping_means_done config s s' :
  reach config s -> Z.of_nat (size (locs s)) < 2 ^ 64 -> stopping s = (s', Ret true) ->
  m_autoStop s = true /\ m_stopping s = true /\ m_fibers s = []
  /\ forall tid th, threads s !! tid = Some th -> busy (th_loc th) = false.
Proof.
  intros R Hn H. unfold stopping, cget in H. injection H as _ H.
  apply andb_true_iff in H as [H H4]. apply andb_true_iff in H as [H H3].
  apply andb_true_iff in H as [H1 H2]. apply bool_decide_eq_true in H3. apply Z.eqb_eq in H4.
  split; [assumption|]. split; [assumption|]. split; [assumption|]. intros tid th Ht.
  apply not_true_is_false. intros Hb.
  assert (Hp : 0 < count busy (locs s)).
  { apply (count_pos busy (locs s) tid (th_loc th)); [|assumption].
    unfold locs. rewrite lookup_fmap, Ht. reflexivity. }
  destruct (reach_counted config s R) as [E1 _]. rewrite E1 in H4.
  pose proof (count_le busy (locs s)). rewrite uwrap_id in H4 by (unfold u_range; lia). lia.
Qed.

Definition demo_stopped : Sched := Eval vm_compute in
  fst ((run_start 131072 1 ;;; request_stop 1) Scheduler_new).

Lemma stopping_means_done_witness :
  stopping demo_stopped = (demo_stopped, Ret true) /\ m_fibers demo_stopped = [].
Proof.
  assert (R : reach 131072 demo_stopped).
  { eapply rtc_l; [eapply (ss_start _ 1); [reflexivity|vm_compute; reflexivity]|].
    eapply rtc_l; [eapply (ss_stop _ 1); vm_compute; reflexivity|]. apply rtc_refl. }
  split; [reflexivity|].
  apply (stopping_means_done 131072 demo_stopped demo_stopped R); vm_compute; reflexivity.
Defined.

(** A thread takes the first task of the queue that it may run (bound to
    no thread or to it, and not a fiber that still runs), the other tasks keep
    their order, and it goes idle only when there is none. *)
Theorem tasks_in_order config s tid th :
  reach config s -> threads s !! tid = Some th -> th_loc th = LTop ->
  exists s' ft tm act,
    thread_step config tid s = (s', Ret tt) /\ locs s' !! tid = Some (LPicked ft tm act) /\
    if act then exists l1 l2, m_fibers s = l1 ++ ft :: l2 /\ m_fibers s' = l1 ++ l2
                  /\ eligible tid (sfibers s) ft
                  /\ Forall (fun x => ~ eligible tid (sfibers s) x) l1
    else ft = ft_empty /\ m_fibers s' = m_fibers s
         /\ Forall (fun x => ~ eligible tid (sfibers s) x) (m_fibers s).
Proof.
  intros R Ht Hl. destruct (reach_inv config s R) as [ro I].
  pose proof (si_queue _ _ I) as Q.
  destruct (pick_ok tid (sfibers s) (m_fibers s)) as (p & rest & tm & Hp & Hspec).
  { apply Q. }
  { intros f Hf. apply (qk_elem _ _ Q) in Hf. pose proof (si_fiber _ _ I f) as Hok.
    destruct (ro f) as [| | |? []| | | |]; try discriminate; destruct Hok as (fb & -> & _); eauto. }
  unfold thread_step. rewrite (cbind_ret _ _ _ _ _ (thread_run tid s th Ht)), Hl.
  unfold step_top. rewrite cbind_get. unfold id, lift, cbind at 1. rewrite Hp. cbn [fst snd].
  rewrite cbind_mod. destruct p as [ft|].
  - rewrite cbind_mod, (goto_run tid _ _ th) by exact Ht.
    eexists _, ft, tm, true. split; [reflexivity|].
    split; [unfold locs; simpl; rewrite fmap_insert; apply lookup_insert_eq|].
    destruct Hspec as (l1 & l2 & E & -> & H). exists l1, l2. auto.
  - rewrite (goto_run tid _ _ th) by exact Ht. destruct Hspec as [-> H].
    eexists _, ft_empty, tm, false. split; [reflexivity|].
    split; [unfold locs; simpl; rewrite fmap_insert; apply lookup_insert_eq|]. auto.
Qed.

Definition demo_queue : Sched := Eval vm_compute in
  fst ((run_start 131072 1 ;;; schedule (mkFT None (Some PRet) 2)) Scheduler_new).

Lemma tasks_in_order_witness :
  exists s' ft tm act,
    thread_step 131072 1 demo_queue = (s', Ret tt) /\ locs s' !! 1 = Some (LPicked ft tm act).
Proof.
  assert (R : reach 131072 demo_queue).
  { eapply rtc_l; [eapply (ss_start _ 1); [reflexivity|vm_compute; reflexivity]|].
    eapply rtc_l; [eapply (ss_cb _ PRet 2); vm_compute; reflexivity|]. apply rtc_refl. }
  edestruct (tasks_in_order 131072 demo_queue 1) as (s' & ft & tm & act & H1 & H2 & _);
    [exact R|reflexivity|reflexivity|].
  eauto 10.
Defined.
