(* ===== verification/SchedulerTls.v ===== *)
(** * The thread-local pointers of a scheduler thread (sylar/scheduler.cpp)

    A step of the loop keeps [t_threadFiber] and [t_sheduler_fiber] of its
    thread and everything of the other threads; outside a fiber the current
    fiber of a thread is its scheduling fiber ([parked]); and no step frees a
    fiber or gives it another stack. *)

From stdpp Require Import base gmap list.
From Stdlib Require Import ZArith Lia.
From S2P Require Import Prelude Fiber Scheduler SchedulerSafe SchedulerSpec.

Local Open Scope Z_scope.
Local Open Scope cpp_scope.

(** [t_fiber], [t_threadFiber] and [t_sheduler_fiber] of a thread. *)
Definition tls (th : Thread) : option nat * option nat * option nat :=
  (th_t_fiber th, th_threadFiber th, th_main th).

Definition tlsm (s : Sched) : gmap Z (option nat * option nat * option nat) := tls <$> threads s.

Definition stack_le (h h' : gmap nat Fiber) : Prop :=
  forall f fb, h !! f = Some fb -> exists fb', h' !! f = Some fb' /\ m_stack fb' = m_stack fb.

#[export] Instance stack_le_preorder : PreOrder stack_le.
Proof.
  split; [intros h f fb; eauto|]. intros h1 h2 h3 H12 H23 f fb Hf.
  destruct (H12 f fb Hf) as (fb2 & H2 & E2), (H23 f fb2 H2) as (fb3 & H3 & E3).
  exists fb3. split; congruence.
Qed.

Lemma stack_le_insert h f fb fb' :
  h !! f = Some fb -> m_stack fb' = m_stack fb -> stack_le h (<[f := fb']> h).
Proof.
  intros Hf Hs g gb Hg. destruct (decide (g = f)) as [->|Hne].
  - exists fb'. rewrite lookup_insert_eq. split; congruence.
  - exists gb. rewrite lookup_insert_ne by congruence. auto.
Qed.

Lemma stack_le_new h f fb : h !! f = None -> stack_le h (<[f := fb]> h).
Proof. intros Hf g gb Hg. exists gb. rewrite lookup_insert_ne by congruence. auto. Qed.

(** ** Fiber operations that leave the pointers alone *)
Definition fstill {A} (m : M FS A) : Prop := forall s s' a, m s = (s', Ret a) ->
  t_fiber s' = t_fiber s /\ t_threadFiber s' = t_threadFiber s
  /\ t_sheduler_fiber s' = t_sheduler_fiber s /\ stack_le (fibers s) (fibers s').

Lemma fbind_inv {S A B} (m : M S A) (k : A -> M S B) s s' b :
  cbind m k s = (s', Ret b) -> exists s1 a, m s = (s1, Ret a) /\ k a s1 = (s', Ret b).
Proof. unfold cbind. destruct (m s) as [s1 [a|e|f]]; intros H; [eauto|discriminate..]. Qed.

Lemma fstill_bind {A B} (m : M FS A) (k : A -> M FS B) :
  fstill m -> (forall a, fstill (k a)) -> fstill (cbind m k).
Proof.
  intros Hm Hk s s' b (s1 & a & H1 & H2)%fbind_inv.
  destruct (Hm _ _ _ H1) as (E1 & E2 & E3 & E4), (Hk _ _ _ _ H2) as (F1 & F2 & F3 & F4).
  repeat split; try congruence. by etrans.
Qed.

Lemma fstill_ret {A} (a : A) : fstill (cret a).
Proof. intros s s' b [= <- <-]. repeat split. reflexivity. Qed.

Lemma fstill_get {A} (f : FS -> A) : fstill (cget f).
Proof. intros s s' b [= <- <-]. repeat split. reflexivity. Qed.

Lemma fstill_undef {A} u : fstill (@cundef FS A u).
Proof. intros s s' b [=]. Qed.

Lemma fstill_assert b : fstill (cassert b).
Proof. destruct b; [apply fstill_ret|apply fstill_undef]. Qed.

Lemma fstill_counters g : fstill (cmod (fun s => set_counters (g s).1 (g s).2 s)).
Proof. intros s s' b [= <- <-]. repeat split. reflexivity. Qed.

Lemma fstill_fiber f : fstill (fiber f).
Proof.
  apply fstill_bind; [apply fstill_get|]. intros h.
  destruct (h !! f); [apply fstill_ret|apply fstill_undef].
Qed.

Lemma fstill_update f g : (forall fb, m_stack (g fb) = m_stack fb) -> fstill (update f g).
Proof.
  intros Hg s s' a H. unfold update in H. apply fbind_inv in H as (s1 & fb & H1 & H2).
  unfold fiber in H1. rewrite cbind_get in H1. destruct (fibers s !! f) as [x|] eqn:Hf;
    [|discriminate]. injection H1 as <- <-. injection H2 as <- <-. repeat split. simpl.
  by eapply stack_le_insert.
Qed.

Lemma fstill_getState f : fstill (getState f).
Proof. apply fstill_bind; [apply fstill_fiber|]. intros. apply fstill_ret. Qed.

Lemma fstill_reset f cb : fstill (reset f cb).
Proof.
  apply fstill_bind; [apply fstill_fiber|]. intros fb.
  apply fstill_bind; [apply fstill_assert|]. intros _.
  apply fstill_bind; [apply fstill_assert|]. intros _. by apply fstill_update.
Qed.

Lemma fstill_new config cb n c : fstill (Fiber_new config cb n c).
Proof.
  intros s s' a [= <- <-]. repeat split. simpl. apply stack_le_new, not_elem_of_dom, is_fresh.
Qed.

(** ** Commands of the loop that leave the pointers alone *)
Definition flags (s : Sched) : bool * bool := (m_stopping s, m_autoStop s).

(** The stacks and the flags. *)
Definition steady (s s' : Sched) : Prop :=
  stack_le (sfibers s) (sfibers s') /\ flags s' = flags s.

#[export] Instance steady_preorder : PreOrder steady.
Proof.
  split; [intros s; split; reflexivity|]. intros s1 s2 s3 [A1 A2] [B1 B2].
  split; [by etrans|congruence].
Qed.

Definition still {A} (m : M Sched A) : Prop := forall s s' a, m s = (s', Ret a) ->
  tlsm s' = tlsm s /\ steady s s'.

Lemma still_cbind {A B} (m : M Sched A) (k : A -> M Sched B) :
  still m -> (forall a, still (k a)) -> still (cbind m k).
Proof.
  intros Hm Hk s s' b (s1 & a & H1 & H2)%fbind_inv.
  destruct (Hm _ _ _ H1) as (E1 & E2), (Hk _ _ _ _ H2) as (F1 & F2).
  split; [congruence|]. by etrans.
Qed.

Lemma still_cret {A} (a : A) : still (cret a).
Proof. intros s s' b [= <- <-]. split; reflexivity. Qed.

Lemma still_cget {A} (f : Sched -> A) : still (cget f).
Proof. intros s s' b [= <- <-]. split; reflexivity. Qed.

Lemma still_undef {A} u : still (@cundef Sched A u).
Proof. intros s s' b [=]. Qed.

Lemma still_lift {A} (o : outcome A) : still (lift o).
Proof. intros s s' b [= <- ->]. split; reflexivity. Qed.

Lemma still_mod g :
  (forall s, threads (g s) = threads s /\ sfibers (g s) = sfibers s /\ flags (g s) = flags s) ->
  still (cmod g).
Proof.
  intros Hg s s' b [= <- <-]. destruct (Hg s) as (E1 & E2 & E3). unfold tlsm, steady.
  rewrite E1, E2. by repeat split.
Qed.

Lemma still_upd tid g : (forall th, tls (g th) = tls th) -> still (upd_thread tid g).
Proof.
  intros Hg s s' b [= <- <-]. unfold tlsm. simpl. split; [|split; reflexivity].
  apply map_eq. intros t. rewrite !lookup_fmap. destruct (decide (t = tid)) as [->|Hne].
  - rewrite lookup_alter_eq. destruct (threads s !! tid); simpl; [by rewrite Hg|done].
  - by rewrite lookup_alter_ne.
Qed.

Lemma still_goto tid l : still (goto tid l).
Proof. by apply still_upd. Qed.

Lemma still_on_thread {A} tid (m : M FS A) : fstill m -> still (on_thread tid m).
Proof.
  intros Hm s s' a H. unfold on_thread in H.
  destruct (threads s !! tid) as [th|] eqn:Ht; [|discriminate].
  destruct (m (view s th)) as [fs r] eqn:E. injection H as <- ->.
  destruct (Hm _ _ _ E) as (E1 & E2 & E3 & E4). split; [|split; [exact E4|reflexivity]].
  unfold tlsm. simpl. rewrite fmap_insert. unfold tls at 1. simpl.
  rewrite E1, E2, E3. simpl. apply insert_id. by rewrite lookup_fmap, Ht.
Qed.

Lemma still_thread tid : still (thread tid).
Proof.
  apply still_cbind; [apply still_cget|]. intros m.
  destruct (m !! tid); [apply still_cret|apply still_undef].
Qed.

Lemma still_trickle : still trickle.
Proof. by apply still_mod. Qed.

Lemma still_schedule ft : still (schedule ft).
Proof.
  apply still_cbind.
  - apply still_cbind; [apply still_cget|]. intros q. apply still_cbind; [|intros; apply still_cret].
    destruct (_ || _); [by apply still_mod|apply still_cret].
  - intros []; [apply still_trickle|apply still_cret].
Qed.

Lemma still_take_cb config tid cb : still (take_cb_fiber config tid cb).
Proof.
  apply still_cbind; [apply still_thread|]. intros th. destruct (th_cb_fiber th).
  - apply still_cbind; [apply still_on_thread, fstill_reset|]. intros. apply still_cret.
  - apply still_cbind; [apply still_on_thread, fstill_new|]. intros c.
    apply still_cbind; [by apply still_upd|]. intros. apply still_cret.
Qed.

Lemma still_state tid f : still (on_thread tid (getState f)).
Proof. apply still_on_thread, fstill_getState. Qed.

Lemma still_set_state tid f st : still (on_thread tid (update f (set_state st))).
Proof. by apply still_on_thread, fstill_update. Qed.

(** ** Entering and leaving a fiber *)

(** [t_threadFiber], [t_sheduler_fiber] and the stacks stay. *)
Definition fkept (s s' : FS) : Prop :=
  t_threadFiber s' = t_threadFiber s /\ t_sheduler_fiber s' = t_sheduler_fiber s
  /\ stack_le (fibers s) (fibers s').

Lemma swapIn_kept f s s' code : swapIn f s = (s', Ret code) -> fkept s s'.
Proof.
  intros H. unfold swapIn, SetThis in H. rewrite cbind_mod in H.
  apply fbind_inv in H as (s1 & st & H1 & H).
  destruct (fstill_getState _ _ _ _ H1) as (_ & A2 & A3 & A4).
  apply fbind_inv in H as (s2 & [] & H2 & H).
  destruct (fstill_assert _ _ _ _ H2) as (_ & B2 & B3 & B4).
  apply fbind_inv in H as (s3 & [] & H3 & H).
  destruct (fstill_update f (set_state EXEC) (fun _ => eq_refl) _ _ _ H3) as (_ & C2 & C3 & C4).
  rewrite cbind_get in H. destruct (t_sheduler_fiber s3) as [main|] eqn:Em; [|discriminate].
  rewrite deref_run in H. unfold enter in H. apply fbind_inv in H as (s4 & fb & H4 & H).
  destruct (fstill_fiber _ _ _ _ H4) as (_ & D2 & D3 & D4).
  assert (s4 = s') as -> by (destruct (m_ctx fb); unfold cret, cundef in H; congruence).
  simpl in *. repeat split; [congruence..|]. etrans; [exact A4|]. etrans; [exact B4|].
  by etrans.
Qed.

(** The pointers and the stacks of a thread that leaves its fiber. *)
Definition fleft (s s' : FS) : Prop := fkept s s' /\ t_fiber s' = t_sheduler_fiber s.

Lemma swapOut_left f rest s s' u : swapOut f rest s = (s', Ret u) -> fleft s s'.
Proof.
  intros H. unfold swapOut, SetThis in H. rewrite cbind_get, cbind_mod in H.
  destruct (t_sheduler_fiber s) as [main|] eqn:Em; [|discriminate]. rewrite deref_run in H.
  destruct (fstill_update f (set_ctx rest) (fun _ => eq_refl) _ _ _ H) as (A1 & A2 & A3 & A4).
  simpl in *. repeat split; try assumption; congruence.
Qed.

Lemma left_after {A} (m : M FS A) (k : A -> M FS unit) s s' u :
  fstill m -> (forall a s1 s2 u, k a s1 = (s2, Ret u) -> fleft s1 s2) ->
  cbind m k s = (s', Ret u) -> fleft s s'.
Proof.
  intros Hm Hk H. apply fbind_inv in H as (s1 & a & H1 & H2).
  destruct (Hm _ _ _ H1) as (_ & A2 & A3 & A4), (Hk _ _ _ _ H2) as ((B2 & B3 & B4) & B1).
  repeat split; [congruence..| |congruence]. by etrans.
Qed.

(** With a current fiber, [GetThis] only reads it. *)
Lemma this_after (k : nat -> M FS unit) f s s' u :
  t_fiber s = Some f -> cbind GetThis k s = (s', Ret u) -> k f s = (s', Ret u).
Proof. intros Hf H. unfold GetThis in H. unfold cbind, cget, cret in H. by rewrite Hf in H. Qed.

Lemma YieldToHold_left k f s s' u :
  t_fiber s = Some f -> YieldToHold k s = (s', Ret u) -> fleft s s'.
Proof.
  intros Hf H. apply (this_after _ f) in H; [|exact Hf]. revert H.
  apply left_after; [apply fstill_getState|]. intros st s1 s2 v.
  apply left_after; [apply fstill_assert|]. intros ? ? ? ?. apply swapOut_left.
Qed.

Lemma YieldToReady_left k f s s' u :
  t_fiber s = Some f -> YieldToReady k s = (s', Ret u) -> fleft s s'.
Proof.
  intros Hf H. apply (this_after _ f) in H; [|exact Hf]. revert H.
  apply left_after; [apply fstill_getState|]. intros st s1 s2 v.
  apply left_after; [apply fstill_assert|]. intros ? ? ? ?.
  apply left_after; [by apply fstill_update|]. intros ? ? ? ?. apply swapOut_left.
Qed.

Lemma MainFunc_end_left b f s s' u :
  t_fiber s = Some f -> MainFunc_end b s = (s', Ret u) -> fleft s s'.
Proof.
  intros Hf H. apply (this_after _ f) in H; [|exact Hf]. revert H.
  apply left_after; [destruct b; by apply fstill_update|]. intros ? ? ? ?. apply swapOut_left.
Qed.

(** ** A step of the loop *)
Definition parked_at (l : loc) (x : option nat * option nat * option nat) : Prop :=
  match l with LIn _ _ _ | LInIdle _ => True | _ => x.1.1 = x.2 end.

(** What a step of thread [tid] does to the pointers: those of [tid] become
    [x], and the thread is parked wherever it is now. *)
Record tls_step (tid : Z) (s s' : Sched) : Prop := {
  ts_new : exists x x', tlsm s !! tid = Some x /\ tlsm s' = <[tid := x']> (tlsm s)
    /\ x'.1.2 = x.1.2 /\ x'.2 = x.2 /\ (forall l, locs s' !! tid = Some l -> parked_at l x');
  ts_steady : steady s s'
}.

Lemma still_step {A} tid (m : M Sched A) s s' a x :
  still m -> m s = (s', Ret a) -> tlsm s !! tid = Some x -> x.1.1 = x.2 -> tls_step tid s s'.
Proof.
  intros Hm H Hx Hp. destruct (Hm _ _ _ H) as [E1 E2]. split; [|exact E2].
  exists x, x. rewrite E1, insert_id by exact Hx. repeat split; auto.
  intros l _. by destruct l.
Qed.

Lemma on_thread_tls {A} tid (m : M FS A) s s' a th :
  on_thread tid m s = (s', Ret a) -> threads s !! tid = Some th ->
  exists fs, m (view s th) = (fs, Ret a) /\ sfibers s' = fibers fs /\ flags s' = flags s /\
    tlsm s' = <[tid := (t_fiber fs, t_threadFiber fs, t_sheduler_fiber fs)]> (tlsm s).
Proof.
  intros H Ht. unfold on_thread in H. rewrite Ht in H. destruct (m (view s th)) as [fs r].
  injection H as <- ->. exists fs. do 3 (split; [reflexivity|]).
  unfold tlsm. simpl. by rewrite fmap_insert.
Qed.

Lemma locs_goto tid l s s' u :
  goto tid l s = (s', Ret u) -> is_Some (locs s !! tid) -> locs s' !! tid = Some l.
Proof. intros H Hl. destruct (goto_effect tid l s s' u H Hl) as [-> _]. apply lookup_insert_eq. Qed.

Lemma locs_is_some tid s x : tlsm s !! tid = Some x -> is_Some (locs s !! tid).
Proof. unfold tlsm, locs. rewrite !lookup_fmap. by destruct (threads s !! tid). Qed.

(** A switch of thread [tid] and the jump after it. *)
Lemma switch_step {A} tid (m : M FS A) (l : A -> loc) s s' th :
  threads s !! tid = Some th ->
  (let! a := on_thread tid m in goto tid (l a)) s = (s', Ret tt) ->
  (forall fs a, m (view s th) = (fs, Ret a) -> fkept (view s th) fs /\
     parked_at (l a) (t_fiber fs, t_threadFiber fs, t_sheduler_fiber fs)) ->
  tls_step tid s s'.
Proof.
  intros Ht H Hm. apply fbind_inv in H as (s1 & a & H1 & H2).
  destruct (on_thread_tls tid m s s1 a th H1 Ht) as (fs & E & Ef & Efl & Et).
  destruct (Hm fs a E) as [(K1 & K2 & K3) P].
  destruct (still_goto tid (l a) _ _ _ H2) as [E2 F2].
  assert (Hx : tlsm s !! tid = Some (tls th)) by (unfold tlsm; by rewrite lookup_fmap, Ht).
  assert (Hx1 : tlsm s1 !! tid = Some (t_fiber fs, t_threadFiber fs, t_sheduler_fiber fs))
    by (rewrite Et; apply lookup_insert_eq).
  split.
  - exists (tls th), (t_fiber fs, t_threadFiber fs, t_sheduler_fiber fs).
    split; [exact Hx|]. split; [congruence|]. split; [exact K1|]. split; [exact K2|].
    intros l' Hl'. rewrite (locs_goto _ _ _ _ _ H2 (locs_is_some _ _ _ Hx1)) in Hl'. by simplify_eq.
  - simpl in K3. etrans; [split; [|exact Efl]|exact F2]. by rewrite Ef.
Qed.

Lemma enter_step tid f (l : prog -> loc) s s' th :
  threads s !! tid = Some th -> (forall c x, parked_at (l c) x) ->
  (let! code := on_thread tid (swapIn f) in goto tid (l code)) s = (s', Ret tt) ->
  tls_step tid s s'.
Proof.
  intros Ht Hl H. eapply switch_step; [exact Ht|exact H|]. intros fs a E.
  split; [by eapply swapIn_kept|apply Hl].
Qed.

Lemma left_step tid (m : M FS unit) l s s' th :
  threads s !! tid = Some th -> (on_thread tid m ;;; goto tid l) s = (s', Ret tt) ->
  (forall fs u, m (view s th) = (fs, Ret u) -> fleft (view s th) fs) -> tls_step tid s s'.
Proof.
  intros Ht H Hm. eapply (switch_step tid m (fun _ => l)); [exact Ht|exact H|]. intros fs a E.
  destruct (Hm fs a E) as [K P]. split; [exact K|]. destruct K as (_ & K2 & _).
  destruct l; simpl; try exact Logic.I; congruence.
Qed.

(** Commands before the switch that leave the pointers alone. *)
Lemma still_then {A} tid (m : M Sched A) (k : A -> M Sched unit) s s' th :
  still m -> threads s !! tid = Some th -> cbind m k s = (s', Ret tt) ->
  (forall a s1 th1, threads s1 !! tid = Some th1 -> tls th1 = tls th ->
     k a s1 = (s', Ret tt) -> tls_step tid s1 s') ->
  tls_step tid s s'.
Proof.
  intros Hm Ht H Hk. apply fbind_inv in H as (s1 & a & H1 & H2).
  destruct (Hm _ _ _ H1) as [E1 E2].
  assert (Hx : tlsm s1 !! tid = Some (tls th))
    by (rewrite E1; unfold tlsm; by rewrite lookup_fmap, Ht).
  pose proof Hx as Hx'. unfold tlsm in Hx'. rewrite lookup_fmap in Hx'.
  destruct (threads s1 !! tid) as [th1|] eqn:Ht1; [|discriminate].
  change (Some (tls th1) = Some (tls th)) in Hx'. apply (inj Some) in Hx'.
  destruct (Hk a s1 th1 Ht1 Hx' H2) as [(x & x' & X1 & X2 & X3) X4].
  split; [|by etrans]. exists x, x'. rewrite <- E1. auto.
Qed.

(** A jump into the code of a fiber after commands that leave the pointers. *)
Lemma stay_step {A} tid (m : M Sched A) l s s' th :
  still m -> threads s !! tid = Some th -> (forall x, parked_at l x) ->
  (m ;;; goto tid l) s = (s', Ret tt) -> tls_step tid s s'.
Proof.
  intros Hm Ht Hl H. eapply still_then; [exact Hm|exact Ht|exact H|].
  intros u s1 th1 Ht1 _ H1. destruct (still_goto _ _ _ _ _ H1) as [E1 E2].
  assert (Hx : tlsm s1 !! tid = Some (tls th1)) by (unfold tlsm; by rewrite lookup_fmap, Ht1).
  split; [|exact E2]. exists (tls th1), (tls th1). rewrite E1, insert_id by exact Hx.
  repeat split; auto. intros l' Hl'.
  rewrite (locs_goto _ _ _ _ _ H1 (locs_is_some _ _ _ Hx)) in Hl'. by simplify_eq.
Qed.

Lemma fiber_step_tls tid code cont bk f s s' th :
  threads s !! tid = Some th -> th_t_fiber th = Some f -> (forall k x, parked_at (cont k) x) ->
  fiber_step tid code cont bk s = (s', Ret tt) -> tls_step tid s s'.
Proof.
  intros Ht Hf Hc H. destruct code; cbn [fiber_step] in H.
  - eapply left_step; [exact Ht|exact H|]. intros fs u. by apply (MainFunc_end_left _ f).
  - eapply left_step; [exact Ht|exact H|]. intros fs u. by apply (MainFunc_end_left _ f).
  - eapply left_step; [exact Ht|exact H|]. intros fs u. by apply (YieldToReady_left _ f).
  - eapply left_step; [exact Ht|exact H|]. intros fs u. by apply (YieldToHold_left _ f).
  - eapply stay_step; [apply still_schedule|exact Ht|apply Hc|exact H].
  - eapply stay_step; [apply still_schedule|exact Ht|apply Hc|exact H].
  - unfold stopping in H. rewrite cbind_get in H. destruct (_ && _).
    + eapply left_step; [exact Ht|exact H|]. intros fs u. by apply (MainFunc_end_left _ f).
    + eapply left_step; [exact Ht|exact H|]. intros fs u. by apply (YieldToHold_left _ f).
  - discriminate.
Qed.

Lemma still_live tid ft :
  still (match ft_fiber ft with
         | Some f => let! st := on_thread tid (getState f) in cret (live st)
         | None => cret false
         end).
Proof.
  destruct (ft_fiber ft); [|apply still_cret].
  apply still_cbind; [apply still_state|]. intros. apply still_cret.
Qed.

(** The branch without a task. *)
Lemma picked_none_tls tid (act : bool) s s' th :
  threads s !! tid = Some th -> th_t_fiber th = th_main th ->
  (if act then cmod (add_active (-1)) ;;; goto tid LTop
   else let! th := thread tid in
        let! st := on_thread tid (getState (th_idle th)) in
        if bool_decide (st = TERM) then goto tid LExit
        else cmod (add_idle 1) ;;;
             let! code := on_thread tid (swapIn (th_idle th)) in goto tid (LInIdle code)) s
  = (s', Ret tt) -> tls_step tid s s'.
Proof.
  intros Ht Hp H.
  assert (Hx : tlsm s !! tid = Some (tls th)) by (unfold tlsm; by rewrite lookup_fmap, Ht).
  destruct act.
  { eapply (still_step tid _ s s' tt (tls th)); [|exact H|exact Hx|exact Hp].
    apply still_cbind; [by apply still_mod|]. intros. apply still_goto. }
  eapply still_then; [apply still_thread|exact Ht|exact H|]. clear H. intros th0 s1 th1 Ht1 T1 H.
  eapply still_then; [apply still_state|exact Ht1|exact H|]. clear H. intros st s2 th2 Ht2 T2 H.
  cbv beta in H. destruct (bool_decide (st = TERM)).
  - eapply (still_step tid _ s2 s' tt (tls th2)); [apply still_goto|exact H| |].
    + unfold tlsm. by rewrite lookup_fmap, Ht2.
    + rewrite T2, T1. exact Hp.
  - eapply (still_then tid (cmod (add_idle 1))); [by apply still_mod|exact Ht2|exact H|].
    intros u s3 th3 Ht3 _ H3.
    eapply enter_step; [exact Ht3| |exact H3]. done.
Qed.

Lemma step_picked_tls config tid ft tm act s s' th :
  threads s !! tid = Some th -> th_t_fiber th = th_main th ->
  step_picked config tid ft tm act s = (s', Ret tt) -> tls_step tid s s'.
Proof.
  intros Ht Hp H. unfold step_picked in H.
  eapply (still_then tid _ _ s s' th); [|exact Ht|exact H|].
  { destruct tm; [apply still_trickle|apply still_cret]. }
  clear H. intros u s1 th1 Ht1 T1 H. cbv beta in H.
  eapply (still_then tid _ _ s1 s' th1); [apply still_live|exact Ht1|exact H|].
  clear H. intros go s2 th2 Ht2 T2 H.
  assert (Hp2 : th_t_fiber th2 = th_main th2) by (unfold tls in T1, T2; congruence).
  assert (Hcb : (match ft_cb ft with
      | Some cb => let! c := take_cb_fiber config tid cb in
                   let! code := on_thread tid (swapIn c) in goto tid (LIn KCb c code)
      | None => if act then cmod (add_active (-1)) ;;; goto tid LTop
                else let! th := thread tid in
                     let! st := on_thread tid (getState (th_idle th)) in
                     if bool_decide (st = TERM) then goto tid LExit
                     else cmod (add_idle 1) ;;;
                          let! code := on_thread tid (swapIn (th_idle th)) in goto tid (LInIdle code)
      end) s2 = (s', Ret tt) -> tls_step tid s2 s').
  { intros Hb. destruct (ft_cb ft) as [cb|].
    - eapply still_then; [apply still_take_cb|exact Ht2|exact Hb|]. intros c s3 th3 Ht3 _ H3.
      eapply (enter_step tid c (LIn KCb c)); [exact Ht3| |exact H3]. done.
    - by apply (picked_none_tls tid act s2 s' th2). }
  destruct (ft_fiber ft) as [f|], go; auto.
  eapply (enter_step tid f (LIn KFiber f)); [exact Ht2| |exact H]. done.
Qed.

Lemma still_step_after tid k f : still (step_after tid k f).
Proof.
  apply still_cbind; [apply still_state|]. intros st. apply still_cbind; [|intros; apply still_goto].
  destruct k; [case_bool_decide; [apply still_schedule|]|case_bool_decide].
  - destruct (live st); [apply still_set_state|apply still_cret].
  - apply still_cbind; [apply still_schedule|]. intros. by apply still_upd.
  - destruct (live st); [|apply still_on_thread, fstill_reset].
    apply still_cbind; [apply still_set_state|]. intros. by apply still_upd.
Qed.

Lemma still_back_idle tid : still (step_back_idle tid).
Proof.
  apply still_cbind; [by apply still_mod|]. intros _. apply still_cbind; [apply still_thread|].
  intros th. apply still_cbind; [apply still_state|]. intros st.
  apply still_cbind; [|intros; apply still_goto].
  destruct (live st); [apply still_set_state|apply still_cret].
Qed.

Lemma still_step_top tid : still (step_top tid).
Proof.
  apply still_cbind; [apply still_cget|]. intros s. apply still_cbind; [apply still_lift|]. intros x.
  apply still_cbind; [by apply still_mod|]. intros _.
  destruct (x.1.1); [apply still_cbind; [by apply still_mod|intros]|]; apply still_goto.
Qed.

Lemma thread_step_tls {Pr : Protected} config ro s s' tid th :
  SInv ro s -> threads s !! tid = Some th -> parked_at (th_loc th) (tls th) ->
  thread_step config tid s = (s', Ret tt) -> tls_step tid s s'.
Proof.
  intros I Ht Hp H. unfold thread_step in H.
  rewrite (cbind_ret _ _ _ _ _ (thread_run tid s th Ht)) in H.
  assert (Hx : tlsm s !! tid = Some (tls th)) by (unfold tlsm; by rewrite lookup_fmap, Ht).
  pose proof (tk_loc _ _ _ _ (si_thr _ _ I _ _ Ht)) as L. unfold loc_ok in L.
  destruct (th_loc th) as [|ft tm act|k f code|k f|k f|code| |]; simpl in Hp.
  - by eapply still_step; [apply still_step_top|..].
  - by eapply step_picked_tls.
  - destruct L as (Hf & _). by apply (fiber_step_tls tid code (LIn k f) (LBack k f) f s s' th).
  - eapply still_step; [|exact H|exact Hx|exact Hp].
    apply still_cbind; [by apply still_mod|]. intros. apply still_goto.
  - by eapply still_step; [apply still_step_after|..].
  - destruct L as (_ & Hf). by apply (fiber_step_tls tid code LInIdle LBackIdle (th_idle th) s s' th).
  - by eapply still_step; [apply still_back_idle|..].
  - by eapply still_step; [apply still_cret|..].
Qed.
