(* ===== verification/IOManager.v ===== *)
(** * Event registration and dispatch (sylar/iomanager.h, sylar/iomanager.cpp)

    [m_fdContexts] holds a context per descriptor; a context has the mask of
    the registered events and, for each of them, who waits: a scheduler with a
    fiber or a callback.  The interest list of the epoll instance is part of
    the state, with the documented behaviour of [epoll_ctl] (ADD needs an absent
    descriptor, MOD and DEL a present one); a call may also fail for a reason of
    its own ([refused]).  What the operations hand to a scheduler is recorded in
    [scheduled].  [addEvent] is split where it changes locks. *)

From stdpp Require Import base gmap list.
From Stdlib Require Import ZArith Lia.
From S2P Require Import Prelude Double.

Local Open Scope Z_scope.
Local Open Scope cpp_scope.

(** [IOManager::Event] and the epoll flags. *)
Definition NONE : Z := 0.
Definition READ : Z := 1.
Definition WRITE : Z := 4.
Definition EPOLLIN : Z := 1.
Definition EPOLLOUT : Z := 4.
Definition EPOLLERR : Z := 8.
Definition EPOLLHUP : Z := 16.
Definition EPOLLET : Z := 2 ^ 31.

(** What can be scheduled: a fiber or a callback. *)
Inductive task := TFiber (f : nat) | TCb (cb : nat).

#[global] Instance task_eq_dec : EqDecision task.
Proof. solve_decision. Defined.

Record EventContext := mkEC {
  scheduler : option nat;
  ec_fiber : option nat;
  ec_cb : option nat
}.

Definition ec_empty : EventContext := mkEC None None None.

Record FdContext := mkFC {
  fc_fd : Z;
  fc_read : EventContext;
  fc_write : EventContext;
  events : Z
}.

Definition FdContext_new (fd : Z) : FdContext := mkFC fd ec_empty ec_empty NONE.

Record IOManager := mkIO {
  m_fdContexts : list FdContext;
  m_pendingEventCount : Z;
  interest : gmap Z Z;
  scheduled : list (nat * task)
}.

Definition set_ctxs c s := mkIO c (m_pendingEventCount s) (interest s) (scheduled s).
Definition add_pending d s :=
  mkIO (m_fdContexts s) (u64 (m_pendingEventCount s + d)) (interest s) (scheduled s).
Definition set_interest k s := mkIO (m_fdContexts s) (m_pendingEventCount s) k (scheduled s).
Definition push_task sc t s :=
  mkIO (m_fdContexts s) (m_pendingEventCount s) (interest s) (scheduled s ++ [(sc, t)]).

(** A non-zero intersection of two masks: the C++ condition [a & b]. *)
Definition has (a b : Z) : bool := negb (Z.land a b =? 0).

Inductive epoll_op := CTL_ADD | CTL_MOD | CTL_DEL.

(** [epoll_ctl]: true is success. *)
Definition epoll_ctl (refused : bool) (op : epoll_op) (fd mask : Z) : M IOManager bool :=
  if refused then cret false
  else
    let! k := cget interest in
    match op, k !! fd with
    | CTL_ADD, None | CTL_MOD, Some _ => cmod (set_interest (<[fd := mask]> k)) ;;; cret true
    | CTL_DEL, Some _ => cmod (set_interest (delete fd k)) ;;; cret true
    | _, _ => cret false
    end.

(** [contextResize]: [resize], then a new context for every null slot. *)
Definition resize_contexts (size : Z) (l : list FdContext) : list FdContext :=
  take (Z.to_nat size) l
  ++ map (fun i => FdContext_new (Z.of_nat i)) (seq (length l) (Z.to_nat size - length l)).

Definition contextResize (size : Z) : M IOManager unit :=
  cmod (fun s => set_ctxs (resize_contexts size (m_fdContexts s)) s).

(** The state after the constructor. *)
Definition IOManager_new : IOManager := mkIO (resize_contexts 32 []) 0 ∅ [].

(** [m_fdContexts[fd]], unchecked, and the store through the pointer. *)
Definition context (fd : Z) : M IOManager FdContext :=
  let! l := cget m_fdContexts in
  if fd <? 0 then cundef OutOfBounds
  else match l !! Z.to_nat fd with Some c => cret c | None => cundef OutOfBounds end.

Definition store (fd : Z) (c : FdContext) : M IOManager unit :=
  cmod (fun s => set_ctxs (<[Z.to_nat fd := c]> (m_fdContexts s)) s).

Definition getContext (event : Z) (c : FdContext) : outcome EventContext :=
  if event =? READ then Ret (fc_read c)
  else if event =? WRITE then Ret (fc_write c)
  else Undef AssertFailed.

Definition setContext (event : Z) (e : EventContext) (c : FdContext) : FdContext :=
  if event =? READ then mkFC (fc_fd c) e (fc_write c) (events c)
  else mkFC (fc_fd c) (fc_read c) e (events c).

Definition set_events ev c := mkFC (fc_fd c) (fc_read c) (fc_write c) ev.

(** [resetContext]. *)
Definition resetContext (e : EventContext) : EventContext := ec_empty.

(** [triggerEvent]: the pointer passed to [schedule] is swapped out of the
    context. *)
Definition triggerEvent (fd event : Z) : M IOManager unit :=
  let! c := context fd in
  cassert (has (events c) event) ;;;
  let! e := lift (getContext event c) in
  match scheduler e with
  | None => cundef NullDeref
  | Some sc =>
      (match ec_cb e, ec_fiber e with
       | Some cb, _ => cmod (push_task sc (TCb cb))
       | None, Some f => cmod (push_task sc (TFiber f))
       | None, None => cret tt
       end) ;;;
      store fd (setContext event
                  (mkEC None (match ec_cb e with Some _ => ec_fiber e | None => None end) None)
                  (set_events (Z.land (events c) (Z.lnot event)) c))
  end.

(** The lookup of [addEvent] under the read lock, and its growth under the
    write lock. *)
Definition addEvent_find (fd : Z) : M IOManager bool :=
  let! n := cget (fun s => i32 (zlen (m_fdContexts s))) in cret (n >? fd).

Definition addEvent_grow (fd : Z) : M IOManager unit := contextResize (times_1_5 fd).

(** The rest of [addEvent], under the mutex of the context.  [self] is
    [Scheduler::GetThis()], [cur] the running fiber; that its state is EXEC, which
    the code asserts, is the invariant of the scheduler for the fiber that runs
    ([loc_ok] in SchedulerSafe.v). *)
Definition addEvent_body (refused : bool) (self : option nat) (cur : nat) (fd event : Z)
    (cb : option nat) : M IOManager Z :=
  let! c := context fd in
  cassert (negb (has (events c) event)) ;;;
  let op := if events c =? 0 then CTL_ADD else CTL_MOD in
  let! ok := epoll_ctl refused op fd (Z.lor (Z.lor EPOLLET (events c)) event) in
  if negb ok then cret (-1)
  else
    cmod (add_pending 1) ;;;
    let! e := lift (getContext event c) in
    cassert (bool_decide (scheduler e = None) && bool_decide (ec_fiber e = None)
             && bool_decide (ec_cb e = None)) ;;;
    store fd (setContext event
                (match cb with Some x => mkEC self None (Some x) | None => mkEC self (Some cur) None end)
                (set_events (Z.lor (events c) event) c)) ;;;
    cret 0.

Definition addEvent (refused : bool) (self : option nat) (cur : nat) (fd event : Z)
    (cb : option nat) : M IOManager Z :=
  let! found := addEvent_find fd in
  (if found then cret tt else addEvent_grow fd) ;;;
  addEvent_body refused self cur fd event cb.

Definition delEvent (refused : bool) (fd event : Z) : M IOManager bool :=
  let! n := cget (fun s => i32 (zlen (m_fdContexts s))) in
  if n <=? fd then cret false
  else
    let! c := context fd in
    if negb (has (events c) event) then cret false
    else
      let new_events := Z.land (events c) (Z.lnot event) in
      let op := if new_events =? 0 then CTL_DEL else CTL_MOD in
      let! ok := epoll_ctl refused op fd (Z.lor EPOLLET new_events) in
      if negb ok then cret false
      else
        cmod (add_pending (-1)) ;;;
        let! e := lift (getContext event c) in
        store fd (setContext event (resetContext e) (set_events new_events c)) ;;;
        cret true.

Definition cancelEvent (refused : bool) (fd event : Z) : M IOManager bool :=
  let! n := cget (fun s => i32 (zlen (m_fdContexts s))) in
  if n <=? fd then cret false
  else
    let! c := context fd in
    if negb (has (events c) event) then cret false
    else
      let new_events := Z.land (events c) (Z.lnot event) in
      let op := if new_events =? 0 then CTL_DEL else CTL_MOD in
      let! ok := epoll_ctl refused op fd (Z.lor EPOLLET new_events) in
      if negb ok then cret false
      else
        triggerEvent fd event ;;;
        cmod (add_pending (-1)) ;;;
        cret true.

(** [if (fd_ctx->events & event) { triggerEvent(event); --m_pendingEventCount; }]. *)
Definition trigger_if (fd event : Z) : M IOManager unit :=
  let! c := context fd in
  if has (events c) event then triggerEvent fd event ;;; cmod (add_pending (-1)) else cret tt.

Definition cancelAll (refused : bool) (fd : Z) : M IOManager bool :=
  let! n := cget (fun s => i32 (zlen (m_fdContexts s))) in
  if n <=? fd then cret false
  else
    let! c := context fd in
    if negb (events c =? 0) then cret false
    else
      let! ok := epoll_ctl refused CTL_DEL fd 0 in
      if negb ok then cret false
      else
        trigger_if fd READ ;;;
        trigger_if fd WRITE ;;;
        let! c' := context fd in
        cassert (events c' =? 0) ;;;
        cret true.

(** ** The idle loop *)

(** The timeout handed to [epoll_wait]. *)
Definition idle_timeout (next_timeout : Z) : Z :=
  let MAX_TIMEOUT := 3000 in
  i32 (if negb (next_timeout =? 2 ^ 64 - 1)
       then (if i32 next_timeout >? MAX_TIMEOUT then MAX_TIMEOUT else next_timeout)
       else MAX_TIMEOUT).

(** [IOManager::stopping(timeout)]; [next_timeout] comes from [getNextTimer]
    (Timer.v), [sched] is [Scheduler::stopping()] (Scheduler.v). *)
Definition stopping (next_timeout : Z) (sched : bool) : M IOManager bool :=
  cget (fun s => (next_timeout =? 2 ^ 64 - 1) && (m_pendingEventCount s =? 0) && sched).

Definition real_events (mask : Z) (c : FdContext) : Z :=
  let ev := if has mask (Z.lor EPOLLERR EPOLLHUP)
            then Z.lor mask (Z.land (Z.lor EPOLLIN EPOLLOUT) (events c)) else mask in
  Z.lor (if has ev EPOLLIN then READ else NONE) (if has ev EPOLLOUT then WRITE else NONE).

(** One turn of the loop over what [epoll_wait] reported: [mask] for the
    context of [fd]. *)
Definition handle_event (refused : bool) (fd mask : Z) : M IOManager unit :=
  let! c := context fd in
  let real := real_events mask c in
  if Z.land (events c) real =? NONE then cret tt
  else
    let left := Z.land (events c) (Z.lnot real) in
    let op := if left =? 0 then CTL_DEL else CTL_MOD in
    let! ok := epoll_ctl refused op (fc_fd c) (Z.lor EPOLLET left) in
    if negb ok then cret tt
    else
      (if has real READ then triggerEvent fd READ ;;; cmod (add_pending (-1)) else cret tt) ;;;
      (if has real WRITE then triggerEvent fd WRITE ;;; cmod (add_pending (-1)) else cret tt).

(** ** The registry *)

Definition is_event (ev : Z) : Prop := ev = READ \/ ev = WRITE.

Definition mask_ok (m : Z) : Prop := m = 0 \/ m = READ \/ m = WRITE \/ m = Z.lor READ WRITE.

(** Who waits in a context. *)
Definition waiter (e : EventContext) : option (nat * task) :=
  match e with
  | mkEC (Some sc) None (Some cb) => Some (sc, TCb cb)
  | mkEC (Some sc) (Some f) None => Some (sc, TFiber f)
  | _ => None
  end.

Definition armed (b : bool) (e : EventContext) : Prop :=
  if b then is_Some (waiter e) else e = ec_empty.

Record ctx_ok (fd : Z) (c : FdContext) : Prop := {
  co_fd : fc_fd c = fd;
  co_mask : mask_ok (events c);
  co_read : armed (has (events c) READ) (fc_read c);
  co_write : armed (has (events c) WRITE) (fc_write c)
}.

Definition nbits (m : Z) : Z := Z.b2z (has m READ) + Z.b2z (has m WRITE).

Definition total (l : list FdContext) : Z := foldr (fun c n => nbits (events c) + n) 0 l.

Definition want (m : Z) : option Z := if m =? 0 then None else Some (Z.lor EPOLLET m).

Definition ctx_at (s : IOManager) (fd : Z) : option FdContext :=
  if fd <? 0 then None else m_fdContexts s !! Z.to_nat fd.

Record IOInv (s : IOManager) : Prop := {
  io_size : 32 <= zlen (m_fdContexts s) < 2 ^ 31;
  io_ctx fd c : ctx_at s fd = Some c -> ctx_ok fd c;
  io_interest fd : interest s !! fd = match ctx_at s fd with Some c => want (events c) | None => None end;
  io_pending : m_pendingEventCount s = u64 (total (m_fdContexts s))
}.

(** What is registered for an event of a descriptor. *)
Definition reg (s : IOManager) (fd ev : Z) : option (nat * task) :=
  match ctx_at s fd with
  | Some c => if ev =? READ then waiter (fc_read c) else if ev =? WRITE then waiter (fc_write c) else None
  | None => None
  end.

(** ** Masks *)

Ltac mask_cases H :=
  let E := fresh "E" in destruct H as [E|[E|[E|E]]]; rewrite E in *.

Lemma mask_set m ev : mask_ok m -> is_event ev -> mask_ok (Z.lor m ev).
Proof. intros [-> |[-> |[-> | ->]]] [-> | ->]; compute; auto. Qed.

Lemma mask_clear m ev : mask_ok m -> is_event ev -> mask_ok (Z.land m (Z.lnot ev)).
Proof. intros [-> |[-> |[-> | ->]]] [-> | ->]; compute; auto. Qed.

Lemma has_set m ev x :
  mask_ok m -> is_event ev -> is_event x ->
  has (Z.lor m ev) x = if decide (x = ev) then true else has m x.
Proof. intros [-> |[-> |[-> | ->]]] [-> | ->] [-> | ->]; reflexivity. Qed.

Lemma has_clear m ev x :
  mask_ok m -> is_event ev -> is_event x ->
  has (Z.land m (Z.lnot ev)) x = if decide (x = ev) then false else has m x.
Proof. intros [-> |[-> |[-> | ->]]] [-> | ->] [-> | ->]; reflexivity. Qed.

Lemma nbits_set m ev : mask_ok m -> is_event ev -> has m ev = false -> nbits (Z.lor m ev) = nbits m + 1.
Proof. intros [-> |[-> |[-> | ->]]] [-> | ->]; compute; congruence. Qed.

Lemma nbits_clear m ev :
  mask_ok m -> is_event ev -> has m ev = true -> nbits (Z.land m (Z.lnot ev)) = nbits m - 1.
Proof. intros [-> |[-> |[-> | ->]]] [-> | ->]; compute; congruence. Qed.

Lemma set_nonzero m ev : mask_ok m -> is_event ev -> (Z.lor m ev =? 0) = false.
Proof. intros [-> |[-> |[-> | ->]]] [-> | ->]; reflexivity. Qed.

Lemma has_nonzero m ev : has m ev = true -> (m =? 0) = false.
Proof. destruct (Z.eqb_spec m 0) as [->|]; [discriminate|reflexivity]. Qed.

(** ** Contexts *)

Lemma ctx_run s fd c : ctx_at s fd = Some c -> context fd s = (s, Ret c).
Proof.
  unfold ctx_at, context. rewrite cbind_get. destruct (fd <? 0); [discriminate|].
  intros ->. reflexivity.
Qed.

Lemma ctx_in s fd : 0 <= fd < zlen (m_fdContexts s) -> exists c, ctx_at s fd = Some c.
Proof.
  intros H. unfold ctx_at. rewrite (proj2 (Z.ltb_ge _ _)) by lia.
  destruct (m_fdContexts s !! Z.to_nat fd) eqn:E; [eauto|].
  apply lookup_ge_None_1 in E. unfold zlen in H. lia.
Qed.

Lemma ctx_at_out s fd : zlen (m_fdContexts s) <= fd -> ctx_at s fd = None.
Proof.
  intros H. unfold ctx_at. destruct (fd <? 0); [reflexivity|]. apply lookup_ge_None_2.
  unfold zlen in H. lia.
Qed.

Lemma io_i32 s : IOInv s -> i32 (zlen (m_fdContexts s)) = zlen (m_fdContexts s).
Proof.
  intros I. pose proof (io_size s I). apply swrap_id; [lia|].
  unfold s_range. change (2 ^ (32 - 1)) with (2 ^ 31). lia.
Qed.

Lemma total_insert l i c c' :
  l !! i = Some c -> total (<[i := c']> l) = total l + (nbits (events c') - nbits (events c)).
Proof.
  revert i. induction l as [|x l IH]; intros [|i] H; simpl in *; simplify_eq; [lia|].
  rewrite (IH i H). lia.
Qed.

(** The context of [fd] is replaced by [c'], with the interest list and the
    counter that go with it. *)
Record replaced (fd : Z) (c' : FdContext) (s s' : IOManager) : Prop := {
  re_ctx x : ctx_at s' x = if decide (x = fd) then Some c' else ctx_at s x;
  re_len : zlen (m_fdContexts s') = zlen (m_fdContexts s);
  re_inv : IOInv s'
}.

Lemma replace_ok s fd c c' s' :
  IOInv s -> ctx_at s fd = Some c -> ctx_ok fd c' ->
  m_fdContexts s' = <[Z.to_nat fd := c']> (m_fdContexts s) ->
  (forall x, interest s' !! x = if decide (x = fd) then want (events c') else interest s !! x) ->
  m_pendingEventCount s' = u64 (m_pendingEventCount s + (nbits (events c') - nbits (events c))) ->
  replaced fd c' s s'.
Proof.
  intros I Hc Hok Hl Hi Hp.
  assert (Hfd : 0 <= fd /\ m_fdContexts s !! Z.to_nat fd = Some c).
  { unfold ctx_at in Hc. destruct (Z.ltb_spec fd 0); [discriminate|auto]. }
  destruct Hfd as [Hfd Hlk].
  assert (Hat : forall x, ctx_at s' x = if decide (x = fd) then Some c' else ctx_at s x).
  { intros x. unfold ctx_at. rewrite Hl. destruct (decide (x = fd)) as [->|Hne].
    - rewrite (proj2 (Z.ltb_ge _ _)) by lia. apply list_lookup_insert_eq.
      apply lookup_lt_Some in Hlk. assumption.
    - destruct (Z.ltb_spec x 0); [reflexivity|]. apply list_lookup_insert_ne. lia. }
  assert (Hlen : zlen (m_fdContexts s') = zlen (m_fdContexts s))
    by (unfold zlen; rewrite Hl, length_insert; reflexivity).
  constructor; [assumption|assumption|]. constructor.
  - rewrite Hlen. apply I.
  - intros x cx Hx. rewrite Hat in Hx. destruct (decide (x = fd)) as [->|]; [congruence|].
    apply (io_ctx s I x cx Hx).
  - intros x. rewrite Hi, Hat. destruct (decide (x = fd)); [reflexivity|apply I].
  - rewrite Hp, Hl, (total_insert _ _ c) by assumption. rewrite (io_pending s I).
    unfold uwrap. rewrite Zplus_mod_idemp_l. reflexivity.
Qed.

(** [epoll_ctl] as the code calls it: the operation matches the old mask. *)
Lemma epoll_run s fd m m' refused :
  interest s !! fd = want m -> (m =? 0) && (m' =? 0) = false ->
  let op := if m =? 0 then CTL_ADD else if m' =? 0 then CTL_DEL else CTL_MOD in
  exists s', epoll_ctl refused op fd (Z.lor EPOLLET m') s = (s', Ret (negb refused))
    /\ (if refused then s' = s
        else m_fdContexts s' = m_fdContexts s /\ m_pendingEventCount s' = m_pendingEventCount s
             /\ scheduled s' = scheduled s
             /\ forall x, interest s' !! x = if decide (x = fd) then want m' else interest s !! x).
Proof.
  intros Hi Hm op. unfold epoll_ctl. destruct refused; [exists s; auto|].
  rewrite cbind_get, Hi. unfold want in *.
  assert (Hx : forall (k : gmap Z Z) v x, (<[fd := v]> k !! x) = if decide (x = fd) then Some v else k !! x).
  { intros k v x. destruct (decide (x = fd)) as [->|]; [apply lookup_insert_eq|].
    apply lookup_insert_ne. congruence. }
  unfold op. destruct (m =? 0) eqn:E, (m' =? 0) eqn:E'; try discriminate;
    eexists; (split; [reflexivity|]); do 3 (split; [reflexivity|]); simpl; auto.
  intros x. destruct (decide (x = fd)) as [->|]; [apply lookup_delete_eq|].
  apply lookup_delete_ne. congruence.
Qed.

(** ** One event of one context *)

Definition ctx_of (ev : Z) (c : FdContext) : EventContext :=
  if ev =? READ then fc_read c else fc_write c.

Lemma getContext_run ev c : is_event ev -> getContext ev c = Ret (ctx_of ev c).
Proof. intros [-> | ->]; reflexivity. Qed.

Lemma armed_ctx fd c ev : ctx_ok fd c -> is_event ev -> armed (has (events c) ev) (ctx_of ev c).
Proof. intros [] [-> | ->]; assumption. Qed.

Lemma reg_ctx s fd c ev : ctx_at s fd = Some c -> is_event ev -> reg s fd ev = waiter (ctx_of ev c).
Proof. intros H [-> | ->]; unfold reg; rewrite H; reflexivity. Qed.

Lemma reg_has s fd c ev :
  IOInv s -> ctx_at s fd = Some c -> is_event ev ->
  has (events c) ev = bool_decide (is_Some (reg s fd ev)).
Proof.
  intros I H E. rewrite (reg_ctx s fd c ev H E).
  pose proof (armed_ctx fd c ev (io_ctx s I fd c H) E) as A. unfold armed in A.
  destruct (has (events c) ev).
  - symmetry. apply bool_decide_eq_true_2. assumption.
  - rewrite A. reflexivity.
Qed.

Definition new_mask (b : bool) (ev m : Z) : Z := if b then Z.lor m ev else Z.land m (Z.lnot ev).

Definition set_one (b : bool) (ev : Z) (e : EventContext) (c : FdContext) : FdContext :=
  setContext ev e (set_events (new_mask b ev (events c)) c).

Lemma set_one_events b ev e c : events (set_one b ev e c) = new_mask b ev (events c).
Proof. unfold set_one, setContext. destruct (ev =? READ); reflexivity. Qed.

Lemma set_one_ctx b ev e c x :
  is_event ev -> is_event x -> ctx_of x (set_one b ev e c) = if decide (x = ev) then e else ctx_of x c.
Proof. intros [-> | ->] [-> | ->]; reflexivity. Qed.

Lemma set_one_ok fd b ev e c :
  ctx_ok fd c -> is_event ev -> armed b e -> ctx_ok fd (set_one b ev e c).
Proof.
  intros [H1 H2 H3 H4] E A.
  assert (Hh : forall x, is_event x ->
    has (new_mask b ev (events c)) x = if decide (x = ev) then b else has (events c) x).
  { intros x Ex. unfold new_mask. destruct b; [apply has_set|apply has_clear]; auto. }
  assert (Ha : forall x, is_event x ->
    armed (has (events (set_one b ev e c)) x) (ctx_of x (set_one b ev e c))).
  { intros x Ex. rewrite set_one_events, set_one_ctx, Hh by auto.
    destruct (decide (x = ev)); [assumption|]. destruct Ex as [-> | ->]; assumption. }
  constructor.
  - unfold set_one, setContext. destruct (ev =? READ); assumption.
  - rewrite set_one_events. unfold new_mask. destruct b; [apply mask_set|apply mask_clear]; auto.
  - apply (Ha READ). left. reflexivity.
  - apply (Ha WRITE). right. reflexivity.
Qed.

Lemma nbits_new b ev m :
  mask_ok m -> is_event ev -> has m ev = negb b -> nbits (new_mask b ev m) - nbits m = if b then 1 else -1.
Proof.
  intros M E H. unfold new_mask. destruct b.
  - rewrite nbits_set by auto. lia.
  - rewrite nbits_clear by auto. lia.
Qed.

(** The registry after one context changed one event. *)
Lemma reg_replaced fd b ev e c s s' :
  ctx_at s fd = Some c -> is_event ev -> replaced fd (set_one b ev e c) s s' ->
  forall x y, is_event y ->
  reg s' x y = if decide (x = fd /\ y = ev) then waiter e else reg s x y.
Proof.
  intros Hc E R x y Ey. destruct (decide (x = fd)) as [->|Hne].
  - rewrite (reg_ctx s' fd (set_one b ev e c)) by (auto; rewrite (re_ctx _ _ _ _ R), decide_True; auto).
    rewrite set_one_ctx by assumption. destruct (decide (y = ev)) as [->|Hy].
    + rewrite decide_True by auto. reflexivity.
    + rewrite decide_False by tauto. rewrite (reg_ctx s fd c) by assumption. reflexivity.
  - rewrite decide_False by tauto. unfold reg. rewrite (re_ctx _ _ _ _ R), decide_False by assumption.
    reflexivity.
Qed.

Lemma triggerEvent_run s fd c ev sc t :
  ctx_at s fd = Some c -> is_event ev -> has (events c) ev = true -> waiter (ctx_of ev c) = Some (sc, t) ->
  triggerEvent fd ev s
    = (set_ctxs (<[Z.to_nat fd := set_one false ev ec_empty c]> (m_fdContexts s)) (push_task sc t s), Ret tt).
Proof.
  intros Hc E Hh Hw. unfold triggerEvent. cstep (ctx_run s fd c Hc).
  rewrite cbind_assert by assumption. unfold lift, cbind at 1. rewrite (getContext_run ev c E).
  destruct (ctx_of ev c) as [[sc'|] [f|] [cb|]]; simpl in *; simplify_eq; reflexivity.
Qed.

(** ** Growing the table *)

Lemma resize_lookup size l i :
  zlen l <= size -> resize_contexts size l !! i
    = match l !! i with
      | Some c => Some c
      | None => if decide (Z.of_nat i < size) then Some (FdContext_new (Z.of_nat i)) else None
      end.
Proof.
  intros H. unfold resize_contexts, zlen in *. rewrite take_ge by lia.
  destruct (l !! i) as [c|] eqn:E.
  - rewrite lookup_app_l; [assumption|]. apply lookup_lt_Some in E. assumption.
  - apply lookup_ge_None_1 in E. rewrite lookup_app_r by assumption.
    rewrite list_lookup_fmap. destruct (decide _).
    + rewrite lookup_seq_lt by lia. simpl. do 2 f_equal. lia.
    + rewrite lookup_seq_ge by lia. reflexivity.
Qed.

Lemma total_app l k : total (l ++ k) = total l + total k.
Proof. induction l as [|c l IH]; simpl; [reflexivity|]. rewrite IH. lia. Qed.

Lemma total_new l : total (map (fun i => FdContext_new (Z.of_nat i)) l) = 0.
Proof. induction l as [|i l IH]; simpl; [reflexivity|]. rewrite IH. reflexivity. Qed.

Lemma zlen_resize_contexts size l : zlen l <= size -> zlen (resize_contexts size l) = size.
Proof.
  intros H. unfold resize_contexts, zlen in *. rewrite length_app, length_take, length_map, length_seq. lia.
Qed.

Lemma grow_ok s size :
  IOInv s -> zlen (m_fdContexts s) <= size < 2 ^ 31 ->
  exists s', contextResize size s = (s', Ret tt) /\ IOInv s' /\ zlen (m_fdContexts s') = size
    /\ scheduled s' = scheduled s /\ forall x y, reg s' x y = reg s x y.
Proof.
  intros I H. eexists. split; [reflexivity|].
  assert (Hat : forall x, ctx_at (set_ctxs (resize_contexts size (m_fdContexts s)) s) x
     = match ctx_at s x with
       | Some c => Some c
       | None => if decide (0 <= x < size) then Some (FdContext_new x) else None
       end).
  { intros x. unfold ctx_at. simpl. destruct (Z.ltb_spec x 0).
    - rewrite decide_False by lia. reflexivity.
    - rewrite resize_lookup by lia. rewrite Z2Nat.id by lia.
      destruct (m_fdContexts s !! Z.to_nat x); [reflexivity|].
      destruct (decide (x < size)); [rewrite decide_True|rewrite decide_False]; auto; lia. }
  pose proof (io_size s I). split; [constructor|split; [|split]].
  - simpl. rewrite zlen_resize_contexts by lia. lia.
  - intros x c Hx. rewrite Hat in Hx. destruct (ctx_at s x) eqn:E; simplify_eq.
    + apply (io_ctx s I x c E).
    + destruct (decide _); simplify_eq. constructor; simpl; try reflexivity. left. reflexivity.
  - intros x. rewrite Hat. simpl. rewrite (io_interest s I). destruct (ctx_at s x); [reflexivity|].
    destruct (decide _); reflexivity.
  - simpl. rewrite (io_pending s I). f_equal. unfold resize_contexts.
    unfold zlen in H. rewrite take_ge, total_app, total_new by lia. lia.
  - simpl. apply zlen_resize_contexts. lia.
  - reflexivity.
  - intros x y. unfold reg. rewrite Hat. destruct (ctx_at s x); [reflexivity|].
    destruct (decide _); [|reflexivity]. simpl. destruct (y =? READ), (y =? WRITE); reflexivity.
Qed.

Lemma new_ctx_at x : ctx_at IOManager_new x = if decide (0 <= x < 32) then Some (FdContext_new x) else None.
Proof.
  unfold ctx_at, IOManager_new. cbn [m_fdContexts]. destruct (Z.ltb_spec x 0).
  - rewrite decide_False by lia. reflexivity.
  - rewrite resize_lookup by (unfold zlen; simpl; lia). rewrite lookup_nil, Z2Nat.id by lia.
    destruct (decide (x < 32)); [rewrite decide_True|rewrite decide_False]; auto; lia.
Qed.

Lemma new_IOInv : IOInv IOManager_new.
Proof.
  constructor.
  - vm_compute. split; congruence.
  - intros x c Hx. rewrite new_ctx_at in Hx. destruct (decide _); simplify_eq.
    constructor; simpl; try reflexivity. left. reflexivity.
  - intros x. rewrite new_ctx_at. destruct (decide _); reflexivity.
  - reflexivity.
Qed.
