(* ===== verification/IOManagerSpec.v ===== *)
(** * What the IOManager promises (sylar/iomanager.cpp)

    The contexts, the epoll interest list and the counter of pending events
    together are a registry: a finite map from (descriptor, event) to the task
    that waits for it ([reg]).  The operations are its operations; an event that
    is reported or cancelled hands its task over exactly once. *)

From stdpp Require Import base gmap list.
From Stdlib Require Import ZArith Lia.
From S2P Require Import Prelude Double IOManager.

Local Open Scope Z_scope.
Local Open Scope cpp_scope.

Definition task_for (sc cur : nat) (cb : option nat) : nat * task :=
  (sc, match cb with Some x => TCb x | None => TFiber cur end).

Lemma body_ok refused sc cur fd ev cb s c :
  IOInv s -> ctx_at s fd = Some c -> is_event ev -> reg s fd ev = None ->
  exists s', addEvent_body refused (Some sc) cur fd ev cb s
               = (s', Ret (if refused then -1 else 0))
    /\ IOInv s' /\ scheduled s' = scheduled s
    /\ forall x y, is_event y -> reg s' x y
         = if decide (x = fd /\ y = ev) then (if refused then None else Some (task_for sc cur cb))
           else reg s x y.
Proof.
  intros I Hc E Hr. pose proof (io_ctx s I fd c Hc) as C. pose proof (co_mask _ _ C) as Mk.
  assert (Hh : has (events c) ev = false) by (rewrite (reg_has s fd c ev I Hc E), Hr; reflexivity).
  unfold addEvent_body. cstep (ctx_run s fd c Hc). rewrite cbind_assert by (rewrite Hh; reflexivity).
  destruct (epoll_run s fd (events c) (Z.lor (events c) ev) refused) as (s1 & Hrun & Hs1).
  { rewrite (io_interest s I), Hc. reflexivity. }
  { rewrite set_nonzero by assumption. apply andb_false_r. }
  rewrite set_nonzero in Hrun by assumption. rewrite Z.lor_assoc in Hrun. cstep Hrun.
  destruct refused; cbn [negb].
  - subst s1. exists s. split; [reflexivity|]. split; [assumption|]. split; [reflexivity|].
    intros x y Ey. destruct (decide _) as [[-> ->]|]; [assumption|reflexivity].
  - destruct Hs1 as (H1 & H2 & H3 & H4). rewrite cbind_mod.
    unfold lift, cbind at 1. rewrite (getContext_run ev c E).
    pose proof (armed_ctx fd c ev C E) as A. rewrite Hh in A. simpl in A. rewrite A.
    cbn [ec_empty scheduler ec_fiber ec_cb]. rewrite cbind_assert by reflexivity.
    set (e := match cb with Some x => _ | None => _ end).
    assert (Ha : armed true e) by (unfold e, armed; destruct cb; simpl; eauto).
    eexists. split; [reflexivity|].
    match goal with |- IOInv ?st /\ _ => assert (R : replaced fd (set_one true ev e c) s st) end.
    { eapply (replace_ok s fd c); eauto; simpl.
      - apply set_one_ok; assumption.
      - rewrite H1. reflexivity.
      - intros x. rewrite H4, set_one_events. reflexivity.
      - rewrite H2, set_one_events, nbits_new by assumption. reflexivity. }
    split; [apply R|]. split; [exact H3|].
    intros x y Ey. rewrite (reg_replaced fd true ev e c s _ Hc E R x y Ey).
    destruct (decide _); [|reflexivity]. unfold e, task_for. destruct cb; reflexivity.
Qed.

(** The lookup of [addEvent] leaves a table that has the descriptor. *)
Lemma find_ok s fd :
  IOInv s -> 0 <= fd < 2 ^ 30 ->
  exists s' c, (let! found := addEvent_find fd in if found then cret tt else addEvent_grow fd) s
                 = (s', Ret tt)
    /\ IOInv s' /\ ctx_at s' fd = Some c /\ scheduled s' = scheduled s
    /\ forall x y, reg s' x y = reg s x y.
Proof.
  intros I Hfd. pose proof (io_size s I) as Hsz.
  assert (Hf : addEvent_find fd s = (s, Ret (zlen (m_fdContexts s) >? fd)))
    by (unfold addEvent_find; rewrite cbind_get, (io_i32 s I); reflexivity).
  cstep Hf. rewrite Z.gtb_ltb.
  destruct (Z.ltb_spec fd (zlen (m_fdContexts s))).
  - destruct (ctx_in s fd) as [c Hc]; [lia|]. exists s, c. auto.
  - pose proof (times_1_5_gt fd). assert (times_1_5 fd < 2 ^ 31)
      by (unfold times_1_5; apply Z.div_lt_upper_bound; lia).
    destruct (grow_ok s (times_1_5 fd) I) as (s' & Hrun & I' & Hz & Hs & Hr); [lia|].
    destruct (ctx_in s' fd) as [c Hc]; [lia|]. exists s', c. auto.
Qed.

Lemma addEvent_run s fd :
  IOInv s -> 0 <= fd < 2 ^ 30 ->
  exists s1 c, IOInv s1 /\ ctx_at s1 fd = Some c /\ scheduled s1 = scheduled s
    /\ (forall x y, reg s1 x y = reg s x y)
    /\ forall refused sc cur ev cb, addEvent refused sc cur fd ev cb s
                                    = addEvent_body refused sc cur fd ev cb s1.
Proof.
  intros I Hfd. destruct (find_ok s fd I Hfd) as (s1 & c1 & Hrun & I1 & Hc1 & Hs1 & Hr1).
  exists s1, c1. do 4 (split; [assumption|]). intros r sc cur ev cb. unfold addEvent.
  unfold cbind in Hrun |- *. destruct (addEvent_find fd s) as [s0 [b|e|f]]; try discriminate.
  destruct ((if b then cret tt else addEvent_grow fd) s0) as [s2 o].
  injection Hrun as -> ->. reflexivity.
Qed.

Lemma addEvent_ok refused sc cur fd ev cb s :
  IOInv s -> 0 <= fd < 2 ^ 30 -> is_event ev -> reg s fd ev = None ->
  exists s', addEvent refused (Some sc) cur fd ev cb s = (s', Ret (if refused then -1 else 0))
    /\ IOInv s' /\ scheduled s' = scheduled s
    /\ forall x y, is_event y -> reg s' x y
         = if decide (x = fd /\ y = ev) then (if refused then None else Some (task_for sc cur cb))
           else reg s x y.
Proof.
  intros I Hfd E Hr. destruct (addEvent_run s fd I Hfd) as (s1 & c1 & I1 & Hc1 & Hs1 & Hr1 & Hrun).
  destruct (body_ok refused sc cur fd ev cb s1 c1 I1 Hc1 E) as (s2 & B1 & B2 & B3 & B4);
    [rewrite Hr1; assumption|].
  exists s2. rewrite Hrun. split; [assumption|]. split; [assumption|]. split; [congruence|].
  intros x y Ey. rewrite B4, Hr1 by assumption. reflexivity.
Qed.

(** What [delEvent] and [cancelEvent] do after the lookup. *)
Lemma lookup_run {A} s fd (k : FdContext -> M IOManager A) (r : A) c :
  IOInv s -> ctx_at s fd = Some c ->
  (let! n := cget (fun s => i32 (zlen (m_fdContexts s))) in
   if n <=? fd then cret r else let! c := context fd in k c) s = k c s.
Proof.
  intros I Hc. rewrite cbind_get, (io_i32 s I).
  destruct (Z.leb_spec (zlen (m_fdContexts s)) fd); [rewrite ctx_at_out in Hc by assumption; discriminate|].
  cstep (ctx_run s fd c Hc). reflexivity.
Qed.

Lemma lookup_out {A} s fd (k : M IOManager A) (r : A) :
  IOInv s -> zlen (m_fdContexts s) <= fd ->
  (let! n := cget (fun s => i32 (zlen (m_fdContexts s))) in
   if n <=? fd then cret r else k) s = (s, Ret r).
Proof. intros I H. rewrite cbind_get, (io_i32 s I), (proj2 (Z.leb_le _ _)) by assumption. reflexivity. Qed.

Lemma remove_epoll s fd c ev refused :
  IOInv s -> ctx_at s fd = Some c -> is_event ev -> has (events c) ev = true ->
  let m' := new_mask false ev (events c) in
  exists s', epoll_ctl refused (if m' =? 0 then CTL_DEL else CTL_MOD) fd (Z.lor EPOLLET m') s
               = (s', Ret (negb refused))
    /\ (if refused then s' = s
        else m_fdContexts s' = m_fdContexts s /\ m_pendingEventCount s' = m_pendingEventCount s
             /\ scheduled s' = scheduled s
             /\ forall x, interest s' !! x = if decide (x = fd) then want m' else interest s !! x).
Proof.
  intros I Hc E Hh m'. pose proof (has_nonzero _ _ Hh) as Hnz.
  destruct (epoll_run s fd (events c) m' refused) as (s' & Hrun & Hs).
  { rewrite (io_interest s I), Hc. reflexivity. }
  { rewrite Hnz. reflexivity. }
  rewrite Hnz in Hrun. eauto.
Qed.

Lemma del_ok (refused : bool) fd ev s c :
  IOInv s -> ctx_at s fd = Some c -> is_event ev ->
  if bool_decide (is_Some (reg s fd ev)) && negb refused
  then exists s', delEvent refused fd ev s = (s', Ret true) /\ IOInv s' /\ scheduled s' = scheduled s
         /\ forall x y, is_event y ->
              reg s' x y = if decide (x = fd /\ y = ev) then None else reg s x y
  else delEvent refused fd ev s = (s, Ret false).
Proof.
  intros I Hc E. pose proof (io_ctx s I fd c Hc) as C. pose proof (co_mask _ _ C) as Mk.
  unfold delEvent. rewrite (lookup_run s fd _ false c I Hc).
  rewrite <- (reg_has s fd c ev I Hc E). destruct (has (events c) ev) eqn:Hh; [|reflexivity].
  cbn [negb andb].
  destruct (remove_epoll s fd c ev refused I Hc E Hh) as (s1 & Hrun & Hs1).
  unfold new_mask in Hrun. cstep Hrun. destruct refused; cbn [negb]; [subst s1; reflexivity|].
  destruct Hs1 as (H1 & H2 & H3 & H4). rewrite cbind_mod.
  unfold lift, cbind at 1. rewrite (getContext_run ev c E). eexists. split; [reflexivity|].
  match goal with |- IOInv ?st /\ _ => assert (R : replaced fd (set_one false ev ec_empty c) s st) end.
  { eapply (replace_ok s fd c); eauto; simpl.
    - apply set_one_ok; auto. reflexivity.
    - rewrite H1. reflexivity.
    - intros x. rewrite H4, set_one_events. reflexivity.
    - rewrite H2, set_one_events, nbits_new by assumption. reflexivity. }
  split; [apply R|]. split; [exact H3|].
  intros x y Ey. rewrite (reg_replaced fd false ev ec_empty c s _ Hc E R x y Ey). reflexivity.
Qed.

Lemma cancelEvent_ok (refused : bool) fd ev s c :
  IOInv s -> ctx_at s fd = Some c -> is_event ev ->
  match reg s fd ev with
  | Some w => if refused then cancelEvent refused fd ev s = (s, Ret false)
      else exists s', cancelEvent refused fd ev s = (s', Ret true) /\ IOInv s'
             /\ scheduled s' = scheduled s ++ [w]
             /\ forall x y, is_event y ->
                  reg s' x y = if decide (x = fd /\ y = ev) then None else reg s x y
  | None => cancelEvent refused fd ev s = (s, Ret false)
  end.
Proof.
  intros I Hc E. pose proof (io_ctx s I fd c Hc) as C. pose proof (co_mask _ _ C) as Mk.
  unfold cancelEvent. rewrite (lookup_run s fd _ false c I Hc).
  pose proof (reg_has s fd c ev I Hc E) as Hh.
  destruct (reg s fd ev) as [[sc t]|] eqn:Hr; [|rewrite Hh; reflexivity].
  assert (Hh' : has (events c) ev = true) by (rewrite Hh; reflexivity). rewrite Hh'. cbn [negb].
  destruct (remove_epoll s fd c ev refused I Hc E Hh') as (s1 & Hrun & Hs1).
  unfold new_mask in Hrun. cstep Hrun. destruct refused; cbn [negb]; [subst s1; reflexivity|].
  destruct Hs1 as (H1 & H2 & H3 & H4).
  assert (Hc1 : ctx_at s1 fd = Some c) by (unfold ctx_at in *; rewrite H1; exact Hc).
  rewrite (reg_ctx s fd c ev Hc E) in Hr.
  cstep (triggerEvent_run s1 fd c ev sc t Hc1 E Hh' Hr). rewrite cbind_mod.
  eexists. split; [reflexivity|].
  match goal with |- IOInv ?st /\ _ => assert (R : replaced fd (set_one false ev ec_empty c) s st) end.
  { eapply (replace_ok s fd c); eauto; simpl.
    - apply set_one_ok; auto. reflexivity.
    - rewrite H1. reflexivity.
    - intros x. rewrite H4, set_one_events. reflexivity.
    - rewrite H2, set_one_events, nbits_new by assumption. reflexivity. }
  split; [apply R|]. split; [simpl; rewrite H3; reflexivity|].
  intros x y Ey. rewrite (reg_replaced fd false ev ec_empty c s _ Hc E R x y Ey). reflexivity.
Qed.

(** ** The properties *)

(** C14: the IOManager is a registry of waiting tasks.  Adding an event that
    is not registered enters the task (the callback, or the running fiber) and
    touches no other entry, also when the table grows; adding it twice is the
    assertion; [delEvent] takes the entry out, [cancelEvent] takes it out and
    hands its task to its scheduler, both return false and change nothing when
    there is no entry; a call that the kernel refuses leaves the registry
    unchanged.  The interest list of epoll and the counter of pending events
    follow every step ([IOInv]). *)
Theorem event_registry s fd ev sc cur cb :
  IOInv s -> 0 <= fd < 2 ^ 30 -> is_event ev ->
  let only v s' := forall x y, is_event y ->
    reg s' x y = if decide (x = fd /\ y = ev) then v else reg s x y in
  match reg s fd ev with
  | None =>
      (exists s', addEvent false (Some sc) cur fd ev cb s = (s', Ret 0) /\ IOInv s'
         /\ scheduled s' = scheduled s /\ only (Some (task_for sc cur cb)) s')
      /\ (exists s', addEvent true (Some sc) cur fd ev cb s = (s', Ret (-1)) /\ IOInv s'
            /\ scheduled s' = scheduled s /\ only None s')
      /\ delEvent false fd ev s = (s, Ret false) /\ cancelEvent false fd ev s = (s, Ret false)
  | Some w =>
      (exists s', addEvent false (Some sc) cur fd ev cb s = (s', Undef AssertFailed))
      /\ delEvent true fd ev s = (s, Ret false) /\ cancelEvent true fd ev s = (s, Ret false)
      /\ (exists s', delEvent false fd ev s = (s', Ret true) /\ IOInv s'
            /\ scheduled s' = scheduled s /\ only None s')
      /\ (exists s', cancelEvent false fd ev s = (s', Ret true) /\ IOInv s'
            /\ scheduled s' = scheduled s ++ [w] /\ only None s')
  end.
Proof.
  intros I Hfd E only.
  destruct (reg s fd ev) as [w|] eqn:Hr.
  - assert (Hin : exists c, ctx_at s fd = Some c).
    { unfold reg in Hr. destruct (ctx_at s fd); [eauto|discriminate]. }
    destruct Hin as [c Hc].
    pose proof (del_ok true fd ev s c I Hc E) as D1. pose proof (del_ok false fd ev s c I Hc E) as D2.
    pose proof (cancelEvent_ok true fd ev s c I Hc E) as K1.
    pose proof (cancelEvent_ok false fd ev s c I Hc E) as K2. rewrite Hr in *.
    split; [|auto 10]. destruct (addEvent_run s fd I Hfd) as (s1 & c1 & I1 & Hc1 & _ & Hr1 & Hrun).
    rewrite Hrun. exists s1. unfold addEvent_body.
    rewrite (cbind_ret _ _ _ _ _ (ctx_run s1 fd c1 Hc1)).
    rewrite (reg_has s1 fd c1 ev I1 Hc1 E), Hr1, Hr. reflexivity.
  - split; [apply (addEvent_ok false); assumption|].
    split; [apply (addEvent_ok true); assumption|]. split.
    + destruct (Z.le_gt_cases (zlen (m_fdContexts s)) fd).
      * apply lookup_out; assumption.
      * destruct (ctx_in s fd) as [c Hc]; [lia|]. pose proof (del_ok false fd ev s c I Hc E) as D.
        rewrite Hr in D. exact D.
    + destruct (Z.le_gt_cases (zlen (m_fdContexts s)) fd).
      * apply lookup_out; assumption.
      * destruct (ctx_in s fd) as [c Hc]; [lia|]. pose proof (cancelEvent_ok false fd ev s c I Hc E) as D.
        rewrite Hr in D. exact D.
Qed.

Definition demo_io : IOManager :=
  fst ((addEvent false (Some 1%nat) 7 40 READ None ;;; addEvent false (Some 1%nat) 7 40 WRITE (Some 9%nat))
         IOManager_new).

Lemma demo_IOInv : IOInv demo_io.
Proof.
  assert (HR : is_event READ) by (left; reflexivity). assert (HW : is_event WRITE) by (right; reflexivity).
  destruct (addEvent_ok false 1 7 40 READ None IOManager_new new_IOInv) as (s1 & R1 & I1 & _ & G1);
    [lia|assumption|reflexivity|].
  destruct (addEvent_ok false 1 7 40 WRITE (Some 9%nat) s1 I1) as (s2 & R2 & I2 & _);
    [lia|assumption|rewrite G1 by assumption; reflexivity|].
  unfold demo_io. rewrite (cbind_ret _ _ _ _ _ R1), R2. exact I2.
Qed.

Lemma event_registry_witness :
  (exists s', addEvent false (Some 1%nat) 7 40 READ None IOManager_new = (s', Ret 0) /\ IOInv s'
     /\ scheduled s' = scheduled IOManager_new
     /\ forall x y, is_event y ->
          reg s' x y = if decide (x = 40 /\ y = READ) then Some (1%nat, TFiber 7)
                       else reg IOManager_new x y).
Proof.
  apply (event_registry IOManager_new 40 READ 1 7 None new_IOInv); [lia|left; reflexivity].
Defined.

(** One [if (real_events & event) triggerEvent(event)] of the loop. *)
Definition cleared (b : bool) (ev : Z) (c : FdContext) : FdContext :=
  if b then set_one false ev ec_empty c else c.

Lemma opt_trigger (b : bool) s fd c ev :
  ctx_at s fd = Some c -> is_event ev -> u_range 64 (m_pendingEventCount s) ->
  (b = true -> has (events c) ev = true /\ is_Some (waiter (ctx_of ev c))) ->
  exists s', (if b then triggerEvent fd ev ;;; cmod (add_pending (-1)) else cret tt) s = (s', Ret tt)
    /\ m_fdContexts s' = <[Z.to_nat fd := cleared b ev c]> (m_fdContexts s)
    /\ interest s' = interest s
    /\ scheduled s' = scheduled s ++ (if b then option_list (waiter (ctx_of ev c)) else [])
    /\ m_pendingEventCount s' = u64 (m_pendingEventCount s - Z.b2z b).
Proof.
  intros Hc E Hp Hb. destruct b.
  - destruct (Hb eq_refl) as [Hh [[sc t] Hw]].
    cstep (triggerEvent_run s fd c ev sc t Hc E Hh Hw). eexists. split; [reflexivity|].
    rewrite Hw. simpl. auto.
  - exists s. split; [reflexivity|]. unfold cleared. simpl. rewrite app_nil_r, Z.sub_0_r.
    rewrite uwrap_id by assumption. split; [|auto].
    unfold ctx_at in Hc. destruct (fd <? 0); [discriminate|]. rewrite list_insert_id; auto.
Qed.

Lemma ctx_at_insert s s' fd c c' :
  ctx_at s fd = Some c -> m_fdContexts s' = <[Z.to_nat fd := c']> (m_fdContexts s) ->
  ctx_at s' fd = Some c'.
Proof.
  unfold ctx_at. intros H E. rewrite E. destruct (fd <? 0); [discriminate|].
  apply list_lookup_insert_eq. apply lookup_lt_Some in H. assumption.
Qed.

Lemma real_split mask c :
  let real := real_events mask c in
  real = Z.lor (if has real READ then READ else 0) (if has real WRITE then WRITE else 0).
Proof.
  cbv zeta. unfold real_events. generalize (if has mask (Z.lor EPOLLERR EPOLLHUP)
    then Z.lor mask (Z.land (Z.lor EPOLLIN EPOLLOUT) (events c)) else mask). intros ev.
  destruct (has ev EPOLLIN), (has ev EPOLLOUT); reflexivity.
Qed.

(** The masks of the two steps together. *)
Lemma left_mask (r w : bool) c :
  mask_ok (events c) -> (r = true -> has (events c) READ = true) ->
  (w = true -> has (events c) WRITE = true) ->
  let real := Z.lor (if r then READ else 0) (if w then WRITE else 0) in
  let left := events (cleared w WRITE (cleared r READ c)) in
  Z.land (events c) (Z.lnot real) = left
  /\ nbits left - nbits (events c) = - Z.b2z r - Z.b2z w
  /\ (Z.land (events c) real =? 0) = negb (r || w).
Proof.
  intros Mk Hr Hw. unfold cleared. destruct r, w; simpl; rewrite ?set_one_events;
    repeat specialize (Hr eq_refl); repeat specialize (Hw eq_refl);
    destruct Mk as [E|[E|[E|E]]]; rewrite E in *; try discriminate; repeat split.
Qed.

Lemma cleared_ok fd b ev c : ctx_ok fd c -> is_event ev -> ctx_ok fd (cleared b ev c).
Proof. intros C E. unfold cleared. destruct b; [apply set_one_ok|]; auto. reflexivity. Qed.

Lemma cleared_ctx b ev c y :
  is_event ev -> is_event y ->
  ctx_of y (cleared b ev c) = if b && bool_decide (y = ev) then ec_empty else ctx_of y c.
Proof.
  intros E Ey. unfold cleared. destruct b; [|reflexivity]. rewrite set_one_ctx by assumption. simpl.
  destruct (decide (y = ev)); [rewrite bool_decide_eq_true_2|rewrite bool_decide_eq_false_2]; auto.
Qed.

(** Both events of a report, reader first. *)
Definition cleared2 (real : Z) (c : FdContext) : FdContext :=
  cleared (has real WRITE) WRITE (cleared (has real READ) READ c).

Lemma trigger_both real s fd c :
  ctx_at s fd = Some c -> mask_ok (events c) -> u_range 64 (m_pendingEventCount s) ->
  (forall y, is_event y -> has real y = true -> has (events c) y = true /\ is_Some (waiter (ctx_of y c))) ->
  exists s', ((if has real READ then triggerEvent fd READ ;;; cmod (add_pending (-1)) else cret tt) ;;;
              (if has real WRITE then triggerEvent fd WRITE ;;; cmod (add_pending (-1)) else cret tt)) s = (s', Ret tt)
    /\ m_fdContexts s' = <[Z.to_nat fd := cleared2 real c]> (m_fdContexts s)
    /\ interest s' = interest s
    /\ scheduled s' = scheduled s
         ++ (if has real READ then option_list (waiter (ctx_of READ c)) else [])
         ++ (if has real WRITE then option_list (waiter (ctx_of WRITE c)) else [])
    /\ m_pendingEventCount s'
       = u64 (m_pendingEventCount s - Z.b2z (has real READ) - Z.b2z (has real WRITE)).
Proof.
  intros Hc Mk Hp Hin. assert (HR : is_event READ) by (left; reflexivity). assert (HW : is_event WRITE) by (right; reflexivity).
  destruct (opt_trigger (has real READ) s fd c READ Hc HR Hp) as (s2 & R2 & A2 & B2 & D2 & P2).
  { intros X. apply (Hin READ HR X). }
  set (c1 := cleared (has real READ) READ c) in *.
  assert (Hw : ctx_of WRITE c1 = ctx_of WRITE c).
  { unfold c1. rewrite cleared_ctx by assumption.
    rewrite (bool_decide_eq_false_2 (WRITE = READ)), andb_false_r by discriminate. reflexivity. }
  assert (Hc2 : ctx_at s2 fd = Some c1) by (apply (ctx_at_insert s s2 fd c); assumption).
  destruct (opt_trigger (has real WRITE) s2 fd c1 WRITE Hc2 HW) as (s3 & R3 & A3 & B3 & D3 & P3).
  { rewrite P2. apply uwrap_range. lia. }
  { intros X. destruct (Hin WRITE HW X) as [Y1 Y2]. rewrite Hw. split; [|assumption].
    unfold c1, cleared. destruct (has real READ); [|assumption].
    rewrite set_one_events. unfold new_mask. rewrite has_clear by assumption. assumption. }
  exists s3. cstep R2. split; [exact R3|]. split; [rewrite A3, A2, list_insert_insert_eq; reflexivity|].
  split; [rewrite B3; exact B2|]. split; [rewrite D3, D2, Hw, <- app_assoc; reflexivity|].
  rewrite P3, P2. unfold uwrap. rewrite Zminus_mod_idemp_l. reflexivity.
Qed.

(** The registry once a context has lost the events of a report. *)
Lemma reg_cleared real s s' fd c :
  ctx_at s fd = Some c -> replaced fd (cleared2 real c) s s' -> forall x y, is_event y ->
  reg s' x y = if decide (x = fd /\ has real y = true) then None else reg s x y.
Proof.
  intros Hc R x y Ey. assert (HR : is_event READ) by (left; reflexivity). assert (HW : is_event WRITE) by (right; reflexivity).
  destruct (decide (x = fd)) as [->|Hne].
  - rewrite (reg_ctx s' fd (cleared2 real c)) by (auto; rewrite (re_ctx _ _ _ _ R), decide_True; auto).
    rewrite (reg_ctx s fd c y Hc Ey). unfold cleared2. rewrite !cleared_ctx by assumption.
    destruct Ey as [-> | ->]; simpl; rewrite ?andb_true_r, ?andb_false_r.
    + destruct (has real READ) eqn:X; [rewrite decide_True by auto|rewrite decide_False by (intros []; congruence)]; reflexivity.
    + destruct (has real WRITE) eqn:X; [rewrite decide_True by auto|rewrite decide_False by (intros []; congruence)]; reflexivity.
  - rewrite decide_False by tauto. unfold reg. rewrite (re_ctx _ _ _ _ R), decide_False by assumption.
    reflexivity.
Qed.

(** The loop body on a report of registered events. *)
Lemma handle_event_run s fd mask c :
  IOInv s -> ctx_at s fd = Some c ->
  let real := real_events mask c in
  (forall y, is_event y -> has real y = true -> is_Some (reg s fd y)) ->
  exists s', handle_event false fd mask s = (s', Ret tt) /\ IOInv s'
    /\ scheduled s' = scheduled s
         ++ (if has real READ then option_list (reg s fd READ) else [])
         ++ (if has real WRITE then option_list (reg s fd WRITE) else [])
    /\ (forall x y, is_event y ->
         reg s' x y = if decide (x = fd /\ has real y = true) then None else reg s x y)
    /\ zlen (m_fdContexts s') = zlen (m_fdContexts s).
Proof.
  intros I Hc real Hsub. pose proof (io_ctx s I fd c Hc) as C. pose proof (co_mask _ _ C) as Mk.
  assert (HR : is_event READ) by (left; reflexivity). assert (HW : is_event WRITE) by (right; reflexivity).
  assert (Hin : forall y, is_event y -> has real y = true ->
            has (events c) y = true /\ is_Some (waiter (ctx_of y c))).
  { intros y Ey Hy. specialize (Hsub y Ey Hy). rewrite (reg_has s fd c y I Hc Ey).
    rewrite (reg_ctx s fd c y Hc Ey) in *. split; [apply bool_decide_eq_true_2|]; assumption. }
  destruct (left_mask (has real READ) (has real WRITE) c Mk) as (L1 & L2 & L3);
    [apply (Hin READ HR)|apply (Hin WRITE HW)|].
  pose proof (real_split mask c) as Hreal. fold real in Hreal. cbv zeta in Hreal.
  rewrite <- Hreal in L1, L3.
  unfold handle_event. cstep (ctx_run s fd c Hc). fold real. unfold NONE. rewrite L3, L1.
  rewrite !(reg_ctx s fd c _ Hc) by assumption.
  destruct (has real READ || has real WRITE) eqn:Hany; cbn [negb].
  2: { apply orb_false_iff in Hany as [XR XW]. exists s. rewrite XR, XW, !app_nil_r.
       split; [reflexivity|]. split; [assumption|]. split; [reflexivity|]. split; [|reflexivity]. intros x y Ey.
       rewrite decide_False; [reflexivity|]. intros [_ Hy]. destruct Ey as [-> | ->]; congruence. }
  fold (cleared2 real c) in *.
  assert (Hnz : (events c =? 0) = false).
  { apply orb_true_iff in Hany as [X|X]; [apply (has_nonzero _ READ), (Hin READ HR X)
                                          |apply (has_nonzero _ WRITE), (Hin WRITE HW X)]. }
  destruct (epoll_run s fd (events c) (events (cleared2 real c)) false) as (s1 & Hrun & H1 & H2 & H3 & H4).
  { rewrite (io_interest s I), Hc. reflexivity. }
  { rewrite Hnz. reflexivity. }
  rewrite Hnz in Hrun. rewrite (co_fd _ _ C). cstep Hrun. cbn [negb].
  destruct (trigger_both real s1 fd c) as (s3 & R3 & A3 & B3 & D3 & P3); [unfold ctx_at in *; rewrite H1; exact Hc|exact Mk| |exact Hin|].
  { rewrite H2, (io_pending s I). apply uwrap_range. lia. }
  exists s3. split; [exact R3|].
  assert (R : replaced fd (cleared2 real c) s s3).
  { eapply (replace_ok s fd c); eauto.
    - apply cleared_ok; [apply cleared_ok|]; assumption.
    - rewrite A3, H1. reflexivity.
    - intros x. rewrite B3. apply H4.
    - rewrite P3, H2, L2. f_equal. lia. }
  split; [apply R|]. split; [rewrite D3, H3; reflexivity|].
  split; [exact (reg_cleared real s s3 fd c Hc R)|apply R].
Qed.

(** An event report hands over exactly the tasks it is for.  When every
    reported event (after the error and hang-up flags are turned into the
    registered ones) is registered, the loop of [idle] takes these entries out
    and schedules their tasks, reader first, and nothing else changes. *)
Theorem handle_event_exact s fd mask c :
  IOInv s -> ctx_at s fd = Some c ->
  let real := real_events mask c in
  (forall y, is_event y -> has real y = true -> is_Some (reg s fd y)) ->
  exists s', handle_event false fd mask s = (s', Ret tt) /\ IOInv s'
    /\ scheduled s' = scheduled s
         ++ (if has real READ then option_list (reg s fd READ) else [])
         ++ (if has real WRITE then option_list (reg s fd WRITE) else [])
    /\ forall x y, is_event y ->
         reg s' x y = if decide (x = fd /\ has real y = true) then None else reg s x y.
Proof.
  intros I Hc real Hsub. destruct (handle_event_run s fd mask c I Hc Hsub) as (s' & H1 & H2 & H3 & H4 & _). eauto.
Qed.

Lemma handle_event_exact_witness :
  exists c, ctx_at demo_io 40 = Some c /\
  exists s', handle_event false 40 (Z.lor EPOLLIN EPOLLHUP) demo_io = (s', Ret tt) /\ IOInv s'
    /\ scheduled s' = [(1%nat, TFiber 7); (1%nat, TCb 9)].
Proof.
  eexists. split; [vm_compute; reflexivity|].
  destruct (handle_event_exact demo_io 40 (Z.lor EPOLLIN EPOLLHUP) (default (FdContext_new 0) (ctx_at demo_io 40)))
    as (s' & H & I' & Hs & _).
  - exact demo_IOInv.
  - vm_compute. reflexivity.
  - intros y [-> | ->] _; vm_compute; eexists; reflexivity.
  - exists s'. split; [exact H|]. split; [exact I'|]. rewrite Hs. vm_compute. reflexivity.
Defined.

Lemma trigger_asserts s fd c ev :
  ctx_at s fd = Some c -> has (events c) ev = false -> triggerEvent fd ev s = (s, Undef AssertFailed).
Proof. intros Hc Hh. unfold triggerEvent. cstep (ctx_run s fd c Hc). by rewrite Hh. Qed.

(** Some reported event is registered and another one is not. *)
Lemma handle_event_stale s fd mask c y :
  IOInv s -> ctx_at s fd = Some c -> (Z.land (events c) (real_events mask c) =? NONE) = false ->
  is_event y -> has (real_events mask c) y = true -> has (events c) y = false ->
  exists s', handle_event false fd mask s = (s', Undef AssertFailed).
Proof.
  intros I Hc Hz Ey Hy Hn. set (real := real_events mask c) in *. pose proof (io_ctx s I fd c Hc) as C.
  assert (Hnz : (events c =? 0) = false) by (destruct (Z.eqb_spec (events c) 0) as [E|]; [by rewrite E in Hz|done]).
  unfold handle_event. cstep (ctx_run s fd c Hc). fold real. rewrite Hz.
  destruct (epoll_run s fd (events c) (Z.land (events c) (Z.lnot real)) false) as (s1 & Hrun & H1 & H2 & _).
  { rewrite (io_interest s I), Hc. reflexivity. }
  { by rewrite Hnz. }
  rewrite Hnz in Hrun. rewrite (co_fd _ _ C). cstep Hrun. cbn [negb].
  assert (Hc1 : ctx_at s1 fd = Some c) by (unfold ctx_at in *; by rewrite H1).
  destruct (has real READ && negb (has (events c) READ)) eqn:HR.
  - apply andb_true_iff in HR as [HR HR2%negb_true_iff]. rewrite HR.
    exists s1. by rewrite (cbind_undef _ _ s1 s1 AssertFailed)
      by (apply cbind_undef, (trigger_asserts s1 fd c READ Hc1 HR2)).
  - assert (Hin : has real READ = true -> has (events c) READ = true)
      by (destruct (has real READ), (has (events c) READ); done).
    assert (y = WRITE) as -> by (destruct Ey as [-> | ->]; [rewrite Hin in Hn by done; done|done]).
    destruct (opt_trigger (has real READ) s1 fd c READ Hc1 (or_introl eq_refl)) as (s2 & E2 & Hctx & _).
    { rewrite H2, (io_pending s I). apply uwrap_range. lia. }
    { intros Hh. split; [auto|]. pose proof (armed_ctx fd c READ C (or_introl eq_refl)) as A. unfold armed in A.
      by rewrite (Hin Hh) in A. }
    cstep E2. rewrite Hy. exists s2. apply cbind_undef.
    apply (trigger_asserts s2 fd _ WRITE (ctx_at_insert s1 s2 fd c _ Hc1 Hctx)).
    unfold cleared. destruct (has real READ); [|exact Hn]. rewrite set_one_events. unfold new_mask.
    rewrite has_clear; [exact Hn|apply C|left; reflexivity|right; reflexivity].
Qed.

(** A report that has become stale aborts the process.  The loop tests
    that some reported event is still registered but then triggers all reported
    events: when [epoll_wait] reported a descriptor readable and writable and
    the writer was removed ([delEvent], [cancelEvent]) before the loop took the
    mutex, the assertion of [triggerEvent] fails. *)
Theorem stale_report_asserts s fd w :
  IOInv s -> reg s fd READ = Some w -> reg s fd WRITE = None ->
  exists s', handle_event false fd (Z.lor EPOLLIN EPOLLOUT) s = (s', Undef AssertFailed).
Proof.
  intros I Hr Hw. assert (HR : is_event READ) by (left; reflexivity).
  assert (HW : is_event WRITE) by (right; reflexivity).
  assert (Hin : exists c, ctx_at s fd = Some c).
  { unfold reg in Hr. destruct (ctx_at s fd); [eauto|discriminate]. }
  destruct Hin as [c Hc]. pose proof (io_ctx s I fd c Hc) as C.
  assert (Hm : events c = READ).
  { pose proof (reg_has s fd c READ I Hc HR) as B1. pose proof (reg_has s fd c WRITE I Hc HW) as B2.
    rewrite Hr in B1. rewrite Hw in B2.
    destruct (co_mask _ _ C) as [E|[E|[E|E]]]; rewrite E in *; try discriminate; reflexivity. }
  apply (handle_event_stale s fd _ c WRITE); try done; by rewrite Hm.
Qed.

Definition demo_stale : IOManager := fst (delEvent false 40 WRITE demo_io).

Lemma stale_report_asserts_witness :
  exists s', handle_event false 40 (Z.lor EPOLLIN EPOLLOUT) demo_stale = (s', Undef AssertFailed).
Proof.
  apply (stale_report_asserts demo_stale 40 (1%nat, TFiber 7)); [|vm_compute; reflexivity..].
  pose proof demo_IOInv as I. destruct (ctx_in demo_io 40) as [c Hc]; [vm_compute; split; congruence|].
  pose proof (del_ok false 40 WRITE demo_io c I Hc (or_intror eq_refl)) as D.
  change (reg demo_io 40 WRITE) with (Some (1%nat, TCb 9)) in D.
  destruct D as (s' & Hrun & I' & _). unfold demo_stale. rewrite Hrun. exact I'.
Defined.

(** [cancelAll] never cancels anything: its guard is inverted (it returns
    when events are registered), and without events the descriptor is not in
    the interest list, so the removal fails. *)
Theorem cancelAll_never_cancels refused s fd :
  IOInv s -> 0 <= fd -> cancelAll refused fd s = (s, Ret false).
Proof.
  intros I Hfd. unfold cancelAll. destruct (Z.le_gt_cases (zlen (m_fdContexts s)) fd).
  - apply lookup_out; assumption.
  - destruct (ctx_in s fd) as [c Hc]; [lia|]. rewrite (lookup_run s fd _ false c I Hc).
    destruct (events c =? 0) eqn:E; cbn [negb]; [|reflexivity].
    assert (Hi : interest s !! fd = None)
      by (rewrite (io_interest s I), Hc; unfold want; rewrite E; reflexivity).
    unfold epoll_ctl. destruct refused; [reflexivity|].
    assert (Hrun : (let! k := cget interest in
      match CTL_DEL, k !! fd with
      | CTL_ADD, None | CTL_MOD, Some _ => cmod (set_interest (<[fd := 0]> k)) ;;; cret true
      | CTL_DEL, Some _ => cmod (set_interest (delete fd k)) ;;; cret true
      | _, _ => cret false
      end) s = (s, Ret false)) by (rewrite cbind_get, Hi; reflexivity).
    rewrite (cbind_ret _ _ _ _ _ Hrun). reflexivity.
Qed.

Lemma cancelAll_never_cancels_witness :
  reg demo_io 40 READ = Some (1%nat, TFiber 7) /\ cancelAll false 40 demo_io = (demo_io, Ret false).
Proof.
  split; [vm_compute; reflexivity|].
  apply (cancelAll_never_cancels false demo_io 40 demo_IOInv). lia.
Defined.

(** The table can shrink.  [addEvent] decides to grow under the read lock
    and calls [contextResize(fd * 1.5)] under the write lock without looking
    again; when another thread grew the table further in between, the contexts
    above are dropped: a registered event is forgotten while epoll still
    watches its descriptor. *)
Theorem grow_race_loses_events s fd1 fd2 ev w :
  IOInv s -> is_event ev -> reg s fd2 ev = Some w -> times_1_5 fd1 <= fd2 ->
  exists s', addEvent_grow fd1 s = (s', Ret tt) /\ reg s' fd2 ev = None
    /\ is_Some (interest s' !! fd2) /\ m_pendingEventCount s' = m_pendingEventCount s.
Proof.
  intros I E Hr Hlt. eexists. split; [reflexivity|].
  assert (Hin : exists c, ctx_at s fd2 = Some c).
  { unfold reg in Hr. destruct (ctx_at s fd2); [eauto|discriminate]. }
  destruct Hin as [c Hc]. split; [|split; [|reflexivity]].
  - unfold reg. assert (Hn : ctx_at (set_ctxs (resize_contexts (times_1_5 fd1) (m_fdContexts s)) s) fd2 = None).
    { unfold ctx_at in *. destruct (Z.ltb_spec fd2 0); [reflexivity|]. simpl.
      apply lookup_ge_None_2. unfold resize_contexts.
      rewrite length_app, length_take, length_map, length_seq.
      apply lookup_lt_Some in Hc. lia. }
    rewrite Hn. reflexivity.
  - simpl. rewrite (io_interest s I), Hc. pose proof (reg_has s fd2 c ev I Hc E) as Hh.
    rewrite Hr in Hh. unfold want. rewrite (has_nonzero _ ev) by (rewrite Hh; reflexivity). eauto.
Qed.

Lemma grow_race_loses_events_witness :
  fst (addEvent_find 32 IOManager_new) = IOManager_new
  /\ snd (addEvent_find 32 IOManager_new) = Ret false
  /\ exists s', addEvent_grow 25 demo_io = (s', Ret tt) /\ reg s' 40 READ = None
       /\ is_Some (interest s' !! 40) /\ m_pendingEventCount s' = m_pendingEventCount demo_io.
Proof.
  split; [reflexivity|]. split; [reflexivity|].
  apply (grow_race_loses_events demo_io 25 40 READ (1%nat, TFiber 7) demo_IOInv);
    [left; reflexivity|vm_compute; reflexivity|vm_compute; congruence].
Defined.

(** The idle loop waits at most three seconds, and no longer than to the
    next timer, for timers less than 2^31 ms away or none at all; but the cast
    [(int)next_timeout] makes the timeout of a timer between 2^31 and 2^32 ms
    away negative, for which [epoll_wait] blocks without limit. *)
Theorem idle_timeout_bounds next :
  (0 <= next < 2 ^ 31 -> idle_timeout next = Z.min next 3000)
  /\ idle_timeout (2 ^ 64 - 1) = 3000
  /\ (2 ^ 31 <= next < 2 ^ 32 -> idle_timeout next < 0).
Proof.
  unfold idle_timeout. split; [|split; [reflexivity|]]; intros H;
    rewrite (proj2 (Z.eqb_neq next (2 ^ 64 - 1))) by lia; cbn [negb].
  - assert (E : i32 next = next).
    { apply swrap_id; [lia|]. unfold s_range. change (2 ^ (32 - 1)) with (2 ^ 31). lia. }
    rewrite E, Z.gtb_ltb. destruct (Z.ltb_spec 3000 next); [rewrite Z.min_r by lia; reflexivity|].
    rewrite E. lia.
  - assert (E : i32 next = next - 2 ^ 32).
    { unfold swrap. change (2 ^ (32 - 1)) with (2 ^ 31).
      rewrite (Z.mod_eq (next + 2 ^ 31) (2 ^ 32)) by lia.
      replace ((next + 2 ^ 31) / 2 ^ 32) with 1; [lia|].
      apply (Z.div_unique _ _ 1 (next + 2 ^ 31 - 2 ^ 32)); lia. }
    rewrite E, Z.gtb_ltb, (proj2 (Z.ltb_ge _ _)) by lia. rewrite E. lia.
Qed.

Lemma idle_timeout_bounds_witness : idle_timeout (2 ^ 31) < 0 /\ idle_timeout 5000 = Z.min 5000 3000.
Proof.
  split.
  - apply (proj2 (proj2 (idle_timeout_bounds (2 ^ 31)))). lia.
  - apply (proj1 (idle_timeout_bounds 5000)). lia.
Defined.
