(* ===== verification/CString.v ===== *)
(** * C strings: the functions of string.h, strings.h and the streams

    A [std::string] is a [string]; its [c_str()] is the characters before the
    first NUL, which is all that [strcmp] and [strcasecmp] see.  A [const char*]
    into a larger buffer is the list of the characters from there to the end of
    the buffer: [strncmp] on it is undefined when it runs past that end.
    [dec] is [operator<<] on an unsigned integer. *)

From Stdlib Require Import ZArith NArith Lia Ascii String List Decimal DecimalString DecimalN.
From stdpp Require Import base list strings sets.
From S2P Require Import Prelude Ordered.

Local Open Scope string_scope.
Local Open Scope Z_scope.

Definition NUL : ascii := "000"%char.

Definition code (c : ascii) : Z := Z.of_N (N_of_ascii c).

(** The characters of [s.c_str()], without the terminator. *)
Fixpoint c_str (s : string) : list ascii :=
  match s with
  | EmptyString => []
  | String c r => if bool_decide (c = NUL) then [] else c :: c_str r
  end.

(** The characters of [s] and of its terminator, as memory. *)
Definition c_mem (s : string) : list ascii := (list_ascii_of_string s ++ [NUL])%list.

(** [tolower] in the C locale, which the program never leaves. *)
Definition tolower (c : ascii) : Z :=
  if (65 <=? code c) && (code c <=? 90) then code c + 32 else code c.

Definition folded (s : string) : list Z := tolower <$> c_str s.

Fixpoint casecmp (a b : list Z) : Z :=
  match a, b with
  | [], [] => 0
  | [], y :: _ => 0 - y
  | x :: _, [] => x - 0
  | x :: a', y :: b' => if x =? y then casecmp a' b' else x - y
  end.

Definition strcasecmp (s t : string) : Z := casecmp (folded s) (folded t).

(** [strcmp(s, t) == 0]. *)
Definition strcmp_eq (s t : string) : bool := bool_decide (c_str s = c_str t).

(** [strncmp(a, b, n)] on memory. *)
Fixpoint strncmp (n : nat) (a b : list ascii) : outcome Z :=
  match n with
  | O => Ret 0
  | S n' =>
      match a, b with
      | x :: a', y :: b' =>
          if bool_decide (x = y)
          then if bool_decide (x = NUL) then Ret 0 else strncmp n' a' b'
          else Ret (code x - code y)
      | _, _ => Undef OutOfBounds
      end
  end.

(** [std::string(at, length)] from memory. *)
Definition string_of_mem (at_ : list ascii) (len : nat) : string :=
  string_of_list_ascii (take len at_).

Definition is_digit (c : ascii) : bool := (48 <=? code c) && (code c <=? 57).

(** [atoi] on memory: the digits from the pointer on; undefined at the end of the memory. *)
Fixpoint atoi_digits (acc : Z) (m : list ascii) : outcome Z :=
  match m with
  | [] => Undef OutOfBounds
  | c :: r => if is_digit c then atoi_digits (acc * 10 + (code c - 48)) r else Ret acc
  end.

Definition is_space (c : ascii) : bool := (code c =? 32) || ((9 <=? code c) && (code c <=? 13)).

Fixpoint strtol (m : list ascii) : outcome Z :=
  match m with
  | [] => Undef OutOfBounds
  | c :: r =>
      if is_space c then strtol r
      else if code c =? 45 then obind (atoi_digits 0 r) (fun n => Ret (- n))
      else if code c =? 43 then atoi_digits 0 r
      else atoi_digits 0 m
  end.

(** [(int)strtol(s, NULL, 10)], where [strtol] is clamped to 64 bits. *)
Definition atoi (m : list ascii) : outcome Z :=
  obind (strtol m) (fun n => Ret (i32 (Z.max (- 2 ^ 63) (Z.min n (2 ^ 63 - 1))))).

Definition dec (n : Z) : string := NilEmpty.string_of_uint (N.to_uint (Z.to_N n)).

Definition CRLF : string := String "013" (String "010" "").

Definition slength (s : string) : Z := Z.of_nat (String.length s).

(** ** The case-insensitive order *)

Lemma code_inj a b : code a = code b -> a = b.
Proof.
  unfold code. intros H. rewrite <- (ascii_N_embedding a), <- (ascii_N_embedding b).
  f_equal. lia.
Qed.

Lemma code_range c : 0 <= code c < 256.
Proof. unfold code. pose proof (N_ascii_bounded c). lia. Qed.

Lemma tolower_pos c : c <> NUL -> 0 < tolower c.
Proof.
  intros H. pose proof (code_range c). unfold tolower.
  assert (code c <> 0) by (intros E; apply H, code_inj; exact E).
  destruct (_ && _); lia.
Qed.

Lemma folded_pos s : Forall (fun x => 0 < x) (folded s).
Proof.
  unfold folded. induction s as [|c r IH]; simpl; [constructor|].
  case_bool_decide as Hc; simpl; constructor; [apply tolower_pos|]; assumption.
Qed.

Lemma casecmp_refl a : casecmp a a = 0.
Proof. induction a as [|x a IH]; simpl; [reflexivity|]. rewrite Z.eqb_refl. assumption. Qed.

Lemma casecmp_eq a b :
  Forall (fun x => 0 < x) a -> Forall (fun x => 0 < x) b -> casecmp a b = 0 -> a = b.
Proof.
  revert b. induction a as [|x a IH]; intros [|y b] Ha Hb; simpl; try reflexivity;
    inversion Ha; inversion Hb; subst; try lia.
  destruct (Z.eqb_spec x y) as [->|]; [|lia]. intros. f_equal. auto.
Qed.

Lemma casecmp_trans a b c :
  Forall (fun x => 0 < x) a -> Forall (fun x => 0 < x) b -> Forall (fun x => 0 < x) c ->
  casecmp a b < 0 -> casecmp b c < 0 -> casecmp a c < 0.
Proof.
  revert b c. induction a as [|x a IH]; intros [|y b] [|z c] Ha Hb Hc; simpl;
    inversion Ha; inversion Hb; inversion Hc; subst; try lia.
  destruct (Z.eqb_spec x y), (Z.eqb_spec y z), (Z.eqb_spec x z); subst; try lia.
  intros. apply (IH b c); assumption.
Qed.

Lemma casecmp_total a b :
  Forall (fun x => 0 < x) a -> Forall (fun x => 0 < x) b ->
  casecmp a b < 0 \/ a = b \/ casecmp b a < 0.
Proof.
  revert b. induction a as [|x a IH]; intros [|y b] Ha Hb; simpl;
    inversion Ha; inversion Hb; subst; try (right; left; reflexivity); try lia.
  destruct (Z.eqb_spec x y) as [->|]; [|destruct (Z.eqb_spec y x); lia].
  rewrite Z.eqb_refl. destruct (IH b) as [|[->|]]; auto.
Qed.

Lemma casecmp_irrefl_lt a b : casecmp a b < 0 -> a <> b.
Proof. intros H ->. rewrite casecmp_refl in H. lia. Qed.

Lemma strcasecmp_eq s t : strcasecmp s t = 0 <-> folded s = folded t.
Proof.
  unfold strcasecmp. split; [apply casecmp_eq; apply folded_pos|].
  intros ->. apply casecmp_refl.
Qed.

(** ** Memory comparison *)

Lemma strncmp_prefix (l m : list ascii) tl n :
  NUL ∉ l -> n = List.length l -> strncmp n (l ++ tl)%list (l ++ m)%list = Ret 0.
Proof.
  intros Hn ->. induction l as [|c l IH]; simpl; [reflexivity|].
  rewrite !bool_decide_eq_true_2 by reflexivity.
  rewrite bool_decide_eq_false_2 by set_solver. apply IH. set_solver.
Qed.

(** A literal that matches is a prefix of the memory. *)
Lemma strncmp_zero (l m : list ascii) tl n :
  NUL ∉ l -> n = List.length l -> strncmp n (l ++ tl)%list m = Ret 0 -> exists r, m = (l ++ r)%list.
Proof.
  intros Hn ->. revert m. induction l as [|c l IH]; intros m; simpl; [eauto|].
  destruct m as [|y m]; [discriminate|]. case_bool_decide as Hc.
  - subst y. rewrite bool_decide_eq_false_2 by set_solver. intros H.
    destruct (IH ltac:(set_solver) m H) as [r ->]. exists r. reflexivity.
  - intros H. injection H as H. exfalso. apply Hc, code_inj. lia.
Qed.

(** ** Text *)

Lemma append_cons c (s t : string) : String c s ++ t = String c (s ++ t).
Proof. reflexivity. Qed.

Lemma append_nil_l (s : string) : "" ++ s = s.
Proof. reflexivity. Qed.

Lemma append_nil_r s : s ++ "" = s.
Proof. induction s as [|c s IH]; [reflexivity|]. rewrite append_cons, IH. reflexivity. Qed.

Lemma append_assoc (s t u : string) : (s ++ t) ++ u = s ++ (t ++ u).
Proof. induction s as [|c s IH]; [reflexivity|]. rewrite !append_cons, IH. reflexivity. Qed.

Lemma append_inj_l (s t u : string) : s ++ t = s ++ u -> t = u.
Proof.
  induction s as [|c s IH]; [auto|]. rewrite !append_cons. intros H. injection H. exact IH.
Qed.

Lemma length_append (s t : string) :
  String.length (s ++ t) = (String.length s + String.length t)%nat.
Proof. induction s as [|c s IH]; [reflexivity|]. rewrite append_cons. simpl. rewrite IH. reflexivity. Qed.

Lemma chars_append (s t : string) :
  list_ascii_of_string (s ++ t) = (list_ascii_of_string s ++ list_ascii_of_string t)%list.
Proof. induction s as [|c s IH]; simpl; [reflexivity|]. rewrite <- IH. reflexivity. Qed.

Lemma slength_append (s t : string) : slength (s ++ t) = slength s + slength t.
Proof. unfold slength. rewrite length_append. lia. Qed.

Lemma dec_inj n m : 0 <= n -> 0 <= m -> dec n = dec m -> n = m.
Proof.
  unfold dec. intros Hn Hm H. apply (f_equal NilEmpty.uint_of_string) in H.
  rewrite !NilEmpty.usu in H. injection H as H. apply (f_equal N.of_uint) in H.
  rewrite !DecimalN.Unsigned.of_to in H. lia.
Qed.

(** The characters of a decimal numeral are digits. *)

Fixpoint string_all (P : ascii -> bool) (s : string) : bool :=
  match s with EmptyString => true | String c r => P c && string_all P r end.

Lemma dec_nonempty n : dec n <> ""%string.
Proof.
  unfold dec. destruct (Z.to_N n) as [|p]; [discriminate|]. simpl. intros E.
  assert (H : NilEmpty.uint_of_string (NilEmpty.string_of_uint (Pos.to_uint p)) = Some Nil) by (rewrite E; reflexivity).
  rewrite NilEmpty.usu in H. injection H as H. exact (DecimalPos.Unsigned.to_uint_nonnil p H).
Qed.

Lemma dec_digits n : string_all is_digit (dec n) = true.
Proof.
  unfold dec. generalize (N.to_uint (Z.to_N n)). intros u.
  induction u; simpl; rewrite ?IHu; reflexivity.
Qed.

Lemma string_all_app P (s t : string) : string_all P (s ++ t) = string_all P s && string_all P t.
Proof.
  induction s as [|c s IH]; [reflexivity|]. rewrite append_cons. simpl.
  rewrite IH, andb_assoc. reflexivity.
Qed.

Lemma string_all_impl (P Q : ascii -> bool) (s : string) :
  (forall c, P c = true -> Q c = true) -> string_all P s = true -> string_all Q s = true.
Proof.
  intros H. induction s as [|c s IH]; simpl; [auto|].
  rewrite !andb_true_iff. intros [? ?]. auto.
Qed.

#[export] Hint Resolve folded_pos : sylar.
#[export] Hint Rewrite append_cons append_nil_l append_nil_r append_assoc : sylar.
