(* ===== verification/Thread.v ===== *)
(** * Threads (sylar/thread.h, sylar/thread.cpp)

    A thread that creates a [Thread] object and the new thread, which runs
    [Thread::run] on the same object, as two interleaved processes.  The object
    is gone after its destructor, and after a constructor that threw; an access
    to it then is a fault.  The results of the pthread calls are arguments of
    the steps. *)

From Stdlib Require Import ZArith Lia Ascii String.
From stdpp Require Import base list strings.
From S2P Require Import Prelude CString Mutex.

Local Open Scope string_scope.
Local Open Scope Z_scope.
Local Open Scope cpp_scope.

(** ** The thread-local variables and the static functions *)

(** [t_thread] (the address of the object, here its only name) and
    [t_thread_name]. *)
Record Locals := mkLocals { t_thread : option nat; t_thread_name : string }.

Definition Locals_init : Locals := mkLocals None "UNKNOW".

Definition GetThis : M Locals (option nat) := cget t_thread.
Definition GetName : M Locals string := cget t_thread_name.

Definition SetName (name : string) : M Locals unit :=
  if bool_decide (name = "") then cret tt
  else
    (let! t := GetThis in
     match t with
     | Some _ => cmod (fun l => mkLocals (t_thread l) name)
     | None => cret tt
     end) ;;;
    cmod (fun l => mkLocals (t_thread l) name).

(** ** The object and the two processes *)
Section thread.
Context {C : Type}.

Record Thread := mkThread {
  m_id : Z;
  m_thread : Z;
  m_cb : option C;
  m_name : string;
  m_semaphore : Z
}.

(** Where the creator is: in the constructor before [pthread_create], in the
    wait at its end, after it, after an exception of it, after the destructor. *)
Inductive cpc := CStart | CWait | CLive | CThrown | CGone.

(** Where [run] is: the statement it is about to execute. *)
Inductive rpc :=
  | RNone | RThis | RName | RId | RKernelName | RSwap | RNotify | RCall | RRunning | RDone.

Record Sys := mkSys {
  obj : option Thread;
  creator : cpc;
  runner : rpc;
  locals : Locals;
  kernel_name : option (list ascii);
  cb : option C;
  ran : list C;
  joined : bool;
  detached : bool
}.

Definition set_obj o s := mkSys o (creator s) (runner s) (locals s) (kernel_name s) (cb s) (ran s)
  (joined s) (detached s).
Definition set_creator c s := mkSys (obj s) c (runner s) (locals s) (kernel_name s) (cb s) (ran s)
  (joined s) (detached s).
Definition set_runner r s := mkSys (obj s) (creator s) r (locals s) (kernel_name s) (cb s) (ran s)
  (joined s) (detached s).
Definition set_locals l s := mkSys (obj s) (creator s) (runner s) l (kernel_name s) (cb s) (ran s)
  (joined s) (detached s).
Definition set_kernel_name k s := mkSys (obj s) (creator s) (runner s) (locals s) (Some k) (cb s)
  (ran s) (joined s) (detached s).
Definition set_cb c s := mkSys (obj s) (creator s) (runner s) (locals s) (kernel_name s) c (ran s)
  (joined s) (detached s).
Definition add_ran c s := mkSys (obj s) (creator s) (runner s) (locals s) (kernel_name s) (cb s)
  (ran s ++ [c])%list (joined s) (detached s).
Definition set_joined s := mkSys (obj s) (creator s) (runner s) (locals s) (kernel_name s) (cb s)
  (ran s) true (detached s).
Definition set_detached s := mkSys (obj s) (creator s) (runner s) (locals s) (kernel_name s) (cb s)
  (ran s) (joined s) true.

(** The members of the object, through [this] or [thread]. *)
Definition this : M Sys Thread :=
  let! o := cget obj in
  match o with Some t => cret t | None => cundef UseAfterFree end.

Definition upd (f : Thread -> Thread) : M Sys unit :=
  let! t := this in cmod (set_obj (Some (f t))).

Definition with_id i t := mkThread i (m_thread t) (m_cb t) (m_name t) (m_semaphore t).
Definition with_thread h t := mkThread (m_id t) h (m_cb t) (m_name t) (m_semaphore t).
Definition with_cb c t := mkThread (m_id t) (m_thread t) c (m_name t) (m_semaphore t).
Definition with_sem n t := mkThread (m_id t) (m_thread t) (m_cb t) (m_name t) n.

(** A call on the semaphore of the object. *)
Definition on_sem {A} (m : M Z A) : M Sys A :=
  let! t := this in
  let '(n, r) := m (m_semaphore t) in
  cmod (set_obj (Some (with_sem n t))) ;;; lift r.

Definition getId : M Sys Z := let! t := this in cret (m_id t).
Definition getName : M Sys string := let! t := this in cret (m_name t).

(** ** The constructor *)

(** The initialisers and the default name. *)
Definition Thread_init (f : option C) (name : string) : Sys :=
  mkSys (Some (mkThread (-1) 0 f (if bool_decide (name = "") then "UNKNOW" else name) 0))
    CStart RNone Locals_init None None [] false false.

(** An exception leaves the constructor: the members are destroyed and the
    storage is given back; the destructor of [Thread] does not run. *)
Definition throw_out : M Sys unit :=
  cmod (fun s => set_creator CThrown (set_obj None s)) ;;; cthrow LogicError.

(** [pthread_create] with result [rt] and handle [h]. *)
Definition Thread_create (rt h : Z) : M Sys unit :=
  if negb (rt =? 0) then throw_out
  else
    upd (with_thread h) ;;;
    cmod (fun s => set_creator CWait (set_runner RThis s)).

(** One attempt of [m_semaphore.wait()]. *)
Definition Thread_wait (interrupted : bool) : M Sys unit := fun s =>
  match on_sem (Semaphore.wait interrupted) s with
  | (s', Ret true) => (set_creator CLive s', Ret tt)
  | (s', Ret false) => (s', Ret tt)
  | (s', Throw _) => throw_out s'
  | (s', Undef f) => (s', Undef f)
  end.

(** ** [join] and the destructor *)

(** [pthread_join] fails with [rt], or returns 0 once the thread is over. *)
Definition join (rt : Z) : M Sys unit :=
  let! t := this in
  if negb (m_thread t =? 0) then
    if negb (rt =? 0) then cthrow LogicError
    else
      let! r := cget runner in
      match r with
      | RDone => cmod set_joined ;;; upd (with_thread 0)
      | _ => cret tt
      end
  else cret tt.

Definition Thread_delete : M Sys unit :=
  let! t := this in
  (if negb (m_thread t =? 0) then cmod set_detached else cret tt) ;;;
  cmod (fun s => set_creator CGone (set_obj None s)).

(** ** [run], a statement at a time

    [tid] is what [GetThreadId] returns in the new thread. *)
Definition run_locals {A} (m : M Locals A) : M Sys A := fun s =>
  let '(l, r) := m (locals s) in (set_locals l s, r).

Definition run_step (tid : Z) : M Sys unit :=
  let! r := cget runner in
  match r with
  | RNone | RDone => cret tt
  | RThis =>
      run_locals (cmod (fun l => mkLocals (Some 0%nat) (t_thread_name l))) ;;;
      cmod (set_runner RName)
  | RName =>
      let! t := this in
      run_locals (cmod (fun l => mkLocals (t_thread l) (m_name t))) ;;;
      cmod (set_runner RId)
  | RId => upd (with_id tid) ;;; cmod (set_runner RKernelName)
  | RKernelName =>
      let! t := this in
      cmod (set_kernel_name (c_str (substring 0 15 (m_name t)))) ;;;
      cmod (set_runner RSwap)
  | RSwap =>
      let! t := this in
      let! c := cget cb in
      cmod (set_cb (m_cb t)) ;;; upd (with_cb c) ;;; cmod (set_runner RNotify)
  | RNotify => on_sem Semaphore.notify ;;; cmod (set_runner RCall)
  | RCall =>
      let! c := cget cb in
      match c with
      | Some f => cmod (add_ran f) ;;; cmod (set_runner RRunning)
      | None => cundef Terminated
      end
  | RRunning => cmod (set_runner RDone)
  end.

(** ** Interleavings *)
Inductive event :=
  | ECreate (rt h : Z)
  | EWait (interrupted : bool)
  | EJoin (rt : Z)
  | EDelete
  | ERun.

Definition perform (tid : Z) (e : event) : M Sys unit :=
  match e with
  | ECreate rt h => Thread_create rt h
  | EWait b => Thread_wait b
  | EJoin rt => join rt
  | EDelete => Thread_delete
  | ERun => run_step tid
  end.

(** The creator calls in the order of its program; a thread that was created
    has a handle. *)
Definition enabled (e : event) (s : Sys) : bool :=
  match e, creator s with
  | ECreate rt h, CStart => negb (rt =? 0) || negb (h =? 0)
  | EWait _, CWait => true
  | EJoin _, CLive => true
  | EDelete, CLive => true
  | ERun, _ => true
  | _, _ => false
  end.

(** Whether a signal may interrupt the wait of the constructor. *)
Definition permitted (signals : bool) (e : event) : bool :=
  match e with EWait true => signals | _ => true end.

(** The states of all runs, with or without such signals. *)
Inductive reachable (signals : bool) (tid : Z) (f : option C) (name : string) : Sys -> Prop :=
  | reach_init : reachable signals tid f name (Thread_init f name)
  | reach_step s e s' r :
      reachable signals tid f name s -> enabled e s -> permitted signals e ->
      perform tid e s = (s', r) -> reachable signals tid f name s'.

Fixpoint performs (tid : Z) (es : list event) (s : Sys) : Sys * outcome unit :=
  match es with
  | [] => (s, Ret tt)
  | e :: r =>
      match perform tid e s with
      | (s', Ret _) => performs tid r s'
      | (s', Throw _) => performs tid r s'
      | (s', Undef u) => (s', Undef u)
      end
  end.
End thread.
