(* ===== verification/ThreadSpec.v ===== *)
(** * Starting, joining and destroying a thread

    Every reachable state of the creator and the new thread is one of
    [state_at]: it is determined by where the two are, the handle, and whether
    the thread was joined or detached. *)

From Stdlib Require Import ZArith Lia Ascii String.
From stdpp Require Import base list strings.
From S2P Require Import Prelude CString Mutex Thread.

Local Open Scope string_scope.
Local Open Scope Z_scope.
Local Open Scope cpp_scope.

Section spec.
Context {C : Type} (signals : bool) (tid : Z) (f : C) (name : string).

Definition full_name : string := if bool_decide (name = "") then "UNKNOW" else name.

(** The order of the statements of [run]. *)
Definition pos (r : rpc) : nat :=
  match r with
  | RNone => 0 | RThis => 1 | RName => 2 | RId => 3 | RKernelName => 4 | RSwap => 5
  | RNotify => 6 | RCall => 7 | RRunning => 8 | RDone => 9
  end.

(** [run], at [r], has executed the statement [q]. *)
Definition passed (r q : rpc) : bool := (pos q <? pos r)%nat.

Definition units (c : cpc) (r : rpc) : Z :=
  match c with CWait => if passed r RNotify then 1 else 0 | _ => 0 end.

Definition object_at (c : cpc) (r : rpc) (h : Z) : option (@Thread C) :=
  match c with
  | CThrown | CGone => None
  | _ => Some (mkThread (if passed r RId then tid else -1) h
                 (if passed r RSwap then None else Some f) full_name (units c r))
  end.

Definition locals_at (r : rpc) : Locals :=
  mkLocals (if passed r RThis then Some 0%nat else None)
    (if passed r RName then full_name else "UNKNOW").

Definition state_at (c : cpc) (r : rpc) (h : Z) (j d : bool) : @Sys C :=
  mkSys (object_at c r h) c r (locals_at r)
    (if passed r RKernelName then Some (c_str (substring 0 15 full_name)) else None)
    (if passed r RSwap then Some f else None) (if passed r RCall then [f] else []) j d.

Definition consistent (c : cpc) (r : rpc) (h : Z) (j d : bool) : Prop :=
  match c with
  | CStart => r = RNone /\ h = 0 /\ j = false /\ d = false
  | CThrown => passed r RNotify = false /\ j = false /\ d = false /\ (r <> RNone -> signals = true)
  | CWait => r <> RNone /\ h <> 0 /\ j = false /\ d = false
  | CLive => passed r RNotify = true /\ d = false /\
             (if j then h = 0 /\ r = RDone else h <> 0)
  | CGone => passed r RNotify = true /\ d = negb j /\ (j = true -> r = RDone)
  end.

Definition thread_ok (s : Sys) : Prop :=
  exists c r h j d, s = state_at c r h j d /\ consistent c r h j d.

Lemma thread_init_ok : thread_ok (Thread_init (Some f) name).
Proof. by exists CStart, RNone, 0, false, false. Qed.

(** The constructor threw after it had started the thread, which is now before
    a statement of [run] that uses the object. *)
Definition dangling (s : @Sys C) : Prop :=
  creator s = CThrown /\ passed (runner s) RThis = true /\ passed (runner s) RNotify = false.

(** A step leads to a consistent state without a fault. *)
Definition good (x : Sys * outcome unit) : Prop :=
  thread_ok x.1 /\ forall u, x.2 <> Undef u.

Lemma good_at h s o :
  s = state_at (creator s) (runner s) h (joined s) (detached s) ->
  consistent (creator s) (runner s) h (joined s) (detached s) ->
  (forall u, o <> Undef u) -> good (s, o).
Proof. intros E Hc Ho. split; [|done]. rewrite E. by eexists _, _, _, _, _. Qed.

(** [settle h]: the step has been computed; the state is the one of its place. *)
Ltac settle h :=
  cbn -[c_str substring]; apply (good_at h); [reflexivity|cbn; naive_solver|done].

Lemma Thread_create_ok rt h0 h j d :
  consistent CStart RNone h j d -> negb (rt =? 0) || negb (h0 =? 0) ->
  good (Thread_create rt h0 (state_at CStart RNone h j d)).
Proof.
  intros (_ & -> & -> & ->) He. unfold Thread_create. destruct (rt =? 0); simpl in *.
  - destruct (Z.eqb_spec h0 0); [done|]. settle h0.
  - settle 0.
Qed.

Lemma Thread_wait_ok b r h j d :
  consistent CWait r h j d -> permitted signals (EWait b) -> good (Thread_wait b (state_at CWait r h j d)).
Proof.
  intros (Hr & Hh & -> & ->) Hp. destruct r, b; try done; try (settle h).
  all: simpl in Hp; cbn -[c_str substring]; apply (good_at h); [reflexivity| |done].
  all: cbn; apply Is_true_true in Hp; naive_solver.
Qed.

Lemma thread_join_ok rt r h j d :
  consistent CLive r h j d -> good (join rt (state_at CLive r h j d)).
Proof.
  intros (Hr & -> & Hj). unfold join. cbn -[c_str substring].
  destruct (Z.eqb_spec h 0) as [->|Hh]; cbn -[c_str substring].
  { destruct j; [|done]. settle 0. }
  destruct j; [by destruct Hj|]. destruct (rt =? 0); cbn -[c_str substring]; [|settle h].
  destruct r; try discriminate Hr; cbn -[c_str substring];
    first [settle h | settle 0].
Qed.

Lemma Thread_delete_ok r h j d :
  consistent CLive r h j d -> good (Thread_delete (state_at CLive r h j d)).
Proof.
  intros (Hr & -> & Hj). unfold Thread_delete. cbn -[c_str substring].
  destruct j; [destruct Hj as [-> ->]; settle 0|].
  apply Z.eqb_neq in Hj. rewrite Hj. settle h.
Qed.

Lemma run_step_ok c r h j d :
  consistent c r h j d -> ~ dangling (state_at c r h j d) -> good (run_step tid (state_at c r h j d)).
Proof.
  intros Hc Hd. destruct c, r, j; cbn in Hc; destruct_and?; try done; subst;
    first [settle h | settle 0 | by destruct Hd].
Qed.

Lemma dangling_faults s :
  thread_ok s -> dangling s -> run_step tid s = (s, Undef UseAfterFree).
Proof.
  intros (c & r & h & j & d & -> & Hc) (Ec & H1 & H2). simpl in Ec, H1, H2. subst c.
  by destruct r.
Qed.

Lemma dangling_signals s : thread_ok s -> dangling s -> signals = true.
Proof.
  intros (c & r & h & j & d & -> & Hc) (Ec & H1 & _). simpl in Ec, H1. subst c.
  apply Hc. by intros ->.
Qed.

Lemma thread_perform_ok e s :
  thread_ok s -> enabled e s -> permitted signals e -> ~ (e = ERun /\ dangling s) ->
  good (perform tid e s).
Proof.
  intros (c & r & h & j & d & -> & Hc) He Hu Hd.
  destruct e as [rt h0|b|rt| |], c; try contradiction; simpl.
  all: try (apply run_step_ok; [done|intros ?; by apply Hd]).
  - pose proof Hc as (-> & _). by apply Thread_create_ok.
  - by apply Thread_wait_ok.
  - by apply thread_join_ok.
  - by apply Thread_delete_ok.
Qed.

Lemma dangling_dec s : dangling s \/ ~ dangling s.
Proof.
  unfold dangling. destruct (creator s), (passed (runner s) RThis), (passed (runner s) RNotify);
    naive_solver.
Qed.

Lemma thread_reachable_ok s : reachable signals tid (Some f) name s -> thread_ok s.
Proof.
  induction 1 as [|s e s' r _ IH He Hu E]; [apply thread_init_ok|].
  destruct (dangling_dec s) as [Hd|Hd].
  - destruct e as [rt h0|b|rt| |]; try (destruct Hd as [Ec _]; simpl in He; by rewrite Ec in He).
    simpl in E. rewrite (dangling_faults s IH Hd) in E. by simplify_eq.
  - destruct (thread_perform_ok e s IH He Hu (fun H => Hd (proj2 H))) as [Hok _]. by rewrite E in Hok.
Qed.

(** In every interleaving of the creator and the new thread one step is
    undefined: a statement of [run] that uses the object after a signal made the
    constructor throw.  Otherwise [run] is done with the object when the
    constructor lets the creator go, so that the object may be destroyed at any
    time after that. *)
Lemma thread_faults s e u :
  reachable signals tid (Some f) name s -> enabled e s -> permitted signals e ->
  ((perform tid e s).2 = Undef u <-> u = UseAfterFree /\ e = ERun /\ dangling s).
Proof.
  intros Hok%thread_reachable_ok He Hu. split.
  - intros E. destruct (dangling_dec s) as [Hd|Hd].
    + destruct e as [rt h0|b|rt| |]; try (destruct Hd as [Ec _]; simpl in He; by rewrite Ec in He).
      simpl in E. rewrite (dangling_faults s Hok Hd) in E. simpl in E. by simplify_eq.
    + destruct (thread_perform_ok e s Hok He Hu (fun H => Hd (proj2 H))) as [_ Hn]. by destruct (Hn u).
  - intros (-> & -> & Hd). simpl. by rewrite (dangling_faults s Hok Hd).
Qed.

(** When the constructor has returned, the object has the kernel's id of
    the new thread and no longer the callback, the thread-local pointer and
    name of the new thread are set, and the kernel knows it by the first 15
    characters of the name. *)
Lemma constructor_handshake s :
  reachable signals tid (Some f) name s -> creator s = CLive ->
  exists t, obj s = Some t /\ m_id t = tid /\ m_cb t = None /\ m_name t = full_name /\
    cb s = Some f /\ locals s = mkLocals (Some 0%nat) full_name /\
    kernel_name s = Some (c_str (substring 0 15 full_name)).
Proof.
  intros (c & r & h & j & d & -> & Hc)%thread_reachable_ok Hl. simpl in Hl. subst c.
  destruct Hc as (Hr & _). destruct r; try discriminate Hr; by eexists.
Qed.

(** The callback is called at most once; a thread that was joined has
    called it exactly once and is over; and a destroyed object has given up its
    thread exactly once, by [join] or by [pthread_detach]. *)
Lemma callback_once s :
  reachable signals tid (Some f) name s ->
  (ran s = [] \/ ran s = [f]) /\
  (joined s = true -> runner s = RDone /\ ran s = [f]) /\
  (creator s = CGone -> detached s = negb (joined s)).
Proof.
  intros (c & r & h & j & d & -> & Hc)%thread_reachable_ok. simpl. split; [|split].
  - destruct (passed r RCall); auto.
  - intros ->. destruct c; simpl in Hc; naive_solver.
  - intros ->. simpl in Hc. naive_solver.
Qed.

(** The statements of [run] from [r] to the notification. *)
Definition to_notify (r : rpc) : nat := 7 - pos r.

Lemma run_to_notify r h :
  r <> RNone -> exists r', passed r' RNotify = true /\
  performs tid (replicate (to_notify r) ERun) (state_at CWait r h false false)
  = (state_at CWait r' h false false, Ret tt).
Proof.
  intros Hr. destruct r; [done|..];
    first [by exists RCall | by exists RRunning | by exists RDone].
Qed.

Lemma performs_app es1 es2 (s s1 : @Sys C) :
  performs tid es1 s = (s1, Ret tt) -> performs tid (es1 ++ es2)%list s = performs tid es2 s1.
Proof.
  revert s. induction es1 as [|e es1 IH]; intros s; simpl; [by intros [= <-]|].
  destruct (perform tid e s) as [s' [u|u|u]]; auto. discriminate.
Qed.

(** The constructor does not hang: from every state in which it waits, at
    most six statements of the new thread and one more attempt let it
    return. *)
Lemma constructor_returns s :
  reachable signals tid (Some f) name s -> creator s = CWait ->
  exists n, (n <= 6)%nat /\
    creator (performs tid (replicate n ERun ++ [EWait false])%list s).1 = CLive.
Proof.
  intros (c & r & h & j & d & -> & Hc)%thread_reachable_ok Hl. simpl in Hl. subst c.
  destruct Hc as (Hr & Hh & -> & ->). exists (to_notify r). split.
  { destruct r; try done; unfold to_notify; simpl; lia. }
  destruct (run_to_notify r h Hr) as (r' & Hr' & E). rewrite (performs_app _ _ _ _ E).
  by destruct r'; try discriminate Hr'.
Qed.

(** C4: in every interleaving of the creator and the new thread: a step is
    undefined exactly when it is a statement of [run] that uses the object after
    the constructor threw with the thread running, which takes a signal that
    interrupts the constructor's wait; without such signals no step is
    undefined, and the object may be destroyed at any time after the constructor
    returned.  A constructor that has returned leaves the object with the
    kernel's id, without the callback, and the thread with its pointer and its
    names; the callback is called at most once, exactly once before a [join]
    returns, and a destroyed object has given its thread up exactly once; and a
    constructor that waits returns after at most six statements of the new thread
    and one more attempt that no signal interrupts. *)
Theorem thread_life s :
  reachable signals tid (Some f) name s ->
  (forall e u, enabled e s -> permitted signals e ->
     ((perform tid e s).2 = Undef u <-> u = UseAfterFree /\ e = ERun /\ dangling s)) /\
  (dangling s -> signals = true) /\
  (creator s = CLive ->
     exists t, obj s = Some t /\ m_id t = tid /\ m_cb t = None /\ m_name t = full_name /\
       cb s = Some f /\ locals s = mkLocals (Some 0%nat) full_name /\
       kernel_name s = Some (c_str (substring 0 15 full_name))) /\
  ((ran s = [] \/ ran s = [f]) /\ (joined s = true -> runner s = RDone /\ ran s = [f]) /\
   (creator s = CGone -> detached s = negb (joined s))) /\
  (creator s = CWait -> exists n, (n <= 6)%nat /\
     creator (performs tid (replicate n ERun ++ [EWait false])%list s).1 = CLive).
Proof.
  intros Hr. split; [|split; [|split; [|split]]].
  - intros e u. by apply thread_faults.
  - by apply dangling_signals, thread_reachable_ok.
  - by apply constructor_handshake.
  - by apply callback_once.
  - by apply constructor_returns.
Qed.
End spec.

(** ** The name given to the kernel *)

Lemma c_str_length s : (length (c_str s) <= String.length s)%nat.
Proof. induction s as [|c s IH]; simpl; [lia|]. case_bool_decide; simpl; lia. Qed.

Lemma substring_0_length n s : (String.length (substring 0 n s) <= n)%nat.
Proof. revert s. induction n as [|n IH]; intros [|c s]; simpl; try lia. specialize (IH s). lia. Qed.

(** The name passed to [pthread_setname_np] fits its 16 bytes with the
    terminator, so that the call is not refused for its length. *)
Lemma kernel_name_fits s : (length (c_str (substring 0 15 s)) + 1 <= 16)%nat.
Proof.
  pose proof (c_str_length (substring 0 15 s)). pose proof (substring_0_length 15 s). lia.
Qed.

(** ** [SetName] *)

(** [SetName] renames the thread for [GetName] only: an empty name changes
    nothing, and the pointer stays. *)
Lemma SetName_spec n l :
  SetName n l = (if bool_decide (n = "") then l else mkLocals (t_thread l) n, Ret tt).
Proof. unfold SetName. case_bool_decide; [done|]. by destruct l as [[]]. Qed.

(** ** A signal during the wait of the constructor

    The constructor throws after the thread was started: the object is gone,
    the thread is neither joined nor detached, and [run] reads a freed object. *)
Theorem interrupted_wait_dangles (f : nat) :
  let x := performs 77 [ECreate 0 1; EWait true; ERun; ERun] (Thread_init (Some f) "worker") in
  x.2 = Undef UseAfterFree /\ creator x.1 = CThrown /\
  joined x.1 = false /\ detached x.1 = false.
Proof. by repeat split. Qed.

(** ** A thread that is created, runs, is joined and destroyed *)

Lemma performs_reachable {C} signals tid (f : option C) name es s :
  reachable signals tid f name s ->
  (fix ok (es : list event) (s : Sys) : bool :=
     match es with
     | [] => true
     | e :: r => enabled e s && permitted signals e && ok r (perform tid e s).1
     end) es s = true ->
  reachable signals tid f name (fold_left (fun s e => (perform tid e s).1) es s).
Proof.
  revert s. induction es as [|e es IH]; intros s Hr Hl; [done|].
  apply andb_true_iff in Hl as [[He Hu]%andb_true_iff Hl]. simpl. apply IH; [|done].
  destruct (perform tid e s) as [s' r] eqn:E.
  eapply reach_step; [exact Hr|by apply Is_true_true|by apply Is_true_true|exact E].
Qed.

Definition after (es : list event) : @Sys nat :=
  fold_left (fun s e => (perform 77 e s).1) es (Thread_init (Some 5%nat) "io_0").

Definition whole_life : list event :=
  [ECreate 0 1; EWait false; ERun; ERun; ERun; ERun; ERun; ERun; EWait false; ERun; ERun;
   EJoin 0; EDelete].

(** The object is destroyed before the thread ran on; the constructor returns;
    the callback ran before the join; and a signal comes between. *)
Lemma thread_life_witness :
  (forall u, (perform 77 ERun (after (take 9 whole_life ++ [EDelete]))).2 <> Undef u) /\
  (exists n, (n <= 6)%nat /\
    creator (performs 77 (replicate n ERun ++ [EWait false])%list (after (take 3 whole_life))).1
    = CLive) /\
  (let s := after whole_life in joined s = true -> runner s = RDone /\ ran s = [5%nat]) /\
  (perform 77 ERun (after [ECreate 0 1; EWait true; ERun])).2 = Undef UseAfterFree.
Proof.
  split; [|split; [|split]].
  - intros u E. apply (thread_life false 77 5%nat "io_0") in E as (_ & _ & E & _); [discriminate E| |exact I..].
    apply performs_reachable; [apply reach_init|vm_compute; reflexivity].
  - apply (thread_life false 77 5%nat "io_0"); [|vm_compute; reflexivity].
    apply performs_reachable; [apply reach_init|vm_compute; reflexivity].
  - apply (thread_life false 77 5%nat "io_0").
    apply performs_reachable; [apply reach_init|vm_compute; reflexivity].
  - apply (thread_life true 77 5%nat "io_0"); [|exact I..|by repeat split].
    apply performs_reachable; [apply reach_init|vm_compute; reflexivity].
Defined.
