(* ===== verification/SchedulerCaller.v ===== *)
(** * The scheduler and the thread that owns it (sylar/scheduler.h, scheduler.cpp)

    The constructor, [Start], [Stop] and the destructor as the thread of the
    owner executes them, with the members of the class that the loop does not
    use and the thread-local variables of the owner.  With [use_caller] the
    owner is a worker: [Stop] calls the root fiber, whose code is the loop, and
    the thread joins the workers of Scheduler.v until the loop is over.
    [Stop] is cut where it waits: in the loop, and at each [join]. *)

From Stdlib Require Import ZArith Lia String.
From stdpp Require Import base gmap list strings.
From S2P Require Import Prelude CString Mutex Thread Fiber Scheduler.

Local Open Scope Z_scope.
Local Open Scope cpp_scope.

(** Where the owner is: outside, in the loop of the root fiber, or at the joins
    of [Stop] with the threads that are left. *)
Inductive oloc := OOutside | OInLoop | OJoining (thrs : list (string * Z)).

(** [t_scheduler], [o_fiber], [o_threadFiber], [o_main] and [o_hook] are the
    thread-local [t_scheduler], [t_fiber], [t_threadFiber], [t_sheduler_fiber] and
    [t_hook_enable] of the owner's thread; a scheduler is known by a number, this one
    by [this].  A [Thread] of [m_threads] is its name and its id. *)
Record Owned := mkOwned {
  sched : Sched;
  m_name : string;
  m_threadCount : Z;
  m_rootThread : Z;
  m_rootFiber : option nat;
  m_threadIds : list Z;
  m_threads : list (string * Z);
  t_scheduler : option nat;
  o_names : Thread.Locals;
  o_fiber : option nat;
  o_threadFiber : option nat;
  o_main : option nat;
  o_hook : bool;
  o_loc : oloc
}.

Definition this : nat := 0.

Definition set_sched x o := mkOwned x (m_name o) (m_threadCount o) (m_rootThread o) (m_rootFiber o)
  (m_threadIds o) (m_threads o) (t_scheduler o) (o_names o) (o_fiber o) (o_threadFiber o) (o_main o)
  (o_hook o) (o_loc o).
Definition set_count n o := mkOwned (sched o) (m_name o) n (m_rootThread o) (m_rootFiber o)
  (m_threadIds o) (m_threads o) (t_scheduler o) (o_names o) (o_fiber o) (o_threadFiber o) (o_main o)
  (o_hook o) (o_loc o).
Definition set_root t f ids o := mkOwned (sched o) (m_name o) (m_threadCount o) t f
  ids (m_threads o) (t_scheduler o) (o_names o) (o_fiber o) (o_threadFiber o) (o_main o)
  (o_hook o) (o_loc o).
Definition set_thrs ids l o := mkOwned (sched o) (m_name o) (m_threadCount o) (m_rootThread o)
  (m_rootFiber o) ids l (t_scheduler o) (o_names o) (o_fiber o) (o_threadFiber o) (o_main o)
  (o_hook o) (o_loc o).
Definition set_t_scheduler x o := mkOwned (sched o) (m_name o) (m_threadCount o) (m_rootThread o)
  (m_rootFiber o) (m_threadIds o) (m_threads o) x (o_names o) (o_fiber o) (o_threadFiber o)
  (o_main o) (o_hook o) (o_loc o).
Definition set_names l o := mkOwned (sched o) (m_name o) (m_threadCount o) (m_rootThread o)
  (m_rootFiber o) (m_threadIds o) (m_threads o) (t_scheduler o) l (o_fiber o) (o_threadFiber o)
  (o_main o) (o_hook o) (o_loc o).
Definition set_tls f t m o := mkOwned (sched o) (m_name o) (m_threadCount o) (m_rootThread o)
  (m_rootFiber o) (m_threadIds o) (m_threads o) (t_scheduler o) (o_names o) f t m (o_hook o)
  (o_loc o).
Definition set_where w o := mkOwned (sched o) (m_name o) (m_threadCount o) (m_rootThread o)
  (m_rootFiber o) (m_threadIds o) (m_threads o) (t_scheduler o) (o_names o) (o_fiber o)
  (o_threadFiber o) (o_main o) (o_hook o) w.
Definition set_hook h o := mkOwned (sched o) (m_name o) (m_threadCount o) (m_rootThread o)
  (m_rootFiber o) (m_threadIds o) (m_threads o) (t_scheduler o) (o_names o) (o_fiber o)
  (o_threadFiber o) (o_main o) h (o_loc o).

Definition on_sched {A} (m : M Sched A) : M Owned A := fun o =>
  let '(s, r) := m (sched o) in (set_sched s o, r).

(** A fiber operation of the owner outside the loop. *)
Definition owner_view (o : Owned) : FS :=
  mkFS (sfibers (sched o)) (sid (sched o)) (scount (sched o)) (o_fiber o) (o_threadFiber o)
    (o_main o).

Definition put_fibers (fs : FS) (s : Sched) : Sched :=
  mkSched (fibers fs) (s_fiber_id fs) (s_fiber_count fs) (m_fibers s) (m_activeThreadCount s)
    (m_idleThreadCount s) (m_stopping s) (m_autoStop s) (threads s) (trickles s).

Definition on_owner {A} (m : M FS A) : M Owned A := fun o =>
  let '(fs, r) := m (owner_view o) in
  (set_tls (t_fiber fs) (t_threadFiber fs) (t_sheduler_fiber fs)
     (set_sched (put_fibers fs (sched o)) o), r).

Definition on_names {A} (m : M Thread.Locals A) : M Owned A := fun o =>
  let '(l, r) := m (o_names o) in (set_names l o, r).

(** [Scheduler::GetThis] on the owner's thread. *)
Definition GetThis_scheduler : M Owned (option nat) := cget t_scheduler.

(** [Scheduler::GetMainFiber]. *)
Definition GetMainFiber : M Owned (option nat) := cget o_main.

(** [Scheduler::setThis]. *)
Definition setThis : M Owned unit := cmod (set_t_scheduler (Some this)).

(** ** The constructor and the destructor

    [sc] is the scheduler of the thread before, [tid] what [GetThreadId]
    returns. *)
Definition before (name : string) (sc : option nat) (names : Thread.Locals) : Owned :=
  mkOwned Scheduler_new name 0 0 None [] [] sc names None None None false OOutside.

(** The branch of [use_caller]. *)
Definition root_init (config tid : Z) : M Owned unit :=
  on_owner Fiber.GetThis ;;;
  let! sc := GetThis_scheduler in
  cassert (bool_decide (sc = None)) ;;;
  cmod (set_t_scheduler (Some this)) ;;;
  let! r := on_owner (Fiber_new config (Some PRun) 0 true) in
  let! name := cget m_name in
  on_names (Thread.SetName name) ;;;
  cmod (fun o => set_tls (o_fiber o) (o_threadFiber o) (Some r) o) ;;;
  cmod (fun o => set_root tid (Some r) (m_threadIds o ++ [tid]) o).

Definition Scheduler_ctor (config threads : Z) (use_caller : bool) (tid : Z) : M Owned unit :=
  cassert (0 <? threads) ;;;
  (if use_caller then root_init config tid
   else cmod (fun o => set_root (-1) (m_rootFiber o) (m_threadIds o) o)) ;;;
  cmod (set_count (u64 (if use_caller then threads - 1 else threads))).

Definition Scheduler_delete : M Owned unit :=
  let! st := cget (fun o => m_stopping (sched o)) in
  cassert st ;;;
  let! sc := GetThis_scheduler in
  if bool_decide (sc = Some this) then cmod (set_t_scheduler None) else cret tt.

(** ** [Start]

    [ids] are the ids that the kernel gives to the new threads; a thread is at
    the top of the loop when its constructor has returned. *)
Fixpoint start_loop (config : Z) (ids : nat -> Z) (i n : nat) : M Owned unit :=
  match n with
  | O => cret tt
  | S n' =>
      on_sched (run_start config (ids i)) ;;;
      cmod (fun o => set_thrs (m_threadIds o ++ [ids i])
                       (m_threads o ++ [((m_name o ++ "_" ++ dec (Z.of_nat i))%string, ids i)]) o) ;;;
      start_loop config ids (S i) n'
  end.

Definition Start (config : Z) (ids : nat -> Z) : M Owned unit :=
  let! s := cget sched in
  if negb (m_stopping s) then cret tt
  else
    on_sched (cmod (set_flags false (m_autoStop s))) ;;;
    let! thrs := cget m_threads in
    cassert (bool_decide (thrs = [])) ;;;
    let! n := cget m_threadCount in
    start_loop config ids 0 (Z.to_nat n).

(** ** [Stop] *)

Definition set_autoStop : M Owned unit :=
  on_sched (cmod (fun s => set_flags (m_stopping s) true s)).
Definition set_stopping : M Owned unit :=
  on_sched (cmod (fun s => set_flags true (m_autoStop s) s)).

(** The test at the top: nothing was ever started, or all is over. *)
Definition stop_early : M Owned bool :=
  let! root := cget m_rootFiber in
  let! n := cget m_threadCount in
  match root with
  | Some r =>
      if n =? 0 then
        let! st := on_owner (getState r) in
        if bool_decide (st = TERM) || bool_decide (st = INIT)
        then set_stopping ;;; on_sched stopping
        else cret false
      else cret false
  | None => cret false
  end.

(** [thrs.swap(m_threads)]. *)
Definition swap_threads : M Owned unit :=
  cmod (fun o => set_where (OJoining (m_threads o)) (set_thrs (m_threadIds o) [] o)).

(** [m_rootFiber->call()] up to the top of the loop: the beginning of [run] on
    the thread of the owner, which keeps its scheduling fiber. *)
Definition enter_loop (config : Z) (r : nat) : M Owned unit :=
  let! code := on_owner (call r) in
  match code with
  | PRun =>
      cmod (set_hook true) ;;;
      setThis ;;;
      let! i := on_owner (Fiber_new config (Some PIdle) 0 false) in
      let! tid := cget m_rootThread in
      cmod (fun o => set_where OInLoop (set_sched (set_threads
        (<[tid := mkThread LTop None i (o_fiber o) (o_threadFiber o) (o_main o)]>
           (threads (sched o))) (sched o)) o))
  | _ => cundef AssertFailed
  end.

(** [Stop] after the test, up to the place where it waits. *)
Definition stop_workers (config : Z) : M Owned unit :=
  let! rt := cget m_rootThread in
  let! sc := GetThis_scheduler in
  cassert (if negb (rt =? -1) then bool_decide (sc = Some this)
           else negb (bool_decide (sc = Some this))) ;;;
  set_stopping ;;;
  let! n := cget m_threadCount in
  on_sched (Nat.iter (Z.to_nat n) (fun m => trickle ;;; m) (cret tt)) ;;;
  let! root := cget m_rootFiber in
  match root with
  | Some r =>
      on_sched trickle ;;;
      let! b := on_sched stopping in
      if negb b then enter_loop config r else swap_threads
  | None => swap_threads
  end.

Definition Stop (config : Z) : M Owned unit :=
  set_autoStop ;;;
  let! early := stop_early in
  if early then cret tt else stop_workers config.

(** ** The end of [run] *)

(** The locals of [run] are destroyed in reverse order. *)
Definition run_locals_end (tid : Z) : M Sched unit :=
  let! th := thread tid in
  (match th_cb_fiber th with
   | Some c => on_thread tid (Fiber_delete c)
   | None => cret tt
   end) ;;;
  on_thread tid (Fiber_delete (th_idle th)).

(** A worker returns from [run] and the thread is over. *)
Definition worker_end (tid : Z) : M Sched unit :=
  run_locals_end tid ;;;
  cmod (fun s => set_threads (delete tid (threads s)) s).

(** The owner returns from [run] in the root fiber: [CallerMainFunc] ends and
    switches back into [Stop]. *)
Definition root_end : M Owned unit :=
  let! tid := cget m_rootThread in
  on_sched (run_locals_end tid) ;;;
  on_sched (on_thread tid (CallerMainFunc_end true)) ;;;
  let! th := on_sched (thread tid) in
  cmod (fun o => set_tls (th_t_fiber th) (th_threadFiber th) (th_main th)
                   (set_sched (set_threads (delete tid (threads (sched o))) (sched o)) o)) ;;;
  swap_threads.

(** One [join]: it returns when the thread is over; after the last one [Stop]
    returns. *)
Definition join_step : M Owned unit :=
  let! w := cget o_loc in
  match w with
  | OJoining [] => cmod (set_where OOutside)
  | OJoining (th :: rest) =>
      let! s := cget sched in
      match threads s !! th.2 with
      | None => cmod (set_where (OJoining rest))
      | Some _ => cret tt
      end
  | _ => cret tt
  end.
