(* ===== verification/SchedulerCallerSpec.v ===== *)
(** * The life of a scheduler

    The safety argument of SchedulerSafe.v with a thread that is in the loop
    only for a while: the owner, which enters it through the root fiber and
    leaves it, and workers, which leave it at the end.  While the owner is
    outside, its root fiber is protected: no step of the workers touches it. *)

From Stdlib Require Import ZArith Lia String.
From stdpp Require Import base gmap list strings.
From S2P Require Import Prelude CString Mutex Thread Fiber.
From S2P Require Import Scheduler SchedulerSafe SchedulerSpec SchedulerTls SchedulerCaller.

Local Open Scope Z_scope.
Local Open Scope cpp_scope.

(** ** Leaving the loop *)

Lemma Fiber_delete_run f fb s :
  fibers s !! f = Some fb -> m_stack fb = true -> finished (m_state fb) = true ->
  Fiber_delete f s = (set_fibers (delete f (fibers s))
    (set_counters (s_fiber_id s) (u64 (s_fiber_count s - 1)) s), Ret tt).
Proof.
  intros Hf Hs Hd. unfold Fiber_delete. rewrite cbind_mod.
  assert (E : fiber f (set_counters (s_fiber_id s) (u64 (s_fiber_count s - 1)) s)
              = (set_counters (s_fiber_id s) (u64 (s_fiber_count s - 1)) s, Ret fb))
    by (apply fiber_run; exact Hf).
  cstep E. rewrite Hs. by rewrite cbind_assert.
Qed.

(** A deletion by thread [tid] changes the heap and nothing else of it. *)
Lemma on_thread_delete tid th f fb s :
  threads s !! tid = Some th -> sfibers s !! f = Some fb -> m_stack fb = true ->
  finished (m_state fb) = true ->
  exists s', on_thread tid (Fiber_delete f) s = (s', Ret tt) /\
    sfibers s' = delete f (sfibers s) /\ threads s' = threads s /\ m_fibers s' = m_fibers s /\
    flags s' = flags s /\ counters s' = counters s.
Proof.
  intros Ht Hf Hs Hd. eexists. split.
  { apply (on_thread_run tid _ s th); [exact Ht|]. by apply (Fiber_delete_run f fb (view s th)). }
  repeat split. unfold unview. simpl. destruct th. simpl. by apply insert_id.
Qed.

Section leaving.
Context {Pr : Protected}.

(** What belongs to a thread that is past its loop. *)
Lemma exit_owns ro s tid th g :
  SInv ro s -> threads s !! tid = Some th -> th_loc th = LExit -> owner (ro g) = Some tid ->
  isq (ro g) = false /\ (th_cb_fiber th = Some g \/ th_idle th = g \/ th_main th = Some g).
Proof.
  intros I Ht Hl Hg. pose proof (own_th _ _ _ _ _ I Ht Hg) as Ow.
  destruct (ro g) as [| |t|t q|t|t|t|]; simpl in *; try discriminate; rewrite ?Hl in Ow; auto.
  - by destruct Ow as (? & ? & ? & ? & _).
  - by destruct Ow as [? ?].
  - destruct Ow; auto.
Qed.

(** The roles after thread [tid] with scheduling fiber [m] has left. *)
Definition left_roles (ro : nat -> role) (tid : Z) (m g : nat) : role :=
  if decide (g = m) then RCaller
  else if decide (owner (ro g) = Some tid) then RFree else ro g.

Definition protect (m : nat) (mb : Fiber) (P : Protected) : Protected :=
  if m_stack mb then <[m := mb]> (P : gmap nat Fiber) else delete m (P : gmap nat Fiber).

Lemma protect_ne m mb P g :
  g <> m -> @protected (protect m mb P) !! g = @protected P !! g.
Proof.
  intros Hg. unfold protect, protected. destruct (m_stack mb);
    [by rewrite lookup_insert_ne|by rewrite lookup_delete_ne].
Qed.

Lemma thread_leaves ro s s' tid th m mb :
  SInv ro s -> threads s !! tid = Some th -> th_loc th = LExit -> ro m = RMain tid ->
  threads s' = delete tid (threads s) -> m_fibers s' = m_fibers s ->
  (forall g, owner (ro g) <> Some tid -> sfibers s' !! g = sfibers s !! g) ->
  (forall g, owner (ro g) = Some tid -> g <> m -> sfibers s' !! g = None) ->
  sfibers s' !! m = Some mb ->
  SInv (Pr := protect m mb Pr) (left_roles ro tid m) s'.
Proof.
  intros I Ht Hl Hm Ht' Hq Hh Hd Hmb. unfold left_roles.
  assert (Hout : forall g, owner (ro g) <> Some tid -> left_roles ro tid m g = ro g).
  { intros g Hg. unfold left_roles. rewrite decide_False; [by rewrite decide_False|].
    intros ->. apply Hg. by rewrite Hm. }
  constructor; rewrite ?Hq, ?Ht'.
  - intros t u Hu. apply lookup_delete_Some in Hu as [Hne Hu].
    apply (thr_ok_frame ro (sfibers s)); [|apply (si_thr _ _ I _ _ Hu)].
    intros g Hg. assert (owner (ro g) <> Some tid) by congruence. split; [by apply Hout|by apply Hh].
  - intros g t. case_decide; [discriminate|]. case_decide; [discriminate|]. intros Hg.
    destruct (si_own _ _ I g t Hg) as (u & Hu & Ow). exists u.
    rewrite lookup_delete_ne by congruence. auto.
  - destruct (si_queue _ _ I) as [Q1 Q2 Q3]. constructor; [|done..]. intros g. rewrite Q1.
    case_decide; [subst; rewrite Hm; done|]. case_decide as Ho; [|done].
    by destruct (exit_owns ro s tid th g I Ht Hl Ho) as [-> _].
  - intros g. case_decide as Hg; [subst; by exists mb|]. case_decide as Ho.
    + rewrite (Hd g Ho Hg). by intros fb [=].
    + rewrite (Hh g Ho). apply (si_fiber _ _ I).
  - intros g fb Hg. case_decide as Hgm.
    + subst. split; [done|]. rewrite Hmb. unfold protect, protected in Hg.
      destruct (m_stack mb); [by rewrite lookup_insert_eq in Hg|by rewrite lookup_delete_eq in Hg].
    + rewrite protect_ne in Hg by done. destruct (si_prot _ _ I g fb Hg) as [Hr Hgb].
      assert (owner (ro g) <> Some tid) by (rewrite Hr; discriminate).
      rewrite decide_False by done. by rewrite Hh.
  - intros g fb Hg Hgb Hs. case_decide as Hgm.
    + subst. simplify_eq. unfold protect, protected. rewrite Hs, lookup_insert_eq. by eexists.
    + rewrite protect_ne by done. case_decide as Ho; [discriminate|].
      rewrite Hh in Hgb by done. by apply (si_caller _ _ I g fb).
Qed.

(** The destructors of [cb_fiber] and [idle_fiber]. *)
Lemma run_locals_end_ok ro s tid th :
  SInv ro s -> threads s !! tid = Some th -> th_loc th = LExit ->
  exists s', run_locals_end tid s = (s', Ret tt) /\
    threads s' = threads s /\ m_fibers s' = m_fibers s /\ flags s' = flags s /\
    counters s' = counters s /\
    sfibers s' = delete (th_idle th)
      (match th_cb_fiber th with Some c => delete c (sfibers s) | None => sfibers s end).
Proof.
  intros I Ht Hl. pose proof (si_thr _ _ I _ _ Ht) as K.
  destruct (tk_idle _ _ _ _ K) as (ib & Hi & Hist). rewrite Hl in Hist. simpl in Hist.
  assert (His : m_stack ib = true).
  { pose proof (si_fiber _ _ I (th_idle th)) as Hok. rewrite (tk_ridle _ _ _ _ K) in Hok.
    destruct Hok as (? & ? & ?). congruence. }
  pose proof (tk_cb _ _ _ _ K) as C. unfold cb_ok in C. rewrite Hl in C. simpl in C.
  unfold run_locals_end. cstep (thread_run tid s th Ht).
  destruct (th_cb_fiber th) as [c|] eqn:Ec.
  - pose proof (si_fiber _ _ I c) as Hok. rewrite (C c eq_refl) in Hok.
    destruct Hok as (cb & Hc & Hcs & Hcf).
    destruct (on_thread_delete tid th c cb s Ht Hc Hcs Hcf) as (s1 & E1 & H1 & T1 & Q1 & F1 & N1).
    cstep E1. assert (c <> th_idle th).
    { intros ->. pose proof (C _ eq_refl). by rewrite (tk_ridle _ _ _ _ K) in *. }
    destruct (on_thread_delete tid th (th_idle th) ib s1) as (s2 & E2 & H2 & T2 & Q2 & F2 & N2);
      [congruence|by rewrite H1, lookup_delete_ne|done|by rewrite Hist|].
    exists s2. rewrite E2, H2, H1. repeat split; congruence.
  - rewrite cbind_cret.
    destruct (on_thread_delete tid th (th_idle th) ib s) as (s2 & E2 & H2 & T2 & Q2 & F2 & N2);
      [done..|by rewrite Hist|].
    exists s2. rewrite E2, H2. by repeat split.
Qed.

(** The heap without the two: what is left of the fibers of the thread. *)
Lemma locals_gone ro s tid th m g :
  SInv ro s -> threads s !! tid = Some th -> th_loc th = LExit -> th_main th = Some m ->
  let h := delete (th_idle th)
      (match th_cb_fiber th with Some c => delete c (sfibers s) | None => sfibers s end) in
  (owner (ro g) <> Some tid -> h !! g = sfibers s !! g) /\
  (owner (ro g) = Some tid -> g <> m -> h !! g = None) /\ h !! m = sfibers s !! m.
Proof.
  intros I Ht Hl Hm h. pose proof (si_thr _ _ I _ _ Ht) as K.
  pose proof (tk_ridle _ _ _ _ K) as Ri. destruct (tk_main _ _ _ _ K) as (m' & Hm' & Rm).
  pose proof (tk_cb _ _ _ _ K) as C. unfold cb_ok in C. rewrite Hl in C. simpl in C. simplify_eq.
  assert (Hkeep : forall x, x <> th_idle th -> th_cb_fiber th <> Some x -> h !! x = sfibers s !! x).
  { intros x Hx Hc. unfold h. rewrite lookup_delete_ne by congruence.
    destruct (th_cb_fiber th) as [c|]; [|done]. rewrite lookup_delete_ne; congruence. }
  split; [|split].
  - intros Hg. apply Hkeep; [by intros ->; rewrite Ri in Hg|].
    intros Hc. apply Hg. by rewrite (C g Hc).
  - intros Hg Hne. destruct (exit_owns ro s tid th g I Ht Hl Hg) as [_ [E|[E|E]]]; [| |congruence].
    + unfold h. rewrite E. destruct (decide (g = th_idle th)) as [->|];
        [apply lookup_delete_eq|rewrite lookup_delete_ne by congruence; apply lookup_delete_eq].
    + subst. apply lookup_delete_eq.
  - apply Hkeep; [by intros ->; rewrite Ri in Rm|].
    intros Hc. by rewrite (C m Hc) in Rm.
Qed.
End leaving.

(** A protected fiber that is at rest may be given up. *)
Lemma unprotect (P : Protected) ro s r rb :
  SInv (Pr := P) ro s -> @protected P !! r = Some rb -> at_rest rb ->
  SInv (Pr := delete r (P : gmap nat Fiber)) (upd ro r RFree) s.
Proof.
  intros I Hr Hrest. destruct (si_prot _ _ I r rb Hr) as [Rr Hrb]. constructor.
  - intros t th Ht. apply (thr_ok_frame ro (sfibers s)); [|apply (si_thr _ _ I _ _ Ht)].
    intros g Hg. rewrite upd_ne; [done|]. intros ->. by rewrite Rr in Hg.
  - intros g t Hg. destruct (decide (g = r)) as [->|Hne]; [by rewrite upd_eq in Hg|].
    rewrite upd_ne in * by done. apply (si_own _ _ I _ _ Hg).
  - apply queue_same; [apply I|]. by rewrite Rr.
  - intros g. destruct (decide (g = r)) as [->|Hne].
    + rewrite upd_eq, Hrb. intros fb [= <-]. done.
    + rewrite upd_ne by done. apply (si_fiber _ _ I).
  - intros g fb Hg. unfold protected in Hg. apply lookup_delete_Some in Hg as [Hne Hg].
    rewrite upd_ne by done. by apply (si_prot _ _ I).
  - intros g fb Hg Hgb Hs. destruct (decide (g = r)) as [->|Hne]; [by rewrite upd_eq in Hg|].
    rewrite upd_ne in Hg by done. unfold protected. rewrite lookup_delete_ne by done.
    by apply (si_caller _ _ I g fb).
Qed.

(** ** The invariant of an owned scheduler *)

(** [t_threadFiber] and [t_sheduler_fiber] of the threads in the loop. *)
Definition mains (s : Sched) : gmap Z (option nat * option nat) :=
  (fun th => (th_threadFiber th, th_main th)) <$> threads s.

Definition all_parked (s : Sched) : Prop :=
  forall t th, threads s !! t = Some th -> parked_at (th_loc th) (tls th).

Definition in_loop (l : oloc) : bool := match l with OInLoop => true | _ => false end.

(** The root fiber before the owner called it, and after. *)
Definition new_root (rb : Fiber) : Prop :=
  m_ctx rb = CCallerMain /\ m_state rb = INIT /\ m_cb rb = Some PRun.
Definition dead_root (rb : Fiber) : Prop := m_ctx rb = CDone /\ m_state rb = TERM.

Definition root_ok (P : Protected) (o : Owned) : Prop :=
  match m_rootFiber o with
  | None => m_rootThread o = -1 /\ t_scheduler o <> Some this /\ in_loop (o_loc o) = false
  | Some r =>
      m_rootThread o <> -1 /\ t_scheduler o = Some this /\
      if in_loop (o_loc o) then
        exists mf rb, mains (sched o) !! m_rootThread o = Some (Some mf, Some r) /\
          sfibers (sched o) !! r = Some rb /\ m_stack rb = true
      else
        mains (sched o) !! m_rootThread o = None /\ o_main o = Some r /\
        is_Some (o_threadFiber o) /\
        exists rb, @protected P !! r = Some rb /\ m_stack rb = true /\ (new_root rb \/ dead_root rb)
  end.

(** The thread of the owner while it is in the loop. *)
Definition is_owner (o : Owned) (t : Z) : Prop := in_loop (o_loc o) = true /\ t = m_rootThread o.

(** The threads that [Stop] waits for, or will. *)
Definition pending (o : Owned) : list Z :=
  (m_threads o).*2 ++ match o_loc o with OJoining l => l.*2 | _ => [] end.

Record own_inv (P : Protected) (ro : nat -> role) (o : Owned) : Prop := {
  oi_sched : SInv (Pr := P) ro (sched o);
  oi_parked : all_parked (sched o);
  oi_prot g fb : @protected P !! g = Some fb -> m_rootFiber o = Some g;
  oi_main t x : mains (sched o) !! t = Some x -> is_owner o t \/
    exists m mb, x.2 = Some m /\ sfibers (sched o) !! m = Some mb /\ m_stack mb = false;
  oi_known t x : mains (sched o) !! t = Some x -> is_owner o t \/ t ∈ pending o;
  oi_root : root_ok P o
}.

Lemma mains_lookup s t th :
  threads s !! t = Some th -> mains s !! t = Some (th_threadFiber th, th_main th).
Proof. intros Ht. unfold mains. by rewrite lookup_fmap, Ht. Qed.

(** A step of the scheduler that keeps the pointers and the stacks. *)
Lemma own_step P ro ro' o s' :
  own_inv P ro o -> SInv (Pr := P) ro' s' -> mains s' = mains (sched o) -> all_parked s' ->
  stack_le (sfibers (sched o)) (sfibers s') -> own_inv P ro' (set_sched s' o).
Proof.
  intros [I1 I2 I3 I4 I5 I7] I' Hm Hp Hs. constructor; simpl; try done.
  - intros t x. rewrite Hm. intros Hx. destruct (I4 t x Hx) as [|(m & mb & E1 & E2 & E3)]; [by left|].
    right. destruct (Hs m mb E2) as (mb' & E4 & E5). exists m, mb'. split; [done|]. split; congruence.
  - intros t x. rewrite Hm. apply I5.
  - unfold root_ok in *. simpl. destruct (m_rootFiber o) as [r|]; [|done].
    destruct I7 as (R1 & R2 & R3). split; [done|]. split; [done|]. rewrite Hm.
    destruct (in_loop (o_loc o)); [|done].
    destruct R3 as (mf & rb & E1 & E2 & E3). destruct (Hs r rb E2) as (rb' & E4 & E5).
    exists mf, rb'. split; [done|]. split; congruence.
Qed.

Lemma own_quiet P ro ro' o s' :
  own_inv P ro o -> SInv (Pr := P) ro' s' -> threads s' = threads (sched o) ->
  sfibers s' = sfibers (sched o) -> own_inv P ro' (set_sched s' o).
Proof.
  intros I I' Ht Hh. apply (own_step P ro); auto.
  - unfold mains. by rewrite Ht.
  - intros t th. rewrite Ht. apply (oi_parked _ _ _ I).
  - by rewrite Hh.
Qed.

(** What a step of a thread keeps. *)
Lemma thread_step_kept {Pr : Protected} config ro s s' tid th :
  SInv ro s -> all_parked s -> threads s !! tid = Some th ->
  thread_step config tid s = (s', Ret tt) ->
  mains s' = mains s /\ all_parked s' /\ steady s s'.
Proof.
  intros I Hp Ht H. pose proof (thread_step_effect config ro tid th s s' tt I Ht H) as (l' & L & _).
  destruct (thread_step_tls config ro s s' tid th I Ht (Hp tid th Ht) H)
    as [(x & x' & X1 & X2 & X3 & X4 & X5) Hs].
  assert (Hx : tlsm s' !! tid = Some x') by (rewrite X2; apply lookup_insert_eq).
  assert (Hth : forall t u', threads s' !! t = Some u' -> exists u, threads s !! t = Some u /\
    (t <> tid -> th_loc u' = th_loc u /\ tls u' = tls u)).
  { intros t u' Hu. assert (E : locs s' !! t = Some (th_loc u')) by (unfold locs; by rewrite lookup_fmap, Hu).
    assert (E' : tlsm s' !! t = Some (tls u')) by (unfold tlsm; by rewrite lookup_fmap, Hu).
    destruct (decide (t = tid)) as [->|Hne]; [by exists th|].
    rewrite L, lookup_insert_ne in E by done. rewrite X2, lookup_insert_ne in E' by done.
    unfold locs, tlsm in E, E'. rewrite lookup_fmap in E. rewrite lookup_fmap in E'.
    destruct (threads s !! t) as [u|]; [|discriminate]. exists u. split; [done|]. intros _.
    split; [by injection E|]. by apply (inj Some). }
  split; [|split; [|exact Hs]].
  - apply map_eq. intros t. destruct (decide (t = tid)) as [->|Hne].
    + unfold mains. rewrite !lookup_fmap, Ht. unfold tlsm in Hx, X1. rewrite lookup_fmap in Hx. rewrite lookup_fmap in X1.
      rewrite Ht in X1. destruct (threads s' !! tid) as [u|]; [|discriminate].
      apply (inj Some) in Hx. apply (inj Some) in X1. subst x x'. unfold tls in *. simpl in *.
      congruence.
    + assert (E : tlsm s' !! t = tlsm s !! t) by (by rewrite X2, lookup_insert_ne).
      unfold mains, tlsm in *. rewrite !lookup_fmap in *.
      destruct (threads s' !! t) as [u|], (threads s !! t) as [v|]; try discriminate; [|done].
      apply (inj Some) in E. unfold tls in E. simpl. congruence.
  - intros t u' Hu. destruct (Hth t u' Hu) as (u & Hu0 & Hsame).
    destruct (decide (t = tid)) as [->|Hne].
    + unfold tlsm in Hx. rewrite lookup_fmap, Hu in Hx. apply (inj Some) in Hx. rewrite Hx.
      apply X5. unfold locs. by rewrite lookup_fmap, Hu.
    + destruct (Hsame Hne) as [E1 E2]. rewrite E1, E2. by apply (Hp t).
Qed.

(** What the running code may do in an owned scheduler: it does not schedule
    the root fiber, which is private to the class. *)
Definition hidden_root (o : Owned) : Protected :=
  match m_rootFiber o with Some r => ({[ r := main_fiber ]} : gmap nat Fiber) | None => (∅ : gmap nat Fiber) end.

Lemma hidden_unprotected P ro o g :
  own_inv P ro o -> @protected (hidden_root o) !! g = None -> @protected P !! g = None.
Proof.
  intros I Hg. destruct (@protected P !! g) as [fb|] eqn:E; [|done].
  pose proof (oi_prot _ _ _ I g fb E) as Hr. unfold hidden_root, protected in Hg.
  rewrite Hr in Hg. by rewrite lookup_singleton_eq in Hg.
Qed.

Lemma hidden_can_schedule P ro o g :
  own_inv P ro o -> can_schedule (Pr := hidden_root o) (sched o) g ->
  can_schedule (Pr := P) (sched o) g.
Proof.
  intros I (H1 & H2 & H3). split; [done|]. split; [|done]. by apply (hidden_unprotected P ro o).
Qed.

Lemma hidden_allowed P ro o th :
  own_inv P ro o -> allowed (Pr := hidden_root o) (sched o) th -> allowed (Pr := P) (sched o) th.
Proof.
  intros I. unfold allowed. destruct (th_loc th) as [| |k f code| | | | |]; auto.
  destruct code; auto. by apply (hidden_can_schedule P ro).
Qed.

Lemma own_thread P ro config o tid th :
  own_inv P ro o -> threads (sched o) !! tid = Some th ->
  allowed (Pr := hidden_root o) (sched o) th ->
  exists ro' s', thread_step config tid (sched o) = (s', Ret tt) /\
    own_inv P ro' (set_sched s' o) /\ flags s' = flags (sched o).
Proof.
  intros I Ht Ha. apply (hidden_allowed P ro) in Ha; [|done].
  destruct (thread_step_ok config ro (sched o) tid th (oi_sched _ _ _ I) Ht Ha) as (ro' & s' & E & I').
  exists ro', s'. split; [done|].
  destruct (thread_step_kept config ro (sched o) s' tid th (oi_sched _ _ _ I) (oi_parked _ _ _ I) Ht E)
    as (K1 & K2 & K3 & K4).
  split; [by apply (own_step P ro)|done].
Qed.

(** ** The threads leave *)

Lemma SInv_protected_ext (P P' : Protected) ro s :
  (forall g, @protected P !! g = @protected P' !! g) -> SInv (Pr := P) ro s -> SInv (Pr := P') ro s.
Proof.
  intros E [I1 I2 I3 I4 I5 I6]. constructor; auto.
  - intros g fb Hg. apply I5. by rewrite E.
  - intros g fb. rewrite <- E. apply I6.
Qed.

(** A scheduling fiber is not protected. *)
Lemma main_unprotected {Pr : Protected} ro s m t : SInv ro s -> ro m = RMain t -> protected !! m = None.
Proof.
  intros I Hm. destruct (protected !! m) as [fb|] eqn:E; [|done].
  destruct (si_prot _ _ I m fb E). congruence.
Qed.

Lemma main_role {Pr : Protected} ro s tid th m :
  SInv ro s -> threads s !! tid = Some th -> th_main th = Some m -> ro m = RMain tid.
Proof.
  intros I Ht Hm. destruct (tk_main _ _ _ _ (si_thr _ _ I _ _ Ht)) as (m' & E & Hr). congruence.
Qed.

Lemma mains_delete s s' tid :
  threads s' = delete tid (threads s) -> mains s' = delete tid (mains s).
Proof. intros E. unfold mains. by rewrite E, fmap_delete. Qed.

Lemma parked_delete s s' tid :
  threads s' = delete tid (threads s) -> all_parked s -> all_parked s'.
Proof. intros E Hp t th. rewrite E, lookup_delete_Some. intros [_ Ht]. exact (Hp t th Ht). Qed.

Lemma own_worker_end P ro o tid th :
  own_inv P ro o -> threads (sched o) !! tid = Some th -> th_loc th = LExit -> ~ is_owner o tid ->
  exists ro' s', worker_end tid (sched o) = (s', Ret tt) /\
    own_inv P ro' (set_sched s' o) /\ flags s' = flags (sched o).
Proof.
  intros I Ht Hl Hno. pose proof (oi_sched _ _ _ I) as S.
  destruct (oi_main _ _ _ I tid _ (mains_lookup _ _ _ Ht)) as [|(m & mb & Hm & Hmb & Hst)]; [done|].
  simpl in Hm. pose proof (main_role ro _ tid th m S Ht Hm) as Rm.
  destruct (run_locals_end_ok ro (sched o) tid th S Ht Hl) as (s1 & E1 & T1 & Q1 & F1 & N1 & H1).
  unfold worker_end. cstep E1. eexists (left_roles ro tid m), _. split; [reflexivity|].
  set (s' := set_threads _ s1).
  assert (Hg := fun g => locals_gone ro (sched o) tid th m g S Ht Hl Hm).
  assert (Ht' : threads s' = delete tid (threads (sched o))) by (simpl; by rewrite T1).
  assert (S' : SInv (Pr := P) (left_roles ro tid m) s').
  { apply (SInv_protected_ext (protect m mb P)).
    - intros g. unfold protect. rewrite Hst. unfold protected. destruct (decide (g = m)) as [->|Hne].
      + rewrite lookup_delete_eq. symmetry. apply (main_unprotected ro (sched o) m tid S Rm).
      + by rewrite lookup_delete_ne.
    - apply (thread_leaves ro (sched o) s' tid th m mb); try done; simpl; rewrite H1.
      + intros g. apply Hg.
      + intros g. apply Hg.
      + destruct (Hg m) as (_ & _ & ->). done. }
  split; [|exact F1].
  destruct I as [I1 I2 I3 I4 I5 I7]. constructor; simpl; try done.
  - by apply (parked_delete (sched o) s' tid).
  - intros t x. rewrite (mains_delete (sched o) s' tid Ht'), lookup_delete_Some. intros [Hne Hx].
    destruct (I4 t x Hx) as [|(m' & mb' & E & F & G)]; [by left|]. right. exists m', mb'.
    split; [done|]. split; [|done]. rewrite H1. destruct (Hg m') as (-> & _ & _); [done|].
    unfold mains in Hx. rewrite lookup_fmap in Hx.
    destruct (threads (sched o) !! t) as [u|] eqn:Hu; [|done]. injection Hx as <-. simpl in E.
    rewrite (main_role ro _ t u m' S Hu E). simpl. congruence.
  - intros t x. rewrite (mains_delete (sched o) s' tid Ht'), lookup_delete_Some. intros [_ Hx].
    by apply (I5 t x).
  - unfold root_ok in *. simpl. destruct (m_rootFiber o) as [r|]; [|done].
    destruct I7 as (R1 & R2 & R3). split; [done|]. split; [done|].
    rewrite (mains_delete (sched o) s' tid Ht'). destruct (in_loop (o_loc o)) eqn:Hil.
    + destruct R3 as (mf & rb & X1 & X2 & X3). exists mf, rb.
      assert (tid <> m_rootThread o) by (intros ->; by apply Hno).
      rewrite lookup_delete_ne by done. split; [done|]. split; [|done]. rewrite H1.
      destruct (Hg r) as (-> & _ & _); [done|].
      unfold mains in X1. rewrite lookup_fmap in X1.
      destruct (threads (sched o) !! m_rootThread o) as [u|] eqn:Hu; [|done].
      injection X1 as Y1 Y2. rewrite (main_role ro _ _ u r S Hu Y2). simpl. congruence.
    + destruct R3 as (X1 & X2). split; [|done]. apply lookup_delete_None. by right.
Qed.

(** The end of [CallerMainFunc]. *)
Definition finish_root (rb : Fiber) : Fiber := set_ctx CDone (set_state TERM (set_cb None rb)).

Lemma CallerMainFunc_end_run r rb mf s :
  t_fiber s = Some r -> fibers s !! r = Some rb -> t_threadFiber s = Some mf ->
  CallerMainFunc_end true s
  = (set_fibers (<[r := finish_root rb]> (fibers s)) (set_t_fiber (Some mf) s), Ret tt).
Proof.
  intros Hc Hr Hm. unfold CallerMainFunc_end, back, SetThis.
  assert (Hg : Fiber.GetThis s = (s, Ret r)) by (unfold Fiber.GetThis; rewrite cbind_get, Hc; done).
  cstep Hg. cstep (update_run r (fun fb => set_state TERM (set_cb None fb)) rb s Hr).
  rewrite cbind_get. simpl. rewrite Hm, cbind_mod, deref_run.
  rewrite (update_run r _ (set_state TERM (set_cb None rb))) by (simpl; apply lookup_insert_eq).
  simpl. unfold set_fibers, set_t_fiber. simpl. by rewrite insert_insert_eq.
Qed.

(** The owner's last steps in the loop, on the scheduler. *)
Lemma root_leaves {P : Protected} ro s tid th r rb mf :
  SInv ro s -> all_parked s -> threads s !! tid = Some th -> th_loc th = LExit ->
  th_main th = Some r -> th_threadFiber th = Some mf -> sfibers s !! r = Some rb ->
  m_stack rb = true ->
  exists s2 th2,
    (run_locals_end tid ;;; on_thread tid (CallerMainFunc_end true)) s = (s2, Ret tt) /\
    threads s2 !! tid = Some th2 /\ th_threadFiber th2 = Some mf /\ th_main th2 = Some r /\
    flags s2 = flags s /\
    delete tid (threads s2) = delete tid (threads s) /\
    (forall g, owner (ro g) <> Some tid -> sfibers s2 !! g = sfibers s !! g) /\
    SInv (Pr := protect r (finish_root rb) P) (left_roles ro tid r)
      (set_threads (delete tid (threads s2)) s2).
Proof.
  intros S Hp Ht Hl Hm Hf Hr Hs. pose proof (main_role ro s tid th r S Ht Hm) as Rr.
  destruct (run_locals_end_ok ro s tid th S Ht Hl) as (s1 & E1 & T1 & Q1 & F1 & N1 & H1).
  assert (Hg := fun g => locals_gone ro s tid th r g S Ht Hl Hm).
  assert (Ht1 : threads s1 !! tid = Some th) by congruence.
  pose proof (Hp tid th Ht) as Hpk. rewrite Hl in Hpk. simpl in Hpk.
  assert (Hr1 : sfibers s1 !! r = Some rb) by (rewrite H1; destruct (Hg r) as (_ & _ & ->); done).
  pose proof (CallerMainFunc_end_run r rb mf (view s1 th)
    ltac:(simpl; congruence) Hr1 Hf) as E2.
  pose proof (on_thread_run tid _ s1 th _ _ Ht1 E2) as E3. cstep E1.
  eexists _, _. split; [exact E3|]. simpl. rewrite lookup_insert_eq. split; [reflexivity|].
  simpl. split; [done|]. split; [done|]. split; [exact F1|].
  split; [by rewrite T1, delete_insert_eq|].
  assert (Hheap : forall g, owner (ro g) <> Some tid ->
            <[r:=finish_root rb]> (sfibers s1) !! g = sfibers s !! g).
  { intros g Hno. rewrite lookup_insert_ne by (intros <-; by rewrite Rr in Hno).
    rewrite H1. by apply Hg. }
  split; [exact Hheap|].
  apply (thread_leaves ro s _ tid th r (finish_root rb)); simpl; try done.
  - by rewrite T1, delete_insert_eq.
  - intros g Ho Hne. rewrite lookup_insert_ne by done. rewrite H1. by apply Hg.
  - apply lookup_insert_eq.
Qed.

Lemma own_root_end P ro o th :
  own_inv P ro o -> o_loc o = OInLoop -> threads (sched o) !! m_rootThread o = Some th ->
  th_loc th = LExit ->
  exists P' ro' o', root_end o = (o', Ret tt) /\ own_inv P' ro' o' /\ m_threads o' = [].
Proof.
  intros I Hil Ht Hl. pose proof (oi_root _ _ _ I) as Rt. unfold root_ok in Rt. rewrite Hil in Rt.
  destruct (m_rootFiber o) as [r|] eqn:Er; [|by destruct Rt as (_ & _ & ?)].
  destruct Rt as (R1 & R2 & mf & rb & X1 & X2 & X3).
  rewrite (mains_lookup _ _ _ Ht) in X1. injection X1 as Y1 Y2.
  destruct (root_leaves (P := P) ro (sched o) (m_rootThread o) th r rb mf)
    as (s2 & th2 & E & Ht2 & Z1 & Z2 & F2 & D2 & Hh & S2); try done; [apply I..|].
  unfold root_end, on_sched. rewrite cbind_get.
  apply fbind_inv in E as (s1 & [] & E1 & E2). unfold cbind at 1. rewrite E1. unfold cbind at 1.
  cbn [sched set_sched]. rewrite E2. unfold cbind at 1. cbn [sched set_sched].
  rewrite (thread_run (m_rootThread o) s2 th2 Ht2). unfold swap_threads. rewrite cbind_mod.
  eexists (protect r (finish_root rb) P), (left_roles ro (m_rootThread o) r), _.
  split; [reflexivity|]. split; [|done].
  assert (Hms : mains (set_threads (delete (m_rootThread o) (threads s2)) s2)
                = delete (m_rootThread o) (mains (sched o)))
    by (by apply mains_delete).
  pose proof (oi_sched _ _ _ I) as S.
  constructor; cbn -[mains protected]; try done.
  - apply (parked_delete (sched o) _ (m_rootThread o)); [done|apply I].
  - intros g fb Hg. destruct (decide (g = r)) as [->|Hne]; [done|].
    rewrite protect_ne in Hg by done. by apply (oi_prot _ _ _ I g fb).
  - intros t x. cbn -[mains]. rewrite Hms, lookup_delete_Some. intros [Hne Hx].
    destruct (oi_main _ _ _ I t x Hx) as [[_ ->]|(m & mb & E & F & G)]; [done|].
    right. exists m, mb. split; [done|]. split; [|done]. rewrite Hh; [done|].
    unfold mains in Hx. rewrite lookup_fmap in Hx.
    destruct (threads (sched o) !! t) as [u|] eqn:Hu; [|done]. injection Hx as <-. simpl in E.
    rewrite (main_role ro _ t u m S Hu E). simpl. congruence.
  - intros t x. cbn -[mains]. rewrite Hms, lookup_delete_Some. intros [Hne Hx]. right.
    destruct (oi_known _ _ _ I t x Hx) as [[_ ->]|Hin]; [done|].
    unfold pending in *. rewrite Hil, app_nil_r in Hin. exact Hin.
  - unfold root_ok. cbn -[mains protected]. rewrite Er. split; [done|]. split; [done|].
    split; [rewrite Hms; apply lookup_delete_eq|]. split; [done|].
    split; [by rewrite Z1|]. exists (finish_root rb). split.
    + unfold protect, protected, finish_root. simpl. rewrite X3. apply lookup_insert_eq.
    + split; [done|]. by right.
Qed.

(** ** The owner enters the loop *)

Lemma call_root_run r rb mf s :
  fibers s !! r = Some rb -> new_root rb -> t_threadFiber s = Some mf ->
  call r s = (set_fibers (<[r := set_state EXEC rb]> (fibers s)) (set_t_fiber (Some r) s), Ret PRun).
Proof.
  intros Hr (N1 & N2 & N3) Hm. unfold call, SetThis. rewrite cbind_mod.
  cstep (update_run r (set_state EXEC) rb (set_t_fiber (Some r) s) Hr).
  rewrite cbind_get. simpl. rewrite Hm, deref_run. unfold enter.
  rewrite (cbind_ret _ _ _ _ _ (fiber_run r (set_state EXEC rb) _ (lookup_insert_eq _ _ _))).
  simpl. by rewrite N1, N3.
Qed.

Lemma at_rest_new rb : m_stack rb = true -> new_root rb -> at_rest rb.
Proof.
  intros Hs (N1 & N2 & _). split; [done|]. rewrite N2. split; [done|]. intros E. congruence.
Qed.

Lemma own_enter P ro config o r rb :
  own_inv P ro o -> in_loop (o_loc o) = false -> (forall l, o_loc o <> OJoining l) ->
  m_rootFiber o = Some r -> @protected P !! r = Some rb -> new_root rb ->
  exists P' ro' o', enter_loop config r o = (o', Ret tt) /\ own_inv P' ro' o' /\
    o_loc o' = OInLoop /\ m_threads o' = m_threads o /\ m_threadCount o' = m_threadCount o.
Proof.
  intros I Hil Hnj Er Hrb Hnew. pose proof (oi_root _ _ _ I) as Rt. unfold root_ok in Rt.
  rewrite Er, Hil in Rt. destruct Rt as (R1 & R2 & X1 & X2 & [mf X3] & rb' & X4 & X5 & _).
  simplify_eq. pose proof (oi_sched _ _ _ I) as S. destruct (si_prot _ _ S r rb Hrb) as [Rr Hr].
  pose proof (call_root_run r rb mf (owner_view o) Hr Hnew X3) as E1.
  unfold enter_loop, on_owner. unfold cbind at 1. rewrite E1. unfold setThis. rewrite !cbind_mod.
  unfold cbind at 1. cbn [owner_view]. unfold cbind at 1, cget at 1.
  set (fs := owner_view _). set (i := fresh (dom (fibers fs))).
  eexists (delete r (P : gmap nat Fiber)), (upd (upd (upd ro r RFree) r (RMain (m_rootThread o))) i
    (RIdle (m_rootThread o))), _. split; [reflexivity|]. split; [|done].
  assert (Hi : fibers fs !! i = None) by (apply not_elem_of_dom, is_fresh).
  change (fibers fs) with (<[r := set_state EXEC rb]> (sfibers (sched o))) in Hi.
  assert (Hir : i <> r) by (intros ->; by rewrite lookup_insert_eq in Hi).
  rewrite lookup_insert_ne in Hi by done.
  assert (Ht : threads (sched o) !! m_rootThread o = None).
  { unfold mains in X1. rewrite lookup_fmap in X1. by destruct (threads (sched o) !! m_rootThread o). }
  constructor; cbn -[mains protected].
  - eapply (thread_joins (Pr := delete r (P : gmap nat Fiber)) (upd ro r RFree) (sched o) _
      (m_rootThread o) r (set_state EXEC rb) i); try reflexivity; try done.
    + apply (unprotect P ro (sched o) r rb S Hrb). by apply at_rest_new.
    + apply lookup_delete_eq.
    + by rewrite upd_eq.
    + by rewrite upd_eq.
    + cbn. rewrite X2, X3. reflexivity.
  - intros t th. cbn. rewrite lookup_insert_Some. intros [[<- <-]|[_ Hth]].
    + cbn. by rewrite X2.
    + exact (oi_parked _ _ _ I t th Hth).
  - intros g fb Hg. unfold protected in Hg. apply lookup_delete_Some in Hg as [_ Hg].
    by apply (oi_prot _ _ _ I g fb).
  - intros t x. rewrite X2. unfold mains. cbn. rewrite fmap_insert, lookup_insert_Some.
    intros [[<- _]|[Hne Hx]]; [left; by split|].
    destruct (oi_main _ _ _ I t x Hx) as [[Hc _]|(m & mb & E & F & G)]; [congruence|].
    right. exists m, mb. split; [done|]. split; [|done].
    assert (m <> r) by (intros Heq; rewrite Heq in F; congruence).
    assert (i <> m) by (intros Heq; rewrite Heq in Hi; congruence).
    by rewrite !lookup_insert_ne.
  - intros t x. unfold mains. cbn. rewrite fmap_insert, lookup_insert_Some.
    intros [[<- _]|[Hne Hx]]; [left; by split|]. right.
    destruct (oi_known _ _ _ I t x Hx) as [[Hc _]|Hin]; [congruence|]. unfold pending in *. cbn.
    rewrite app_nil_r. destruct (o_loc o); [by rewrite app_nil_r in Hin|done|by destruct (Hnj thrs)].
  - unfold root_ok. cbn -[mains]. rewrite Er. split; [done|]. split; [done|].
    exists mf, (set_state EXEC rb). split; [|split; [|done]].
    + unfold mains. cbn. rewrite fmap_insert, lookup_insert_eq. cbn. by rewrite X2, X3.
    + cbn. by rewrite lookup_insert_ne, lookup_insert_eq.
Qed.

(** ** The whole state between the steps of the owner *)
Definition owned_ok (o : Owned) : Prop :=
  (exists P ro, own_inv P ro o) /\
  (m_threadCount o = 0 -> m_threads o = []) /\
  (match o_loc o with
   | OOutside => m_stopping (sched o) = true
   | OInLoop => False
   | OJoining _ => True
   end -> m_threads o = []).

Lemma owned_sched o s' P ro :
  owned_ok o -> own_inv P ro (set_sched s' o) -> flags s' = flags (sched o) ->
  owned_ok (set_sched s' o).
Proof.
  intros (_ & H1 & H2) I Hf. split; [by exists P, ro|]. split; [done|]. simpl. intros H.
  apply H2. destruct (o_loc o); try done. unfold flags in Hf. congruence.
Qed.

(** The roles after the constructor with [use_caller]. *)
Definition caller_roles (mf r g : nat) : role :=
  if decide (g = r) then RCaller else if decide (g = mf) then RCaller else RFree.

Lemma caller_SInv mf r rb s :
  mf <> r -> threads s = ∅ -> m_fibers s = [] -> m_stack rb = true ->
  sfibers s = <[r := rb]> (<[mf := main_fiber]> ∅) ->
  SInv (Pr := ({[ r := rb ]} : gmap nat Fiber)) (caller_roles mf r) s.
Proof.
  intros Hne Ht Hq Hs Hh. unfold caller_roles. constructor; rewrite ?Ht, ?Hq, ?Hh.
  - intros t th. rewrite lookup_empty. discriminate.
  - intros g t. repeat case_decide; discriminate.
  - constructor; [|constructor|constructor]. intros g. repeat case_decide; simpl; set_solver.
  - intros g. case_decide; [subst; rewrite lookup_insert_eq; by exists rb|].
    rewrite lookup_insert_ne by done. case_decide; [subst; rewrite lookup_insert_eq; by eexists|].
    rewrite lookup_insert_ne by done. intros fb. rewrite lookup_empty. discriminate.
  - intros g fb Hg. unfold protected in Hg. apply lookup_singleton_Some in Hg as [<- <-].
    rewrite decide_True by done. by rewrite lookup_insert_eq.
  - intros g fb. case_decide; [subst; unfold protected; rewrite lookup_singleton_eq; by eexists|].
    rewrite lookup_insert_ne by done. case_decide; [|discriminate]. subst.
    rewrite lookup_insert_eq. intros _ [= <-]. discriminate.
Qed.

Lemma SetName_names name o : exists l, on_names (Thread.SetName name) o = (set_names l o, Ret tt).
Proof.
  unfold on_names, Thread.SetName. case_bool_decide; [by eexists|].
  unfold cbind, Thread.GetThis, cget. destruct (Thread.t_thread (o_names o)); by eexists.
Qed.

Lemma root_init_ok config tid name names :
  exists mf r rb l, mf <> r /\ m_stack rb = true /\ new_root rb /\
    root_init config tid (before name None names)
    = (mkOwned (mkSched (<[r := rb]> (<[mf := main_fiber]> ∅)) (u64 (0 + 1)) (u64 (u64 (0 + 1) + 1))
                  [] 0 0 true false ∅ 0) name 0 tid (Some r) [tid] [] (Some this) l
         (Some mf) (Some mf) (Some r) false OOutside, Ret tt).
Proof.
  pose proof (GetThis_new (owner_view (before name None names)) eq_refl) as E1.
  set (mf := fresh (dom (fibers (owner_view (before name None names))))) in E1.
  unfold root_init. unfold cbind at 1, on_owner at 1. rewrite E1. cbn [fst snd].
  unfold GetThis_scheduler. rewrite cbind_get. cbn [t_scheduler set_tls].
  rewrite cbind_assert by done. rewrite cbind_mod. set (o1 := set_t_scheduler _ _).
  set (r := fresh (dom (fibers (owner_view o1)))).
  set (rb := mkFiber (u64 (0 + 1)) (u32 config) INIT CCallerMain true (Some PRun)).
  assert (E2 : Fiber_new config (Some PRun) 0 true (owner_view o1)
    = (set_fibers (<[r := rb]> (fibers (owner_view o1)))
         (set_counters (u64 (0 + 1)) (u64 (u64 (0 + 1) + 1)) (owner_view o1)), Ret r)) by done.
  unfold cbind at 1, on_owner at 1. rewrite E2. rewrite cbind_get. set (o2 := set_tls _ _ _ _).
  destruct (SetName_names (m_name o2) o2) as [l E3]. cstep E3. rewrite cbind_mod.
  assert (Hr : fibers (owner_view o1) !! r = None) by (apply not_elem_of_dom, is_fresh).
  change (fibers (owner_view o1)) with (<[mf := main_fiber]> (∅ : gmap nat Fiber)) in Hr.
  exists mf, r, rb, l. split; [|by repeat split].
  intros Heq. rewrite Heq, lookup_insert_eq in Hr. discriminate.
Qed.

Lemma ctor_ok config n (use_caller : bool) tid name sc names :
  0 < n -> tid <> -1 -> (if use_caller then sc = None else sc <> Some this) ->
  exists o, Scheduler_ctor config n use_caller tid (before name sc names) = (o, Ret tt) /\
    owned_ok o /\ o_loc o = OOutside /\ m_stopping (sched o) = true /\
    (m_rootThread o = tid \/ m_rootThread o = -1).
Proof.
  intros Hn Htid Hsc. unfold Scheduler_ctor. rewrite cbind_assert by (by apply Z.ltb_lt).
  destruct use_caller.
  - subst sc. destruct (root_init_ok config tid name names) as (mf & r & rb & l & Hne & Hs & Hnew & E).
    cstep E. eexists. split; [reflexivity|]. split; [|by auto]. split; [|done].
    exists ({[ r := rb ]} : gmap nat Fiber), (caller_roles mf r).
    constructor; cbn -[mains protected].
    + by apply (caller_SInv mf r rb).
    + intros t th. cbn. rewrite lookup_empty. discriminate.
    + intros g fb Hg. unfold protected in Hg. by apply lookup_singleton_Some in Hg as [<- <-].
    + intros t x. unfold mains. cbn. rewrite lookup_fmap, lookup_empty. discriminate.
    + intros t x. unfold mains. cbn. rewrite lookup_fmap, lookup_empty. discriminate.
    + unfold root_ok. cbn -[mains protected]. split; [done|]. split; [done|].
      split; [unfold mains; cbn; by rewrite lookup_fmap, lookup_empty|].
      split; [done|]. split; [by eexists|]. exists rb.
      split; [apply lookup_singleton_eq|]. split; [done|]. by left.
  - rewrite cbind_mod. eexists. split; [reflexivity|]. split; [|by auto]. split; [|done].
    exists (∅ : gmap nat Fiber), (fun _ => RFree). constructor; cbn -[mains]; try done.
    apply new_SInv.
Qed.

(** ** [Start] *)

Lemma own_start_thread P ro config o tid nm :
  own_inv P ro o -> o_loc o = OOutside -> threads (sched o) !! tid = None ->
  tid <> m_rootThread o ->
  exists ro' s', run_start config tid (sched o) = (s', Ret tt) /\ flags s' = flags (sched o) /\
    (forall t, t <> tid -> threads s' !! t = threads (sched o) !! t) /\
    own_inv P ro' (set_thrs (m_threadIds o ++ [tid]) (m_threads o ++ [(nm, tid)]) (set_sched s' o)).
Proof.
  intros I Hl Ht Hne. pose proof (oi_sched _ _ _ I) as S.
  destruct (run_start_run config (sched o) tid)
    as (s' & m & i & E & Hm & Hi & Him & Hth & (fb & Hh & _) & Hq & F1 & F2).
  destruct (run_start_ok config ro (sched o) tid S Ht) as (ro' & s'' & E' & S').
  assert (s'' = s') as -> by congruence. exists ro', s'. split; [done|]. split; [unfold flags; congruence|].
  split; [intros t Htn; by rewrite Hth, lookup_insert_ne|].
  assert (Hms : mains s' = <[tid := (Some m, Some m)]> (mains (sched o)))
    by (unfold mains; by rewrite Hth, fmap_insert).
  assert (Hpend : forall t, t ∈ (m_threads o ++ [(nm, tid)]).*2 <-> t ∈ (m_threads o).*2 \/ t = tid).
  { intros t. rewrite fmap_app. simpl. rewrite elem_of_app, list_elem_of_singleton. done. }
  destruct I as [I1 I2 I3 I4 I5 I7]. constructor; cbn -[mains]; try done.
  - intros t th. rewrite Hth, lookup_insert_Some. intros [[<- <-]|[_ Hx]]; [done|exact (I2 t th Hx)].
  - intros t x. rewrite Hms, lookup_insert_Some. intros [[<- <-]|[_ Hx]].
    + right. exists m, main_fiber. split; [done|]. by rewrite Hh, lookup_insert_ne, lookup_insert_eq.
    + destruct (I4 t x Hx) as [[Hc _]|(m' & mb & X1 & X2 & X3)]; [by rewrite Hl in Hc|].
      right. exists m', mb. split; [done|]. split; [|done].
      rewrite Hh, !lookup_insert_ne; [done|intros ->; congruence..].
  - intros t x. rewrite Hms, lookup_insert_Some. unfold pending. cbn. rewrite Hl, app_nil_r, Hpend.
    intros [[<- _]|[_ Hx]]; [auto|]. right. left.
    destruct (I5 t x Hx) as [[Hc _]|Hin]; [by rewrite Hl in Hc|].
    unfold pending in Hin. by rewrite Hl, app_nil_r in Hin.
  - unfold root_ok in *. cbn -[mains]. rewrite Hl in *. destruct (m_rootFiber o); [|done].
    by rewrite Hms, lookup_insert_ne.
Qed.

(** The ids of the new threads are new and different. *)
Definition new_ids (ids : nat -> Z) (i n : nat) (o : Owned) : Prop :=
  (forall j, (i <= j < i + n)%nat -> threads (sched o) !! ids j = None /\ ids j <> m_rootThread o) /\
  (forall j k, (i <= j < i + n)%nat -> (i <= k < i + n)%nat -> ids j = ids k -> j = k).

Lemma start_loop_ok P config ids n : forall i ro o,
  own_inv P ro o -> o_loc o = OOutside -> new_ids ids i n o ->
  exists ro' o', start_loop config ids i n o = (o', Ret tt) /\ own_inv P ro' o' /\
    o_loc o' = OOutside /\ flags (sched o') = flags (sched o) /\ m_threadCount o' = m_threadCount o /\
    (n = O -> m_threads o' = m_threads o).
Proof.
  induction n as [|n IH]; intros i ro o I Hl [H1 H2]; simpl; [by exists ro, o|].
  destruct (H1 i ltac:(lia)) as [Hn Hr].
  destruct (own_start_thread P ro config o (ids i) (m_name o ++ "_" ++ dec (Z.of_nat i))%string I Hl Hn Hr)
    as (ro1 & s1 & E & F & Hsame & I1).
  unfold on_sched, cbind at 1. rewrite E. rewrite cbind_mod. cbn [m_threadIds m_threads m_name set_sched].
  destruct (IH (S i) ro1 _ I1) as (ro' & o' & E2 & I2 & L2 & F2 & C2 & _).
  { done. }
  { split; cbn.
    - intros j Hj. rewrite Hsame; [apply H1; lia|]. intros Heq.
      pose proof (H2 j i ltac:(lia) ltac:(lia) Heq). lia.
    - intros j k Hj Hk. apply H2; lia. }
  exists ro', o'. split; [exact E2|]. split; [done|]. split; [done|].
  split; [rewrite F2; exact F|]. split; [rewrite C2; done|done].
Qed.

Lemma own_flags P ro o st au :
  own_inv P ro o -> own_inv P ro (set_sched (set_flags st au (sched o)) o).
Proof.
  intros I. apply (own_quiet P ro); try done. apply (SInv_ext ro (sched o)); try done. apply I.
Qed.

Lemma Start_ok config ids o :
  owned_ok o -> o_loc o = OOutside -> new_ids ids 0 (Z.to_nat (m_threadCount o)) o ->
  exists o', Start config ids o = (o', Ret tt) /\ owned_ok o' /\ o_loc o' = OOutside.
Proof.
  intros ((P & ro & I) & H1 & H2) Hl Hids. unfold Start. rewrite cbind_get.
  destruct (m_stopping (sched o)) eqn:Hst; simpl.
  2: { exists o. split; [done|]. split; [|done]. split; [by exists P, ro|]. split; [done|].
       rewrite Hl, Hst. done. }
  rewrite Hl in H2. pose proof (H2 eq_refl) as Hno.
  unfold on_sched, cmod, cbind at 1. rewrite cbind_get. cbn [m_threads set_sched]. rewrite Hno.
  rewrite cbind_assert by done. rewrite cbind_get. cbn [m_threadCount set_sched].
  destruct (start_loop_ok P config ids (Z.to_nat (m_threadCount o)) 0 ro _
    (own_flags P ro o false (m_autoStop (sched o)) I) Hl Hids)
    as (ro' & o' & E & I' & L' & F' & C' & Hn).
  exists o'. split; [exact E|]. split; [|done]. split; [by exists P, ro'|]. rewrite C'. simpl. split.
  - intros Hz. rewrite Hz in Hn. rewrite (Hn eq_refl). exact Hno.
  - rewrite L'. unfold flags in F'. simpl in F'. intros Hs. congruence.
Qed.

(** ** [Stop] *)

Lemma own_swap P ro o :
  own_inv P ro o -> o_loc o = OOutside ->
  exists o', swap_threads o = (o', Ret tt) /\ owned_ok o'.
Proof.
  intros [I1 I2 I3 I4 I5 I7] Hl. eexists. split; [reflexivity|]. split; [|done].
  exists P, ro. constructor; cbn -[mains]; try done.
  - intros t x Hx. destruct (I4 t x Hx) as [[Hc _]|]; [by rewrite Hl in Hc|by right].
  - intros t x Hx. right. destruct (I5 t x Hx) as [[Hc _]|Hin]; [by rewrite Hl in Hc|].
    unfold pending in *. by rewrite Hl, app_nil_r in Hin.
  - unfold root_ok in *. by rewrite Hl in I7.
Qed.

Lemma trickles_quiet n s :
  exists s', Nat.iter n (fun m : M Sched unit => trickle ;;; m) (cret tt) s = (s', Ret tt) /\
    threads s' = threads s /\ sfibers s' = sfibers s /\ m_fibers s' = m_fibers s /\
    flags s' = flags s /\ m_activeThreadCount s' = m_activeThreadCount s.
Proof.
  revert s. induction n as [|n IH]; intros s; simpl; [by exists s|].
  unfold trickle. rewrite cbind_mod. apply (IH (add_trickle s)).
Qed.

(** The root fiber was called and has ended. *)
Definition spent (o : Owned) : Prop :=
  exists r rb, m_rootFiber o = Some r /\ sfibers (sched o) !! r = Some rb /\ m_state rb = TERM.

(** A task is queued or in the hands of a thread. *)
Definition work_left (s : Sched) : bool :=
  negb (bool_decide (m_fibers s = []) && (m_activeThreadCount s =? 0)).

Lemma stopping_work (s : Sched) :
  m_autoStop s = true -> m_stopping s = true ->
  m_autoStop s && m_stopping s && bool_decide (m_fibers s = []) && (m_activeThreadCount s =? 0)
  = negb (work_left s).
Proof. intros -> ->. unfold work_left. by rewrite negb_involutive. Qed.

(** Outside, the root fiber is new or spent. *)
Lemma outside_root P ro o r :
  own_inv P ro o -> o_loc o = OOutside -> m_rootFiber o = Some r ->
  exists rb, @protected P !! r = Some rb /\ sfibers (sched o) !! r = Some rb /\
    is_Some (o_threadFiber o) /\ (new_root rb /\ ~ spent o \/ dead_root rb /\ spent o).
Proof.
  intros I Hl Er. pose proof (oi_root _ _ _ I) as Rt. unfold root_ok in Rt. rewrite Er, Hl in Rt.
  destruct Rt as (_ & _ & _ & _ & Hm & rb & X1 & _ & X2).
  destruct (si_prot _ _ (oi_sched _ _ _ I) r rb X1) as [_ Hr]. exists rb. do 3 (split; [done|]).
  destruct X2 as [Hn|[Hd Ht]]; [left; split; [done|]|right; split; [done|by exists r, rb]].
  intros (r' & rb' & E & F & G). simplify_eq. destruct Hn as (_ & ? & _). congruence.
Qed.

(** A spent root fiber is called again: control comes out behind the end of
    [CallerMainFunc]. *)
Lemma enter_spent config o r rb :
  sfibers (sched o) !! r = Some rb -> dead_root rb -> is_Some (o_threadFiber o) ->
  exists o', enter_loop config r o = (o', Undef AssertFailed).
Proof.
  intros Hr [Hd _] [mf Hm]. unfold enter_loop, on_owner, cbind at 1. unfold call, SetThis. rewrite cbind_mod.
  cstep (update_run r (set_state EXEC) rb (set_t_fiber (Some r) (owner_view o)) Hr).
  rewrite cbind_get. simpl. rewrite Hm, deref_run. unfold enter.
  erewrite cbind_ret by (apply fiber_run; simpl; apply lookup_insert_eq).
  simpl. rewrite Hd. by eexists.
Qed.

Lemma owner_state P ro o r rb :
  own_inv P ro o -> sfibers (sched o) !! r = Some rb ->
  on_owner (getState r) o = (o, Ret (m_state rb)).
Proof.
  intros I Hr. unfold on_owner. rewrite (getState_run r rb (owner_view o) Hr).
  destruct o as [s]. destruct s. reflexivity.
Qed.

Lemma same_flags o :
  set_sched (set_flags (m_stopping (sched o)) (m_autoStop (sched o)) (sched o)) o = o.
Proof. destruct o as [s]. by destruct s. Qed.

(** The test at the top of [Stop]: at most [m_stopping] changes. *)
Lemma stop_early_run P ro o :
  own_inv P ro o -> o_loc o = OOutside ->
  exists b st, stop_early o
    = (set_sched (set_flags st (m_autoStop (sched o)) (sched o)) o, Ret b) /\
    (b = true -> m_threadCount o = 0 /\ work_left (sched o) = false).
Proof.
  intros I Hl. unfold stop_early. rewrite !cbind_get.
  assert (Hno : exists b st, (o, Ret false)
    = (set_sched (set_flags st (m_autoStop (sched o)) (sched o)) o, Ret b) /\
      (b = true -> m_threadCount o = 0 /\ work_left (sched o) = false)).
  { exists false, (m_stopping (sched o)). by rewrite same_flags. }
  destruct (m_rootFiber o) as [r|] eqn:Er; [|exact Hno].
  destruct (Z.eqb_spec (m_threadCount o) 0) as [Hz|]; [|exact Hno].
  pose proof (oi_root _ _ _ I) as Rt. unfold root_ok in Rt. rewrite Er, Hl in Rt.
  destruct Rt as (_ & _ & _ & _ & _ & rb & X1 & _).
  destruct (si_prot _ _ (oi_sched _ _ _ I) r rb X1) as [_ Hr].
  cstep (owner_state P ro o r rb I Hr). destruct (_ || _); [|exact Hno].
  unfold set_stopping, on_sched, cmod, cbind, stopping, cget. eexists _, true.
  split; [reflexivity|]. cbn. intros Hb. split; [done|]. unfold work_left.
  apply andb_true_iff in Hb as [[_ ->]%andb_true_iff ->]. done.
Qed.

(** What [Stop] does: it fails an assertion when the root fiber is spent and
    work is left, and otherwise returns or is in the loop. *)
Definition stop_result (o o' : Owned) (x : outcome unit) : Prop :=
  match x with
  | Ret _ => owned_ok o' /\ ~ (spent o /\ work_left (sched o) = true)
  | Throw _ => False
  | Undef f => f = AssertFailed /\ spent o /\ work_left (sched o) = true
  end.

Lemma stop_workers_ok P ro config o :
  own_inv P ro o -> o_loc o = OOutside -> m_autoStop (sched o) = true ->
  (m_threadCount o = 0 -> m_threads o = []) ->
  exists o' x, stop_workers config o = (o', x) /\ stop_result o o' x.
Proof.
  intros I Hl Ha Hz. unfold stop_workers, GetThis_scheduler. rewrite !cbind_get.
  rewrite cbind_assert.
  2: { pose proof (oi_root _ _ _ I) as Rt. unfold root_ok in Rt. destruct (m_rootFiber o).
       - destruct Rt as (R1 & -> & _). apply Z.eqb_neq in R1. rewrite R1. done.
       - destruct Rt as (-> & R2 & _). simpl. by rewrite bool_decide_eq_false_2. }
  unfold set_stopping, on_sched, cmod, cbind at 1. rewrite cbind_get. unfold cbind at 1.
  cbn [sched set_sched m_threadCount].
  destruct (trickles_quiet (Z.to_nat (m_threadCount o)) (set_flags true (m_autoStop (sched o)) (sched o)))
    as (s1 & E1 & T1 & H1 & Q1 & F1 & A1).
  rewrite E1, cbind_get. cbn [m_rootFiber set_sched].
  assert (I1 : own_inv P ro (set_sched s1 (set_sched (set_flags true (m_autoStop (sched o)) (sched o)) o))).
  { apply (own_quiet P ro); try done; [by apply own_flags|].
    apply (SInv_ext ro (sched o)); try done. apply I. }
  assert (Hsw : forall o1, own_inv P ro o1 -> o_loc o1 = OOutside -> ~ (spent o /\ work_left (sched o) = true) ->
    exists o' x, swap_threads o1 = (o', x) /\ stop_result o o' x).
  { intros o1 J J' Hn. destruct (own_swap P ro o1 J J') as (o' & E & Ho). by exists o', (Ret tt). }
  destruct (m_rootFiber o) as [r|] eqn:Er.
  2: { apply Hsw; [done..|]. intros [(r & rb & Hr & _) _]. congruence. }
  unfold trickle, cmod, cbind at 1, stopping, cget, cbind at 1. cbn [sched set_sched].
  assert (I2 : own_inv P ro (set_sched (add_trickle s1)
    (set_sched s1 (set_sched (set_flags true (m_autoStop (sched o)) (sched o)) o)))).
  { apply (own_quiet P ro); try done. apply (SInv_ext ro s1); try done. apply I1. }
  assert (Ew : work_left (add_trickle s1) = work_left (sched o)).
  { unfold work_left. cbn. by rewrite Q1, A1. }
  injection F1 as F1 F2. cbn in F1, F2. rewrite stopping_work by (cbn; congruence).
  rewrite Ew. destruct (work_left (sched o)) eqn:Hw; cbn [negb]; [|by apply Hsw; [..|intros [_ ?]]].
  destruct (outside_root P ro o r I Hl Er) as (rb & X1 & X2 & X3 & [[X4 Hn]|[X4 Hsp]]).
  - destruct (own_enter P ro config _ r rb I2) as (P' & ro' & o' & E & I' & L' & M' & C'); try done.
    + cbn. by rewrite Hl.
    + cbn. by rewrite Hl.
    + exists o', (Ret tt). split; [exact E|]. split; [split; [by exists P', ro'|]|by intros [? _]].
      rewrite L', M', C'. done.
  - destruct (enter_spent config (set_sched (add_trickle s1)
      (set_sched s1 (set_sched (set_flags true (m_autoStop (sched o)) (sched o)) o))) r rb) as (o' & E); try done.
    + cbn. by rewrite H1.
    + exists o', (Undef AssertFailed). by split; [exact E|].
Qed.

Lemma Stop_ok config o :
  owned_ok o -> o_loc o = OOutside ->
  exists o' x, Stop config o = (o', x) /\ stop_result o o' x.
Proof.
  intros ((P & ro & I) & H1 & H2) Hl. unfold Stop, set_autoStop, on_sched at 1, cmod, cbind at 1.
  pose proof (own_flags P ro o (m_stopping (sched o)) true I) as I1.
  assert (Hst : forall o1 o' x, m_rootFiber o1 = m_rootFiber o -> sfibers (sched o1) = sfibers (sched o) ->
    work_left (sched o1) = work_left (sched o) -> stop_result o1 o' x -> stop_result o o' x).
  { intros o1 o' x E1 E2 E3. unfold stop_result, spent. by rewrite E1, E2, E3. }
  set (o1 := set_sched _ o) in *.
  destruct (stop_early_run P ro o1 I1 Hl) as (b & st & E & Hb). cstep E.
  pose proof (own_flags P ro o1 st (m_autoStop (sched o1)) I1) as I2.
  destruct b.
  - eexists _, (Ret tt). split; [reflexivity|]. destruct (Hb eq_refl) as [Hz Hw]. split.
    + split; [by exists P, ro|]. split; [done|]. intros _. by apply H1.
    + intros [_ Hw']. unfold work_left in *. cbn in *. congruence.
  - destruct (stop_workers_ok P ro config _ I2 Hl) as (o' & x & E' & Hx); [done..|].
    exists o', x. split; [exact E'|]. eapply Hst; [..|exact Hx]; done.
Qed.

(** ** The joins and the destructor *)

Lemma owner_join_ok o l :
  owned_ok o -> o_loc o = OJoining l -> exists o', join_step o = (o', Ret tt) /\ owned_ok o'.
Proof.
  intros ((P & ro & I) & H1 & H2) Hl. unfold join_step. rewrite cbind_get, Hl. rewrite Hl in H2.
  pose proof (H2 Logic.I) as Hno.
  assert (Hshrink : forall l', in_loop l' = false ->
    (forall t x, mains (sched o) !! t = Some x -> t ∈ l.*2 ->
       t ∈ match l' with OJoining k => k.*2 | _ => [] end) ->
    owned_ok (set_where l' o)).
  { intros l' Hil Hsub. split; [|split; [done|by intros _]]. exists P, ro.
    destruct I as [I1 I2 I3 I4 I5 I7]. constructor; cbn -[mains]; try done.
    - intros t x Hx. destruct (I4 t x Hx) as [[Hc _]|]; [by rewrite Hl in Hc|by right].
    - intros t x Hx. right. destruct (I5 t x Hx) as [[Hc _]|Hin]; [by rewrite Hl in Hc|].
      unfold pending in *. cbn. rewrite Hno in *. rewrite Hl in Hin. simpl in *. by apply (Hsub t x).
    - unfold root_ok in *. cbn -[mains]. rewrite Hl in I7. rewrite Hil. simpl in I7. done. }
  destruct l as [|th rest].
  - eexists. split; [reflexivity|]. apply Hshrink; [done|]. intros t x _ Hin. exact Hin.
  - rewrite cbind_get. destruct (threads (sched o) !! th.2) as [u|] eqn:Hu.
    + exists o. split; [done|]. split; [by exists P, ro|]. split; [done|]. by rewrite Hl.
    + eexists. split; [reflexivity|]. apply Hshrink; [done|]. intros t x Hx Hin.
      simpl in Hin. apply elem_of_cons in Hin as [->|Hin]; [|done].
      unfold mains in Hx. by rewrite lookup_fmap, Hu in Hx.
Qed.

Lemma stopped_empty o :
  owned_ok o -> o_loc o = OOutside -> m_stopping (sched o) = true -> threads (sched o) = ∅.
Proof.
  intros ((P & ro & I) & _ & H2) Hl Hs. rewrite Hl in H2. pose proof (H2 Hs) as Hno.
  apply map_empty. intros t. destruct (threads (sched o) !! t) as [th|] eqn:Ht; [|done].
  destruct (oi_known _ _ _ I t _ (mains_lookup _ _ _ Ht)) as [[Hc _]|Hin]; [by rewrite Hl in Hc|].
  unfold pending in Hin. rewrite Hno, Hl in Hin. by apply not_elem_of_nil in Hin.
Qed.

(** ** Runs *)

(** The owner creates the scheduler, starts and stops it; the threads of the
    loop, the owner's among them while it is there, take their steps; anybody
    schedules; threads end. *)
Inductive ostep (config : Z) : Owned -> Owned -> Prop :=
  | os_start ids o o' : o_loc o = OOutside -> new_ids ids 0 (Z.to_nat (m_threadCount o)) o ->
      Start config ids o = (o', Ret tt) -> ostep config o o'
  | os_thread tid th o s' : threads (sched o) !! tid = Some th ->
      allowed (Pr := hidden_root o) (sched o) th ->
      thread_step config tid (sched o) = (s', Ret tt) -> ostep config o (set_sched s' o)
  | os_cb cb t o s' : schedule (mkFT None (Some cb) t) (sched o) = (s', Ret tt) ->
      ostep config o (set_sched s' o)
  | os_fiber g t o s' : can_schedule (Pr := hidden_root o) (sched o) g ->
      schedule (mkFT (Some g) None t) (sched o) = (s', Ret tt) -> ostep config o (set_sched s' o)
  | os_new cb o : ostep config o (set_sched (new_user_fiber config cb (sched o)) o)
  | os_worker tid th o s' : threads (sched o) !! tid = Some th -> th_loc th = LExit ->
      ~ is_owner o tid -> worker_end tid (sched o) = (s', Ret tt) -> ostep config o (set_sched s' o)
  | os_stop o o' : o_loc o = OOutside -> Stop config o = (o', Ret tt) ->
      ostep config o o'
  | os_root_end th o o' : o_loc o = OInLoop -> threads (sched o) !! m_rootThread o = Some th ->
      th_loc th = LExit -> root_end o = (o', Ret tt) -> ostep config o o'
  | os_join l o o' : o_loc o = OJoining l -> join_step o = (o', Ret tt) -> ostep config o o'.

(** A scheduler made by thread [tid]. *)
Inductive made (config : Z) : Owned -> Prop :=
  | made_by n (use_caller : bool) tid name sc names o :
      0 < n -> tid <> -1 -> (if use_caller then sc = None else sc <> Some this) ->
      Scheduler_ctor config n use_caller tid (before name sc names) = (o, Ret tt) -> made config o.

Definition oreach (config : Z) (o : Owned) : Prop :=
  exists o0, made config o0 /\ rtc (ostep config) o0 o.

Lemma schedule_flags ft s s' u : schedule ft s = (s', Ret u) -> flags s' = flags s.
Proof. intros H. by destruct (still_schedule ft s s' u H) as (_ & _ & ?). Qed.

Lemma new_fiber_owned config cb o :
  owned_ok o -> owned_ok (set_sched (new_user_fiber config cb (sched o)) o).
Proof.
  intros Ho. pose proof Ho as ((P & ro & I) & _).
  destruct (sstep_inv (Pr := P) config (sched o) (new_user_fiber config cb (sched o)))
    as [ro' S']; [constructor|exists ro; apply I|].
  apply (owned_sched o _ P ro'); [done| |done].
  apply (own_step P ro); try done; [apply I|]. simpl. apply stack_le_new, not_elem_of_dom, is_fresh.
Qed.

Lemma schedule_owned ft o s' P ro ro' :
  own_inv P ro o -> owned_ok o -> schedule ft (sched o) = (s', Ret tt) -> entry_ok ft ->
  SInv (Pr := P) ro' s' -> owned_ok (set_sched s' o).
Proof.
  intros I Ho H He S'. destruct (schedule_run ft (sched o) He) as (s2 & H2 & Hq & Ht & Hh & _).
  assert (s2 = s') as -> by congruence. apply (owned_sched o s' P ro'); [done| |by eapply schedule_flags].
  by apply (own_quiet P ro).
Qed.

Lemma root_end_owned o o' th :
  owned_ok o -> o_loc o = OInLoop -> threads (sched o) !! m_rootThread o = Some th ->
  th_loc th = LExit -> root_end o = (o', Ret tt) -> owned_ok o'.
Proof.
  intros ((P & ro & I) & _) Hil Ht Hl E.
  destruct (own_root_end P ro o th I Hil Ht Hl) as (P' & ro' & o2 & E2 & I' & Hno).
  assert (o2 = o') as -> by congruence. split; [by exists P', ro'|]. by rewrite Hno.
Qed.

Lemma ostep_ok config o o' : ostep config o o' -> owned_ok o -> owned_ok o'.
Proof.
  intros Hst Ho. pose proof Ho as ((P & ro & I) & _).
  destruct Hst as [ids o o' Hl Hids E|tid th o s' Ht Ha E|cb t o s' E|g t o s' Hg E|cb o
    |tid th o s' Ht Hl Hn E|o o' Hl E|th o o' Hil Ht Hl E|l o o' Hl E].
  - destruct (Start_ok config ids o Ho Hl Hids) as (o2 & E2 & H & _). congruence.
  - destruct (own_thread P ro config o tid th I Ht Ha) as (ro' & s2 & E2 & I' & F).
    assert (s2 = s') as -> by congruence. by apply (owned_sched o s' P ro').
  - assert (He : entry_ok (mkFT None (Some cb) t)) by (split; [intros [? [=]]|intros [=]]).
    destruct (schedule_run _ (sched o) He) as (s2 & H2 & Hq & Ht & Hh & _).
    assert (s2 = s') as -> by congruence.
    apply (schedule_owned _ o s' P ro ro I Ho E He).
    eapply (schedule_cb_inv ro (sched o)); eauto. apply I.
  - assert (He : entry_ok (mkFT (Some g) None t)) by (split; eauto).
    destruct (schedule_run _ (sched o) He) as (s2 & H2 & Hq & Ht & Hh & _).
    assert (s2 = s') as -> by congruence.
    destruct (schedule_fiber_inv ro (sched o) s' g t (oi_sched _ _ _ I)
      (hidden_can_schedule P ro o g I Hg) Hq Ht Hh) as (ro' & S' & _).
    exact (schedule_owned _ o s' P ro ro' I Ho E He S').
  - by apply new_fiber_owned.
  - destruct (own_worker_end P ro o tid th I Ht Hl Hn) as (ro' & s2 & E2 & I' & F).
    assert (s2 = s') as -> by congruence. by apply (owned_sched o s' P ro').
  - destruct (Stop_ok config o Ho Hl) as (o2 & x & E2 & H). rewrite E in E2. simplify_eq. apply H.
  - by apply (root_end_owned o o' th).
  - destruct (owner_join_ok o l Ho Hl) as (o2 & E2 & H). congruence.
Qed.

Lemma oreach_ok config o : oreach config o -> owned_ok o.
Proof.
  intros (o0 & [n uc tid name sc names o1 Hn Ht Hs E] & R).
  destruct (ctor_ok config n uc tid name sc names Hn Ht Hs) as (o2 & E2 & Ho & _).
  assert (o2 = o1) as -> by congruence. clear E E2.
  induction R as [|x y z Hxy _ IH]; [done|]. apply IH. by eapply ostep_ok.
Qed.
