(* ===== verification/SchedulerLife.v ===== *)
(** * What the owner of a scheduler can rely on

    The theorems about the runs of SchedulerCallerSpec.v: creation, [Start],
    the loop on the workers and on the thread of the owner, [Stop], the joins
    and the destruction; and what happens to a scheduler with [use_caller] that
    is started a second time. *)

From Stdlib Require Import ZArith Lia String.
From stdpp Require Import base gmap list strings.
From S2P Require Import Prelude CString Mutex Thread Fiber.
From S2P Require Import Scheduler SchedulerSafe SchedulerTls SchedulerCaller SchedulerCallerSpec.

Local Open Scope Z_scope.
Local Open Scope cpp_scope.

(** C10: in every run of a scheduler, whether or not the thread that made it
    works for it, in which fibers are scheduled by the rule of SchedulerSafe.v
    (not while they are queued, taken or running on, and a queued fiber neither
    ends nor yields to READY: [can_schedule] and [allowed], which the code does
    not check; see [scheduled_twice_aborts]): every thread in the loop can take
    its next step, every thread past the loop can leave it with its fibers
    destroyed (the owner back into [Stop], through the end of its root fiber),
    and the owner, outside, can call [Start] and [Stop] as often as it likes, but
    for one case: [Stop] fails an assertion exactly when the root fiber was used
    up by an earlier [Stop] and work is left. *)
Theorem owned_scheduler_safe config o :
  oreach config o ->
  (forall tid th, threads (sched o) !! tid = Some th ->
     allowed (Pr := hidden_root o) (sched o) th ->
     exists s', thread_step config tid (sched o) = (s', Ret tt)) /\
  (forall tid th, threads (sched o) !! tid = Some th -> th_loc th = LExit ->
     (is_owner o tid -> exists o', root_end o = (o', Ret tt)) /\
     (~ is_owner o tid -> exists s', worker_end tid (sched o) = (s', Ret tt))) /\
  (o_loc o = OOutside -> forall ids, new_ids ids 0 (Z.to_nat (m_threadCount o)) o ->
     exists o', Start config ids o = (o', Ret tt)) /\
  (o_loc o = OOutside -> exists o' x, Stop config o = (o', x) /\
     (x = Ret tt /\ ~ (spent o /\ work_left (sched o) = true) \/
      x = Undef AssertFailed /\ spent o /\ work_left (sched o) = true)).
Proof.
  intros Ho%oreach_ok. pose proof Ho as ((P & ro & I) & _). split; [|split; [|split]].
  - intros tid th Ht Ha. destruct (own_thread P ro config o tid th I Ht Ha) as (_ & s' & E & _). eauto.
  - intros tid th Ht Hl. split.
    + intros [Hil ->]. destruct (o_loc o) eqn:El; try discriminate.
      destruct (own_root_end P ro o th I El Ht Hl) as (_ & _ & o' & E & _). eauto.
    + intros Hn. destruct (own_worker_end P ro o tid th I Ht Hl Hn) as (_ & s' & E & _). eauto.
  - intros Hl ids Hids. destruct (Start_ok config ids o Ho Hl Hids) as (o' & E & _). eauto.
  - intros Hl. destruct (Stop_ok config o Ho Hl) as (o' & x & E & Hx). exists o', x. split; [done|].
    destruct x as [[]| |g]; [left; by destruct Hx|done|right; by destruct Hx as (-> & ? & ?)].
Qed.

(** C11: when the owner is outside and the scheduler is stopping, as after
    every [Stop] that has returned, no thread is left in the loop or in the list
    of threads, and the destructor passes its assertion and clears the
    thread-local pointer of a scheduler that is the caller's own. *)
Theorem stopped_scheduler_is_empty config o :
  oreach config o -> o_loc o = OOutside -> m_stopping (sched o) = true ->
  threads (sched o) = ∅ /\ m_threads o = [] /\
  exists o', Scheduler_delete o = (o', Ret tt) /\ t_scheduler o' <> Some this.
Proof.
  intros Ho%oreach_ok Hl Hs. split; [by apply stopped_empty|]. split.
  - destruct Ho as (_ & _ & H). rewrite Hl in H. auto.
  - unfold Scheduler_delete, GetThis_scheduler. rewrite cbind_get, Hs, cbind_assert, cbind_get by done.
    case_bool_decide as Hsc; eexists; by split.
Qed.

(** ** Examples *)

(** Steps of thread [tid] in the loop. *)
Fixpoint steps (config tid : Z) (n : nat) : M Owned unit :=
  match n with O => cret tt | S n' => on_sched (thread_step config tid) ;;; steps config tid n' end.

(** One worker, 100, and the owner, 7. *)
Definition started : Owned := Eval vm_compute in
  fst ((Scheduler_ctor 131072 2 true 7 ;;; Start 131072 (fun i => 100 + Z.of_nat i))
         (before "io" None Thread.Locals_init)).

Lemma started_reached : oreach 131072 started.
Proof.
  eexists. split; [eapply (made_by _ 2 true 7 "io" None Thread.Locals_init);
    [lia|lia|reflexivity|vm_compute; reflexivity]|].
  eapply rtc_l; [|apply rtc_refl].
  eapply (os_start _ (fun i => 100 + Z.of_nat i)); [reflexivity| |vm_compute; reflexivity].
  split.
  - intros j Hj. split; [vm_compute; reflexivity|]. cbn. lia.
  - intros j k _ _. lia.
Qed.

(** The owner alone: it is started, given a callback, and stopped; the callback
    runs in the loop of the owner, and [Stop] returns. *)
Definition first_life : M Owned unit :=
  Scheduler_ctor 131072 1 true 7 ;;; Start 131072 (fun i => 100 + Z.of_nat i) ;;;
  on_sched (schedule (mkFT None (Some PRet) (-1))) ;;;
  Stop 131072 ;;; steps 131072 7 11 ;;; root_end ;;; join_step.

Definition stopped : Owned := Eval vm_compute in
  fst (first_life (before "io" None Thread.Locals_init)).

Ltac loop_step :=
  eapply rtc_l;
    [eapply (os_thread _ 7);
       [vm_compute; reflexivity
       |first [exact I | vm_compute; intros Hin; inversion Hin]
       |vm_compute; reflexivity]|].

Lemma stopped_reached : oreach 131072 stopped.
Proof.
  eexists. split; [eapply (made_by _ 1 true 7 "io" None Thread.Locals_init);
    [lia|lia|reflexivity|vm_compute; reflexivity]|].
  eapply rtc_l.
  { eapply (os_start _ (fun i => 100 + Z.of_nat i)); [reflexivity| |vm_compute; reflexivity].
    split; [intros j Hj|intros j k Hj]; cbn in Hj; lia. }
  eapply rtc_l; [eapply (os_cb _ PRet (-1)); vm_compute; reflexivity|].
  eapply rtc_l.
  { eapply os_stop; [reflexivity|vm_compute; reflexivity]. }
  do 11 loop_step.
  eapply rtc_l; [eapply os_root_end; [reflexivity|vm_compute; reflexivity..]|].
  eapply rtc_l; [eapply os_join; [reflexivity|vm_compute; reflexivity]|]. apply rtc_refl.
Qed.

Lemma stopped_scheduler_is_empty_witness :
  threads (sched stopped) = ∅ /\ m_threads stopped = [] /\
  exists o', Scheduler_delete stopped = (o', Ret tt) /\ t_scheduler o' <> Some this.
Proof.
  apply (stopped_scheduler_is_empty 131072 stopped stopped_reached); vm_compute; reflexivity.
Defined.

(** The same scheduler started again and given another callback. *)
Definition restarted : Owned := Eval vm_compute in
  fst ((Start 131072 (fun i => 100 + Z.of_nat i) ;;;
        on_sched (schedule (mkFT None (Some PRet) (-1)))) stopped).

Lemma restarted_reached : oreach 131072 restarted.
Proof.
  destruct stopped_reached as (o0 & Hm & R). exists o0. split; [done|]. transitivity stopped; [exact R|].
  eapply rtc_l.
  { eapply (os_start _ (fun i => 100 + Z.of_nat i)); [reflexivity| |vm_compute; reflexivity].
    split; [intros j Hj|intros j k Hj]; cbn in Hj; lia. }
  eapply rtc_l; [eapply (os_cb _ PRet (-1)); vm_compute; reflexivity|]. apply rtc_refl.
Qed.

(** [Stop] of the first life returns, that of the second does not. *)
Lemma owned_scheduler_safe_witness :
  (exists o', Stop 131072 started = (o', Ret tt)) /\
  exists o', Stop 131072 restarted = (o', Undef AssertFailed).
Proof.
  split.
  - destruct (proj2 (proj2 (proj2 (owned_scheduler_safe 131072 started started_reached))) eq_refl)
      as (o' & x & E & [[-> _]|(_ & (r & rb & Hr & Hrb & Hs) & _)]); [by exists o'|].
    vm_compute in Hr. injection Hr as <-. vm_compute in Hrb. injection Hrb as <-. discriminate Hs.
  - destruct (proj2 (proj2 (proj2 (owned_scheduler_safe 131072 restarted restarted_reached))) eq_refl)
      as (o' & x & E & [[-> Hn]|[-> _]]); [|by exists o'].
    destruct Hn. split; [|vm_compute; reflexivity]. eexists _, _.
    split; [vm_compute; reflexivity|]. split; vm_compute; reflexivity.
Defined.

(** ** A second life

    [Start] does not renew the root fiber: after a first [Stop] a scheduler that
    uses the caller can be started again, but its next [Stop] with work left
    calls the finished root fiber, which runs into the assertion behind the end
    of [CallerMainFunc]. *)
Theorem restarted_scheduler_aborts :
  snd ((first_life ;;; Start 131072 (fun i => 100 + Z.of_nat i) ;;;
        on_sched (schedule (mkFT None (Some PRet) (-1))))
         (before "io" None Thread.Locals_init)) = Ret tt /\
  snd ((first_life ;;; Start 131072 (fun i => 100 + Z.of_nat i) ;;;
        on_sched (schedule (mkFT None (Some PRet) (-1))) ;;; Stop 131072)
         (before "io" None Thread.Locals_init)) = Undef AssertFailed.
Proof. split; vm_compute; reflexivity. Qed.

(** ** The hooks of the owner

    [run] enables the hooks of its thread and nothing disables them: after
    [Stop] and the destructor the thread of the owner has its hooks on and no
    scheduler, so that the next hooked call that waits finds no IOManager. *)
Theorem hooks_stay_enabled :
  let x := (first_life ;;; Scheduler_delete) (before "io" None Thread.Locals_init) in
  snd x = Ret tt /\ o_hook (fst x) = true /\ t_scheduler (fst x) = None.
Proof. vm_compute. done. Qed.
