(* ===== verification/IOLife.v ===== *)
(** * The creation and the end of an IOManager (sylar/iomanager.cpp)

    The constructor on top of the scheduler's (SchedulerCaller.v): the epoll
    instance, the pipe that wakes the idle threads and its registration, the
    first contexts (IOManager.v), and [Start].  The destructor after its [Stop]:
    the descriptors, the contexts, and the destructor of the scheduler.  The
    kernel's table of descriptors is a set; what the system calls return are
    arguments. *)

From Stdlib Require Import ZArith Lia String.
From stdpp Require Import base gmap list strings.
From S2P Require Import Prelude CString Mutex Thread Fiber.
From S2P Require Import Scheduler SchedulerSafe SchedulerTls SchedulerCaller SchedulerCallerSpec IOManager.

Local Open Scope Z_scope.
Local Open Scope cpp_scope.

(** [watched]: the entries of the epoll instance for the pipe; [nonblock]: the
    descriptors with O_NONBLOCK; [registry]: the contexts, [None] when there are
    none. *)
Record IOM := mkIOM {
  base : Owned;
  registry : option IOManager;
  m_epfd : Z;
  m_trickleFds : Z * Z;
  open : gset Z;
  nonblock : gset Z;
  watched : gmap Z Z
}.

Definition set_base b x := mkIOM b (registry x) (m_epfd x) (m_trickleFds x) (open x) (nonblock x)
  (watched x).
Definition set_registry r x := mkIOM (base x) r (m_epfd x) (m_trickleFds x) (open x) (nonblock x)
  (watched x).
Definition set_epfd fd x := mkIOM (base x) (registry x) fd (m_trickleFds x) (open x) (nonblock x)
  (watched x).
Definition set_pipe_fds p x := mkIOM (base x) (registry x) (m_epfd x) p (open x) (nonblock x)
  (watched x).
Definition set_open s x := mkIOM (base x) (registry x) (m_epfd x) (m_trickleFds x) s (nonblock x)
  (watched x).
Definition set_nonblock fd x := mkIOM (base x) (registry x) (m_epfd x) (m_trickleFds x) (open x)
  ({[ fd ]} ∪ nonblock x) (watched x).
Definition set_watched fd ev x := mkIOM (base x) (registry x) (m_epfd x) (m_trickleFds x) (open x)
  (nonblock x) (<[fd := ev]> (watched x)).

Definition on_base {A} (m : M Owned A) : M IOM A := fun x =>
  let '(o, r) := m (base x) in (set_base o x, r).

(** [epoll_create] returns [fd], or a negative number. *)
Definition epoll_create (fd : Z) : M IOM Z :=
  (if 0 <=? fd then cmod (fun x => set_open ({[ fd ]} ∪ open x) x) else cret tt) ;;; cret fd.

(** [pipe] fills the array with two new descriptors and returns 0, or fails. *)
Definition pipe (p : option (Z * Z)) : M IOM Z :=
  match p with
  | Some (r, w) =>
      cmod (fun x => set_pipe_fds (r, w) (set_open ({[ r ]} ∪ ({[ w ]} ∪ open x)) x)) ;;; cret 0
  | None => cret (-1)
  end.

Definition close (fd : Z) : M IOM unit := cmod (fun x => set_open (open x ∖ {[ fd ]}) x).

(** The constructor; [fcntl_rt] and [ctl_rt] are the results of the two calls
    on the reading end. *)
Definition IOManager_ctor (config threads : Z) (use_caller : bool) (tid : Z) (ids : nat -> Z)
    (epfd : Z) (p : option (Z * Z)) (fcntl_rt ctl_rt : Z) : M IOM unit :=
  on_base (Scheduler_ctor config threads use_caller tid) ;;;
  let! fd := epoll_create epfd in
  cmod (set_epfd fd) ;;;
  cassert (0 <? fd) ;;;
  let! rt := pipe p in
  cassert (rt =? 0) ;;;
  let! fds := cget m_trickleFds in
  (if fcntl_rt =? 0 then cmod (set_nonblock fds.1) else cret tt) ;;;
  cassert (fcntl_rt =? 0) ;;;
  (if ctl_rt =? 0 then cmod (set_watched fds.1 (Z.lor EPOLLIN EPOLLET)) else cret tt) ;;;
  cassert (ctl_rt =? 0) ;;;
  cmod (set_registry (Some (fst (contextResize 32 (mkIO [] 0 ∅ []))))) ;;;
  on_base (Start config ids).

(** The destructor after [Stop]: the descriptors, the contexts, and then the
    destructor of the base class. *)
Definition IOManager_dtor : M IOM unit :=
  let! e := cget m_epfd in
  close e ;;;
  let! fds := cget m_trickleFds in
  close fds.1 ;;;
  close fds.2 ;;;
  cmod (set_registry None) ;;;
  on_base Scheduler_delete.

(** A thread without an IOManager and its descriptors. *)
Definition IOM_before (name : string) (sc : option nat) (names : Thread.Locals) (fds : gset Z) : IOM :=
  mkIOM (before name sc names) None (-1) (-1, -1) fds ∅ ∅.

(** The descriptors that the kernel hands out are new. *)
Definition new_descriptors (fds : gset Z) (e r w : Z) : Prop :=
  0 < e /\ (e ∉ fds) /\ (r ∉ fds) /\ (w ∉ fds) /\ e <> r /\ e <> w /\ r <> w.

Lemma on_base_run {A} (m : M Owned A) x o r :
  m (base x) = (o, r) -> on_base m x = (set_base o x, r).
Proof. intros E. unfold on_base. by rewrite E. Qed.

Lemma base_ctor_ok config n (use_caller : bool) tid ids name sc names :
  0 < n -> tid <> -1 -> (if use_caller then sc = None else sc <> Some this) ->
  (forall j, ids j <> tid /\ ids j <> -1) -> (forall j k, ids j = ids k -> j = k) ->
  exists o1 o2, Scheduler_ctor config n use_caller tid (before name sc names) = (o1, Ret tt) /\
    Start config ids o1 = (o2, Ret tt) /\ owned_ok o2.
Proof.
  intros Hn Ht Hs Hid Hinj.
  destruct (ctor_ok config n use_caller tid name sc names Hn Ht Hs) as (o1 & E1 & H1 & L1 & S1 & R1).
  destruct (Start_ok config ids o1 H1 L1) as (o2 & E2 & H2 & _).
  { split; [|auto]. intros j _. rewrite (stopped_empty o1 H1 L1 S1), lookup_empty.
    split; [done|]. destruct (Hid j), R1; congruence. }
  by exists o1, o2.
Qed.

(** A constructor whose system calls succeed leaves the registry empty
    with 32 contexts, the reading end of the pipe non-blocking and registered
    for edge-triggered input, and a scheduler that satisfies its invariant;
    exactly three descriptors are open more, and the destructor of an IOManager
    that has stopped closes exactly these. *)
Theorem iomanager_life config n (use_caller : bool) tid ids e r w name sc names fds :
  0 < n -> tid <> -1 -> (if use_caller then sc = None else sc <> Some this) ->
  (forall j, ids j <> tid /\ ids j <> -1) -> (forall j k, ids j = ids k -> j = k) ->
  new_descriptors fds e r w ->
  exists x, IOManager_ctor config n use_caller tid ids e (Some (r, w)) 0 0
              (IOM_before name sc names fds) = (x, Ret tt) /\
    registry x = Some IOManager_new /\ r ∈ nonblock x /\
    watched x !! r = Some (Z.lor EPOLLIN EPOLLET) /\ owned_ok (base x) /\
    open x = {[ r ]} ∪ ({[ w ]} ∪ ({[ e ]} ∪ fds)) /\
    forall x1, open x1 = open x -> m_epfd x1 = m_epfd x -> m_trickleFds x1 = m_trickleFds x ->
      m_stopping (sched (base x1)) = true ->
      exists x2, IOManager_dtor x1 = (x2, Ret tt) /\ open x2 = fds /\ registry x2 = None.
Proof.
  intros Hn Ht Hs Hid Hinj (He & F1 & F2 & F3 & D1 & D2 & D3).
  destruct (base_ctor_ok config n use_caller tid ids name sc names Hn Ht Hs Hid Hinj)
    as (o1 & o2 & E1 & E2 & H2).
  unfold IOManager_ctor. cstep (on_base_run _ (IOM_before name sc names fds) o1 _ E1).
  set (x0 := set_base o1 _).
  assert (Ec : epoll_create e x0 = (set_open ({[ e ]} ∪ open x0) x0, Ret e))
    by (unfold epoll_create; by replace (0 <=? e) with true by lia).
  cstep Ec. rewrite cbind_mod, cbind_assert by lia. set (y1 := set_epfd e _).
  assert (Ep : pipe (Some (r, w)) y1
    = (set_pipe_fds (r, w) (set_open ({[ r ]} ∪ ({[ w ]} ∪ open y1)) y1), Ret 0)) by done.
  cstep Ep.
  change (0 =? 0) with true. cbv iota.
  rewrite cbind_assert, cbind_get, cbind_mod, cbind_assert, cbind_mod, cbind_assert, cbind_mod by done.
  erewrite (on_base_run (Start config ids) _ o2); [|exact E2]. eexists. split; [reflexivity|].
  split; [reflexivity|]. split; [set_solver|]. split; [apply lookup_insert_eq|]. split; [done|].
  split; [done|]. cbn. intros x1 O1 P1 P2 St. unfold IOManager_dtor, close, on_base.
  unfold cbind, cget, cmod. cbn. rewrite P1, P2. cbn.
  unfold Scheduler_delete. unfold cbind, cget, cassert. rewrite St. cbn.
  destruct (bool_decide _); eexists; (split; [reflexivity|]); (split; [|done]); cbn;
    rewrite O1; set_solver.
Qed.

Example iomanager_created :
  exists x, IOManager_ctor 131072 2 true 7 (fun i => 100 + Z.of_nat i) 3 (Some (4, 5)) 0 0
              (IOM_before "io" None Thread.Locals_init {[0; 1; 2]}) = (x, Ret tt) /\
    registry x = Some IOManager_new.
Proof.
  edestruct (iomanager_life 131072 2 true 7 (fun i => 100 + Z.of_nat i) 3 4 5 "io" None
    Thread.Locals_init {[0; 1; 2]}) as (x & E & R & _); [lia|lia|reflexivity| | | |].
  - intros j. lia.
  - intros j k. lia.
  - unfold new_descriptors. repeat split; try lia; set_solver.
  - exists x. split; [exact E|exact R].
Qed.
