(* ===== verification/Socket.v ===== *)
(** * Sockets (sylar/socket.h, sylar/socket.cpp)

    A [Socket] owns at most one descriptor.  The system calls are the class
    [Kernel]: they act on a [world], of which the class knows the open
    descriptors and the descriptor contexts (FdManager.v); what the calls do to
    the open descriptors and to the bytes is [KernelLaws].  [B] is the type of a
    byte, [A] the type of the addresses. *)

From Stdlib Require Import ZArith Lia.
From stdpp Require Import base list gmap sets.
From S2P Require Import Prelude FdManager.

Local Open Scope Z_scope.
Local Open Scope cpp_scope.

Definition AF_UNIX : Z := 1.
Definition AF_INET : Z := 2.
Definition AF_INET6 : Z := 10.
Definition SOCK_STREAM : Z := 1.
Definition SOCK_DGRAM : Z := 2.
Definition SOL_SOCKET : Z := 1.
Definition SO_REUSEADDR : Z := 2.
Definition IPPROTO_TCP : Z := 6.
Definition TCP_NODELAY : Z := 1.

(** The most that one call transfers. *)
Definition MAX_RW_COUNT : Z := 2147479552.

Class Kernel (B A : Type) : Type := {
  world : Type;
  k_open : world -> gset Z;
  (** What the peer of a descriptor has sent and was not received, and what was
      sent to it. *)
  k_in : Z -> world -> list B;
  k_out : Z -> world -> list B;
  k_fdmgr : world -> FdManager;
  k_fstat : Z -> option bool;
  addr_family : A -> Z;
  UnknowAddress : Z -> A;
  k_socket : Z -> Z -> Z -> world -> world * Z;
  k_close : Z -> world -> world;
  k_setsockopt : Z -> Z -> Z -> list Z -> world -> world * Z;
  k_bind : Z -> A -> world -> world * Z;
  (** [connect] and, with a time limit, [connect_with_timeout]. *)
  k_connect : Z -> A -> option Z -> world -> world * Z;
  k_listen : Z -> Z -> world -> world * Z;
  k_accept : Z -> world -> world * Z;
  k_getpeername : Z -> world -> option A;
  k_getsockname : Z -> world -> option A;
  (** [recv] and [recvmsg]: the result and the bytes stored, in order. *)
  k_recv : Z -> Z -> world -> world * (Z * list B);
  (** [send] and [sendmsg] of the bytes, in order. *)
  k_send : Z -> list B -> world -> world * Z
}.

(** What the calls promise. *)
Class KernelLaws {B A} (K : Kernel B A) : Prop := {
  socket_opens f t p w w' fd : k_socket f t p w = (w', fd) ->
    (fd = -1 /\ k_open w' = k_open w) \/ (0 <= fd /\ (fd ∉ k_open w) /\ k_open w' = ({[fd]} ∪ k_open w));
  accept_opens s w w' fd : k_accept s w = (w', fd) ->
    (fd = -1 /\ k_open w' = k_open w) \/ (0 <= fd /\ (fd ∉ k_open w) /\ k_open w' = ({[fd]} ∪ k_open w));
  close_closes fd w : k_open (k_close fd w) = k_open w ∖ {[fd]};
  setsockopt_open fd l o v w : k_open (k_setsockopt fd l o v w).1 = k_open w;
  bind_open fd a w : k_open (k_bind fd a w).1 = k_open w;
  connect_open fd a t w : k_open (k_connect fd a t w).1 = k_open w;
  listen_open fd b w : k_open (k_listen fd b w).1 = k_open w;
  recv_open fd n w : k_open (k_recv fd n w).1 = k_open w;
  send_open fd d w : k_open (k_send fd d w).1 = k_open w;
  recv_bytes fd n w w' rt d : 0 <= n -> k_recv fd n w = (w', (rt, d)) ->
    -1 <= rt <= Z.min n MAX_RW_COUNT /\ zlen d = Z.max 0 rt
    /\ k_in fd w = d ++ k_in fd w' /\ k_out fd w' = k_out fd w;
  send_bytes fd d w w' rt : k_send fd d w = (w', rt) ->
    -1 <= rt <= Z.min (zlen d) MAX_RW_COUNT
    /\ k_out fd w' = k_out fd w ++ take (Z.to_nat rt) d /\ k_in fd w' = k_in fd w
}.

Section socket.
Context {B A : Type} {K : Kernel B A}.

Record Socket : Type := mkSocket {
  m_sock : Z;
  m_family : Z;
  m_type : Z;
  m_protocol : Z;
  m_isConnect : bool;
  m_localAddress : option A;
  m_remoteAddress : option A
}.

Definition Socket_new (family type protocol : Z) : Socket :=
  mkSocket (-1) family type protocol false None None.

Definition CreateTCP (address : A) : Socket := Socket_new (addr_family address) SOCK_STREAM 0.
Definition CreateUDP (address : A) : Socket := Socket_new (addr_family address) SOCK_DGRAM 0.
Definition CreateTCPSocket : Socket := Socket_new AF_INET SOCK_STREAM 0.
Definition CreateUDPSocket : Socket := Socket_new AF_INET SOCK_DGRAM 0.
Definition CreateTCPSocket6 : Socket := Socket_new AF_INET6 SOCK_STREAM 0.
Definition CreateUDPSocket6 : Socket := Socket_new AF_INET6 SOCK_DGRAM 0.
Definition CreateUnixTCPSocket : Socket := Socket_new AF_UNIX SOCK_STREAM 0.
Definition CreateUnixUDPSocket : Socket := Socket_new AF_UNIX SOCK_DGRAM 0.

(** The object and the world it acts on. *)
Definition St : Type := Socket * world.

Definition set_sock (fd : Z) (s : Socket) : Socket :=
  mkSocket fd (m_family s) (m_type s) (m_protocol s) (m_isConnect s) (m_localAddress s) (m_remoteAddress s).
Definition set_connect (b : bool) (s : Socket) : Socket :=
  mkSocket (m_sock s) (m_family s) (m_type s) (m_protocol s) b (m_localAddress s) (m_remoteAddress s).
Definition set_local (a : option A) (s : Socket) : Socket :=
  mkSocket (m_sock s) (m_family s) (m_type s) (m_protocol s) (m_isConnect s) a (m_remoteAddress s).
Definition set_remote (a : option A) (s : Socket) : Socket :=
  mkSocket (m_sock s) (m_family s) (m_type s) (m_protocol s) (m_isConnect s) (m_localAddress s) a.

Definition upd (f : Socket -> Socket) : M St unit := cmod (fun st => (f st.1, st.2)).
Definition get {X} (f : Socket -> X) : M St X := cget (fun st => f st.1).
(** A system call. *)
Definition sys {X} (f : world -> world * X) : M St X := fun st =>
  let '(w', x) := f st.2 in ((st.1, w'), Ret x).

Definition isValid : M St bool := get (fun s => negb (m_sock s =? -1)).
Definition isConnected : M St bool := get m_isConnect.

Definition setOption (level option_ : Z) (val : list Z) : M St bool :=
  let! fd := get m_sock in
  let! rt := sys (k_setsockopt fd level option_ val) in
  cret (rt =? 0).

(** [struct timeval] of a number of milliseconds. *)
Definition timeval (v : Z) : list Z := [i32 (v / 1000); i32 (v mod 1000 * 1000)].
Definition setSendTimeout (v : Z) : M St unit :=
  setOption SOL_SOCKET SO_SNDTIMEO (timeval v) ;;; cret tt.
Definition setRecvTimeout (v : Z) : M St unit :=
  setOption SOL_SOCKET SO_RCVTIMEO (timeval v) ;;; cret tt.

(** [FdMgr::GetInstance()->get(fd)] and the object it points to. *)
Definition fd_ctx (fd : Z) : M St (option FdCtx) := fun st =>
  match FdManager.get k_fstat fd false (k_fdmgr st.2) with
  | (m, Ret (Some p)) => (st, Ret (ctxs m !! p))
  | (_, Ret None) => (st, Ret None)
  | (_, Throw e) => (st, Throw e)
  | (_, Undef f) => (st, Undef f)
  end.

Definition getTimeout_of (type : Z) : M St Z :=
  let! fd := get m_sock in
  let! ctx := fd_ctx fd in
  cret (match ctx with Some c => i64 (FdManager.getTimeout type c) | None => -1 end).
Definition getSendTimeout : M St Z := getTimeout_of SO_SNDTIMEO.
Definition getRecvTimeout : M St Z := getTimeout_of SO_RCVTIMEO.

Definition getRemoteAddress : M St A := fun st =>
  match m_remoteAddress st.1 with
  | Some a => (st, Ret a)
  | None => match k_getpeername (m_sock st.1) st.2 with
            | None => (st, Ret (UnknowAddress (m_family st.1)))
            | Some a => ((set_remote (Some a) st.1, st.2), Ret a)
            end
  end.

Definition getLocalAddress : M St A := fun st =>
  match m_localAddress st.1 with
  | Some a => (st, Ret a)
  | None => match k_getsockname (m_sock st.1) st.2 with
            | None => (st, Ret (UnknowAddress (m_family st.1)))
            | Some a => ((set_local (Some a) st.1, st.2), Ret a)
            end
  end.

Definition initSock : M St unit :=
  setOption SOL_SOCKET SO_REUSEADDR [1] ;;;
  let! type := get m_type in
  if type =? SOCK_STREAM then setOption IPPROTO_TCP TCP_NODELAY [1] ;;; cret tt else cret tt.

Definition newSock : M St unit :=
  let! s := get id in
  let! fd := sys (k_socket (m_family s) (m_type s) (m_protocol s)) in
  upd (set_sock fd) ;;;
  if fd =? -1 then cret tt else initSock.

Definition init (sock : Z) : M St bool :=
  let! ctx := fd_ctx sock in
  match ctx with
  | Some c =>
      if m_isSocket c && negb (m_isClsed c) then
        upd (set_sock sock) ;;;
        upd (set_connect true) ;;;
        initSock ;;;
        getLocalAddress ;;;
        getRemoteAddress ;;;
        cret true
      else cret false
  | None => cret false
  end.

Definition close : M St bool :=
  let! s := get id in
  if negb (m_isConnect s) && (m_sock s =? -1) then cret false
  else
    upd (set_connect false) ;;;
    (if m_sock s =? -1 then cret tt
     else sys (fun w => (k_close (m_sock s) w, tt)) ;;; upd (set_sock (-1))) ;;;
    cret false.

(** [if (!isValid()) { newSock(); if (!isValid()) return false; }] *)
Definition ensure_valid : M St bool :=
  let! v := isValid in
  if v then cret true else newSock ;;; isValid.

Definition bind (addr : A) : M St bool :=
  let! v := ensure_valid in
  if negb v then cret false else
  let! s := get id in
  if negb (addr_family addr =? m_family s) then cret false else
  let! rt := sys (k_bind (m_sock s) addr) in
  if negb (rt =? 0) then cret false else
  getLocalAddress ;;; cret true.

Definition connect (addr : A) (timeout_ms : Z) : M St bool :=
  let! v := ensure_valid in
  if negb v then cret false else
  let! s := get id in
  if negb (addr_family addr =? m_family s) then cret false else
  let! rt := sys (k_connect (m_sock s) addr
                    (if timeout_ms =? u64 (-1) then None else Some timeout_ms)) in
  if negb (rt =? 0) then close ;;; cret false else
  upd (set_connect true) ;;;
  getRemoteAddress ;;;
  getLocalAddress ;;;
  cret true.

Definition reconnect (timeout_ms : Z) : M St bool :=
  let! s := get id in
  match m_remoteAddress s with
  | None => cret false
  | Some a => upd (set_local None) ;;; connect a timeout_ms
  end.

Definition listen (backlog : Z) : M St bool :=
  let! v := isValid in
  if negb v then cret false else
  let! fd := get m_sock in
  let! rt := sys (k_listen fd backlog) in
  cret (rt =? 0).

(** The new object lives beside this one; it shares the world. *)
Definition accept : M St (option Socket) :=
  let! s := get id in
  let! newsock := sys (k_accept (m_sock s)) in
  if newsock =? -1 then cret None else
  fun st =>
    match init newsock (Socket_new (m_family s) (m_type s) (m_protocol s), st.2) with
    | ((sock, w'), Ret ok) => ((st.1, w'), Ret (if ok then Some sock else None))
    | ((_, w'), Throw e) => ((st.1, w'), Throw e)
    | ((_, w'), Undef f) => ((st.1, w'), Undef f)
    end.

Definition recv (length : Z) : M St (Z * list B) :=
  let! c := isConnected in
  if c then let! fd := get m_sock in
            let! r := sys (k_recv fd length) in
            cret (i32 r.1, r.2)
  else cret (-1, []).

Definition send (buffer : list B) : M St Z :=
  let! c := isConnected in
  if c then let! fd := get m_sock in
            let! r := sys (k_send fd buffer) in
            cret (i32 r)
  else cret (-1).
End socket.
Arguments Socket _ : clear implicits.
Arguments St : clear implicits.
