(* ===== verification/SocketSpec.v ===== *)
(** * Who owns a descriptor

    [sock_ok U st]: of the open descriptors, [U] belong to others, and the
    object owns the rest, which is its [m_sock] or nothing. *)

From Stdlib Require Import ZArith Lia.
From stdpp Require Import base list gmap sets.
From S2P Require Import Prelude FdManager Socket.

Local Open Scope Z_scope.
Local Open Scope cpp_scope.

Section discipline.
Context {B A : Type} {K : Kernel B A} {L : KernelLaws K}.
Implicit Types (s : Socket A) (st : St B A K) (U : gset Z).

Definition owned s : gset Z := if m_sock s =? -1 then ∅ else {[m_sock s]}.

Definition sock_ok U st : Prop :=
  k_open st.2 = owned st.1 ∪ U /\ owned st.1 ## U /\ (m_isConnect st.1 = true -> m_sock st.1 <> -1).

(** The call returns and keeps the discipline. *)
Definition keeps {X} (m : M (St B A K) X) : Prop := forall U st,
  sock_ok U st -> sock_ok U (m st).1 /\ exists x, (m st).2 = Ret x.

Lemma disc_ret {X} (x : X) : keeps (cret x).
Proof. intros U st H. simpl. eauto. Qed.

Lemma disc_get {X} (f : Socket A -> X) : keeps (Socket.get f).
Proof. intros U st H. simpl. eauto. Qed.

Lemma bind_get {X Y} (f : Socket A -> X) (k : X -> M (St B A K) Y) st :
  cbind (Socket.get f) k st = k (f st.1) st.
Proof. reflexivity. Qed.

Lemma bind_sys {X Y} (f : world -> world * X) (k : X -> M (St B A K) Y) s w w' x :
  f w = (w', x) -> cbind (sys f) k (s, w) = k x (s, w').
Proof. intros E. unfold cbind, sys. cbn [snd]. rewrite E. reflexivity. Qed.

Lemma bind_upd {Y} (f : Socket A -> Socket A) (k : unit -> M (St B A K) Y) s w :
  cbind (upd f) k (s, w) = k tt (f s, w).
Proof. reflexivity. Qed.

Lemma keeps_bind {X Y} (m : M (St B A K) X) (k : X -> M (St B A K) Y) :
  keeps m -> (forall x, keeps (k x)) -> keeps (cbind m k).
Proof.
  intros Hm Hk U st H. unfold cbind. destruct (Hm U st H) as [H1 [x Hx]].
  destruct (m st) as [st' o]. simpl in *. subst o. apply Hk. exact H1.
Qed.

(** Calls that leave the descriptor, the connection flag and the open
    descriptors as they are. *)
Definition still {X} (m : M (St B A K) X) : Prop := forall st,
  m_sock (m st).1.1 = m_sock st.1 /\ m_isConnect (m st).1.1 = m_isConnect st.1
  /\ k_open (m st).1.2 = k_open st.2 /\ exists x, (m st).2 = Ret x.

Lemma still_keeps {X} (m : M (St B A K) X) : still m -> keeps m.
Proof.
  intros Hq U st (H1 & H2 & H3). destruct (Hq st) as (E1 & E2 & E3 & E4). split; [|exact E4].
  unfold sock_ok, owned in *. rewrite E1, E2, E3. auto.
Qed.

Lemma still_ret {X} (x : X) : still (cret x).
Proof. intros st. repeat split. eexists. reflexivity. Qed.

Lemma still_get {X} (f : Socket A -> X) : still (Socket.get f).
Proof. intros st. repeat split. eexists. reflexivity. Qed.

Lemma still_bind {X Y} (m : M (St B A K) X) (k : X -> M (St B A K) Y) :
  still m -> (forall x, still (k x)) -> still (cbind m k).
Proof.
  intros Hm Hk st. destruct (Hm st) as (E1 & E2 & E3 & x & Hx). destruct (m st) as [st' o] eqn:E.
  cbn [fst snd] in *. subst o. rewrite (cbind_ret _ _ _ _ _ E).
  destruct (Hk x st') as (F1 & F2 & F3 & F4). rewrite F1, F2, F3. auto.
Qed.

Lemma still_sys {X} (f : world -> world * X) : (forall w, k_open (f w).1 = k_open w) -> still (sys f).
Proof.
  intros Hf [s w]. specialize (Hf w). unfold sys. cbn [snd]. destruct (f w) as [w' x].
  repeat split; [exact Hf|]. eexists. reflexivity.
Qed.

Create HintDb keeps.
#[local] Hint Resolve still_ret still_get disc_ret disc_get : keeps.
#[local] Hint Resolve still_keeps | 5 : keeps.

Ltac still_tac :=
  repeat first
    [ solve [auto 1 with keeps nocore]
    | apply still_bind; [|intros ?]
    | apply still_sys; intros ?;
      (apply setsockopt_open || apply listen_open || apply recv_open || apply send_open)
    | match goal with |- still (if ?b then _ else _) => destruct b end ].

Lemma still_setOption l o v : still (setOption l o v).
Proof. unfold setOption. still_tac. Qed.
#[local] Hint Resolve still_setOption : keeps.

Lemma still_initSock : still initSock.
Proof. unfold initSock. still_tac. Qed.

Lemma still_getRemoteAddress : still getRemoteAddress.
Proof.
  intros [s w]. unfold getRemoteAddress. cbn [fst snd].
  destruct (m_remoteAddress s); [|destruct (k_getpeername _ _)]; repeat split; eexists; reflexivity.
Qed.

Lemma still_getLocalAddress : still getLocalAddress.
Proof.
  intros [s w]. unfold getLocalAddress. cbn [fst snd].
  destruct (m_localAddress s); [|destruct (k_getsockname _ _)]; repeat split; eexists; reflexivity.
Qed.

Lemma still_listen b : still (listen b).
Proof. unfold listen, isValid. still_tac. Qed.

Lemma still_recv n : still (recv n).
Proof. unfold recv, isConnected. still_tac. Qed.

Lemma still_send d : still (send d).
Proof. unfold send, isConnected. still_tac. Qed.

Lemma still_timeouts v : still (setSendTimeout v) /\ still (setRecvTimeout v).
Proof. split; [unfold setSendTimeout|unfold setRecvTimeout]; still_tac. Qed.

Lemma still_set_local a : still (upd (set_local a)).
Proof. intros st. repeat split. eexists. reflexivity. Qed.

#[local] Hint Resolve still_initSock still_getRemoteAddress still_getLocalAddress still_listen
  still_recv still_send still_set_local : keeps.

(** Splits a call into calls that are known to keep the discipline. *)
Ltac keeps_tac :=
  repeat first
    [ solve [auto 2 with keeps nocore]
    | apply keeps_bind; [|intros ?]
    | apply still_keeps, still_sys; intros ?; (apply bind_open || apply connect_open)
    | match goal with
      | |- keeps (if ?b then _ else _) => destruct b
      | |- keeps (match ?o with _ => _ end) => destruct o
      end ].

(** A new descriptor, taken when the object has none. *)
Lemma newSock_ok U st :
  sock_ok U st -> m_sock st.1 = -1 -> sock_ok U (newSock st).1 /\ (newSock st).2 = Ret tt.
Proof.
  destruct st as [s w]. intros (H1 & H2 & H3) Hs. simpl in *. unfold newSock.
  rewrite bind_get. cbn [fst id].
  destruct (k_socket (m_family s) (m_type s) (m_protocol s) w) as [w' fd] eqn:E.
  rewrite (bind_sys _ _ _ _ _ _ E), bind_upd.
  assert (Hown : owned s = ∅) by (unfold owned; rewrite Hs; reflexivity).
  assert (Hc : m_isConnect s = false) by (destruct (m_isConnect s); [destruct (H3 eq_refl Hs)|reflexivity]).
  assert (Hok : sock_ok U (set_sock fd s, w')).
  { destruct (socket_opens _ _ _ _ _ _ E) as [[-> Ho]|(Hfd & Hnew & Ho)]; unfold sock_ok, owned; simpl.
    - rewrite Ho, H1, Hown, Hc. split; [set_solver|]. split; [set_solver|discriminate].
    - rewrite (proj2 (Z.eqb_neq fd (-1))), Ho, H1, Hown, Hc by lia. rewrite H1, Hown in Hnew.
      split; [set_solver|]. split; [set_solver|discriminate]. }
  destruct (Z.eqb_spec fd (-1)); [split; [exact Hok|reflexivity]|].
  destruct (still_keeps _ still_initSock U _ Hok) as [H [[] Hr]]. split; [exact H|exact Hr].
Qed.

Lemma keeps_ensure_valid : keeps ensure_valid.
Proof.
  intros U st H. unfold ensure_valid, isValid. rewrite bind_get. cbv beta.
  destruct (Z.eqb_spec (m_sock st.1) (-1)) as [E|E]; cbn [negb]; [|split; [exact H|eexists; reflexivity]].
  destruct (newSock_ok U st H E) as [H1 H2]. unfold cbind. destruct (newSock st) as [st' o].
  simpl in H1, H2. subst o. split; [exact H1|eexists; reflexivity].
Qed.

Lemma ensure_valid_true st : (ensure_valid st).2 = Ret true -> m_sock (ensure_valid st).1.1 <> -1.
Proof.
  unfold ensure_valid, isValid. rewrite bind_get. cbv beta.
  destruct (Z.eqb_spec (m_sock st.1) (-1)) as [E|E]; cbn [negb]; [|simpl; auto].
  unfold cbind. destruct (newSock st) as [st' [[]| |]]; simpl; try discriminate.
  destruct (Z.eqb_spec (m_sock st'.1) (-1)); [discriminate|auto].
Qed.

Lemma keeps_close : keeps close.
Proof.
  intros U [s w] (H1 & H2 & H3). unfold close. rewrite bind_get. simpl.
  destruct (m_isConnect s) eqn:Ec, (Z.eqb_spec (m_sock s) (-1)) as [E|E]; simpl.
  - destruct (H3 Ec E).
  - unfold cbind, upd, cmod, sys. simpl. split; [|eauto]. unfold sock_ok, owned in *. simpl in *.
    rewrite (proj2 (Z.eqb_neq _ _) E) in H1, H2. rewrite close_closes, H1.
    split; [set_solver|]. split; [set_solver|discriminate].
  - split; [|eauto]. unfold sock_ok. simpl. rewrite Ec. auto.
  - unfold cbind, upd, cmod, sys. simpl. split; [|eauto]. unfold sock_ok, owned in *. simpl in *.
    rewrite (proj2 (Z.eqb_neq _ _) E) in H1, H2. rewrite close_closes, H1.
    split; [set_solver|]. split; [set_solver|discriminate].
Qed.

Lemma close_releases st : m_sock (close st).1.1 = -1 /\ m_isConnect (close st).1.1 = false.
Proof.
  destruct st as [s w]. unfold close. rewrite bind_get. simpl.
  destruct (m_isConnect s) eqn:Ec, (Z.eqb_spec (m_sock s) (-1)) as [E|E]; simpl; auto.
Qed.
#[local] Hint Resolve keeps_ensure_valid keeps_close : keeps.

Lemma keeps_bind_op a : keeps (Socket.bind a).
Proof. unfold Socket.bind. keeps_tac. Qed.

(** Marking a valid object as connected. *)
Lemma keeps_set_connect U st :
  sock_ok U st -> m_sock st.1 <> -1 -> sock_ok U (set_connect true st.1, st.2).
Proof. intros (H1 & H2 & H3) Hv. repeat split; auto. Qed.

Lemma keeps_connect a t : keeps (connect a t).
Proof.
  intros U st H. unfold connect.
  destruct (keeps_ensure_valid U st H) as [H1 [v Hv]]. pose proof (ensure_valid_true st) as Ht.
  destruct (ensure_valid st) as [[s w] o] eqn:Ev. cbn [fst snd] in *. subst o.
  rewrite (cbind_ret _ _ _ _ _ Ev).
  destruct v; cbn [negb]; [|split; [exact H1|eexists; reflexivity]]. specialize (Ht eq_refl).
  rewrite bind_get. cbn [fst id].
  destruct (addr_family a =? m_family s); cbn [negb]; [|split; [exact H1|eexists; reflexivity]].
  destruct (k_connect (m_sock s) a (if t =? u64 (-1) then None else Some t) w) as [w' rt] eqn:E.
  rewrite (bind_sys _ _ _ _ _ _ E).
  assert (Hw : sock_ok U (s, w')).
  { destruct H1 as (X1 & X2 & X3). split; [|auto]. simpl in *. rewrite <- X1.
    pose proof (connect_open (m_sock s) a (if t =? u64 (-1) then None else Some t) w) as X.
    rewrite E in X. exact X. }
  destruct (rt =? 0); cbn [negb].
  - rewrite bind_upd.
    assert (Hk : keeps (getRemoteAddress ;;; getLocalAddress ;;; cret true)) by keeps_tac.
    apply Hk. apply (keeps_set_connect U (s, w') Hw Ht).
  - assert (Hk : keeps (close ;;; cret false)) by keeps_tac. apply Hk, Hw.
Qed.
#[local] Hint Resolve keeps_connect keeps_bind_op : keeps.

(** A [connect] that succeeds leaves the object connected. *)
Lemma connect_connects a t st : (connect a t st).2 = Ret true -> m_isConnect (connect a t st).1.1 = true.
Proof.
  unfold connect. unfold cbind at 1 8. destruct (ensure_valid st) as [[s w] [[]| |]]; cbn [negb]; try discriminate.
  rewrite !bind_get. cbn [fst id]. destruct (addr_family a =? m_family s); cbn [negb]; [|discriminate].
  destruct (k_connect (m_sock s) a (if t =? u64 (-1) then None else Some t) w) as [w' rt] eqn:E.
  rewrite !(bind_sys _ _ _ _ _ _ E). destruct (rt =? 0); cbn [negb].
  - rewrite !bind_upd.
    assert (Hq : still (getRemoteAddress ;;; getLocalAddress ;;; cret true)) by still_tac.
    intros _. destruct (Hq (set_connect true s, w')) as (_ & H & _). exact H.
  - unfold cbind, cret. destruct (close (s, w')) as [? [?| |]]; discriminate.
Qed.

Lemma keeps_reconnect t : keeps (reconnect t).
Proof. unfold reconnect. keeps_tac. Qed.

Lemma still_run {X} (m : M (St B A K) X) st : still m ->
  exists st' x, m st = (st', Ret x) /\ m_sock st'.1 = m_sock st.1
    /\ m_isConnect st'.1 = m_isConnect st.1 /\ k_open st'.2 = k_open st.2.
Proof.
  intros Hq. destruct (Hq st) as (E1 & E2 & E3 & x & E4). destruct (m st) as [st' o].
  cbn [fst snd] in *. subst o. eauto 10.
Qed.

(** What [init] does once the descriptor is accepted. *)
Lemma init_tail st :
  exists st', (initSock ;;; getLocalAddress ;;; getRemoteAddress ;;; cret true) st = (st', Ret true)
    /\ m_sock st'.1 = m_sock st.1 /\ m_isConnect st'.1 = m_isConnect st.1 /\ k_open st'.2 = k_open st.2.
Proof.
  destruct (still_run initSock st still_initSock) as (s1 & x1 & R1 & A1 & B1 & C1).
  destruct (still_run getLocalAddress s1 still_getLocalAddress) as (s2 & x2 & R2 & A2 & B2 & C2).
  destruct (still_run getRemoteAddress s2 still_getRemoteAddress) as (s3 & x3 & R3 & A3 & B3 & C3).
  exists s3. rewrite (cbind_ret _ _ _ _ _ R1), (cbind_ret _ _ _ _ _ R2), (cbind_ret _ _ _ _ _ R3).
  split; [reflexivity|]. repeat split; congruence.
Qed.

(** [accept] hands the new descriptor to the new object, or to nobody when the
    descriptor has no usable context. *)
Definition usable (c : option FdCtx) : bool :=
  match c with Some x => m_isSocket x && negb (m_isClsed x) | None => false end.

Lemma accept_open s w w' fd c :
  k_accept (m_sock s) w = (w', fd) -> fd <> -1 ->
  (fd_ctx fd (Socket_new (m_family s) (m_type s) (m_protocol s) : Socket A, w')).2 = Ret c ->
  exists w'' r, accept (s, w) = ((s, w''), Ret r) /\ k_open w'' = {[fd]} ∪ k_open w
    /\ if usable c then exists n, r = Some n /\ m_sock n = fd /\ m_isConnect n = true else r = None.
Proof.
  intros E Hfd Hc. unfold accept. rewrite bind_get. cbn [fst id].
  rewrite (bind_sys _ _ _ _ _ _ E). rewrite (proj2 (Z.eqb_neq _ _) Hfd). cbn [fst snd].
  destruct (accept_opens _ _ _ _ E) as [[? _]|(_ & _ & Ho)]; [congruence|].
  assert (Hst : forall st, (fd_ctx fd st).1 = st)
    by (intros st; unfold fd_ctx; destruct (FdManager.get _ _ _ _) as [? [[]| |]]; reflexivity).
  set (n0 := Socket_new (m_family s) (m_type s) (m_protocol s) : Socket A) in *.
  specialize (Hst (n0, w')). destruct (fd_ctx fd (n0, w')) as [st o] eqn:Ef. cbn [fst snd] in *. subst st o.
  unfold init. rewrite (cbind_ret _ _ _ _ _ Ef). unfold usable. destruct c as [x|]; [|eauto 10].
  destruct (m_isSocket x && negb (m_isClsed x)); [|eauto 10]. rewrite !bind_upd.
  destruct (init_tail (set_connect true (set_sock fd n0), w')) as ([n w''] & R & A1 & B1 & C1).
  rewrite R. exists w'', (Some n). cbn [fst snd] in *. rewrite C1, Ho. eauto 10.
Qed.
(** ** Runs *)

(** A descriptor that [accept] got: its number, its context, and what [accept]
    returned. *)
Definition accepted : Type := Z * option FdCtx * option (Socket A).
Definition fds (l : list accepted) : list Z := map (fun e => e.1.1) l.
Definition opened (l : list accepted) : gset Z := list_to_set (fds l).

(** It belongs to the object that was returned, or to nobody. *)
Definition handed (e : accepted) : Prop :=
  if usable e.1.2 then exists n, e.2 = Some n /\ m_sock n = e.1.1 /\ m_isConnect n = true
  else e.2 = None.

(** [accept], with a record of the descriptor. *)
Definition accept_logged : M (St B A K) (list accepted) := fun st =>
  let '(w', fd) := k_accept (m_sock st.1) st.2 in
  match accept st with
  | (st', Ret r) =>
      let n0 := Socket_new (m_family st.1) (m_type st.1) (m_protocol st.1) : Socket A in
      (st', Ret (if fd =? -1 then []
                 else match (fd_ctx fd (n0, w')).2 with Ret c => [(fd, c, r)] | _ => [(fd, None, r)] end))
  | (st', Throw e) => (st', Throw e)
  | (st', Undef f) => (st', Undef f)
  end.

Inductive sop : Type :=
  | OBind (a : A) | OConnect (a : A) (t : Z) | OReconnect (t : Z) | OListen (b : Z) | OAccept | OClose
  | ORecv (n : Z) | OSend (d : list B) | OOption (l o : Z) (v : list Z)
  | OSendTimeout (v : Z) | ORecvTimeout (v : Z) | OLocal | ORemote.

Definition run_op (o : sop) : M (St B A K) (list accepted) :=
  match o with
  | OBind a => Socket.bind a ;;; cret []
  | OConnect a t => connect a t ;;; cret []
  | OReconnect t => reconnect t ;;; cret []
  | OListen b => listen b ;;; cret []
  | OAccept => accept_logged
  | OClose => close ;;; cret []
  | ORecv n => recv n ;;; cret []
  | OSend d => send d ;;; cret []
  | OOption l o v => setOption l o v ;;; cret []
  | OSendTimeout v => setSendTimeout v ;;; cret []
  | ORecvTimeout v => setRecvTimeout v ;;; cret []
  | OLocal => getLocalAddress ;;; cret []
  | ORemote => getRemoteAddress ;;; cret []
  end.

(** The calls in turn, with the descriptors accepted on the way. *)
Fixpoint run_ops (os : list sop) : M (St B A K) (list accepted) :=
  match os with
  | [] => cret []
  | o :: os' => let! l := run_op o in let! l' := run_ops os' in cret (l ++ l')
  end.

#[local] Hint Resolve keeps_reconnect : keeps.

(** The call returns and keeps the discipline; what it accepts is new and no
    longer counts as the object's. *)
Definition gains (m : M (St B A K) (list accepted)) : Prop := forall U st, sock_ok U st ->
  exists st' l, m st = (st', Ret l) /\ sock_ok (opened l ∪ U) st' /\ opened l ## U
    /\ NoDup (fds l) /\ Forall handed l.

Lemma keeps_gains {X} (m : M (St B A K) X) : keeps m -> gains (m ;;; cret []).
Proof.
  intros Hm U st H. destruct (Hm U st H) as [H1 [x Hx]]. destruct (m st) as [st' o] eqn:E.
  cbn [fst snd] in *. subst o. rewrite (cbind_ret _ _ _ _ _ E). exists st', [].
  split; [reflexivity|]. unfold opened. simpl. rewrite (left_id_L ∅ (∪)).
  split; [exact H1|]. split; [set_solver|]. split; constructor.
Qed.

Lemma fd_ctx_returns fd st : table_ok (k_fdmgr st.2) -> 0 <= fd -> exists c, (fd_ctx fd st).2 = Ret c.
Proof.
  intros T Hfd. unfold fd_ctx. rewrite (get_entry _ _ _ _ T Hfd) by auto.
  destruct (entry _ _); simpl; eauto.
Qed.

(** Without a call of [accept] nothing is accepted. *)
Lemma no_accept os st st' l : OAccept ∉ os -> run_ops os st = (st', Ret l) -> l = [].
Proof.
  revert st st' l. induction os as [|o os IH]; simpl; intros st st' l Hn E; [injection E as _ <-; reflexivity|].
  apply not_elem_of_cons in Hn as [Ho Hn].
  apply cbind_ret_inv in E as (st1 & l1 & E1 & E). apply cbind_ret_inv in E as (st2 & l2 & E2 & E).
  injection E as _ <-. rewrite (IH _ _ _ Hn E2).
  destruct o; try congruence; simpl in E1; apply cbind_ret_inv in E1 as (? & ? & _ & E1);
    injection E1 as _ <-; reflexivity.
Qed.

Lemma new_ok f t p w : sock_ok (k_open w) (Socket_new f t p, w).
Proof. repeat split; simpl; [set_solver|set_solver|discriminate]. Qed.

Context (tables : forall w, table_ok (k_fdmgr w)).

Lemma gains_accept : gains accept_logged.
Proof.
  intros U [s w] (H1 & H2 & H3). unfold accept_logged. cbn [fst snd] in *.
  destruct (k_accept (m_sock s) w) as [w' fd] eqn:E. destruct (Z.eqb_spec fd (-1)) as [->|Hfd].
  - assert (R : accept (s, w) = ((s, w'), Ret None))
      by (unfold accept; rewrite bind_get; cbn [fst id]; rewrite (bind_sys _ _ _ _ _ _ E); reflexivity).
    rewrite R. exists (s, w'), []. split; [reflexivity|]. unfold opened. simpl. rewrite (left_id_L ∅ (∪)).
    destruct (accept_opens _ _ _ _ E) as [[_ Ho]|[? _]]; [|lia].
    split; [split; [simpl; congruence|auto]|]. split; [set_solver|]. split; constructor.
  - destruct (accept_opens _ _ _ _ E) as [[? _]|(Hp & Hnew & _)]; [congruence|].
    destruct (fd_ctx_returns fd (Socket_new (m_family s) (m_type s) (m_protocol s) : Socket A, w') (tables w') Hp)
      as [c Hc].
    destruct (accept_open s w w' fd c E Hfd Hc) as (w'' & r & R & Ho & Hr). rewrite R, Hc.
    exists (s, w''), [(fd, c, r)]. split; [reflexivity|]. unfold opened. simpl.
    split; [split; [simpl; rewrite Ho, H1; set_solver|split; [simpl; set_solver|exact H3]]|].
    split; [set_solver|]. split; [apply NoDup_singleton|]. constructor; [exact Hr|constructor].
Qed.

Lemma gains_run_op o : gains (run_op o).
Proof.
  destruct o; simpl; try apply gains_accept; apply keeps_gains; auto with keeps;
    apply still_keeps, still_timeouts.
Qed.

Lemma opened_app l l' : opened (l ++ l') = opened l ∪ opened l'.
Proof. unfold opened, fds. rewrite map_app. apply list_to_set_app_L. Qed.

Lemma gains_run_ops os : gains (run_ops os).
Proof.
  induction os as [|o os IH]; intros U st H; simpl.
  - exists st, []. split; [reflexivity|]. unfold opened. simpl. rewrite (left_id_L ∅ (∪)).
    split; [exact H|]. split; [set_solver|]. split; constructor.
  - destruct (gains_run_op o U st H) as (st1 & l1 & R1 & K1 & D1 & N1 & F1).
    destruct (IH _ _ K1) as (st2 & l2 & R2 & K2 & D2 & N2 & F2).
    rewrite (cbind_ret _ _ _ _ _ R1), (cbind_ret _ _ _ _ _ R2). exists st2, (l1 ++ l2).
    split; [reflexivity|]. rewrite opened_app, (comm_L (∪) (opened l1)), <- (assoc_L (∪)).
    split; [exact K2|]. split; [set_solver|]. split; [|apply Forall_app; auto].
    unfold fds. rewrite map_app. apply NoDup_app. split; [exact N1|]. split; [|exact N2].
    intros x X1 X2. apply (D2 x); [apply elem_of_list_to_set, X2|].
    apply elem_of_union_l, elem_of_list_to_set, X1.
Qed.

End discipline.

(** C22: A socket object and its descriptors: after any sequence of bind,
    connect, reconnect, listen, accept, close, send, receive, option and address
    calls on a new object every call has returned.  The open descriptors are
    those that were open before, those that accept got, all of them new and
    different, and at most one more, the object's own; a connected object has
    one.  Each accepted descriptor belongs to the object that accept returned,
    which is connected, or, exactly when its context is missing, closed or not a
    socket, to nobody: accept returns null and leaves it open.  The destructor's
    [close] leaves exactly the descriptors that were open before the object was
    made and the accepted ones: nothing of another owner is closed, and without
    accept nothing is left.  [tables] is the invariant of the table of contexts
    (the one of [fd_table_is_map]). *)
Theorem socket_owns_its_descriptor {B A} (K : Kernel B A) (L : KernelLaws K) f t p w (os : list sop)
    (tables : forall w, table_ok (k_fdmgr w)) :
  exists (s' : Socket A) w' l, run_ops os (Socket_new f t p, w) = ((s', w'), Ret l)
    /\ k_open w' = owned s' ∪ opened l ∪ k_open w
    /\ owned s' ## opened l ∪ k_open w /\ opened l ## k_open w /\ NoDup (fds l)
    /\ Forall handed l /\ (OAccept ∉ os -> l = [])
    /\ (m_isConnect s' = true -> m_sock s' <> -1)
    /\ k_open (close (s', w')).1.2 = opened l ∪ k_open w.
Proof.
  destruct (gains_run_ops tables os (k_open w) _ (new_ok f t p w)) as ([s' w'] & l & R & H & D & N & F).
  exists s', w', l. split; [exact R|]. pose proof H as (H1 & H2 & H3). cbn [fst snd] in *.
  split; [rewrite H1; set_solver|]. split; [exact H2|]. split; [exact D|]. split; [exact N|].
  split; [exact F|]. split; [intros Hn; eapply no_accept; eassumption|]. split; [exact H3|].
  destruct (keeps_close _ _ H) as [(C1 & _ & _) _]. destruct (close_releases (s', w')) as [C2 _].
  rewrite C1. unfold owned. rewrite C2. set_solver.
Qed.

(** The other side of [accept]: a descriptor whose context is missing or closed
    stays open and no object owns it. *)
Theorem accept_leak {B A} (K : Kernel B A) (L : KernelLaws K) (s : Socket A) w w' fd c :
  k_accept (m_sock s) w = (w', fd) -> fd <> -1 ->
  (fd_ctx fd (Socket_new (m_family s) (m_type s) (m_protocol s) : Socket A, w')).2 = Ret c ->
  usable c = false ->
  exists w'', accept (s, w) = ((s, w''), Ret None) /\ k_open w'' = {[fd]} ∪ k_open w.
Proof.
  intros E Hfd Hc Hu. destruct (accept_open s w w' fd c E Hfd Hc) as (w'' & r & R & Ho & Hr).
  rewrite Hu in Hr. subst r. eauto.
Qed.

(** ** A kernel that keeps the laws *)

Definition small_kernel {B : Type} : Kernel B Z := {|
  world := gset nat;
  k_open X := set_map Z.of_nat X;
  k_in _ _ := [];
  k_out _ _ := [];
  k_fdmgr _ := FdManager_new;
  k_fstat _ := Some true;
  addr_family a := a;
  UnknowAddress f := f;
  k_socket _ _ _ X := ({[fresh X]} ∪ X, Z.of_nat (fresh X));
  k_close fd X := if fd <? 0 then X else X ∖ {[Z.to_nat fd]};
  k_setsockopt _ _ _ _ X := (X, 0);
  k_bind _ _ X := (X, 0);
  k_connect _ _ _ X := (X, 0);
  k_listen _ _ X := (X, 0);
  k_accept _ X := ({[fresh X]} ∪ X, Z.of_nat (fresh X));
  k_getpeername _ _ := Some 2;
  k_getsockname _ _ := Some 2;
  k_recv _ n X := (X, (0, []));
  k_send _ d X := (X, 0)
|}.

Lemma small_kernel_fresh (X : gset nat) :
  (Z.of_nat (fresh X) ∉ (set_map Z.of_nat X : gset Z))
  /\ (set_map Z.of_nat ({[fresh X]} ∪ X) : gset Z) = {[Z.of_nat (fresh X)]} ∪ set_map Z.of_nat X.
Proof.
  split.
  - rewrite elem_of_map. intros (n & E & Hn). apply Nat2Z.inj in E. subst n.
    apply (is_fresh X). exact Hn.
  - rewrite set_map_union_L, set_map_singleton_L. reflexivity.
Qed.

#[export] Instance small_kernel_laws {B : Type} : KernelLaws (small_kernel (B := B)).
Proof.
  split; simpl; try reflexivity.
  - intros f t p X X' fd E. injection E as <- <-. right. split; [lia|]. apply small_kernel_fresh.
  - intros s X X' fd E. injection E as <- <-. right. split; [lia|]. apply small_kernel_fresh.
  - intros fd X. apply set_eq. intros z. destruct (Z.ltb_spec fd 0).
    + rewrite elem_of_difference, elem_of_map, elem_of_singleton. split; [|tauto].
      intros (n & -> & Hn). split; [eauto|lia].
    + rewrite elem_of_difference, !elem_of_map, elem_of_singleton. split.
      * intros (n & -> & Hn). split; [exists n; set_solver|]. intros E.
        assert (n = Z.to_nat fd) by lia. set_solver.
      * intros [(n & -> & Hn) Hne]. exists n. split; [reflexivity|].
        apply elem_of_difference. split; [exact Hn|]. rewrite elem_of_singleton. lia.
  - intros fd n X X' rt d Hn E. injection E as <- <- <-. unfold MAX_RW_COUNT. repeat split; lia.
  - intros fd d X X' rt E. injection E as <- <-. unfold MAX_RW_COUNT, zlen. repeat split; lia.
Qed.

Lemma small_kernel_tables {B : Type} w : table_ok (k_fdmgr (Kernel := small_kernel (B := B)) w).
Proof. split; vm_compute; congruence. Qed.

(** The kernel without contexts: the accepted descriptor 1 has no owner. *)
Lemma socket_owns_its_descriptor_witness :
  exists (s' : Socket Z) w' l,
    run_ops (K := small_kernel) [OConnect 2 (u64 (-1)); OSend [1; 2]; OAccept; OClose]
      (Socket_new 2 1 0, ∅) = ((s', w'), Ret l)
    /\ k_open (close (K := small_kernel) (s', w')).1.2 = opened l ∪ ∅ /\ l = [(1, None, None)].
Proof.
  destruct (socket_owns_its_descriptor small_kernel _ 2 1 0 ∅
    [OConnect 2 (u64 (-1)); OSend [1; 2]; OAccept; OClose] small_kernel_tables)
    as (s' & w' & l & H1 & _ & _ & _ & _ & _ & _ & _ & H2).
  exists s', w', l. split; [exact H1|]. split; [exact H2|].
  revert H1. vm_compute. intros [= _ _ <-]. reflexivity.
Defined.
