(* ===== verification/Address.v ===== *)
(** * Addresses (sylar/address.h, sylar/address.cpp)

    The socket address structures with their fields as the integers that are
    stored (ports and IPv4 addresses in network order), and the classes over them.
    [host] is the byte order of the machine (endian.h).  The resolver
    (getaddrinfo), the list of interfaces (getifaddrs) and inet_pton are
    parameters. *)

From Stdlib Require Import ZArith Lia Ascii String List.
From Stdlib Require HexadecimalString.
From stdpp Require Import base list strings.
From S2P Require Import Prelude Ordered CString Endian Socket.

Local Open Scope string_scope.
Local Open Scope Z_scope.
Local Open Scope list_scope.

Local Abbreviation chars := list_ascii_of_string.

(** ** Masks *)

(** [CreateMask<T>]: the shift of an [int] is undefined beyond its width, and for
    31 the decrement overflows. *)
Definition CreateMask (w : Z) (bits : Z) : outcome Z :=
  let k := u64 (w - bits) in
  if 32 <=? k then Undef SignedOverflow
  else if k =? 31 then Undef SignedOverflow
  else Ret (uwrap w (Z.shiftl 1 k - 1)).

(** [CountBytes]: each round clears the lowest bit; 64 rounds are enough. *)
Fixpoint count_loop (fuel : nat) (value result : Z) : outcome Z :=
  match fuel with
  | O => Undef FuelExhausted
  | S fuel' => if value =? 0 then Ret result
               else count_loop fuel' (Z.land value (value - 1)) (u32 (result + 1))
  end.
Definition CountBytes (value : Z) : outcome Z := count_loop 65 value 0.

(** ** The structures *)

Record sockaddr_in : Type := mkIn { sin_family : Z; sin_port : Z; s_addr : Z; sin_zero : list Z }.
Record sockaddr_in6 : Type := mkIn6 {
  sin6_family : Z; sin6_port : Z; sin6_flowinfo : Z; s6_addr : list Z; sin6_scope_id : Z
}.
Record sockaddr_un : Type := mkUn { sun_family : Z; sun_path : list ascii }.
Record sockaddr : Type := mkSa { sa_family : Z; sa_data : list Z }.

Inductive Address : Type :=
  | IPv4Address (m_addr : sockaddr_in)
  | IPv6Address (m_addr : sockaddr_in6)
  | UnixAddress (m_addr : sockaddr_un) (m_length : Z)
  | UnknowAddress (m_addr : sockaddr).

Section address.
Context (host : Z).

Definition swap16 (v : Z) : Z := byteswapOnLittleEndian host 2 v.
Definition swap32 (v : Z) : Z := byteswapOnLittleEndian host 4 v.

(** ** IPv4Address *)

Definition IPv4_new (address port : Z) : sockaddr_in :=
  mkIn AF_INET (swap16 port) (swap32 address) (replicate 8 0).

Definition v4_set (v : Z) (a : sockaddr_in) : sockaddr_in := mkIn (sin_family a) (sin_port a) v (sin_zero a).

Definition v4_insert (a : sockaddr_in) : string :=
  let addr := swap32 (s_addr a) in
  (dec (Z.land (Z.shiftr addr 24) 255) ++ "." ++ dec (Z.land (Z.shiftr addr 16) 255) ++ "."
   ++ dec (Z.land (Z.shiftr addr 8) 255) ++ "." ++ dec (Z.land addr 255)
   ++ ":" ++ dec (swap16 (sin_port a)))%string.

Definition v4_broadcastAddress (a : sockaddr_in) (prefix_len : Z) : outcome (option sockaddr_in) :=
  if 32 <? prefix_len then Ret None else
  obind (CreateMask 32 prefix_len) (fun m => Ret (Some (v4_set (Z.lor (s_addr a) (swap32 m)) a))).

Definition v4_networdAddress (a : sockaddr_in) (prefix_len : Z) : outcome (option sockaddr_in) :=
  if 32 <? prefix_len then Ret None else
  obind (CreateMask 32 prefix_len) (fun m => Ret (Some (v4_set (Z.land (s_addr a) (swap32 m)) a))).

Definition v4_subnetMask (prefix_len : Z) : outcome sockaddr_in :=
  obind (CreateMask 32 prefix_len) (fun m =>
  Ret (mkIn AF_INET 0 (u32 (Z.lnot (swap32 m))) (replicate 8 0))).

Definition v4_getPort (a : sockaddr_in) : Z := swap16 (sin_port a).
Definition v4_setPort (v : Z) (a : sockaddr_in) : sockaddr_in :=
  mkIn (sin_family a) (swap16 v) (s_addr a) (sin_zero a).

(** ** IPv6Address *)

Definition IPv6_any : sockaddr_in6 := mkIn6 AF_INET6 0 0 (replicate 16 0) 0.
Definition IPv6_new (address : list Z) (port : Z) : sockaddr_in6 :=
  mkIn6 AF_INET6 (swap16 port) 0 address 0.
Definition v6_set (l : list Z) (a : sockaddr_in6) : sockaddr_in6 :=
  mkIn6 (sin6_family a) (sin6_port a) (sin6_flowinfo a) l (sin6_scope_id a).

(** [((uint16_t* )s6_addr)[i]] *)
Definition v6_word (a : sockaddr_in6) (i : nat) : Z := mem_value host (take 2 (drop (2 * i) (s6_addr a))).

(** An [int] in hexadecimal. *)
Definition hex (v : Z) : string := HexadecimalString.NilEmpty.string_of_uint (N.to_hex_uint (Z.to_N v)).

(** The loop of [insert], from group [i] on with [n] groups to come. *)
Fixpoint v6_loop (a : sockaddr_in6) (n i : nat) (used_zero : bool) : string * bool :=
  match n with
  | O => ("", used_zero)
  | S n' =>
      if (v6_word a i =? 0) && negb used_zero then v6_loop a n' (S i) used_zero
      else
        let gap := negb (Nat.eqb i 0) && (v6_word a (i - 1) =? 0) && negb used_zero in
        let r := v6_loop a n' (S i) (used_zero || gap) in
        ((if gap then ":" else "") ++ (if Nat.eqb i 0 then "" else ":") ++ hex (swap16 (v6_word a i)) ++ r.1, r.2)%string
  end.

Definition v6_insert (a : sockaddr_in6) : string :=
  let r := v6_loop a 8 0 false in
  ("[" ++ r.1 ++ (if negb r.2 && (v6_word a 7 =? 0)%Z then "::" else "")
   ++ "]:" ++ dec (swap16 (sin6_port a)))%string.

(** [s6_addr[prefix_len / 8] op= v]; beyond 16 bytes it is undefined. *)
Definition at_byte (f : Z -> Z) (i : Z) (l : list Z) : outcome (list Z) :=
  match l !! Z.to_nat i with
  | None => Undef OutOfBounds
  | Some b => Ret (<[Z.to_nat i := f b]> l)
  end.

(** [for (i = from; i < 16; ++i) s6_addr[i] = v] *)
Definition fill_from (from : Z) (v : Z) (l : list Z) : list Z :=
  take (Z.to_nat from) l ++ replicate (length l - Z.to_nat from) v.

Definition v6_broadcastAddress (a : sockaddr_in6) (prefix_len : Z) : outcome sockaddr_in6 :=
  obind (CreateMask 8 (prefix_len mod 8)) (fun m =>
  obind (at_byte (fun b => Z.lor b m) (prefix_len / 8) (s6_addr a)) (fun l =>
  Ret (v6_set (fill_from (prefix_len / 8 + 1) 255 l) a))).

Definition v6_networdAddress (a : sockaddr_in6) (prefix_len : Z) : outcome sockaddr_in6 :=
  obind (CreateMask 8 (prefix_len mod 8)) (fun m =>
  obind (at_byte (fun b => Z.land b m) (prefix_len / 8) (s6_addr a)) (fun l =>
  Ret (v6_set (fill_from (prefix_len / 8 + 1) 0 l) a))).

Definition v6_subnetMask (prefix_len : Z) : outcome sockaddr_in6 :=
  obind (CreateMask 8 (prefix_len mod 8)) (fun m =>
  obind (at_byte (fun _ => u8 (Z.lnot m)) (prefix_len / 8) (replicate 16 0)) (fun l =>
  Ret (v6_set (replicate (Z.to_nat (prefix_len / 8)) 255 ++ drop (Z.to_nat (prefix_len / 8)) l) IPv6_any))).

Definition v6_getPort (a : sockaddr_in6) : Z := swap16 (sin6_port a).
Definition v6_setPort (v : Z) (a : sockaddr_in6) : sockaddr_in6 :=
  mkIn6 (sin6_family a) (swap16 v) (sin6_flowinfo a) (s6_addr a) (sin6_scope_id a).

(** ** UnixAddress *)

(** [offsetof(sockaddr_un, sun_path)] and the size of the field. *)
Definition path_offset : Z := 2.
Definition path_size : nat := 108.
Definition MAX_PATH_LEN : Z := Z.of_nat path_size - 1.

Definition UnixAddress_any : Address :=
  UnixAddress (mkUn AF_UNIX (replicate path_size NUL)) (path_offset + MAX_PATH_LEN).

Definition UnixAddress_new (path : string) : outcome Address :=
  let m_length := u32 (slength path + 1) in
  let m_length := match path with
                  | String c _ => if bool_decide (c = NUL) then u32 (m_length - 1) else m_length
                  | EmptyString => m_length
                  end in
  if Z.of_nat path_size <? m_length then Throw LogicError
  else Ret (UnixAddress (mkUn AF_UNIX (overlay 0 (take (Z.to_nat m_length) (c_mem path)) (replicate path_size NUL)))
              (u32 (m_length + path_offset))).

Definition setAddrlen (v : Z) (a : Address) : Address :=
  match a with UnixAddress m _ => UnixAddress m v | _ => a end.

(** A C string in memory. *)
Fixpoint c_text (l : list ascii) : outcome (list ascii) :=
  match l with
  | [] => Undef OutOfBounds
  | c :: r => if bool_decide (c = NUL) then Ret [] else obind (c_text r) (fun t => Ret (c :: t))
  end.

Definition unix_insert (a : sockaddr_un) (m_length : Z) : outcome string :=
  match sun_path a with
  | c :: r =>
      if (path_offset <? m_length) && bool_decide (c = NUL) then
        if zlen r <? m_length - path_offset - 1 then Undef OutOfBounds
        else Ret ("\0" ++ string_of_mem r (Z.to_nat (m_length - path_offset - 1)))%string
      else obind (c_text (sun_path a)) (fun t => Ret (string_of_list_ascii t))
  | [] => Undef OutOfBounds
  end.

(** ** Address *)

Definition UnknowAddress_new (family : Z) : Address := UnknowAddress (mkSa (u16 family) (replicate 14 0)).

Definition getFamily (a : Address) : Z :=
  match a with
  | IPv4Address m => sin_family m
  | IPv6Address m => sin6_family m
  | UnixAddress m _ => sun_family m
  | UnknowAddress m => sa_family m
  end.

Definition getAddrLen (a : Address) : Z :=
  match a with
  | IPv4Address _ => 16
  | IPv6Address _ => 28
  | UnixAddress _ m_length => m_length
  | UnknowAddress _ => 16
  end.

(** The bytes of the structure. *)
Definition getAddr (a : Address) : list Z :=
  match a with
  | IPv4Address m => mem_image host 2 (sin_family m) ++ mem_image host 2 (sin_port m)
                     ++ mem_image host 4 (s_addr m) ++ sin_zero m
  | IPv6Address m => mem_image host 2 (sin6_family m) ++ mem_image host 2 (sin6_port m)
                     ++ mem_image host 4 (sin6_flowinfo m) ++ s6_addr m ++ mem_image host 4 (sin6_scope_id m)
  | UnixAddress m _ => mem_image host 2 (sun_family m) ++ map code (sun_path m)
  | UnknowAddress m => mem_image host 2 (sa_family m) ++ sa_data m
  end.

Definition insert (a : Address) : outcome string :=
  match a with
  | IPv4Address m => Ret (v4_insert m)
  | IPv6Address m => Ret (v6_insert m)
  | UnixAddress m len => unix_insert m len
  | UnknowAddress m => Ret ("[UnknownAddress family=" ++ dec (sa_family m) ++ "]")%string
  end.
Definition toString : Address -> outcome string := insert.

(** [memcmp] of [n] bytes. *)
Fixpoint memcmp (n : nat) (a b : list Z) : outcome Z :=
  match n with
  | O => Ret 0
  | S n' =>
      match a, b with
      | x :: a', y :: b' => if x =? y then memcmp n' a' b' else Ret (x - y)
      | _, _ => Undef OutOfBounds
      end
  end.

Definition operator_lt (a rhs : Address) : outcome bool :=
  let minlen := Z.min (getAddrLen a) (getAddrLen rhs) in
  obind (memcmp (Z.to_nat minlen) (getAddr a) (getAddr rhs)) (fun result =>
  if result <? 0 then Ret true
  else if 0 <? result then Ret false
  else if getAddrLen a <? getAddrLen rhs then Ret true
  else Ret false).

Definition operator_eq (a rhs : Address) : outcome bool :=
  if getAddrLen a =? getAddrLen rhs then
    obind (memcmp (Z.to_nat (getAddrLen a)) (getAddr a) (getAddr rhs)) (fun r => Ret (r =? 0))
  else Ret false.

Definition operator_ne (a rhs : Address) : outcome bool := obind (operator_eq a rhs) (fun b => Ret (negb b)).

(** What the system hands out as a [sockaddr*]: the structure that its family
    says. *)
Inductive any_sockaddr : Type := SA_in (a : sockaddr_in) | SA_in6 (a : sockaddr_in6) | SA_other (a : sockaddr).

Definition Create (addr : option any_sockaddr) : option Address :=
  match addr with
  | None => None
  | Some (SA_in a) => Some (IPv4Address a)
  | Some (SA_in6 a) => Some (IPv6Address a)
  | Some (SA_other a) => Some (UnknowAddress a)
  end.

(** ** Lookup *)

(** [memchr]: the characters from the first [c] on. *)
Fixpoint memchr (c : ascii) (l : list ascii) : option (list ascii) :=
  match l with
  | [] => None
  | x :: r => if bool_decide (x = c) then Some l else memchr c r
  end.

(** The part in brackets and what [service] points to after it. *)
Definition split_brackets (h : list ascii) : list ascii * option (list ascii) :=
  match h with
  | c :: r =>
      if bool_decide (c = "["%char) then
        match memchr "]" r with
        | Some (_ :: after_) =>
            (take (length r - S (length after_)) r,
             match after_ with ":"%char :: s => Some s | _ => None end)
        | _ => ([], None)
        end
      else ([], None)
  | [] => ([], None)
  end.

(** Node and service of the text; a service is the text up to its end. *)
Definition split_host (host_ : string) : string * option string :=
  let h := chars host_ in
  let '(node, service) := split_brackets h in
  let '(node, service) :=
    match node with
    | [] => match memchr ":" h with
            | Some (c :: s) =>
                match memchr ":" s with
                | None => (take (length h - S (length s)) h, Some s)
                | Some _ => ([], Some (c :: s))
                end
            | _ => ([], None)
            end
    | _ => (node, service)
    end in
  (string_of_list_ascii (match node with [] => h | _ => node end), option_map string_of_list_ascii service).

Section lookup.
(** Node, service, flags, family, type and protocol to the addresses, or an error. *)
Context (getaddrinfo : string -> option string -> Z -> Z -> Z -> Z -> option (list any_sockaddr)).
Definition AI_NUMERICHOST : Z := 4.

Definition Lookup (host_ : string) (family type protocol : Z) : bool * list Address :=
  let '(node, service) := split_host host_ in
  match getaddrinfo node service 0 family type protocol with
  | None => (false, [])
  | Some results =>
      let result := omap (fun a => Create (Some a)) results in
      (negb (bool_decide (result = [])), result)
  end.

Definition LookupAny (host_ : string) (family type protocol : Z) : option Address :=
  match Lookup host_ family type protocol with
  | (true, a :: _) => Some a
  | _ => None
  end.

Definition is_ip (a : Address) : bool :=
  match a with IPv4Address _ | IPv6Address _ => true | _ => false end.

Definition LookupAnyIPAddress (host_ : string) (family type protocol : Z) : option Address :=
  match Lookup host_ family type protocol with
  | (true, l) => List.find is_ip l
  | _ => None
  end.

(** [IPAddress::setPort] *)
Definition setPort (v : Z) (a : Address) : Address :=
  match a with
  | IPv4Address m => IPv4Address (v4_setPort v m)
  | IPv6Address m => IPv6Address (v6_setPort v m)
  | _ => a
  end.

(** [IPAddress::Create]: the first address of a numeric host. *)
Definition IPAddress_Create (address : string) (port : Z) : option Address :=
  match getaddrinfo address None AI_NUMERICHOST 0 0 0 with
  | Some (a :: _) => match Create (Some a) with
                     | Some r => if is_ip r then Some (setPort port r) else None
                     | None => None
                     end
  | _ => None
  end.
End lookup.

(** ** Interfaces *)

Record ifaddrs : Type := mkIf { ifa_name : string; ifa_addr : option any_sockaddr; ifa_netmask : option any_sockaddr }.

Definition any_family (a : any_sockaddr) : Z :=
  match a with SA_in m => sin_family m | SA_in6 m => sin6_family m | SA_other m => sa_family m end.

Fixpoint count_all (l : list Z) (acc : Z) : outcome Z :=
  match l with
  | [] => Ret acc
  | b :: r => obind (CountBytes b) (fun n => count_all r (u32 (acc + n)))
  end.

(** One interface: an entry of the result, or none. *)
Definition interface_entry (family : Z) (next : ifaddrs) : outcome (option (string * (Address * Z))) :=
  match ifa_addr next with
  | None => Undef NullDeref
  | Some a =>
      if negb (family =? 0) && negb (family =? any_family a) then Ret None else
      match a, ifa_netmask next with
      | SA_in m, Some (SA_in n) =>
          obind (CountBytes (s_addr n)) (fun p => Ret (Some (ifa_name next, (IPv4Address m, p))))
      | SA_in6 m, Some (SA_in6 n) =>
          obind (count_all (s6_addr n) 0) (fun p => Ret (Some (ifa_name next, (IPv6Address m, p))))
      | SA_other _, _ => Ret None
      | _, _ => Undef NullDeref
      end
  end.

(** A [std::multimap] keeps equal keys in the order of their insertion. *)
Fixpoint interfaces (family : Z) (l : list ifaddrs) : outcome (list (string * (Address * Z))) :=
  match l with
  | [] => Ret []
  | n :: r => obind (interface_entry family n) (fun e =>
              obind (interfaces family r) (fun es =>
              Ret (match e with Some x => x :: es | None => es end)))
  end.

(** [GetInterfaceAddresses(result, iface, family)]; [None] is a failed getifaddrs. *)
Definition GetInterfaceAddresses (results : option (list ifaddrs)) (iface : string) (family : Z)
  : outcome (bool * list (Address * Z)) :=
  if bool_decide (iface = "") || bool_decide (iface = "*") then
    Ret (true, (if (family =? AF_INET) || (family =? 0) then [(IPv4Address (IPv4_new 0 0), 0)] else [])
               ++ (if (family =? AF_INET6) || (family =? 0) then [(IPv6Address IPv6_any, 0)] else []))
  else
    match results with
    | None => Ret (false, [])
    | Some l =>
        obind (interfaces family l) (fun es =>
        if bool_decide (es = []) then Ret (false, [])
        else let result := map snd (filter (fun e => e.1 = iface) es) in
             Ret (negb (Nat.eqb (length result) 0), result))
    end.

(** ** IPv4Address::Create and IPv6Address::Create *)

Section pton.
(** [inet_pton]: the stored address, or none. *)
Context (inet_pton4 : string -> option Z) (inet_pton6 : string -> option (list Z)).

Definition IPv4_Create (address : string) (port : Z) : option Address :=
  match inet_pton4 address with
  | None => None
  | Some v => Some (IPv4Address (v4_set v (v4_setPort port (IPv4_new 0 0))))
  end.

Definition IPv6_Create (address : string) (port : Z) : option Address :=
  match inet_pton6 address with
  | None => None
  | Some l => Some (IPv6Address (v6_set l (v6_setPort port IPv6_any)))
  end.
End pton.
End address.
