(* ===== verification/AddressSpec.v ===== *)
(** * What addresses promise

    Subnets, the text of IPv6 addresses, the order of addresses and the parts of
    a host text. *)

From Stdlib Require Import ZArith Lia Ascii String List.
From stdpp Require Import base list strings.
From S2P Require Import Prelude Ordered CString Endian Socket Address.

Local Open Scope string_scope.
Local Open Scope list_scope.
Local Open Scope Z_scope.

(** ** Bitwise operations and the byte order *)

Section bitwise.
Context (op : Z -> Z -> Z).
Context (Hmod : forall x y k, 0 <= k -> op x y mod 2 ^ k = op (x mod 2 ^ k) (y mod 2 ^ k)).
Context (Hdiv : forall x y k, 0 <= k -> op x y / 2 ^ k = op (x / 2 ^ k) (y / 2 ^ k)).

Lemma bytes_of_op n : forall x y, bytes_of n (op x y) = zip_with op (bytes_of n x) (bytes_of n y).
Proof.
  induction n as [|n IH]; intros x y; simpl; [reflexivity|].
  change 256 with (2 ^ 8). rewrite Hmod, Hdiv, IH by lia. reflexivity.
Qed.

Lemma rev_zip_with (a b : list Z) : length a = length b -> rev (zip_with op a b) = zip_with op (rev a) (rev b).
Proof.
  revert b. induction a as [|x a IH]; intros [|y b] H; simpl in *; try discriminate; [reflexivity|].
  rewrite IH, zip_with_app by (rewrite ?length_rev; lia). reflexivity.
Qed.

Lemma of_bytes_op a b : length a = length b -> Forall is_byte a -> Forall is_byte b ->
  of_bytes (zip_with op a b) = op (of_bytes a) (of_bytes b).
Proof.
  intros Hl Ha Hb. set (n := length a).
  assert (E : bytes_of n (op (of_bytes a) (of_bytes b)) = zip_with op a b).
  { rewrite bytes_of_op. unfold n at 1. rewrite (bytes_of_bytes a Ha). unfold n. rewrite Hl, (bytes_of_bytes b Hb). reflexivity. }
  rewrite <- E, of_bytes_of, pow256, Hmod by lia.
  pose proof (of_bytes_range a Ha) as Ra. pose proof (of_bytes_range b Hb) as Rb. unfold u_range, zlen in *.
  rewrite !Z.mod_small; [reflexivity|rewrite <- Hl in Rb; exact Rb|exact Ra].
Qed.

Lemma byteswap_op n x y : byteswap_u n (op x y) = op (byteswap_u n x) (byteswap_u n y).
Proof.
  unfold byteswap_u, bswap. rewrite !bytes_of_uwrap, bytes_of_op, rev_zip_with by (rewrite !length_bytes_of; reflexivity).
  apply of_bytes_op; [rewrite !length_rev, !length_bytes_of; reflexivity|apply Forall_rev, bytes_of_is_byte|apply Forall_rev, bytes_of_is_byte].
Qed.

Lemma swap32_op host x y : swap32 host (op x y) = op (swap32 host x) (swap32 host y).
Proof. unfold swap32, byteswapOnLittleEndian. destruct (host =? _); [reflexivity|apply byteswap_op]. Qed.
End bitwise.

Lemma lor_mod x y k : 0 <= k -> Z.lor x y mod 2 ^ k = Z.lor (x mod 2 ^ k) (y mod 2 ^ k).
Proof. intros. rewrite <- !Z.land_ones by lia. apply Z.land_lor_distr_l. Qed.

Lemma land_mod x y k : 0 <= k -> Z.land x y mod 2 ^ k = Z.land (x mod 2 ^ k) (y mod 2 ^ k).
Proof.
  intros. rewrite <- !Z.land_ones by lia. apply Z.bits_inj'. intros n Hn. rewrite !Z.land_spec.
  destruct (Z.testbit x n), (Z.testbit y n), (Z.testbit (Z.ones k) n); reflexivity.
Qed.

Lemma swap32_lor host x y : swap32 host (Z.lor x y) = Z.lor (swap32 host x) (swap32 host y).
Proof.
  apply (swap32_op Z.lor); [apply lor_mod|]. intros. rewrite <- !Z.shiftr_div_pow2 by lia. apply Z.shiftr_lor.
Qed.

Lemma swap32_land host x y : swap32 host (Z.land x y) = Z.land (swap32 host x) (swap32 host y).
Proof.
  apply (swap32_op Z.land); [apply land_mod|]. intros. rewrite <- !Z.shiftr_div_pow2 by lia. apply Z.shiftr_land.
Qed.

Lemma swap32_invol host x : u_range 32 x -> swap32 host (swap32 host x) = x.
Proof.
  intros H. unfold swap32, byteswapOnLittleEndian. destruct (host =? _); [reflexivity|].
  rewrite byteswap_u_involutive. apply uwrap_id, H.
Qed.

Lemma swap16_invol host x : u_range 16 x -> swap16 host (swap16 host x) = x.
Proof.
  intros H. unfold swap16, byteswapOnLittleEndian. destruct (host =? _); [reflexivity|].
  rewrite byteswap_u_involutive. apply uwrap_id, H.
Qed.

(** ** Subnets *)

(** The address as a number. *)
Definition v4_value (host : Z) (a : sockaddr_in) : Z := swap32 host (s_addr a).

Lemma CreateMask_ok p : 2 <= p <= 32 -> CreateMask 32 p = Ret (2 ^ (32 - p) - 1).
Proof.
  intros H. unfold CreateMask. rewrite (uwrap_id 64) by (unfold u_range; lia).
  rewrite (proj2 (Z.leb_gt _ _)) by lia. rewrite (proj2 (Z.eqb_neq _ _)) by lia. f_equal.
  rewrite Z.shiftl_1_l. apply uwrap_id. unfold u_range.
  pose proof (Z.pow_le_mono_r 2 (32 - p) 32 ltac:(lia) ltac:(lia)).
  pose proof (Z.pow_pos_nonneg 2 (32 - p) ltac:(lia) ltac:(lia)). lia.
Qed.

(** The masks of the 31 prefixes, on hosts of both orders. *)
Definition mask_ok (host p : Z) : bool :=
  match v4_subnetMask host p with
  | Ret m => (v4_value host m =? 2 ^ 32 - 2 ^ (32 - p))
             && match CountBytes (s_addr m) with Ret n => n =? p | _ => false end
  | _ => false
  end.

Lemma masks_ok host p : is_order host -> 2 <= p <= 32 -> mask_ok host p = true.
Proof.
  intros Hh Hp.
  assert (H : forallb (fun k => mask_ok host (Z.of_nat k + 2)) (seq 0 31) = true)
    by (destruct Hh as [-> | ->]; vm_compute; reflexivity).
  rewrite forallb_forall in H. specialize (H (Z.to_nat (p - 2)) ltac:(apply in_seq; lia)).
  replace (Z.of_nat (Z.to_nat (p - 2)) + 2) with p in H by lia. exact H.
Qed.

(** C31: IPv4 subnets.  For a prefix of 2 to 32 bits the subnet mask has that many
    leading ones, which [CountBytes] counts; the broadcast address is the address
    with its host bits set; and [networdAddress] is the host part of the address,
    not the network that its name and comment promise: it has no bit in common
    with the mask.  A prefix over 32 gives no address, one of 0 or 1 is undefined. *)
Theorem ipv4_subnets (host : Z) (a : sockaddr_in) (p : Z) :
  is_order host -> u_range 32 (s_addr a) -> 2 <= p <= 32 ->
  exists m b n, v4_subnetMask host p = Ret m /\ v4_broadcastAddress host a p = Ret (Some b)
    /\ v4_networdAddress host a p = Ret (Some n)
    /\ v4_value host m = 2 ^ 32 - 2 ^ (32 - p) /\ CountBytes (s_addr m) = Ret p
    /\ v4_value host b = Z.lor (v4_value host a) (2 ^ (32 - p) - 1)
    /\ v4_value host n = v4_value host a mod 2 ^ (32 - p)
    /\ Z.land (v4_value host n) (v4_value host m) = 0
    /\ sin_port b = sin_port a /\ sin_port n = sin_port a
    /\ (forall q, 32 < q -> v4_broadcastAddress host a q = Ret None /\ v4_networdAddress host a q = Ret None)
    /\ (forall q, 0 <= q <= 1 -> exists f, v4_broadcastAddress host a q = Undef f /\ v4_networdAddress host a q = Undef f).
Proof.
  intros Hh Ha Hp. pose proof (masks_ok host p Hh Hp) as Hm. unfold mask_ok in Hm.
  unfold v4_broadcastAddress, v4_networdAddress. rewrite CreateMask_ok, (proj2 (Z.ltb_ge 32 p)) by lia.
  destruct (v4_subnetMask host p) as [m| |]; try discriminate. apply andb_true_iff in Hm as [H1 H2].
  apply Z.eqb_eq in H1. destruct (CountBytes (s_addr m)) as [c| |] eqn:Ec; try discriminate. apply Z.eqb_eq in H2 as ->.
  set (h := 2 ^ (32 - p)) in *.
  assert (Hr : 0 < h /\ h <= 2 ^ 32)
    by (split; [apply Z.pow_pos_nonneg; lia|apply Z.pow_le_mono_r; lia]).
  assert (Hones : h - 1 = Z.ones (32 - p)) by (rewrite Z.ones_equiv; unfold h; lia).
  assert (En : v4_value host (v4_set (Z.land (s_addr a) (swap32 host (h - 1))) a) = v4_value host a mod h).
  { unfold v4_value, v4_set. cbn [s_addr]. rewrite swap32_land, swap32_invol by (unfold u_range; lia).
    rewrite Hones, Z.land_ones by lia. reflexivity. }
  eexists m, _, _. split; [reflexivity|]. split; [reflexivity|]. split; [reflexivity|]. split; [exact H1|].
  split; [exact Ec|]. split.
  { unfold v4_value, v4_set. cbn [s_addr]. rewrite swap32_lor, swap32_invol by (unfold u_range; lia). reflexivity. }
  split; [exact En|]. split.
  { rewrite En, H1. replace (2 ^ 32 - h) with (Z.shiftl (2 ^ p - 1) (32 - p)).
    - unfold h. rewrite <- Z.land_ones by lia. apply Z.bits_inj'. intros i Hi.
      rewrite !Z.land_spec, Z.bits_0, Z.testbit_ones_nonneg by lia. rewrite Z.shiftl_spec by lia.
      destruct (Z.ltb_spec i (32 - p)); [rewrite (Z.testbit_neg_r _ (i - (32 - p))) by lia|]; rewrite ?andb_false_r; reflexivity.
    - rewrite Z.shiftl_mul_pow2, Z.mul_sub_distr_r, <- Z.pow_add_r by lia. unfold h. replace (p + (32 - p)) with 32 by lia. lia. }
  split; [reflexivity|]. split; [reflexivity|]. split.
  - intros q Hq. rewrite (proj2 (Z.ltb_lt 32 q)) by lia. auto.
  - intros q Hq. exists SignedOverflow. rewrite (proj2 (Z.ltb_ge 32 q)) by lia.
    assert (Hc : q = 0 \/ q = 1) by lia. destruct Hc as [-> | ->]; auto.
Qed.

Lemma ipv4_subnets_witness :
  exists m b n, v4_subnetMask 1 24 = Ret m
    /\ v4_broadcastAddress 1 (IPv4_new 1 (192 * 2 ^ 24 + 168 * 2 ^ 16 + 7 * 2 ^ 8 + 9) 80) 24 = Ret (Some b)
    /\ v4_networdAddress 1 (IPv4_new 1 (192 * 2 ^ 24 + 168 * 2 ^ 16 + 7 * 2 ^ 8 + 9) 80) 24 = Ret (Some n)
    /\ v4_value 1 m = 2 ^ 32 - 2 ^ 8.
Proof.
  destruct (ipv4_subnets 1 (IPv4_new 1 (192 * 2 ^ 24 + 168 * 2 ^ 16 + 7 * 2 ^ 8 + 9) 80) 24)
    as (m & b & n & H1 & H2 & H3 & H4 & _); [left; reflexivity|vm_compute; split; congruence|lia|].
  exists m, b, n. auto.
Defined.

(** ** The text of an IPv6 address *)

(** Groups in hexadecimal with colons between them. *)
Fixpoint colons (gs : list Z) : string :=
  match gs with
  | [] => ""
  | [g] => hex g
  | g :: r => (hex g ++ ":" ++ colons r)%string
  end.

(** Each group behind a colon. *)
Fixpoint colon_each (gs : list Z) : string :=
  match gs with [] => "" | g :: r => (":" ++ hex g ++ colon_each r)%string end.

Lemma colons_each g gs : colons (g :: gs) = (hex g ++ colon_each gs)%string.
Proof.
  revert g. induction gs as [|h gs IH]; intros g; [simpl; rewrite append_nil_r; reflexivity|].
  change (colons (g :: h :: gs)) with (hex g ++ ":" ++ colons (h :: gs))%string. rewrite IH. reflexivity.
Qed.

Section v6_text.
Context (host : Z) (a : sockaddr_in6).

Definition group (i : nat) : Z := swap16 host (v6_word host a i).

(** The groups from [i] on. *)
Definition groups_from (i n : nat) : list Z := map group (seq i n).

Context (Hzero : forall i, group i = 0 <-> v6_word host a i = 0).

Lemma loop_used n : forall i, i <> 0%nat ->
  v6_loop host a n i true = (colon_each (groups_from i n), true).
Proof.
  induction n as [|n IH]; intros i Hi; [reflexivity|]. cbn [v6_loop]. rewrite andb_false_r.
  rewrite (proj2 (Nat.eqb_neq i 0) Hi), andb_false_r. cbn [negb orb]. rewrite IH by lia. reflexivity.
Qed.

(** Zero groups are passed over; the next group closes the gap. *)
Lemma loop_gap n : forall i, i <> 0%nat -> v6_word host a (i - 1) = 0 ->
  exists k r, groups_from i n = replicate k 0 ++ r
    /\ match r with
       | [] => v6_loop host a n i false = ("", false) /\ (n <> 0%nat -> v6_word host a (i + n - 1) = 0)
       | g :: _ => g <> 0 /\ v6_loop host a n i false = ("::" ++ colons r, true)%string
       end.
Proof.
  induction n as [|n IH]; intros i Hi Hz; [exists 0%nat, []; split; [reflexivity|split; [reflexivity|congruence]]|].
  cbn [v6_loop]. destruct (Z.eqb_spec (v6_word host a i) 0) as [E|E]; cbn [andb negb].
  - destruct (IH (S i)) as (k & r & Hg & Hr); [lia|replace (S i - 1)%nat with i by lia; exact E|].
    exists (S k), r. split; [cbn [groups_from seq map]; rewrite (proj2 (Hzero i) E); simpl; f_equal; exact Hg|].
    destruct r as [|g r]; [|exact Hr]. destruct Hr as [H1 H2]. split; [exact H1|]. intros _.
    destruct n as [|n]; [replace (i + 1 - 1)%nat with i by lia; exact E|].
    replace (i + S (S n) - 1)%nat with (S i + S n - 1)%nat by lia. apply H2. discriminate.
  - exists 0%nat, (groups_from i (S n)). split; [reflexivity|]. cbn [groups_from seq map].
    split; [rewrite Hzero; exact E|]. rewrite (proj2 (Nat.eqb_neq i 0) Hi), Hz. cbn [negb andb orb Z.eqb].
    rewrite loop_used by lia. fold (groups_from (S i) n). rewrite colons_each. reflexivity.
Qed.

(** Groups that are not zero come first. *)
Lemma loop_start n : forall i, (i <> 0%nat -> v6_word host a (i - 1) <> 0) ->
  exists l k r, groups_from i n = l ++ replicate k 0 ++ r /\ Forall (fun g => g <> 0) l /\ (k = 0%nat -> r = [])
    /\ let text := if Nat.eqb i 0 then colons l else colon_each l in
       match r with
       | [] => v6_loop host a n i false = (text, false) /\ (k <> 0%nat -> v6_word host a (i + n - 1) = 0)
               /\ (k = 0%nat -> n <> 0%nat -> v6_word host a (i + n - 1) <> 0)
       | g :: _ => g <> 0 /\ v6_loop host a n i false = (text ++ "::" ++ colons r, true)%string
       end.
Proof.
  induction n as [|n IH]; intros i Hp.
  { exists [], 0%nat, []. repeat split; [constructor|destruct (Nat.eqb i 0); reflexivity|congruence|congruence]. }
  cbn [v6_loop]. destruct (Z.eqb_spec (v6_word host a i) 0) as [E|E]; cbn [andb negb].
  - destruct (loop_gap n (S i)) as (k & r & Hg & Hr); [lia|replace (S i - 1)%nat with i by lia; exact E|].
    exists [], (S k), r. split; [cbn [groups_from seq map]; rewrite (proj2 (Hzero i) E); simpl; f_equal; exact Hg|].
    split; [constructor|]. split; [discriminate|].
    assert (Et : (if Nat.eqb i 0 then colons [] else colon_each []) = "") by (destruct (Nat.eqb i 0); reflexivity).
    cbv zeta. rewrite Et. destruct r as [|g r]; [|exact Hr]. destruct Hr as [H1 H2]. split; [exact H1|].
    split; [|discriminate]. intros _. destruct n as [|n]; [replace (i + 1 - 1)%nat with i by lia; exact E|].
    replace (i + S (S n) - 1)%nat with (S i + S n - 1)%nat by lia. apply H2. discriminate.
  - destruct (IH (S i)) as (l & k & r & Hg & Hl & Hk & Hr); [replace (S i - 1)%nat with i by lia; auto|].
    exists (group i :: l), k, r. split; [cbn [groups_from seq map]; simpl; f_equal; exact Hg|].
    split; [constructor; [rewrite Hzero; exact E|exact Hl]|]. split; [exact Hk|].
    assert (Hgap : negb (Nat.eqb i 0) && (v6_word host a (i - 1) =? 0) && true = false).
    { destruct (Nat.eqb_spec i 0); [reflexivity|]. rewrite (proj2 (Z.eqb_neq _ _) (Hp n0)). reflexivity. }
    rewrite Hgap. cbn [orb Nat.eqb] in *. cbv zeta in *.
    assert (Et : ((if Nat.eqb i 0 then "" else ":") ++ hex (group i) ++ colon_each l)%string
                 = if Nat.eqb i 0 then colons (group i :: l) else colon_each (group i :: l))
      by (destruct (Nat.eqb i 0); [rewrite colons_each|]; reflexivity).
    replace (i + S n - 1)%nat with (S i + n - 1)%nat by lia. fold (group i).
    destruct r as [|g r].
    + destruct Hr as (H1 & H2 & H3). rewrite H1. cbn [fst snd]. rewrite <- Et. split; [reflexivity|].
      split; [exact H2|]. intros Hk0 _. destruct n as [|n]; [replace (S i + 0 - 1)%nat with i by lia; exact E|].
      apply H3; [exact Hk0|discriminate].
    + destruct Hr as [Hg0 H1]. rewrite H1. cbn [fst snd]. split; [exact Hg0|]. rewrite <- Et.
      f_equal. rewrite <- !append_assoc. reflexivity.
Qed.
End v6_text.

(** The group of two bytes in network order. *)
Definition be16 (l : list Z) (i : nat) : Z := 256 * nth (2 * i) l 0 + nth (2 * i + 1) l 0.

Lemma pair_value host x y : is_order host -> is_byte x -> is_byte y ->
  swap16 host (mem_value host [x; y]) = 256 * x + y.
Proof.
  intros Hh Hx Hy.
  destruct Hh as [-> | ->]; cbn in *; unfold swap16, byteswapOnLittleEndian; cbn [Z.eqb SYLAR_BIG_ENDIAN SYLAR_LITTLE_ENDIAN].
  - unfold byteswap_u, bswap. unfold is_byte in *. rewrite uwrap_id by (unfold u_range; lia). cbn [bytes_of].
    replace ((x + 256 * (y + 256 * 0)) mod 256) with x by (rewrite Z.mul_comm, Z.mod_add, Z.mod_small; lia).
    replace ((x + 256 * (y + 256 * 0)) / 256) with y by (rewrite Z.mul_comm, Z.div_add, Z.div_small; lia).
    rewrite Z.mod_small by lia. cbn. lia.
  - cbn. lia.
Qed.

Lemma two_bytes (l : list Z) i : (2 * i + 1 < length l)%nat ->
  take 2 (drop (2 * i) l) = [nth (2 * i) l 0; nth (2 * i + 1) l 0].
Proof.
  intros H. rewrite <- (firstn_skipn (2 * i) l) at 2 3.
  rewrite !app_nth2; rewrite length_firstn; try lia.
  replace (2 * i - Nat.min (2 * i) (length l))%nat with 0%nat by lia.
  replace (2 * i + 1 - Nat.min (2 * i) (length l))%nat with 1%nat by lia.
  pose proof (length_drop l (2 * i)) as Hl. change (skipn (2 * i) l) with (drop (2 * i) l).
  destruct (drop (2 * i) l) as [|x [|y r]]; simpl in *; try lia. reflexivity.
Qed.

Lemma group_value host a i : is_order host -> length (s6_addr a) = 16%nat -> Forall is_byte (s6_addr a) ->
  (i < 8)%nat -> group host a i = be16 (s6_addr a) i.
Proof.
  intros Hh Hl Hb Hi. unfold group, v6_word. rewrite two_bytes by lia.
  rewrite Forall_forall in Hb. apply pair_value; [exact Hh| |]; apply Hb, list_elem_of_In, nth_In; lia.
Qed.

Lemma word_range host a i : is_order host -> Forall is_byte (s6_addr a) -> u_range 16 (v6_word host a i).
Proof.
  intros Hh Hb. unfold v6_word, mem_value. set (t := take 2 (drop (2 * i) (s6_addr a))).
  assert (Ht : Forall is_byte t) by (apply Forall_take, Forall_drop, Hb).
  assert (Hl : (length t <= 2)%nat) by (unfold t; rewrite length_take; lia).
  assert (R : forall l, Forall is_byte l -> (length l <= 2)%nat -> u_range 16 (of_bytes l)).
  { intros l Hf Hn. pose proof (of_bytes_range l Hf) as R. unfold u_range, zlen in *.
    pose proof (Z.pow_le_mono_r 2 (8 * Z.of_nat (length l)) 16). lia. }
  destruct (host =? _); apply R; try rewrite length_rev; try apply Forall_rev; assumption.
Qed.

Lemma group_zero host a : is_order host -> Forall is_byte (s6_addr a) ->
  forall i, group host a i = 0 <-> v6_word host a i = 0.
Proof.
  intros Hh Hb i. pose proof (word_range host a i Hh Hb) as R. unfold group.
  split; intros E; [|rewrite E; destruct Hh as [-> | ->]; reflexivity].
  rewrite <- (swap16_invol host _ R), E. destruct Hh as [-> | ->]; reflexivity.
Qed.

(** The text of an IPv6 address is that of RFC 4291: the eight groups in
    hexadecimal with colons between them, with two colons in the place of the
    first run of zero groups, in brackets before the port; the groups that the
    text names, with zeros for the gap, are those of the address. *)
Theorem ipv6_text (host : Z) (a : sockaddr_in6) :
  is_order host -> length (s6_addr a) = 16%nat -> Forall is_byte (s6_addr a) ->
  exists l k r, map (be16 (s6_addr a)) (seq 0 8) = l ++ replicate k 0 ++ r
    /\ Forall (fun g => g <> 0) l /\ (k = 0%nat -> r = []) /\ match r with g :: _ => g <> 0 | [] => True end
    /\ v6_insert host a
       = ("[" ++ (if Nat.eqb k 0 then colons l else colons l ++ "::" ++ colons r) ++ "]:" ++ dec (v6_getPort host a))%string.
Proof.
  intros Hh Hl Hb.
  pose proof (group_zero host a Hh Hb) as Hz.
  destruct (loop_start host a Hz 8 0 ltac:(congruence)) as (l & k & r & Hg & Hnz & Hk & Hr).
  exists l, k, r. split.
  { rewrite <- Hg. apply map_ext_in. intros i Hi. apply in_seq in Hi. symmetry. apply group_value; auto; lia. }
  split; [exact Hnz|]. split; [exact Hk|]. unfold v6_insert, v6_getPort. cbn [Nat.eqb] in Hr. cbv zeta in Hr.
  destruct r as [|g r].
  - split; [exact I|]. destruct Hr as (E & H1 & H2). rewrite E. cbn [fst snd negb andb].
    destruct (Nat.eqb_spec k 0) as [E0|E0].
    + specialize (H2 E0 ltac:(discriminate)). cbn in H2. rewrite (proj2 (Z.eqb_neq _ _) H2). reflexivity.
    + specialize (H1 E0). cbn in H1. rewrite H1. cbn [Z.eqb colons]. rewrite append_nil_r, !append_assoc. reflexivity.
  - destruct Hr as [Hg0 E]. split; [exact Hg0|]. rewrite E. cbn [fst snd negb andb].
    destruct (Nat.eqb_spec k 0) as [E0|_]; [discriminate (Hk E0)|]. rewrite !append_assoc. reflexivity.
Qed.

Definition sample_v6 : sockaddr_in6 :=
  IPv6_new 1 [254; 128; 0; 0; 0; 0; 0; 0; 2; 1; 0; 0; 0; 0; 0; 10] 8080.

Lemma ipv6_text_witness :
  v6_insert 1 sample_v6 = "[fe80::201:0:0:a]:8080"%string
  /\ exists l k r, map (be16 (s6_addr sample_v6)) (seq 0 8) = l ++ replicate k 0 ++ r
    /\ Forall (fun g => g <> 0) l.
Proof.
  split; [vm_compute; reflexivity|].
  destruct (ipv6_text 1 sample_v6) as (l & k & r & H1 & H2 & _);
    [left; reflexivity|reflexivity|repeat constructor; unfold is_byte; lia|].
  exists l, k, r. auto.
Defined.

(** ** The order of addresses *)

(** The bytes that are compared. *)
Definition key (host : Z) (a : Address) : list Z := take (Z.to_nat (getAddrLen a)) (getAddr host a).

(** The length lies within the structure. *)
Definition readable (host : Z) (a : Address) : Prop := 0 <= getAddrLen a <= zlen (getAddr host a).

Fixpoint lex (a b : list Z) : comparison :=
  match a, b with
  | [], [] => Eq
  | [], _ :: _ => Lt
  | _ :: _, [] => Gt
  | x :: a', y :: b' => match x ?= y with Eq => lex a' b' | c => c end
  end.

Lemma lex_eq a : forall b, lex a b = Eq <-> a = b.
Proof.
  induction a as [|x a IH]; intros [|y b]; simpl; try (split; congruence).
  destruct (Z.compare_spec x y) as [->|H|H]; [rewrite IH; split; congruence|split; [discriminate|]..];
    intros E; injection E; lia.
Qed.

Lemma lex_opp a : forall b, lex b a = CompOpp (lex a b).
Proof.
  induction a as [|x a IH]; intros [|y b]; simpl; try reflexivity.
  rewrite (Z.compare_antisym x y). destruct (x ?= y); simpl; [apply IH|reflexivity|reflexivity].
Qed.

Lemma lex_trans a : forall b c, lex a b = Lt -> lex b c = Lt -> lex a c = Lt.
Proof.
  induction a as [|x a IH]; intros [|y b] [|z c]; simpl; try discriminate; try reflexivity.
  destruct (Z.compare_spec x y), (Z.compare_spec y z), (Z.compare_spec x z); try discriminate; try lia; auto.
  apply IH.
Qed.

(** [memcmp] of the common length decides as the order does, up to the lengths. *)
Lemma memcmp_lex (a b : list Z) : forall x y, exists r, memcmp (Nat.min (length a) (length b)) (a ++ x) (b ++ y) = Ret r
  /\ match Z.compare r 0 with
     | Lt => lex a b = Lt
     | Gt => lex a b = Gt
     | Eq => lex a b = Nat.compare (length a) (length b)
             /\ (length a = length b -> a = b)
     end.
Proof.
  revert b. induction a as [|u a IH]; intros [|v b] x y; simpl; try (exists 0; split; [reflexivity|simpl; split; [reflexivity|easy]]).
  destruct (Z.eqb_spec u v) as [->|Hn].
  - rewrite Z.compare_refl. destruct (IH b x y) as (r & E & H). exists r. split; [exact E|].
    destruct (Z.compare_spec r 0); [|exact H|exact H]. destruct H as [H1 H2]. split; [exact H1|].
    intros Hl. f_equal. apply H2. lia.
  - exists (u - v). split; [reflexivity|]. destruct (Z.compare_spec (u - v) 0); [lia| |];
      destruct (Z.compare_spec u v); try reflexivity; lia.
Qed.

Section order.
Context (host : Z).
Implicit Types (a b c : Address).

Lemma key_split a : getAddr host a = key host a ++ drop (Z.to_nat (getAddrLen a)) (getAddr host a).
Proof. unfold key. rewrite take_drop. reflexivity. Qed.

Lemma key_length a : readable host a -> Z.of_nat (length (key host a)) = getAddrLen a.
Proof. unfold readable, key, zlen. intros H. rewrite length_take. lia. Qed.

Lemma operator_lt_lex a b : readable host a -> readable host b ->
  operator_lt host a b = Ret (match lex (key host a) (key host b) with Lt => true | _ => false end).
Proof.
  intros Ha Hb. pose proof (key_length a Ha) as La. pose proof (key_length b Hb) as Lb. unfold operator_lt.
  replace (Z.to_nat (Z.min (getAddrLen a) (getAddrLen b)))
    with (Nat.min (length (key host a)) (length (key host b))) by lia.
  rewrite (key_split a), (key_split b).
  destruct (memcmp_lex (key host a) (key host b) (drop (Z.to_nat (getAddrLen a)) (getAddr host a))
    (drop (Z.to_nat (getAddrLen b)) (getAddr host b))) as (r & -> & H). cbn [obind].
  destruct (Z.compare_spec r 0) as [Hr|Hr|Hr].
  - rewrite Hr. cbn [Z.ltb Z.compare]. destruct H as [-> _]. destruct (Z.ltb_spec (getAddrLen a) (getAddrLen b)), (Nat.compare_spec (length (key host a)) (length (key host b)));
      try reflexivity; lia.
  - rewrite (proj2 (Z.ltb_lt _ _) Hr), H. reflexivity.
  - rewrite (proj2 (Z.ltb_ge r 0)), (proj2 (Z.ltb_lt 0 r)) by lia. rewrite H. reflexivity.
Qed.

Lemma operator_eq_key a b : readable host a -> readable host b ->
  operator_eq host a b = Ret (bool_decide (key host a = key host b)).
Proof.
  intros Ha Hb. pose proof (key_length a Ha) as La. pose proof (key_length b Hb) as Lb. unfold operator_eq.
  destruct (Z.eqb_spec (getAddrLen a) (getAddrLen b)) as [E|E].
  - replace (Z.to_nat (getAddrLen a)) with (Nat.min (length (key host a)) (length (key host b))) by lia.
    rewrite (key_split a), (key_split b).
    destruct (memcmp_lex (key host a) (key host b) (drop (Z.to_nat (getAddrLen a)) (getAddr host a))
      (drop (Z.to_nat (getAddrLen b)) (getAddr host b))) as (r & -> & H). cbn [obind]. f_equal.
    destruct (Z.compare_spec r 0) as [Hr|Hr|Hr].
    + rewrite Hr, bool_decide_eq_true_2; [reflexivity|]. apply H. lia.
    + rewrite bool_decide_eq_false_2; [apply Z.eqb_neq; lia|]. intros Ek. apply lex_eq in Ek. congruence.
    + rewrite bool_decide_eq_false_2; [apply Z.eqb_neq; lia|]. intros Ek. apply lex_eq in Ek. congruence.
  - rewrite bool_decide_eq_false_2; [reflexivity|]. intros Ek. rewrite Ek in La. lia.
Qed.
End order.

(** A Unix address that was made is readable. *)
Lemma unix_readable host path u : slength path < 2 ^ 32 - 1 -> UnixAddress_new path = Ret u -> readable host u.
Proof.
  unfold UnixAddress_new. intros Hs. remember (replicate path_size NUL) as m0 eqn:Em. assert (Hp : 0 <= slength path) by (unfold slength; lia).
  rewrite uwrap_id by (unfold u_range; lia).
  set (len := match path with EmptyString => _ | String _ _ => _ end).
  assert (Hlen : 0 <= len <= slength path + 1).
  { subst len. destruct path as [|c r]; [lia|]. destruct (bool_decide _); [|lia].
    rewrite uwrap_id; unfold u_range; lia. }
  destruct (Z.ltb_spec (Z.of_nat path_size) len); [discriminate|]. intros E. injection E as <-.
  unfold readable, getAddr, getAddrLen. cbn [sun_path]. unfold path_size in *.
  rewrite uwrap_id by (unfold u_range, path_offset; lia).
  assert (E : zlen (overlay 0 (take (Z.to_nat len) (c_mem path)) m0) = 108).
  { assert (Hm : zlen m0 = 108) by (rewrite Em; reflexivity).
    rewrite zlen_overlay; rewrite ?Hm; unfold zlen; rewrite ?length_take; lia. }
  assert (E2 : zlen (map code (overlay 0 (take (Z.to_nat len) (c_mem path)) m0)) = 108)
    by (rewrite <- E; unfold zlen; rewrite length_map; reflexivity).
  assert (E3 : zlen (mem_image host 2 AF_UNIX) = 2) by (unfold zlen; rewrite length_mem_image; reflexivity).
  cbn [sun_family sun_path]. rewrite zlen_app, E2, E3. unfold path_offset. lia.
Qed.

(** C32: Addresses are ordered by the bytes of their structures, so that they can
    be keys of a map: [operator<] is a strict order, two addresses are equal by
    [operator==] exactly when neither is less, and this is equality of their bytes.
    A Unix address keeps its length within the structure. *)
Theorem address_order (host : Z) (a b c : Address) :
  readable host a -> readable host b -> readable host c ->
  operator_lt host a a = Ret false
  /\ (operator_lt host a b = Ret true -> operator_lt host b c = Ret true -> operator_lt host a c = Ret true)
  /\ (operator_eq host a b = Ret true <-> operator_lt host a b = Ret false /\ operator_lt host b a = Ret false)
  /\ (operator_eq host a b = Ret true <-> key host a = key host b)
  /\ (forall path u, slength path < 2 ^ 32 - 1 -> UnixAddress_new path = Ret u -> readable host u).
Proof.
  intros Ha Hb Hc. rewrite !operator_lt_lex, operator_eq_key by assumption.
  rewrite (lex_opp (key host a) (key host b)), (proj2 (lex_eq (key host a) (key host a)) eq_refl).
  split; [reflexivity|]. split; [|split; [|split; [|apply unix_readable]]].
  - destruct (lex (key host a) (key host b)) eqn:E1; try discriminate. intros _.
    destruct (lex (key host b) (key host c)) eqn:E2; try discriminate. intros _.
    rewrite (lex_trans _ _ _ E1 E2). reflexivity.
  - destruct (lex (key host a) (key host b)) eqn:E; simpl.
    + apply lex_eq in E. rewrite bool_decide_eq_true_2 by exact E. tauto.
    + rewrite bool_decide_eq_false_2 by (intros Ek; apply lex_eq in Ek; congruence). split; [discriminate|intros [? ?]; discriminate].
    + rewrite bool_decide_eq_false_2 by (intros Ek; apply lex_eq in Ek; congruence). split; [discriminate|intros [? ?]; discriminate].
  - split; [intros E; injection E as E; apply bool_decide_eq_true_1 in E; exact E|].
    intros E. rewrite bool_decide_eq_true_2 by exact E. reflexivity.
Qed.

Lemma address_order_witness :
  operator_lt 1 (IPv4Address (IPv4_new 1 5 80)) (IPv4Address (IPv4_new 1 5 81)) = Ret true
  /\ (operator_eq 1 (IPv4Address (IPv4_new 1 5 80)) (IPv6Address IPv6_any) = Ret true
      <-> key 1 (IPv4Address (IPv4_new 1 5 80)) = key 1 (IPv6Address IPv6_any)).
Proof.
  split; [reflexivity|].
  apply (address_order 1 (IPv4Address (IPv4_new 1 5 80)) (IPv6Address IPv6_any) (IPv6Address IPv6_any));
    vm_compute; split; discriminate.
Defined.

(** ** The parts of a host text *)

Definition lacks (c : ascii) (s : string) : Prop := ~ In c (list_ascii_of_string s).

Lemma memchr_none c l : ~ In c l -> memchr c l = None.
Proof.
  induction l as [|x l IH]; simpl; [reflexivity|]. intros H. rewrite bool_decide_eq_false_2 by tauto. apply IH. tauto.
Qed.

Lemma memchr_some c l r : ~ In c l -> memchr c (l ++ c :: r) = Some (c :: r).
Proof.
  induction l as [|x l IH]; simpl; intros H; [rewrite bool_decide_eq_true_2 by reflexivity; reflexivity|].
  rewrite bool_decide_eq_false_2 by tauto. apply IH. tauto.
Qed.

Lemma take_before (l r : list ascii) c : take (length (l ++ c :: r) - S (length r)) (l ++ c :: r) = l.
Proof. rewrite length_app. simpl. replace (length l + S (length r) - S (length r))%nat with (length l) by lia. apply take_app_length. Qed.

Local Open Scope string_scope.

(** Brackets do not matter when the text has none in front. *)
Definition unbracketed (s : string) : bool :=
  match s with String c _ => negb (bool_decide (c = "["%char)) | EmptyString => true end.

Lemma no_brackets s : unbracketed s = true -> split_brackets (list_ascii_of_string s) = ([], None).
Proof.
  destruct s as [|c r]; simpl; [reflexivity|]. intros H. apply negb_true_iff in H. rewrite H. reflexivity.
Qed.

Lemma brackets v rest : lacks "]" v ->
  split_brackets (list_ascii_of_string ("[" ++ v ++ "]" ++ rest))
  = (list_ascii_of_string v, match list_ascii_of_string rest with ":"%char :: s => Some s | _ => None end).
Proof.
  intros Hv. rewrite !chars_append. cbn [list_ascii_of_string app split_brackets].
  rewrite bool_decide_eq_true_2 by reflexivity.
  rewrite memchr_some by exact Hv. rewrite take_before. reflexivity.
Qed.

(** The host and the service of a text: "name:port", "name", "[v6]:port" and
    "[v6]" are taken apart as they read.  A bare text with two colons, an IPv6
    address without brackets, keeps its whole text as node, and the service is
    left pointing into it, so getaddrinfo is asked for a service that is no
    port. *)
Theorem host_parts (name v6 port mid : string) :
  unbracketed name = true -> name <> "" -> v6 <> "" ->
  lacks ":" name -> lacks ":" port -> lacks "]" v6 ->
  split_host (name ++ ":" ++ port) = (name, Some port)
  /\ split_host name = (name, None)
  /\ split_host ("[" ++ v6 ++ "]:" ++ port) = (v6, Some port)
  /\ split_host ("[" ++ v6 ++ "]") = (v6, None)
  /\ split_host (name ++ ":" ++ mid ++ ":" ++ port) = (name ++ ":" ++ mid ++ ":" ++ port, Some (":" ++ mid ++ ":" ++ port)).
Proof.
  intros Hu Hn Hv Hc Hp Hb.
  assert (Hub : forall t, unbracketed (name ++ t) = true) by (intros t; destruct name; [congruence|exact Hu]).
  assert (Hne : list_ascii_of_string name <> []) by (destruct name; [congruence|discriminate]).
  assert (Hve : list_ascii_of_string v6 <> []) by (destruct v6; [congruence|discriminate]).
  split; [|split; [|split; [|split]]]; unfold split_host.
  - rewrite no_brackets by apply Hub. rewrite !chars_append. cbn [list_ascii_of_string app].
    rewrite memchr_some, memchr_none, take_before by assumption.
    cbn [option_map]. destruct (list_ascii_of_string name) eqn:E; [congruence|]. rewrite <- E.
    rewrite !string_of_list_ascii_of_string. reflexivity.
  - rewrite no_brackets by exact Hu. rewrite memchr_none by assumption. cbn [option_map].
    rewrite string_of_list_ascii_of_string. reflexivity.
  - change ("]:" ++ port) with ("]" ++ (":" ++ port)). rewrite brackets by assumption.
    change (match list_ascii_of_string (":" ++ port) with ":"%char :: s => Some s | _ => None end)
      with (Some (list_ascii_of_string port)). cbn [option_map]. destruct (list_ascii_of_string v6) eqn:E; [congruence|]. rewrite <- E. cbn [option_map].
    rewrite !string_of_list_ascii_of_string. reflexivity.
  - change "]" with ("]" ++ "") at 1 2. rewrite brackets by assumption. cbn [list_ascii_of_string option_map].
    destruct (list_ascii_of_string v6) eqn:E; [congruence|]. rewrite <- E. cbn [option_map].
    rewrite string_of_list_ascii_of_string. reflexivity.
  - rewrite no_brackets by apply Hub. set (t := mid ++ ":" ++ port).
    rewrite (chars_append name (":" ++ t)), (chars_append ":" t). cbn [list_ascii_of_string app].
    rewrite memchr_some by assumption.
    assert (Hs : exists r, memchr ":" (list_ascii_of_string t) = Some r).
    { unfold t. rewrite chars_append. generalize (list_ascii_of_string mid). intros l. induction l as [|x l IH]; simpl; [eauto|].
      destruct (bool_decide (x = ":"%char)); [eauto|exact IH]. }
    destruct Hs as [r ->]. cbn [option_map string_of_list_ascii]. rewrite string_of_list_ascii_of_string.
    do 2 f_equal. change (":"%char :: list_ascii_of_string t) with (list_ascii_of_string (":" ++ t)).
    rewrite <- chars_append, string_of_list_ascii_of_string. reflexivity.
Qed.

Lemma host_parts_witness :
  split_host "www.sylar.top:80" = ("www.sylar.top", Some "80")
  /\ split_host ("[" ++ "::1" ++ "]:" ++ "80") = ("::1", Some "80")
  /\ split_host ("fe80" ++ ":" ++ "" ++ ":" ++ "1") = ("fe80::1", Some "::1").
Proof.
  destruct (host_parts "www.sylar.top" "::1" "80" "") as (H1 & _ & H3 & _);
    try discriminate; [reflexivity|intros H; simpl in H; intuition discriminate..|].
  destruct (host_parts "fe80" "::1" "1" "") as (_ & _ & _ & _ & H5);
    try discriminate; [reflexivity|intros H; simpl in H; intuition discriminate..|].
  split; [exact H1|]. split; [exact H3|exact H5].
Defined.
