(* ===== verification/Stream.v ===== *)
(** * Streams (sylar/stream.h, sylar/stream.cpp)

    [Stream] is the abstract class: the two virtual calls on raw memory.
    [ByteStream] is its contract, stated on the bytes that are yet to be read
    and the bytes that were written; the implementation in SocketStream.v
    discharges it and the loops of [readFixSize] and [writeFixSize] are proved
    against it.  A buffer in memory is a list that [read] overlays. *)

From Stdlib Require Import ZArith Lia.
From stdpp Require Import base list.
From S2P Require Import Prelude.

Local Open Scope Z_scope.
Local Open Scope cpp_scope.

Class Stream (S B : Type) : Type := {
  (** [read(buffer, length)]: the result and the bytes stored in the buffer. *)
  s_read : Z -> M S (Z * list B);
  s_write : list B -> M S Z
}.

Class ByteStream {S B} (I : Stream S B) : Type := {
  incoming : S -> list B;
  outgoing : S -> list B;
  read_law len st : 0 < len -> exists st' rt d,
    s_read len st = (st', Ret (rt, d)) /\ rt <= len /\ - 2 ^ 31 <= rt < 2 ^ 31 /\ zlen d = Z.max 0 rt
    /\ incoming st = d ++ incoming st' /\ outgoing st' = outgoing st;
  write_law data st : data <> [] -> exists st' rt,
    s_write data st = (st', Ret rt) /\ rt <= zlen data /\ - 2 ^ 31 <= rt < 2 ^ 31
    /\ outgoing st' = outgoing st ++ take (Z.to_nat rt) data /\ incoming st' = incoming st
}.

Section stream.
Context {S B : Type} {I : Stream S B}.

(** The loop of [readFixSize(buffer, length)]: [None] when it runs to its end,
    [Some len] at its early return. *)
Fixpoint read_loop (fuel : nat) (buffer : list B) (offset left_ : Z) : M S (list B * option Z) :=
  match fuel with
  | O => cundef FuelExhausted
  | Datatypes.S fuel' =>
      if left_ <=? 0 then cret (buffer, None) else
      let! r := s_read left_ in
      let buffer' := overlay offset r.2 buffer in
      if r.1 <=? 0 then cret (buffer', Some r.1)
      else read_loop fuel' buffer' (u64 (offset + r.1)) (u64 (left_ - r.1))
  end.

(** The memory afterwards and the result, an [int]. *)
Definition readFixSize (buffer : list B) (length : Z) : M S (list B * Z) :=
  let! r := read_loop (Datatypes.S (Z.to_nat length)) buffer 0 length in
  cret (r.1, i32 (match r.2 with Some len => len | None => length end)).

Fixpoint write_loop (fuel : nat) (buffer : list B) (offset left_ : Z) : M S (option Z) :=
  match fuel with
  | O => cundef FuelExhausted
  | Datatypes.S fuel' =>
      if left_ <=? 0 then cret None else
      let! len := s_write (slice offset left_ buffer) in
      if len <=? 0 then cret (Some len)
      else write_loop fuel' buffer (u64 (offset + len)) (i64 (left_ - len))
  end.

Definition writeFixSize (buffer : list B) (length : Z) : M S Z :=
  let! r := write_loop (Datatypes.S (Z.to_nat length)) buffer 0 (i64 length) in
  cret (i32 (match r with Some len => len | None => length end)).
End stream.

(** ** The loops against the contract *)

Section loops.
Context {S B : Type} {I : Stream S B} {L : ByteStream I}.
Implicit Types (st : S) (buffer d : list B).

Lemma u64_small x : 0 <= x < 2 ^ 64 -> u64 x = x.
Proof. apply uwrap_id. Qed.

Lemma i64_small x : - 2 ^ 63 <= x < 2 ^ 63 -> i64 x = x.
Proof. intros H. apply swrap_id; [lia|exact H]. Qed.

Lemma fix_read_ok fuel buffer offset left_ st :
  0 <= offset -> 0 <= left_ -> offset + left_ <= zlen buffer -> zlen buffer < 2 ^ 63 ->
  (Z.to_nat left_ < fuel)%nat ->
  exists st' d r, read_loop fuel buffer offset left_ st = (st', Ret (overlay offset d buffer, r))
    /\ incoming st = d ++ incoming st' /\ outgoing st' = outgoing st
    /\ match r with None => zlen d = left_ | Some len => - 2 ^ 31 <= len <= 0 /\ zlen d < left_ end.
Proof.
  revert buffer offset left_ st. induction fuel as [|fuel IH]; intros buffer offset left_ st Ho Hl Hb Hm Hf; [lia|].
  cbn [read_loop]. destruct (Z.leb_spec left_ 0).
  { exists st, [], None. rewrite overlay_nil. repeat split; unfold zlen; simpl; lia. }
  destruct (read_law left_ st ltac:(lia)) as (st1 & rt & d1 & R & H1 & H2 & H3 & H4 & H5).
  rewrite (cbind_ret _ _ _ _ _ R). cbn [fst snd]. destruct (Z.leb_spec rt 0).
  { exists st1, d1, (Some rt). repeat split; auto; lia. }
  rewrite !u64_small by lia.
  destruct (IH (overlay offset d1 buffer) (offset + rt) (left_ - rt) st1) as (st' & d & r & R' & E1 & E2 & E3);
    rewrite ?zlen_overlay by lia; try lia.
  exists st', (d1 ++ d), r. rewrite R'. replace (offset + rt) with (offset + zlen d1) by lia.
  rewrite overlay_overlay by lia. split; [reflexivity|].
  split; [rewrite H4, E1, (assoc_L (++)); reflexivity|]. split; [congruence|].
  rewrite zlen_app. destruct r; lia.
Qed.

Lemma fix_write_ok fuel buffer offset left_ st :
  0 <= offset -> 0 <= left_ -> offset + left_ <= zlen buffer -> zlen buffer < 2 ^ 63 ->
  (Z.to_nat left_ < fuel)%nat ->
  exists st' n r, write_loop fuel buffer offset left_ st = (st', Ret r)
    /\ outgoing st' = outgoing st ++ slice offset n buffer /\ incoming st' = incoming st
    /\ 0 <= n /\ match r with None => n = left_ | Some len => - 2 ^ 31 <= len <= 0 /\ n < left_ end.
Proof.
  revert offset left_ st. induction fuel as [|fuel IH]; intros offset left_ st Ho Hl Hb Hm Hf; [lia|].
  cbn [write_loop]. destruct (Z.leb_spec left_ 0).
  { exists st, 0, None. rewrite slice_0, (right_id_L [] (++)). repeat split; lia. }
  assert (Hz : zlen (slice offset left_ buffer) = left_) by (apply zlen_slice; lia).
  destruct (write_law (slice offset left_ buffer) st) as (st1 & rt & R & H1 & H0 & H2 & H3).
  { intros E. rewrite E in Hz. unfold zlen in Hz. simpl in Hz. lia. }
  rewrite (cbind_ret _ _ _ _ _ R). destruct (Z.leb_spec rt 0).
  { exists st1, 0, (Some rt). rewrite H2. replace (Z.to_nat rt) with 0%nat by lia. repeat split; auto; lia. }
  rewrite u64_small, i64_small by lia.
  destruct (IH (offset + rt) (left_ - rt) st1) as (st' & n & r & R' & E1 & E2 & E3 & E4); try lia.
  exists st', (rt + n), r. rewrite R'. split; [reflexivity|].
  split; [|split; [congruence|destruct r; lia]].
  rewrite slice_app by lia. rewrite E1, H2, <- (assoc_L (++)). f_equal. f_equal.
  unfold slice. rewrite take_take. f_equal. lia.
Qed.
End loops.

(** C24: [readFixSize] and [writeFixSize] on any stream that keeps the contract
    end, and transfer all or report: [readFixSize] stores the next bytes of the
    stream at the front of the buffer, in order and without a gap, and returns
    the length when it has that many, and otherwise the result of the call that
    failed, with fewer bytes stored; [writeFixSize] likewise sends the buffer
    from its beginning. *)
Theorem fixed_size_transfer {S B} (I : Stream S B) (L : ByteStream I) buffer length st :
  0 <= length <= zlen buffer -> length < 2 ^ 31 -> zlen buffer < 2 ^ 63 ->
  (exists st' d rt, readFixSize buffer length st = (st', Ret (overlay 0 d buffer, rt))
     /\ incoming st = d ++ incoming st' /\ outgoing st' = outgoing st
     /\ ((rt = length /\ zlen d = length) \/ (rt <= 0 /\ zlen d < length)))
  /\ (exists st' n rt, writeFixSize buffer length st = (st', Ret rt)
     /\ outgoing st' = outgoing st ++ slice 0 n buffer /\ incoming st' = incoming st
     /\ ((rt = length /\ n = length) \/ (rt <= 0 /\ 0 <= n < length))).
Proof.
  intros Hl Hm Hb. assert (Hi : forall x, - 2 ^ 31 <= x < 2 ^ 31 -> i32 x = x)
    by (intros x Hx; apply swrap_id; [lia|exact Hx]). split.
  - destruct (fix_read_ok (Datatypes.S (Z.to_nat length)) buffer 0 length st) as (st' & d & r & R & E1 & E2 & E3); try lia.
    exists st', d, (match r with Some len => len | None => length end).
    unfold readFixSize. rewrite (cbind_ret _ _ _ _ _ R). cbn [fst snd].
    rewrite Hi by (destruct r; lia). repeat split; auto. destruct r; [right|left]; tauto || lia.
  - destruct (fix_write_ok (Datatypes.S (Z.to_nat length)) buffer 0 length st) as (st' & n & r & R & E1 & E2 & E3 & E4); try lia.
    exists st', n, (match r with Some len => len | None => length end).
    unfold writeFixSize. rewrite i64_small by lia. rewrite (cbind_ret _ _ _ _ _ R).
    rewrite Hi by (destruct r; lia). repeat split; auto. destruct r; [right|left]; lia.
Qed.

(** ** A stream that delivers two bytes at a time *)

Definition slow_stream : Stream (list Z * list Z) Z := {|
  s_read len st := ((drop (Z.to_nat (Z.min 2 len)) st.1, st.2),
                    Ret (zlen (take (Z.to_nat (Z.min 2 len)) st.1), take (Z.to_nat (Z.min 2 len)) st.1));
  s_write data st := ((st.1, st.2 ++ take 2 data), Ret (zlen (take 2 data)))
|}.

Definition slow_stream_laws : ByteStream slow_stream.
Proof.
  refine {| incoming := fst; outgoing := snd |}.
  - intros len [i o] Hl. eexists _, _, _. split; [reflexivity|]. simpl. rewrite take_drop.
    unfold zlen. rewrite length_take. repeat split; lia.
  - intros data [i o] Hd. eexists _, _. split; [reflexivity|]. simpl.
    unfold zlen. rewrite Nat2Z.id, length_take. split; [lia|]. split; [lia|].
    split; [|reflexivity]. destruct data as [|a [|b r]]; reflexivity.
Defined.

Lemma fixed_size_transfer_witness :
  (exists st' d rt, readFixSize (I := slow_stream) [0; 0; 0; 0; 0] 5 ([1; 2; 3; 4; 5; 6], [])
     = (st', Ret (overlay 0 d [0; 0; 0; 0; 0], rt)))
  /\ (exists st' rt, writeFixSize (I := slow_stream) [7; 8; 9] 3 ([], [5]) = (st', Ret rt)).
Proof.
  split.
  - destruct (fixed_size_transfer slow_stream slow_stream_laws [0; 0; 0; 0; 0] 5 ([1; 2; 3; 4; 5; 6], []))
      as [(st' & d & rt & H & _) _]; [vm_compute; split; congruence|lia|vm_compute; reflexivity|].
    exists st', d, rt. exact H.
  - destruct (fixed_size_transfer slow_stream slow_stream_laws [7; 8; 9] 3 ([], [5]))
      as [_ (st' & n & rt & H & _)]; [vm_compute; split; congruence|lia|vm_compute; reflexivity|].
    exists st', rt. exact H.
Defined.
