(* ===== verification/SocketStream.v ===== *)
(** * SocketStream: a stream over a socket (sylar/streams/socket_stream.h,
    sylar/streams/socket_stream.cpp) and the ByteArray calls of stream.cpp

    The stream holds the pointer to its socket (null is [None]).  On raw memory
    it is an instance of [Stream] (Stream.v) that keeps the contract
    [ByteStream]; the calls on a ByteArray combine the socket with the buffer
    vectors of ByteArrayView.v. *)

From Stdlib Require Import ZArith Lia.
From stdpp Require Import base list gmap sets.
From S2P Require Import Prelude FdManager Socket SocketSpec Stream ByteArray ByteArrayView.

Local Open Scope Z_scope.
Local Open Scope cpp_scope.

Section socket_stream.
Context {B A : Type} {K : Kernel B A}.

Record SocketStream : Type := mkStream { m_socket : option (Socket A); m_owner : bool }.

Definition SocketStream_new (sock : Socket A) (owner : bool) : SocketStream := mkStream (Some sock) owner.

Definition SS : Type := SocketStream * world.

(** [m_socket->f(...)]: undefined through a null pointer. *)
Definition through {X} (m : M (St B A K) X) : M SS X := fun st =>
  match m_socket st.1 with
  | None => (st, Undef NullDeref)
  | Some s => let '((s', w'), o) := m (s, st.2) in ((mkStream (Some s') (m_owner st.1), w'), o)
  end.

(** [if (m_socket) f; else d]. *)
Definition if_socket {X} (m : M (St B A K) X) (d : X) : M SS X := fun st =>
  match m_socket st.1 with None => (st, Ret d) | Some _ => through m st end.

Definition isConnected : M SS bool := if_socket Socket.isConnected false.

Definition read (length : Z) : M SS (Z * list B) :=
  let! c := isConnected in
  if negb c then cret (-1, []) else through (recv length).

Definition write (buffer : list B) : M SS Z :=
  let! c := isConnected in
  if negb c then cret (-1) else through (send buffer).

Definition close : M SS unit := if_socket (Socket.close ;;; cret tt) tt.

Definition SocketStream_delete : M SS unit := fun st =>
  if m_owner st.1 then close st else (st, Ret tt).

Definition getRemoteAddress : M SS (option A) :=
  if_socket (let! a := Socket.getRemoteAddress in cret (Some a)) None.
Definition getLocalAddress : M SS (option A) :=
  if_socket (let! a := Socket.getLocalAddress in cret (Some a)) None.

#[global] Instance socket_stream : Stream SS B := {| s_read := read; s_write := write |}.

(** ** It keeps the contract of a stream *)

Context {L : KernelLaws K}.

Definition fd_of (st : SS) : Z := match m_socket st.1 with Some s => m_sock s | None => -1 end.

Lemma connected_cases st :
  (isConnected st = (st, Ret false))
  \/ (exists s, m_socket st.1 = Some s /\ m_isConnect s = true /\ isConnected st = (st, Ret true)).
Proof.
  destruct st as [[[s|] o] w]; unfold isConnected, if_socket; cbn; [|left; reflexivity].
  destruct (m_isConnect s) eqn:E; [right; exists s; auto|left; reflexivity].
Qed.

Lemma i32_id x : - 2 ^ 31 <= x < 2 ^ 31 -> i32 x = x.
Proof. intros H. apply swrap_id; [lia|exact H]. Qed.

Lemma read_spec len st : 0 < len -> exists st' rt d,
  read len st = (st', Ret (rt, d)) /\ rt <= len /\ - 1 <= rt < 2 ^ 31 /\ zlen d = Z.max 0 rt
  /\ st'.1 = st.1 /\ k_in (fd_of st) st.2 = d ++ k_in (fd_of st) st'.2
  /\ k_out (fd_of st) st'.2 = k_out (fd_of st) st.2.
Proof.
  intros Hl. unfold read. destruct (connected_cases st) as [E|(s & Es & Ec & E)]; rewrite (cbind_ret _ _ _ _ _ E); cbn [negb].
  - exists st, (-1), []. repeat split; unfold zlen; simpl; lia.
  - destruct st as [[sk o] w]. cbn [fst snd m_socket fd_of] in *. subst sk.
    unfold through. cbn [fst snd m_socket m_owner]. unfold recv, Socket.isConnected.
    rewrite !bind_get. cbv beta. cbn [fst]. rewrite Ec.
    destruct (k_recv (m_sock s) len w) as [w' [rt d]] eqn:Ek.
    rewrite bind_get. cbn [fst]. rewrite (bind_sys _ _ _ _ _ _ Ek). cbn [fst snd cret].
    destruct (recv_bytes _ _ _ _ _ _ (Z.lt_le_incl _ _ Hl) Ek) as (H1 & H2 & H3 & H4). unfold MAX_RW_COUNT in H1.
    rewrite i32_id by lia. unfold cret. eexists _, rt, d. split; [reflexivity|]. cbn [fst snd].
    unfold fd_of. cbn [fst m_socket]. repeat split; auto; lia.
Qed.

Lemma write_spec data st : exists st' rt,
  write data st = (st', Ret rt) /\ rt <= zlen data /\ - 1 <= rt < 2 ^ 31
  /\ st'.1 = st.1 /\ k_out (fd_of st) st'.2 = k_out (fd_of st) st.2 ++ take (Z.to_nat rt) data
  /\ k_in (fd_of st) st'.2 = k_in (fd_of st) st.2.
Proof.
  unfold write. pose proof (zlen_nonneg data).
  destruct (connected_cases st) as [E|(s & Es & Ec & E)]; rewrite (cbind_ret _ _ _ _ _ E); cbn [negb].
  - exists st, (-1). split; [reflexivity|]. repeat split; try lia. symmetry. apply (right_id_L [] (++)).
  - destruct st as [[sk o] w]. cbn [fst snd m_socket fd_of] in *. subst sk.
    unfold through. cbn [fst snd m_socket m_owner]. unfold send, Socket.isConnected.
    rewrite !bind_get. cbv beta. cbn [fst]. rewrite Ec.
    destruct (k_send (m_sock s) data w) as [w' rt] eqn:Ek.
    rewrite bind_get. cbn [fst]. rewrite (bind_sys _ _ _ _ _ _ Ek).
    destruct (send_bytes _ _ _ _ _ Ek) as (H1 & H2 & H3). unfold MAX_RW_COUNT in H1.
    rewrite i32_id by lia. unfold cret. eexists _, rt. split; [reflexivity|]. cbn [fst snd].
    unfold fd_of. cbn [fst m_socket]. repeat split; auto; lia.
Qed.

#[global] Instance socket_stream_laws : ByteStream socket_stream.
Proof.
  refine {| incoming := fun st => k_in (fd_of st) st.2; outgoing := fun st => k_out (fd_of st) st.2 |}.
  - intros len st Hl. destruct (read_spec len st Hl) as (st' & rt & d & R & H1 & H2 & H3 & H4 & H5 & H6).
    exists st', rt, d. assert (Ef : fd_of st' = fd_of st) by (unfold fd_of; rewrite H4; reflexivity).
    rewrite Ef. repeat split; auto; lia.
  - intros data st _. destruct (write_spec data st) as (st' & rt & R & H1 & H2 & H3 & H4 & H5).
    exists st', rt. assert (Ef : fd_of st' = fd_of st) by (unfold fd_of; rewrite H3; reflexivity).
    rewrite Ef. repeat split; auto; lia.
Defined.
End socket_stream.
Arguments SocketStream _ : clear implicits.
Arguments SS : clear implicits.
