(* ===== verification/StreamByteArray.v ===== *)
(** * Streams and ByteArrays (stream.cpp, socket_stream.cpp)

    [SocketStream::read] and [write] on a ByteArray, and the loops of
    [Stream::readFixSize] and [writeFixSize] over them.  The socket sees the
    buffer vectors of ByteArrayView.v: receiving scatters into them, sending
    gathers from them.  [write] takes its vector from [getWriteBuffers], as
    [read] does. *)

From Stdlib Require Import ZArith Lia.
From stdpp Require Import base list gmap sets.
From S2P Require Import Prelude FdManager Socket SocketSpec Stream SocketStream ByteArray ByteArrayView.

Local Open Scope Z_scope.
Local Open Scope cpp_scope.

Section bytearray_stream.
Context {A : Type} {K : Kernel Z A}.
(** The bytes of fresh memory. *)
Variable junk : nat -> nat -> Z.

Definition SB : Type := SS Z A K * ByteArray.

Definition on_ss {X} (m : M (SS Z A K) X) : M SB X := fun st =>
  let '(s', o) := m st.1 in ((s', st.2), o).
Definition on_ba {X} (m : M ByteArray X) : M SB X := fun st =>
  let '(b', o) := m st.2 in ((st.1, b'), o).

(** [if (rt > 0) ba->setPosition(ba->getPosition() + rt); return rt;] *)
Definition advance (rt : Z) : M SB Z :=
  (if 0 <? rt then let! p := on_ba (cget getPosition) in on_ba (setPosition (u64 (p + rt)))
   else cret tt) ;;;
  cret rt.

Definition read_ba (length : Z) : M SB Z :=
  let! c := on_ss isConnected in
  if negb c then cret (-1) else
  let! v := on_ba (getWriteBuffers junk length) in
  let! r := on_ss (through (recv (foldr Z.add 0 (map iov_len v.1)))) in
  on_ba (cmod (fun s => set_nodes (scatter v.1 r.2 (m_nodes s)) s)) ;;;
  advance r.1.

Definition write_ba (length : Z) : M SB Z :=
  let! c := on_ss isConnected in
  if negb c then cret (-1) else
  let! v := on_ba (getWriteBuffers junk length) in
  let! d := on_ba (cget (fun s => concat (map (iov_data s) v.1))) in
  let! rt := on_ss (through (send d)) in
  advance rt.

(** The loop of both fixed-size calls: [None] when it runs to its end. *)
Fixpoint ba_loop (step : Z -> M SB Z) (fuel : nat) (left_ : Z) : M SB (option Z) :=
  match fuel with
  | O => cundef FuelExhausted
  | S fuel' =>
      if left_ <=? 0 then cret None else
      let! len := step left_ in
      if len <=? 0 then cret (Some len) else ba_loop step fuel' (i64 (left_ - len))
  end.

Definition fix_size_ba (step : Z -> M SB Z) (length : Z) : M SB Z :=
  let! r := ba_loop step (S (Z.to_nat length)) (i64 length) in
  cret (i32 (match r with Some len => len | None => length end)).

Definition readFixSize_ba (length : Z) : M SB Z := fix_size_ba read_ba length.
Definition writeFixSize_ba (length : Z) : M SB Z := fix_size_ba write_ba length.

(** ** Receiving *)

Context {L : KernelLaws K}.

Lemma scatter_nil iovs (l : list Node) : scatter iovs [] l = l.
Proof.
  revert l. induction iovs as [|v iovs IH]; intros l; [reflexivity|]. simpl.
  rewrite take_nil, drop_nil, IH. apply list_eq. intros i.
  destruct (decide (iov_node v = i)) as [->|Hne].
  - rewrite list_lookup_alter_eq. destruct (l !! i) as [[p n]|]; simpl; [rewrite overlay_nil|]; reflexivity.
  - apply list_lookup_alter_ne. exact Hne.
Qed.

Lemma buf_write_nil b : buf_write [] b = b.
Proof. destruct b. unfold buf_write. simpl. rewrite overlay_nil. f_equal. unfold zlen. simpl. lia. Qed.

Lemma buf_write_app d d' b :
  0 <= b_pos b <= zlen (b_data b) -> buf_write d' (buf_write d b) = buf_write (d ++ d') b.
Proof.
  intros H. unfold buf_write. simpl. rewrite overlay_overlay, zlen_app by assumption. f_equal. lia.
Qed.

Lemma on_ss_run {X} (m : M (SS Z A K) X) st s' x : m st.1 = (s', Ret x) -> on_ss m st = ((s', st.2), Ret x).
Proof. intros E. unfold on_ss. rewrite E. reflexivity. Qed.

Lemma on_ba_run {X} (m : M ByteArray X) st b' x : m st.2 = (b', Ret x) -> on_ba m st = ((st.1, b'), Ret x).
Proof. intros E. unfold on_ba. rewrite E. reflexivity. Qed.

(** A connected stream receives and sends through its socket. *)
Lemma through_recv len st :
  isConnected st = (st, Ret true) -> SocketStream.read len st = through (recv len) st.
Proof. intros E. unfold SocketStream.read. rewrite (cbind_ret _ _ _ _ _ E). reflexivity. Qed.

Lemma through_send d st :
  isConnected st = (st, Ret true) -> SocketStream.write d st = through (send d) st.
Proof. intros E. unfold SocketStream.write. rewrite (cbind_ret _ _ _ _ _ E). reflexivity. Qed.

Lemma advance_pos rt st : 0 < rt -> m_position st.2 + rt < 2 ^ 64 -> 0 <= m_position st.2 ->
  forall b', setPosition (m_position st.2 + rt) st.2 = (b', Ret tt) -> advance rt st = ((st.1, b'), Ret rt).
Proof.
  intros H1 H2 H3 b' E. unfold advance. rewrite (proj2 (Z.ltb_lt 0 rt) H1).
  assert (Eb : (let! p := on_ba (cget getPosition) in on_ba (setPosition (u64 (p + rt)))) st
    = ((st.1, b'), Ret tt)).
  { rewrite (cbind_ret _ _ st st (m_position st.2)) by (destruct st; reflexivity).
    rewrite u64_small by lia. apply on_ba_run. exact E. }
  rewrite (cbind_ret _ _ _ _ _ Eb). reflexivity.
Qed.

Lemma advance_zero rt st : rt <= 0 -> advance rt st = (st, Ret rt).
Proof. intros H. unfold advance. rewrite (proj2 (Z.ltb_ge 0 rt) H). reflexivity. Qed.

Lemma read_ba_ok len st :
  WF st.2 -> 0 < len -> m_position st.2 + len + m_baseSize st.2 <= LIMIT ->
  exists st' rt d, read_ba len st = (st', Ret rt)
    /\ rt <= len /\ -1 <= rt < 2 ^ 31 /\ zlen d = Z.max 0 rt
    /\ WF st'.2 /\ abs st'.2 = buf_write d (abs st.2) /\ m_baseSize st'.2 = m_baseSize st.2
    /\ st'.1.1 = st.1.1 /\ k_in (fd_of st.1) st.1.2 = d ++ k_in (fd_of st.1) st'.1.2.
Proof.
  intros W Hl Hlim. destruct st as [ss b]. cbn [fst snd] in *. unfold read_ba.
  destruct (connected_cases ss) as [E|(s & Es & Ec & E)].
  - rewrite (cbind_ret _ _ _ _ _ (on_ss_run _ (ss, b) _ _ E)). cbn [negb].
    exists (ss, b), (-1), []. rewrite buf_write_nil.
    split; [reflexivity|]. do 2 (split; [lia|]). split; [reflexivity|]. auto 10.
  - rewrite (cbind_ret _ _ _ _ _ (on_ss_run _ (ss, b) _ _ E)). cbn [negb].
    destruct (getWriteBuffers_ok junk len b W Hl Hlim) as (b1 & l & Hrun & W1 & Hcov & Ha & Hb & Hc).
    assert (Hp : m_position b1 = m_position b) by (unfold abs in Ha; congruence).
    rewrite (cbind_ret _ _ _ _ _ (on_ba_run _ (ss, b) _ _ Hrun)). cbn [fst snd].
    rewrite <- (covers_total _ _ _ _ Hcov).
    destruct (read_spec len ss Hl) as (ss' & rt & d & R & H1 & H2 & H3 & H4 & H5 & H6).
    rewrite (through_recv _ _ E) in R.
    rewrite (cbind_ret _ _ _ _ _ (on_ss_run _ (ss, b1) _ _ R)). cbn [fst snd].
    set (b2 := set_nodes (scatter l d (m_nodes b1)) b1).
    rewrite (cbind_ret _ _ (ss', b1) (ss', b2) tt) by reflexivity.
    destruct (Z.le_gt_cases rt 0) as [Hr|Hr].
    + rewrite (advance_zero _ _ Hr). exists (ss', b2), rt, d.
      assert (d = []) as -> by (destruct d; [reflexivity|rewrite zlen_cons in H3; pose proof (zlen_nonneg d); lia]).
      assert (b2 = b1) as -> by (unfold b2; rewrite scatter_nil; destruct b1; reflexivity).
      rewrite buf_write_nil. cbn [fst snd].
      split; [reflexivity|]. do 3 (split; [lia|]). auto 10.
    + destruct (scatter_write_ok b1 l len d W1 Hcov) as (b3 & Hset & W3 & Ha3 & Hb3); try lia.
      pose proof (wf_pos b W). pose proof (wf_base b W). unfold LIMIT in Hlim.
      exists (ss', b3), rt, d. split.
      * apply (advance_pos rt (ss', b2)); cbn [snd]; change (m_position b2) with (m_position b1); try lia.
        assert (rt = zlen d) as -> by lia. exact Hset.
      * cbn [fst snd]. rewrite Ha3, Ha, Hb3. do 3 (split; [lia|]). auto 10.
Qed.

(** ** Sending *)

(** The unread bytes, [n] of them consumed. *)
Definition buf_skip (n : Z) (b : Buf) : Buf := mkBuf (b_data b) (b_pos b + n) (b_order b).

Lemma buf_skip_0 b : buf_skip 0 b = b.
Proof. destruct b. unfold buf_skip. simpl. rewrite Z.add_0_r. reflexivity. Qed.

Lemma setPosition_skip b rt :
  WF b -> 0 <= rt -> m_position b + rt <= m_size b ->
  exists b', setPosition (m_position b + rt) b = (b', Ret tt) /\ WF b'
    /\ abs b' = buf_skip rt (abs b) /\ m_baseSize b' = m_baseSize b.
Proof.
  intros W Hr Hs. pose proof (wf_pos b W). pose proof (wf_size b W).
  destruct (setPosition_ok (m_position b + rt) b W ltac:(lia)) as (b' & R & W' & Hp & Hz & Hf & He & Hb & _).
  exists b'. split; [exact R|]. split; [exact W'|]. split; [|exact Hb].
  unfold abs, buf_skip, contents. simpl. rewrite Hp, Hz, Hf, He, Z.max_l by lia. reflexivity.
Qed.

Lemma write_ba_ok len st :
  WF st.2 -> 0 < len -> len <= m_size st.2 - m_position st.2 ->
  m_position st.2 + len + m_baseSize st.2 <= LIMIT ->
  exists st' rt, write_ba len st = (st', Ret rt)
    /\ rt <= len /\ -1 <= rt < 2 ^ 31
    /\ WF st'.2 /\ abs st'.2 = buf_skip (Z.max 0 rt) (abs st.2) /\ m_baseSize st'.2 = m_baseSize st.2
    /\ st'.1.1 = st.1.1
    /\ k_out (fd_of st.1) st'.1.2
       = k_out (fd_of st.1) st.1.2 ++ slice (m_position st.2) (Z.max 0 rt) (contents st.2).
Proof.
  intros W Hl Hle Hlim. destruct st as [ss b]. cbn [fst snd] in *. unfold write_ba.
  destruct (connected_cases ss) as [E|(s & Es & Ec & E)];
    rewrite (cbind_ret _ _ _ _ _ (on_ss_run _ (ss, b) _ _ E)); cbn [negb].
  - exists (ss, b), (-1). split; [reflexivity|]. do 2 (split; [lia|]). split; [exact W|].
    split; [symmetry; apply buf_skip_0|].
    split; [reflexivity|]. split; [reflexivity|]. symmetry. apply (right_id_L [] (++)).
  - destruct (getWriteBuffers_ok junk len b W Hl Hlim) as (b1 & l & Hrun & W1 & Hcov & Ha & Hb & Hc).
    assert (Hp : m_position b1 = m_position b) by (unfold abs in Ha; congruence).
    assert (Hct : contents b1 = contents b) by (unfold abs in Ha; congruence).
    assert (Hsz : m_size b1 = m_size b)
      by (rewrite <- (zlen_contents b1 W1), Hct; apply zlen_contents, W).
    rewrite (cbind_ret _ _ _ _ _ (on_ba_run _ (ss, b) _ _ Hrun)). cbn [fst snd].
    rewrite (cbind_ret _ _ (ss, b1) (ss, b1) (slice (m_position b1) len (flat b1)))
      by (unfold on_ba, cget; cbn [snd fst]; rewrite (covers_data b1 W1 _ _ _ Hcov); reflexivity).
    destruct (write_spec (slice (m_position b1) len (flat b1)) ss) as (ss' & rt & R & H1 & H2 & H3 & H4 & H5).
    rewrite (through_send _ _ E) in R.
    rewrite (cbind_ret _ _ _ _ _ (on_ss_run _ (ss, b1) _ _ R)). cbn [fst snd].
    pose proof (wf_pos b1 W1). pose proof (wf_size b1 W1). pose proof (wf_base b W).
    assert (Hfl : zlen (flat b1) = m_capacity b1) by (apply zlen_flat_wf; assumption).
    rewrite zlen_slice in H1 by lia.
    assert (Hsl : take (Z.to_nat rt) (slice (m_position b1) len (flat b1))
      = slice (m_position b) (Z.max 0 rt) (contents b)).
    { rewrite <- Hct, <- Hp. unfold contents. rewrite slice_prefix by lia. unfold slice.
      rewrite take_take. f_equal. lia. }
    rewrite Hsl in H4. destruct (Z.le_gt_cases rt 0) as [Hr|Hr].
    + rewrite (advance_zero _ _ Hr). exists (ss', b1), rt. cbn [fst snd].
      rewrite Z.max_l in * by lia. split; [reflexivity|]. do 2 (split; [lia|]). split; [exact W1|].
      split; [rewrite Ha, buf_skip_0; reflexivity|]. auto.
    + destruct (setPosition_skip b1 rt W1) as (b3 & Hset & W3 & Ha3 & Hb3); try lia.
      exists (ss', b3), rt. cbn [fst snd]. unfold LIMIT in Hlim. split.
      * apply (advance_pos rt (ss', b1)); cbn [snd]; try lia. exact Hset.
      * rewrite Ha3, Ha, Hb3, Z.max_r by lia. rewrite Z.max_r in H4 by lia. do 2 (split; [lia|]). auto.
Qed.

(** ** The loops *)

Lemma read_ba_loop_ok fuel left_ st :
  WF st.2 -> 0 <= left_ -> m_position st.2 + left_ + m_baseSize st.2 <= LIMIT ->
  (Z.to_nat left_ < fuel)%nat ->
  exists st' r d, ba_loop read_ba fuel left_ st = (st', Ret r)
    /\ WF st'.2 /\ abs st'.2 = buf_write d (abs st.2)
    /\ k_in (fd_of st.1) st.1.2 = d ++ k_in (fd_of st.1) st'.1.2
    /\ match r with None => zlen d = left_ | Some len => -1 <= len <= 0 /\ zlen d < left_ end.
Proof.
  revert left_ st. induction fuel as [|fuel IH]; intros left_ st W Hl Hlim Hf; [lia|].
  cbn [ba_loop]. destruct (Z.leb_spec left_ 0).
  { exists st, None, []. rewrite buf_write_nil. split; [reflexivity|]. split; [exact W|].
    split; [reflexivity|]. split; [reflexivity|]. unfold zlen. simpl. lia. }
  destruct (read_ba_ok left_ st W ltac:(lia) Hlim) as (s1 & rt & d1 & R & H1 & H2 & H3 & W1 & H4 & H5 & H6 & H7).
  rewrite (cbind_ret _ _ _ _ _ R). destruct (Z.leb_spec rt 0).
  { exists s1, (Some rt), d1. split; [reflexivity|]. split; [exact W1|]. split; [exact H4|]. split; [exact H7|]. lia. }
  pose proof (wf_pos st.2 W). pose proof (wf_base st.2 W). unfold LIMIT in Hlim. rewrite i64_small by lia.
  assert (Hp : m_position s1.2 = m_position st.2 + rt)
    by (apply (f_equal b_pos) in H4; simpl in H4; lia).
  destruct (IH (left_ - rt) s1 W1) as (st' & r & d & R' & W' & E1 & E2 & E3); [lia|unfold LIMIT; lia|lia|].
  exists st', r, (d1 ++ d). rewrite R', E1, H4. split; [reflexivity|]. split; [exact W'|].
  assert (Ef : fd_of s1.1 = fd_of st.1) by (unfold fd_of; rewrite H6; reflexivity).
  split; [apply buf_write_app; simpl; rewrite (zlen_contents st.2 W); lia|].
  split; [rewrite H7, <- Ef, E2, (assoc_L (++)); reflexivity|]. rewrite zlen_app. destruct r; lia.
Qed.

Lemma write_ba_loop_ok fuel left_ st :
  WF st.2 -> 0 <= left_ -> left_ <= m_size st.2 - m_position st.2 ->
  m_position st.2 + left_ + m_baseSize st.2 <= LIMIT -> (Z.to_nat left_ < fuel)%nat ->
  exists st' r n, ba_loop write_ba fuel left_ st = (st', Ret r)
    /\ WF st'.2 /\ abs st'.2 = buf_skip n (abs st.2) /\ 0 <= n
    /\ k_out (fd_of st.1) st'.1.2 = k_out (fd_of st.1) st.1.2 ++ slice (m_position st.2) n (contents st.2)
    /\ match r with None => n = left_ | Some len => -1 <= len <= 0 /\ n < left_ end.
Proof.
  revert left_ st. induction fuel as [|fuel IH]; intros left_ st W Hl Hle Hlim Hf; [lia|].
  cbn [ba_loop]. destruct (Z.leb_spec left_ 0).
  { exists st, None, 0. split; [reflexivity|]. split; [exact W|].
    split; [symmetry; apply buf_skip_0|]. split; [lia|].
    split; [symmetry; apply (right_id_L [] (++))|lia]. }
  destruct (write_ba_ok left_ st W ltac:(lia) Hle Hlim) as (s1 & rt & R & H1 & H2 & W1 & H4 & H5 & H6 & H7).
  rewrite (cbind_ret _ _ _ _ _ R). destruct (Z.leb_spec rt 0).
  { exists s1, (Some rt), (Z.max 0 rt). split; [reflexivity|]. split; [exact W1|]. split; [exact H4|].
    split; [lia|]. split; [exact H7|]. lia. }
  pose proof (wf_pos st.2 W). pose proof (wf_base st.2 W). unfold LIMIT in Hlim. rewrite i64_small by lia.
  rewrite Z.max_r in H4, H7 by lia.
  assert (Hp : m_position s1.2 = m_position st.2 + rt) by (apply (f_equal b_pos) in H4; exact H4).
  assert (Hct : contents s1.2 = contents st.2) by (apply (f_equal b_data) in H4; exact H4).
  assert (Hsz : m_size s1.2 = m_size st.2)
    by (rewrite <- (zlen_contents s1.2 W1), Hct; apply zlen_contents, W).
  destruct (IH (left_ - rt) s1 W1) as (st' & r & n & R' & W' & E1 & E2 & E3 & E4); [lia|lia|unfold LIMIT; lia|lia|].
  assert (Ef : fd_of s1.1 = fd_of st.1) by (unfold fd_of; rewrite H6; reflexivity).
  exists st', r, (rt + n). rewrite R', E1, H4. split; [reflexivity|]. split; [exact W'|].
  split; [unfold buf_skip; simpl; f_equal; lia|]. split; [lia|].
  split; [|destruct r; lia].
  rewrite <- Ef, E3, Ef, H7, Hp, Hct, slice_app by lia. apply symmetry, (assoc_L (++)).
Qed.
End bytearray_stream.

(** A ByteArray filled and sent through a socket stream.  Receiving a
    fixed length writes the next bytes of the connection into the ByteArray at
    its position, in order, all of them or as many as arrived before the call
    that failed; sending a fixed length that is not more than what is unread
    sends the unread bytes from the position on and moves the position behind
    what was sent.  Both loops end. *)
Theorem bytearray_transfer {A} (K : Kernel Z A) (L : KernelLaws K) junk length (st : SB) :
  WF st.2 -> 0 <= length < 2 ^ 31 -> m_position st.2 + length + m_baseSize st.2 <= LIMIT ->
  (exists st' rt d, readFixSize_ba (K := K) junk length st = (st', Ret rt)
     /\ WF st'.2 /\ abs st'.2 = buf_write d (abs st.2)
     /\ k_in (fd_of st.1) st.1.2 = d ++ k_in (fd_of st.1) st'.1.2
     /\ ((rt = length /\ zlen d = length) \/ (rt <= 0 /\ zlen d < length)))
  /\ (length <= m_size st.2 - m_position st.2 ->
      exists st' rt n, writeFixSize_ba (K := K) junk length st = (st', Ret rt)
     /\ WF st'.2 /\ abs st'.2 = buf_skip n (abs st.2)
     /\ k_out (fd_of st.1) st'.1.2 = k_out (fd_of st.1) st.1.2 ++ slice (m_position st.2) n (contents st.2)
     /\ ((rt = length /\ n = length) \/ (rt <= 0 /\ 0 <= n < length))).
Proof.
  intros W Hl Hlim. split.
  - destruct (read_ba_loop_ok junk (S (Z.to_nat length)) length st W) as (st' & r & d & R & W' & E1 & E2 & E3); try lia.
    exists st', (match r with Some len => len | None => length end), d.
    unfold readFixSize_ba, fix_size_ba. rewrite i64_small by lia. rewrite (cbind_ret _ _ _ _ _ R).
    rewrite i32_id by (destruct r; lia). split; [reflexivity|]. split; [exact W'|]. split; [exact E1|].
    split; [exact E2|]. destruct r; lia.
  - intros Hle.
    destruct (write_ba_loop_ok junk (S (Z.to_nat length)) length st W) as (st' & r & n & R & W' & E1 & E2 & E3 & E4); try lia.
    exists st', (match r with Some len => len | None => length end), n.
    unfold writeFixSize_ba, fix_size_ba. rewrite i64_small by lia. rewrite (cbind_ret _ _ _ _ _ R).
    rewrite i32_id by (destruct r; lia). split; [reflexivity|]. split; [exact W'|]. split; [exact E1|].
    split; [exact E3|]. destruct r; lia.
Qed.

Definition idle_stream : SS Z Z small_kernel := (mkStream (Some (set_sock 0 (Socket_new 2 1 0))) true, ({[0%nat]} : gset nat)).

Lemma bytearray_transfer_witness :
  exists (st' : SB (K := small_kernel)) rt d,
    readFixSize_ba (fun _ _ => 0) 3 (idle_stream, view_buffer) = (st', Ret rt)
    /\ abs st'.2 = buf_write d (abs view_buffer).
Proof.
  destruct (bytearray_transfer small_kernel _ (fun _ _ => 0) 3 (idle_stream, view_buffer))
    as [(st' & rt & d & R & _ & E & _) _]; [wf_closed|lia|vm_compute; congruence|].
  exists st', rt, d. split; [exact R|exact E].
Defined.
