(* ===== verification/Http.v ===== *)
(** * HTTP vocabulary: methods, statuses and the case-insensitive maps

    http.h and the first part of http.cpp.  The tables are the arguments of the
    XX macros as the preprocessor makes strings of them ([#string] keeps the
    blanks around a [-]).  An [HttpStatus] is its code, because the response
    parser casts any integer to it; an [HttpMethod] is always one of the
    enumerators.  [MapType] is [std::map<std::string, std::string,
    CaseInsensitiveLess>] (Ordered.v). *)

From Stdlib Require Import ZArith Lia Ascii String List.
From stdpp Require Import base list strings gmap sets.
From S2P Require Import Prelude Ordered CString.

Local Open Scope string_scope.
Local Open Scope Z_scope.

Module HttpMethod.
Inductive t : Type :=
  | DELETE | GET | HEAD | POST | PUT | CONNECT | OPTIONS | TRACE | COPY | LOCK | MKCOL | MOVE
  | PROPFIND | PROPPATCH | SEARCH | UNLOCK | BIND | REBIND | UNBIND | ACL | REPORT | MKACTIVITY
  | CHECKOUT | MERGE | MSEARCH | NOTIFY | SUBSCRIBE | UNSUBSCRIBE | PATCH | PURGE | MKCALENDAR
  | LINK | UNLINK | SOURCE | INVALID_METHOD.

#[global] Instance t_eq_dec : EqDecision t.
Proof. solve_decision. Defined.
End HttpMethod.

Definition method_num (m : HttpMethod.t) : Z :=
  match m with
  | HttpMethod.DELETE => 0 | HttpMethod.GET => 1 | HttpMethod.HEAD => 2 | HttpMethod.POST => 3
  | HttpMethod.PUT => 4 | HttpMethod.CONNECT => 5 | HttpMethod.OPTIONS => 6
  | HttpMethod.TRACE => 7 | HttpMethod.COPY => 8 | HttpMethod.LOCK => 9
  | HttpMethod.MKCOL => 10 | HttpMethod.MOVE => 11 | HttpMethod.PROPFIND => 12
  | HttpMethod.PROPPATCH => 13 | HttpMethod.SEARCH => 14 | HttpMethod.UNLOCK => 15
  | HttpMethod.BIND => 16 | HttpMethod.REBIND => 17 | HttpMethod.UNBIND => 18
  | HttpMethod.ACL => 19 | HttpMethod.REPORT => 20 | HttpMethod.MKACTIVITY => 21
  | HttpMethod.CHECKOUT => 22 | HttpMethod.MERGE => 23 | HttpMethod.MSEARCH => 24
  | HttpMethod.NOTIFY => 25 | HttpMethod.SUBSCRIBE => 26 | HttpMethod.UNSUBSCRIBE => 27
  | HttpMethod.PATCH => 28 | HttpMethod.PURGE => 29 | HttpMethod.MKCALENDAR => 30
  | HttpMethod.LINK => 31 | HttpMethod.UNLINK => 32 | HttpMethod.SOURCE => 33
  | HttpMethod.INVALID_METHOD => 34
  end.

Definition HTTP_METHOD_MAP : list (HttpMethod.t * string) :=
  [(HttpMethod.DELETE, "DELETE"); (HttpMethod.GET, "GET"); (HttpMethod.HEAD, "HEAD");
   (HttpMethod.POST, "POST"); (HttpMethod.PUT, "PUT"); (HttpMethod.CONNECT, "CONNECT");
   (HttpMethod.OPTIONS, "OPTIONS"); (HttpMethod.TRACE, "TRACE"); (HttpMethod.COPY, "COPY");
   (HttpMethod.LOCK, "LOCK"); (HttpMethod.MKCOL, "MKCOL"); (HttpMethod.MOVE, "MOVE");
   (HttpMethod.PROPFIND, "PROPFIND"); (HttpMethod.PROPPATCH, "PROPPATCH");
   (HttpMethod.SEARCH, "SEARCH"); (HttpMethod.UNLOCK, "UNLOCK"); (HttpMethod.BIND, "BIND");
   (HttpMethod.REBIND, "REBIND"); (HttpMethod.UNBIND, "UNBIND"); (HttpMethod.ACL, "ACL");
   (HttpMethod.REPORT, "REPORT"); (HttpMethod.MKACTIVITY, "MKACTIVITY");
   (HttpMethod.CHECKOUT, "CHECKOUT"); (HttpMethod.MERGE, "MERGE");
   (HttpMethod.MSEARCH, "M - SEARCH"); (HttpMethod.NOTIFY, "NOTIFY");
   (HttpMethod.SUBSCRIBE, "SUBSCRIBE"); (HttpMethod.UNSUBSCRIBE, "UNSUBSCRIBE");
   (HttpMethod.PATCH, "PATCH"); (HttpMethod.PURGE, "PURGE");
   (HttpMethod.MKCALENDAR, "MKCALENDAR"); (HttpMethod.LINK, "LINK");
   (HttpMethod.UNLINK, "UNLINK"); (HttpMethod.SOURCE, "SOURCE")].

Definition HTTP_STATUS_MAP : list (Z * string) :=
  [(100, "Continue"); (101, "Switching Protocols"); (102, "Processing"); (200, "OK");
   (201, "Created"); (202, "Accepted"); (203, "Non - Authoritative Information");
   (204, "No Content"); (205, "Reset Content"); (206, "Partial Content");
   (207, "Multi - Status"); (208, "Already Reported"); (226, "IM Used");
   (300, "Multiple Choices"); (301, "Moved Permanently"); (302, "Found"); (303, "See Other");
   (304, "Not Modified"); (305, "Use Proxy"); (307, "Temporary Redirect");
   (308, "Permanent Redirect"); (400, "Bad Request"); (401, "Unauthorized");
   (402, "Payment Required"); (403, "Forbidden"); (404, "Not Found");
   (405, "Method Not Allowed"); (406, "Not Acceptable");
   (407, "Proxy Authentication Required"); (408, "Request Timeout"); (409, "Conflict");
   (410, "Gone"); (411, "Length Required"); (412, "Precondition Failed");
   (413, "Payload Too Large"); (414, "URI Too Long"); (415, "Unsupported Media Type");
   (416, "Range Not Satisfiable"); (417, "Expectation Failed"); (421, "Misdirected Request");
   (422, "Unprocessable Entity"); (423, "Locked"); (424, "Failed Dependency");
   (426, "Upgrade Required"); (428, "Precondition Required"); (429, "Too Many Requests");
   (431, "Request Header Fields Too Large"); (451, "Unavailable For Legal Reasons");
   (500, "Internal Server Error"); (501, "Not Implemented"); (502, "Bad Gateway");
   (503, "Service Unavailable"); (504, "Gateway Timeout"); (505, "HTTP Version Not Supported");
   (506, "Variant Also Negotiates"); (507, "Insufficient Storage"); (508, "Loop Detected");
   (510, "Not Extended"); (511, "Network Authentication Required")].

(** ** Conversions *)

(** The chain of [if (strcmp(...) == 0) return ...]. *)
Fixpoint string_to_method (tbl : list (HttpMethod.t * string)) (m : string) : HttpMethod.t :=
  match tbl with
  | [] => HttpMethod.INVALID_METHOD
  | (name, str) :: r => if strcmp_eq str m then name else string_to_method r m
  end.

Definition StringToHttpMethod (m : string) : HttpMethod.t := string_to_method HTTP_METHOD_MAP m.

Fixpoint chars_to_method (tbl : list (HttpMethod.t * string)) (m : list ascii)
  : outcome HttpMethod.t :=
  match tbl with
  | [] => Ret HttpMethod.INVALID_METHOD
  | (name, str) :: r =>
      obind (strncmp (String.length str) (c_mem str) m)
        (fun d => if d =? 0 then Ret name else chars_to_method r m)
  end.

(** [m] is the memory from the pointer on. *)
Definition CharsToHttpMethod (m : list ascii) : outcome HttpMethod.t :=
  chars_to_method HTTP_METHOD_MAP m.

Definition s_method_string : list string := HTTP_METHOD_MAP.*2.

Definition HttpMethodToString (m : HttpMethod.t) : outcome string :=
  let idx := u32 (method_num m) in
  if Z.of_nat (length s_method_string) <? idx then Ret "<unknown>"
  else match s_method_string !! Z.to_nat idx with
       | Some s => Ret s
       | None => Undef OutOfBounds
       end.

Fixpoint status_string (tbl : list (Z * string)) (s : Z) : string :=
  match tbl with
  | [] => "<unknown>"
  | (code, msg) :: r => if s =? code then msg else status_string r s
  end.

Definition HttpStatusToString (s : Z) : string := status_string HTTP_STATUS_MAP s.

(** ** The maps of headers, parameters and cookies *)

Definition CaseInsensitiveLess (lhs rhs : string) : bool := strcasecmp lhs rhs <? 0.

Definition MapType : Type := list (string * string).

Definition find (m : MapType) (key : string) : option string := map_get CaseInsensitiveLess key m.
Definition assign (m : MapType) (key val : string) : MapType := map_set CaseInsensitiveLess key val m.
Definition erase (m : MapType) (key : string) : MapType := map_erase CaseInsensitiveLess key m.

(** [boost::lexical_cast<T>], [None] for the exception. *)
Class LexicalCast (T : Type) : Type := lexical_cast : string -> option T.

(** The value of the out parameter [val] and the result. *)
Definition checkGetAs {T} `{LexicalCast T} (m : MapType) (key : string) (def : T) : T * bool :=
  match find m key with
  | None => (def, false)
  | Some s => match lexical_cast s with Some v => (v, true) | None => (def, false) end
  end.

Definition getAs {T} `{LexicalCast T} (m : MapType) (key : string) (def : T) : T :=
  match find m key with
  | None => def
  | Some s => match lexical_cast s with Some v => v | None => def end
  end.

(** ** The comparator is a strict weak order *)

#[export] Instance CaseInsensitiveLess_strict : StrictWeak CaseInsensitiveLess.
Proof.
  split; unfold CaseInsensitiveLess, strcasecmp.
  - intros a. rewrite casecmp_refl. reflexivity.
  - intros a b c. rewrite !Z.ltb_lt. apply casecmp_trans; auto with sylar.
  - intros a b c. rewrite !Z.ltb_lt. intros H.
    destruct (casecmp_total (folded a) (folded c)) as [?|[E|?]]; auto with sylar.
    + right. rewrite <- E. exact H.
    + right. apply (casecmp_trans _ (folded a)); auto with sylar.
Qed.

(** Two spellings are one key exactly when they agree up to case. *)
Lemma same_key_folded a b : same_keyb CaseInsensitiveLess a b = bool_decide (folded a = folded b).
Proof.
  unfold same_keyb, CaseInsensitiveLess, strcasecmp. case_bool_decide as E.
  - rewrite E, casecmp_refl. reflexivity.
  - destruct (casecmp_total (folded a) (folded b)) as [H|[H|H]]; auto with sylar; [|congruence|].
    + rewrite (proj2 (Z.ltb_lt _ _) H). reflexivity.
    + rewrite (proj2 (Z.ltb_lt _ _) H), andb_false_r. reflexivity.
Qed.

(** ** The tables *)

(** The string of a method, as the table gives it. *)
Definition method_string (m : HttpMethod.t) : string :=
  nth (Z.to_nat (method_num m)) s_method_string "".

Lemma HttpMethodToString_valid m :
  m <> HttpMethod.INVALID_METHOD -> HttpMethodToString m = Ret (method_string m).
Proof. destruct m; try reflexivity. congruence. Qed.

Lemma StringToHttpMethod_method m :
  m <> HttpMethod.INVALID_METHOD -> StringToHttpMethod (method_string m) = m.
Proof. destruct m; try (intros _; vm_compute; reflexivity). Qed.

(** An entry of the chain is passed by when the memory differs from it early. *)
Lemma CharsToHttpMethod_method m rest :
  m <> HttpMethod.INVALID_METHOD ->
  CharsToHttpMethod (list_ascii_of_string (method_string m) ++ rest)%list = Ret m.
Proof. destruct m; try (intros _; reflexivity). congruence. Qed.

Lemma chars_to_method_prefix tbl mem m :
  Forall (fun e => NUL ∉ list_ascii_of_string e.2) tbl ->
  chars_to_method tbl mem = Ret m -> m <> HttpMethod.INVALID_METHOD ->
  exists str rest, (m, str) ∈ tbl /\ mem = (list_ascii_of_string str ++ rest)%list.
Proof.
  intros Ht. induction Ht as [|[name str] tbl Hs Ht IH]; simpl; intros H Hm; [congruence|].
  destruct (strncmp (String.length str) (c_mem str) mem) as [d| |] eqn:E; try discriminate.
  simpl in H. destruct (Z.eqb_spec d 0) as [->|Hd].
  - injection H as ->. destruct (strncmp_zero (list_ascii_of_string str) mem [NUL] (String.length str)) as [r Hr].
    + exact Hs.
    + clear. induction str; simpl; congruence.
    + exact E.
    + exists str, r. split; [set_solver|exact Hr].
  - destruct (IH H Hm) as (s & r & Hin & ->). exists s, r. split; [set_solver|reflexivity].
Qed.

Lemma method_table_clean : Forall (fun e => NUL ∉ list_ascii_of_string e.2) HTTP_METHOD_MAP.
Proof. apply (bool_decide_unpack _). vm_compute. exact I. Qed.

Lemma method_table_string m s : (m, s) ∈ HTTP_METHOD_MAP -> s = method_string m.
Proof.
  intros H.
  assert (Hall : Forall (fun e => e.2 = method_string e.1) HTTP_METHOD_MAP) by (repeat constructor).
  rewrite Forall_forall in Hall. apply (Hall _ H).
Qed.

(** [CharsToHttpMethod] decides by the first characters alone. *)
Lemma CharsToHttpMethod_prefix mem m :
  m <> HttpMethod.INVALID_METHOD -> CharsToHttpMethod mem = Ret m ->
  exists rest, mem = (list_ascii_of_string (method_string m) ++ rest)%list.
Proof.
  intros Hm H. destruct (chars_to_method_prefix _ _ _ method_table_clean H Hm) as (s & r & Hin & ->).
  exists r. rewrite <- (method_table_string _ _ Hin). reflexivity.
Qed.

(** ** The maps as finite maps on folded keys *)

Definition map_ok (m : MapType) : Prop := sorted (entry_lt CaseInsensitiveLess) m.

Definition map_rep (m : MapType) (g : gmap (list Z) string) : Prop :=
  map_ok m /\ forall key, find m key = g !! folded key.

Lemma map_rep_empty : map_rep [] ∅.
Proof. split; [constructor|]. intros key. rewrite lookup_empty. reflexivity. Qed.

Lemma map_rep_assign m g key val : map_rep m g -> map_rep (assign m key val) (<[folded key := val]> g).
Proof.
  intros [Hs Hf]. split; [apply map_set_sorted; [exact _|assumption]|]. intros k. unfold find, assign.
  rewrite map_get_set by (exact _ || assumption). rewrite same_key_folded.
  case_bool_decide as E.
  - rewrite E, lookup_insert_eq. reflexivity.
  - rewrite lookup_insert_ne by assumption. apply Hf.
Qed.

Lemma map_rep_erase m g key : map_rep m g -> map_rep (erase m key) (delete (folded key) g).
Proof.
  intros [Hs Hf]. split; [apply map_erase_sorted; assumption|]. intros k. unfold find, erase.
  rewrite map_get_erase by (exact _ || assumption). rewrite same_key_folded.
  case_bool_decide as E.
  - rewrite E, lookup_delete_eq. reflexivity.
  - rewrite lookup_delete_ne by assumption. apply Hf.
Qed.

#[export] Hint Resolve map_rep_empty map_rep_assign map_rep_erase : sylar.
