(* ===== verification/HttpResponse.v ===== *)
(** * HttpResponse: the response message (http.h, http.cpp)

    The object as a record; [dump] is what it writes to the stream. *)

From Stdlib Require Import ZArith Lia Ascii String List.
From stdpp Require Import base list strings.
From S2P Require Import Prelude Ordered CString Http.

Local Open Scope string_scope.
Local Open Scope Z_scope.

(** [m_status] is any integer: the parser casts what [atoi] returns. *)
Record HttpResponse : Type := mkResponse {
  m_status : Z;
  m_version : Z;
  m_close : bool;
  m_websocket : bool;
  m_body : string;
  m_reason : string;
  m_headers : MapType;
  m_cookies : list string
}.

Definition HttpResponse_new (version : Z) (close : bool) : HttpResponse :=
  mkResponse 200 version close false "" "" [] [].

Definition setStatus (v : Z) (r : HttpResponse) : HttpResponse :=
  mkResponse v (m_version r) (m_close r) (m_websocket r) (m_body r) (m_reason r) (m_headers r) (m_cookies r).
Definition setVersion (v : Z) (r : HttpResponse) : HttpResponse :=
  mkResponse (m_status r) v (m_close r) (m_websocket r) (m_body r) (m_reason r) (m_headers r) (m_cookies r).
Definition setClose (v : bool) (r : HttpResponse) : HttpResponse :=
  mkResponse (m_status r) (m_version r) v (m_websocket r) (m_body r) (m_reason r) (m_headers r) (m_cookies r).
Definition setWebsocket (v : bool) (r : HttpResponse) : HttpResponse :=
  mkResponse (m_status r) (m_version r) (m_close r) v (m_body r) (m_reason r) (m_headers r) (m_cookies r).
Definition setBody (v : string) (r : HttpResponse) : HttpResponse :=
  mkResponse (m_status r) (m_version r) (m_close r) (m_websocket r) v (m_reason r) (m_headers r) (m_cookies r).
Definition setReason (v : string) (r : HttpResponse) : HttpResponse :=
  mkResponse (m_status r) (m_version r) (m_close r) (m_websocket r) (m_body r) v (m_headers r) (m_cookies r).
Definition setHeaders (v : MapType) (r : HttpResponse) : HttpResponse :=
  mkResponse (m_status r) (m_version r) (m_close r) (m_websocket r) (m_body r) (m_reason r) v (m_cookies r).

Definition getHeader (r : HttpResponse) (key def : string) : string :=
  match find (m_headers r) key with None => def | Some v => v end.

Definition setHeader (key val : string) (r : HttpResponse) : HttpResponse :=
  setHeaders (assign (m_headers r) key val) r.

Definition delHeader (key : string) (r : HttpResponse) : HttpResponse :=
  setHeaders (erase (m_headers r) key) r.

Definition checkGetHeaderAs {T} `{LexicalCast T} (r : HttpResponse) (key : string) (def : T) : T * bool :=
  checkGetAs (m_headers r) key def.
Definition getHeaderAs {T} `{LexicalCast T} (r : HttpResponse) (key : string) (def : T) : T :=
  getAs (m_headers r) key def.

(** One round of the loop over the headers. *)
Definition dump_header (websocket : bool) (i : string * string) : string :=
  if negb websocket && (strcasecmp i.1 "connection" =? 0) then ""
  else i.1 ++ ": " ++ i.2 ++ CRLF.

Definition dump_cookie (i : string) : string := "Set-Cookie: " ++ i ++ CRLF.

Definition dump (r : HttpResponse) : string :=
  "HTTP/" ++ dec (Z.shiftr (m_version r) 4) ++ "," ++ dec (Z.land (m_version r) 15) ++ " "
  ++ dec (u32 (m_status r)) ++ " "
  ++ (if bool_decide (m_reason r = "") then HttpStatusToString (m_status r) else m_reason r) ++ CRLF
  ++ String.concat "" (map (dump_header (m_websocket r)) (m_headers r))
  ++ String.concat "" (map dump_cookie (m_cookies r))
  ++ (if m_websocket r then ""
      else "connection: " ++ (if m_close r then "close" else "keep-alive") ++ CRLF)
  ++ (if bool_decide (m_body r = "") then CRLF
      else "content-length: " ++ dec (slength (m_body r)) ++ CRLF ++ CRLF ++ m_body r).

Definition toString (r : HttpResponse) : string := dump r.

Definition setRedirect (uri : string) (r : HttpResponse) : HttpResponse :=
  setHeader "Location" uri (setStatus 302 r).
