(* ===== verification/HttpRequest.v ===== *)
(** * HttpRequest: the request message (http.h, http.cpp)

    The object as a record, its three maps with the four operations on each,
    [init] and [dump].  [dump] is undefined for the method [INVALID_METHOD],
    whose name [HttpMethodToString] reads from beyond its table. *)

From Stdlib Require Import ZArith Lia Ascii String List.
From stdpp Require Import base list strings gmap.
From S2P Require Import Prelude Ordered CString Http HttpResponse.

Local Open Scope string_scope.
Local Open Scope Z_scope.

Record HttpRequest : Type := mkRequest {
  m_method : HttpMethod.t;
  m_version : Z;
  m_close : bool;
  m_websocket : bool;
  m_path : string;
  m_query : string;
  m_fragment : string;
  m_body : string;
  m_headers : MapType;
  m_params : MapType;
  m_cookies : MapType
}.

Definition HttpRequest_new (version : Z) (close : bool) : HttpRequest :=
  mkRequest HttpMethod.GET version close false "/" "" "" "" [] [] [].

Definition createResponse (r : HttpRequest) : HttpResponse :=
  HttpResponse_new (m_version r) (m_close r).

Definition setMethod (v : HttpMethod.t) (r : HttpRequest) : HttpRequest :=
  mkRequest v (m_version r) (m_close r) (m_websocket r) (m_path r) (m_query r) (m_fragment r)
    (m_body r) (m_headers r) (m_params r) (m_cookies r).
Definition setVersion (v : Z) (r : HttpRequest) : HttpRequest :=
  mkRequest (m_method r) v (m_close r) (m_websocket r) (m_path r) (m_query r) (m_fragment r)
    (m_body r) (m_headers r) (m_params r) (m_cookies r).
Definition setClose (v : bool) (r : HttpRequest) : HttpRequest :=
  mkRequest (m_method r) (m_version r) v (m_websocket r) (m_path r) (m_query r) (m_fragment r)
    (m_body r) (m_headers r) (m_params r) (m_cookies r).
Definition setWebsocket (v : bool) (r : HttpRequest) : HttpRequest :=
  mkRequest (m_method r) (m_version r) (m_close r) v (m_path r) (m_query r) (m_fragment r)
    (m_body r) (m_headers r) (m_params r) (m_cookies r).
Definition setPath (v : string) (r : HttpRequest) : HttpRequest :=
  mkRequest (m_method r) (m_version r) (m_close r) (m_websocket r) v (m_query r) (m_fragment r)
    (m_body r) (m_headers r) (m_params r) (m_cookies r).
Definition setQuery (v : string) (r : HttpRequest) : HttpRequest :=
  mkRequest (m_method r) (m_version r) (m_close r) (m_websocket r) (m_path r) v (m_fragment r)
    (m_body r) (m_headers r) (m_params r) (m_cookies r).
Definition setFragment (v : string) (r : HttpRequest) : HttpRequest :=
  mkRequest (m_method r) (m_version r) (m_close r) (m_websocket r) (m_path r) (m_query r) v
    (m_body r) (m_headers r) (m_params r) (m_cookies r).
Definition setBody (v : string) (r : HttpRequest) : HttpRequest :=
  mkRequest (m_method r) (m_version r) (m_close r) (m_websocket r) (m_path r) (m_query r) (m_fragment r)
    v (m_headers r) (m_params r) (m_cookies r).
Definition setHeaders (v : MapType) (r : HttpRequest) : HttpRequest :=
  mkRequest (m_method r) (m_version r) (m_close r) (m_websocket r) (m_path r) (m_query r) (m_fragment r)
    (m_body r) v (m_params r) (m_cookies r).
Definition setParams (v : MapType) (r : HttpRequest) : HttpRequest :=
  mkRequest (m_method r) (m_version r) (m_close r) (m_websocket r) (m_path r) (m_query r) (m_fragment r)
    (m_body r) (m_headers r) v (m_cookies r).
Definition setCookies (v : MapType) (r : HttpRequest) : HttpRequest :=
  mkRequest (m_method r) (m_version r) (m_close r) (m_websocket r) (m_path r) (m_query r) (m_fragment r)
    (m_body r) (m_headers r) (m_params r) v.

Definition getHeader (r : HttpRequest) (key def : string) : string :=
  match find (m_headers r) key with None => def | Some v => v end.
Definition getParam (r : HttpRequest) (key def : string) : string :=
  match find (m_params r) key with None => def | Some v => v end.
Definition getCookie (r : HttpRequest) (key def : string) : string :=
  match find (m_cookies r) key with None => def | Some v => v end.

Definition setHeader (key val : string) (r : HttpRequest) : HttpRequest :=
  setHeaders (assign (m_headers r) key val) r.
Definition setParam (key val : string) (r : HttpRequest) : HttpRequest :=
  setParams (assign (m_params r) key val) r.
Definition setCookie (key val : string) (r : HttpRequest) : HttpRequest :=
  setCookies (assign (m_cookies r) key val) r.

Definition delHeader (key : string) (r : HttpRequest) : HttpRequest :=
  setHeaders (erase (m_headers r) key) r.
Definition delParam (key : string) (r : HttpRequest) : HttpRequest :=
  setParams (erase (m_params r) key) r.
Definition delCookie (key : string) (r : HttpRequest) : HttpRequest :=
  setCookies (erase (m_cookies r) key) r.

(** The result, and the new value of [*val] when the caller passes a pointer;
    [old] is the value it has. *)
Definition has (m : MapType) (key old : string) : bool * string :=
  match find m key with None => (false, old) | Some v => (true, v) end.
Definition hasHeader (r : HttpRequest) (key old : string) : bool * string := has (m_headers r) key old.
Definition hasParam (r : HttpRequest) (key old : string) : bool * string := has (m_params r) key old.
Definition hasCookie (r : HttpRequest) (key old : string) : bool * string := has (m_cookies r) key old.

Definition checkGetHeaderAs {T} `{LexicalCast T} (r : HttpRequest) (key : string) (def : T) : T * bool :=
  checkGetAs (m_headers r) key def.
Definition getHeaderAs {T} `{LexicalCast T} (r : HttpRequest) (key : string) (def : T) : T :=
  getAs (m_headers r) key def.
Definition checkGetParamAs {T} `{LexicalCast T} (r : HttpRequest) (key : string) (def : T) : T * bool :=
  checkGetAs (m_params r) key def.
Definition getParamAs {T} `{LexicalCast T} (r : HttpRequest) (key : string) (def : T) : T :=
  getAs (m_params r) key def.
Definition checkGetCookieAs {T} `{LexicalCast T} (r : HttpRequest) (key : string) (def : T) : T * bool :=
  checkGetAs (m_cookies r) key def.
Definition getCookieAs {T} `{LexicalCast T} (r : HttpRequest) (key : string) (def : T) : T :=
  getAs (m_cookies r) key def.

(** One round of the loop over the headers. *)
Definition dump_header (websocket : bool) (i : string * string) : string :=
  if negb websocket && (strcasecmp i.1 "connection" =? 0) then ""
  else i.1 ++ ":" ++ i.2 ++ CRLF.

Definition dump (r : HttpRequest) : outcome string :=
  obind (HttpMethodToString (m_method r)) (fun method =>
  Ret (method ++ " " ++ m_path r
    ++ (if bool_decide (m_query r = "") then "" else "?") ++ m_query r
    ++ (if bool_decide (m_fragment r = "") then "" else "#") ++ m_fragment r ++ " HTTP/"
    ++ dec (Z.shiftr (m_version r) 4) ++ "." ++ dec (Z.land (m_version r) 15) ++ CRLF
    ++ (if m_websocket r then ""
        else "connection: " ++ (if m_close r then "close" else "keep-alive") ++ CRLF)
    ++ String.concat "" (map (dump_header (m_websocket r)) (m_headers r))
    ++ (if bool_decide (m_body r = "") then CRLF
        else "content-length: " ++ dec (slength (m_body r)) ++ CRLF ++ CRLF ++ m_body r))).

Definition toString (r : HttpRequest) : outcome string := dump r.

Definition init (r : HttpRequest) : HttpRequest :=
  let conn := getHeader r "connection" "" in
  if bool_decide (conn = "") then r
  else if strcasecmp conn "keep-alive" =? 0 then setClose false r else setClose true r.
