(* ===== verification/HttpRequestSpec.v ===== *)
(** * Requests: the maps and the method names

    The headers, parameters and cookies of a request are three finite maps from
    names up to case to values, under any sequence of the twelve operations. *)

From Stdlib Require Import ZArith Lia Ascii String List.
From stdpp Require Import base list strings gmap sets.
From S2P Require Import Prelude Ordered CString Http HttpResponse HttpRequest.

Local Open Scope string_scope.
Local Open Scope Z_scope.

(** ** The operations as a type, on the object and on the specification *)

Inductive table : Type := Headers | Params | Cookies.

Inductive op : Type :=
  | Set_ (t : table) (key val : string)
  | Del (t : table) (key : string)
  | Get (t : table) (key def : string)
  | Has (t : table) (key old : string).

(** What a call returns: a string, or a bool and the out parameter. *)
Inductive answer : Type := Done | Text (s : string) | Found (b : bool) (s : string).

Definition call (o : op) (r : HttpRequest) : HttpRequest * answer :=
  match o with
  | Set_ Headers k v => (HttpRequest.setHeader k v r, Done)
  | Set_ Params k v => (setParam k v r, Done)
  | Set_ Cookies k v => (setCookie k v r, Done)
  | Del Headers k => (HttpRequest.delHeader k r, Done)
  | Del Params k => (delParam k r, Done)
  | Del Cookies k => (delCookie k r, Done)
  | Get Headers k d => (r, Text (HttpRequest.getHeader r k d))
  | Get Params k d => (r, Text (getParam r k d))
  | Get Cookies k d => (r, Text (getCookie r k d))
  | Has Headers k d => (r, let '(b, s) := hasHeader r k d in Found b s)
  | Has Params k d => (r, let '(b, s) := hasParam r k d in Found b s)
  | Has Cookies k d => (r, let '(b, s) := hasCookie r k d in Found b s)
  end.

Definition tables : Type := table -> gmap (list Z) string.

Definition put (t : table) (g : gmap (list Z) string) (m : tables) : tables := fun t' =>
  match t, t' with
  | Headers, Headers | Params, Params | Cookies, Cookies => g
  | _, _ => m t'
  end.

Definition spec_call (o : op) (m : tables) : tables * answer :=
  match o with
  | Set_ t k v => (put t (<[folded k := v]> (m t)) m, Done)
  | Del t k => (put t (delete (folded k) (m t)) m, Done)
  | Get t k d => (m, Text (default d (m t !! folded k)))
  | Has t k d => (m, match m t !! folded k with Some v => Found true v | None => Found false d end)
  end.

Fixpoint calls (os : list op) (r : HttpRequest) : list answer :=
  match os with
  | [] => []
  | o :: os' => let '(r', a) := call o r in a :: calls os' r'
  end.

Fixpoint spec_calls (os : list op) (m : tables) : list answer :=
  match os with
  | [] => []
  | o :: os' => let '(m', a) := spec_call o m in a :: spec_calls os' m'
  end.

(** ** The simulation *)

Definition the_table (r : HttpRequest) (t : table) : MapType :=
  match t with Headers => HttpRequest.m_headers r | Params => m_params r | Cookies => HttpRequest.m_cookies r end.

Definition simulates (r : HttpRequest) (m : tables) : Prop := forall t, map_rep (the_table r t) (m t).

Lemma simulates_put r r' m t g :
  simulates r m -> map_rep (the_table r' t) g ->
  (forall t', t' <> t -> the_table r' t' = the_table r t') -> simulates r' (put t g m).
Proof.
  intros Hs Hg Hr t'. destruct (match t, t' with Headers, Headers | Params, Params | Cookies, Cookies => true | _, _ => false end) eqn:E.
  - destruct t, t'; try discriminate; exact Hg.
  - assert (put t g m t' = m t') as -> by (destruct t, t'; try discriminate; reflexivity).
    rewrite Hr by (intros ->; destruct t; discriminate). apply Hs.
Qed.

Lemma find_rep r m t key : simulates r m -> find (the_table r t) key = m t !! folded key.
Proof. intros H. apply (H t). Qed.

Lemma call_simulates o r m :
  simulates r m -> simulates (call o r).1 (spec_call o m).1 /\ (call o r).2 = (spec_call o m).2.
Proof.
  intros Hs. destruct o as [t k v|t k|t k d|t k d]; cbn [spec_call fst snd].
  - split; [|destruct t; reflexivity]. apply simulates_put with r; [assumption| |destruct t; intros []; congruence || reflexivity].
    destruct t; apply map_rep_assign; [apply (Hs Headers)|apply (Hs Params)|apply (Hs Cookies)].
  - split; [|destruct t; reflexivity]. apply simulates_put with r; [assumption| |destruct t; intros []; congruence || reflexivity].
    destruct t; apply map_rep_erase; [apply (Hs Headers)|apply (Hs Params)|apply (Hs Cookies)].
  - rewrite <- (find_rep r m t k Hs). split; [destruct t; exact Hs|].
    destruct t; cbn [call snd the_table]; unfold HttpRequest.getHeader, getParam, getCookie; destruct (find _ k); reflexivity.
  - rewrite <- (find_rep r m t k Hs). split; [destruct t; exact Hs|].
    destruct t; cbn [call snd the_table]; unfold hasHeader, hasParam, hasCookie, has; destruct (find _ k); reflexivity.
Qed.

Lemma calls_simulate os r m : simulates r m -> calls os r = spec_calls os m.
Proof.
  revert r m. induction os as [|o os IH]; intros r m Hs; [reflexivity|]. simpl.
  destruct (call_simulates o r m Hs) as [Hs' Ha].
  destruct (call o r) as [r' a], (spec_call o m) as [m' a']. simpl in *. subst. f_equal. auto.
Qed.

(** C21: Under any sequence of set, del, get and has calls on its headers,
    parameters and cookies, a new request answers as three finite maps whose
    keys are the names without their case: a value is found under any spelling
    of its name, setting replaces, deleting removes, and the tables do not
    disturb one another. *)
Theorem request_tables_are_maps version close os :
  calls os (HttpRequest_new version close) = spec_calls os (fun _ => ∅).
Proof. apply calls_simulate. intros []; apply map_rep_empty. Qed.

(** The names of the methods: every method has a name, from which
    [StringToHttpMethod] gives the method back; [CharsToHttpMethod] answers a
    method exactly for the memory that begins with its name, whatever follows;
    [INVALID_METHOD] has no name and [HttpMethodToString] reads past its table. *)
Theorem method_names m :
  m <> HttpMethod.INVALID_METHOD ->
  (exists name, HttpMethodToString m = Ret name
    /\ StringToHttpMethod name = m
    /\ forall mem, CharsToHttpMethod mem = Ret m
         <-> exists rest, mem = (list_ascii_of_string name ++ rest)%list)
  /\ HttpMethodToString HttpMethod.INVALID_METHOD = Undef OutOfBounds.
Proof.
  intros Hm. split; [|reflexivity]. exists (method_string m).
  split; [apply HttpMethodToString_valid, Hm|]. split; [apply StringToHttpMethod_method, Hm|].
  intros mem. split; [apply CharsToHttpMethod_prefix, Hm|].
  intros [rest ->]. apply CharsToHttpMethod_method, Hm.
Qed.

Lemma method_names_witness :
  exists name, HttpMethodToString HttpMethod.GET = Ret name /\ StringToHttpMethod name = HttpMethod.GET
    /\ CharsToHttpMethod (list_ascii_of_string "GETAWAY") = Ret HttpMethod.GET.
Proof.
  destruct (method_names HttpMethod.GET ltac:(discriminate)) as [(name & H1 & H2 & H3) _].
  exists name. split; [exact H1|]. split; [exact H2|]. apply H3.
  injection H1 as <-. exists (list_ascii_of_string "AWAY"). reflexivity.
Defined.
