(* ===== verification/HttpParser.v ===== *)
(** * The HTTP parsers (http_parser.h, http_parser.cpp)

    [http_parser_execute] and [httpclient_parser_execute] are generated from the
    .rl files by ragel and are not part of the sources: a class for each gives
    the automaton as a parameter.  A run of it over a buffer makes calls to the
    element and field callbacks; each is an [event] with the offsets into the
    buffer that the callback gets as pointers and lengths.  The callbacks, the
    parser objects and what they do with the runs are the code of
    http_parser.cpp. *)

From Stdlib Require Import ZArith Lia Ascii String List.
From stdpp Require Import base list strings.
From S2P Require Import Prelude Ordered CString Http HttpResponse HttpRequest.

Local Open Scope string_scope.
Local Open Scope Z_scope.

(** ** The limits of http.request.* and http.response.* *)

Record HttpLimits : Type := mkLimits {
  s_http_request_buffer_size : Z;
  s_http_request_max_body_size : Z;
  s_http_response_buffer_size : Z;
  s_http_response_max_body_size : Z
}.

(** The values of the four ConfigVars when no file changes them, which
    [_RequestSizeIniter] copies. *)
Definition HttpLimits_init : HttpLimits :=
  mkLimits (4 * 1024) (64 * 1024 * 1024) (4 * 1024) (64 * 1024 * 1024).

Definition GetHttpRequestBufferSize (l : HttpLimits) : Z := s_http_request_buffer_size l.
Definition GetHttpRequestMaxBodySize (l : HttpLimits) : Z := s_http_request_max_body_size l.
Definition GetHttpResponseBufferSize (l : HttpLimits) : Z := s_http_response_buffer_size l.
Definition GetHttpResponseMaxBodySize (l : HttpLimits) : Z := s_http_response_max_body_size l.

(** ** The request parser *)

Inductive event : Type :=
  | Request_method (at_ len : nat)
  | Request_uri (at_ len : nat)
  | Fragment (at_ len : nat)
  | Request_path (at_ len : nat)
  | Query_string (at_ len : nat)
  | Http_version (at_ len : nat)
  | Header_done (at_ len : nat)
  | Http_field (field flen value vlen : nat).

(** http11_parser.h: [hp_execute p buffer len] parses from offset 0 and returns
    the state, the calls made and the number of bytes consumed. *)
Class HttpAutomaton : Type := {
  hp_state : Type;
  hp_init : hp_state;
  hp_execute : hp_state -> list ascii -> Z -> hp_state * list event * Z;
  hp_has_error : hp_state -> bool;
  hp_is_finished : hp_state -> bool
}.

Section request.
Context `{HA : HttpAutomaton} `{LC : LexicalCast Z}.

Record HttpRequestParser : Type := mkRequestParser {
  m_parser : hp_state;
  m_data : HttpRequest;
  m_error : Z
}.

Definition setError (v : Z) (p : HttpRequestParser) : HttpRequestParser :=
  mkRequestParser (m_parser p) (m_data p) v.

(** [parser->getData()->f(...)]. *)
Definition on_data (f : HttpRequest -> HttpRequest) (p : HttpRequestParser) : HttpRequestParser :=
  mkRequestParser (m_parser p) (f (m_data p)) (m_error p).

Definition HttpRequestParser_new : HttpRequestParser :=
  mkRequestParser hp_init (HttpRequest_new 17 true) 0.

Definition on_request_method (at_ : list ascii) (length : nat) (p : HttpRequestParser)
  : outcome HttpRequestParser :=
  obind (CharsToHttpMethod at_) (fun m =>
  if bool_decide (m = HttpMethod.INVALID_METHOD) then Ret (setError 1000 p)
  else Ret (on_data (setMethod m) p)).

Definition on_request_uri (at_ : list ascii) (length : nat) (p : HttpRequestParser)
  : outcome HttpRequestParser := Ret p.

Definition on_request_fragement (at_ : list ascii) (length : nat) (p : HttpRequestParser)
  : outcome HttpRequestParser := Ret (on_data (setFragment (string_of_mem at_ length)) p).

Definition on_request_path (at_ : list ascii) (length : nat) (p : HttpRequestParser)
  : outcome HttpRequestParser := Ret (on_data (setPath (string_of_mem at_ length)) p).

Definition on_request_query (at_ : list ascii) (length : nat) (p : HttpRequestParser)
  : outcome HttpRequestParser := Ret (on_data (setQuery (string_of_mem at_ length)) p).

Definition on_request_version (at_ : list ascii) (length : nat) (p : HttpRequestParser)
  : outcome HttpRequestParser :=
  obind (strncmp length at_ (c_mem "HTTP/1.1")) (fun d =>
  if d =? 0 then Ret (on_data (HttpRequest.setVersion 17) p)
  else obind (strncmp length at_ (c_mem "HTTP/1.0")) (fun d' =>
  if d' =? 0 then Ret (on_data (HttpRequest.setVersion 17) p)
  else Ret (setError 1001 p))).

Definition on_request_header_done (at_ : list ascii) (length : nat) (p : HttpRequestParser)
  : outcome HttpRequestParser := Ret p.

Definition on_request_http_field (field : list ascii) (flen : nat) (value : list ascii) (vlen : nat)
    (p : HttpRequestParser) : outcome HttpRequestParser :=
  if Nat.eqb flen 0 then Ret p
  else Ret (on_data (HttpRequest.setHeader (string_of_mem field flen) (string_of_mem value vlen)) p).

(** The callback the constructor has registered for the event. *)
Definition on_event (buffer : list ascii) (p : HttpRequestParser) (e : event)
  : outcome HttpRequestParser :=
  match e with
  | Request_method at_ len => on_request_method (drop at_ buffer) len p
  | Request_uri at_ len => on_request_uri (drop at_ buffer) len p
  | Fragment at_ len => on_request_fragement (drop at_ buffer) len p
  | Request_path at_ len => on_request_path (drop at_ buffer) len p
  | Query_string at_ len => on_request_query (drop at_ buffer) len p
  | Http_version at_ len => on_request_version (drop at_ buffer) len p
  | Header_done at_ len => on_request_header_done (drop at_ buffer) len p
  | Http_field field flen value vlen =>
      on_request_http_field (drop field buffer) flen (drop value buffer) vlen p
  end.

Fixpoint on_events (buffer : list ascii) (p : HttpRequestParser) (evs : list event)
  : outcome HttpRequestParser :=
  match evs with
  | [] => Ret p
  | e :: r => obind (on_event buffer p e) (fun p' => on_events buffer p' r)
  end.

(** [execute(data, len)] on the allocated memory [data]: the parser, the memory
    after the [memmove] and the offset. *)
Definition execute (p : HttpRequestParser) (data : list ascii) (len : Z)
  : outcome (HttpRequestParser * list ascii * Z) :=
  let '(st, evs, offset) := hp_execute (m_parser p) data len in
  obind (on_events data p evs) (fun p' =>
  Ret (mkRequestParser st (m_data p') (m_error p'),
       overlay 0 (slice offset (len - offset) data) data, offset)).

(** [http_parser_finish] is plain C in the .rl file. *)
Definition http_parser_finish (st : hp_state) : Z :=
  if hp_has_error st then -1 else if hp_is_finished st then 1 else 0.

Definition isFinished (p : HttpRequestParser) : bool := negb (http_parser_finish (m_parser p) =? 0).

Definition hasError (p : HttpRequestParser) : bool :=
  negb (m_error p =? 0) || hp_has_error (m_parser p).

Definition getContentLenght (p : HttpRequestParser) : Z :=
  HttpRequest.getHeaderAs (m_data p) "content-length" 0.
End request.
