(* ===== verification/HttpWire.v ===== *)
(** * The request on the wire

    A request that a client dumps is read back by the server's parser.  The
    grammar of http11_parser.rl is given here for requests in origin form, as a
    reader that lists the calls a run over a buffer with a whole request head
    makes; [reads_requests] says of the generated automaton that it makes these
    calls and stops behind the empty line. *)

From Stdlib Require Import ZArith Lia Ascii String List.
From stdpp Require Import base list strings gmap sets.
From S2P Require Import Prelude Ordered CString Http HttpResponse HttpRequest HttpParser.

Local Open Scope string_scope.
Local Open Scope list_scope.
Local Open Scope Z_scope.

Abbreviation chars := list_ascii_of_string.

(** ** Character classes of the grammar *)

Definition is_upper (c : ascii) : bool := (65 <=? code c) && (code c <=? 90).
Definition is_lower (c : ascii) : bool := (97 <=? code c) && (code c <=? 122).
Definition is_alpha (c : ascii) : bool := is_upper c || is_lower c.
Definition one_of (s : string) (c : ascii) : bool := bool_decide (c ∈ chars s).
Definition is_xdigit (c : ascii) : bool := is_digit c || one_of "abcdefABCDEF" c.

Definition is_ctl (c : ascii) : bool := (code c <=? 31) || (code c =? 127).
Definition is_separator (c : ascii) : bool :=
  one_of (String "009" (String "034" "()<>@,;:\/[]?={} ")) c.
Definition is_token (c : ascii) : bool :=
  (code c <? 128) && negb (is_ctl c) && negb (is_separator c).

Definition sub_delims : string := "!$&'()*+,;=".
Definition is_unreserved (c : ascii) : bool := is_alpha c || is_digit c || one_of "-._~" c.
Definition is_pchar1 (c : ascii) : bool :=
  (128 <=? code c) || is_unreserved c || one_of sub_delims c || one_of ":@" c.

(** [(pchar | extra)*] *)
Fixpoint pchars (extra : string) (l : list ascii) : bool :=
  match l with
  | [] => true
  | c :: r =>
      if bool_decide (c = "%"%char) then
        match r with a :: b :: r' => is_xdigit a && is_xdigit b && pchars extra r' | _ => false end
      else (is_pchar1 c || one_of extra c) && pchars extra r
  end.

(** [path_absolute] *)
Definition path_ok (l : list ascii) : bool :=
  match l with
  | c :: r => bool_decide (c = "/"%char) && pchars "/" r
              && match r with d :: _ => negb (bool_decide (d = "/"%char)) | [] => true end
  | [] => false
  end.

Definition method_ok (l : list ascii) : bool :=
  (1 <=? zlen l) && (zlen l <=? 20) && forallb (fun c => is_upper c || is_digit c) l.
Definition query_ok (l : list ascii) : bool := pchars "/?" l.
Definition version_ok (l : list ascii) : bool :=
  bool_decide (l = chars "HTTP/1.1") || bool_decide (l = chars "HTTP/1.0").
Definition field_ok (l : list ascii) : bool := negb (bool_decide (l = [])) && forallb is_token l.
Definition value_ok (l : list ascii) : bool := forallb (fun c => negb (is_ctl c)) l.

(** ** The reader *)

Fixpoint span (P : ascii -> bool) (l : list ascii) : list ascii * list ascii :=
  match l with
  | [] => ([], [])
  | c :: r => if P c then let '(a, b) := span P r in (c :: a, b) else ([], l)
  end.

Definition guard {A} (b : bool) (o : option A) : option A := if b then o else None.

(** The literal [x] is next. *)
Fixpoint expect (x l : list ascii) : option (list ascii) :=
  match x, l with
  | [], _ => Some l
  | c :: x', d :: l' => guard (bool_decide (c = d)) (expect x' l')
  | _, [] => None
  end.

Definition is_not (s : string) (c : ascii) : bool := negb (one_of s c).
Definition CR : string := String "013" "".

(** The header fields from offset [pos] on, and the offset behind the head. *)
Fixpoint read_fields (fuel : nat) (pos : nat) (l : list ascii) : option (list event * nat) :=
  match fuel with
  | O => None
  | S fuel' =>
      match expect (chars CRLF) l with
      | Some r => Some ([Header_done (pos + 2) (length r)], (pos + 2)%nat)
      | None =>
          let '(field, r1) := span (is_not ":") l in
          match expect (chars ":") r1 with
          | None => None
          | Some r2 =>
              let '(blanks, r3) := span (one_of " ") r2 in
              let '(value, r4) := span (is_not CR) r3 in
              let vpos := (pos + length field + 1 + length blanks)%nat in
              match expect (chars CRLF) r4 with
              | None => None
              | Some r5 =>
                  guard (field_ok field && value_ok value)
                    (match read_fields fuel' (vpos + length value + 2) r5 with
                     | None => None
                     | Some (evs, n) => Some (Http_field pos (length field) vpos (length value) :: evs, n)
                     end)
              end
          end
      end
  end.

(** [HTTP_Version CRLF] and the rest of the head. *)
Definition read_version (pos : nat) (l : list ascii) : option (list event * nat) :=
  let '(version, r) := span (is_not CR) l in
  match expect (chars CRLF) r with
  | None => None
  | Some r' =>
      guard (version_ok version)
        (match read_fields (S (length r')) (pos + length version + 2) r' with
         | None => None
         | Some (evs, n) => Some (Http_version pos (length version) :: evs, n)
         end)
  end.

(** [("#" fragment)? " "], after the path and the query, which began at [upos]. *)
Definition read_fragment (upos pos : nat) (l : list ascii) : option (list event * nat) :=
  let uri := Request_uri upos (pos - upos) in
  match expect (chars "#") l with
  | Some r =>
      let '(frag, r1) := span (is_not " ") r in
      match expect (chars " ") r1 with
      | None => None
      | Some r2 =>
          guard (query_ok frag)
            (match read_version (pos + 1 + length frag + 1) r2 with
             | None => None
             | Some (evs, n) => Some (uri :: Fragment (pos + 1) (length frag) :: evs, n)
             end)
      end
  | None =>
      match expect (chars " ") l with
      | None => None
      | Some r =>
          match read_version (pos + 1) r with
          | None => None
          | Some (evs, n) => Some (uri :: evs, n)
          end
      end
  end.

Definition read_query (upos pos : nat) (l : list ascii) : option (list event * nat) :=
  match expect (chars "?") l with
  | Some r =>
      let '(query, r1) := span (is_not " #") r in
      guard (query_ok query)
        (match read_fragment upos (pos + 1 + length query) r1 with
         | None => None
         | Some (evs, n) => Some (Query_string (pos + 1) (length query) :: evs, n)
         end)
  | None => read_fragment upos pos l
  end.

Definition read_request (l : list ascii) : option (list event * nat) :=
  let '(method, r) := span (is_not " ") l in
  match expect (chars " ") r with
  | None => None
  | Some r1 =>
      let '(path, r2) := span (is_not " ?#") r1 in
      let upos := (length method + 1)%nat in
      guard (method_ok method && path_ok path)
        (match read_query upos (upos + length path) r2 with
         | None => None
         | Some (evs, n) =>
             Some (Request_method 0 (length method) :: Request_path upos (length path) :: evs, n)
         end)
  end.

(** What the generated code does with a buffer that begins with a request head:
    the calls of the grammar, and it stops behind the head, finished. *)
Definition reads_requests (HA : HttpAutomaton) : Prop :=
  forall (buffer : list ascii) (len : Z) evs n,
    read_request (take (Z.to_nat len) buffer) = Some (evs, n) -> 0 <= len <= zlen buffer ->
    exists st, hp_execute hp_init buffer len = (st, evs, Z.of_nat n)
      /\ hp_has_error st = false /\ hp_is_finished st = true.

(** ** Reading what was put together *)

Lemma span_app P (a b : list ascii) :
  forallb P a = true -> (match b with c :: _ => P c = false | [] => True end) ->
  span P (a ++ b) = (a, b).
Proof.
  induction a as [|c a IH]; simpl; intros Ha Hb.
  - destruct b as [|c b]; [reflexivity|]. simpl. rewrite Hb. reflexivity.
  - apply andb_true_iff in Ha as [-> Ha]. rewrite IH by assumption. reflexivity.
Qed.

Lemma expect_app (x r : list ascii) : expect x (x ++ r) = Some r.
Proof.
  induction x as [|c x IH]; simpl; [reflexivity|].
  rewrite bool_decide_eq_true_2 by reflexivity. exact IH.
Qed.

Lemma expect_ne c x d (r : list ascii) : c <> d -> expect (c :: x) (d :: r) = None.
Proof. intros H. simpl. rewrite bool_decide_eq_false_2 by assumption. reflexivity. Qed.

Lemma forallb_impl {A} (P Q : A -> bool) l :
  (forall x, P x = true -> Q x = true) -> forallb P l = true -> forallb Q l = true.
Proof. rewrite !forallb_forall. auto. Qed.

(** A class that contains none of the characters of [s]. *)
Lemma class_is_not (P : ascii -> bool) (s : string) :
  forallb (fun c => negb (P c)) (chars s) = true -> forall c, P c = true -> is_not s c = true.
Proof.
  intros H c Hc. unfold is_not, one_of. apply negb_true_iff, bool_decide_eq_false.
  intros Hin. rewrite forallb_forall in H. apply list_elem_of_In in Hin.
  specialize (H c Hin). rewrite Hc in H. discriminate.
Qed.

Lemma pchars_all extra s l :
  forallb (fun c => negb (is_pchar1 c || one_of extra c || is_xdigit c || bool_decide (c = "%"%char)))
    (chars s) = true ->
  pchars extra l = true -> forallb (is_not s) l = true.
Proof.
  intros Hs. pose proof (class_is_not _ s Hs) as Hc. cbv beta in Hc.
  revert l. fix IH 1. intros [|c l]; simpl; [reflexivity|]. case_bool_decide as E.
  - destruct l as [|a [|b l]]; try discriminate.
    intros H. apply andb_true_iff in H as [[Ha Hb]%andb_true_iff Hl]. simpl.
    assert (Hx : forall x, is_xdigit x = true -> is_not s x = true)
      by (intros x Hx; apply Hc; rewrite Hx, orb_true_r; reflexivity).
    assert (Hcc : is_not s c = true)
      by (apply Hc; rewrite (bool_decide_eq_true_2 _ E); apply orb_true_r).
    rewrite Hcc, (Hx a Ha), (Hx b Hb), (IH l Hl). reflexivity.
  - intros H. apply andb_true_iff in H as [Ha Hl]. rewrite (IH l Hl), Hc; [reflexivity|].
    rewrite Ha. reflexivity.
Qed.

Lemma path_ok_is_not l : path_ok l = true -> forallb (is_not " ?#") l = true.
Proof.
  destruct l as [|c l]; [discriminate|]. simpl. intros H.
  apply andb_true_iff in H as [[Hc Hl]%andb_true_iff _]. apply bool_decide_eq_true in Hc. subst c.
  apply andb_true_iff. split; [reflexivity|]. revert Hl. apply pchars_all. reflexivity.
Qed.

Lemma query_ok_is_not l : query_ok l = true -> forallb (is_not " #") l = true.
Proof. apply pchars_all. reflexivity. Qed.

Lemma query_ok_no_blank l : query_ok l = true -> forallb (is_not " ") l = true.
Proof. apply pchars_all. reflexivity. Qed.

Lemma string_of_mem_app (s : string) (r : list ascii) :
  string_of_mem (chars s ++ r) (length (chars s)) = s.
Proof. unfold string_of_mem. rewrite take_app_length. apply string_of_list_ascii_of_string. Qed.

Lemma length_chars s : length (chars s) = String.length s.
Proof. induction s as [|c s IH]; simpl; [reflexivity|]. rewrite IH. reflexivity. Qed.

Create Rewrite HintDb wire.
#[local] Hint Rewrite chars_append @length_app @length_cons length_chars : wire.

(** ** Header lines *)

Record line : Type := mkLine { l_name : string; l_blank : bool; l_value : string }.

Definition blank (f : line) : string := if l_blank f then " " else "".
Definition line_text (f : line) : string :=
  (l_name f ++ ":" ++ blank f ++ l_value f ++ CRLF)%string.

(** A field the grammar takes, whose value begins behind the blanks. *)
Definition line_ok (f : line) : bool :=
  field_ok (chars (l_name f)) && value_ok (chars (l_value f))
  && match l_value f with String c _ => negb (one_of " " c) | EmptyString => true end.

Definition lines_text (fs : list line) : string := String.concat "" (map line_text fs).

Definition put_line (r : HttpRequest) (f : line) : HttpRequest :=
  HttpRequest.setHeader (l_name f) (l_value f) r.

Lemma concat_cons (s : string) (l : list string) :
  String.concat "" (s :: l) = (s ++ String.concat "" l)%string.
Proof. destruct l; simpl; rewrite ?append_nil_r; reflexivity. Qed.

Lemma concat_app (l l' : list string) :
  String.concat "" (l ++ l') = (String.concat "" l ++ String.concat "" l')%string.
Proof.
  induction l as [|s l IH]; [reflexivity|].
  rewrite <- app_comm_cons, !concat_cons, IH, append_assoc. reflexivity.
Qed.

Lemma field_ok_head s : field_ok (chars s) = true ->
  forall r, expect (chars CRLF) (chars s ++ r) = None /\ forallb (is_not ":") (chars s) = true.
Proof.
  unfold field_ok. intros H r. apply andb_true_iff in H as [Hne Ht]. split.
  - destruct s as [|c s]; [discriminate|]. simpl in Ht. apply andb_true_iff in Ht as [Hc _].
    apply expect_ne. intros <-. discriminate.
  - revert Ht. apply forallb_impl, class_is_not. reflexivity.
Qed.

Lemma value_ok_is_not l : value_ok l = true -> forallb (is_not CR) l = true.
Proof. apply forallb_impl, class_is_not. reflexivity. Qed.

(** The reader on one line. *)
Lemma read_fields_line fuel pos f r :
  line_ok f = true ->
  let vpos := (pos + String.length (l_name f) + 1 + String.length (blank f))%nat in
  read_fields (S fuel) pos (chars (line_text f) ++ r)
  = match read_fields fuel (pos + String.length (line_text f)) r with
    | None => None
    | Some (evs, n) =>
        Some (Http_field pos (String.length (l_name f)) vpos (String.length (l_value f)) :: evs, n)
    end.
Proof.
  unfold line_ok. intros H. apply andb_true_iff in H as [[Hn Hv]%andb_true_iff Hb].
  unfold line_text. rewrite !chars_append, <- !(assoc_L (++)).
  destruct (field_ok_head _ Hn (chars ":" ++ chars (blank f) ++ chars (l_value f) ++ chars CRLF ++ r)) as [E1 E2].
  cbn [read_fields]. rewrite E1.
  rewrite (span_app (is_not ":") (chars (l_name f))) by (assumption || reflexivity).
  rewrite expect_app.
  rewrite (span_app (one_of " ") (chars (blank f))).
  2: { unfold blank. destruct (l_blank f); reflexivity. }
  2: { destruct (l_value f); [reflexivity|]. apply negb_true_iff in Hb. exact Hb. }
  rewrite (span_app (is_not CR) (chars (l_value f))) by (apply value_ok_is_not, Hv || reflexivity).
  rewrite expect_app. rewrite Hn, Hv. simpl andb. cbn [guard].
  rewrite !length_chars. rewrite !length_append. change (String.length CRLF) with 2%nat.
  change (String.length ":") with 1%nat.
  replace (pos + String.length (l_name f) + 1 + String.length (blank f) + String.length (l_value f) + 2)%nat
    with (pos + (String.length (l_name f) + (1 + (String.length (blank f) + (String.length (l_value f) + 2)))))%nat
    by lia.
  reflexivity.
Qed.

(** ** The callbacks on what was read *)

Section wire.
Context `{HA : HttpAutomaton}.
Implicit Types (p : HttpRequestParser) (pre tl : list ascii).

Lemma on_event_field pre f tl p :
  line_ok f = true ->
  on_event (pre ++ chars (line_text f) ++ tl) p
    (Http_field (length pre) (String.length (l_name f))
       (length pre + String.length (l_name f) + 1 + String.length (blank f)) (String.length (l_value f)))
  = Ret (on_data (fun r => put_line r f) p).
Proof.
  intros H. unfold line_ok in H. apply andb_true_iff in H as [[Hn _]%andb_true_iff _].
  cbn [on_event]. unfold on_request_http_field.
  replace (Nat.eqb (String.length (l_name f)) 0) with false
    by (destruct (l_name f); [discriminate|reflexivity]).
  rewrite drop_app_length. unfold line_text. rewrite !chars_append.
  replace (drop _ (pre ++ _)) with (chars (l_value f) ++ chars CRLF ++ tl).
  - rewrite <- !(assoc_L (++)), <- (length_chars (l_name f)), <- (length_chars (l_value f)).
    rewrite !string_of_mem_app. reflexivity.
  - rewrite <- !(assoc_L (++)). rewrite (assoc_L (++) pre), (assoc_L (++) (pre ++ _)), (assoc_L (++) ((pre ++ _) ++ _)).
    symmetry. apply drop_app_length'. rewrite !length_app, !length_chars. reflexivity.
Qed.

Lemma on_data_id p : on_data (fun r => r) p = p.
Proof. destruct p. reflexivity. Qed.

Lemma on_data_comp f g p : on_data g (on_data f p) = on_data (fun r => g (f r)) p.
Proof. reflexivity. Qed.

(** The rest of the head: what is read at [length pre], and what the callbacks
    make of it. *)
Definition reads_as (rd : option (list event * nat)) (pre l tl : list ascii)
    (upd : HttpRequest -> HttpRequest) (n : nat) : Prop :=
  exists evs, rd = Some (evs, n)
    /\ forall p, on_events (pre ++ l ++ tl) p evs = Ret (on_data upd p).

Lemma read_fields_lines fs body pre tl fuel :
  forallb line_ok fs = true -> (length fs < fuel)%nat ->
  reads_as (read_fields fuel (length pre) (chars (lines_text fs ++ CRLF ++ body)%string)) pre
    (chars (lines_text fs ++ CRLF ++ body)%string) tl
    (fun r => fold_left put_line fs r) (length pre + String.length (lines_text fs) + 2)%nat.
Proof.
  revert pre fuel. induction fs as [|f fs IH]; intros pre [|fuel] Hok Hf; simpl length in Hf; try lia.
  - eexists. split.
    + cbn [read_fields]. change (lines_text [] ++ CRLF ++ body)%string with (CRLF ++ body)%string.
      rewrite chars_append, expect_app. simpl String.length. rewrite Nat.add_0_r. reflexivity.
    + intros p. simpl. rewrite on_data_id. reflexivity.
  - simpl in Hok. apply andb_true_iff in Hok as [Hok1 Hok].
    assert (E : lines_text (f :: fs) = (line_text f ++ lines_text fs)%string) by apply concat_cons.
    rewrite E, append_assoc, chars_append.
    destruct (IH (pre ++ chars (line_text f)) fuel Hok ltac:(lia)) as (evs & Hr & Hc).
    rewrite length_app, length_chars in Hr.
    eexists. split.
    + rewrite read_fields_line by assumption. rewrite Hr. do 2 f_equal. rewrite length_append. lia.
    + intros p. cbn [on_events]. rewrite <- (assoc_L (++)), on_event_field by assumption.
      cbn [obind]. rewrite (assoc_L (++)), Hc. reflexivity.
Qed.

Lemma reads_as_cons rd e pre l tl upd upd1 n :
  reads_as rd pre l tl upd n ->
  (forall p, on_event (pre ++ l ++ tl) p e = Ret (on_data upd1 p)) ->
  reads_as (match rd with None => None | Some (evs, n) => Some (e :: evs, n) end) pre l tl
    (fun r => upd (upd1 r)) n.
Proof.
  intros (evs & -> & Hc) He. exists (e :: evs). split; [reflexivity|].
  intros p. cbn [on_events]. rewrite He. cbn [obind]. rewrite Hc. reflexivity.
Qed.

(** The same memory, cut at another place. *)
Lemma reads_as_shift rd pre m l tl upd n :
  reads_as rd (pre ++ m) l tl upd n -> reads_as rd pre (m ++ l) tl upd n.
Proof.
  intros (evs & Hr & Hc). exists evs. split; [assumption|]. intros p.
  rewrite <- (Hc p), <- !(assoc_L (++)). reflexivity.
Qed.

Lemma reads_as_end rd pre l tl upd n n' :
  n = n' -> reads_as rd pre l tl upd n -> reads_as rd pre l tl upd n'.
Proof. intros ->. auto. Qed.

(** *** The request line, from its end *)

Definition version_text (v : Z) : string := if v =? 16 then "HTTP/1.0" else "HTTP/1.1".
Definition version_part (v : Z) (fs : list line) (body : string) : string :=
  (version_text v ++ CRLF ++ lines_text fs ++ CRLF ++ body)%string.
Definition fragment_part (frag : string) (rest : string) : string :=
  ((if bool_decide (frag = "") then "" else "#") ++ frag ++ " " ++ rest)%string.
Definition query_part (query : string) (rest : string) : string :=
  ((if bool_decide (query = "") then "" else "?") ++ query ++ rest)%string.

Definition set_if (s : string) (f : string -> HttpRequest -> HttpRequest) (r : HttpRequest) : HttpRequest :=
  if bool_decide (s = "") then r else f s r.

Lemma lines_text_length fs : (length fs <= String.length (lines_text fs))%nat.
Proof.
  induction fs as [|f fs IH]; [simpl; lia|].
  unfold lines_text. cbn [map]. rewrite concat_cons, length_append. fold (lines_text fs).
  unfold line_text. rewrite !length_append. change (String.length ":") with 1%nat. simpl length. lia.
Qed.

Lemma read_version_part v fs body pre tl :
  forallb line_ok fs = true ->
  reads_as (read_version (length pre) (chars (version_part v fs body))) pre
    (chars (version_part v fs body)) tl
    (fun r => fold_left put_line fs (HttpRequest.setVersion 17 r))
    (length pre + (String.length (version_part v fs body) - String.length body))%nat.
Proof.
  intros Hok. unfold version_part. set (rest := (lines_text fs ++ CRLF ++ body)%string).
  assert (Hv : version_ok (chars (version_text v)) = true /\ String.length (version_text v) = 8%nat
    /\ forallb (is_not CR) (chars (version_text v)) = true
    /\ forall r p, on_request_version (chars (version_text v) ++ r) 8 p
                  = Ret (on_data (HttpRequest.setVersion 17) p)).
  { unfold version_text. destruct (v =? 16); repeat split. }
  destruct Hv as (Hv1 & Hv2 & Hv3 & Hv4).
  rewrite !chars_append. unfold read_version.
  rewrite (span_app (is_not CR) _ _ Hv3) by reflexivity. rewrite expect_app, Hv1. cbn [guard].
  rewrite !length_chars, Hv2. apply reads_as_cons.
  - rewrite (assoc_L (++)). apply reads_as_shift.
    replace (length pre + 8 + 2)%nat
      with (length (pre ++ chars (version_text v) ++ chars CRLF))
      by (rewrite !length_app, !length_chars, Hv2; simpl; lia).
    replace (length pre + _)%nat
      with (length (pre ++ chars (version_text v) ++ chars CRLF) + String.length (lines_text fs) + 2)%nat
      by (rewrite !length_app, !length_chars, !length_append, Hv2; unfold rest; rewrite !length_append;
          change (String.length CRLF) with 2%nat; lia).
    apply read_fields_lines; [assumption|].
    unfold rest. rewrite length_append. pose proof (lines_text_length fs). lia.
  - intros p. cbn [on_event]. rewrite drop_app_length, <- (assoc_L (++)). apply Hv4.
Qed.

Lemma read_fragment_part frag v fs body upos pre tl :
  query_ok (chars frag) = true -> forallb line_ok fs = true ->
  let rest := version_part v fs body in
  reads_as (read_fragment upos (length pre) (chars (fragment_part frag rest))) pre
    (chars (fragment_part frag rest)) tl
    (fun r => fold_left put_line fs (HttpRequest.setVersion 17 (set_if frag setFragment r)))
    (length pre + (String.length (fragment_part frag rest) - String.length body))%nat.
Proof.
  intros Hq Hok rest. unfold fragment_part, set_if. case_bool_decide as E.
  - subst frag. cbn [append]. rewrite !append_nil_l, chars_append. unfold read_fragment.
    replace (expect (chars "#") _) with (@None (list ascii)) by reflexivity. rewrite expect_app.
    apply (reads_as_cons _ _ _ _ _ _ (fun r => r)); [|intros p; rewrite on_data_id; reflexivity].
    apply reads_as_shift.
    replace (length pre + 1)%nat with (length (pre ++ chars " ")) by (rewrite length_app; reflexivity).
    replace (length pre + _)%nat
      with (length (pre ++ chars " ") + (String.length rest - String.length body))%nat.
    + apply read_version_part. assumption.
    + unfold rest, version_part. rewrite !length_app, !length_append. simpl length. simpl String.length. lia.
  - rewrite !chars_append. unfold read_fragment. rewrite expect_app.
    rewrite (span_app (is_not " ") (chars frag)) by (apply query_ok_no_blank, Hq || reflexivity).
    rewrite expect_app, Hq. cbn [guard]. rewrite length_chars.
    set (m := chars "#" ++ chars frag ++ chars " ").
    assert (Em : length m = (String.length frag + 2)%nat)
      by (unfold m; rewrite !length_app, !length_chars; simpl; lia).
    apply (reads_as_end _ _ _ _ _ (length (pre ++ m) + (String.length rest - String.length body))%nat).
    { unfold rest, version_part. rewrite !length_app, !length_append, Em. simpl String.length. lia. }
    assert (Hr := reads_as_shift _ _ m _ tl _ _ (read_version_part v fs body (pre ++ m) tl Hok)).
    fold rest in Hr. unfold m at 2 in Hr. rewrite <- !(assoc_L (++)) in Hr.
    replace (length pre + 1 + String.length frag + 1)%nat with (length (pre ++ m))
      by (rewrite length_app, Em; lia).
    apply (reads_as_cons _ (Fragment (length pre + 1) (String.length frag)) _ _ _ _ (setFragment frag)) in Hr.
    + destruct Hr as (evs & Hr & Hc).
      destruct (read_version (length (pre ++ m)) (chars rest)) as [[evs' n']|]; [|discriminate].
      injection Hr as <- <-. eexists. split; [reflexivity|].
      intros p. cbn [on_events on_event obind on_request_uri]. rewrite <- (Hc p). reflexivity.
    + intros p. cbn [on_event]. unfold on_request_fragement. rewrite drop_app_add.
      change (drop 1 _) with ((chars frag ++ chars " " ++ chars rest) ++ tl).
      rewrite <- (assoc_L (++)), <- (length_chars frag), string_of_mem_app. reflexivity.
Qed.

Lemma fragment_part_head frag rest P :
  P "#"%char = false -> P " "%char = false ->
  exists c l, chars (fragment_part frag rest) = c :: l /\ P c = false /\ c <> "?"%char.
Proof.
  intros H1 H2. unfold fragment_part. case_bool_decide as E.
  - subst frag. eexists _, _. split; [reflexivity|]. split; [exact H2|discriminate].
  - eexists _, _. split; [reflexivity|]. split; [exact H1|discriminate].
Qed.

Lemma read_query_part query frag v fs body upos pre tl :
  query_ok (chars query) = true -> query_ok (chars frag) = true -> forallb line_ok fs = true ->
  let rest := fragment_part frag (version_part v fs body) in
  reads_as (read_query upos (length pre) (chars (query_part query rest))) pre
    (chars (query_part query rest)) tl
    (fun r => fold_left put_line fs
       (HttpRequest.setVersion 17 (set_if frag setFragment (set_if query setQuery r))))
    (length pre + (String.length (query_part query rest) - String.length body))%nat.
Proof.
  intros Hq Hf Hok rest.
  destruct (fragment_part_head frag (version_part v fs body) (is_not " #")) as (c & l & Ec & Hc1 & Hc2);
    [reflexivity..|]. fold rest in Ec.
  unfold query_part, set_if at 2. case_bool_decide as E.
  - subst query. rewrite !append_nil_l. unfold read_query.
    replace (expect (chars "?") (chars rest)) with (@None (list ascii)).
    + apply read_fragment_part; assumption.
    + rewrite Ec. symmetry. apply expect_ne. congruence.
  - rewrite !chars_append. unfold read_query. rewrite expect_app.
    rewrite (span_app (is_not " #") (chars query)) by (apply query_ok_is_not, Hq || rewrite Ec; exact Hc1).
    rewrite Hq. cbn [guard]. rewrite length_chars.
    apply (reads_as_cons _ _ _ _ _ (fun r => fold_left put_line fs
      (HttpRequest.setVersion 17 (set_if frag setFragment r))) (setQuery query)).
    + set (m := chars "?" ++ chars query).
      assert (Em : length m = (String.length query + 1)%nat)
        by (unfold m; rewrite !length_app, !length_chars; simpl; lia).
      apply (reads_as_end _ _ _ _ _ (length (pre ++ m) + (String.length rest - String.length body))%nat).
      { unfold rest, fragment_part, version_part. rewrite !length_app, !length_append, Em. simpl String.length. lia. }
      rewrite (assoc_L (++)). apply reads_as_shift.
      replace (length pre + 1 + String.length query)%nat with (length (pre ++ m))
        by (rewrite length_app, Em; lia).
      apply read_fragment_part; assumption.
    + intros p. cbn [on_event]. unfold on_request_query. rewrite drop_app_add.
      change (drop 1 _) with ((chars query ++ chars rest) ++ tl).
      rewrite <- (assoc_L (++)), <- (length_chars query), string_of_mem_app. reflexivity.
Qed.

(** The whole head of a request in origin form. *)
Definition request_text (m : HttpMethod.t) (path query frag : string) (v : Z) (fs : list line)
    (body : string) : string :=
  (method_string m ++ " " ++ path ++ query_part query (fragment_part frag (version_part v fs body)))%string.

Lemma read_request_text m path query frag v fs body tl :
  m <> HttpMethod.INVALID_METHOD -> method_ok (chars (method_string m)) = true ->
  path_ok (chars path) = true -> query_ok (chars query) = true -> query_ok (chars frag) = true ->
  forallb line_ok fs = true ->
  let text := request_text m path query frag v fs body in
  reads_as (read_request (chars text)) [] (chars text) tl
    (fun r => fold_left put_line fs (HttpRequest.setVersion 17
       (set_if frag setFragment (set_if query setQuery (setPath path (setMethod m r))))))
    (String.length text - String.length body)%nat.
Proof.
  intros Hm Hmo Hp Hq Hf Hok text. unfold text, request_text. clear text.
  set (rest := query_part query (fragment_part frag (version_part v fs body))).
  rewrite !chars_append. unfold read_request.
  rewrite (span_app (is_not " ") (chars (method_string m))); [|destruct m; discriminate || reflexivity|reflexivity].
  rewrite expect_app.
  rewrite (span_app (is_not " ?#") (chars path)); [|apply path_ok_is_not, Hp|].
  2: { unfold rest, query_part, fragment_part.
       repeat case_bool_decide; subst; rewrite ?append_nil_l; reflexivity. }
  rewrite Hmo, Hp. cbn [andb guard]. rewrite !length_chars.
  set (k := (String.length (method_string m) + 1)%nat).
  set (pre := chars (method_string m) ++ chars " " ++ chars path).
  assert (Ep : length pre = (k + String.length path)%nat)
    by (unfold pre, k; rewrite !length_app, !length_chars; simpl; lia).
  assert (Hn : (length pre + (String.length rest - String.length body)
    = String.length (method_string m ++ " " ++ path ++ rest)%string - String.length body)%nat).
  { rewrite Ep, !length_append. unfold rest, query_part, fragment_part, version_part, k.
    rewrite !length_append. simpl String.length. lia. }
  pose proof (reads_as_end _ _ _ _ _ _ _ Hn (read_query_part query frag v fs body k pre tl Hq Hf Hok)) as Hr.
  fold rest in Hr. rewrite <- (app_nil_l pre) in Hr at 2. apply reads_as_shift in Hr. rewrite Ep in Hr.
  unfold pre in Hr. rewrite <- !(assoc_L (++)) in Hr.
  apply (reads_as_cons _ (Request_path k (String.length path)) _ _ _ _ (setPath path)) in Hr.
  - apply (reads_as_cons _ (Request_method 0 (String.length (method_string m))) _ _ _ _ (setMethod m)) in Hr.
    + destruct (read_query _ _ _) as [[evs n]|]; exact Hr.
    + intros p. cbn [on_event]. unfold on_request_method. rewrite drop_0, app_nil_l, <- (assoc_L (++)).
      rewrite CharsToHttpMethod_method by assumption. cbn [obind].
      rewrite bool_decide_eq_false_2 by assumption. reflexivity.
  - intros p. cbn [on_event]. unfold on_request_path. rewrite app_nil_l, <- !(assoc_L (++)), (assoc_L (++)).
    rewrite drop_app_length' by (rewrite length_app, length_chars; reflexivity).
    rewrite <- (length_chars path), string_of_mem_app. reflexivity.
Qed.
End wire.
