(* ===== verification/HttpWireSpec.v ===== *)
(** * Client and server agree on a request

    [HttpRequest::dump] on one side, [HttpRequestParser] on the other: the
    request that arrives is the one that was sent, up to the version, which the
    parser always makes 1.1. *)

From Stdlib Require Import ZArith Lia Ascii String List Decimal DecimalString DecimalN.
From stdpp Require Import base list strings gmap sets.
From S2P Require Import Prelude Ordered CString Http HttpResponse HttpRequest HttpParser HttpWire.

Local Open Scope string_scope.
Local Open Scope list_scope.
Local Open Scope Z_scope.

(** ** The text of a dump *)

Definition keeps (r : HttpRequest) (i : string * string) : bool :=
  HttpRequest.m_websocket r || negb (strcasecmp i.1 "connection" =? 0).

Definition connection_value (r : HttpRequest) : string :=
  if HttpRequest.m_close r then "close" else "keep-alive".

Definition wire_lines (r : HttpRequest) : list line :=
  (if HttpRequest.m_websocket r then [] else [mkLine "connection" true (connection_value r)])
  ++ map (fun i => mkLine i.1 false i.2) (List.filter (keeps r) (HttpRequest.m_headers r))
  ++ (if bool_decide (HttpRequest.m_body r = "") then []
      else [mkLine "content-length" true (dec (slength (HttpRequest.m_body r)))]).

(** A request the grammar has a text for. *)
Definition sendable (r : HttpRequest) : bool :=
  negb (bool_decide (m_method r = HttpMethod.INVALID_METHOD))
  && method_ok (chars (method_string (m_method r)))
  && path_ok (chars (m_path r)) && query_ok (chars (m_query r)) && query_ok (chars (m_fragment r))
  && ((HttpRequest.m_version r =? 16) || (HttpRequest.m_version r =? 17))
  && forallb (fun i => line_ok (mkLine i.1 false i.2)) (HttpRequest.m_headers r).

Lemma dump_headers_text r l :
  String.concat "" (map (HttpRequest.dump_header (HttpRequest.m_websocket r)) l)
  = lines_text (map (fun i => mkLine i.1 false i.2) (List.filter (keeps r) l)).
Proof.
  induction l as [|i l IH]; [reflexivity|]. cbn [map List.filter].
  rewrite concat_cons, IH. unfold HttpRequest.dump_header at 1, keeps at 2.
  destruct (HttpRequest.m_websocket r), (strcasecmp i.1 "connection" =? 0); cbn [negb andb orb map];
    unfold lines_text at 2; cbn [map]; rewrite ?concat_cons; reflexivity.
Qed.

Lemma lines_text_app l l' : lines_text (l ++ l') = (lines_text l ++ lines_text l')%string.
Proof. unfold lines_text. rewrite map_app. apply concat_app. Qed.

(** The text, for the method, version and body of the request. *)
Definition dump_text (r : HttpRequest) : string :=
  request_text (m_method r) (m_path r) (m_query r) (m_fragment r) (HttpRequest.m_version r)
    (wire_lines r) (HttpRequest.m_body r).

Lemma append_congr (a b c d : string) : a = b -> c = d -> (a ++ c = b ++ d)%string.
Proof. intros -> ->. reflexivity. Qed.

Lemma version_dump (v : Z) (rest : string) :
  (v = 16 \/ v = 17) ->
  (" HTTP/" ++ dec (Z.shiftr v 4) ++ "." ++ dec (Z.land v 15) ++ rest = " " ++ version_text v ++ rest)%string.
Proof. intros [-> | ->]; reflexivity. Qed.

Lemma dump_is_text r : sendable r = true -> HttpRequest.dump r = Ret (dump_text r).
Proof.
  unfold sendable. rewrite !andb_true_iff, orb_true_iff, !Z.eqb_eq, negb_true_iff, bool_decide_eq_false.
  intros [[[[[[Hm _] _] _] _] Hv] _]. unfold HttpRequest.dump.
  rewrite HttpMethodToString_valid by assumption. cbn [obind]. f_equal.
  unfold dump_text, request_text, query_part, fragment_part, version_part. rewrite ?append_assoc.
  rewrite version_dump by assumption. rewrite dump_headers_text.
  repeat (apply append_congr; [reflexivity|]).
  unfold wire_lines. rewrite !lines_text_app, ?append_assoc. apply append_congr.
  { destruct (HttpRequest.m_websocket r); reflexivity. }
  apply append_congr; [reflexivity|]. case_bool_decide as E; [rewrite E; reflexivity|].
  unfold lines_text. cbn [map]. rewrite concat_cons. cbn [String.concat].
  rewrite append_nil_r. unfold line_text, blank. cbn [l_name l_blank l_value].
  rewrite ?append_assoc. reflexivity.
Qed.

Lemma string_all_chars P s : string_all P s = forallb P (chars s).
Proof. induction s as [|c s IH]; simpl; [reflexivity|]. rewrite IH. reflexivity. Qed.

Lemma forallb_filter {A} (P Q : A -> bool) l : forallb P l = true -> forallb P (List.filter Q l) = true.
Proof. rewrite !forallb_forall. intros H x Hx. apply filter_In in Hx as [Hx _]. auto. Qed.

Lemma digit_not_ctl c : is_digit c = true -> negb (is_ctl c) = true.
Proof.
  unfold is_digit, is_ctl. rewrite andb_true_iff, negb_true_iff, orb_false_iff, !Z.leb_le.
  intros [H1 H2]. rewrite Z.leb_gt, Z.eqb_neq. lia.
Qed.

Lemma digit_not_blank c : is_digit c = true -> negb (one_of " " c) = true.
Proof.
  intros H. unfold one_of. apply negb_true_iff, bool_decide_eq_false. simpl.
  intros ->%list_elem_of_singleton. discriminate.
Qed.

Lemma dec_line_ok n : line_ok (mkLine "content-length" true (dec n)) = true.
Proof.
  pose proof (dec_digits n) as H. unfold line_ok. cbn [l_name l_value].
  apply andb_true_iff. split.
  - apply andb_true_iff. split; [reflexivity|]. unfold value_ok.
    rewrite string_all_chars in H. revert H. apply forallb_impl. exact digit_not_ctl.
  - destruct (dec n) as [|c s]; [reflexivity|]. simpl in H. apply andb_true_iff in H as [H _].
    apply digit_not_blank. exact H.
Qed.

Lemma wire_lines_ok r : sendable r = true -> forallb line_ok (wire_lines r) = true.
Proof.
  unfold sendable. rewrite !andb_true_iff. intros [_ Hh]. unfold wire_lines.
  rewrite !forallb_app, !andb_true_iff. repeat split.
  - unfold connection_value. destruct (HttpRequest.m_websocket r), (HttpRequest.m_close r); reflexivity.
  - apply (forallb_filter _ (keeps r)) in Hh. rewrite forallb_forall in *.
    intros f Hf. apply in_map_iff in Hf as (i & <- & Hi). exact (Hh i Hi).
  - case_bool_decide; [reflexivity|]. cbn [forallb]. rewrite dec_line_ok. reflexivity.
Qed.

(** ** The headers that arrive *)

(** The maps that the lines of the text build up. *)
Lemma put_lines_headers fs r :
  HttpRequest.m_headers (fold_left put_line fs r)
  = fold_left (fun m f => assign m (l_name f) (l_value f)) fs (HttpRequest.m_headers r).
Proof. revert r. induction fs as [|f fs IH]; intros r; [reflexivity|]. simpl. rewrite IH. reflexivity. Qed.

(** All but the headers is left alone. *)
Lemma put_lines_rest fs r :
  fold_left put_line fs r = HttpRequest.setHeaders (HttpRequest.m_headers (fold_left put_line fs r)) r.
Proof.
  revert r. induction fs as [|f fs IH]; intros r; [destruct r; reflexivity|].
  simpl. rewrite IH. reflexivity.
Qed.

(** What the receiver finds under a key. *)
Definition arriving (r : HttpRequest) (key : string) : option string :=
  if negb (bool_decide (HttpRequest.m_body r = "")) && bool_decide (folded key = folded "content-length")
  then Some (dec (slength (HttpRequest.m_body r)))
  else if negb (HttpRequest.m_websocket r) && bool_decide (folded key = folded "connection")
  then Some (connection_value r)
  else find (HttpRequest.m_headers r) key.

Lemma find_assign m k v key :
  map_ok m -> find (assign m k v) key = if bool_decide (folded key = folded k) then Some v else find m key.
Proof.
  intros Hs. unfold find, assign. rewrite map_get_set by (exact _ || assumption).
  rewrite same_key_folded. repeat case_bool_decide; congruence.
Qed.

Lemma assign_ok m k v : map_ok m -> map_ok (assign m k v).
Proof. apply map_set_sorted. exact _. Qed.

Lemma fold_assign_ok l m : map_ok m -> map_ok (fold_left (fun m p => assign m p.1 p.2) l m).
Proof. revert m. induction l as [|p l IH]; intros m H; simpl; [assumption|]. apply IH, assign_ok, H. Qed.

Lemma find_fold l m key :
  map_ok l -> map_ok m ->
  find (fold_left (fun m p => assign m p.1 p.2) l m) key
  = match find l key with Some v => Some v | None => find m key end.
Proof. exact (map_get_fold CaseInsensitiveLess l m key). Qed.

Lemma filter_keeps r :
  map_ok (HttpRequest.m_headers r) ->
  List.filter (keeps r) (HttpRequest.m_headers r)
  = if HttpRequest.m_websocket r then HttpRequest.m_headers r
    else erase (HttpRequest.m_headers r) "connection".
Proof.
  intros Hs. unfold keeps. destruct (HttpRequest.m_websocket r).
  - apply filter_all. reflexivity.
  - unfold erase. rewrite <- (map_erase_filter CaseInsensitiveLess "connection") by assumption.
    apply filter_ext. intros y. simpl. rewrite same_key_folded. f_equal. case_bool_decide as E.
    + apply Z.eqb_eq, strcasecmp_eq, E.
    + apply Z.eqb_neq. rewrite strcasecmp_eq. exact E.
Qed.

Lemma fold_left_map {A B C} (f : A -> B -> A) (g : C -> B) l a :
  fold_left f (map g l) a = fold_left (fun a c => f a (g c)) l a.
Proof. revert a. induction l as [|c l IH]; intros a; simpl; [reflexivity|]. apply IH. Qed.

Lemma erase_get m k key :
  map_ok m -> find (erase m k) key = if bool_decide (folded k = folded key) then None else find m key.
Proof.
  intros H. unfold find, erase. rewrite map_get_erase by (exact _ || exact H).
  rewrite same_key_folded. reflexivity.
Qed.

Lemma put_wire_lines r r0 key :
  map_ok (HttpRequest.m_headers r) -> HttpRequest.m_headers r0 = [] ->
  find (HttpRequest.m_headers (fold_left put_line (wire_lines r) r0)) key = arriving r key.
Proof.
  intros Hok H0. rewrite put_lines_headers, H0. unfold wire_lines. rewrite !fold_left_app, fold_left_map.
  cbn [l_name l_value]. rewrite filter_keeps by assumption. unfold arriving.
  match goal with |- context [fold_left ?f (if HttpRequest.m_websocket r then ?x else ?y) (fold_left ?g ?l [])] =>
    set (m2 := fold_left f (if HttpRequest.m_websocket r then x else y) (fold_left g l [])) end.
  assert (H2 : map_ok m2)
    by (apply fold_assign_ok; destruct (HttpRequest.m_websocket r); repeat constructor).
  assert (E2 : find m2 key = if negb (HttpRequest.m_websocket r) && bool_decide (folded key = folded "connection")
    then Some (connection_value r) else find (HttpRequest.m_headers r) key).
  { unfold m2. destruct (HttpRequest.m_websocket r); cbn [negb andb fold_left l_name l_value].
    - rewrite find_fold by (exact Hok || constructor).
      destruct (find _ key); reflexivity.
    - rewrite find_fold by (apply map_erase_sorted, Hok || apply assign_ok; constructor).
      rewrite erase_get, find_assign by (assumption || constructor).
      destruct (find (HttpRequest.m_headers r) key) eqn:E; repeat case_bool_decide; congruence || reflexivity. }
  destruct (bool_decide (HttpRequest.m_body r = "")); cbn [negb andb fold_left l_name l_value]; [exact E2|].
  rewrite find_assign by assumption. destruct (bool_decide (folded key = folded "content-length")); [reflexivity|exact E2].
Qed.

(** ** The round trip *)

(** [lexical_cast<uint64_t>] reads a decimal numeral in its range. *)
Definition casts_decimals (LC : LexicalCast Z) : Prop :=
  forall n, 0 <= n < 2 ^ 64 -> lexical_cast (dec n) = Some n.

(** The request the server has when it has parsed the head. *)
Definition received (r : HttpRequest) : HttpRequest :=
  fold_left put_line (wire_lines r)
    (mkRequest (m_method r) 17 true false (m_path r) (m_query r) (m_fragment r) "" [] [] []).

(** The text up to the body. *)
Definition dump_head (r : HttpRequest) : string :=
  request_text (m_method r) (m_path r) (m_query r) (m_fragment r) (HttpRequest.m_version r) (wire_lines r) "".

Lemma request_text_body m path query frag v fs body :
  request_text m path query frag v fs body = (request_text m path query frag v fs "" ++ body)%string.
Proof.
  unfold request_text, query_part, fragment_part, version_part.
  rewrite !append_assoc, append_nil_l. reflexivity.
Qed.

Lemma dump_text_split r : dump_text r = (dump_head r ++ HttpRequest.m_body r)%string.
Proof. apply request_text_body. Qed.

Section arrival.
Context `{HA : HttpAutomaton} `{LC : LexicalCast Z} (Hreads : reads_requests HA).

(** A buffer with the whole head and any part of what follows. *)
Lemma execute_head r part tl :
  sendable r = true ->
  let text := (dump_head r ++ part)%string in
  exists st, execute HttpRequestParser_new (chars text ++ tl) (slength text)
    = Ret (mkRequestParser st (received r) 0,
           overlay 0 (chars part) (chars text ++ tl), slength (dump_head r))
    /\ hp_has_error st = false /\ hp_is_finished st = true.
Proof.
  intros Hs text. pose proof (wire_lines_ok r Hs) as Hl. pose proof Hs as Hs'. unfold sendable in Hs'.
  rewrite !andb_true_iff, negb_true_iff, bool_decide_eq_false in Hs'.
  destruct Hs' as [[[[[[Hm Hmo] Hp] Hq] Hf] _] _].
  destruct (read_request_text _ _ _ _ (HttpRequest.m_version r) (wire_lines r) part tl
    Hm Hmo Hp Hq Hf Hl) as (evs & Hr & Hc). rewrite request_text_body in Hr, Hc.
  fold (dump_head r) in Hr, Hc. fold text in Hr, Hc. rewrite app_nil_l in Hc.
  assert (Ht : take (Z.to_nat (slength text)) (chars text ++ tl) = chars text).
  { unfold slength. rewrite Nat2Z.id, <- length_chars. apply take_app_length. }
  destruct (Hreads (chars text ++ tl) (slength text) evs (String.length text - String.length part)%nat)
    as (st & Hx & He & Hfin).
  { rewrite Ht. exact Hr. }
  { unfold slength, zlen. rewrite length_app, length_chars. lia. }
  exists st. split; [|auto]. unfold execute. cbn [m_parser HttpRequestParser_new].
  rewrite Hx, Hc. cbn [obind].
  assert (En : Z.of_nat (String.length text - String.length part) = slength (dump_head r))
    by (unfold text, slength; rewrite length_append; lia).
  assert (El : slength text - slength (dump_head r) = slength part)
    by (unfold text; rewrite slength_append; lia).
  rewrite En, El. do 3 f_equal.
  - f_equal. f_equal. unfold on_data, received. cbn [m_data m_error m_parser HttpRequestParser_new]. f_equal.
    unfold set_if. repeat case_bool_decide; try (rewrite H); try (rewrite H0); reflexivity.
  - unfold text. rewrite chars_append, <- (assoc_L (++)).
    replace (slength (dump_head r)) with (zlen (chars (dump_head r)) + 0)
      by (unfold zlen, slength; rewrite length_chars; lia).
    rewrite slice_middle by (unfold zlen, slength; rewrite ?length_chars; lia).
    replace (slength part) with (zlen (chars part))
      by (unfold zlen, slength; rewrite length_chars; reflexivity).
    f_equal. apply slice_all.
Qed.
End arrival.

Lemma received_fields r :
  m_method (received r) = m_method r /\ m_path (received r) = m_path r
  /\ m_query (received r) = m_query r /\ m_fragment (received r) = m_fragment r
  /\ HttpRequest.m_version (received r) = 17 /\ HttpRequest.m_close (received r) = true.
Proof. unfold received. rewrite put_lines_rest. repeat split. Qed.

Lemma received_find r key :
  map_ok (HttpRequest.m_headers r) -> find (HttpRequest.m_headers (received r)) key = arriving r key.
Proof. intros H. apply put_wire_lines; [assumption|reflexivity]. Qed.

Lemma received_init r :
  map_ok (HttpRequest.m_headers r) -> HttpRequest.m_websocket r = false ->
  HttpRequest.m_close (init (received r)) = HttpRequest.m_close r.
Proof.
  intros Hok Hw. unfold init, HttpRequest.getHeader. rewrite received_find by assumption.
  unfold arriving. rewrite Hw. rewrite (bool_decide_eq_false_2 (folded "connection" = folded "content-length"))
    by discriminate. rewrite andb_false_r. cbn [negb andb].
  rewrite (bool_decide_eq_true_2 (folded "connection" = folded "connection")) by reflexivity.
  unfold connection_value. destruct (HttpRequest.m_close r); reflexivity.
Qed.

(** C20: A request that [dump] can write in the grammar arrives as it was sent:
    when the generated automaton makes the calls of the grammar, one [execute]
    over the text consumes exactly the head, without an error and finished,
    leaves the body at the front of the buffer, and has built a request with the
    same method, path, query and fragment, with version 1.1 whatever was sent,
    with every header under every spelling of its key, with [connection] and
    [content-length] as [dump] adds them, with the sender's [m_close] after
    [init], and with a content length that is the size of the body. *)
Theorem request_over_the_wire (HA : HttpAutomaton) (LC : LexicalCast Z) r tl :
  reads_requests HA -> casts_decimals LC ->
  sendable r = true -> map_ok (HttpRequest.m_headers r) -> slength (HttpRequest.m_body r) < 2 ^ 64 ->
  exists text p mem,
    HttpRequest.dump r = Ret text
    /\ execute HttpRequestParser_new (chars text ++ tl) (slength text)
       = Ret (p, mem, slength text - slength (HttpRequest.m_body r))
    /\ hasError p = false /\ isFinished p = true
    /\ slice 0 (slength (HttpRequest.m_body r)) mem = chars (HttpRequest.m_body r)
    /\ m_method (m_data p) = m_method r /\ m_path (m_data p) = m_path r
    /\ m_query (m_data p) = m_query r /\ m_fragment (m_data p) = m_fragment r
    /\ HttpRequest.m_version (m_data p) = 17
    /\ (forall key, find (HttpRequest.m_headers (m_data p)) key = arriving r key)
    /\ (HttpRequest.m_websocket r = false ->
        HttpRequest.m_close (init (m_data p)) = HttpRequest.m_close r)
    /\ (HttpRequest.m_body r <> "" -> getContentLenght p = slength (HttpRequest.m_body r)).
Proof.
  intros Hreads Hcast Hs Hok Hlen. destruct (execute_head Hreads r (HttpRequest.m_body r) tl Hs) as (st & Hx & He & Hf).
  rewrite <- dump_text_split in Hx.
  exists (dump_text r), (mkRequestParser st (received r) 0), (overlay 0 (chars (HttpRequest.m_body r)) (chars (dump_text r) ++ tl)).
  destruct (received_fields r) as (F1 & F2 & F3 & F4 & F5 & F6). cbn [m_data].
  split; [apply dump_is_text, Hs|].
  split; [rewrite Hx; do 2 f_equal; rewrite dump_text_split, slength_append; lia|].
  split; [unfold hasError; cbn; exact He|].
  split; [unfold isFinished, http_parser_finish; cbn; rewrite He, Hf; reflexivity|].
  split; [|repeat (split; [assumption|])].
  { replace (slength (HttpRequest.m_body r)) with (zlen (chars (HttpRequest.m_body r)))
      by (unfold zlen, slength; rewrite length_chars; reflexivity).
    apply slice_overlay. split; [lia|]. apply zlen_nonneg. }
  split; [intros key; apply received_find, Hok|]. split; [apply received_init, Hok|].
  intros Hb. unfold getContentLenght, HttpRequest.getHeaderAs, getAs. cbn [m_data].
  rewrite received_find by assumption. unfold arriving.
  rewrite (bool_decide_eq_false_2 _ Hb), bool_decide_eq_true_2 by reflexivity. cbn [negb andb].
  rewrite Hcast; [reflexivity|]. unfold slength in *. lia.
Qed.

(** ** An automaton that reads the grammar, and a request *)

Definition grammar_automaton : HttpAutomaton := {|
  hp_state := option bool;
  hp_init := Some false;
  hp_execute st buffer len :=
    match read_request (take (Z.to_nat len) buffer) with
    | Some (evs, n) => (Some true, evs, Z.of_nat n)
    | None => (None, [], 0)
    end;
  hp_has_error st := match st with None => true | _ => false end;
  hp_is_finished st := match st with Some true => true | _ => false end
|}.

Lemma grammar_automaton_reads : reads_requests grammar_automaton.
Proof. intros buffer len evs n H _. exists (Some true). simpl. rewrite H. auto. Qed.

Definition decimal_cast : LexicalCast Z := fun s =>
  (fun u => Z.of_N (N.of_uint u)) <$> NilEmpty.uint_of_string s.

Lemma decimal_cast_casts : casts_decimals decimal_cast.
Proof.
  intros n Hn. unfold lexical_cast, decimal_cast, dec. rewrite NilEmpty.usu. simpl.
  rewrite DecimalN.Unsigned.of_to. f_equal. lia.
Qed.

Definition sample_request : HttpRequest :=
  mkRequest HttpMethod.POST 16 false false "/a%20b/c" "x=1" "top" "hello"
    [("Host", "example.org"); ("User-Agent", "sylar")] [] [].

Lemma request_over_the_wire_witness :
  exists text p mem,
    HttpRequest.dump sample_request = Ret text
    /\ @execute grammar_automaton HttpRequestParser_new (chars text ++ chars "next") (slength text)
       = Ret (p, mem, slength text - 5)
    /\ @getContentLenght grammar_automaton decimal_cast p = 5
    /\ HttpRequest.m_close (init (m_data p)) = false
    /\ find (HttpRequest.m_headers (m_data p)) "HOST" = Some "example.org".
Proof.
  destruct (request_over_the_wire grammar_automaton decimal_cast sample_request (chars "next"))
    as (text & p & mem & H1 & H2 & _ & _ & _ & _ & _ & _ & _ & _ & H3 & H4 & H5).
  - exact grammar_automaton_reads.
  - exact decimal_cast_casts.
  - vm_compute. reflexivity.
  - repeat constructor.
  - vm_compute. reflexivity.
  - exists text, p, mem. split; [exact H1|]. split; [exact H2|].
    split; [apply H5; discriminate|]. split; [apply H4; reflexivity|]. apply H3.
Defined.
