(* ===== verification/HttpResponseParser.v ===== *)
(** * The response parser (http_parser.h, http_parser.cpp)

    As HttpParser.v for the client side: httpclient_parser_execute is the
    parameter [ClientAutomaton], whose state has the fields that recvResponse
    reads. *)

From Stdlib Require Import ZArith Lia Ascii String List.
From stdpp Require Import base list strings.
From S2P Require Import Prelude Ordered CString Http HttpResponse HttpParser.

Local Open Scope string_scope.
Local Open Scope Z_scope.

Inductive cevent : Type :=
  | Reason_phrase (at_ len : nat)
  | Status_code (at_ len : nat)
  | Chunk_size (at_ len : nat)
  | CHttp_version (at_ len : nat)
  | CHeader_done (at_ len : nat)
  | Last_chunk (at_ len : nat)
  | CHttp_field (field flen value vlen : nat).

(** httpclient_parser.h *)
Class ClientAutomaton : Type := {
  cp_state : Type;
  cp_init : cp_state -> cp_state;
  cp_zero : cp_state;
  cp_execute : cp_state -> list ascii -> Z -> cp_state * list cevent * Z;
  cp_has_error : cp_state -> bool;
  cp_is_finished : cp_state -> bool;
  cp_content_len : cp_state -> Z;
  cp_chunked : cp_state -> bool;
  cp_chunks_done : cp_state -> bool
}.

Section response.
Context `{CA : ClientAutomaton} `{LC : LexicalCast Z}.

Record HttpResponseParser : Type := mkResponseParser {
  m_parser : cp_state;
  m_data : HttpResponse;
  m_error : Z
}.

Definition setError (v : Z) (p : HttpResponseParser) : HttpResponseParser :=
  mkResponseParser (m_parser p) (m_data p) v.

Definition on_data (f : HttpResponse -> HttpResponse) (p : HttpResponseParser) : HttpResponseParser :=
  mkResponseParser (m_parser p) (f (m_data p)) (m_error p).

Definition HttpResponseParser_new : HttpResponseParser :=
  mkResponseParser (cp_init cp_zero) (HttpResponse_new 17 true) 0.

Definition on_response_reason (at_ : list ascii) (length : nat) (p : HttpResponseParser)
  : outcome HttpResponseParser := Ret (on_data (setReason (string_of_mem at_ length)) p).

Definition on_response_status (at_ : list ascii) (length : nat) (p : HttpResponseParser)
  : outcome HttpResponseParser := obind (atoi at_) (fun n => Ret (on_data (setStatus n) p)).

Definition on_response_chunk (at_ : list ascii) (length : nat) (p : HttpResponseParser)
  : outcome HttpResponseParser := Ret p.

Definition on_response_version (at_ : list ascii) (length : nat) (p : HttpResponseParser)
  : outcome HttpResponseParser :=
  obind (strncmp length at_ (c_mem "HTTP/1.1")) (fun d =>
  if d =? 0 then Ret (on_data (setVersion 17) p)
  else obind (strncmp length at_ (c_mem "HTTP/1.0")) (fun d' =>
  if d' =? 0 then Ret (on_data (setVersion 17) p)
  else Ret (setError 1001 p))).

Definition on_response_header_done (at_ : list ascii) (length : nat) (p : HttpResponseParser)
  : outcome HttpResponseParser := Ret p.

Definition on_response_last_chunk (at_ : list ascii) (length : nat) (p : HttpResponseParser)
  : outcome HttpResponseParser := Ret p.

Definition on_response_http_field (field : list ascii) (flen : nat) (value : list ascii) (vlen : nat)
    (p : HttpResponseParser) : outcome HttpResponseParser :=
  if Nat.eqb flen 0 then Ret p
  else Ret (on_data (setHeader (string_of_mem field flen) (string_of_mem value vlen)) p).

Definition on_cevent (buffer : list ascii) (p : HttpResponseParser) (e : cevent)
  : outcome HttpResponseParser :=
  match e with
  | Reason_phrase at_ len => on_response_reason (drop at_ buffer) len p
  | Status_code at_ len => on_response_status (drop at_ buffer) len p
  | Chunk_size at_ len => on_response_chunk (drop at_ buffer) len p
  | CHttp_version at_ len => on_response_version (drop at_ buffer) len p
  | CHeader_done at_ len => on_response_header_done (drop at_ buffer) len p
  | Last_chunk at_ len => on_response_last_chunk (drop at_ buffer) len p
  | CHttp_field field flen value vlen =>
      on_response_http_field (drop field buffer) flen (drop value buffer) vlen p
  end.

Fixpoint on_cevents (buffer : list ascii) (p : HttpResponseParser) (evs : list cevent)
  : outcome HttpResponseParser :=
  match evs with
  | [] => Ret p
  | e :: r => obind (on_cevent buffer p e) (fun p' => on_cevents buffer p' r)
  end.

Definition execute (p : HttpResponseParser) (data : list ascii) (len : Z) (chunck : bool)
  : outcome (HttpResponseParser * list ascii * Z) :=
  let st0 := if chunck then cp_init (m_parser p) else m_parser p in
  let '(st, evs, offset) := cp_execute st0 data len in
  obind (on_cevents data p evs) (fun p' =>
  Ret (mkResponseParser st (m_data p') (m_error p'),
       overlay 0 (slice offset (len - offset) data) data, offset)).

Definition httpclient_parser_finish (st : cp_state) : Z :=
  if cp_has_error st then -1 else if cp_is_finished st then 1 else 0.

Definition isFinished (p : HttpResponseParser) : bool := negb (httpclient_parser_finish (m_parser p) =? 0).

Definition hasError (p : HttpResponseParser) : bool :=
  negb (m_error p =? 0) || cp_has_error (m_parser p).

Definition getContentLenght (p : HttpResponseParser) : Z := getHeaderAs (m_data p) "content-length" 0.
End response.
