(* ===== verification/HttpSession.v ===== *)
(** * HttpSession and HttpServer: one connection of the server
    (sylar/http/http_session.cpp, sylar/http/http_server.cpp)

    [recvRequest] and [sendResponse] are given over the interface [Stream] and a
    [close] of it, which is all they use of SocketStream.  The buffer is memory
    of the configured size; its first contents are arbitrary. *)

From Stdlib Require Import ZArith Lia Ascii String List.
From stdpp Require Import base list strings.
From S2P Require Import Prelude Ordered CString Stream Http HttpResponse HttpRequest HttpParser.

Local Open Scope string_scope.
Local Open Scope list_scope.
Local Open Scope Z_scope.
Local Open Scope cpp_scope.

(** The largest [std::string]. *)
Definition max_size : Z := 2 ^ 62 - 1.

Section session.
Context {S : Type} {I : Stream S ascii} (s_close : M S unit).
Context {HA : HttpAutomaton} {LC : LexicalCast Z}.

(** The do-while loop over the head: [None] is the return of [nullptr]. *)
Fixpoint head_loop (fuel : nat) (buff_size : Z) (p : HttpRequestParser) (data : list ascii) (offset : Z)
  : M S (option (HttpRequestParser * list ascii * Z)) :=
  match fuel with
  | O => cundef FuelExhausted
  | Datatypes.S fuel' =>
      let! r := s_read (u64 (buff_size - offset)) in
      let data1 := overlay offset r.2 data in
      if r.1 <=? 0 then s_close ;;; cret None else
      let len := i32 (r.1 + offset) in
      let! x := lift (execute p data1 len) in
      let '(p', data2, nparse) := x in
      if hasError p' then s_close ;;; cret None else
      let offset' := i32 (len - nparse) in
      if offset' =? i32 buff_size then s_close ;;; cret None else
      if isFinished p' then cret (Some (p', data2, offset'))
      else head_loop fuel' buff_size p' data2 offset'
  end.

(** The rest of [recvRequest]: the body, from the buffer and from the stream. *)
Definition recv_body (p : HttpRequestParser) (data : list ascii) (offset : Z) : M S (option HttpRequest) :=
  let length := i64 (getContentLenght p) in
  if 0 <? length then
    if max_size <? length then cthrow LengthError else
    let body0 := replicate (Z.to_nat length) NUL in
    let len := if offset <=? length then offset else i32 length in
    let body1 := overlay 0 (slice 0 len data) body0 in
    let length' := i64 (length - offset) in
    if 0 <? length' then
      let! r := readFixSize (drop (Z.to_nat len) body1) length' in
      if r.2 <=? 0 then s_close ;;; cret None
      else cret (Some (HttpRequest.init
             (HttpRequest.setBody (string_of_list_ascii (take (Z.to_nat len) body1 ++ r.1)) (m_data p))))
    else cret (Some (HttpRequest.init (HttpRequest.setBody (string_of_list_ascii body1) (m_data p))))
  else cret (Some (HttpRequest.init (m_data p))).

Definition recvRequest (fuel : nat) (l : HttpLimits) (mem0 : list ascii) : M S (option HttpRequest) :=
  let! r := head_loop fuel (GetHttpRequestBufferSize l) HttpRequestParser_new mem0 0 in
  match r with
  | None => cret None
  | Some (p, data, offset) => recv_body p data offset
  end.

Definition sendResponse (rsp : HttpResponse) : M S Z :=
  let data := HttpResponse.dump rsp in
  writeFixSize (list_ascii_of_string data) (slength data).

(** ** HttpServer::handleClient

    The dispatcher acts on the response; [rounds] bounds the requests of the
    connection, [fuel] each of its heads. *)
Variable dispatch : HttpRequest -> HttpResponse -> HttpResponse.

Fixpoint handleClient (rounds fuel : nat) (l : HttpLimits) (mem0 : list ascii) (name : string)
    (m_isKeepalive : bool) : M S unit :=
  match rounds with
  | O => cundef FuelExhausted
  | Datatypes.S rounds' =>
      let! req := recvRequest fuel l mem0 in
      match req with
      | None => s_close
      | Some q =>
          let rsp := HttpResponse_new (HttpRequest.m_version q) (HttpRequest.m_close q || negb m_isKeepalive) in
          let rsp := HttpResponse.setHeader "Server" name rsp in
          let rsp := dispatch q rsp in
          sendResponse rsp ;;;
          if m_isKeepalive then handleClient rounds' fuel l mem0 name m_isKeepalive else s_close
      end
  end.
End session.
