(* ===== verification/HttpSessionSpec.v ===== *)
(** * A request received by a session

    [delivers]: a read of a stream on which bytes wait brings some of them.  The
    head of the request has to arrive with the first read, because the generated
    parser forgets a token that ends in a later buffer; the body may come in any
    pieces. *)

From Stdlib Require Import ZArith Lia Ascii String List.
From stdpp Require Import base list strings.
From S2P Require Import Prelude Ordered CString Stream Http HttpResponse HttpRequest HttpParser HttpWire HttpWireSpec HttpSession.

Local Open Scope string_scope.
Local Open Scope list_scope.
Local Open Scope Z_scope.
Local Open Scope cpp_scope.

Definition delivers {S B} {I : Stream S B} (L : ByteStream I) : Prop :=
  forall len st st' rt d, 0 < len -> incoming st <> [] -> s_read len st = (st', Ret (rt, d)) -> 0 < rt.

Lemma i32_nat x : 0 <= x < 2 ^ 31 -> i32 x = x.
Proof. intros. apply swrap_id; [lia|]. unfold s_range. change (2 ^ (32 - 1)) with (2 ^ 31). lia. Qed.

Section full.
Context {S B : Type} {I : Stream S B} {L : ByteStream I} (HD : delivers L).

Lemma read_loop_full fuel (buffer : list B) offset left_ st :
  0 <= offset -> 0 <= left_ -> offset + left_ <= zlen buffer -> zlen buffer < 2 ^ 63 ->
  left_ <= zlen (incoming st) -> (Z.to_nat left_ < fuel)%nat ->
  exists st' d, read_loop fuel buffer offset left_ st = (st', Ret (overlay offset d buffer, None))
    /\ incoming st = d ++ incoming st' /\ zlen d = left_.
Proof.
  revert buffer offset left_ st. induction fuel as [|fuel IH]; intros buffer offset left_ st Ho Hl Hb Hm Hi Hf; [lia|].
  cbn [read_loop]. destruct (Z.leb_spec left_ 0).
  { exists st, []. rewrite overlay_nil. repeat split; unfold zlen; simpl; lia. }
  destruct (read_law left_ st ltac:(lia)) as (st1 & rt & d1 & R & H1 & H2 & H3 & H4 & H5).
  assert (Hrt : 0 < rt).
  { apply (HD left_ st st1 rt d1); [lia| |exact R]. intros E. rewrite E in Hi. unfold zlen in Hi. simpl in Hi. lia. }
  rewrite (cbind_ret _ _ _ _ _ R). cbn [fst snd]. rewrite (proj2 (Z.leb_gt _ _) Hrt).
  rewrite !u64_small by lia. rewrite H4, zlen_app in Hi.
  destruct (IH (overlay offset d1 buffer) (offset + rt) (left_ - rt) st1) as (st' & d & R' & E1 & E2);
    rewrite ?zlen_overlay by lia; try lia.
  exists st', (d1 ++ d). rewrite R'. replace (offset + rt) with (offset + zlen d1) by lia.
  rewrite overlay_overlay by lia. split; [reflexivity|].
  split; [rewrite H4, E1, (assoc_L (++)); reflexivity|]. rewrite zlen_app. lia.
Qed.

Lemma readFixSize_full (buffer : list B) length st :
  0 <= length <= zlen buffer -> length < 2 ^ 31 -> zlen buffer < 2 ^ 63 -> length <= zlen (incoming st) ->
  exists st' d, readFixSize buffer length st = (st', Ret (overlay 0 d buffer, length))
    /\ incoming st = d ++ incoming st' /\ zlen d = length.
Proof.
  intros Hl Hm Hb Hi.
  destruct (read_loop_full (Datatypes.S (Z.to_nat length)) buffer 0 length st) as (st' & d & R & E1 & E2); try lia.
  exists st', d. unfold readFixSize. rewrite (cbind_ret _ _ _ _ _ R). cbn [fst snd].
  rewrite i32_nat by lia. auto.
Qed.
End full.

Lemma overlay_all {X} (d l : list X) : zlen d = zlen l -> overlay 0 d l = d.
Proof.
  intros H. unfold overlay. simpl. rewrite drop_ge by (unfold zlen in H; lia).
  apply (right_id_L [] (++)).
Qed.

(** A prefix that ends in the second of three pieces. *)
Lemma prefix_split {X} (h b rest d i : list X) :
  zlen h <= zlen d -> zlen d <= zlen h + zlen b -> h ++ b ++ rest = d ++ i ->
  exists part more, d = h ++ part /\ b = part ++ more /\ i = more ++ rest.
Proof.
  intros H1 H2 E. exists (drop (length h) d), (drop (length d - length h) b).
  assert (Ed : d = take (length d) (h ++ b ++ rest)) by (rewrite E, take_app_length; reflexivity).
  assert (Ei : i = drop (length d) (h ++ b ++ rest)) by (rewrite E, drop_app_length; reflexivity).
  unfold zlen in *. rewrite take_app_ge, take_app_le in Ed by lia.
  rewrite drop_app_ge, drop_app_le in Ei by lia.
  split; [rewrite Ed at 1; rewrite Ed at 2; rewrite drop_app_length; reflexivity|].
  split; [|exact Ei]. rewrite Ed at 1. rewrite drop_app_length, take_drop. reflexivity.
Qed.

(** The request that is handed out, once the body is set. *)
Lemma init_received r :
  map_ok (HttpRequest.m_headers r) ->
  let q := HttpRequest.init (HttpRequest.setBody (HttpRequest.m_body r) (received r)) in
  m_method q = m_method r /\ m_path q = m_path r /\ m_query q = m_query r
  /\ m_fragment q = m_fragment r /\ HttpRequest.m_body q = HttpRequest.m_body r
  /\ (forall key, find (HttpRequest.m_headers q) key = arriving r key)
  /\ (HttpRequest.m_websocket r = false -> HttpRequest.m_close q = HttpRequest.m_close r).
Proof.
  intros Hok q. destruct (received_fields r) as (F1 & F2 & F3 & F4 & _).
  assert (Hq : forall {X} (f : HttpRequest -> X), (forall b x, f (HttpRequest.setClose b x) = f x) ->
    f q = f (HttpRequest.setBody (HttpRequest.m_body r) (received r))).
  { intros X f Hf. unfold q, HttpRequest.init.
    destruct (bool_decide _); [reflexivity|]. destruct (_ =? 0); apply Hf. }
  rewrite !Hq by reflexivity. cbn [m_method m_path m_query m_fragment HttpRequest.m_body HttpRequest.setBody].
  do 5 (split; [assumption || reflexivity|]). split.
  - intros key. apply received_find, Hok.
  - intros Hw. rewrite <- (received_init r Hok Hw). unfold q, HttpRequest.init, HttpRequest.getHeader.
    cbn [HttpRequest.m_headers HttpRequest.setBody]. destruct (bool_decide _); [reflexivity|].
    destruct (_ =? 0); reflexivity.
Qed.

Section receive.
Context {S : Type} {I : Stream S ascii} {L : ByteStream I} (HD : delivers L) (s_close : M S unit).
Context {HA : HttpAutomaton} {LC : LexicalCast Z} (Hreads : reads_requests HA) (Hcast : casts_decimals LC).

(** The length that the headers of a request announce. *)
Definition announced (r : HttpRequest) : Z := i64 (HttpRequest.getHeaderAs r "content-length" 0).

Lemma announced_received r hst :
  map_ok (HttpRequest.m_headers r) -> slength (HttpRequest.m_body r) < 2 ^ 31 ->
  i64 (getContentLenght (mkRequestParser hst (received r) 0))
  = if bool_decide (HttpRequest.m_body r = "") then announced r else slength (HttpRequest.m_body r).
Proof.
  intros Hok Hlen. unfold announced, getContentLenght, HttpRequest.getHeaderAs, getAs. cbn [m_data].
  rewrite received_find by assumption. unfold arriving. case_bool_decide as E; cbn [negb andb].
  - rewrite (bool_decide_eq_false_2 (folded "content-length" = folded "connection")) by discriminate.
    rewrite andb_false_r. reflexivity.
  - rewrite bool_decide_eq_true_2 by reflexivity. unfold slength in *.
    rewrite Hcast, i64_small by lia. reflexivity.
Qed.

(** Without a body the buffer is dropped. *)
Lemma recv_body_empty r hst (data : list ascii) offset st :
  map_ok (HttpRequest.m_headers r) -> HttpRequest.m_body r = "" -> announced r <= 0 ->
  recv_body s_close (mkRequestParser hst (received r) 0) data offset st
  = (st, Ret (Some (HttpRequest.init (HttpRequest.setBody (HttpRequest.m_body r) (received r))))).
Proof.
  intros Hok E Ha. unfold recv_body. rewrite announced_received by (rewrite ?E; done || exact Hok).
  rewrite bool_decide_eq_true_2, (proj2 (Z.ltb_ge _ _)), E by assumption.
  unfold cret. do 4 f_equal. unfold received. rewrite put_lines_rest. reflexivity.
Qed.

(** The buffer holds the body and more: the rest of it is dropped. *)
Lemma recv_body_over r hst (data extra : list ascii) st :
  map_ok (HttpRequest.m_headers r) -> HttpRequest.m_body r <> "" ->
  let part := chars (HttpRequest.m_body r) ++ extra in
  zlen part < 2 ^ 31 -> slice 0 (zlen part) data = part -> extra <> [] ->
  recv_body s_close (mkRequestParser hst (received r) 0) data (zlen part) st
  = (st, Ret (Some (HttpRequest.init (HttpRequest.setBody (HttpRequest.m_body r) (received r))))).
Proof.
  intros Hok E part Hlen Hd Hx.
  assert (Hz : zlen (chars (HttpRequest.m_body r)) = slength (HttpRequest.m_body r))
    by (unfold zlen, slength; rewrite length_chars; reflexivity).
  assert (Hp : zlen part = slength (HttpRequest.m_body r) + zlen extra) by (unfold part; rewrite zlen_app; lia).
  assert (0 < zlen extra) by (destruct extra; [congruence|rewrite zlen_cons; pose proof (zlen_nonneg extra); lia]).
  pose proof (zlen_nonneg (chars (HttpRequest.m_body r))). unfold recv_body.
  rewrite announced_received, (bool_decide_eq_false_2 _ E) by (exact Hok || lia).
  assert (Hpos : 0 < slength (HttpRequest.m_body r))
    by (destruct (HttpRequest.m_body r); [congruence|unfold slength; simpl; lia]).
  rewrite (proj2 (Z.ltb_lt _ _) Hpos), (proj2 (Z.ltb_ge max_size _)) by (unfold max_size; lia).
  rewrite (proj2 (Z.leb_gt _ _)), i32_nat by lia.
  rewrite (swrap_id 64) by (unfold s_range; lia). rewrite (proj2 (Z.ltb_ge 0 _)) by lia.
  assert (Hs : slice 0 (slength (HttpRequest.m_body r)) data = chars (HttpRequest.m_body r)).
  { rewrite <- (slice_prefix 0 _ (zlen part)) by lia. rewrite Hd. unfold part. rewrite <- Hz.
    unfold slice, zlen. simpl. rewrite Nat2Z.id. apply take_app_length. }
  rewrite Hs, overlay_all by (unfold zlen, slength; rewrite length_replicate, length_chars; lia).
  rewrite string_of_list_ascii_of_string. reflexivity.
Qed.

(** The body, of which [part] is in the buffer and the rest on the stream. *)
Lemma recv_body_ok r hst (data : list ascii) part more rest st :
  map_ok (HttpRequest.m_headers r) -> HttpRequest.m_body r <> "" ->
  HttpRequest.m_body r = string_of_list_ascii (part ++ more) ->
  slength (HttpRequest.m_body r) < 2 ^ 31 -> slice 0 (zlen part) data = part ->
  incoming st = more ++ rest ->
  exists st', recv_body s_close (mkRequestParser hst (received r) 0) data (zlen part) st
      = (st', Ret (Some (HttpRequest.init (HttpRequest.setBody (HttpRequest.m_body r) (received r)))))
    /\ incoming st' = rest.
Proof.
  intros Hok E Hb Hlen Hd Hin.
  assert (Hz : slength (HttpRequest.m_body r) = zlen part + zlen more).
  { rewrite Hb. unfold slength. rewrite <- length_chars, list_ascii_of_string_of_list_ascii.
    unfold zlen. rewrite length_app. lia. }
  pose proof (zlen_nonneg part). pose proof (zlen_nonneg more). unfold recv_body.
  rewrite announced_received, (bool_decide_eq_false_2 _ E) by assumption.
  assert (Hpos : 0 < slength (HttpRequest.m_body r))
    by (destruct (HttpRequest.m_body r); [congruence|unfold slength; simpl; lia]).
  rewrite (proj2 (Z.ltb_lt _ _) Hpos), (proj2 (Z.ltb_ge max_size _)) by (unfold max_size; lia).
  rewrite (proj2 (Z.leb_le (zlen part) _)) by lia. rewrite Hd, i64_small by lia.
  rewrite Hz. replace (zlen part + zlen more - zlen part) with (zlen more) by lia.
  set (body1 := overlay 0 part (replicate (Z.to_nat (zlen part + zlen more)) NUL)).
  assert (Hb1 : body1 = part ++ replicate (length more) NUL).
  { unfold body1, overlay, zlen. simpl. rewrite drop_replicate. do 2 f_equal. lia. }
  destruct (Z.ltb_spec 0 (zlen more)) as [Hm|Hm].
  - rewrite Hb1. assert (Hn : Z.to_nat (zlen part) = length part) by (unfold zlen; lia).
    rewrite !Hn, drop_app_length, take_app_length.
    destruct (readFixSize_full HD (replicate (length more) NUL) (zlen more) st) as (st' & d & R & E1 & E2).
    { unfold zlen. rewrite length_replicate. lia. }
    { lia. }
    { unfold zlen in *. rewrite length_replicate. lia. }
    { rewrite Hin, zlen_app. pose proof (zlen_nonneg rest). lia. }
    rewrite (cbind_ret _ _ _ _ _ R). cbn [fst snd]. rewrite (proj2 (Z.leb_gt _ _) Hm).
    rewrite overlay_all by (rewrite E2; unfold zlen; rewrite length_replicate; reflexivity).
    rewrite Hin in E1. destruct (app_inj_1 more d rest (incoming st')) as [<- Er];
      [unfold zlen in E2; lia|exact E1|].
    exists st'. rewrite <- Hb. split; [reflexivity|symmetry; exact Er].
  - assert (more = []) as -> by (destruct more; [reflexivity|rewrite zlen_cons in *; pose proof (zlen_nonneg more); lia]).
    exists st. rewrite Hb1. simpl. rewrite Hb. split; [reflexivity|exact Hin].
Qed.

(** All three: what is read beyond the body is lost. *)
Lemma recv_body_all r hst (data : list ascii) part rest st :
  map_ok (HttpRequest.m_headers r) -> (HttpRequest.m_body r = "" -> announced r <= 0) ->
  slength (HttpRequest.m_body r) < 2 ^ 31 -> zlen part < 2 ^ 31 -> slice 0 (zlen part) data = part ->
  chars (HttpRequest.m_body r) ++ rest = part ++ incoming st ->
  exists st', recv_body s_close (mkRequestParser hst (received r) 0) data (zlen part) st
      = (st', Ret (Some (HttpRequest.init (HttpRequest.setBody (HttpRequest.m_body r) (received r)))))
    /\ incoming st' = drop (Z.to_nat (zlen part - slength (HttpRequest.m_body r))) rest.
Proof.
  intros Hok Ha Hlen Hp Hd Hin.
  assert (Hz : zlen (chars (HttpRequest.m_body r)) = slength (HttpRequest.m_body r))
    by (unfold zlen, slength; rewrite length_chars; reflexivity).
  destruct (decide (HttpRequest.m_body r = "")) as [E|E].
  { exists st. rewrite recv_body_empty by auto. split; [reflexivity|].
    rewrite E in *. simpl in Hin. rewrite Hin, Z.sub_0_r. unfold zlen. rewrite Nat2Z.id, drop_app_length. reflexivity. }
  destruct (Z.le_gt_cases (zlen part) (slength (HttpRequest.m_body r))) as [Hle|Hgt].
  - destruct (prefix_split [] (chars (HttpRequest.m_body r)) rest part (incoming st)) as (part' & more & -> & Eb & Ei);
      [unfold zlen; simpl; lia|unfold zlen in *; simpl in *; lia|exact Hin|]. simpl in *.
    destruct (recv_body_ok r hst data part' more rest st) as (st' & R & Hi); auto.
    { rewrite <- Eb. symmetry. apply string_of_list_ascii_of_string. }
    exists st'. split; [exact R|]. rewrite Hi. replace (Z.to_nat _) with 0%nat by lia. reflexivity.
  - destruct (prefix_split (chars (HttpRequest.m_body r)) rest [] part (incoming st)) as (extra & more & -> & Er & Ei).
    { lia. }
    { apply (f_equal zlen) in Hin. rewrite !zlen_app in Hin. pose proof (zlen_nonneg (incoming st)). lia. }
    { rewrite (right_id_L [] (++)). exact Hin. }
    rewrite (right_id_L [] (++)) in Ei. exists st. rewrite zlen_app, Hz in *.
    rewrite <- Hz, <- zlen_app, recv_body_over; [|assumption..| | |].
    + split; [reflexivity|]. rewrite zlen_app, Hz, Er, Ei.
      replace (Z.to_nat _) with (length extra) by (unfold zlen; lia). rewrite drop_app_length. reflexivity.
    + rewrite zlen_app, Hz. exact Hp.
    + rewrite zlen_app, Hz. exact Hd.
    + intros ->. unfold zlen in Hgt. simpl in Hgt. lia.
Qed.

(** One round of the loop: the first read brings the head and [part]. *)
Lemma head_loop_ok r fuel bs (mem0 : list ascii) part st st1 :
  sendable r = true -> 0 < bs < 2 ^ 31 -> zlen mem0 = bs ->
  let d := chars (dump_head r) ++ part in
  s_read bs st = (st1, Ret (zlen d, d)) -> zlen d <= bs ->
  exists hst data, head_loop s_close (Datatypes.S fuel) bs HttpRequestParser_new mem0 0 st
      = (st1, Ret (Some (mkRequestParser hst (received r) 0, data, zlen part)))
    /\ slice 0 (zlen part) data = part.
Proof.
  intros Hs Hbs Hm d R Hle. cbn [head_loop]. rewrite Z.sub_0_r, u64_small by lia.
  rewrite (cbind_ret _ _ _ _ _ R). cbn [fst snd].
  assert (Hh : 0 < slength (dump_head r)).
  { unfold dump_head, request_text, slength. rewrite !length_append. change (String.length " ") with 1%nat. lia. }
  assert (Ed : zlen d = slength (dump_head r) + zlen part)
    by (unfold d; rewrite zlen_app; unfold slength; rewrite <- length_chars; reflexivity).
  pose proof (zlen_nonneg part). rewrite (proj2 (Z.leb_gt _ _)) by lia.
  rewrite Z.add_0_r, i32_nat by lia.
  set (text := (dump_head r ++ string_of_list_ascii part)%string).
  assert (Et : chars text = d)
    by (unfold text, d; rewrite chars_append, list_ascii_of_string_of_list_ascii; reflexivity).
  assert (El : slength text = zlen d) by (unfold slength; rewrite <- length_chars, Et; reflexivity).
  assert (Eo : overlay 0 d mem0 = chars text ++ drop (length d) mem0) by (rewrite Et; reflexivity).
  destruct (execute_head Hreads r (string_of_list_ascii part) (drop (length d) mem0) Hs) as (hst & Hx & He & Hf).
  fold text in Hx. rewrite El in Hx. rewrite Eo, Hx. unfold lift at 1.
  erewrite cbind_ret by reflexivity.
  unfold hasError, isFinished, http_parser_finish. cbn [m_parser m_error].
  rewrite He, Hf. cbn [Z.eqb negb orb]. replace (zlen d - slength (dump_head r)) with (zlen part) by lia.
  rewrite !i32_nat by lia. rewrite (proj2 (Z.eqb_neq _ _)) by lia.
  exists hst. eexists. split; [reflexivity|]. rewrite list_ascii_of_string_of_list_ascii.
  apply slice_overlay. pose proof (zlen_nonneg (chars text ++ drop (length d) mem0)). lia.
Qed.
End receive.

(** C25: A session receives the request a client has sent.  The text that
    [dump] writes and [rest] wait on the connection; the first read brings the
    whole head, and whatever of the body and of [rest] it may; what is missing of
    the body comes in any pieces.  Then [recvRequest] returns the request with its
    method, path, query, fragment, headers and body, with the sender's choice of
    [m_close].  Left to be read is [rest] without the bytes of it that came with
    the first read: those are lost, and exactly [rest] is left when the first read
    did not go beyond the request.  A request without a body may carry a
    content-length header if it does not announce a positive length. *)
Theorem session_receives_request {S} (I : Stream S ascii) (L : ByteStream I) s_close
    (HA : HttpAutomaton) (LC : LexicalCast Z) r fuel limits mem0 text rest st st1 d :
  delivers L -> reads_requests HA -> casts_decimals LC ->
  sendable r = true -> map_ok (HttpRequest.m_headers r) ->
  (HttpRequest.m_body r = "" -> announced r <= 0) ->
  slength (HttpRequest.m_body r) < 2 ^ 31 ->
  0 < GetHttpRequestBufferSize limits < 2 ^ 31 -> zlen mem0 = GetHttpRequestBufferSize limits ->
  HttpRequest.dump r = Ret text -> incoming st = chars text ++ rest ->
  s_read (GetHttpRequestBufferSize limits) st = (st1, Ret (zlen d, d)) ->
  slength text - slength (HttpRequest.m_body r) <= zlen d ->
  exists st' q, recvRequest s_close (Datatypes.S fuel) limits mem0 st = (st', Ret (Some q))
    /\ incoming st' = drop (Z.to_nat (zlen d - slength text)) rest
    /\ m_method q = m_method r /\ m_path q = m_path r /\ m_query q = m_query r
    /\ m_fragment q = m_fragment r /\ HttpRequest.m_body q = HttpRequest.m_body r
    /\ (forall key, find (HttpRequest.m_headers q) key = arriving r key)
    /\ (HttpRequest.m_websocket r = false -> HttpRequest.m_close q = HttpRequest.m_close r).
Proof.
  intros HD Hreads Hcast Hs Hok Hcl Hlen Hbs Hmem Hdump Hin R Hd.
  rewrite (dump_is_text r Hs) in Hdump. injection Hdump as <-.
  set (bs := GetHttpRequestBufferSize limits) in *.
  destruct (read_law bs st ltac:(lia)) as (st1' & rt & d' & R' & H1 & H2 & H3 & H4 & _).
  rewrite R in R'. injection R' as <- <- <-.
  rewrite Hin, dump_text_split, chars_append, <- (assoc_L (++)) in H4.
  assert (Eh : zlen (chars (dump_head r)) = slength (dump_head r)) by (unfold zlen, slength; rewrite length_chars; reflexivity).
  rewrite dump_text_split, slength_append in Hd |- *.
  destruct (prefix_split (chars (dump_head r)) (chars (HttpRequest.m_body r) ++ rest) [] d (incoming st1))
    as (part & more & -> & Ebody & Ei).
  { lia. }
  { apply (f_equal zlen) in H4. rewrite !zlen_app in *. pose proof (zlen_nonneg (incoming st1)). lia. }
  { rewrite (right_id_L [] (++)). exact H4. }
  rewrite (right_id_L [] (++)) in Ei. subst more. pose proof (zlen_nonneg (chars (dump_head r))).
  destruct (head_loop_ok s_close Hreads r fuel bs mem0 part st st1 Hs ltac:(lia) Hmem R ltac:(lia))
    as (hst & data & Rh & Hsl).
  rewrite zlen_app, Eh in *.
  destruct (recv_body_all HD s_close Hcast r hst data part rest st1) as (st' & Rb & Hi'); auto; [lia|].
  exists st', (HttpRequest.init (HttpRequest.setBody (HttpRequest.m_body r) (received r))).
  split; [unfold recvRequest; fold bs; rewrite (cbind_ret _ _ _ _ _ Rh); exact Rb|].
  split; [rewrite Hi'; do 2 f_equal; lia|]. apply init_received; assumption.
Qed.

(** ** A connection that delivers [n] bytes at a time *)

Definition chunk_stream (n : Z) : Stream (list ascii) ascii := {|
  s_read len st := (drop (Z.to_nat (Z.min n len)) st,
                    Ret (zlen (take (Z.to_nat (Z.min n len)) st), take (Z.to_nat (Z.min n len)) st));
  s_write data st := (st, Ret 0)
|}.

Definition chunk_stream_laws (n : Z) (Hn : 0 < n < 2 ^ 31) : ByteStream (chunk_stream n).
Proof.
  refine {| incoming := fun st : list ascii => st; outgoing := fun _ => [] |}.
  - intros len st Hl. eexists _, _, _. split; [reflexivity|]. rewrite take_drop.
    unfold zlen. rewrite length_take. repeat split; lia.
  - intros data st _. eexists _, _. split; [reflexivity|]. unfold zlen. repeat split; simpl; lia.
Defined.

Lemma chunk_stream_delivers n Hn : delivers (chunk_stream_laws n Hn).
Proof.
  intros len st st' rt d Hl Hne E. injection E as _ <- _. simpl in Hne.
  unfold zlen. rewrite length_take. destruct st; [congruence|]. simpl. lia.
Qed.

Definition sample_text : string := Eval vm_compute in
  match HttpRequest.dump sample_request with Ret s => s | _ => "" end.

Lemma session_receives_request_witness :
  exists st' q,
    recvRequest (I := chunk_stream (slength sample_text - 3)) (HA := grammar_automaton) (LC := decimal_cast)
      (cret tt) 1 HttpLimits_init (replicate 4096 NUL) (chars sample_text ++ chars "GET") = (st', Ret (Some q))
    /\ st' = chars "GET" /\ HttpRequest.m_body q = "hello".
Proof.
  set (n := slength sample_text - 3).
  assert (Hn : 0 < n < 2 ^ 31) by (vm_compute; split; reflexivity).
  destruct (session_receives_request (chunk_stream n) (chunk_stream_laws n Hn) (cret tt)
    grammar_automaton decimal_cast sample_request 0 HttpLimits_init (replicate 4096 NUL) sample_text
    (chars "GET") (chars sample_text ++ chars "GET")
    (drop (Z.to_nat n) (chars sample_text ++ chars "GET"))
    (take (Z.to_nat n) (chars sample_text ++ chars "GET")))
    as (st' & q & R & Hi & _ & _ & _ & _ & Hb & _).
  - apply chunk_stream_delivers.
  - exact grammar_automaton_reads.
  - exact decimal_cast_casts.
  - vm_compute. reflexivity.
  - repeat constructor.
  - discriminate.
  - vm_compute. reflexivity.
  - vm_compute. split; reflexivity.
  - vm_compute. reflexivity.
  - vm_compute. reflexivity.
  - reflexivity.
  - vm_compute. reflexivity.
  - vm_compute. congruence.
  - exists st', q. split; [exact R|]. split; [exact Hi|exact Hb].
Defined.

(** Two requests that come with one read: the second one is lost. *)
Theorem pipelined_request_lost :
  (recvRequest (I := chunk_stream 4096) (HA := grammar_automaton) (LC := decimal_cast)
     (cret tt) 1 HttpLimits_init (replicate 4096 NUL) (chars sample_text ++ chars sample_text)).1 = [].
Proof. vm_compute. reflexivity. Qed.
