(* ===== verification/Uri.v ===== *)
(** * Uri: the parts of a resource identifier (sylar/uri.h, the end of
    sylar/uri.cpp)

    The record and its accessors.  The lookup of a host name is a parameter of
    [createAddress]: it asks the resolver. *)

From Stdlib Require Import ZArith Lia Ascii String List.
From stdpp Require Import base list strings.
From S2P Require Import Prelude Ordered CString.

Local Open Scope string_scope.
Local Open Scope Z_scope.

Record Uri : Type := mkUri {
  m_scheme : string;
  m_userinfo : string;
  m_host : string;
  m_path : string;
  m_query : string;
  m_fragment : string;
  m_port : Z
}.

Definition Uri_new : Uri := mkUri "" "" "" "" "" "" 0.

Definition setScheme (v : string) (u : Uri) : Uri :=
  mkUri v (m_userinfo u) (m_host u) (m_path u) (m_query u) (m_fragment u) (m_port u).
Definition setUserinfo (v : string) (u : Uri) : Uri :=
  mkUri (m_scheme u) v (m_host u) (m_path u) (m_query u) (m_fragment u) (m_port u).
Definition setHost (v : string) (u : Uri) : Uri :=
  mkUri (m_scheme u) (m_userinfo u) v (m_path u) (m_query u) (m_fragment u) (m_port u).
Definition setPath (v : string) (u : Uri) : Uri :=
  mkUri (m_scheme u) (m_userinfo u) (m_host u) v (m_query u) (m_fragment u) (m_port u).
Definition setQuery (v : string) (u : Uri) : Uri :=
  mkUri (m_scheme u) (m_userinfo u) (m_host u) (m_path u) v (m_fragment u) (m_port u).
Definition setFragment (v : string) (u : Uri) : Uri :=
  mkUri (m_scheme u) (m_userinfo u) (m_host u) (m_path u) (m_query u) v (m_port u).
Definition setPort (v : Z) (u : Uri) : Uri :=
  mkUri (m_scheme u) (m_userinfo u) (m_host u) (m_path u) (m_query u) (m_fragment u) v.

Definition isDefaultPort (u : Uri) : bool :=
  if m_port u =? 0 then true
  else if bool_decide (m_scheme u = "http") || bool_decide (m_scheme u = "ws") then m_port u =? 80
  else if bool_decide (m_scheme u = "https") || bool_decide (m_scheme u = "wss") then m_port u =? 443
  else false.

Definition getPath (u : Uri) : string := if bool_decide (m_path u = "") then "/" else m_path u.

Definition getPort (u : Uri) : Z :=
  if negb (m_port u =? 0) then m_port u
  else if bool_decide (m_scheme u = "http") || bool_decide (m_scheme u = "ws") then 80
  else if bool_decide (m_scheme u = "https") || bool_decide (m_scheme u = "wss") then 443
  else m_port u.

(** [std::to_string(int)] *)
Definition to_string (v : Z) : string := if v <? 0 then "-" ++ dec (- v) else dec v.

(** [s.empty() ? "" : mark] followed by [s]. *)
Definition after (mark s : string) : string := (if bool_decide (s = "") then "" else mark) ++ s.

Definition dump (u : Uri) : string :=
  m_scheme u ++ "://" ++ m_userinfo u ++ (if bool_decide (m_userinfo u = "") then "" else "@")
  ++ m_host u ++ (if isDefaultPort u then "" else ":" ++ to_string (m_port u))
  ++ getPath u ++ after "?" (m_query u) ++ after "#" (m_fragment u).

Definition toString (u : Uri) : string := dump u.

Section address.
(** [Address::LookupAnyIPAddress] and [IPAddress::setPort]. *)
Context {A : Type} (LookupAnyIPAddress : string -> option A) (addr_setPort : Z -> A -> A).

Definition createAddress (u : Uri) : option A :=
  match LookupAnyIPAddress (m_host u) with
  | Some a => Some (addr_setPort (u16 (getPort u)) a)
  | None => None
  end.
End address.
