(* ===== verification/UriMachine.v ===== *)
(** * The goto machine of Uri::Create (sylar/uri.cpp)

    uri.cpp carries the automaton that was generated from uri.rl as goto code.
    Its pieces are data here, one entry per label: [St n] is the code from the
    label [stn] (case [n]) to its last goto, a switch on the character and then
    nested comparisons, of which those that are not decided fall through; [Tr n]
    is the label [trn] with its actions.  [*p] is a signed char.  The tables are
    in UriStates1.v and UriStates2.v, in the order of the source. *)

From Stdlib Require Import ZArith Lia Ascii String List.
From stdpp Require Import base list strings.
From S2P Require Import Prelude Ordered CString Uri.

Local Open Scope Z_scope.
Local Open Scope list_scope.

Inductive action : Type :=
  | marku | markh | save_scheme | save_port | save_userinfo | save_host
  | save_path | save_query | save_fragment.

Inductive label : Type := st (n : Z) | tr (n : Z).

(** Comparisons of [*p]: [<], [>], [>=], [==] and the range test. *)
Inductive cond : Type := Below (n : Z) | Above (n : Z) | AtLeast (n : Z) | Is (n : Z) | Within (a b : Z).

Inductive test : Type := Go (l : label) | Fall | If (c : cond) (yes no : test).

Inductive entry : Type :=
  | St (n : Z) (switch : list (Z * label)) (body : list test)
  | Tr (n : Z) (actions : list action) (target : Z)
  | Eof (states : list Z) (actions : list action).

(** A plain [char]. *)
Definition schar (c : ascii) : Z := swrap 8 (code c).

Definition holds (c : cond) (ch : Z) : bool :=
  match c with
  | Below n => ch <? n
  | Above n => n <? ch
  | AtLeast n => n <=? ch
  | Is n => ch =? n
  | Within a b => (a <=? ch) && (ch <=? b)
  end.

Fixpoint decide_test (t : test) (ch : Z) : option label :=
  match t with
  | Go l => Some l
  | Fall => None
  | If c yes no => if holds c ch then decide_test yes ch else decide_test no ch
  end.

Fixpoint run_body (body : list test) (ch : Z) : option label :=
  match body with
  | [] => None
  | t :: r => match decide_test t ch with Some l => Some l | None => run_body r ch end
  end.

Fixpoint run_switch (switch : list (Z * label)) (ch : Z) : option label :=
  match switch with
  | [] => None
  | (v, l) :: r => if ch =? v then Some l else run_switch r ch
  end.

(** Where the code of a state goes on a character. *)
Definition run_state (code : list (Z * label) * list test) (ch : Z) : option label :=
  match run_switch code.1 ch with Some l => Some l | None => run_body code.2 ch end.

Section machine.
Context (program : list entry).

Fixpoint find_st (p : list entry) (n : Z) : option (list (Z * label) * list test) :=
  match p with
  | [] => None
  | St k sw b :: r => if k =? n then Some (sw, b) else find_st r n
  | _ :: r => find_st r n
  end.

Fixpoint find_tr (p : list entry) (n : Z) : option (list action * Z) :=
  match p with
  | [] => None
  | Tr k acts target :: r => if k =? n then Some (acts, target) else find_tr r n
  | _ :: r => find_tr r n
  end.

(** A state without actions at the end has no case in that switch. *)
Fixpoint find_eof (p : list entry) (n : Z) : list action :=
  match p with
  | [] => []
  | Eof l acts :: r => if existsb (Z.eqb n) l then acts else find_eof r n
  | _ :: r => find_eof r n
  end.

(** The actions on the way to the next state. *)
Definition follow (l : label) : option (list action * Z) :=
  match l with st n => Some ([], n) | tr n => find_tr program n end.

Definition move (cs : Z) (ch : Z) : option (list action * Z) :=
  match find_st program cs with
  | None => None
  | Some c => match run_state c ch with Some l => follow l | None => None end
  end.

(** ** The actions *)

(** [mark] is null or a position in the text. *)
Definition Marked : Type := option nat * Uri.

(** [uri->set(std::string(mark, p - mark)); mark = NULL]; no string is made from
    a null pointer. *)
Definition save (set : string -> Uri -> Uri) (buf : list ascii) (p : nat) (x : Marked) : outcome Marked :=
  match x.1 with
  | None => Undef NullDeref
  | Some m => Ret (None, set (string_of_mem (drop m buf) (p - m)) x.2)
  end.

Definition do_action (buf : list ascii) (p : nat) (x : Marked) (a : action) : outcome Marked :=
  match a with
  | marku | markh => Ret (Some p, x.2)
  | save_scheme => save setScheme buf p x
  | save_port =>
      match x.1 with
      | None => Undef NullDeref
      | Some m => if Nat.eqb p m then Ret (None, x.2)
                  else obind (atoi (drop m buf ++ [NUL])) (fun v => Ret (None, setPort v x.2))
      end
  | save_userinfo => match x.1 with None => Ret (None, x.2) | Some _ => save setUserinfo buf p x end
  | save_host =>
      match x.1 with
      | None => Ret x
      | Some m => Ret (x.1, setHost (string_of_mem (drop m buf) (p - m)) x.2)
      end
  | save_path => save setPath buf p x
  | save_query => save setQuery buf p x
  | save_fragment => save setFragment buf p x
  end.

Fixpoint do_actions (buf : list ascii) (p : nat) (acts : list action) (x : Marked) : outcome Marked :=
  match acts with
  | [] => Ret x
  | a :: r => obind (do_action buf p x a) (do_actions buf p r)
  end.

(** The loop from [p] on; state 0 leaves it at once. *)
Fixpoint exec (buf : list ascii) (p : nat) (rest : list ascii) (cs : Z) (x : Marked) : outcome (Z * Marked) :=
  match rest with
  | [] => obind (do_actions buf p (find_eof program cs) x) (fun x' => Ret (cs, x'))
  | c :: r =>
      match move cs (schar c) with
      | None => Undef FuelExhausted
      | Some (acts, cs') =>
          obind (do_actions buf p acts x) (fun x' =>
          if cs' =? 0 then Ret (0, x') else exec buf (S p) r cs' x')
      end
  end.

Definition uri_parser_start : Z := 451.
Definition uri_parser_first_final : Z := 451.
Definition uri_parser_error : Z := 0.

Definition Create (uristr : string) : outcome (option Uri) :=
  let buf := list_ascii_of_string uristr in
  obind (exec buf 0 buf uri_parser_start (None, Uri_new)) (fun r =>
  if r.1 =? uri_parser_error then Ret None
  else if uri_parser_first_final <=? r.1 then Ret (Some r.2.2) else Ret None).
End machine.
