(* ===== verification/UriStates1.v ===== *)
(** * The states of Uri::Create, part 1 of 2 (sylar/uri.cpp, lines 35 to 6122)

    One table for each stretch of the goto code, with its labels in their order;
    see UriMachine.v. *)

From Stdlib Require Import ZArith List.
From S2P Require Import UriMachine.
Import ListNotations.

Local Open Scope Z_scope.
Local Open Scope list_scope.

Definition uri_code_1 : list entry := [
    St 451 [(34, st 0); (35, st 453); (37, st 3); (47, st 458); (58, st 0); (60, st 0); (62, st 0);
      (63, st 456); (96, st 0); (127, st 0)] [If (Below 91) (If (Above 32) (If (Within 65 90) (Go (tr 461))
      Fall) (If (AtLeast 0) (Go (st 0)) Fall)) (If (Above 94) (If (Above 122) (If (Within 123 125)
      (Go (st 0)) Fall) (If (AtLeast 97) (Go (tr 461)) Fall)) (Go (st 0))); Go (st 452)];
    St 452 [(34, st 0); (35, st 453); (37, st 3); (47, st 455); (58, st 0); (60, st 0); (62, st 0);
      (63, st 456); (96, st 0); (127, st 0)] [If (Below 91) (If (Within 0 32) (Go (st 0)) Fall)
      (If (Above 94) (If (Within 123 125) (Go (st 0)) Fall) (Go (st 0))); Go (st 452)];
    Tr 467 [marku; save_query] 453;
    Tr 469 [save_query] 453;
    Tr 474 [markh; save_host] 453;
    Tr 485 [save_host] 453;
    Tr 489 [markh; save_port] 453;
    Tr 493 [save_port] 453
].

Definition uri_code_2 : list entry := [
    Tr 548 [markh; save_host; save_path] 453;
    Tr 559 [save_host; markh; save_path] 453;
    Tr 563 [save_path] 453;
    Tr 566 [markh; save_port; save_path] 453;
    Tr 570 [save_port; markh; save_path] 453;
    St 453 [(37, tr 463); (60, st 0); (62, st 0); (96, st 0); (127, st 0)] [If (Below 34) (If (Within 0 32)
      (Go (st 0)) Fall) (If (Above 35) (If (Above 94) (If (Within 123 125) (Go (st 0)) Fall)
      (If (AtLeast 91) (Go (st 0)) Fall)) (Go (st 0))); Go (tr 462)];
    Tr 462 [marku] 454;
    St 454 [(37, st 1); (60, st 0); (62, st 0); (96, st 0); (127, st 0)] [If (Below 34) (If (Within 0 32)
      (Go (st 0)) Fall) (If (Above 35) (If (Above 94) (If (Within 123 125) (Go (st 0)) Fall)
      (If (AtLeast 91) (Go (st 0)) Fall)) (Go (st 0))); Go (st 454)];
    Tr 463 [marku] 1
].

Definition uri_code_3 : list entry := [
    St 1 [] [If (Below 65) (If (Within 48 57) (Go (st 2)) Fall) (If (Above 70) (If (Within 97 102)
      (Go (st 2)) Fall) (Go (st 2))); Go (st 0)];
    St 2 [] [If (Below 65) (If (Within 48 57) (Go (st 454)) Fall) (If (Above 70) (If (Within 97 102)
      (Go (st 454)) Fall) (Go (st 454))); Go (st 0)];
    St 3 [] [If (Below 65) (If (Within 48 57) (Go (st 4)) Fall) (If (Above 70) (If (Within 97 102)
      (Go (st 4)) Fall) (Go (st 4))); Go (st 0)];
    St 4 [] [If (Below 65) (If (Within 48 57) (Go (st 452)) Fall) (If (Above 70) (If (Within 97 102)
      (Go (st 452)) Fall) (Go (st 452))); Go (st 0)];
    Tr 476 [markh; save_host] 455;
    Tr 486 [save_host] 455;
    Tr 490 [markh; save_port] 455;
    Tr 494 [save_port] 455;
    St 455 [(34, st 0); (35, st 453); (37, st 5); (60, st 0); (62, st 0); (63, st 456); (96, st 0);
      (127, st 0)] [If (Below 91) (If (Within 0 32) (Go (st 0)) Fall) (If (Above 94) (If (Within 123 125)
      (Go (st 0)) Fall) (Go (st 0))); Go (st 455)];
    St 5 [] [If (Below 65) (If (Within 48 57) (Go (st 6)) Fall) (If (Above 70) (If (Within 97 102)
      (Go (st 6)) Fall) (Go (st 6))); Go (st 0)]
].

Definition uri_code_4 : list entry := [
    St 6 [] [If (Below 65) (If (Within 48 57) (Go (st 455)) Fall) (If (Above 70) (If (Within 97 102)
      (Go (st 455)) Fall) (Go (st 455))); Go (st 0)];
    Tr 482 [markh; save_host] 456;
    Tr 488 [save_host] 456;
    Tr 492 [markh; save_port] 456;
    Tr 496 [save_port] 456;
    Tr 556 [markh; save_host; save_path] 456;
    Tr 562 [save_host; markh; save_path] 456;
    Tr 565 [save_path] 456;
    Tr 569 [markh; save_port; save_path] 456;
    Tr 573 [save_port; markh; save_path] 456
].

Definition uri_code_5 : list entry := [
    St 456 [(34, st 0); (35, tr 467); (37, tr 468); (60, st 0); (62, st 0); (96, st 0); (127, st 0)]
      [If (Below 91) (If (Within 0 32) (Go (st 0)) Fall) (If (Above 94) (If (Within 123 125) (Go (st 0))
      Fall) (Go (st 0))); Go (tr 466)];
    Tr 466 [marku] 457;
    St 457 [(34, st 0); (35, tr 469); (37, st 7); (60, st 0); (62, st 0); (96, st 0); (127, st 0)]
      [If (Below 91) (If (Within 0 32) (Go (st 0)) Fall) (If (Above 94) (If (Within 123 125) (Go (st 0))
      Fall) (Go (st 0))); Go (st 457)];
    Tr 468 [marku] 7;
    St 7 [] [If (Below 65) (If (Within 48 57) (Go (st 8)) Fall) (If (Above 70) (If (Within 97 102)
      (Go (st 8)) Fall) (Go (st 8))); Go (st 0)];
    St 8 [] [If (Below 65) (If (Within 48 57) (Go (st 457)) Fall) (If (Above 70) (If (Within 97 102)
      (Go (st 457)) Fall) (Go (st 457))); Go (st 0)];
    St 458 [(34, st 0); (35, st 453); (37, st 5); (47, st 459); (60, st 0); (62, st 0); (63, st 456);
      (96, st 0); (127, st 0)] [If (Below 91) (If (Within 0 32) (Go (st 0)) Fall) (If (Above 94)
      (If (Within 123 125) (Go (st 0)) Fall) (Go (st 0))); Go (st 455)]
].

Definition uri_code_6 : list entry := [
    St 459 [(2, tr 472); (33, tr 473); (35, tr 474); (37, tr 475); (47, tr 476); (48, tr 477); (49, tr 478);
      (50, tr 479); (58, tr 481); (59, tr 473); (61, tr 473); (63, tr 482); (64, tr 483); (91, tr 484);
      (95, tr 473); (126, tr 473)] [If (Below 51) (If (Within 36 46) (Go (tr 473)) Fall) (If (Above 57)
      (If (Above 90) (If (Within 97 122) (Go (tr 473)) Fall) (If (AtLeast 65) (Go (tr 473)) Fall))
      (Go (tr 480))); Go (st 0)];
    Tr 472 [markh] 9;
    St 9 [] [If (Within 48 52) (Go (st 10)) Fall; Go (st 0)];
    St 10 [] [If (Within 48 57) (Go (st 11)) Fall; Go (st 0)];
    St 11 [] [If (Is 46) (Go (st 12)) Fall; Go (st 0)];
    St 12 [(2, st 13); (48, st 15); (49, st 27); (50, st 29)] [If (Within 51 57) (Go (st 28)) Fall; Go (st
      0)];
    St 13 [] [If (Within 48 52) (Go (st 14)) Fall; Go (st 0)];
    St 14 [] [If (Within 48 57) (Go (st 15)) Fall; Go (st 0)];
    St 15 [] [If (Is 46) (Go (st 16)) Fall; Go (st 0)];
    St 16 [(2, st 17); (48, st 19); (49, st 23); (50, st 25)] [If (Within 51 57) (Go (st 24)) Fall; Go (st
      0)];
    St 17 [] [If (Within 48 52) (Go (st 18)) Fall; Go (st 0)];
    St 18 [] [If (Within 48 57) (Go (st 19)) Fall; Go (st 0)]
].

Definition uri_code_7 : list entry := [
    St 19 [] [If (Is 46) (Go (st 20)) Fall; Go (st 0)];
    St 20 [(2, st 21); (48, st 460); (49, st 463); (50, st 465)] [If (Within 51 57) (Go (st 464)) Fall; Go
      (st 0)];
    St 21 [] [If (Within 48 52) (Go (st 22)) Fall; Go (st 0)];
    St 22 [] [If (Within 48 57) (Go (st 460)) Fall; Go (st 0)];
    St 460 [(35, tr 485); (47, tr 486); (58, tr 487); (63, tr 488)] [Go (st 0)];
    Tr 507 [markh; save_host] 461;
    Tr 487 [save_host] 461;
    St 461 [(35, tr 489); (47, tr 490); (63, tr 492)] [If (Within 48 57) (Go (tr 491)) Fall; Go (st 0)];
    Tr 491 [markh] 462;
    St 462 [(35, tr 493); (47, tr 494); (63, tr 496)] [If (Within 48 57) (Go (st 462)) Fall; Go (st 0)];
    St 463 [(35, tr 485); (47, tr 486); (58, tr 487); (63, tr 488)] [If (Within 48 57) (Go (st 464)) Fall;
      Go (st 0)];
    St 464 [(35, tr 485); (47, tr 486); (58, tr 487); (63, tr 488)] [If (Within 48 57) (Go (st 460)) Fall;
      Go (st 0)]
].

Definition uri_code_8 : list entry := [
    St 465 [(35, tr 485); (47, tr 486); (53, st 466); (58, tr 487); (63, tr 488)] [If (Within 48 57)
      (Go (st 460)) Fall; Go (st 0)];
    St 466 [(35, tr 485); (47, tr 486); (58, tr 487); (63, tr 488)] [If (Within 48 53) (Go (st 460)) Fall;
      Go (st 0)];
    St 23 [] [If (Is 46) (Go (st 20)) Fall; If (Within 48 57) (Go (st 24)) Fall; Go (st 0)];
    St 24 [] [If (Is 46) (Go (st 20)) Fall; If (Within 48 57) (Go (st 19)) Fall; Go (st 0)];
    St 25 [(46, st 20); (53, st 26)] [If (Within 48 57) (Go (st 19)) Fall; Go (st 0)];
    St 26 [] [If (Is 46) (Go (st 20)) Fall; If (Within 48 53) (Go (st 19)) Fall; Go (st 0)];
    St 27 [] [If (Is 46) (Go (st 16)) Fall; If (Within 48 57) (Go (st 28)) Fall; Go (st 0)];
    St 28 [] [If (Is 46) (Go (st 16)) Fall; If (Within 48 57) (Go (st 15)) Fall; Go (st 0)];
    St 29 [(46, st 16); (53, st 30)] [If (Within 48 57) (Go (st 15)) Fall; Go (st 0)];
    St 30 [] [If (Is 46) (Go (st 16)) Fall; If (Within 48 53) (Go (st 15)) Fall; Go (st 0)];
    Tr 473 [markh] 467
].

Definition uri_code_9 : list entry := [
    St 467 [(33, st 467); (35, tr 485); (37, st 31); (47, tr 486); (58, tr 499); (61, st 467); (63, tr 488);
      (64, tr 38); (95, st 467); (126, st 467)] [If (Below 65) (If (Within 36 59) (Go (st 467)) Fall)
      (If (Above 90) (If (Within 97 122) (Go (st 467)) Fall) (Go (st 467))); Go (st 0)];
    Tr 475 [markh] 31;
    St 31 [] [If (Below 65) (If (Within 48 57) (Go (st 32)) Fall) (If (Above 70) (If (Within 97 102)
      (Go (st 32)) Fall) (Go (st 32))); Go (st 0)];
    St 32 [] [If (Below 65) (If (Within 48 57) (Go (st 467)) Fall) (If (Above 70) (If (Within 97 102)
      (Go (st 467)) Fall) (Go (st 467))); Go (st 0)];
    Tr 481 [markh; save_host] 468;
    Tr 499 [save_host] 468;
    St 468 [(33, st 33); (35, tr 489); (37, st 34); (47, tr 490); (61, st 33); (63, tr 492); (64, tr 38);
      (95, st 33); (126, st 33)] [If (Below 58) (If (Above 46) (If (Within 48 57) (Go (tr 500)) Fall)
      (If (AtLeast 36) (Go (st 33)) Fall)) (If (Above 59) (If (Above 90) (If (Within 97 122) (Go (st 33))
      Fall) (If (AtLeast 65) (Go (st 33)) Fall)) (Go (st 33))); Go (st 0)]
].

Definition uri_code_10 : list entry := [
    St 33 [(33, st 33); (37, st 34); (61, st 33); (64, tr 38); (95, st 33); (126, st 33)] [If (Below 48)
      (If (Within 36 46) (Go (st 33)) Fall) (If (Above 59) (If (Above 90) (If (Within 97 122) (Go (st 33))
      Fall) (If (AtLeast 65) (Go (st 33)) Fall)) (Go (st 33))); Go (st 0)];
    St 34 [] [If (Below 65) (If (Within 48 57) (Go (st 35)) Fall) (If (Above 70) (If (Within 97 102)
      (Go (st 35)) Fall) (Go (st 35))); Go (st 0)];
    St 35 [] [If (Below 65) (If (Within 48 57) (Go (st 33)) Fall) (If (Above 70) (If (Within 97 102)
      (Go (st 33)) Fall) (Go (st 33))); Go (st 0)];
    Tr 38 [save_userinfo] 469;
    Tr 483 [markh; save_userinfo] 469;
    St 469 [(2, tr 472); (33, tr 501); (35, tr 474); (37, tr 502); (47, tr 476); (48, tr 503); (49, tr 504);
      (50, tr 505); (58, tr 507); (59, tr 501); (61, tr 501); (63, tr 482); (91, tr 484); (95, tr 501);
      (126, tr 501)] [If (Below 51) (If (Within 36 46) (Go (tr 501)) Fall) (If (Above 57) (If (Above 90)
      (If (Within 97 122) (Go (tr 501)) Fall) (If (AtLeast 65) (Go (tr 501)) Fall)) (Go (tr 506))); Go (st
      0)];
    Tr 501 [markh] 470
].

Definition uri_code_11 : list entry := [
    St 470 [(33, st 470); (35, tr 485); (37, st 36); (47, tr 486); (58, tr 487); (61, st 470); (63, tr 488);
      (95, st 470); (126, st 470)] [If (Below 65) (If (Within 36 59) (Go (st 470)) Fall) (If (Above 90)
      (If (Within 97 122) (Go (st 470)) Fall) (Go (st 470))); Go (st 0)];
    Tr 502 [markh] 36;
    St 36 [] [If (Below 65) (If (Within 48 57) (Go (st 37)) Fall) (If (Above 70) (If (Within 97 102)
      (Go (st 37)) Fall) (Go (st 37))); Go (st 0)];
    St 37 [] [If (Below 65) (If (Within 48 57) (Go (st 470)) Fall) (If (Above 70) (If (Within 97 102)
      (Go (st 470)) Fall) (Go (st 470))); Go (st 0)];
    Tr 503 [markh] 471;
    St 471 [(33, st 470); (35, tr 485); (37, st 36); (46, st 472); (47, tr 486); (58, tr 487); (61, st 470);
      (63, tr 488); (95, st 470); (126, st 470)] [If (Below 65) (If (Within 36 59) (Go (st 470)) Fall)
      (If (Above 90) (If (Within 97 122) (Go (st 470)) Fall) (Go (st 470))); Go (st 0)]
].

Definition uri_code_12 : list entry := [
    St 472 [(2, st 13); (33, st 470); (35, tr 485); (37, st 36); (47, tr 486); (48, st 473); (49, st 481);
      (50, st 483); (58, tr 487); (59, st 470); (61, st 470); (63, tr 488); (95, st 470); (126, st 470)]
      [If (Below 51) (If (Within 36 46) (Go (st 470)) Fall) (If (Above 57) (If (Above 90)
      (If (Within 97 122) (Go (st 470)) Fall) (If (AtLeast 65) (Go (st 470)) Fall)) (Go (st 482))); Go (st
      0)];
    St 473 [(33, st 470); (35, tr 485); (37, st 36); (46, st 474); (47, tr 486); (58, tr 487); (61, st 470);
      (63, tr 488); (95, st 470); (126, st 470)] [If (Below 65) (If (Within 36 59) (Go (st 470)) Fall)
      (If (Above 90) (If (Within 97 122) (Go (st 470)) Fall) (Go (st 470))); Go (st 0)];
    St 474 [(2, st 17); (33, st 470); (35, tr 485); (37, st 36); (47, tr 486); (48, st 475); (49, st 477);
      (50, st 479); (58, tr 487); (59, st 470); (61, st 470); (63, tr 488); (95, st 470); (126, st 470)]
      [If (Below 51) (If (Within 36 46) (Go (st 470)) Fall) (If (Above 57) (If (Above 90)
      (If (Within 97 122) (Go (st 470)) Fall) (If (AtLeast 65) (Go (st 470)) Fall)) (Go (st 478))); Go (st
      0)]
].

Definition uri_code_13 : list entry := [
    St 475 [(33, st 470); (35, tr 485); (37, st 36); (46, st 476); (47, tr 486); (58, tr 487); (61, st 470);
      (63, tr 488); (95, st 470); (126, st 470)] [If (Below 65) (If (Within 36 59) (Go (st 470)) Fall)
      (If (Above 90) (If (Within 97 122) (Go (st 470)) Fall) (Go (st 470))); Go (st 0)];
    St 476 [(2, st 21); (33, st 470); (35, tr 485); (37, st 36); (47, tr 486); (58, tr 487); (61, st 470);
      (63, tr 488); (95, st 470); (126, st 470)] [If (Below 65) (If (Within 36 59) (Go (st 470)) Fall)
      (If (Above 90) (If (Within 97 122) (Go (st 470)) Fall) (Go (st 470))); Go (st 0)];
    St 477 [(33, st 470); (35, tr 485); (37, st 36); (46, st 476); (47, tr 486); (58, tr 487); (59, st 470);
      (61, st 470); (63, tr 488); (95, st 470); (126, st 470)] [If (Below 48) (If (Within 36 45)
      (Go (st 470)) Fall) (If (Above 57) (If (Above 90) (If (Within 97 122) (Go (st 470)) Fall)
      (If (AtLeast 65) (Go (st 470)) Fall)) (Go (st 478))); Go (st 0)];
    St 478 [(33, st 470); (35, tr 485); (37, st 36); (46, st 476); (47, tr 486); (58, tr 487); (59, st 470);
      (61, st 470); (63, tr 488); (95, st 470); (126, st 470)] [If (Below 48) (If (Within 36 45)
      (Go (st 470)) Fall) (If (Above 57) (If (Above 90) (If (Within 97 122) (Go (st 470)) Fall)
      (If (AtLeast 65) (Go (st 470)) Fall)) (Go (st 475))); Go (st 0)]
].

Definition uri_code_14 : list entry := [
    St 479 [(33, st 470); (35, tr 485); (37, st 36); (46, st 476); (47, tr 486); (53, st 480); (58, tr 487);
      (59, st 470); (61, st 470); (63, tr 488); (95, st 470); (126, st 470)] [If (Below 48)
      (If (Within 36 45) (Go (st 470)) Fall) (If (Above 57) (If (Above 90) (If (Within 97 122) (Go (st 470))
      Fall) (If (AtLeast 65) (Go (st 470)) Fall)) (Go (st 475))); Go (st 0)];
    St 480 [(33, st 470); (35, tr 485); (37, st 36); (46, st 476); (47, tr 486); (58, tr 487); (61, st 470);
      (63, tr 488); (95, st 470); (126, st 470)] [If (Below 54) (If (Above 45) (If (Within 48 53)
      (Go (st 475)) Fall) (If (AtLeast 36) (Go (st 470)) Fall)) (If (Above 59) (If (Above 90)
      (If (Within 97 122) (Go (st 470)) Fall) (If (AtLeast 65) (Go (st 470)) Fall)) (Go (st 470))); Go (st
      0)];
    St 481 [(33, st 470); (35, tr 485); (37, st 36); (46, st 474); (47, tr 486); (58, tr 487); (59, st 470);
      (61, st 470); (63, tr 488); (95, st 470); (126, st 470)] [If (Below 48) (If (Within 36 45)
      (Go (st 470)) Fall) (If (Above 57) (If (Above 90) (If (Within 97 122) (Go (st 470)) Fall)
      (If (AtLeast 65) (Go (st 470)) Fall)) (Go (st 482))); Go (st 0)]
].

Definition uri_code_15 : list entry := [
    St 482 [(33, st 470); (35, tr 485); (37, st 36); (46, st 474); (47, tr 486); (58, tr 487); (59, st 470);
      (61, st 470); (63, tr 488); (95, st 470); (126, st 470)] [If (Below 48) (If (Within 36 45)
      (Go (st 470)) Fall) (If (Above 57) (If (Above 90) (If (Within 97 122) (Go (st 470)) Fall)
      (If (AtLeast 65) (Go (st 470)) Fall)) (Go (st 473))); Go (st 0)];
    St 483 [(33, st 470); (35, tr 485); (37, st 36); (46, st 474); (47, tr 486); (53, st 484); (58, tr 487);
      (59, st 470); (61, st 470); (63, tr 488); (95, st 470); (126, st 470)] [If (Below 48)
      (If (Within 36 45) (Go (st 470)) Fall) (If (Above 57) (If (Above 90) (If (Within 97 122) (Go (st 470))
      Fall) (If (AtLeast 65) (Go (st 470)) Fall)) (Go (st 473))); Go (st 0)];
    St 484 [(33, st 470); (35, tr 485); (37, st 36); (46, st 474); (47, tr 486); (58, tr 487); (61, st 470);
      (63, tr 488); (95, st 470); (126, st 470)] [If (Below 54) (If (Above 45) (If (Within 48 53)
      (Go (st 473)) Fall) (If (AtLeast 36) (Go (st 470)) Fall)) (If (Above 59) (If (Above 90)
      (If (Within 97 122) (Go (st 470)) Fall) (If (AtLeast 65) (Go (st 470)) Fall)) (Go (st 470))); Go (st
      0)];
    Tr 504 [markh] 485
].

Definition uri_code_16 : list entry := [
    St 485 [(33, st 470); (35, tr 485); (37, st 36); (46, st 472); (47, tr 486); (58, tr 487); (59, st 470);
      (61, st 470); (63, tr 488); (95, st 470); (126, st 470)] [If (Below 48) (If (Within 36 45)
      (Go (st 470)) Fall) (If (Above 57) (If (Above 90) (If (Within 97 122) (Go (st 470)) Fall)
      (If (AtLeast 65) (Go (st 470)) Fall)) (Go (st 486))); Go (st 0)];
    Tr 506 [markh] 486;
    St 486 [(33, st 470); (35, tr 485); (37, st 36); (46, st 472); (47, tr 486); (58, tr 487); (59, st 470);
      (61, st 470); (63, tr 488); (95, st 470); (126, st 470)] [If (Below 48) (If (Within 36 45)
      (Go (st 470)) Fall) (If (Above 57) (If (Above 90) (If (Within 97 122) (Go (st 470)) Fall)
      (If (AtLeast 65) (Go (st 470)) Fall)) (Go (st 471))); Go (st 0)];
    Tr 505 [markh] 487;
    St 487 [(33, st 470); (35, tr 485); (37, st 36); (46, st 472); (47, tr 486); (53, st 488); (58, tr 487);
      (59, st 470); (61, st 470); (63, tr 488); (95, st 470); (126, st 470)] [If (Below 48)
      (If (Within 36 45) (Go (st 470)) Fall) (If (Above 57) (If (Above 90) (If (Within 97 122) (Go (st 470))
      Fall) (If (AtLeast 65) (Go (st 470)) Fall)) (Go (st 471))); Go (st 0)]
].

Definition uri_code_17 : list entry := [
    St 488 [(33, st 470); (35, tr 485); (37, st 36); (46, st 472); (47, tr 486); (58, tr 487); (61, st 470);
      (63, tr 488); (95, st 470); (126, st 470)] [If (Below 54) (If (Above 45) (If (Within 48 53)
      (Go (st 471)) Fall) (If (AtLeast 36) (Go (st 470)) Fall)) (If (Above 59) (If (Above 90)
      (If (Within 97 122) (Go (st 470)) Fall) (If (AtLeast 65) (Go (st 470)) Fall)) (Go (st 470))); Go (st
      0)];
    Tr 484 [markh] 38;
    St 38 [(58, st 146); (118, st 225)] [If (Below 65) (If (Within 48 57) (Go (st 39)) Fall) (If (Above 70)
      (If (Within 97 102) (Go (st 39)) Fall) (Go (st 39))); Go (st 0)];
    St 39 [] [If (Is 58) (Go (st 43)) Fall; If (Below 65) (If (Within 48 57) (Go (st 40)) Fall)
      (If (Above 70) (If (Within 97 102) (Go (st 40)) Fall) (Go (st 40))); Go (st 0)];
    St 40 [] [If (Is 58) (Go (st 43)) Fall; If (Below 65) (If (Within 48 57) (Go (st 41)) Fall)
      (If (Above 70) (If (Within 97 102) (Go (st 41)) Fall) (Go (st 41))); Go (st 0)];
    St 41 [] [If (Is 58) (Go (st 43)) Fall; If (Below 65) (If (Within 48 57) (Go (st 42)) Fall)
      (If (Above 70) (If (Within 97 102) (Go (st 42)) Fall) (Go (st 42))); Go (st 0)];
    St 42 [] [If (Is 58) (Go (st 43)) Fall; Go (st 0)];
    St 43 [] [If (Is 58) (Go (st 141)) Fall; If (Below 65) (If (Within 48 57) (Go (st 44)) Fall)
      (If (Above 70) (If (Within 97 102) (Go (st 44)) Fall) (Go (st 44))); Go (st 0)];
    St 44 [] [If (Is 58) (Go (st 48)) Fall; If (Below 65) (If (Within 48 57) (Go (st 45)) Fall)
      (If (Above 70) (If (Within 97 102) (Go (st 45)) Fall) (Go (st 45))); Go (st 0)]
].

Definition uri_code_18 : list entry := [
    St 45 [] [If (Is 58) (Go (st 48)) Fall; If (Below 65) (If (Within 48 57) (Go (st 46)) Fall)
      (If (Above 70) (If (Within 97 102) (Go (st 46)) Fall) (Go (st 46))); Go (st 0)];
    St 46 [] [If (Is 58) (Go (st 48)) Fall; If (Below 65) (If (Within 48 57) (Go (st 47)) Fall)
      (If (Above 70) (If (Within 97 102) (Go (st 47)) Fall) (Go (st 47))); Go (st 0)];
    St 47 [] [If (Is 58) (Go (st 48)) Fall; Go (st 0)];
    St 48 [] [If (Is 58) (Go (st 136)) Fall; If (Below 65) (If (Within 48 57) (Go (st 49)) Fall)
      (If (Above 70) (If (Within 97 102) (Go (st 49)) Fall) (Go (st 49))); Go (st 0)];
    St 49 [] [If (Is 58) (Go (st 53)) Fall; If (Below 65) (If (Within 48 57) (Go (st 50)) Fall)
      (If (Above 70) (If (Within 97 102) (Go (st 50)) Fall) (Go (st 50))); Go (st 0)];
    St 50 [] [If (Is 58) (Go (st 53)) Fall; If (Below 65) (If (Within 48 57) (Go (st 51)) Fall)
      (If (Above 70) (If (Within 97 102) (Go (st 51)) Fall) (Go (st 51))); Go (st 0)];
    St 51 [] [If (Is 58) (Go (st 53)) Fall; If (Below 65) (If (Within 48 57) (Go (st 52)) Fall)
      (If (Above 70) (If (Within 97 102) (Go (st 52)) Fall) (Go (st 52))); Go (st 0)];
    St 52 [] [If (Is 58) (Go (st 53)) Fall; Go (st 0)];
    St 53 [] [If (Is 58) (Go (st 131)) Fall; If (Below 65) (If (Within 48 57) (Go (st 54)) Fall)
      (If (Above 70) (If (Within 97 102) (Go (st 54)) Fall) (Go (st 54))); Go (st 0)];
    St 54 [] [If (Is 58) (Go (st 58)) Fall; If (Below 65) (If (Within 48 57) (Go (st 55)) Fall)
      (If (Above 70) (If (Within 97 102) (Go (st 55)) Fall) (Go (st 55))); Go (st 0)];
    St 55 [] [If (Is 58) (Go (st 58)) Fall; If (Below 65) (If (Within 48 57) (Go (st 56)) Fall)
      (If (Above 70) (If (Within 97 102) (Go (st 56)) Fall) (Go (st 56))); Go (st 0)]
].

Definition uri_code_19 : list entry := [
    St 56 [] [If (Is 58) (Go (st 58)) Fall; If (Below 65) (If (Within 48 57) (Go (st 57)) Fall)
      (If (Above 70) (If (Within 97 102) (Go (st 57)) Fall) (Go (st 57))); Go (st 0)];
    St 57 [] [If (Is 58) (Go (st 58)) Fall; Go (st 0)];
    St 58 [] [If (Is 58) (Go (st 126)) Fall; If (Below 65) (If (Within 48 57) (Go (st 59)) Fall)
      (If (Above 70) (If (Within 97 102) (Go (st 59)) Fall) (Go (st 59))); Go (st 0)];
    St 59 [] [If (Is 58) (Go (st 63)) Fall; If (Below 65) (If (Within 48 57) (Go (st 60)) Fall)
      (If (Above 70) (If (Within 97 102) (Go (st 60)) Fall) (Go (st 60))); Go (st 0)];
    St 60 [] [If (Is 58) (Go (st 63)) Fall; If (Below 65) (If (Within 48 57) (Go (st 61)) Fall)
      (If (Above 70) (If (Within 97 102) (Go (st 61)) Fall) (Go (st 61))); Go (st 0)];
    St 61 [] [If (Is 58) (Go (st 63)) Fall; If (Below 65) (If (Within 48 57) (Go (st 62)) Fall)
      (If (Above 70) (If (Within 97 102) (Go (st 62)) Fall) (Go (st 62))); Go (st 0)];
    St 62 [] [If (Is 58) (Go (st 63)) Fall; Go (st 0)];
    St 63 [] [If (Is 58) (Go (st 113)) Fall; If (Below 65) (If (Within 48 57) (Go (st 64)) Fall)
      (If (Above 70) (If (Within 97 102) (Go (st 64)) Fall) (Go (st 64))); Go (st 0)];
    St 64 [] [If (Is 58) (Go (st 68)) Fall; If (Below 65) (If (Within 48 57) (Go (st 65)) Fall)
      (If (Above 70) (If (Within 97 102) (Go (st 65)) Fall) (Go (st 65))); Go (st 0)];
    St 65 [] [If (Is 58) (Go (st 68)) Fall; If (Below 65) (If (Within 48 57) (Go (st 66)) Fall)
      (If (Above 70) (If (Within 97 102) (Go (st 66)) Fall) (Go (st 66))); Go (st 0)];
    St 66 [] [If (Is 58) (Go (st 68)) Fall; If (Below 65) (If (Within 48 57) (Go (st 67)) Fall)
      (If (Above 70) (If (Within 97 102) (Go (st 67)) Fall) (Go (st 67))); Go (st 0)]
].

Definition uri_code_20 : list entry := [
    St 67 [] [If (Is 58) (Go (st 68)) Fall; Go (st 0)];
    St 68 [(2, st 69); (48, st 96); (49, st 104); (50, st 107); (58, st 111)] [If (Below 65)
      (If (Within 51 57) (Go (st 110)) Fall) (If (Above 70) (If (Within 97 102) (Go (st 112)) Fall)
      (Go (st 112))); Go (st 0)];
    St 69 [] [If (Within 48 52) (Go (st 70)) Fall; Go (st 0)];
    St 70 [] [If (Within 48 57) (Go (st 71)) Fall; Go (st 0)];
    St 71 [] [If (Is 46) (Go (st 72)) Fall; Go (st 0)];
    St 72 [(2, st 73); (48, st 75); (49, st 92); (50, st 94)] [If (Within 51 57) (Go (st 93)) Fall; Go (st
      0)];
    St 73 [] [If (Within 48 52) (Go (st 74)) Fall; Go (st 0)];
    St 74 [] [If (Within 48 57) (Go (st 75)) Fall; Go (st 0)];
    St 75 [] [If (Is 46) (Go (st 76)) Fall; Go (st 0)];
    St 76 [(2, st 77); (48, st 79); (49, st 88); (50, st 90)] [If (Within 51 57) (Go (st 89)) Fall; Go (st
      0)];
    St 77 [] [If (Within 48 52) (Go (st 78)) Fall; Go (st 0)];
    St 78 [] [If (Within 48 57) (Go (st 79)) Fall; Go (st 0)];
    St 79 [] [If (Is 46) (Go (st 80)) Fall; Go (st 0)];
    St 80 [(2, st 81); (48, st 83); (49, st 84); (50, st 86)] [If (Within 51 57) (Go (st 85)) Fall; Go (st
      0)]
].

Definition uri_code_21 : list entry := [
    St 81 [] [If (Within 48 52) (Go (st 82)) Fall; Go (st 0)];
    St 82 [] [If (Within 48 57) (Go (st 83)) Fall; Go (st 0)];
    St 83 [] [If (Is 93) (Go (st 460)) Fall; Go (st 0)];
    St 84 [] [If (Is 93) (Go (st 460)) Fall; If (Within 48 57) (Go (st 85)) Fall; Go (st 0)];
    St 85 [] [If (Is 93) (Go (st 460)) Fall; If (Within 48 57) (Go (st 83)) Fall; Go (st 0)];
    St 86 [(53, st 87); (93, st 460)] [If (Within 48 57) (Go (st 83)) Fall; Go (st 0)];
    St 87 [] [If (Is 93) (Go (st 460)) Fall; If (Within 48 53) (Go (st 83)) Fall; Go (st 0)];
    St 88 [] [If (Is 46) (Go (st 80)) Fall; If (Within 48 57) (Go (st 89)) Fall; Go (st 0)];
    St 89 [] [If (Is 46) (Go (st 80)) Fall; If (Within 48 57) (Go (st 79)) Fall; Go (st 0)];
    St 90 [(46, st 80); (53, st 91)] [If (Within 48 57) (Go (st 79)) Fall; Go (st 0)];
    St 91 [] [If (Is 46) (Go (st 80)) Fall; If (Within 48 53) (Go (st 79)) Fall; Go (st 0)];
    St 92 [] [If (Is 46) (Go (st 76)) Fall; If (Within 48 57) (Go (st 93)) Fall; Go (st 0)];
    St 93 [] [If (Is 46) (Go (st 76)) Fall; If (Within 48 57) (Go (st 75)) Fall; Go (st 0)];
    St 94 [(46, st 76); (53, st 95)] [If (Within 48 57) (Go (st 75)) Fall; Go (st 0)];
    St 95 [] [If (Is 46) (Go (st 76)) Fall; If (Within 48 53) (Go (st 75)) Fall; Go (st 0)]
].

Definition uri_code_22 : list entry := [
    St 96 [(46, st 72); (58, st 100)] [If (Below 65) (If (Within 48 57) (Go (st 97)) Fall) (If (Above 70)
      (If (Within 97 102) (Go (st 97)) Fall) (Go (st 97))); Go (st 0)];
    St 97 [] [If (Is 58) (Go (st 100)) Fall; If (Below 65) (If (Within 48 57) (Go (st 98)) Fall)
      (If (Above 70) (If (Within 97 102) (Go (st 98)) Fall) (Go (st 98))); Go (st 0)];
    St 98 [] [If (Is 58) (Go (st 100)) Fall; If (Below 65) (If (Within 48 57) (Go (st 99)) Fall)
      (If (Above 70) (If (Within 97 102) (Go (st 99)) Fall) (Go (st 99))); Go (st 0)];
    St 99 [] [If (Is 58) (Go (st 100)) Fall; Go (st 0)];
    St 100 [] [If (Is 58) (Go (st 83)) Fall; If (Below 65) (If (Within 48 57) (Go (st 101)) Fall)
      (If (Above 70) (If (Within 97 102) (Go (st 101)) Fall) (Go (st 101))); Go (st 0)];
    St 101 [] [If (Is 93) (Go (st 460)) Fall; If (Below 65) (If (Within 48 57) (Go (st 102)) Fall)
      (If (Above 70) (If (Within 97 102) (Go (st 102)) Fall) (Go (st 102))); Go (st 0)];
    St 102 [] [If (Is 93) (Go (st 460)) Fall; If (Below 65) (If (Within 48 57) (Go (st 103)) Fall)
      (If (Above 70) (If (Within 97 102) (Go (st 103)) Fall) (Go (st 103))); Go (st 0)];
    St 103 [] [If (Is 93) (Go (st 460)) Fall; If (Below 65) (If (Within 48 57) (Go (st 83)) Fall)
      (If (Above 70) (If (Within 97 102) (Go (st 83)) Fall) (Go (st 83))); Go (st 0)];
    St 104 [(46, st 72); (58, st 100)] [If (Below 65) (If (Within 48 57) (Go (st 105)) Fall) (If (Above 70)
      (If (Within 97 102) (Go (st 97)) Fall) (Go (st 97))); Go (st 0)]
].

Definition uri_code_23 : list entry := [
    St 105 [(46, st 72); (58, st 100)] [If (Below 65) (If (Within 48 57) (Go (st 106)) Fall) (If (Above 70)
      (If (Within 97 102) (Go (st 98)) Fall) (Go (st 98))); Go (st 0)];
    St 106 [(46, st 72); (58, st 100)] [If (Below 65) (If (Within 48 57) (Go (st 99)) Fall) (If (Above 70)
      (If (Within 97 102) (Go (st 99)) Fall) (Go (st 99))); Go (st 0)];
    St 107 [(46, st 72); (53, st 109); (58, st 100)] [If (Below 65) (If (Within 48 57) (Go (st 108)) Fall)
      (If (Above 70) (If (Within 97 102) (Go (st 97)) Fall) (Go (st 97))); Go (st 0)];
    St 108 [(46, st 72); (58, st 100)] [If (Below 65) (If (Within 48 57) (Go (st 98)) Fall) (If (Above 70)
      (If (Within 97 102) (Go (st 98)) Fall) (Go (st 98))); Go (st 0)];
    St 109 [(46, st 72); (58, st 100)] [If (Below 54) (If (Within 48 53) (Go (st 106)) Fall) (If (Above 57)
      (If (Above 70) (If (Within 97 102) (Go (st 98)) Fall) (If (AtLeast 65) (Go (st 98)) Fall))
      (Go (st 98))); Go (st 0)];
    St 110 [(46, st 72); (58, st 100)] [If (Below 65) (If (Within 48 57) (Go (st 108)) Fall) (If (Above 70)
      (If (Within 97 102) (Go (st 97)) Fall) (Go (st 97))); Go (st 0)];
    St 111 [] [If (Below 65) (If (Within 48 57) (Go (st 101)) Fall) (If (Above 70) (If (Within 97 102)
      (Go (st 101)) Fall) (Go (st 101))); Go (st 0)];
    St 112 [] [If (Is 58) (Go (st 100)) Fall; If (Below 65) (If (Within 48 57) (Go (st 97)) Fall)
      (If (Above 70) (If (Within 97 102) (Go (st 97)) Fall) (Go (st 97))); Go (st 0)]
].

Definition uri_code_24 : list entry := [
    St 113 [(2, st 69); (48, st 114); (49, st 118); (50, st 121)] [If (Below 65) (If (Within 51 57)
      (Go (st 124)) Fall) (If (Above 70) (If (Within 97 102) (Go (st 125)) Fall) (Go (st 125))); Go (st 0)];
    St 114 [(46, st 72); (58, st 111)] [If (Below 65) (If (Within 48 57) (Go (st 115)) Fall) (If (Above 70)
      (If (Within 97 102) (Go (st 115)) Fall) (Go (st 115))); Go (st 0)];
    St 115 [] [If (Is 58) (Go (st 111)) Fall; If (Below 65) (If (Within 48 57) (Go (st 116)) Fall)
      (If (Above 70) (If (Within 97 102) (Go (st 116)) Fall) (Go (st 116))); Go (st 0)];
    St 116 [] [If (Is 58) (Go (st 111)) Fall; If (Below 65) (If (Within 48 57) (Go (st 117)) Fall)
      (If (Above 70) (If (Within 97 102) (Go (st 117)) Fall) (Go (st 117))); Go (st 0)];
    St 117 [] [If (Is 58) (Go (st 111)) Fall; Go (st 0)];
    St 118 [(46, st 72); (58, st 111)] [If (Below 65) (If (Within 48 57) (Go (st 119)) Fall) (If (Above 70)
      (If (Within 97 102) (Go (st 115)) Fall) (Go (st 115))); Go (st 0)];
    St 119 [(46, st 72); (58, st 111)] [If (Below 65) (If (Within 48 57) (Go (st 120)) Fall) (If (Above 70)
      (If (Within 97 102) (Go (st 116)) Fall) (Go (st 116))); Go (st 0)];
    St 120 [(46, st 72); (58, st 111)] [If (Below 65) (If (Within 48 57) (Go (st 117)) Fall) (If (Above 70)
      (If (Within 97 102) (Go (st 117)) Fall) (Go (st 117))); Go (st 0)]
].

Definition uri_code_25 : list entry := [
    St 121 [(46, st 72); (53, st 123); (58, st 111)] [If (Below 65) (If (Within 48 57) (Go (st 122)) Fall)
      (If (Above 70) (If (Within 97 102) (Go (st 115)) Fall) (Go (st 115))); Go (st 0)];
    St 122 [(46, st 72); (58, st 111)] [If (Below 65) (If (Within 48 57) (Go (st 116)) Fall) (If (Above 70)
      (If (Within 97 102) (Go (st 116)) Fall) (Go (st 116))); Go (st 0)];
    St 123 [(46, st 72); (58, st 111)] [If (Below 54) (If (Within 48 53) (Go (st 120)) Fall) (If (Above 57)
      (If (Above 70) (If (Within 97 102) (Go (st 116)) Fall) (If (AtLeast 65) (Go (st 116)) Fall))
      (Go (st 116))); Go (st 0)];
    St 124 [(46, st 72); (58, st 111)] [If (Below 65) (If (Within 48 57) (Go (st 122)) Fall) (If (Above 70)
      (If (Within 97 102) (Go (st 115)) Fall) (Go (st 115))); Go (st 0)];
    St 125 [] [If (Is 58) (Go (st 111)) Fall; If (Below 65) (If (Within 48 57) (Go (st 115)) Fall)
      (If (Above 70) (If (Within 97 102) (Go (st 115)) Fall) (Go (st 115))); Go (st 0)];
    St 126 [] [If (Below 65) (If (Within 48 57) (Go (st 127)) Fall) (If (Above 70) (If (Within 97 102)
      (Go (st 127)) Fall) (Go (st 127))); Go (st 0)];
    St 127 [] [If (Is 58) (Go (st 113)) Fall; If (Below 65) (If (Within 48 57) (Go (st 128)) Fall)
      (If (Above 70) (If (Within 97 102) (Go (st 128)) Fall) (Go (st 128))); Go (st 0)];
    St 128 [] [If (Is 58) (Go (st 113)) Fall; If (Below 65) (If (Within 48 57) (Go (st 129)) Fall)
      (If (Above 70) (If (Within 97 102) (Go (st 129)) Fall) (Go (st 129))); Go (st 0)]
].

Definition uri_code_26 : list entry := [
    St 129 [] [If (Is 58) (Go (st 113)) Fall; If (Below 65) (If (Within 48 57) (Go (st 130)) Fall)
      (If (Above 70) (If (Within 97 102) (Go (st 130)) Fall) (Go (st 130))); Go (st 0)];
    St 130 [] [If (Is 58) (Go (st 113)) Fall; Go (st 0)];
    St 131 [] [If (Below 65) (If (Within 48 57) (Go (st 132)) Fall) (If (Above 70) (If (Within 97 102)
      (Go (st 132)) Fall) (Go (st 132))); Go (st 0)];
    St 132 [] [If (Is 58) (Go (st 126)) Fall; If (Below 65) (If (Within 48 57) (Go (st 133)) Fall)
      (If (Above 70) (If (Within 97 102) (Go (st 133)) Fall) (Go (st 133))); Go (st 0)];
    St 133 [] [If (Is 58) (Go (st 126)) Fall; If (Below 65) (If (Within 48 57) (Go (st 134)) Fall)
      (If (Above 70) (If (Within 97 102) (Go (st 134)) Fall) (Go (st 134))); Go (st 0)];
    St 134 [] [If (Is 58) (Go (st 126)) Fall; If (Below 65) (If (Within 48 57) (Go (st 135)) Fall)
      (If (Above 70) (If (Within 97 102) (Go (st 135)) Fall) (Go (st 135))); Go (st 0)];
    St 135 [] [If (Is 58) (Go (st 126)) Fall; Go (st 0)];
    St 136 [] [If (Below 65) (If (Within 48 57) (Go (st 137)) Fall) (If (Above 70) (If (Within 97 102)
      (Go (st 137)) Fall) (Go (st 137))); Go (st 0)];
    St 137 [] [If (Is 58) (Go (st 131)) Fall; If (Below 65) (If (Within 48 57) (Go (st 138)) Fall)
      (If (Above 70) (If (Within 97 102) (Go (st 138)) Fall) (Go (st 138))); Go (st 0)];
    St 138 [] [If (Is 58) (Go (st 131)) Fall; If (Below 65) (If (Within 48 57) (Go (st 139)) Fall)
      (If (Above 70) (If (Within 97 102) (Go (st 139)) Fall) (Go (st 139))); Go (st 0)];
    St 139 [] [If (Is 58) (Go (st 131)) Fall; If (Below 65) (If (Within 48 57) (Go (st 140)) Fall)
      (If (Above 70) (If (Within 97 102) (Go (st 140)) Fall) (Go (st 140))); Go (st 0)]
].

Definition uri_code_27 : list entry := [
    St 140 [] [If (Is 58) (Go (st 131)) Fall; Go (st 0)];
    St 141 [] [If (Below 65) (If (Within 48 57) (Go (st 142)) Fall) (If (Above 70) (If (Within 97 102)
      (Go (st 142)) Fall) (Go (st 142))); Go (st 0)];
    St 142 [] [If (Is 58) (Go (st 136)) Fall; If (Below 65) (If (Within 48 57) (Go (st 143)) Fall)
      (If (Above 70) (If (Within 97 102) (Go (st 143)) Fall) (Go (st 143))); Go (st 0)];
    St 143 [] [If (Is 58) (Go (st 136)) Fall; If (Below 65) (If (Within 48 57) (Go (st 144)) Fall)
      (If (Above 70) (If (Within 97 102) (Go (st 144)) Fall) (Go (st 144))); Go (st 0)];
    St 144 [] [If (Is 58) (Go (st 136)) Fall; If (Below 65) (If (Within 48 57) (Go (st 145)) Fall)
      (If (Above 70) (If (Within 97 102) (Go (st 145)) Fall) (Go (st 145))); Go (st 0)];
    St 145 [] [If (Is 58) (Go (st 136)) Fall; Go (st 0)];
    St 146 [] [If (Is 58) (Go (st 147)) Fall; Go (st 0)];
    St 147 [(2, st 69); (48, st 148); (49, st 217); (50, st 220); (93, st 460)] [If (Below 65)
      (If (Within 51 57) (Go (st 223)) Fall) (If (Above 70) (If (Within 97 102) (Go (st 224)) Fall)
      (Go (st 224))); Go (st 0)];
    St 148 [(46, st 72); (58, st 152); (93, st 460)] [If (Below 65) (If (Within 48 57) (Go (st 149)) Fall)
      (If (Above 70) (If (Within 97 102) (Go (st 149)) Fall) (Go (st 149))); Go (st 0)];
    St 149 [(58, st 152); (93, st 460)] [If (Below 65) (If (Within 48 57) (Go (st 150)) Fall) (If (Above 70)
      (If (Within 97 102) (Go (st 150)) Fall) (Go (st 150))); Go (st 0)]
].

Definition uri_code_28 : list entry := [
    St 150 [(58, st 152); (93, st 460)] [If (Below 65) (If (Within 48 57) (Go (st 151)) Fall) (If (Above 70)
      (If (Within 97 102) (Go (st 151)) Fall) (Go (st 151))); Go (st 0)];
    St 151 [(58, st 152); (93, st 460)] [Go (st 0)];
    St 152 [(2, st 69); (48, st 153); (49, st 209); (50, st 212)] [If (Below 65) (If (Within 51 57)
      (Go (st 215)) Fall) (If (Above 70) (If (Within 97 102) (Go (st 216)) Fall) (Go (st 216))); Go (st 0)];
    St 153 [(46, st 72); (58, st 157); (93, st 460)] [If (Below 65) (If (Within 48 57) (Go (st 154)) Fall)
      (If (Above 70) (If (Within 97 102) (Go (st 154)) Fall) (Go (st 154))); Go (st 0)];
    St 154 [(58, st 157); (93, st 460)] [If (Below 65) (If (Within 48 57) (Go (st 155)) Fall) (If (Above 70)
      (If (Within 97 102) (Go (st 155)) Fall) (Go (st 155))); Go (st 0)];
    St 155 [(58, st 157); (93, st 460)] [If (Below 65) (If (Within 48 57) (Go (st 156)) Fall) (If (Above 70)
      (If (Within 97 102) (Go (st 156)) Fall) (Go (st 156))); Go (st 0)];
    St 156 [(58, st 157); (93, st 460)] [Go (st 0)];
    St 157 [(2, st 69); (48, st 158); (49, st 201); (50, st 204)] [If (Below 65) (If (Within 51 57)
      (Go (st 207)) Fall) (If (Above 70) (If (Within 97 102) (Go (st 208)) Fall) (Go (st 208))); Go (st 0)]
].

Definition uri_code_29 : list entry := [
    St 158 [(46, st 72); (58, st 162); (93, st 460)] [If (Below 65) (If (Within 48 57) (Go (st 159)) Fall)
      (If (Above 70) (If (Within 97 102) (Go (st 159)) Fall) (Go (st 159))); Go (st 0)];
    St 159 [(58, st 162); (93, st 460)] [If (Below 65) (If (Within 48 57) (Go (st 160)) Fall) (If (Above 70)
      (If (Within 97 102) (Go (st 160)) Fall) (Go (st 160))); Go (st 0)];
    St 160 [(58, st 162); (93, st 460)] [If (Below 65) (If (Within 48 57) (Go (st 161)) Fall) (If (Above 70)
      (If (Within 97 102) (Go (st 161)) Fall) (Go (st 161))); Go (st 0)];
    St 161 [(58, st 162); (93, st 460)] [Go (st 0)];
    St 162 [(2, st 69); (48, st 163); (49, st 193); (50, st 196)] [If (Below 65) (If (Within 51 57)
      (Go (st 199)) Fall) (If (Above 70) (If (Within 97 102) (Go (st 200)) Fall) (Go (st 200))); Go (st 0)];
    St 163 [(46, st 72); (58, st 167); (93, st 460)] [If (Below 65) (If (Within 48 57) (Go (st 164)) Fall)
      (If (Above 70) (If (Within 97 102) (Go (st 164)) Fall) (Go (st 164))); Go (st 0)];
    St 164 [(58, st 167); (93, st 460)] [If (Below 65) (If (Within 48 57) (Go (st 165)) Fall) (If (Above 70)
      (If (Within 97 102) (Go (st 165)) Fall) (Go (st 165))); Go (st 0)]
].

Definition uri_code_30 : list entry := [
    St 165 [(58, st 167); (93, st 460)] [If (Below 65) (If (Within 48 57) (Go (st 166)) Fall) (If (Above 70)
      (If (Within 97 102) (Go (st 166)) Fall) (Go (st 166))); Go (st 0)];
    St 166 [(58, st 167); (93, st 460)] [Go (st 0)];
    St 167 [(2, st 69); (48, st 168); (49, st 185); (50, st 188)] [If (Below 65) (If (Within 51 57)
      (Go (st 191)) Fall) (If (Above 70) (If (Within 97 102) (Go (st 192)) Fall) (Go (st 192))); Go (st 0)];
    St 168 [(46, st 72); (58, st 172); (93, st 460)] [If (Below 65) (If (Within 48 57) (Go (st 169)) Fall)
      (If (Above 70) (If (Within 97 102) (Go (st 169)) Fall) (Go (st 169))); Go (st 0)];
    St 169 [(58, st 172); (93, st 460)] [If (Below 65) (If (Within 48 57) (Go (st 170)) Fall) (If (Above 70)
      (If (Within 97 102) (Go (st 170)) Fall) (Go (st 170))); Go (st 0)];
    St 170 [(58, st 172); (93, st 460)] [If (Below 65) (If (Within 48 57) (Go (st 171)) Fall) (If (Above 70)
      (If (Within 97 102) (Go (st 171)) Fall) (Go (st 171))); Go (st 0)];
    St 171 [(58, st 172); (93, st 460)] [Go (st 0)];
    St 172 [(2, st 69); (48, st 173); (49, st 177); (50, st 180)] [If (Below 65) (If (Within 51 57)
      (Go (st 183)) Fall) (If (Above 70) (If (Within 97 102) (Go (st 184)) Fall) (Go (st 184))); Go (st 0)]
].

Definition uri_code_31 : list entry := [
    St 173 [(46, st 72); (58, st 111); (93, st 460)] [If (Below 65) (If (Within 48 57) (Go (st 174)) Fall)
      (If (Above 70) (If (Within 97 102) (Go (st 174)) Fall) (Go (st 174))); Go (st 0)];
    St 174 [(58, st 111); (93, st 460)] [If (Below 65) (If (Within 48 57) (Go (st 175)) Fall) (If (Above 70)
      (If (Within 97 102) (Go (st 175)) Fall) (Go (st 175))); Go (st 0)];
    St 175 [(58, st 111); (93, st 460)] [If (Below 65) (If (Within 48 57) (Go (st 176)) Fall) (If (Above 70)
      (If (Within 97 102) (Go (st 176)) Fall) (Go (st 176))); Go (st 0)];
    St 176 [(58, st 111); (93, st 460)] [Go (st 0)];
    St 177 [(46, st 72); (58, st 111); (93, st 460)] [If (Below 65) (If (Within 48 57) (Go (st 178)) Fall)
      (If (Above 70) (If (Within 97 102) (Go (st 174)) Fall) (Go (st 174))); Go (st 0)];
    St 178 [(46, st 72); (58, st 111); (93, st 460)] [If (Below 65) (If (Within 48 57) (Go (st 179)) Fall)
      (If (Above 70) (If (Within 97 102) (Go (st 175)) Fall) (Go (st 175))); Go (st 0)];
    St 179 [(46, st 72); (58, st 111); (93, st 460)] [If (Below 65) (If (Within 48 57) (Go (st 176)) Fall)
      (If (Above 70) (If (Within 97 102) (Go (st 176)) Fall) (Go (st 176))); Go (st 0)]
].

Definition uri_code_32 : list entry := [
    St 180 [(46, st 72); (53, st 182); (58, st 111); (93, st 460)] [If (Below 65) (If (Within 48 57)
      (Go (st 181)) Fall) (If (Above 70) (If (Within 97 102) (Go (st 174)) Fall) (Go (st 174))); Go (st 0)];
    St 181 [(46, st 72); (58, st 111); (93, st 460)] [If (Below 65) (If (Within 48 57) (Go (st 175)) Fall)
      (If (Above 70) (If (Within 97 102) (Go (st 175)) Fall) (Go (st 175))); Go (st 0)];
    St 182 [(46, st 72); (58, st 111); (93, st 460)] [If (Below 54) (If (Within 48 53) (Go (st 179)) Fall)
      (If (Above 57) (If (Above 70) (If (Within 97 102) (Go (st 175)) Fall) (If (AtLeast 65) (Go (st 175))
      Fall)) (Go (st 175))); Go (st 0)];
    St 183 [(46, st 72); (58, st 111); (93, st 460)] [If (Below 65) (If (Within 48 57) (Go (st 181)) Fall)
      (If (Above 70) (If (Within 97 102) (Go (st 174)) Fall) (Go (st 174))); Go (st 0)];
    St 184 [(58, st 111); (93, st 460)] [If (Below 65) (If (Within 48 57) (Go (st 174)) Fall) (If (Above 70)
      (If (Within 97 102) (Go (st 174)) Fall) (Go (st 174))); Go (st 0)];
    St 185 [(46, st 72); (58, st 172); (93, st 460)] [If (Below 65) (If (Within 48 57) (Go (st 186)) Fall)
      (If (Above 70) (If (Within 97 102) (Go (st 169)) Fall) (Go (st 169))); Go (st 0)];
    St 186 [(46, st 72); (58, st 172); (93, st 460)] [If (Below 65) (If (Within 48 57) (Go (st 187)) Fall)
      (If (Above 70) (If (Within 97 102) (Go (st 170)) Fall) (Go (st 170))); Go (st 0)]
].

Definition uri_code_33 : list entry := [
    St 187 [(46, st 72); (58, st 172); (93, st 460)] [If (Below 65) (If (Within 48 57) (Go (st 171)) Fall)
      (If (Above 70) (If (Within 97 102) (Go (st 171)) Fall) (Go (st 171))); Go (st 0)];
    St 188 [(46, st 72); (53, st 190); (58, st 172); (93, st 460)] [If (Below 65) (If (Within 48 57)
      (Go (st 189)) Fall) (If (Above 70) (If (Within 97 102) (Go (st 169)) Fall) (Go (st 169))); Go (st 0)];
    St 189 [(46, st 72); (58, st 172); (93, st 460)] [If (Below 65) (If (Within 48 57) (Go (st 170)) Fall)
      (If (Above 70) (If (Within 97 102) (Go (st 170)) Fall) (Go (st 170))); Go (st 0)];
    St 190 [(46, st 72); (58, st 172); (93, st 460)] [If (Below 54) (If (Within 48 53) (Go (st 187)) Fall)
      (If (Above 57) (If (Above 70) (If (Within 97 102) (Go (st 170)) Fall) (If (AtLeast 65) (Go (st 170))
      Fall)) (Go (st 170))); Go (st 0)];
    St 191 [(46, st 72); (58, st 172); (93, st 460)] [If (Below 65) (If (Within 48 57) (Go (st 189)) Fall)
      (If (Above 70) (If (Within 97 102) (Go (st 169)) Fall) (Go (st 169))); Go (st 0)];
    St 192 [(58, st 172); (93, st 460)] [If (Below 65) (If (Within 48 57) (Go (st 169)) Fall) (If (Above 70)
      (If (Within 97 102) (Go (st 169)) Fall) (Go (st 169))); Go (st 0)];
    St 193 [(46, st 72); (58, st 167); (93, st 460)] [If (Below 65) (If (Within 48 57) (Go (st 194)) Fall)
      (If (Above 70) (If (Within 97 102) (Go (st 164)) Fall) (Go (st 164))); Go (st 0)]
].

Definition uri_code_34 : list entry := [
    St 194 [(46, st 72); (58, st 167); (93, st 460)] [If (Below 65) (If (Within 48 57) (Go (st 195)) Fall)
      (If (Above 70) (If (Within 97 102) (Go (st 165)) Fall) (Go (st 165))); Go (st 0)];
    St 195 [(46, st 72); (58, st 167); (93, st 460)] [If (Below 65) (If (Within 48 57) (Go (st 166)) Fall)
      (If (Above 70) (If (Within 97 102) (Go (st 166)) Fall) (Go (st 166))); Go (st 0)];
    St 196 [(46, st 72); (53, st 198); (58, st 167); (93, st 460)] [If (Below 65) (If (Within 48 57)
      (Go (st 197)) Fall) (If (Above 70) (If (Within 97 102) (Go (st 164)) Fall) (Go (st 164))); Go (st 0)];
    St 197 [(46, st 72); (58, st 167); (93, st 460)] [If (Below 65) (If (Within 48 57) (Go (st 165)) Fall)
      (If (Above 70) (If (Within 97 102) (Go (st 165)) Fall) (Go (st 165))); Go (st 0)];
    St 198 [(46, st 72); (58, st 167); (93, st 460)] [If (Below 54) (If (Within 48 53) (Go (st 195)) Fall)
      (If (Above 57) (If (Above 70) (If (Within 97 102) (Go (st 165)) Fall) (If (AtLeast 65) (Go (st 165))
      Fall)) (Go (st 165))); Go (st 0)];
    St 199 [(46, st 72); (58, st 167); (93, st 460)] [If (Below 65) (If (Within 48 57) (Go (st 197)) Fall)
      (If (Above 70) (If (Within 97 102) (Go (st 164)) Fall) (Go (st 164))); Go (st 0)];
    St 200 [(58, st 167); (93, st 460)] [If (Below 65) (If (Within 48 57) (Go (st 164)) Fall) (If (Above 70)
      (If (Within 97 102) (Go (st 164)) Fall) (Go (st 164))); Go (st 0)]
].

Definition uri_code_35 : list entry := [
    St 201 [(46, st 72); (58, st 162); (93, st 460)] [If (Below 65) (If (Within 48 57) (Go (st 202)) Fall)
      (If (Above 70) (If (Within 97 102) (Go (st 159)) Fall) (Go (st 159))); Go (st 0)];
    St 202 [(46, st 72); (58, st 162); (93, st 460)] [If (Below 65) (If (Within 48 57) (Go (st 203)) Fall)
      (If (Above 70) (If (Within 97 102) (Go (st 160)) Fall) (Go (st 160))); Go (st 0)];
    St 203 [(46, st 72); (58, st 162); (93, st 460)] [If (Below 65) (If (Within 48 57) (Go (st 161)) Fall)
      (If (Above 70) (If (Within 97 102) (Go (st 161)) Fall) (Go (st 161))); Go (st 0)];
    St 204 [(46, st 72); (53, st 206); (58, st 162); (93, st 460)] [If (Below 65) (If (Within 48 57)
      (Go (st 205)) Fall) (If (Above 70) (If (Within 97 102) (Go (st 159)) Fall) (Go (st 159))); Go (st 0)];
    St 205 [(46, st 72); (58, st 162); (93, st 460)] [If (Below 65) (If (Within 48 57) (Go (st 160)) Fall)
      (If (Above 70) (If (Within 97 102) (Go (st 160)) Fall) (Go (st 160))); Go (st 0)];
    St 206 [(46, st 72); (58, st 162); (93, st 460)] [If (Below 54) (If (Within 48 53) (Go (st 203)) Fall)
      (If (Above 57) (If (Above 70) (If (Within 97 102) (Go (st 160)) Fall) (If (AtLeast 65) (Go (st 160))
      Fall)) (Go (st 160))); Go (st 0)]
].

Definition uri_code_36 : list entry := [
    St 207 [(46, st 72); (58, st 162); (93, st 460)] [If (Below 65) (If (Within 48 57) (Go (st 205)) Fall)
      (If (Above 70) (If (Within 97 102) (Go (st 159)) Fall) (Go (st 159))); Go (st 0)];
    St 208 [(58, st 162); (93, st 460)] [If (Below 65) (If (Within 48 57) (Go (st 159)) Fall) (If (Above 70)
      (If (Within 97 102) (Go (st 159)) Fall) (Go (st 159))); Go (st 0)];
    St 209 [(46, st 72); (58, st 157); (93, st 460)] [If (Below 65) (If (Within 48 57) (Go (st 210)) Fall)
      (If (Above 70) (If (Within 97 102) (Go (st 154)) Fall) (Go (st 154))); Go (st 0)];
    St 210 [(46, st 72); (58, st 157); (93, st 460)] [If (Below 65) (If (Within 48 57) (Go (st 211)) Fall)
      (If (Above 70) (If (Within 97 102) (Go (st 155)) Fall) (Go (st 155))); Go (st 0)];
    St 211 [(46, st 72); (58, st 157); (93, st 460)] [If (Below 65) (If (Within 48 57) (Go (st 156)) Fall)
      (If (Above 70) (If (Within 97 102) (Go (st 156)) Fall) (Go (st 156))); Go (st 0)];
    St 212 [(46, st 72); (53, st 214); (58, st 157); (93, st 460)] [If (Below 65) (If (Within 48 57)
      (Go (st 213)) Fall) (If (Above 70) (If (Within 97 102) (Go (st 154)) Fall) (Go (st 154))); Go (st 0)];
    St 213 [(46, st 72); (58, st 157); (93, st 460)] [If (Below 65) (If (Within 48 57) (Go (st 155)) Fall)
      (If (Above 70) (If (Within 97 102) (Go (st 155)) Fall) (Go (st 155))); Go (st 0)]
].

Definition uri_code_37 : list entry := [
    St 214 [(46, st 72); (58, st 157); (93, st 460)] [If (Below 54) (If (Within 48 53) (Go (st 211)) Fall)
      (If (Above 57) (If (Above 70) (If (Within 97 102) (Go (st 155)) Fall) (If (AtLeast 65) (Go (st 155))
      Fall)) (Go (st 155))); Go (st 0)];
    St 215 [(46, st 72); (58, st 157); (93, st 460)] [If (Below 65) (If (Within 48 57) (Go (st 213)) Fall)
      (If (Above 70) (If (Within 97 102) (Go (st 154)) Fall) (Go (st 154))); Go (st 0)];
    St 216 [(58, st 157); (93, st 460)] [If (Below 65) (If (Within 48 57) (Go (st 154)) Fall) (If (Above 70)
      (If (Within 97 102) (Go (st 154)) Fall) (Go (st 154))); Go (st 0)];
    St 217 [(46, st 72); (58, st 152); (93, st 460)] [If (Below 65) (If (Within 48 57) (Go (st 218)) Fall)
      (If (Above 70) (If (Within 97 102) (Go (st 149)) Fall) (Go (st 149))); Go (st 0)];
    St 218 [(46, st 72); (58, st 152); (93, st 460)] [If (Below 65) (If (Within 48 57) (Go (st 219)) Fall)
      (If (Above 70) (If (Within 97 102) (Go (st 150)) Fall) (Go (st 150))); Go (st 0)];
    St 219 [(46, st 72); (58, st 152); (93, st 460)] [If (Below 65) (If (Within 48 57) (Go (st 151)) Fall)
      (If (Above 70) (If (Within 97 102) (Go (st 151)) Fall) (Go (st 151))); Go (st 0)];
    St 220 [(46, st 72); (53, st 222); (58, st 152); (93, st 460)] [If (Below 65) (If (Within 48 57)
      (Go (st 221)) Fall) (If (Above 70) (If (Within 97 102) (Go (st 149)) Fall) (Go (st 149))); Go (st 0)]
].

Definition uri_code_38 : list entry := [
    St 221 [(46, st 72); (58, st 152); (93, st 460)] [If (Below 65) (If (Within 48 57) (Go (st 150)) Fall)
      (If (Above 70) (If (Within 97 102) (Go (st 150)) Fall) (Go (st 150))); Go (st 0)];
    St 222 [(46, st 72); (58, st 152); (93, st 460)] [If (Below 54) (If (Within 48 53) (Go (st 219)) Fall)
      (If (Above 57) (If (Above 70) (If (Within 97 102) (Go (st 150)) Fall) (If (AtLeast 65) (Go (st 150))
      Fall)) (Go (st 150))); Go (st 0)];
    St 223 [(46, st 72); (58, st 152); (93, st 460)] [If (Below 65) (If (Within 48 57) (Go (st 221)) Fall)
      (If (Above 70) (If (Within 97 102) (Go (st 149)) Fall) (Go (st 149))); Go (st 0)];
    St 224 [(58, st 152); (93, st 460)] [If (Below 65) (If (Within 48 57) (Go (st 149)) Fall) (If (Above 70)
      (If (Within 97 102) (Go (st 149)) Fall) (Go (st 149))); Go (st 0)];
    St 225 [] [If (Below 65) (If (Within 48 57) (Go (st 226)) Fall) (If (Above 70) (If (Within 97 102)
      (Go (st 226)) Fall) (Go (st 226))); Go (st 0)];
    St 226 [] [If (Is 46) (Go (st 227)) Fall; If (Below 65) (If (Within 48 57) (Go (st 226)) Fall)
      (If (Above 70) (If (Within 97 102) (Go (st 226)) Fall) (Go (st 226))); Go (st 0)];
    St 227 [(33, st 228); (36, st 228); (61, st 228); (95, st 228); (126, st 228)] [If (Below 48)
      (If (Within 38 46) (Go (st 228)) Fall) (If (Above 59) (If (Above 90) (If (Within 97 122) (Go (st 228))
      Fall) (If (AtLeast 65) (Go (st 228)) Fall)) (Go (st 228))); Go (st 0)]
].

Definition uri_code_39 : list entry := [
    St 228 [(33, st 228); (36, st 228); (61, st 228); (93, st 460); (95, st 228); (126, st 228)]
      [If (Below 48) (If (Within 38 46) (Go (st 228)) Fall) (If (Above 59) (If (Above 90)
      (If (Within 97 122) (Go (st 228)) Fall) (If (AtLeast 65) (Go (st 228)) Fall)) (Go (st 228))); Go (st
      0)];
    Tr 500 [markh] 489;
    St 489 [(33, st 33); (35, tr 493); (37, st 34); (47, tr 494); (61, st 33); (63, tr 496); (64, tr 38);
      (95, st 33); (126, st 33)] [If (Below 58) (If (Above 46) (If (Within 48 57) (Go (st 489)) Fall)
      (If (AtLeast 36) (Go (st 33)) Fall)) (If (Above 59) (If (Above 90) (If (Within 97 122) (Go (st 33))
      Fall) (If (AtLeast 65) (Go (st 33)) Fall)) (Go (st 33))); Go (st 0)];
    Tr 477 [markh] 490;
    St 490 [(33, st 467); (35, tr 485); (37, st 31); (46, st 491); (47, tr 486); (58, tr 499); (61, st 467);
      (63, tr 488); (64, tr 38); (95, st 467); (126, st 467)] [If (Below 65) (If (Within 36 59)
      (Go (st 467)) Fall) (If (Above 90) (If (Within 97 122) (Go (st 467)) Fall) (Go (st 467))); Go (st 0)]
].

Definition uri_code_40 : list entry := [
    St 491 [(2, st 13); (33, st 467); (35, tr 485); (37, st 31); (47, tr 486); (48, st 492); (49, st 500);
      (50, st 502); (58, tr 499); (59, st 467); (61, st 467); (63, tr 488); (64, tr 38); (95, st 467);
      (126, st 467)] [If (Below 51) (If (Within 36 46) (Go (st 467)) Fall) (If (Above 57) (If (Above 90)
      (If (Within 97 122) (Go (st 467)) Fall) (If (AtLeast 65) (Go (st 467)) Fall)) (Go (st 501))); Go (st
      0)];
    St 492 [(33, st 467); (35, tr 485); (37, st 31); (46, st 493); (47, tr 486); (58, tr 499); (61, st 467);
      (63, tr 488); (64, tr 38); (95, st 467); (126, st 467)] [If (Below 65) (If (Within 36 59)
      (Go (st 467)) Fall) (If (Above 90) (If (Within 97 122) (Go (st 467)) Fall) (Go (st 467))); Go (st 0)];
    St 493 [(2, st 17); (33, st 467); (35, tr 485); (37, st 31); (47, tr 486); (48, st 494); (49, st 496);
      (50, st 498); (58, tr 499); (59, st 467); (61, st 467); (63, tr 488); (64, tr 38); (95, st 467);
      (126, st 467)] [If (Below 51) (If (Within 36 46) (Go (st 467)) Fall) (If (Above 57) (If (Above 90)
      (If (Within 97 122) (Go (st 467)) Fall) (If (AtLeast 65) (Go (st 467)) Fall)) (Go (st 497))); Go (st
      0)]
].

Definition uri_code_41 : list entry := [
    St 494 [(33, st 467); (35, tr 485); (37, st 31); (46, st 495); (47, tr 486); (58, tr 499); (61, st 467);
      (63, tr 488); (64, tr 38); (95, st 467); (126, st 467)] [If (Below 65) (If (Within 36 59)
      (Go (st 467)) Fall) (If (Above 90) (If (Within 97 122) (Go (st 467)) Fall) (Go (st 467))); Go (st 0)];
    St 495 [(2, st 21); (33, st 467); (35, tr 485); (37, st 31); (47, tr 486); (58, tr 499); (61, st 467);
      (63, tr 488); (64, tr 38); (95, st 467); (126, st 467)] [If (Below 65) (If (Within 36 59)
      (Go (st 467)) Fall) (If (Above 90) (If (Within 97 122) (Go (st 467)) Fall) (Go (st 467))); Go (st 0)];
    St 496 [(33, st 467); (35, tr 485); (37, st 31); (46, st 495); (47, tr 486); (58, tr 499); (59, st 467);
      (61, st 467); (63, tr 488); (64, tr 38); (95, st 467); (126, st 467)] [If (Below 48)
      (If (Within 36 45) (Go (st 467)) Fall) (If (Above 57) (If (Above 90) (If (Within 97 122) (Go (st 467))
      Fall) (If (AtLeast 65) (Go (st 467)) Fall)) (Go (st 497))); Go (st 0)]
].

Definition uri_code_42 : list entry := [
    St 497 [(33, st 467); (35, tr 485); (37, st 31); (46, st 495); (47, tr 486); (58, tr 499); (59, st 467);
      (61, st 467); (63, tr 488); (64, tr 38); (95, st 467); (126, st 467)] [If (Below 48)
      (If (Within 36 45) (Go (st 467)) Fall) (If (Above 57) (If (Above 90) (If (Within 97 122) (Go (st 467))
      Fall) (If (AtLeast 65) (Go (st 467)) Fall)) (Go (st 494))); Go (st 0)];
    St 498 [(33, st 467); (35, tr 485); (37, st 31); (46, st 495); (47, tr 486); (53, st 499); (58, tr 499);
      (59, st 467); (61, st 467); (63, tr 488); (64, tr 38); (95, st 467); (126, st 467)] [If (Below 48)
      (If (Within 36 45) (Go (st 467)) Fall) (If (Above 57) (If (Above 90) (If (Within 97 122) (Go (st 467))
      Fall) (If (AtLeast 65) (Go (st 467)) Fall)) (Go (st 494))); Go (st 0)];
    St 499 [(33, st 467); (35, tr 485); (37, st 31); (46, st 495); (47, tr 486); (58, tr 499); (61, st 467);
      (63, tr 488); (64, tr 38); (95, st 467); (126, st 467)] [If (Below 54) (If (Above 45)
      (If (Within 48 53) (Go (st 494)) Fall) (If (AtLeast 36) (Go (st 467)) Fall)) (If (Above 59)
      (If (Above 90) (If (Within 97 122) (Go (st 467)) Fall) (If (AtLeast 65) (Go (st 467)) Fall))
      (Go (st 467))); Go (st 0)]
].

Definition uri_code_43 : list entry := [
    St 500 [(33, st 467); (35, tr 485); (37, st 31); (46, st 493); (47, tr 486); (58, tr 499); (59, st 467);
      (61, st 467); (63, tr 488); (64, tr 38); (95, st 467); (126, st 467)] [If (Below 48)
      (If (Within 36 45) (Go (st 467)) Fall) (If (Above 57) (If (Above 90) (If (Within 97 122) (Go (st 467))
      Fall) (If (AtLeast 65) (Go (st 467)) Fall)) (Go (st 501))); Go (st 0)];
    St 501 [(33, st 467); (35, tr 485); (37, st 31); (46, st 493); (47, tr 486); (58, tr 499); (59, st 467);
      (61, st 467); (63, tr 488); (64, tr 38); (95, st 467); (126, st 467)] [If (Below 48)
      (If (Within 36 45) (Go (st 467)) Fall) (If (Above 57) (If (Above 90) (If (Within 97 122) (Go (st 467))
      Fall) (If (AtLeast 65) (Go (st 467)) Fall)) (Go (st 492))); Go (st 0)];
    St 502 [(33, st 467); (35, tr 485); (37, st 31); (46, st 493); (47, tr 486); (53, st 503); (58, tr 499);
      (59, st 467); (61, st 467); (63, tr 488); (64, tr 38); (95, st 467); (126, st 467)] [If (Below 48)
      (If (Within 36 45) (Go (st 467)) Fall) (If (Above 57) (If (Above 90) (If (Within 97 122) (Go (st 467))
      Fall) (If (AtLeast 65) (Go (st 467)) Fall)) (Go (st 492))); Go (st 0)]
].

Definition uri_code_44 : list entry := [
    St 503 [(33, st 467); (35, tr 485); (37, st 31); (46, st 493); (47, tr 486); (58, tr 499); (61, st 467);
      (63, tr 488); (64, tr 38); (95, st 467); (126, st 467)] [If (Below 54) (If (Above 45)
      (If (Within 48 53) (Go (st 492)) Fall) (If (AtLeast 36) (Go (st 467)) Fall)) (If (Above 59)
      (If (Above 90) (If (Within 97 122) (Go (st 467)) Fall) (If (AtLeast 65) (Go (st 467)) Fall))
      (Go (st 467))); Go (st 0)];
    Tr 478 [markh] 504;
    St 504 [(33, st 467); (35, tr 485); (37, st 31); (46, st 491); (47, tr 486); (58, tr 499); (59, st 467);
      (61, st 467); (63, tr 488); (64, tr 38); (95, st 467); (126, st 467)] [If (Below 48)
      (If (Within 36 45) (Go (st 467)) Fall) (If (Above 57) (If (Above 90) (If (Within 97 122) (Go (st 467))
      Fall) (If (AtLeast 65) (Go (st 467)) Fall)) (Go (st 505))); Go (st 0)];
    Tr 480 [markh] 505;
    St 505 [(33, st 467); (35, tr 485); (37, st 31); (46, st 491); (47, tr 486); (58, tr 499); (59, st 467);
      (61, st 467); (63, tr 488); (64, tr 38); (95, st 467); (126, st 467)] [If (Below 48)
      (If (Within 36 45) (Go (st 467)) Fall) (If (Above 57) (If (Above 90) (If (Within 97 122) (Go (st 467))
      Fall) (If (AtLeast 65) (Go (st 467)) Fall)) (Go (st 490))); Go (st 0)];
    Tr 479 [markh] 506
].
