(* ===== verification/UriStates2.v ===== *)
(** * The states of Uri::Create, part 2 of 2 (sylar/uri.cpp, lines 6123 to 11918)

    One table for each stretch of the goto code, with its labels in their order;
    see UriMachine.v. *)

From Stdlib Require Import ZArith List.
From S2P Require Import UriMachine.
Import ListNotations.

Local Open Scope Z_scope.
Local Open Scope list_scope.

Definition uri_code_45 : list entry := [
    St 506 [(33, st 467); (35, tr 485); (37, st 31); (46, st 491); (47, tr 486); (53, st 507); (58, tr 499);
      (59, st 467); (61, st 467); (63, tr 488); (64, tr 38); (95, st 467); (126, st 467)] [If (Below 48)
      (If (Within 36 45) (Go (st 467)) Fall) (If (Above 57) (If (Above 90) (If (Within 97 122) (Go (st 467))
      Fall) (If (AtLeast 65) (Go (st 467)) Fall)) (Go (st 490))); Go (st 0)];
    St 507 [(33, st 467); (35, tr 485); (37, st 31); (46, st 491); (47, tr 486); (58, tr 499); (61, st 467);
      (63, tr 488); (64, tr 38); (95, st 467); (126, st 467)] [If (Below 54) (If (Above 45)
      (If (Within 48 53) (Go (st 490)) Fall) (If (AtLeast 36) (Go (st 467)) Fall)) (If (Above 59)
      (If (Above 90) (If (Within 97 122) (Go (st 467)) Fall) (If (AtLeast 65) (Go (st 467)) Fall))
      (Go (st 467))); Go (st 0)];
    Tr 461 [marku] 508;
    St 508 [(34, st 0); (35, st 453); (37, st 3); (43, st 508); (47, st 455); (58, tr 543); (60, st 0);
      (62, st 0); (63, st 456); (96, st 0); (127, st 0)] [If (Below 65) (If (Above 32) (If (Within 45 57)
      (Go (st 508)) Fall) (If (AtLeast 0) (Go (st 0)) Fall)) (If (Above 90) (If (Below 97)
      (If (Within 91 94) (Go (st 0)) Fall) (If (Above 122) (If (Within 123 125) (Go (st 0)) Fall)
      (Go (st 508)))) (Go (st 508))); Go (st 452)];
    Tr 543 [save_scheme] 509
].

Definition uri_code_46 : list entry := [
    St 509 [(34, st 0); (35, st 453); (37, st 5); (47, st 510); (60, st 0); (62, st 0); (63, st 456);
      (96, st 0); (127, st 0)] [If (Below 91) (If (Within 0 32) (Go (st 0)) Fall) (If (Above 94)
      (If (Within 123 125) (Go (st 0)) Fall) (Go (st 0))); Go (st 455)];
    St 510 [(34, st 0); (35, st 453); (37, st 5); (47, st 511); (60, st 0); (62, st 0); (63, st 456);
      (96, st 0); (127, st 0)] [If (Below 91) (If (Within 0 32) (Go (st 0)) Fall) (If (Above 94)
      (If (Within 123 125) (Go (st 0)) Fall) (Go (st 0))); Go (st 455)];
    St 511 [(2, tr 546); (33, tr 547); (35, tr 548); (37, tr 549); (47, tr 550); (48, tr 551); (49, tr 552);
      (50, tr 553); (58, tr 555); (59, tr 547); (61, tr 547); (63, tr 556); (64, tr 557); (91, tr 558);
      (95, tr 547); (126, tr 547)] [If (Below 51) (If (Within 36 46) (Go (tr 547)) Fall) (If (Above 57)
      (If (Above 90) (If (Within 97 122) (Go (tr 547)) Fall) (If (AtLeast 65) (Go (tr 547)) Fall))
      (Go (tr 554))); Go (st 0)];
    Tr 546 [markh] 229;
    St 229 [] [If (Within 48 52) (Go (st 230)) Fall; Go (st 0)];
    St 230 [] [If (Within 48 57) (Go (st 231)) Fall; Go (st 0)];
    St 231 [] [If (Is 46) (Go (st 232)) Fall; Go (st 0)]
].

Definition uri_code_47 : list entry := [
    St 232 [(2, st 233); (48, st 235); (49, st 249); (50, st 251)] [If (Within 51 57) (Go (st 250)) Fall; Go
      (st 0)];
    St 233 [] [If (Within 48 52) (Go (st 234)) Fall; Go (st 0)];
    St 234 [] [If (Within 48 57) (Go (st 235)) Fall; Go (st 0)];
    St 235 [] [If (Is 46) (Go (st 236)) Fall; Go (st 0)];
    St 236 [(2, st 237); (48, st 239); (49, st 245); (50, st 247)] [If (Within 51 57) (Go (st 246)) Fall; Go
      (st 0)];
    St 237 [] [If (Within 48 52) (Go (st 238)) Fall; Go (st 0)];
    St 238 [] [If (Within 48 57) (Go (st 239)) Fall; Go (st 0)];
    St 239 [] [If (Is 46) (Go (st 240)) Fall; Go (st 0)];
    St 240 [(2, st 241); (48, st 512); (49, st 516); (50, st 518)] [If (Within 51 57) (Go (st 517)) Fall; Go
      (st 0)];
    St 241 [] [If (Within 48 52) (Go (st 242)) Fall; Go (st 0)];
    St 242 [] [If (Within 48 57) (Go (st 512)) Fall; Go (st 0)];
    St 512 [(35, tr 559); (47, tr 560); (58, tr 561); (63, tr 562)] [Go (st 0)];
    Tr 550 [markh; save_host] 513;
    Tr 567 [markh; save_port] 513
].

Definition uri_code_48 : list entry := [
    Tr 560 [save_host; markh] 513;
    Tr 571 [save_port; markh] 513;
    St 513 [(34, st 0); (35, tr 563); (37, st 243); (60, st 0); (62, st 0); (63, tr 565); (96, st 0);
      (127, st 0)] [If (Below 91) (If (Within 0 32) (Go (st 0)) Fall) (If (Above 94) (If (Within 123 125)
      (Go (st 0)) Fall) (Go (st 0))); Go (st 513)];
    St 243 [] [If (Below 65) (If (Within 48 57) (Go (st 244)) Fall) (If (Above 70) (If (Within 97 102)
      (Go (st 244)) Fall) (Go (st 244))); Go (st 0)];
    St 244 [] [If (Below 65) (If (Within 48 57) (Go (st 513)) Fall) (If (Above 70) (If (Within 97 102)
      (Go (st 513)) Fall) (Go (st 513))); Go (st 0)];
    Tr 584 [markh; save_host] 514;
    Tr 561 [save_host] 514;
    St 514 [(35, tr 566); (47, tr 567); (63, tr 569)] [If (Within 48 57) (Go (tr 568)) Fall; Go (st 0)];
    Tr 568 [markh] 515;
    St 515 [(35, tr 570); (47, tr 571); (63, tr 573)] [If (Within 48 57) (Go (st 515)) Fall; Go (st 0)]
].

Definition uri_code_49 : list entry := [
    St 516 [(35, tr 559); (47, tr 560); (58, tr 561); (63, tr 562)] [If (Within 48 57) (Go (st 517)) Fall;
      Go (st 0)];
    St 517 [(35, tr 559); (47, tr 560); (58, tr 561); (63, tr 562)] [If (Within 48 57) (Go (st 512)) Fall;
      Go (st 0)];
    St 518 [(35, tr 559); (47, tr 560); (53, st 519); (58, tr 561); (63, tr 562)] [If (Within 48 57)
      (Go (st 512)) Fall; Go (st 0)];
    St 519 [(35, tr 559); (47, tr 560); (58, tr 561); (63, tr 562)] [If (Within 48 53) (Go (st 512)) Fall;
      Go (st 0)];
    St 245 [] [If (Is 46) (Go (st 240)) Fall; If (Within 48 57) (Go (st 246)) Fall; Go (st 0)];
    St 246 [] [If (Is 46) (Go (st 240)) Fall; If (Within 48 57) (Go (st 239)) Fall; Go (st 0)];
    St 247 [(46, st 240); (53, st 248)] [If (Within 48 57) (Go (st 239)) Fall; Go (st 0)];
    St 248 [] [If (Is 46) (Go (st 240)) Fall; If (Within 48 53) (Go (st 239)) Fall; Go (st 0)];
    St 249 [] [If (Is 46) (Go (st 236)) Fall; If (Within 48 57) (Go (st 250)) Fall; Go (st 0)];
    St 250 [] [If (Is 46) (Go (st 236)) Fall; If (Within 48 57) (Go (st 235)) Fall; Go (st 0)];
    St 251 [(46, st 236); (53, st 252)] [If (Within 48 57) (Go (st 235)) Fall; Go (st 0)];
    St 252 [] [If (Is 46) (Go (st 236)) Fall; If (Within 48 53) (Go (st 235)) Fall; Go (st 0)]
].

Definition uri_code_50 : list entry := [
    Tr 547 [markh] 520;
    St 520 [(33, st 520); (35, tr 559); (37, st 253); (47, tr 560); (58, tr 576); (61, st 520);
      (63, tr 562); (64, tr 263); (95, st 520); (126, st 520)] [If (Below 65) (If (Within 36 59)
      (Go (st 520)) Fall) (If (Above 90) (If (Within 97 122) (Go (st 520)) Fall) (Go (st 520))); Go (st 0)];
    Tr 549 [markh] 253;
    St 253 [] [If (Below 65) (If (Within 48 57) (Go (st 254)) Fall) (If (Above 70) (If (Within 97 102)
      (Go (st 254)) Fall) (Go (st 254))); Go (st 0)];
    St 254 [] [If (Below 65) (If (Within 48 57) (Go (st 520)) Fall) (If (Above 70) (If (Within 97 102)
      (Go (st 520)) Fall) (Go (st 520))); Go (st 0)];
    Tr 555 [markh; save_host] 521;
    Tr 576 [save_host] 521;
    St 521 [(33, st 255); (35, tr 566); (37, st 256); (47, tr 567); (61, st 255); (63, tr 569);
      (64, tr 263); (95, st 255); (126, st 255)] [If (Below 58) (If (Above 46) (If (Within 48 57)
      (Go (tr 577)) Fall) (If (AtLeast 36) (Go (st 255)) Fall)) (If (Above 59) (If (Above 90)
      (If (Within 97 122) (Go (st 255)) Fall) (If (AtLeast 65) (Go (st 255)) Fall)) (Go (st 255))); Go (st
      0)]
].

Definition uri_code_51 : list entry := [
    St 255 [(33, st 255); (37, st 256); (61, st 255); (64, tr 263); (95, st 255); (126, st 255)]
      [If (Below 48) (If (Within 36 46) (Go (st 255)) Fall) (If (Above 59) (If (Above 90)
      (If (Within 97 122) (Go (st 255)) Fall) (If (AtLeast 65) (Go (st 255)) Fall)) (Go (st 255))); Go (st
      0)];
    St 256 [] [If (Below 65) (If (Within 48 57) (Go (st 257)) Fall) (If (Above 70) (If (Within 97 102)
      (Go (st 257)) Fall) (Go (st 257))); Go (st 0)];
    St 257 [] [If (Below 65) (If (Within 48 57) (Go (st 255)) Fall) (If (Above 70) (If (Within 97 102)
      (Go (st 255)) Fall) (Go (st 255))); Go (st 0)];
    Tr 263 [save_userinfo] 522;
    Tr 557 [markh; save_userinfo] 522;
    St 522 [(2, tr 546); (33, tr 578); (35, tr 548); (37, tr 579); (47, tr 550); (48, tr 580); (49, tr 581);
      (50, tr 582); (58, tr 584); (59, tr 578); (61, tr 578); (63, tr 556); (91, tr 558); (95, tr 578);
      (126, tr 578)] [If (Below 51) (If (Within 36 46) (Go (tr 578)) Fall) (If (Above 57) (If (Above 90)
      (If (Within 97 122) (Go (tr 578)) Fall) (If (AtLeast 65) (Go (tr 578)) Fall)) (Go (tr 583))); Go (st
      0)];
    Tr 578 [markh] 523
].

Definition uri_code_52 : list entry := [
    St 523 [(33, st 523); (35, tr 559); (37, st 258); (47, tr 560); (58, tr 561); (61, st 523);
      (63, tr 562); (95, st 523); (126, st 523)] [If (Below 65) (If (Within 36 59) (Go (st 523)) Fall)
      (If (Above 90) (If (Within 97 122) (Go (st 523)) Fall) (Go (st 523))); Go (st 0)];
    Tr 579 [markh] 258;
    St 258 [] [If (Below 65) (If (Within 48 57) (Go (st 259)) Fall) (If (Above 70) (If (Within 97 102)
      (Go (st 259)) Fall) (Go (st 259))); Go (st 0)];
    St 259 [] [If (Below 65) (If (Within 48 57) (Go (st 523)) Fall) (If (Above 70) (If (Within 97 102)
      (Go (st 523)) Fall) (Go (st 523))); Go (st 0)];
    Tr 580 [markh] 524;
    St 524 [(33, st 523); (35, tr 559); (37, st 258); (46, st 525); (47, tr 560); (58, tr 561);
      (61, st 523); (63, tr 562); (95, st 523); (126, st 523)] [If (Below 65) (If (Within 36 59)
      (Go (st 523)) Fall) (If (Above 90) (If (Within 97 122) (Go (st 523)) Fall) (Go (st 523))); Go (st 0)]
].

Definition uri_code_53 : list entry := [
    St 525 [(2, st 233); (33, st 523); (35, tr 559); (37, st 258); (47, tr 560); (48, st 526); (49, st 534);
      (50, st 536); (58, tr 561); (59, st 523); (61, st 523); (63, tr 562); (95, st 523); (126, st 523)]
      [If (Below 51) (If (Within 36 46) (Go (st 523)) Fall) (If (Above 57) (If (Above 90)
      (If (Within 97 122) (Go (st 523)) Fall) (If (AtLeast 65) (Go (st 523)) Fall)) (Go (st 535))); Go (st
      0)];
    St 526 [(33, st 523); (35, tr 559); (37, st 258); (46, st 527); (47, tr 560); (58, tr 561);
      (61, st 523); (63, tr 562); (95, st 523); (126, st 523)] [If (Below 65) (If (Within 36 59)
      (Go (st 523)) Fall) (If (Above 90) (If (Within 97 122) (Go (st 523)) Fall) (Go (st 523))); Go (st 0)];
    St 527 [(2, st 237); (33, st 523); (35, tr 559); (37, st 258); (47, tr 560); (48, st 528); (49, st 530);
      (50, st 532); (58, tr 561); (59, st 523); (61, st 523); (63, tr 562); (95, st 523); (126, st 523)]
      [If (Below 51) (If (Within 36 46) (Go (st 523)) Fall) (If (Above 57) (If (Above 90)
      (If (Within 97 122) (Go (st 523)) Fall) (If (AtLeast 65) (Go (st 523)) Fall)) (Go (st 531))); Go (st
      0)]
].

Definition uri_code_54 : list entry := [
    St 528 [(33, st 523); (35, tr 559); (37, st 258); (46, st 529); (47, tr 560); (58, tr 561);
      (61, st 523); (63, tr 562); (95, st 523); (126, st 523)] [If (Below 65) (If (Within 36 59)
      (Go (st 523)) Fall) (If (Above 90) (If (Within 97 122) (Go (st 523)) Fall) (Go (st 523))); Go (st 0)];
    St 529 [(2, st 241); (33, st 523); (35, tr 559); (37, st 258); (47, tr 560); (58, tr 561); (61, st 523);
      (63, tr 562); (95, st 523); (126, st 523)] [If (Below 65) (If (Within 36 59) (Go (st 523)) Fall)
      (If (Above 90) (If (Within 97 122) (Go (st 523)) Fall) (Go (st 523))); Go (st 0)];
    St 530 [(33, st 523); (35, tr 559); (37, st 258); (46, st 529); (47, tr 560); (58, tr 561);
      (59, st 523); (61, st 523); (63, tr 562); (95, st 523); (126, st 523)] [If (Below 48)
      (If (Within 36 45) (Go (st 523)) Fall) (If (Above 57) (If (Above 90) (If (Within 97 122) (Go (st 523))
      Fall) (If (AtLeast 65) (Go (st 523)) Fall)) (Go (st 531))); Go (st 0)];
    St 531 [(33, st 523); (35, tr 559); (37, st 258); (46, st 529); (47, tr 560); (58, tr 561);
      (59, st 523); (61, st 523); (63, tr 562); (95, st 523); (126, st 523)] [If (Below 48)
      (If (Within 36 45) (Go (st 523)) Fall) (If (Above 57) (If (Above 90) (If (Within 97 122) (Go (st 523))
      Fall) (If (AtLeast 65) (Go (st 523)) Fall)) (Go (st 528))); Go (st 0)]
].

Definition uri_code_55 : list entry := [
    St 532 [(33, st 523); (35, tr 559); (37, st 258); (46, st 529); (47, tr 560); (53, st 533);
      (58, tr 561); (59, st 523); (61, st 523); (63, tr 562); (95, st 523); (126, st 523)] [If (Below 48)
      (If (Within 36 45) (Go (st 523)) Fall) (If (Above 57) (If (Above 90) (If (Within 97 122) (Go (st 523))
      Fall) (If (AtLeast 65) (Go (st 523)) Fall)) (Go (st 528))); Go (st 0)];
    St 533 [(33, st 523); (35, tr 559); (37, st 258); (46, st 529); (47, tr 560); (58, tr 561);
      (61, st 523); (63, tr 562); (95, st 523); (126, st 523)] [If (Below 54) (If (Above 45)
      (If (Within 48 53) (Go (st 528)) Fall) (If (AtLeast 36) (Go (st 523)) Fall)) (If (Above 59)
      (If (Above 90) (If (Within 97 122) (Go (st 523)) Fall) (If (AtLeast 65) (Go (st 523)) Fall))
      (Go (st 523))); Go (st 0)];
    St 534 [(33, st 523); (35, tr 559); (37, st 258); (46, st 527); (47, tr 560); (58, tr 561);
      (59, st 523); (61, st 523); (63, tr 562); (95, st 523); (126, st 523)] [If (Below 48)
      (If (Within 36 45) (Go (st 523)) Fall) (If (Above 57) (If (Above 90) (If (Within 97 122) (Go (st 523))
      Fall) (If (AtLeast 65) (Go (st 523)) Fall)) (Go (st 535))); Go (st 0)]
].

Definition uri_code_56 : list entry := [
    St 535 [(33, st 523); (35, tr 559); (37, st 258); (46, st 527); (47, tr 560); (58, tr 561);
      (59, st 523); (61, st 523); (63, tr 562); (95, st 523); (126, st 523)] [If (Below 48)
      (If (Within 36 45) (Go (st 523)) Fall) (If (Above 57) (If (Above 90) (If (Within 97 122) (Go (st 523))
      Fall) (If (AtLeast 65) (Go (st 523)) Fall)) (Go (st 526))); Go (st 0)];
    St 536 [(33, st 523); (35, tr 559); (37, st 258); (46, st 527); (47, tr 560); (53, st 537);
      (58, tr 561); (59, st 523); (61, st 523); (63, tr 562); (95, st 523); (126, st 523)] [If (Below 48)
      (If (Within 36 45) (Go (st 523)) Fall) (If (Above 57) (If (Above 90) (If (Within 97 122) (Go (st 523))
      Fall) (If (AtLeast 65) (Go (st 523)) Fall)) (Go (st 526))); Go (st 0)];
    St 537 [(33, st 523); (35, tr 559); (37, st 258); (46, st 527); (47, tr 560); (58, tr 561);
      (61, st 523); (63, tr 562); (95, st 523); (126, st 523)] [If (Below 54) (If (Above 45)
      (If (Within 48 53) (Go (st 526)) Fall) (If (AtLeast 36) (Go (st 523)) Fall)) (If (Above 59)
      (If (Above 90) (If (Within 97 122) (Go (st 523)) Fall) (If (AtLeast 65) (Go (st 523)) Fall))
      (Go (st 523))); Go (st 0)];
    Tr 581 [markh] 538
].

Definition uri_code_57 : list entry := [
    St 538 [(33, st 523); (35, tr 559); (37, st 258); (46, st 525); (47, tr 560); (58, tr 561);
      (59, st 523); (61, st 523); (63, tr 562); (95, st 523); (126, st 523)] [If (Below 48)
      (If (Within 36 45) (Go (st 523)) Fall) (If (Above 57) (If (Above 90) (If (Within 97 122) (Go (st 523))
      Fall) (If (AtLeast 65) (Go (st 523)) Fall)) (Go (st 539))); Go (st 0)];
    Tr 583 [markh] 539;
    St 539 [(33, st 523); (35, tr 559); (37, st 258); (46, st 525); (47, tr 560); (58, tr 561);
      (59, st 523); (61, st 523); (63, tr 562); (95, st 523); (126, st 523)] [If (Below 48)
      (If (Within 36 45) (Go (st 523)) Fall) (If (Above 57) (If (Above 90) (If (Within 97 122) (Go (st 523))
      Fall) (If (AtLeast 65) (Go (st 523)) Fall)) (Go (st 524))); Go (st 0)];
    Tr 582 [markh] 540;
    St 540 [(33, st 523); (35, tr 559); (37, st 258); (46, st 525); (47, tr 560); (53, st 541);
      (58, tr 561); (59, st 523); (61, st 523); (63, tr 562); (95, st 523); (126, st 523)] [If (Below 48)
      (If (Within 36 45) (Go (st 523)) Fall) (If (Above 57) (If (Above 90) (If (Within 97 122) (Go (st 523))
      Fall) (If (AtLeast 65) (Go (st 523)) Fall)) (Go (st 524))); Go (st 0)]
].

Definition uri_code_58 : list entry := [
    St 541 [(33, st 523); (35, tr 559); (37, st 258); (46, st 525); (47, tr 560); (58, tr 561);
      (61, st 523); (63, tr 562); (95, st 523); (126, st 523)] [If (Below 54) (If (Above 45)
      (If (Within 48 53) (Go (st 524)) Fall) (If (AtLeast 36) (Go (st 523)) Fall)) (If (Above 59)
      (If (Above 90) (If (Within 97 122) (Go (st 523)) Fall) (If (AtLeast 65) (Go (st 523)) Fall))
      (Go (st 523))); Go (st 0)];
    Tr 558 [markh] 260;
    St 260 [(58, st 368); (118, st 447)] [If (Below 65) (If (Within 48 57) (Go (st 261)) Fall)
      (If (Above 70) (If (Within 97 102) (Go (st 261)) Fall) (Go (st 261))); Go (st 0)];
    St 261 [] [If (Is 58) (Go (st 265)) Fall; If (Below 65) (If (Within 48 57) (Go (st 262)) Fall)
      (If (Above 70) (If (Within 97 102) (Go (st 262)) Fall) (Go (st 262))); Go (st 0)];
    St 262 [] [If (Is 58) (Go (st 265)) Fall; If (Below 65) (If (Within 48 57) (Go (st 263)) Fall)
      (If (Above 70) (If (Within 97 102) (Go (st 263)) Fall) (Go (st 263))); Go (st 0)];
    St 263 [] [If (Is 58) (Go (st 265)) Fall; If (Below 65) (If (Within 48 57) (Go (st 264)) Fall)
      (If (Above 70) (If (Within 97 102) (Go (st 264)) Fall) (Go (st 264))); Go (st 0)];
    St 264 [] [If (Is 58) (Go (st 265)) Fall; Go (st 0)];
    St 265 [] [If (Is 58) (Go (st 363)) Fall; If (Below 65) (If (Within 48 57) (Go (st 266)) Fall)
      (If (Above 70) (If (Within 97 102) (Go (st 266)) Fall) (Go (st 266))); Go (st 0)];
    St 266 [] [If (Is 58) (Go (st 270)) Fall; If (Below 65) (If (Within 48 57) (Go (st 267)) Fall)
      (If (Above 70) (If (Within 97 102) (Go (st 267)) Fall) (Go (st 267))); Go (st 0)]
].

Definition uri_code_59 : list entry := [
    St 267 [] [If (Is 58) (Go (st 270)) Fall; If (Below 65) (If (Within 48 57) (Go (st 268)) Fall)
      (If (Above 70) (If (Within 97 102) (Go (st 268)) Fall) (Go (st 268))); Go (st 0)];
    St 268 [] [If (Is 58) (Go (st 270)) Fall; If (Below 65) (If (Within 48 57) (Go (st 269)) Fall)
      (If (Above 70) (If (Within 97 102) (Go (st 269)) Fall) (Go (st 269))); Go (st 0)];
    St 269 [] [If (Is 58) (Go (st 270)) Fall; Go (st 0)];
    St 270 [] [If (Is 58) (Go (st 358)) Fall; If (Below 65) (If (Within 48 57) (Go (st 271)) Fall)
      (If (Above 70) (If (Within 97 102) (Go (st 271)) Fall) (Go (st 271))); Go (st 0)];
    St 271 [] [If (Is 58) (Go (st 275)) Fall; If (Below 65) (If (Within 48 57) (Go (st 272)) Fall)
      (If (Above 70) (If (Within 97 102) (Go (st 272)) Fall) (Go (st 272))); Go (st 0)];
    St 272 [] [If (Is 58) (Go (st 275)) Fall; If (Below 65) (If (Within 48 57) (Go (st 273)) Fall)
      (If (Above 70) (If (Within 97 102) (Go (st 273)) Fall) (Go (st 273))); Go (st 0)];
    St 273 [] [If (Is 58) (Go (st 275)) Fall; If (Below 65) (If (Within 48 57) (Go (st 274)) Fall)
      (If (Above 70) (If (Within 97 102) (Go (st 274)) Fall) (Go (st 274))); Go (st 0)];
    St 274 [] [If (Is 58) (Go (st 275)) Fall; Go (st 0)];
    St 275 [] [If (Is 58) (Go (st 353)) Fall; If (Below 65) (If (Within 48 57) (Go (st 276)) Fall)
      (If (Above 70) (If (Within 97 102) (Go (st 276)) Fall) (Go (st 276))); Go (st 0)];
    St 276 [] [If (Is 58) (Go (st 280)) Fall; If (Below 65) (If (Within 48 57) (Go (st 277)) Fall)
      (If (Above 70) (If (Within 97 102) (Go (st 277)) Fall) (Go (st 277))); Go (st 0)];
    St 277 [] [If (Is 58) (Go (st 280)) Fall; If (Below 65) (If (Within 48 57) (Go (st 278)) Fall)
      (If (Above 70) (If (Within 97 102) (Go (st 278)) Fall) (Go (st 278))); Go (st 0)]
].

Definition uri_code_60 : list entry := [
    St 278 [] [If (Is 58) (Go (st 280)) Fall; If (Below 65) (If (Within 48 57) (Go (st 279)) Fall)
      (If (Above 70) (If (Within 97 102) (Go (st 279)) Fall) (Go (st 279))); Go (st 0)];
    St 279 [] [If (Is 58) (Go (st 280)) Fall; Go (st 0)];
    St 280 [] [If (Is 58) (Go (st 348)) Fall; If (Below 65) (If (Within 48 57) (Go (st 281)) Fall)
      (If (Above 70) (If (Within 97 102) (Go (st 281)) Fall) (Go (st 281))); Go (st 0)];
    St 281 [] [If (Is 58) (Go (st 285)) Fall; If (Below 65) (If (Within 48 57) (Go (st 282)) Fall)
      (If (Above 70) (If (Within 97 102) (Go (st 282)) Fall) (Go (st 282))); Go (st 0)];
    St 282 [] [If (Is 58) (Go (st 285)) Fall; If (Below 65) (If (Within 48 57) (Go (st 283)) Fall)
      (If (Above 70) (If (Within 97 102) (Go (st 283)) Fall) (Go (st 283))); Go (st 0)];
    St 283 [] [If (Is 58) (Go (st 285)) Fall; If (Below 65) (If (Within 48 57) (Go (st 284)) Fall)
      (If (Above 70) (If (Within 97 102) (Go (st 284)) Fall) (Go (st 284))); Go (st 0)];
    St 284 [] [If (Is 58) (Go (st 285)) Fall; Go (st 0)];
    St 285 [] [If (Is 58) (Go (st 335)) Fall; If (Below 65) (If (Within 48 57) (Go (st 286)) Fall)
      (If (Above 70) (If (Within 97 102) (Go (st 286)) Fall) (Go (st 286))); Go (st 0)];
    St 286 [] [If (Is 58) (Go (st 290)) Fall; If (Below 65) (If (Within 48 57) (Go (st 287)) Fall)
      (If (Above 70) (If (Within 97 102) (Go (st 287)) Fall) (Go (st 287))); Go (st 0)];
    St 287 [] [If (Is 58) (Go (st 290)) Fall; If (Below 65) (If (Within 48 57) (Go (st 288)) Fall)
      (If (Above 70) (If (Within 97 102) (Go (st 288)) Fall) (Go (st 288))); Go (st 0)];
    St 288 [] [If (Is 58) (Go (st 290)) Fall; If (Below 65) (If (Within 48 57) (Go (st 289)) Fall)
      (If (Above 70) (If (Within 97 102) (Go (st 289)) Fall) (Go (st 289))); Go (st 0)]
].

Definition uri_code_61 : list entry := [
    St 289 [] [If (Is 58) (Go (st 290)) Fall; Go (st 0)];
    St 290 [(2, st 291); (48, st 318); (49, st 326); (50, st 329); (58, st 333)] [If (Below 65)
      (If (Within 51 57) (Go (st 332)) Fall) (If (Above 70) (If (Within 97 102) (Go (st 334)) Fall)
      (Go (st 334))); Go (st 0)];
    St 291 [] [If (Within 48 52) (Go (st 292)) Fall; Go (st 0)];
    St 292 [] [If (Within 48 57) (Go (st 293)) Fall; Go (st 0)];
    St 293 [] [If (Is 46) (Go (st 294)) Fall; Go (st 0)];
    St 294 [(2, st 295); (48, st 297); (49, st 314); (50, st 316)] [If (Within 51 57) (Go (st 315)) Fall; Go
      (st 0)];
    St 295 [] [If (Within 48 52) (Go (st 296)) Fall; Go (st 0)];
    St 296 [] [If (Within 48 57) (Go (st 297)) Fall; Go (st 0)];
    St 297 [] [If (Is 46) (Go (st 298)) Fall; Go (st 0)];
    St 298 [(2, st 299); (48, st 301); (49, st 310); (50, st 312)] [If (Within 51 57) (Go (st 311)) Fall; Go
      (st 0)];
    St 299 [] [If (Within 48 52) (Go (st 300)) Fall; Go (st 0)];
    St 300 [] [If (Within 48 57) (Go (st 301)) Fall; Go (st 0)];
    St 301 [] [If (Is 46) (Go (st 302)) Fall; Go (st 0)];
    St 302 [(2, st 303); (48, st 305); (49, st 306); (50, st 308)] [If (Within 51 57) (Go (st 307)) Fall; Go
      (st 0)]
].

Definition uri_code_62 : list entry := [
    St 303 [] [If (Within 48 52) (Go (st 304)) Fall; Go (st 0)];
    St 304 [] [If (Within 48 57) (Go (st 305)) Fall; Go (st 0)];
    St 305 [] [If (Is 93) (Go (st 512)) Fall; Go (st 0)];
    St 306 [] [If (Is 93) (Go (st 512)) Fall; If (Within 48 57) (Go (st 307)) Fall; Go (st 0)];
    St 307 [] [If (Is 93) (Go (st 512)) Fall; If (Within 48 57) (Go (st 305)) Fall; Go (st 0)];
    St 308 [(53, st 309); (93, st 512)] [If (Within 48 57) (Go (st 305)) Fall; Go (st 0)];
    St 309 [] [If (Is 93) (Go (st 512)) Fall; If (Within 48 53) (Go (st 305)) Fall; Go (st 0)];
    St 310 [] [If (Is 46) (Go (st 302)) Fall; If (Within 48 57) (Go (st 311)) Fall; Go (st 0)];
    St 311 [] [If (Is 46) (Go (st 302)) Fall; If (Within 48 57) (Go (st 301)) Fall; Go (st 0)];
    St 312 [(46, st 302); (53, st 313)] [If (Within 48 57) (Go (st 301)) Fall; Go (st 0)];
    St 313 [] [If (Is 46) (Go (st 302)) Fall; If (Within 48 53) (Go (st 301)) Fall; Go (st 0)];
    St 314 [] [If (Is 46) (Go (st 298)) Fall; If (Within 48 57) (Go (st 315)) Fall; Go (st 0)];
    St 315 [] [If (Is 46) (Go (st 298)) Fall; If (Within 48 57) (Go (st 297)) Fall; Go (st 0)];
    St 316 [(46, st 298); (53, st 317)] [If (Within 48 57) (Go (st 297)) Fall; Go (st 0)];
    St 317 [] [If (Is 46) (Go (st 298)) Fall; If (Within 48 53) (Go (st 297)) Fall; Go (st 0)]
].

Definition uri_code_63 : list entry := [
    St 318 [(46, st 294); (58, st 322)] [If (Below 65) (If (Within 48 57) (Go (st 319)) Fall) (If (Above 70)
      (If (Within 97 102) (Go (st 319)) Fall) (Go (st 319))); Go (st 0)];
    St 319 [] [If (Is 58) (Go (st 322)) Fall; If (Below 65) (If (Within 48 57) (Go (st 320)) Fall)
      (If (Above 70) (If (Within 97 102) (Go (st 320)) Fall) (Go (st 320))); Go (st 0)];
    St 320 [] [If (Is 58) (Go (st 322)) Fall; If (Below 65) (If (Within 48 57) (Go (st 321)) Fall)
      (If (Above 70) (If (Within 97 102) (Go (st 321)) Fall) (Go (st 321))); Go (st 0)];
    St 321 [] [If (Is 58) (Go (st 322)) Fall; Go (st 0)];
    St 322 [] [If (Is 58) (Go (st 305)) Fall; If (Below 65) (If (Within 48 57) (Go (st 323)) Fall)
      (If (Above 70) (If (Within 97 102) (Go (st 323)) Fall) (Go (st 323))); Go (st 0)];
    St 323 [] [If (Is 93) (Go (st 512)) Fall; If (Below 65) (If (Within 48 57) (Go (st 324)) Fall)
      (If (Above 70) (If (Within 97 102) (Go (st 324)) Fall) (Go (st 324))); Go (st 0)];
    St 324 [] [If (Is 93) (Go (st 512)) Fall; If (Below 65) (If (Within 48 57) (Go (st 325)) Fall)
      (If (Above 70) (If (Within 97 102) (Go (st 325)) Fall) (Go (st 325))); Go (st 0)];
    St 325 [] [If (Is 93) (Go (st 512)) Fall; If (Below 65) (If (Within 48 57) (Go (st 305)) Fall)
      (If (Above 70) (If (Within 97 102) (Go (st 305)) Fall) (Go (st 305))); Go (st 0)];
    St 326 [(46, st 294); (58, st 322)] [If (Below 65) (If (Within 48 57) (Go (st 327)) Fall) (If (Above 70)
      (If (Within 97 102) (Go (st 319)) Fall) (Go (st 319))); Go (st 0)]
].

Definition uri_code_64 : list entry := [
    St 327 [(46, st 294); (58, st 322)] [If (Below 65) (If (Within 48 57) (Go (st 328)) Fall) (If (Above 70)
      (If (Within 97 102) (Go (st 320)) Fall) (Go (st 320))); Go (st 0)];
    St 328 [(46, st 294); (58, st 322)] [If (Below 65) (If (Within 48 57) (Go (st 321)) Fall) (If (Above 70)
      (If (Within 97 102) (Go (st 321)) Fall) (Go (st 321))); Go (st 0)];
    St 329 [(46, st 294); (53, st 331); (58, st 322)] [If (Below 65) (If (Within 48 57) (Go (st 330)) Fall)
      (If (Above 70) (If (Within 97 102) (Go (st 319)) Fall) (Go (st 319))); Go (st 0)];
    St 330 [(46, st 294); (58, st 322)] [If (Below 65) (If (Within 48 57) (Go (st 320)) Fall) (If (Above 70)
      (If (Within 97 102) (Go (st 320)) Fall) (Go (st 320))); Go (st 0)];
    St 331 [(46, st 294); (58, st 322)] [If (Below 54) (If (Within 48 53) (Go (st 328)) Fall) (If (Above 57)
      (If (Above 70) (If (Within 97 102) (Go (st 320)) Fall) (If (AtLeast 65) (Go (st 320)) Fall))
      (Go (st 320))); Go (st 0)];
    St 332 [(46, st 294); (58, st 322)] [If (Below 65) (If (Within 48 57) (Go (st 330)) Fall) (If (Above 70)
      (If (Within 97 102) (Go (st 319)) Fall) (Go (st 319))); Go (st 0)];
    St 333 [] [If (Below 65) (If (Within 48 57) (Go (st 323)) Fall) (If (Above 70) (If (Within 97 102)
      (Go (st 323)) Fall) (Go (st 323))); Go (st 0)];
    St 334 [] [If (Is 58) (Go (st 322)) Fall; If (Below 65) (If (Within 48 57) (Go (st 319)) Fall)
      (If (Above 70) (If (Within 97 102) (Go (st 319)) Fall) (Go (st 319))); Go (st 0)]
].

Definition uri_code_65 : list entry := [
    St 335 [(2, st 291); (48, st 336); (49, st 340); (50, st 343)] [If (Below 65) (If (Within 51 57)
      (Go (st 346)) Fall) (If (Above 70) (If (Within 97 102) (Go (st 347)) Fall) (Go (st 347))); Go (st 0)];
    St 336 [(46, st 294); (58, st 333)] [If (Below 65) (If (Within 48 57) (Go (st 337)) Fall) (If (Above 70)
      (If (Within 97 102) (Go (st 337)) Fall) (Go (st 337))); Go (st 0)];
    St 337 [] [If (Is 58) (Go (st 333)) Fall; If (Below 65) (If (Within 48 57) (Go (st 338)) Fall)
      (If (Above 70) (If (Within 97 102) (Go (st 338)) Fall) (Go (st 338))); Go (st 0)];
    St 338 [] [If (Is 58) (Go (st 333)) Fall; If (Below 65) (If (Within 48 57) (Go (st 339)) Fall)
      (If (Above 70) (If (Within 97 102) (Go (st 339)) Fall) (Go (st 339))); Go (st 0)];
    St 339 [] [If (Is 58) (Go (st 333)) Fall; Go (st 0)];
    St 340 [(46, st 294); (58, st 333)] [If (Below 65) (If (Within 48 57) (Go (st 341)) Fall) (If (Above 70)
      (If (Within 97 102) (Go (st 337)) Fall) (Go (st 337))); Go (st 0)];
    St 341 [(46, st 294); (58, st 333)] [If (Below 65) (If (Within 48 57) (Go (st 342)) Fall) (If (Above 70)
      (If (Within 97 102) (Go (st 338)) Fall) (Go (st 338))); Go (st 0)];
    St 342 [(46, st 294); (58, st 333)] [If (Below 65) (If (Within 48 57) (Go (st 339)) Fall) (If (Above 70)
      (If (Within 97 102) (Go (st 339)) Fall) (Go (st 339))); Go (st 0)]
].

Definition uri_code_66 : list entry := [
    St 343 [(46, st 294); (53, st 345); (58, st 333)] [If (Below 65) (If (Within 48 57) (Go (st 344)) Fall)
      (If (Above 70) (If (Within 97 102) (Go (st 337)) Fall) (Go (st 337))); Go (st 0)];
    St 344 [(46, st 294); (58, st 333)] [If (Below 65) (If (Within 48 57) (Go (st 338)) Fall) (If (Above 70)
      (If (Within 97 102) (Go (st 338)) Fall) (Go (st 338))); Go (st 0)];
    St 345 [(46, st 294); (58, st 333)] [If (Below 54) (If (Within 48 53) (Go (st 342)) Fall) (If (Above 57)
      (If (Above 70) (If (Within 97 102) (Go (st 338)) Fall) (If (AtLeast 65) (Go (st 338)) Fall))
      (Go (st 338))); Go (st 0)];
    St 346 [(46, st 294); (58, st 333)] [If (Below 65) (If (Within 48 57) (Go (st 344)) Fall) (If (Above 70)
      (If (Within 97 102) (Go (st 337)) Fall) (Go (st 337))); Go (st 0)];
    St 347 [] [If (Is 58) (Go (st 333)) Fall; If (Below 65) (If (Within 48 57) (Go (st 337)) Fall)
      (If (Above 70) (If (Within 97 102) (Go (st 337)) Fall) (Go (st 337))); Go (st 0)];
    St 348 [] [If (Below 65) (If (Within 48 57) (Go (st 349)) Fall) (If (Above 70) (If (Within 97 102)
      (Go (st 349)) Fall) (Go (st 349))); Go (st 0)];
    St 349 [] [If (Is 58) (Go (st 335)) Fall; If (Below 65) (If (Within 48 57) (Go (st 350)) Fall)
      (If (Above 70) (If (Within 97 102) (Go (st 350)) Fall) (Go (st 350))); Go (st 0)];
    St 350 [] [If (Is 58) (Go (st 335)) Fall; If (Below 65) (If (Within 48 57) (Go (st 351)) Fall)
      (If (Above 70) (If (Within 97 102) (Go (st 351)) Fall) (Go (st 351))); Go (st 0)]
].

Definition uri_code_67 : list entry := [
    St 351 [] [If (Is 58) (Go (st 335)) Fall; If (Below 65) (If (Within 48 57) (Go (st 352)) Fall)
      (If (Above 70) (If (Within 97 102) (Go (st 352)) Fall) (Go (st 352))); Go (st 0)];
    St 352 [] [If (Is 58) (Go (st 335)) Fall; Go (st 0)];
    St 353 [] [If (Below 65) (If (Within 48 57) (Go (st 354)) Fall) (If (Above 70) (If (Within 97 102)
      (Go (st 354)) Fall) (Go (st 354))); Go (st 0)];
    St 354 [] [If (Is 58) (Go (st 348)) Fall; If (Below 65) (If (Within 48 57) (Go (st 355)) Fall)
      (If (Above 70) (If (Within 97 102) (Go (st 355)) Fall) (Go (st 355))); Go (st 0)];
    St 355 [] [If (Is 58) (Go (st 348)) Fall; If (Below 65) (If (Within 48 57) (Go (st 356)) Fall)
      (If (Above 70) (If (Within 97 102) (Go (st 356)) Fall) (Go (st 356))); Go (st 0)];
    St 356 [] [If (Is 58) (Go (st 348)) Fall; If (Below 65) (If (Within 48 57) (Go (st 357)) Fall)
      (If (Above 70) (If (Within 97 102) (Go (st 357)) Fall) (Go (st 357))); Go (st 0)];
    St 357 [] [If (Is 58) (Go (st 348)) Fall; Go (st 0)];
    St 358 [] [If (Below 65) (If (Within 48 57) (Go (st 359)) Fall) (If (Above 70) (If (Within 97 102)
      (Go (st 359)) Fall) (Go (st 359))); Go (st 0)];
    St 359 [] [If (Is 58) (Go (st 353)) Fall; If (Below 65) (If (Within 48 57) (Go (st 360)) Fall)
      (If (Above 70) (If (Within 97 102) (Go (st 360)) Fall) (Go (st 360))); Go (st 0)];
    St 360 [] [If (Is 58) (Go (st 353)) Fall; If (Below 65) (If (Within 48 57) (Go (st 361)) Fall)
      (If (Above 70) (If (Within 97 102) (Go (st 361)) Fall) (Go (st 361))); Go (st 0)];
    St 361 [] [If (Is 58) (Go (st 353)) Fall; If (Below 65) (If (Within 48 57) (Go (st 362)) Fall)
      (If (Above 70) (If (Within 97 102) (Go (st 362)) Fall) (Go (st 362))); Go (st 0)]
].

Definition uri_code_68 : list entry := [
    St 362 [] [If (Is 58) (Go (st 353)) Fall; Go (st 0)];
    St 363 [] [If (Below 65) (If (Within 48 57) (Go (st 364)) Fall) (If (Above 70) (If (Within 97 102)
      (Go (st 364)) Fall) (Go (st 364))); Go (st 0)];
    St 364 [] [If (Is 58) (Go (st 358)) Fall; If (Below 65) (If (Within 48 57) (Go (st 365)) Fall)
      (If (Above 70) (If (Within 97 102) (Go (st 365)) Fall) (Go (st 365))); Go (st 0)];
    St 365 [] [If (Is 58) (Go (st 358)) Fall; If (Below 65) (If (Within 48 57) (Go (st 366)) Fall)
      (If (Above 70) (If (Within 97 102) (Go (st 366)) Fall) (Go (st 366))); Go (st 0)];
    St 366 [] [If (Is 58) (Go (st 358)) Fall; If (Below 65) (If (Within 48 57) (Go (st 367)) Fall)
      (If (Above 70) (If (Within 97 102) (Go (st 367)) Fall) (Go (st 367))); Go (st 0)];
    St 367 [] [If (Is 58) (Go (st 358)) Fall; Go (st 0)];
    St 368 [] [If (Is 58) (Go (st 369)) Fall; Go (st 0)];
    St 369 [(2, st 291); (48, st 370); (49, st 439); (50, st 442); (93, st 512)] [If (Below 65)
      (If (Within 51 57) (Go (st 445)) Fall) (If (Above 70) (If (Within 97 102) (Go (st 446)) Fall)
      (Go (st 446))); Go (st 0)];
    St 370 [(46, st 294); (58, st 374); (93, st 512)] [If (Below 65) (If (Within 48 57) (Go (st 371)) Fall)
      (If (Above 70) (If (Within 97 102) (Go (st 371)) Fall) (Go (st 371))); Go (st 0)];
    St 371 [(58, st 374); (93, st 512)] [If (Below 65) (If (Within 48 57) (Go (st 372)) Fall) (If (Above 70)
      (If (Within 97 102) (Go (st 372)) Fall) (Go (st 372))); Go (st 0)]
].

Definition uri_code_69 : list entry := [
    St 372 [(58, st 374); (93, st 512)] [If (Below 65) (If (Within 48 57) (Go (st 373)) Fall) (If (Above 70)
      (If (Within 97 102) (Go (st 373)) Fall) (Go (st 373))); Go (st 0)];
    St 373 [(58, st 374); (93, st 512)] [Go (st 0)];
    St 374 [(2, st 291); (48, st 375); (49, st 431); (50, st 434)] [If (Below 65) (If (Within 51 57)
      (Go (st 437)) Fall) (If (Above 70) (If (Within 97 102) (Go (st 438)) Fall) (Go (st 438))); Go (st 0)];
    St 375 [(46, st 294); (58, st 379); (93, st 512)] [If (Below 65) (If (Within 48 57) (Go (st 376)) Fall)
      (If (Above 70) (If (Within 97 102) (Go (st 376)) Fall) (Go (st 376))); Go (st 0)];
    St 376 [(58, st 379); (93, st 512)] [If (Below 65) (If (Within 48 57) (Go (st 377)) Fall) (If (Above 70)
      (If (Within 97 102) (Go (st 377)) Fall) (Go (st 377))); Go (st 0)];
    St 377 [(58, st 379); (93, st 512)] [If (Below 65) (If (Within 48 57) (Go (st 378)) Fall) (If (Above 70)
      (If (Within 97 102) (Go (st 378)) Fall) (Go (st 378))); Go (st 0)];
    St 378 [(58, st 379); (93, st 512)] [Go (st 0)];
    St 379 [(2, st 291); (48, st 380); (49, st 423); (50, st 426)] [If (Below 65) (If (Within 51 57)
      (Go (st 429)) Fall) (If (Above 70) (If (Within 97 102) (Go (st 430)) Fall) (Go (st 430))); Go (st 0)]
].

Definition uri_code_70 : list entry := [
    St 380 [(46, st 294); (58, st 384); (93, st 512)] [If (Below 65) (If (Within 48 57) (Go (st 381)) Fall)
      (If (Above 70) (If (Within 97 102) (Go (st 381)) Fall) (Go (st 381))); Go (st 0)];
    St 381 [(58, st 384); (93, st 512)] [If (Below 65) (If (Within 48 57) (Go (st 382)) Fall) (If (Above 70)
      (If (Within 97 102) (Go (st 382)) Fall) (Go (st 382))); Go (st 0)];
    St 382 [(58, st 384); (93, st 512)] [If (Below 65) (If (Within 48 57) (Go (st 383)) Fall) (If (Above 70)
      (If (Within 97 102) (Go (st 383)) Fall) (Go (st 383))); Go (st 0)];
    St 383 [(58, st 384); (93, st 512)] [Go (st 0)];
    St 384 [(2, st 291); (48, st 385); (49, st 415); (50, st 418)] [If (Below 65) (If (Within 51 57)
      (Go (st 421)) Fall) (If (Above 70) (If (Within 97 102) (Go (st 422)) Fall) (Go (st 422))); Go (st 0)];
    St 385 [(46, st 294); (58, st 389); (93, st 512)] [If (Below 65) (If (Within 48 57) (Go (st 386)) Fall)
      (If (Above 70) (If (Within 97 102) (Go (st 386)) Fall) (Go (st 386))); Go (st 0)];
    St 386 [(58, st 389); (93, st 512)] [If (Below 65) (If (Within 48 57) (Go (st 387)) Fall) (If (Above 70)
      (If (Within 97 102) (Go (st 387)) Fall) (Go (st 387))); Go (st 0)]
].

Definition uri_code_71 : list entry := [
    St 387 [(58, st 389); (93, st 512)] [If (Below 65) (If (Within 48 57) (Go (st 388)) Fall) (If (Above 70)
      (If (Within 97 102) (Go (st 388)) Fall) (Go (st 388))); Go (st 0)];
    St 388 [(58, st 389); (93, st 512)] [Go (st 0)];
    St 389 [(2, st 291); (48, st 390); (49, st 407); (50, st 410)] [If (Below 65) (If (Within 51 57)
      (Go (st 413)) Fall) (If (Above 70) (If (Within 97 102) (Go (st 414)) Fall) (Go (st 414))); Go (st 0)];
    St 390 [(46, st 294); (58, st 394); (93, st 512)] [If (Below 65) (If (Within 48 57) (Go (st 391)) Fall)
      (If (Above 70) (If (Within 97 102) (Go (st 391)) Fall) (Go (st 391))); Go (st 0)];
    St 391 [(58, st 394); (93, st 512)] [If (Below 65) (If (Within 48 57) (Go (st 392)) Fall) (If (Above 70)
      (If (Within 97 102) (Go (st 392)) Fall) (Go (st 392))); Go (st 0)];
    St 392 [(58, st 394); (93, st 512)] [If (Below 65) (If (Within 48 57) (Go (st 393)) Fall) (If (Above 70)
      (If (Within 97 102) (Go (st 393)) Fall) (Go (st 393))); Go (st 0)];
    St 393 [(58, st 394); (93, st 512)] [Go (st 0)];
    St 394 [(2, st 291); (48, st 395); (49, st 399); (50, st 402)] [If (Below 65) (If (Within 51 57)
      (Go (st 405)) Fall) (If (Above 70) (If (Within 97 102) (Go (st 406)) Fall) (Go (st 406))); Go (st 0)]
].

Definition uri_code_72 : list entry := [
    St 395 [(46, st 294); (58, st 333); (93, st 512)] [If (Below 65) (If (Within 48 57) (Go (st 396)) Fall)
      (If (Above 70) (If (Within 97 102) (Go (st 396)) Fall) (Go (st 396))); Go (st 0)];
    St 396 [(58, st 333); (93, st 512)] [If (Below 65) (If (Within 48 57) (Go (st 397)) Fall) (If (Above 70)
      (If (Within 97 102) (Go (st 397)) Fall) (Go (st 397))); Go (st 0)];
    St 397 [(58, st 333); (93, st 512)] [If (Below 65) (If (Within 48 57) (Go (st 398)) Fall) (If (Above 70)
      (If (Within 97 102) (Go (st 398)) Fall) (Go (st 398))); Go (st 0)];
    St 398 [(58, st 333); (93, st 512)] [Go (st 0)];
    St 399 [(46, st 294); (58, st 333); (93, st 512)] [If (Below 65) (If (Within 48 57) (Go (st 400)) Fall)
      (If (Above 70) (If (Within 97 102) (Go (st 396)) Fall) (Go (st 396))); Go (st 0)];
    St 400 [(46, st 294); (58, st 333); (93, st 512)] [If (Below 65) (If (Within 48 57) (Go (st 401)) Fall)
      (If (Above 70) (If (Within 97 102) (Go (st 397)) Fall) (Go (st 397))); Go (st 0)];
    St 401 [(46, st 294); (58, st 333); (93, st 512)] [If (Below 65) (If (Within 48 57) (Go (st 398)) Fall)
      (If (Above 70) (If (Within 97 102) (Go (st 398)) Fall) (Go (st 398))); Go (st 0)]
].

Definition uri_code_73 : list entry := [
    St 402 [(46, st 294); (53, st 404); (58, st 333); (93, st 512)] [If (Below 65) (If (Within 48 57)
      (Go (st 403)) Fall) (If (Above 70) (If (Within 97 102) (Go (st 396)) Fall) (Go (st 396))); Go (st 0)];
    St 403 [(46, st 294); (58, st 333); (93, st 512)] [If (Below 65) (If (Within 48 57) (Go (st 397)) Fall)
      (If (Above 70) (If (Within 97 102) (Go (st 397)) Fall) (Go (st 397))); Go (st 0)];
    St 404 [(46, st 294); (58, st 333); (93, st 512)] [If (Below 54) (If (Within 48 53) (Go (st 401)) Fall)
      (If (Above 57) (If (Above 70) (If (Within 97 102) (Go (st 397)) Fall) (If (AtLeast 65) (Go (st 397))
      Fall)) (Go (st 397))); Go (st 0)];
    St 405 [(46, st 294); (58, st 333); (93, st 512)] [If (Below 65) (If (Within 48 57) (Go (st 403)) Fall)
      (If (Above 70) (If (Within 97 102) (Go (st 396)) Fall) (Go (st 396))); Go (st 0)];
    St 406 [(58, st 333); (93, st 512)] [If (Below 65) (If (Within 48 57) (Go (st 396)) Fall) (If (Above 70)
      (If (Within 97 102) (Go (st 396)) Fall) (Go (st 396))); Go (st 0)];
    St 407 [(46, st 294); (58, st 394); (93, st 512)] [If (Below 65) (If (Within 48 57) (Go (st 408)) Fall)
      (If (Above 70) (If (Within 97 102) (Go (st 391)) Fall) (Go (st 391))); Go (st 0)];
    St 408 [(46, st 294); (58, st 394); (93, st 512)] [If (Below 65) (If (Within 48 57) (Go (st 409)) Fall)
      (If (Above 70) (If (Within 97 102) (Go (st 392)) Fall) (Go (st 392))); Go (st 0)]
].

Definition uri_code_74 : list entry := [
    St 409 [(46, st 294); (58, st 394); (93, st 512)] [If (Below 65) (If (Within 48 57) (Go (st 393)) Fall)
      (If (Above 70) (If (Within 97 102) (Go (st 393)) Fall) (Go (st 393))); Go (st 0)];
    St 410 [(46, st 294); (53, st 412); (58, st 394); (93, st 512)] [If (Below 65) (If (Within 48 57)
      (Go (st 411)) Fall) (If (Above 70) (If (Within 97 102) (Go (st 391)) Fall) (Go (st 391))); Go (st 0)];
    St 411 [(46, st 294); (58, st 394); (93, st 512)] [If (Below 65) (If (Within 48 57) (Go (st 392)) Fall)
      (If (Above 70) (If (Within 97 102) (Go (st 392)) Fall) (Go (st 392))); Go (st 0)];
    St 412 [(46, st 294); (58, st 394); (93, st 512)] [If (Below 54) (If (Within 48 53) (Go (st 409)) Fall)
      (If (Above 57) (If (Above 70) (If (Within 97 102) (Go (st 392)) Fall) (If (AtLeast 65) (Go (st 392))
      Fall)) (Go (st 392))); Go (st 0)];
    St 413 [(46, st 294); (58, st 394); (93, st 512)] [If (Below 65) (If (Within 48 57) (Go (st 411)) Fall)
      (If (Above 70) (If (Within 97 102) (Go (st 391)) Fall) (Go (st 391))); Go (st 0)];
    St 414 [(58, st 394); (93, st 512)] [If (Below 65) (If (Within 48 57) (Go (st 391)) Fall) (If (Above 70)
      (If (Within 97 102) (Go (st 391)) Fall) (Go (st 391))); Go (st 0)];
    St 415 [(46, st 294); (58, st 389); (93, st 512)] [If (Below 65) (If (Within 48 57) (Go (st 416)) Fall)
      (If (Above 70) (If (Within 97 102) (Go (st 386)) Fall) (Go (st 386))); Go (st 0)]
].

Definition uri_code_75 : list entry := [
    St 416 [(46, st 294); (58, st 389); (93, st 512)] [If (Below 65) (If (Within 48 57) (Go (st 417)) Fall)
      (If (Above 70) (If (Within 97 102) (Go (st 387)) Fall) (Go (st 387))); Go (st 0)];
    St 417 [(46, st 294); (58, st 389); (93, st 512)] [If (Below 65) (If (Within 48 57) (Go (st 388)) Fall)
      (If (Above 70) (If (Within 97 102) (Go (st 388)) Fall) (Go (st 388))); Go (st 0)];
    St 418 [(46, st 294); (53, st 420); (58, st 389); (93, st 512)] [If (Below 65) (If (Within 48 57)
      (Go (st 419)) Fall) (If (Above 70) (If (Within 97 102) (Go (st 386)) Fall) (Go (st 386))); Go (st 0)];
    St 419 [(46, st 294); (58, st 389); (93, st 512)] [If (Below 65) (If (Within 48 57) (Go (st 387)) Fall)
      (If (Above 70) (If (Within 97 102) (Go (st 387)) Fall) (Go (st 387))); Go (st 0)];
    St 420 [(46, st 294); (58, st 389); (93, st 512)] [If (Below 54) (If (Within 48 53) (Go (st 417)) Fall)
      (If (Above 57) (If (Above 70) (If (Within 97 102) (Go (st 387)) Fall) (If (AtLeast 65) (Go (st 387))
      Fall)) (Go (st 387))); Go (st 0)];
    St 421 [(46, st 294); (58, st 389); (93, st 512)] [If (Below 65) (If (Within 48 57) (Go (st 419)) Fall)
      (If (Above 70) (If (Within 97 102) (Go (st 386)) Fall) (Go (st 386))); Go (st 0)];
    St 422 [(58, st 389); (93, st 512)] [If (Below 65) (If (Within 48 57) (Go (st 386)) Fall) (If (Above 70)
      (If (Within 97 102) (Go (st 386)) Fall) (Go (st 386))); Go (st 0)]
].

Definition uri_code_76 : list entry := [
    St 423 [(46, st 294); (58, st 384); (93, st 512)] [If (Below 65) (If (Within 48 57) (Go (st 424)) Fall)
      (If (Above 70) (If (Within 97 102) (Go (st 381)) Fall) (Go (st 381))); Go (st 0)];
    St 424 [(46, st 294); (58, st 384); (93, st 512)] [If (Below 65) (If (Within 48 57) (Go (st 425)) Fall)
      (If (Above 70) (If (Within 97 102) (Go (st 382)) Fall) (Go (st 382))); Go (st 0)];
    St 425 [(46, st 294); (58, st 384); (93, st 512)] [If (Below 65) (If (Within 48 57) (Go (st 383)) Fall)
      (If (Above 70) (If (Within 97 102) (Go (st 383)) Fall) (Go (st 383))); Go (st 0)];
    St 426 [(46, st 294); (53, st 428); (58, st 384); (93, st 512)] [If (Below 65) (If (Within 48 57)
      (Go (st 427)) Fall) (If (Above 70) (If (Within 97 102) (Go (st 381)) Fall) (Go (st 381))); Go (st 0)];
    St 427 [(46, st 294); (58, st 384); (93, st 512)] [If (Below 65) (If (Within 48 57) (Go (st 382)) Fall)
      (If (Above 70) (If (Within 97 102) (Go (st 382)) Fall) (Go (st 382))); Go (st 0)];
    St 428 [(46, st 294); (58, st 384); (93, st 512)] [If (Below 54) (If (Within 48 53) (Go (st 425)) Fall)
      (If (Above 57) (If (Above 70) (If (Within 97 102) (Go (st 382)) Fall) (If (AtLeast 65) (Go (st 382))
      Fall)) (Go (st 382))); Go (st 0)]
].

Definition uri_code_77 : list entry := [
    St 429 [(46, st 294); (58, st 384); (93, st 512)] [If (Below 65) (If (Within 48 57) (Go (st 427)) Fall)
      (If (Above 70) (If (Within 97 102) (Go (st 381)) Fall) (Go (st 381))); Go (st 0)];
    St 430 [(58, st 384); (93, st 512)] [If (Below 65) (If (Within 48 57) (Go (st 381)) Fall) (If (Above 70)
      (If (Within 97 102) (Go (st 381)) Fall) (Go (st 381))); Go (st 0)];
    St 431 [(46, st 294); (58, st 379); (93, st 512)] [If (Below 65) (If (Within 48 57) (Go (st 432)) Fall)
      (If (Above 70) (If (Within 97 102) (Go (st 376)) Fall) (Go (st 376))); Go (st 0)];
    St 432 [(46, st 294); (58, st 379); (93, st 512)] [If (Below 65) (If (Within 48 57) (Go (st 433)) Fall)
      (If (Above 70) (If (Within 97 102) (Go (st 377)) Fall) (Go (st 377))); Go (st 0)];
    St 433 [(46, st 294); (58, st 379); (93, st 512)] [If (Below 65) (If (Within 48 57) (Go (st 378)) Fall)
      (If (Above 70) (If (Within 97 102) (Go (st 378)) Fall) (Go (st 378))); Go (st 0)];
    St 434 [(46, st 294); (53, st 436); (58, st 379); (93, st 512)] [If (Below 65) (If (Within 48 57)
      (Go (st 435)) Fall) (If (Above 70) (If (Within 97 102) (Go (st 376)) Fall) (Go (st 376))); Go (st 0)];
    St 435 [(46, st 294); (58, st 379); (93, st 512)] [If (Below 65) (If (Within 48 57) (Go (st 377)) Fall)
      (If (Above 70) (If (Within 97 102) (Go (st 377)) Fall) (Go (st 377))); Go (st 0)]
].

Definition uri_code_78 : list entry := [
    St 436 [(46, st 294); (58, st 379); (93, st 512)] [If (Below 54) (If (Within 48 53) (Go (st 433)) Fall)
      (If (Above 57) (If (Above 70) (If (Within 97 102) (Go (st 377)) Fall) (If (AtLeast 65) (Go (st 377))
      Fall)) (Go (st 377))); Go (st 0)];
    St 437 [(46, st 294); (58, st 379); (93, st 512)] [If (Below 65) (If (Within 48 57) (Go (st 435)) Fall)
      (If (Above 70) (If (Within 97 102) (Go (st 376)) Fall) (Go (st 376))); Go (st 0)];
    St 438 [(58, st 379); (93, st 512)] [If (Below 65) (If (Within 48 57) (Go (st 376)) Fall) (If (Above 70)
      (If (Within 97 102) (Go (st 376)) Fall) (Go (st 376))); Go (st 0)];
    St 439 [(46, st 294); (58, st 374); (93, st 512)] [If (Below 65) (If (Within 48 57) (Go (st 440)) Fall)
      (If (Above 70) (If (Within 97 102) (Go (st 371)) Fall) (Go (st 371))); Go (st 0)];
    St 440 [(46, st 294); (58, st 374); (93, st 512)] [If (Below 65) (If (Within 48 57) (Go (st 441)) Fall)
      (If (Above 70) (If (Within 97 102) (Go (st 372)) Fall) (Go (st 372))); Go (st 0)];
    St 441 [(46, st 294); (58, st 374); (93, st 512)] [If (Below 65) (If (Within 48 57) (Go (st 373)) Fall)
      (If (Above 70) (If (Within 97 102) (Go (st 373)) Fall) (Go (st 373))); Go (st 0)];
    St 442 [(46, st 294); (53, st 444); (58, st 374); (93, st 512)] [If (Below 65) (If (Within 48 57)
      (Go (st 443)) Fall) (If (Above 70) (If (Within 97 102) (Go (st 371)) Fall) (Go (st 371))); Go (st 0)]
].

Definition uri_code_79 : list entry := [
    St 443 [(46, st 294); (58, st 374); (93, st 512)] [If (Below 65) (If (Within 48 57) (Go (st 372)) Fall)
      (If (Above 70) (If (Within 97 102) (Go (st 372)) Fall) (Go (st 372))); Go (st 0)];
    St 444 [(46, st 294); (58, st 374); (93, st 512)] [If (Below 54) (If (Within 48 53) (Go (st 441)) Fall)
      (If (Above 57) (If (Above 70) (If (Within 97 102) (Go (st 372)) Fall) (If (AtLeast 65) (Go (st 372))
      Fall)) (Go (st 372))); Go (st 0)];
    St 445 [(46, st 294); (58, st 374); (93, st 512)] [If (Below 65) (If (Within 48 57) (Go (st 443)) Fall)
      (If (Above 70) (If (Within 97 102) (Go (st 371)) Fall) (Go (st 371))); Go (st 0)];
    St 446 [(58, st 374); (93, st 512)] [If (Below 65) (If (Within 48 57) (Go (st 371)) Fall) (If (Above 70)
      (If (Within 97 102) (Go (st 371)) Fall) (Go (st 371))); Go (st 0)];
    St 447 [] [If (Below 65) (If (Within 48 57) (Go (st 448)) Fall) (If (Above 70) (If (Within 97 102)
      (Go (st 448)) Fall) (Go (st 448))); Go (st 0)];
    St 448 [] [If (Is 46) (Go (st 449)) Fall; If (Below 65) (If (Within 48 57) (Go (st 448)) Fall)
      (If (Above 70) (If (Within 97 102) (Go (st 448)) Fall) (Go (st 448))); Go (st 0)];
    St 449 [(33, st 450); (36, st 450); (61, st 450); (95, st 450); (126, st 450)] [If (Below 48)
      (If (Within 38 46) (Go (st 450)) Fall) (If (Above 59) (If (Above 90) (If (Within 97 122) (Go (st 450))
      Fall) (If (AtLeast 65) (Go (st 450)) Fall)) (Go (st 450))); Go (st 0)]
].

Definition uri_code_80 : list entry := [
    St 450 [(33, st 450); (36, st 450); (61, st 450); (93, st 512); (95, st 450); (126, st 450)]
      [If (Below 48) (If (Within 38 46) (Go (st 450)) Fall) (If (Above 59) (If (Above 90)
      (If (Within 97 122) (Go (st 450)) Fall) (If (AtLeast 65) (Go (st 450)) Fall)) (Go (st 450))); Go (st
      0)];
    Tr 577 [markh] 542;
    St 542 [(33, st 255); (35, tr 570); (37, st 256); (47, tr 571); (61, st 255); (63, tr 573);
      (64, tr 263); (95, st 255); (126, st 255)] [If (Below 58) (If (Above 46) (If (Within 48 57)
      (Go (st 542)) Fall) (If (AtLeast 36) (Go (st 255)) Fall)) (If (Above 59) (If (Above 90)
      (If (Within 97 122) (Go (st 255)) Fall) (If (AtLeast 65) (Go (st 255)) Fall)) (Go (st 255))); Go (st
      0)];
    Tr 551 [markh] 543;
    St 543 [(33, st 520); (35, tr 559); (37, st 253); (46, st 544); (47, tr 560); (58, tr 576);
      (61, st 520); (63, tr 562); (64, tr 263); (95, st 520); (126, st 520)] [If (Below 65)
      (If (Within 36 59) (Go (st 520)) Fall) (If (Above 90) (If (Within 97 122) (Go (st 520)) Fall)
      (Go (st 520))); Go (st 0)]
].

Definition uri_code_81 : list entry := [
    St 544 [(2, st 233); (33, st 520); (35, tr 559); (37, st 253); (47, tr 560); (48, st 545); (49, st 553);
      (50, st 555); (58, tr 576); (59, st 520); (61, st 520); (63, tr 562); (64, tr 263); (95, st 520);
      (126, st 520)] [If (Below 51) (If (Within 36 46) (Go (st 520)) Fall) (If (Above 57) (If (Above 90)
      (If (Within 97 122) (Go (st 520)) Fall) (If (AtLeast 65) (Go (st 520)) Fall)) (Go (st 554))); Go (st
      0)];
    St 545 [(33, st 520); (35, tr 559); (37, st 253); (46, st 546); (47, tr 560); (58, tr 576);
      (61, st 520); (63, tr 562); (64, tr 263); (95, st 520); (126, st 520)] [If (Below 65)
      (If (Within 36 59) (Go (st 520)) Fall) (If (Above 90) (If (Within 97 122) (Go (st 520)) Fall)
      (Go (st 520))); Go (st 0)];
    St 546 [(2, st 237); (33, st 520); (35, tr 559); (37, st 253); (47, tr 560); (48, st 547); (49, st 549);
      (50, st 551); (58, tr 576); (59, st 520); (61, st 520); (63, tr 562); (64, tr 263); (95, st 520);
      (126, st 520)] [If (Below 51) (If (Within 36 46) (Go (st 520)) Fall) (If (Above 57) (If (Above 90)
      (If (Within 97 122) (Go (st 520)) Fall) (If (AtLeast 65) (Go (st 520)) Fall)) (Go (st 550))); Go (st
      0)]
].

Definition uri_code_82 : list entry := [
    St 547 [(33, st 520); (35, tr 559); (37, st 253); (46, st 548); (47, tr 560); (58, tr 576);
      (61, st 520); (63, tr 562); (64, tr 263); (95, st 520); (126, st 520)] [If (Below 65)
      (If (Within 36 59) (Go (st 520)) Fall) (If (Above 90) (If (Within 97 122) (Go (st 520)) Fall)
      (Go (st 520))); Go (st 0)];
    St 548 [(2, st 241); (33, st 520); (35, tr 559); (37, st 253); (47, tr 560); (58, tr 576); (61, st 520);
      (63, tr 562); (64, tr 263); (95, st 520); (126, st 520)] [If (Below 65) (If (Within 36 59)
      (Go (st 520)) Fall) (If (Above 90) (If (Within 97 122) (Go (st 520)) Fall) (Go (st 520))); Go (st 0)];
    St 549 [(33, st 520); (35, tr 559); (37, st 253); (46, st 548); (47, tr 560); (58, tr 576);
      (59, st 520); (61, st 520); (63, tr 562); (64, tr 263); (95, st 520); (126, st 520)] [If (Below 48)
      (If (Within 36 45) (Go (st 520)) Fall) (If (Above 57) (If (Above 90) (If (Within 97 122) (Go (st 520))
      Fall) (If (AtLeast 65) (Go (st 520)) Fall)) (Go (st 550))); Go (st 0)]
].

Definition uri_code_83 : list entry := [
    St 550 [(33, st 520); (35, tr 559); (37, st 253); (46, st 548); (47, tr 560); (58, tr 576);
      (59, st 520); (61, st 520); (63, tr 562); (64, tr 263); (95, st 520); (126, st 520)] [If (Below 48)
      (If (Within 36 45) (Go (st 520)) Fall) (If (Above 57) (If (Above 90) (If (Within 97 122) (Go (st 520))
      Fall) (If (AtLeast 65) (Go (st 520)) Fall)) (Go (st 547))); Go (st 0)];
    St 551 [(33, st 520); (35, tr 559); (37, st 253); (46, st 548); (47, tr 560); (53, st 552);
      (58, tr 576); (59, st 520); (61, st 520); (63, tr 562); (64, tr 263); (95, st 520); (126, st 520)]
      [If (Below 48) (If (Within 36 45) (Go (st 520)) Fall) (If (Above 57) (If (Above 90)
      (If (Within 97 122) (Go (st 520)) Fall) (If (AtLeast 65) (Go (st 520)) Fall)) (Go (st 547))); Go (st
      0)];
    St 552 [(33, st 520); (35, tr 559); (37, st 253); (46, st 548); (47, tr 560); (58, tr 576);
      (61, st 520); (63, tr 562); (64, tr 263); (95, st 520); (126, st 520)] [If (Below 54) (If (Above 45)
      (If (Within 48 53) (Go (st 547)) Fall) (If (AtLeast 36) (Go (st 520)) Fall)) (If (Above 59)
      (If (Above 90) (If (Within 97 122) (Go (st 520)) Fall) (If (AtLeast 65) (Go (st 520)) Fall))
      (Go (st 520))); Go (st 0)]
].

Definition uri_code_84 : list entry := [
    St 553 [(33, st 520); (35, tr 559); (37, st 253); (46, st 546); (47, tr 560); (58, tr 576);
      (59, st 520); (61, st 520); (63, tr 562); (64, tr 263); (95, st 520); (126, st 520)] [If (Below 48)
      (If (Within 36 45) (Go (st 520)) Fall) (If (Above 57) (If (Above 90) (If (Within 97 122) (Go (st 520))
      Fall) (If (AtLeast 65) (Go (st 520)) Fall)) (Go (st 554))); Go (st 0)];
    St 554 [(33, st 520); (35, tr 559); (37, st 253); (46, st 546); (47, tr 560); (58, tr 576);
      (59, st 520); (61, st 520); (63, tr 562); (64, tr 263); (95, st 520); (126, st 520)] [If (Below 48)
      (If (Within 36 45) (Go (st 520)) Fall) (If (Above 57) (If (Above 90) (If (Within 97 122) (Go (st 520))
      Fall) (If (AtLeast 65) (Go (st 520)) Fall)) (Go (st 545))); Go (st 0)];
    St 555 [(33, st 520); (35, tr 559); (37, st 253); (46, st 546); (47, tr 560); (53, st 556);
      (58, tr 576); (59, st 520); (61, st 520); (63, tr 562); (64, tr 263); (95, st 520); (126, st 520)]
      [If (Below 48) (If (Within 36 45) (Go (st 520)) Fall) (If (Above 57) (If (Above 90)
      (If (Within 97 122) (Go (st 520)) Fall) (If (AtLeast 65) (Go (st 520)) Fall)) (Go (st 545))); Go (st
      0)]
].

Definition uri_code_85 : list entry := [
    St 556 [(33, st 520); (35, tr 559); (37, st 253); (46, st 546); (47, tr 560); (58, tr 576);
      (61, st 520); (63, tr 562); (64, tr 263); (95, st 520); (126, st 520)] [If (Below 54) (If (Above 45)
      (If (Within 48 53) (Go (st 545)) Fall) (If (AtLeast 36) (Go (st 520)) Fall)) (If (Above 59)
      (If (Above 90) (If (Within 97 122) (Go (st 520)) Fall) (If (AtLeast 65) (Go (st 520)) Fall))
      (Go (st 520))); Go (st 0)];
    Tr 552 [markh] 557;
    St 557 [(33, st 520); (35, tr 559); (37, st 253); (46, st 544); (47, tr 560); (58, tr 576);
      (59, st 520); (61, st 520); (63, tr 562); (64, tr 263); (95, st 520); (126, st 520)] [If (Below 48)
      (If (Within 36 45) (Go (st 520)) Fall) (If (Above 57) (If (Above 90) (If (Within 97 122) (Go (st 520))
      Fall) (If (AtLeast 65) (Go (st 520)) Fall)) (Go (st 558))); Go (st 0)];
    Tr 554 [markh] 558;
    St 558 [(33, st 520); (35, tr 559); (37, st 253); (46, st 544); (47, tr 560); (58, tr 576);
      (59, st 520); (61, st 520); (63, tr 562); (64, tr 263); (95, st 520); (126, st 520)] [If (Below 48)
      (If (Within 36 45) (Go (st 520)) Fall) (If (Above 57) (If (Above 90) (If (Within 97 122) (Go (st 520))
      Fall) (If (AtLeast 65) (Go (st 520)) Fall)) (Go (st 543))); Go (st 0)];
    Tr 553 [markh] 559
].

Definition uri_code_86 : list entry := [
    St 559 [(33, st 520); (35, tr 559); (37, st 253); (46, st 544); (47, tr 560); (53, st 560);
      (58, tr 576); (59, st 520); (61, st 520); (63, tr 562); (64, tr 263); (95, st 520); (126, st 520)]
      [If (Below 48) (If (Within 36 45) (Go (st 520)) Fall) (If (Above 57) (If (Above 90)
      (If (Within 97 122) (Go (st 520)) Fall) (If (AtLeast 65) (Go (st 520)) Fall)) (Go (st 543))); Go (st
      0)];
    St 560 [(33, st 520); (35, tr 559); (37, st 253); (46, st 544); (47, tr 560); (58, tr 576);
      (61, st 520); (63, tr 562); (64, tr 263); (95, st 520); (126, st 520)] [If (Below 54) (If (Above 45)
      (If (Within 48 53) (Go (st 543)) Fall) (If (AtLeast 36) (Go (st 520)) Fall)) (If (Above 59)
      (If (Above 90) (If (Within 97 122) (Go (st 520)) Fall) (If (AtLeast 65) (Go (st 520)) Fall))
      (Go (st 520))); Go (st 0)]
].
