(* ===== verification/UriParser.v ===== *)
(** * Uri::Create (sylar/uri.cpp)

    The program of the machine: the tables of the states and the actions at the
    end of the text. *)

From Stdlib Require Import ZArith List String.
From S2P Require Import Prelude CString Uri UriMachine UriStates1 UriStates2.
Import ListNotations.

Local Open Scope Z_scope.
Local Open Scope list_scope.

(** The switch at the end of the text. *)
Definition uri_eof_1 : list entry := [
    Eof [462; 489] [save_port];
    Eof [460; 463; 464; 465; 466; 467; 470; 471; 472; 473; 474; 475; 476; 477; 478; 479; 480; 481; 482; 483;
      484; 485; 486; 487; 488; 490; 491; 492; 493; 494; 495; 496; 497; 498; 499; 500; 501; 502; 503; 504;
      505; 506; 507] [save_host];
    Eof [513] [save_path];
    Eof [457] [save_query];
    Eof [454] [save_fragment];
    Eof [456] [marku; save_query];
    Eof [453] [marku; save_fragment];
    Eof [461; 468] [markh; save_port];
    Eof [459; 469] [markh; save_host]
].

Definition uri_eof_2 : list entry := [
    Eof [514; 521] [markh; save_port; save_path];
    Eof [511; 522] [markh; save_host; save_path];
    Eof [515; 542] [save_port; markh; save_path];
    Eof [512; 516; 517; 518; 519; 520; 523; 524; 525; 526; 527; 528; 529; 530; 531; 532; 533; 534; 535; 536;
      537; 538; 539; 540; 541; 543; 544; 545; 546; 547; 548; 549; 550; 551; 552; 553; 554; 555; 556; 557;
      558; 559; 560] [save_host; markh; save_path]
].

Definition uri_program : list entry :=
  uri_code_1 ++ uri_code_2 ++ uri_code_3 ++ uri_code_4 ++ uri_code_5 ++ uri_code_6 ++ uri_code_7 ++
  uri_code_8 ++ uri_code_9 ++ uri_code_10 ++ uri_code_11 ++ uri_code_12 ++ uri_code_13 ++
  uri_code_14 ++ uri_code_15 ++ uri_code_16 ++ uri_code_17 ++ uri_code_18 ++ uri_code_19 ++
  uri_code_20 ++ uri_code_21 ++ uri_code_22 ++ uri_code_23 ++ uri_code_24 ++ uri_code_25 ++
  uri_code_26 ++ uri_code_27 ++ uri_code_28 ++ uri_code_29 ++ uri_code_30 ++ uri_code_31 ++
  uri_code_32 ++ uri_code_33 ++ uri_code_34 ++ uri_code_35 ++ uri_code_36 ++ uri_code_37 ++
  uri_code_38 ++ uri_code_39 ++ uri_code_40 ++ uri_code_41 ++ uri_code_42 ++ uri_code_43 ++
  uri_code_44 ++ uri_code_45 ++ uri_code_46 ++ uri_code_47 ++ uri_code_48 ++ uri_code_49 ++
  uri_code_50 ++ uri_code_51 ++ uri_code_52 ++ uri_code_53 ++ uri_code_54 ++ uri_code_55 ++
  uri_code_56 ++ uri_code_57 ++ uri_code_58 ++ uri_code_59 ++ uri_code_60 ++ uri_code_61 ++
  uri_code_62 ++ uri_code_63 ++ uri_code_64 ++ uri_code_65 ++ uri_code_66 ++ uri_code_67 ++
  uri_code_68 ++ uri_code_69 ++ uri_code_70 ++ uri_code_71 ++ uri_code_72 ++ uri_code_73 ++
  uri_code_74 ++ uri_code_75 ++ uri_code_76 ++ uri_code_77 ++ uri_code_78 ++ uri_code_79 ++
  uri_code_80 ++ uri_code_81 ++ uri_code_82 ++ uri_code_83 ++ uri_code_84 ++ uri_code_85 ++
  uri_code_86
  ++ uri_eof_1 ++ uri_eof_2.

Definition Uri_Create : string -> outcome (option Uri) := Create uri_program.

Example create_sample : Uri_Create "http://www.sylar.top:80/test/uri?id=100&name=sylar#frg"
  = Ret (Some (mkUri "http" "" "www.sylar.top" "/test/uri" "id=100&name=sylar" "frg" 80)).
Proof. vm_compute. reflexivity. Qed.
