(* ===== verification/UriSafe.v ===== *)
(** * Uri::Create on every text

    The automaton makes a string from [mark] when it saves a part, and [mark] may
    be null then.  [empty_port] reads a text from the left and finds an authority
    (after the first double slash, before the next slash, question mark or hash)
    that ends with a colon.  [safe_rows] says of every state of the machine, with
    [mark] null or not, where that reader may be; the table is closed under the
    transitions of all states on all characters, and only after an empty port a
    part is saved with a null [mark]. *)

From Stdlib Require Import ZArith Lia Ascii String List.
From stdpp Require Import base list strings.
From S2P Require Import Prelude Ordered CString Uri UriMachine UriParser.

Local Open Scope Z_scope.
Local Open Scope list_scope.

(** ** The reader of authorities *)

Inductive mon : Type :=
  | M0      (** no slash so far *)
  | M1      (** one slash, just read *)
  | MAuth   (** in the authority *)
  | MColon  (** in the authority, behind a colon *)
  | MEmpty  (** behind an authority that ends with a colon *)
  | MDone.  (** none of these *)

#[export] Instance mon_eq_dec : EqDecision mon.
Proof. solve_decision. Defined.

Definition mon_eqb (a b : mon) : bool :=
  match a, b with
  | M0, M0 | M1, M1 | MAuth, MAuth | MColon, MColon | MEmpty, MEmpty | MDone, MDone => true
  | _, _ => false
  end.

(** Slash, question mark, hash. *)
Definition ends_authority (ch : Z) : bool := (ch =? 47) || (ch =? 63) || (ch =? 35).

Definition mon_step (m : mon) (ch : Z) : mon :=
  match m with
  | M0 => if ch =? 47 then M1 else if ends_authority ch then MDone else M0
  | M1 => if ch =? 47 then MAuth else MDone
  | MAuth => if ch =? 58 then MColon else if ends_authority ch then MDone else MAuth
  | MColon => if ch =? 58 then MColon else if ends_authority ch then MEmpty else MAuth
  | MEmpty => MEmpty
  | MDone => MDone
  end.

Definition mon_run (m : mon) (l : list ascii) : mon := fold_left (fun m c => mon_step m (schar c)) l m.

Definition mon_bad (m : mon) : bool := match m with MColon | MEmpty => true | _ => false end.

Definition empty_port (s : string) : bool := mon_bad (mon_run M0 (list_ascii_of_string s)).

(** ** The table *)

Definition safe_rows : list (bool * list mon * list Z) := [
    (true, [MAuth], [9; 10; 11; 12; 13; 14; 15; 16; 17; 18; 19; 20; 21; 22; 23; 24; 25; 26; 27; 28; 29; 30;
      31; 32; 34; 35; 36; 37; 38; 39; 40; 41; 42; 44; 45; 46; 47; 49; 50; 51; 52; 54; 55; 56; 57; 59; 60;
      61; 62; 64; 65; 66; 67; 69; 70; 71; 72; 73; 74; 75; 76; 77; 78; 79; 80; 81; 82; 84; 85; 86; 87; 88;
      89; 90; 91; 92; 93; 94; 95; 96; 97; 98; 99; 101; 102; 103; 104; 105; 106; 107; 108; 109; 110; 112;
      114; 115; 116; 117; 118; 119; 120; 121; 122; 123; 124; 125; 127; 128; 129; 130; 132; 133; 134; 135;
      137; 138; 139; 140; 142; 143; 144; 145; 148; 149; 150; 151; 153; 154; 155; 156; 158; 159; 160; 161;
      163; 164; 165; 166; 168; 169; 170; 171; 173; 174; 175; 176; 177; 178; 179; 180; 181; 182; 183; 184;
      185; 186; 187; 188; 189; 190; 191; 192; 193; 194; 195; 196; 197; 198; 199; 200; 201; 202; 203; 204;
      205; 206; 207; 208; 209; 210; 211; 212; 213; 214; 215; 216; 217; 218; 219; 220; 221; 222; 223; 224;
      225; 226; 227; 229; 230; 231; 232; 233; 234; 235; 236; 237; 238; 239; 240; 241; 242; 245; 246; 247;
      248; 249; 250; 251; 252; 253; 254; 256; 257; 258; 259; 260; 261; 262; 263; 264; 266; 267; 268; 269;
      271; 272; 273; 274; 276; 277; 278; 279; 281; 282; 283; 284; 286; 287; 288; 289; 291; 292; 293; 294;
      295; 296; 297; 298; 299; 300; 301; 302; 303; 304; 306; 307; 308; 309; 310; 311; 312; 313; 314; 315;
      316; 317; 318; 319; 320; 321; 323; 324; 325; 326; 327; 328; 329; 330; 331; 332; 334; 336; 337; 338;
      339; 340; 341; 342; 343; 344; 345; 346; 347; 349; 350; 351; 352; 354; 355; 356; 357; 359; 360; 361;
      362; 364; 365; 366; 367; 370; 371; 372; 373; 375; 376; 377; 378; 380; 381; 382; 383; 385; 386; 387;
      388; 390; 391; 392; 393; 395; 396; 397; 398; 399; 400; 401; 402; 403; 404; 405; 406; 407; 408; 409;
      410; 411; 412; 413; 414; 415; 416; 417; 418; 419; 420; 421; 422; 423; 424; 425; 426; 427; 428; 429;
      430; 431; 432; 433; 434; 435; 436; 437; 438; 439; 440; 441; 442; 443; 444; 445; 446; 447; 448; 449;
      460; 462; 463; 464; 465; 466; 467; 470; 471; 472; 473; 474; 475; 476; 477; 478; 479; 480; 481; 482;
      483; 484; 485; 486; 487; 488; 489; 490; 491; 492; 493; 494; 495; 496; 497; 498; 499; 500; 501; 502;
      503; 504; 505; 506; 507; 512; 515; 516; 517; 518; 519; 520; 523; 524; 525; 526; 527; 528; 529; 530;
      531; 532; 533; 534; 535; 536; 537; 538; 539; 540; 541; 542; 543; 544; 545; 546; 547; 548; 549; 550;
      551; 552; 553; 554; 555; 556; 557; 558; 559; 560]);
    (true, [MColon], [43; 48; 53; 58; 63; 68; 100; 111; 113; 126; 131; 136; 141; 146; 147; 152; 157; 162;
      167; 172; 265; 270; 275; 280; 285; 290; 322; 333; 335; 348; 353; 358; 363; 368; 369; 374; 379; 384;
      389; 394; 461; 468; 514; 521]);
    (true, [MEmpty; MDone], [1; 2; 7; 8; 453; 454; 456; 457]);
    (true, [MAuth; MColon], [33; 83; 228; 255; 305; 450]);
    (false, [M0], [3; 4; 451; 452; 509]);
    (false, [MAuth], [459; 469; 511; 522]);
    (true, [M0], [3; 4; 452; 508]);
    (false, [MEmpty], [243; 244; 513]);
    (true, [MDone], [243; 244; 513]);
    (false, [M0; MAuth; MEmpty; MDone], [5; 6]);
    (false, [M1], [458; 510]);
    (false, [MEmpty; MDone], [453; 456]);
    (true, [MAuth; MEmpty; MDone], [5; 6]);
    (false, [M0; M1; MAuth; MColon; MEmpty; MDone], [455]);
    (true, [M1; MAuth; MColon; MEmpty; MDone], [455])
].

(** The monitors of a state, with [mark] not null or null. *)
Fixpoint mons_of (rows : list (bool * list mon * list Z)) (cs : Z) (marked : bool) : option (list mon) :=
  match rows with
  | [] => None
  | (b, ms, ks) :: r => if Bool.eqb b marked && existsb (Z.eqb cs) ks then Some ms else mons_of r cs marked
  end.

(** Whether [mark] is set after the actions; [None] when a null one is used. *)
Fixpoint acts_mark (acts : list action) (marked : bool) : option bool :=
  match acts with
  | [] => Some marked
  | a :: r =>
      match a with
      | marku | markh => acts_mark r true
      | save_host => acts_mark r marked
      | save_userinfo => acts_mark r false
      | _ => if marked then acts_mark r false else None
      end
  end.

Definition all_chars : list Z := map (fun n => Z.of_nat n - 128) (seq 0 256).

Definition subset (a b : list mon) : bool := forallb (fun m => existsb (mon_eqb m) b) a.

(** One character in one row. *)
Definition check_char (code : list (Z * label) * list test) (marked : bool) (ms : list mon) (ch : Z) : bool :=
  match run_state code ch with
  | None => false
  | Some l =>
      match follow uri_program l with
      | None => false
      | Some (acts, cs') =>
          match acts_mark acts marked with
          | None => forallb (fun m => mon_eqb (mon_step m ch) MEmpty) ms
          | Some marked' =>
              if cs' =? 0 then true
              else match mons_of safe_rows cs' marked' with
                   | None => false
                   | Some ms' => subset (map (fun m => mon_step m ch) ms) ms'
                   end
          end
      end
  end.

Definition check_row (cs : Z) (marked : bool) (ms : list mon) : bool :=
  match find_st uri_program cs with
  | None => false
  | Some code => forallb (check_char code marked ms) all_chars
  end
  && match acts_mark (find_eof uri_program cs) marked with
     | None => forallb mon_bad ms
     | Some _ => true
     end.

Definition check_rows (rows : list (bool * list mon * list Z)) : bool :=
  forallb (fun r => forallb (fun cs => check_row cs r.1.1 r.1.2) r.2) rows.

Lemma rows_checked : check_rows safe_rows = true.
Proof. vm_compute. reflexivity. Qed.

(** ** Soundness of the table *)

Lemma mon_eqb_eq a b : mon_eqb a b = true -> a = b.
Proof. destruct a, b; (reflexivity || discriminate). Qed.

Lemma schar_in c : In (schar c) all_chars.
Proof.
  apply in_map_iff. exists (Z.to_nat (schar c + 128)).
  pose proof (swrap_range 8 (code c) ltac:(lia)) as H. unfold s_range in H. change (2 ^ (8 - 1)) with 128 in H.
  fold (schar c) in H. split; [lia|]. apply in_seq. lia.
Qed.

Lemma row_ok rows cs b ms :
  check_rows rows = true -> mons_of rows cs b = Some ms -> check_row cs b ms = true.
Proof.
  unfold check_rows. induction rows as [|[[b' ms'] ks] rows IH]; simpl; [discriminate|]. intros H. apply andb_true_iff in H as [H1 H2].
  destruct (Bool.eqb b' b && existsb (Z.eqb cs) ks) eqn:E; [|intros; apply IH; assumption].
  apply andb_true_iff in E as [Eb Ek]. apply Bool.eqb_prop in Eb as ->. intros E. injection E as <-.
  apply existsb_exists in Ek as (k & Hk & Ek). apply Z.eqb_eq in Ek as <-.
  rewrite forallb_forall in H1. apply (H1 cs Hk).
Qed.

Definition is_marked (x : Marked) : bool := match x.1 with Some _ => true | None => false end.

(** A number is read up to the end of the text at the latest. *)
Lemma atoi_digits_ret l : forall acc, exists n, atoi_digits acc (l ++ [NUL]) = Ret n.
Proof. induction l as [|c l IH]; intros acc; simpl; [eauto|]. destruct (is_digit c); eauto. Qed.

Lemma atoi_ret l : exists n, atoi (l ++ [NUL]) = Ret n.
Proof.
  enough (exists n, strtol (l ++ [NUL]) = Ret n) as [n E] by (unfold atoi; rewrite E; simpl; eauto).
  induction l as [|c l IH]; simpl; [eauto|]. destruct (is_space c); [exact IH|].
  destruct (code c =? 45); [destruct (atoi_digits_ret l 0) as [n ->]; simpl; eauto|].
  destruct (code c =? 43); [apply atoi_digits_ret|].
  destruct (is_digit c); [apply atoi_digits_ret|eauto].
Qed.

Lemma acts_ok buf p acts : forall x b, acts_mark acts (is_marked x) = Some b ->
  exists x', do_actions buf p acts x = Ret x' /\ is_marked x' = b.
Proof.
  induction acts as [|a acts IH]; intros x b; [intros E; injection E as <-; exists x; auto|].
  assert (Hsave : forall set, (if is_marked x then acts_mark acts false else None) = Some b ->
    exists x', obind (save set buf p x) (do_actions buf p acts) = Ret x' /\ is_marked x' = b).
  { intros set. unfold is_marked, save. destruct x as [[m|] u]; simpl; [|discriminate]. intros E. apply IH, E. }
  destruct a; simpl; try apply Hsave; try (intros E; apply IH, E).
  - unfold is_marked at 1. destruct x as [[m|] u]; simpl; [|discriminate]. intros E.
    destruct (Nat.eqb p m); [apply IH, E|]. destruct (atoi_ret (drop m buf)) as [n ->]. apply IH, E.
  - intros E. destruct x as [[m|] u]; simpl; apply IH, E.
  - unfold is_marked at 1. destruct x as [[m|] u]; simpl; intros E; apply IH, E.
Qed.

(** A part is saved with a null [mark]. *)
Lemma acts_bad buf p acts : forall x, acts_mark acts (is_marked x) = None ->
  do_actions buf p acts x = Undef NullDeref.
Proof.
  induction acts as [|a acts IH]; intros x; [discriminate|].
  assert (Hsave : forall set, (if is_marked x then acts_mark acts false else None) = None ->
    obind (save set buf p x) (do_actions buf p acts) = Undef NullDeref).
  { intros set. unfold is_marked, save. destruct x as [[m|] u]; simpl; [|reflexivity]. intros E. apply IH, E. }
  destruct a; simpl; try apply Hsave; try (intros E; apply IH, E).
  - unfold is_marked at 1. destruct x as [[m|] u]; simpl; [|reflexivity]. intros E.
    destruct (Nat.eqb p m); [apply IH, E|]. destruct (atoi_ret (drop m buf)) as [n ->]. apply IH, E.
  - intros E. destruct x as [[m|] u]; simpl; apply IH, E.
  - unfold is_marked at 1. destruct x as [[m|] u]; simpl; intros E; apply IH, E.
Qed.

Lemma mon_run_empty l : mon_run MEmpty l = MEmpty.
Proof. unfold mon_run. induction l as [|c l IH]; [reflexivity|exact IH]. Qed.

(** The run returns, or saves a part with a null [mark] behind an empty port. *)
Lemma exec_safe buf rest : forall p cs x m ms,
  mons_of safe_rows cs (is_marked x) = Some ms -> In m ms ->
  (exists r, exec uri_program buf p rest cs x = Ret r)
  \/ (mon_bad (mon_run m rest) = true /\ exec uri_program buf p rest cs x = Undef NullDeref).
Proof.
  induction rest as [|c rest IH]; intros p cs x m ms Hr Hm;
    pose proof (row_ok safe_rows cs _ ms rows_checked Hr) as Hc; unfold check_row in Hc;
    apply andb_true_iff in Hc as [Hc He]; cbn [exec].
  - destruct (acts_mark (find_eof uri_program cs) (is_marked x)) as [b|] eqn:E.
    + destruct (acts_ok buf p _ x b E) as (x' & -> & _). simpl. eauto.
    + rewrite forallb_forall in He. right. rewrite (acts_bad buf p _ x E). split; [exact (He m Hm)|reflexivity].
  - unfold move. destruct (find_st uri_program cs) as [code|]; [|discriminate].
    rewrite forallb_forall in Hc. specialize (Hc (schar c) (schar_in c)). unfold check_char in Hc.
    destruct (run_state code (schar c)) as [l|]; [|discriminate].
    destruct (follow uri_program l) as [[acts cs']|]; [|discriminate].
    change (mon_run m (c :: rest)) with (mon_run (mon_step m (schar c)) rest).
    destruct (acts_mark acts (is_marked x)) as [b|] eqn:E.
    + destruct (acts_ok buf p acts x b E) as (x' & -> & <-). cbn [obind].
      destruct (cs' =? 0); [eauto|]. destruct (mons_of safe_rows cs' (is_marked x')) as [ms'|] eqn:Er; [|discriminate].
      apply (IH (S p) cs' x' (mon_step m (schar c)) ms' Er).
      unfold subset in Hc. rewrite forallb_forall in Hc.
      specialize (Hc (mon_step m (schar c)) (in_map _ _ _ Hm)).
      apply existsb_exists in Hc as (m' & Hm' & E'). apply mon_eqb_eq in E' as <-. exact Hm'.
    + rewrite forallb_forall in Hc. specialize (Hc m Hm). apply mon_eqb_eq in Hc.
      rewrite Hc, mon_run_empty, (acts_bad buf p _ x E). auto.
Qed.

(** C30: [Uri::Create] on every text: it returns a Uri or a null pointer, or it
    makes a string from a null [mark], and the second happens only to a text
    whose authority ends with a colon.  On a text without such an empty port,
    which RFC 3986 allows, it is defined. *)
Theorem create_defined (s : string) :
  (exists r, Uri_Create s = Ret r) \/ (empty_port s = true /\ Uri_Create s = Undef NullDeref).
Proof.
  unfold Uri_Create, Create, empty_port.
  destruct (exec_safe (list_ascii_of_string s) (list_ascii_of_string s) 0 uri_parser_start (None, Uri_new) M0 [M0])
    as [[r ->]|[H ->]]; [reflexivity|left; reflexivity| |right; auto]. left. simpl.
  destruct (_ =? _); [eauto|]. destruct (_ <=? _); eauto.
Qed.

(** Both happen with an empty port: behind a scheme the path is saved with a null
    [mark]; a text without a scheme is read by other states, which return. *)
Theorem empty_port_cases :
  empty_port "http://h:/x" = true /\ Uri_Create "http://h:/x" = Undef NullDeref
  /\ empty_port "//h:/x" = true /\ exists u, Uri_Create "//h:/x" = Ret (Some u) /\ m_host u = "h"%string.
Proof. vm_compute. eauto 10. Qed.
