(* ===== verification/UriRoundtrip.v ===== *)
(** * A Uri is read back from its text

    The text of [toString] is read in phases: scheme, user, host, port, path,
    query and fragment.  In a phase the machine moves among a small set of states
    without an action on every character of a class (and on the two digits behind
    a percent sign); the sets are checked against the tables of the states, so the
    proof is about the code of the states that the phases pass through. *)

From Stdlib Require Import ZArith Lia Ascii String List Decimal DecimalString DecimalN.
From stdpp Require Import base list strings.
From S2P Require Import Prelude Ordered CString Uri UriMachine UriParser UriSafe.

Local Open Scope Z_scope.
Local Open Scope list_scope.

Local Abbreviation chars := list_ascii_of_string.

(** ** Classes of characters, as signed chars *)

Definition within (a b ch : Z) : bool := (a <=? ch) && (ch <=? b).
Definition one_char (s : string) (ch : Z) : bool := existsb (fun c => code c =? ch) (chars s).

Definition z_alpha (ch : Z) : bool := within 65 90 ch || within 97 122 ch.
Definition z_digit (ch : Z) : bool := within 48 57 ch.
Definition z_xdigit (ch : Z) : bool := z_digit ch || within 65 70 ch || within 97 102 ch.
Definition scheme_char (ch : Z) : bool := z_alpha ch || z_digit ch || one_char "+-." ch.
(** unreserved | sub_delims *)
Definition name_char (ch : Z) : bool := z_alpha ch || z_digit ch || one_char "-._~!$&'()*+,;=" ch.
(** pchar, with the bytes above 127 *)
Definition path_char (ch : Z) : bool := name_char ch || (ch <? 0) || one_char ":@/" ch.
Definition query_char (ch : Z) : bool := path_char ch || one_char "?" ch.

(** [k] counts the digits to come behind a percent sign: 0, 1 (two), 2 (one). *)
Definition allowed (pct : bool) (cls : Z -> bool) (k ch : Z) : bool :=
  if k =? 0 then cls ch || (pct && (ch =? 37)) else z_xdigit ch.
Definition next_k (k ch : Z) : Z := if k =? 0 then (if ch =? 37 then 1 else 0) else if k =? 1 then 2 else 0.

Fixpoint text_ok (pct : bool) (cls : Z -> bool) (k : Z) (l : list ascii) : bool :=
  match l with
  | [] => k =? 0
  | c :: r => allowed pct cls k (schar c) && text_ok pct cls (next_k k (schar c)) r
  end.

(** ** Phases *)

#[export] Instance action_eq_dec : EqDecision action.
Proof. solve_decision. Defined.

Definition member (s : Z * Z) (R : list (Z * Z)) : bool :=
  existsb (fun r => (r.1 =? s.1) && (r.2 =? s.2)) R.

(** On an allowed character the code [code] goes into [R] with the actions [acts]. *)
Definition stays (code : list (Z * label) * list test) (acts : list action) (pct : bool) (cls : Z -> bool)
    (k : Z) (R : list (Z * Z)) (ch : Z) : bool :=
  if allowed pct cls k ch then
    match run_state code ch with
    | None => false
    | Some l =>
        match follow uri_program l with
        | None => false
        | Some (acts', cs') =>
            bool_decide (acts' = acts) && negb (cs' =? 0) && member (cs', next_k k ch) R
        end
    end
  else true.

Definition stays_from (cs : Z) (acts : list action) (pct : bool) (cls : Z -> bool) (k : Z) (R : list (Z * Z)) : bool :=
  match find_st uri_program cs with
  | None => false
  | Some code => forallb (stays code acts pct cls k R) all_chars
  end.

Definition closed (pct : bool) (cls : Z -> bool) (R : list (Z * Z)) : bool :=
  forallb (fun s => stays_from s.1 [] pct cls s.2 R) R.

(** Every state of [R] that is not behind a percent sign leaves on [ch]. *)
Definition leaves (R : list (Z * Z)) (ch : Z) (acts : list action) (target : Z) : bool :=
  forallb (fun s => negb (s.2 =? 0) || bool_decide (move uri_program s.1 ch = Some (acts, target))) R.

Definition finishes (R : list (Z * Z)) (acts : list action) : bool :=
  forallb (fun s => negb (s.2 =? 0) ||
    (bool_decide (find_eof uri_program s.1 = acts) && (uri_parser_first_final <=? s.1))) R.

Definition R_scheme : list (Z * Z) := [(508, 0)].
Definition R_host : list (Z * Z) :=
  [(253, 1); (254, 2); (520, 0); (543, 0); (544, 0); (545, 0); (546, 0); (547, 0); (548, 0); (549, 0); (550, 0);
   (551, 0); (552, 0); (553, 0); (554, 0); (555, 0); (556, 0); (557, 0); (558, 0); (559, 0); (560, 0)].
(** The host behind a user. *)
Definition R_host' : list (Z * Z) :=
  [(258, 1); (259, 2); (523, 0); (524, 0); (525, 0); (526, 0); (527, 0); (528, 0); (529, 0); (530, 0); (531, 0);
   (532, 0); (533, 0); (534, 0); (535, 0); (536, 0); (537, 0); (538, 0); (539, 0); (540, 0); (541, 0)].
Definition R_port : list (Z * Z) := [(542, 0)].
Definition R_port' : list (Z * Z) := [(515, 0)].
Definition R_path : list (Z * Z) := [(513, 0); (243, 1); (244, 2)].
Definition R_query : list (Z * Z) := [(457, 0); (7, 1); (8, 2)].
Definition R_fragment : list (Z * Z) := [(454, 0); (1, 1); (2, 2)].

Lemma scheme_phase : stays_from 451 [marku] false z_alpha 0 R_scheme = true /\ closed false scheme_char R_scheme = true
  /\ leaves R_scheme 58 [save_scheme] 509 = true.
Proof. vm_compute. auto. Qed.

Lemma host_phase : stays_from 511 [markh] true name_char 0 R_host = true /\ closed true name_char R_host = true
  /\ leaves R_host 64 [save_userinfo] 522 = true /\ leaves R_host 58 [save_host] 521 = true
  /\ leaves R_host 47 [save_host; markh] 513 = true.
Proof. vm_compute. auto 10. Qed.

Lemma host'_phase : stays_from 522 [markh] true name_char 0 R_host' = true /\ closed true name_char R_host' = true
  /\ leaves R_host' 58 [save_host] 514 = true /\ leaves R_host' 47 [save_host; markh] 513 = true.
Proof. vm_compute. auto 10. Qed.

Lemma port_phase : stays_from 521 [markh] false z_digit 0 R_port = true /\ closed false z_digit R_port = true
  /\ leaves R_port 47 [save_port; markh] 513 = true.
Proof. vm_compute. auto. Qed.

Lemma port'_phase : stays_from 514 [markh] false z_digit 0 R_port' = true /\ closed false z_digit R_port' = true
  /\ leaves R_port' 47 [save_port; markh] 513 = true.
Proof. vm_compute. auto. Qed.

Lemma path_phase : closed true path_char R_path = true /\ leaves R_path 63 [save_path] 456 = true
  /\ leaves R_path 35 [save_path] 453 = true /\ finishes R_path [save_path] = true.
Proof. vm_compute. auto. Qed.

Lemma query_phase : stays_from 456 [marku] true query_char 0 R_query = true /\ closed true query_char R_query = true
  /\ leaves R_query 35 [save_query] 453 = true /\ finishes R_query [save_query] = true.
Proof. vm_compute. auto 10. Qed.

Lemma fragment_phase : stays_from 453 [marku] true query_char 0 R_fragment = true
  /\ closed true query_char R_fragment = true /\ finishes R_fragment [save_fragment] = true.
Proof. vm_compute. auto. Qed.

(** ** Running through a phase *)

Lemma member_in cs k R : member (cs, k) R = true -> In (cs, k) R.
Proof.
  unfold member. intros H. apply existsb_exists in H as ([cs' k'] & Hin & E). cbn in E.
  apply andb_true_iff in E as [E1 E2]. apply Z.eqb_eq in E1, E2. subst. exact Hin.
Qed.

Lemma stays_move cs acts pct cls k R c :
  stays_from cs acts pct cls k R = true -> allowed pct cls k (schar c) = true ->
  exists cs', move uri_program cs (schar c) = Some (acts, cs') /\ cs' <> 0 /\ In (cs', next_k k (schar c)) R.
Proof.
  unfold stays_from, move. destruct (find_st uri_program cs) as [code|]; [|discriminate].
  intros H Ha. rewrite forallb_forall in H. specialize (H (schar c) (schar_in c)). unfold stays in H.
  rewrite Ha in H. destruct (run_state code (schar c)) as [l|]; [|discriminate].
  destruct (follow uri_program l) as [[acts' cs']|]; [|discriminate].
  apply andb_true_iff in H as [H Hm]. apply andb_true_iff in H as [H1 H2].
  apply bool_decide_eq_true_1 in H1 as ->. apply negb_true_iff, Z.eqb_neq in H2.
  exists cs'. auto using member_in.
Qed.

Section run.
Context (buf : list ascii).
Implicit Types (x : Marked) (R : list (Z * Z)).

Lemma exec_char c r p cs x acts cs' x' :
  move uri_program cs (schar c) = Some (acts, cs') -> cs' <> 0 -> do_actions buf p acts x = Ret x' ->
  exec uri_program buf p (c :: r) cs x = exec uri_program buf (S p) r cs' x'.
Proof. intros Hm Hn Ha. cbn [exec]. rewrite Hm, Ha. cbn [obind]. apply Z.eqb_neq in Hn. rewrite Hn. reflexivity. Qed.

Lemma exec_closed pct cls R l : closed pct cls R = true -> forall k p cs x rest,
  In (cs, k) R -> text_ok pct cls k l = true ->
  exists cs', In (cs', 0) R
    /\ exec uri_program buf p (l ++ rest) cs x = exec uri_program buf (p + length l) rest cs' x.
Proof.
  intros Hc. induction l as [|c l IH]; intros k p cs x rest Hin Ht; simpl in Ht.
  - apply Z.eqb_eq in Ht as ->. exists cs. rewrite Nat.add_0_r. auto.
  - apply andb_true_iff in Ht as [Ha Ht]. unfold closed in Hc. rewrite forallb_forall in Hc.
    destruct (stays_move cs [] pct cls k R c (Hc _ Hin) Ha) as (cs1 & Hm & Hn & Hin1).
    destruct (IH _ (S p) cs1 x rest Hin1 Ht) as (cs' & Hin' & E). exists cs'. split; [exact Hin'|].
    rewrite <- app_comm_cons, (exec_char c (l ++ rest) p cs x [] cs1 x Hm Hn eq_refl), E. f_equal. simpl. lia.
Qed.

(** The first character sets the mark. *)
Lemma exec_phase from mk pct first cls R l p x rest :
  stays_from from [mk] pct first 0 R = true -> closed pct cls R = true -> (mk = marku \/ mk = markh) ->
  match l with [] => false | c :: r => allowed pct first 0 (schar c) && text_ok pct cls (next_k 0 (schar c)) r end = true ->
  exists cs', In (cs', 0) R
    /\ exec uri_program buf p (l ++ rest) from x = exec uri_program buf (p + length l) rest cs' (Some p, x.2).
Proof.
  intros Hs Hc Hmk. destruct l as [|c l]; [discriminate|]. intros H. apply andb_true_iff in H as [Ha Ht].
  destruct (stays_move from [mk] pct first 0 R c Hs Ha) as (cs1 & Hm & Hn & Hin).
  destruct (exec_closed pct cls R l Hc _ (S p) cs1 (Some p, x.2) rest Hin Ht) as (cs' & Hin' & E).
  exists cs'. split; [exact Hin'|]. rewrite <- app_comm_cons.
  rewrite (exec_char c (l ++ rest) p from x [mk] cs1 (Some p, x.2) Hm Hn) by (destruct Hmk as [-> | ->]; reflexivity).
  rewrite E. f_equal. simpl. lia.
Qed.

Lemma exec_leave R ch acts target c r p cs x x' :
  leaves R ch acts target = true -> In (cs, 0) R -> schar c = ch -> target <> 0 ->
  do_actions buf p acts x = Ret x' ->
  exec uri_program buf p (c :: r) cs x = exec uri_program buf (S p) r target x'.
Proof.
  intros Hl Hin Hc Hn Ha. unfold leaves in Hl. rewrite forallb_forall in Hl. specialize (Hl _ Hin).
  change (bool_decide (move uri_program cs ch = Some (acts, target)) = true) in Hl.
  apply bool_decide_eq_true_1 in Hl. rewrite <- Hc in Hl. apply (exec_char c r p cs x acts target x' Hl Hn Ha).
Qed.

Lemma exec_finish R acts p cs x x' :
  finishes R acts = true -> In (cs, 0) R -> do_actions buf p acts x = Ret x' ->
  exec uri_program buf p [] cs x = Ret (cs, x') /\ uri_parser_first_final <= cs.
Proof.
  intros Hf Hin Ha. unfold finishes in Hf. rewrite forallb_forall in Hf. specialize (Hf _ Hin).
  change (bool_decide (find_eof uri_program cs = acts) && (uri_parser_first_final <=? cs) = true) in Hf.
  apply andb_true_iff in Hf as [H1 H2]. apply bool_decide_eq_true_1 in H1. apply Z.leb_le in H2.
  split; [|exact H2]. cbn [exec]. rewrite H1, Ha. reflexivity.
Qed.
End run.

(** The text from the mark. *)
Lemma marked_text (pre t post : list ascii) m p :
  m = length pre -> p = (length pre + length t)%nat ->
  string_of_mem (drop m (pre ++ t ++ post)) (p - m) = string_of_list_ascii t.
Proof.
  intros -> ->. unfold string_of_mem. rewrite drop_app_length. f_equal.
  replace (length pre + length t - length pre)%nat with (length t) by lia. apply take_app_length.
Qed.

(** ** Numbers *)

Fixpoint dec_value (acc : Z) (u : uint) : Z :=
  match u with
  | Nil => acc
  | D0 u => dec_value (acc * 10) u
  | D1 u => dec_value (acc * 10 + 1) u
  | D2 u => dec_value (acc * 10 + 2) u
  | D3 u => dec_value (acc * 10 + 3) u
  | D4 u => dec_value (acc * 10 + 4) u
  | D5 u => dec_value (acc * 10 + 5) u
  | D6 u => dec_value (acc * 10 + 6) u
  | D7 u => dec_value (acc * 10 + 7) u
  | D8 u => dec_value (acc * 10 + 8) u
  | D9 u => dec_value (acc * 10 + 9) u
  end.

Lemma atoi_digits_dec u c l : is_digit c = false -> forall acc,
  atoi_digits acc (chars (NilEmpty.string_of_uint u) ++ c :: l) = Ret (dec_value acc u).
Proof.
  intros Hc. induction u; intros acc; cbn [NilEmpty.string_of_uint list_ascii_of_string app atoi_digits dec_value];
    [rewrite Hc; reflexivity| ..];
    match goal with |- context [code ?a] => let v := eval vm_compute in (code a) in change (code a) with v end;
    change (is_digit _) with true; rewrite IHu; do 2 f_equal; lia.
Qed.

Lemma dec_value_pos u : forall acc, dec_value (Zpos acc) u = Zpos (Pos.of_uint_acc u acc).
Proof.
  induction u; intros acc; cbn [dec_value Pos.of_uint_acc]; [reflexivity| ..];
    rewrite <- IHu; f_equal; lia.
Qed.

Lemma dec_value_N u : dec_value 0 u = Z.of_N (N.of_uint u).
Proof.
  unfold N.of_uint. induction u;
    [reflexivity|exact IHu|exact (dec_value_pos u 1)|exact (dec_value_pos u 2)|exact (dec_value_pos u 3)
    |exact (dec_value_pos u 4)|exact (dec_value_pos u 5)|exact (dec_value_pos u 6)|exact (dec_value_pos u 7)
    |exact (dec_value_pos u 8)|exact (dec_value_pos u 9)].
Qed.

Lemma atoi_dec n c l : 0 <= n < 2 ^ 31 -> is_digit c = false -> atoi (chars (dec n) ++ c :: l) = Ret n.
Proof.
  intros Hn Hc. unfold atoi. assert (E : strtol (chars (dec n) ++ c :: l) = Ret n).
  { assert (Hne : exists d r, chars (dec n) = d :: r /\ is_digit d = true).
    { pose proof (dec_digits n) as Hd. pose proof (dec_nonempty n) as Hn'.
      destruct (dec n) as [|d r]; [congruence|]. exists d, (chars r). split; [reflexivity|].
      simpl in Hd. apply andb_true_iff in Hd. tauto. }
    destruct Hne as (d & r & Ed & Hd).
    assert (Ev : atoi_digits 0 (chars (dec n) ++ c :: l) = Ret n).
    { unfold dec. rewrite atoi_digits_dec by exact Hc. rewrite dec_value_N, DecimalN.Unsigned.of_to. f_equal. lia. }
    rewrite Ed in *. cbn [app strtol] in *. unfold is_digit in Hd. apply andb_true_iff in Hd as [H1 H2].
    apply Z.leb_le in H1, H2. unfold is_space.
    replace (code d =? 32) with false by (symmetry; apply Z.eqb_neq; lia).
    replace ((9 <=? code d) && (code d <=? 13)) with false by (symmetry; apply andb_false_iff; right; apply Z.leb_gt; lia).
    replace (code d =? 45) with false by (symmetry; apply Z.eqb_neq; lia).
    replace (code d =? 43) with false by (symmetry; apply Z.eqb_neq; lia). exact Ev. }
  rewrite E. simpl. f_equal. rewrite Z.min_l, Z.max_r by lia. apply swrap_id; [lia|].
  unfold s_range. change (2 ^ (32 - 1)) with (2 ^ 31). lia.
Qed.

(** ** The parts of a text, from the last to the first *)

Definition starts_ok (pct : bool) (first cls : Z -> bool) (l : list ascii) : bool :=
  match l with [] => false | c :: r => allowed pct first 0 (schar c) && text_ok pct cls (next_k 0 (schar c)) r end.

Lemma starts_text pct cls l : text_ok pct cls 0 l = true -> l <> [] -> starts_ok pct cls cls l = true.
Proof. destruct l; [congruence|auto]. Qed.

Lemma chars_nonempty s : s <> ""%string -> chars s <> [].
Proof. destruct s; [congruence|discriminate]. Qed.

Lemma save_text set pre t post u p : p = (length pre + length (chars t))%nat ->
  save set (pre ++ chars t ++ post) p (Some (length pre), u) = Ret (None, set t u).
Proof.
  intros ->. unfold save. cbn [fst snd]. rewrite marked_text by reflexivity.
  rewrite string_of_list_ascii_of_string. reflexivity.
Qed.

Definition ends_with (o : outcome (Z * Marked)) (u : Uri) : Prop :=
  exists cs, o = Ret (cs, (None, u)) /\ uri_parser_first_final <= cs.

Lemma after_some mark s : s <> ""%string -> after mark s = (mark ++ s)%string.
Proof. intros H. unfold after. rewrite bool_decide_eq_false_2 by exact H. reflexivity. Qed.

(** Behind the path or the query. *)
Lemma fragment_part pre f R acts cs x u :
  leaves R 35 acts 453 = true -> finishes R acts = true -> In (cs, 0) R ->
  let buf := pre ++ chars (after "#" f) in
  do_actions buf (length pre) acts x = Ret (None, u) ->
  text_ok true query_char 0 (chars f) = true -> m_fragment u = ""%string ->
  ends_with (exec uri_program buf (length pre) (chars (after "#" f)) cs x) (setFragment f u).
Proof.
  intros Hl Hf Hin buf Ha Ht Hu. unfold after in *. destruct (decide (f = ""%string)) as [->|Hn].
  - rewrite bool_decide_eq_true_2 in * by reflexivity.
    destruct (exec_finish buf R acts (length pre) cs x _ Hf Hin Ha) as [E Hc].
    exists cs. split; [|exact Hc]. refine (eq_trans E _). destruct u. cbn in Hu. subst. reflexivity.
  - rewrite bool_decide_eq_false_2 in * by exact Hn.
    change (chars ("#" ++ f)) with ("#"%char :: chars f) in *.
    rewrite (exec_leave buf R 35 acts 453 "#"%char (chars f) (length pre) cs x (None, u) Hl Hin) by (easy || exact Ha).
    destruct fragment_phase as (F1 & F2 & F3).
    destruct (exec_phase buf 453 marku true query_char query_char R_fragment (chars f) (S (length pre)) (None, u) [])
      as (cs' & Hin' & E); auto.
    { apply starts_text; [exact Ht|apply chars_nonempty, Hn]. }
    rewrite app_nil_r in E. rewrite E. exists cs'. apply (exec_finish buf R_fragment [save_fragment]); auto.
    assert (Eb : buf = (pre ++ ["#"%char]) ++ chars f ++ []) by (unfold buf; rewrite bool_decide_eq_false_2, app_nil_r, <- app_assoc by exact Hn; reflexivity).
    cbn [do_actions do_action obind snd]. rewrite Eb.
    replace (S (length pre)) with (length (pre ++ ["#"%char])) by (rewrite length_app; simpl; lia).
    rewrite save_text by reflexivity. reflexivity.
Qed.

Lemma query_part pre q f cs x u :
  In (cs, 0) R_path ->
  let buf := pre ++ chars (after "?" q) ++ chars (after "#" f) in
  do_actions buf (length pre) [save_path] x = Ret (None, u) ->
  text_ok true query_char 0 (chars q) = true -> text_ok true query_char 0 (chars f) = true ->
  m_query u = ""%string -> m_fragment u = ""%string ->
  ends_with (exec uri_program buf (length pre) (chars (after "?" q) ++ chars (after "#" f)) cs x)
    (setFragment f (setQuery q u)).
Proof.
  intros Hin buf Ha Hq Hf Hu1 Hu2. destruct path_phase as (P1 & P2 & P3 & P4).
  destruct (decide (q = ""%string)) as [->|Hn].
  - change (chars (after "?" "")) with (@nil ascii) in *.
    replace (setQuery "" u) with u by (destruct u; cbn in *; subst; reflexivity).
    apply (fragment_part pre f R_path [save_path] cs x u); auto.
  - assert (Ebuf : buf = pre ++ ("?"%char :: chars q) ++ chars (after "#" f))
      by (unfold buf; rewrite (after_some "?" q Hn); reflexivity).
    rewrite (after_some "?" q Hn). change (chars ("?" ++ q)) with ("?"%char :: chars q).
    rewrite <- app_comm_cons.
    rewrite (exec_leave buf R_path 63 [save_path] 456 "?"%char _ (length pre) cs x (None, u) P2 Hin)
      by (easy || exact Ha).
    destruct query_phase as (Q1 & Q2 & Q3 & Q4).
    destruct (exec_phase buf 456 marku true query_char query_char R_query (chars q) (S (length pre)) (None, u)
      (chars (after "#" f))) as (cs' & Hin' & E); auto.
    { apply starts_text; [exact Hq|apply chars_nonempty, Hn]. }
    rewrite E. set (pre' := pre ++ "?"%char :: chars q).
    assert (Eb : buf = pre' ++ chars (after "#" f)) by (rewrite Ebuf; unfold pre'; rewrite <- app_assoc; reflexivity).
    assert (El : (S (length pre) + length (chars q))%nat = length pre')
      by (unfold pre'; rewrite length_app; simpl; lia).
    rewrite El, Eb. apply (fragment_part pre' f R_query [save_query] cs' (Some (S (length pre)), u) (setQuery q u)); auto.
    assert (Eb' : buf = (pre ++ ["?"%char]) ++ chars q ++ chars (after "#" f)) by (rewrite Ebuf, <- app_assoc; reflexivity).
    cbn [do_actions do_action obind]. rewrite <- El, <- Eb, Eb'.
    replace (S (length pre)) with (length (pre ++ ["?"%char])) by (rewrite length_app; simpl; lia).
    rewrite save_text by reflexivity. reflexivity.
Qed.

(** The path, whose slash has been read. *)
Lemma path_part pre path q f u :
  let tail := chars (after "?" q) ++ chars (after "#" f) in
  let buf := pre ++ chars (String "/" path) ++ tail in
  text_ok true path_char 0 (chars path) = true ->
  text_ok true query_char 0 (chars q) = true -> text_ok true query_char 0 (chars f) = true ->
  m_query u = ""%string -> m_fragment u = ""%string ->
  ends_with (exec uri_program buf (S (length pre)) (chars path ++ tail) 513 (Some (length pre), u))
    (setFragment f (setQuery q (setPath (String "/" path) u))).
Proof.
  intros tail buf Hp Hq Hf Hu1 Hu2. destruct path_phase as (P1 & P2 & P3 & P4).
  destruct (exec_closed buf true path_char R_path (chars path) P1 0 (S (length pre)) 513 (Some (length pre), u) tail)
    as (cs & Hin & E); [left; reflexivity|exact Hp|]. rewrite E.
  set (pre' := pre ++ chars (String "/" path)).
  assert (El : (S (length pre) + length (chars path))%nat = length pre')
    by (unfold pre'; rewrite length_app; simpl; lia).
  assert (Eb : buf = pre' ++ tail) by (unfold buf, pre'; rewrite <- app_assoc; reflexivity).
  rewrite El, Eb. apply (query_part pre' q f cs (Some (length pre), u) (setPath (String "/" path) u)); auto.
  cbn [do_actions do_action obind]. fold tail. rewrite <- Eb. unfold buf.
  rewrite save_text by (rewrite <- El; simpl; lia). reflexivity.
Qed.

(** The port of the text, with its colon, or nothing. *)
Definition port_text (port : Z) (default : bool) : string := if default then "" else (":" ++ dec port).

Definition put_port (port : Z) (default : bool) (u : Uri) : Uri := if default then u else setPort port u.

Lemma digits_text n : text_ok false z_digit 0 (chars (dec n)) = true.
Proof.
  pose proof (dec_digits n) as H. revert H. generalize (dec n). intros s.
  induction s as [|c s IH]; simpl; [reflexivity|]. intros H. apply andb_true_iff in H as [Hc H].
  assert (E : z_digit (schar c) = true).
  { unfold is_digit in Hc. apply andb_true_iff in Hc as [H1 H2]. apply Z.leb_le in H1, H2.
    unfold z_digit, within, schar. rewrite swrap_id; [|lia|unfold s_range; change (2 ^ (8 - 1)) with 128; lia].
    apply andb_true_iff. split; apply Z.leb_le; lia. }
  unfold allowed. cbn [Z.eqb]. rewrite E. cbn [orb andb].
  replace (next_k 0 (schar c)) with 0; [apply IH, H|]. unfold next_k. cbn [Z.eqb].
  destruct (Z.eqb_spec (schar c) 37) as [E'|]; [rewrite E' in E; discriminate|reflexivity].
Qed.

(** Host and port, for the states before and behind a user. *)
Section host.
Context (from ps : Z) (Rh Rp : list (Z * Z)).
Context (H1 : stays_from from [markh] true name_char 0 Rh = true) (H2 : closed true name_char Rh = true).
Context (H3 : leaves Rh 58 [save_host] ps = true) (H4 : leaves Rh 47 [save_host; markh] 513 = true) (H5 : ps <> 0).
Context (P1 : stays_from ps [markh] false z_digit 0 Rp = true) (P2 : closed false z_digit Rp = true).
Context (P3 : leaves Rp 47 [save_port; markh] 513 = true).

Lemma port_part pre port path q f x u cs :
  let tail := chars (after "?" q) ++ chars (after "#" f) in
  let buf := pre ++ (":"%char :: chars (dec port)) ++ chars (String "/" path) ++ tail in
  In (cs, 0) Rh -> do_action buf (length pre) x save_host = Ret u ->
  0 <= port < 2 ^ 31 -> text_ok true path_char 0 (chars path) = true ->
  text_ok true query_char 0 (chars q) = true -> text_ok true query_char 0 (chars f) = true ->
  m_query u.2 = ""%string -> m_fragment u.2 = ""%string ->
  ends_with (exec uri_program buf (length pre) ((":"%char :: chars (dec port)) ++ chars (String "/" path) ++ tail) cs x)
    (setFragment f (setQuery q (setPath (String "/" path) (setPort port u.2)))).
Proof.
  intros tail buf Hin Ha Hport Hp Hq Hf Hu1 Hu2. rewrite <- app_comm_cons.
  rewrite (exec_leave buf Rh 58 [save_host] ps ":"%char (chars (dec port) ++ chars (String "/" path) ++ tail)
    (length pre) cs x u H3 Hin); [|reflexivity|exact H5|cbn [do_actions]; rewrite Ha; reflexivity].
  destruct (exec_phase buf ps markh false z_digit z_digit Rp (chars (dec port)) (S (length pre))
    u (chars (String "/" path) ++ tail)) as (cs' & Hin' & E'); auto.
  { apply starts_text; [apply digits_text|apply chars_nonempty, dec_nonempty]. }
  rewrite E'. set (pre2 := pre ++ ":"%char :: chars (dec port)).
  assert (E2 : (S (length pre) + length (chars (dec port)))%nat = length pre2)
    by (unfold pre2; rewrite length_app; simpl; lia).
  assert (Eb : buf = pre2 ++ chars (String "/" path) ++ tail)
    by (unfold buf, pre2; rewrite <- !app_assoc; reflexivity).
  rewrite E2. change (chars (String "/" path)) with ("/"%char :: chars path) at 1. rewrite <- app_comm_cons.
  erewrite (exec_leave buf Rp 47 [save_port; markh] 513 "/"%char _ (length pre2) cs' _ _ P3 Hin');
    [|reflexivity|discriminate|].
  - rewrite Eb. apply (path_part pre2 path q f (setPort port u.2)); auto.
  - cbn [do_actions do_action obind fst snd].
    assert (Hl : (0 < length (chars (dec port)))%nat)
      by (pose proof (chars_nonempty _ (dec_nonempty port)); destruct (chars (dec port)); simpl; [congruence|lia]).
    rewrite (proj2 (Nat.eqb_neq _ _)) by lia.
    assert (Ed : drop (S (length pre)) buf = chars (dec port) ++ "/"%char :: chars path ++ tail).
    { unfold buf. rewrite <- app_comm_cons, (cons_middle ":"%char), (app_assoc pre).
      replace (S (length pre)) with (length (pre ++ [":"%char])) by (rewrite length_app; simpl; lia).
      apply drop_app_length. }
    rewrite Ed, <- app_assoc. cbn [app]. rewrite atoi_dec by easy. reflexivity.
Qed.

Lemma host_part pre host port default path q f x u :
  let tail := chars (after "?" q) ++ chars (after "#" f) in
  let pt := chars (port_text port default) in
  let buf := pre ++ chars host ++ pt ++ chars (String "/" path) ++ tail in
  text_ok true name_char 0 (chars host) = true -> host <> ""%string -> 0 <= port < 2 ^ 31 ->
  text_ok true path_char 0 (chars path) = true ->
  text_ok true query_char 0 (chars q) = true -> text_ok true query_char 0 (chars f) = true ->
  x.2 = u -> m_query u = ""%string -> m_fragment u = ""%string ->
  ends_with (exec uri_program buf (length pre) (chars host ++ pt ++ chars (String "/" path) ++ tail) from x)
    (setFragment f (setQuery q (setPath (String "/" path) (put_port port default (setHost host u))))).
Proof.
  intros tail pt buf Hh Hne Hport Hp Hq Hf <- Hu1 Hu2.
  destruct (exec_phase buf from markh true name_char name_char Rh (chars host) (length pre) x
    (pt ++ chars (String "/" path) ++ tail)) as (cs & Hin & E); auto.
  { apply starts_text; [exact Hh|apply chars_nonempty, Hne]. }
  rewrite E. set (pre1 := pre ++ chars host).
  assert (E1 : (length pre + length (chars host))%nat = length pre1) by (unfold pre1; rewrite length_app; reflexivity).
  assert (Eh : forall p r, p = length pre1 -> do_action buf p (Some (length pre), r) save_host
    = Ret (Some (length pre), setHost host r)).
  { intros p r ->. cbn [do_action fst snd]. unfold buf. rewrite marked_text by (rewrite <- ?E1; reflexivity).
    rewrite string_of_list_ascii_of_string. reflexivity. }
  rewrite E1. subst pt. destruct default; cbn [port_text put_port] in *.
  - change (chars "") with (@nil ascii) in *. cbn [app].
    assert (Eb : buf = pre1 ++ chars (String "/" path) ++ tail) by (unfold buf, pre1; rewrite <- app_assoc; reflexivity).
    change (chars (String "/" path)) with ("/"%char :: chars path) at 1. rewrite <- app_comm_cons.
    erewrite (exec_leave buf Rh 47 [save_host; markh] 513 "/"%char _ (length pre1) cs _ _ H4 Hin); [|reflexivity|discriminate|].
    + rewrite Eb. apply (path_part pre1 path q f (setHost host x.2)); auto.
    + cbn [do_actions]. rewrite Eh by reflexivity. reflexivity.
  - change (chars (":" ++ dec port)) with (":"%char :: chars (dec port)) in *.
    assert (Eb : buf = pre1 ++ (":"%char :: chars (dec port)) ++ chars (String "/" path) ++ tail)
      by (unfold buf, pre1; rewrite <- app_assoc; reflexivity).
    rewrite Eb in *. apply (port_part pre1 port path q f (Some (length pre), x.2) (Some (length pre), setHost host x.2)); auto.
Qed.
End host.

(** ** Round trip *)

Definition path_ok (path : string) : bool :=
  match path with
  | EmptyString => true
  | String c r => bool_decide (c = "/"%char) && text_ok true path_char 0 (chars r)
  end.

(** A scheme, a host, and the characters that RFC 3986 gives to each part; the
    user has no colon and the host is a registered name. *)
Definition uri_ok (u : Uri) : bool :=
  starts_ok false z_alpha scheme_char (chars (m_scheme u))
  && text_ok true name_char 0 (chars (m_userinfo u))
  && negb (bool_decide (m_host u = ""%string)) && text_ok true name_char 0 (chars (m_host u))
  && path_ok (m_path u)
  && text_ok true query_char 0 (chars (m_query u)) && text_ok true query_char 0 (chars (m_fragment u))
  && (0 <=? m_port u) && (m_port u <? 2 ^ 31).

(** What a text says of a Uri: an empty path is a slash, a default port is left
    out. *)
Definition canonical (u : Uri) : Uri :=
  setPath (getPath u) (setPort (if isDefaultPort u then 0 else m_port u) u).

Lemma canonical_path u : path_ok (m_path u) = true ->
  exists path, getPath u = String "/" path /\ text_ok true path_char 0 (chars path) = true.
Proof.
  unfold getPath, path_ok. destruct (m_path u) as [|c r].
  - intros _. exists ""%string. auto.
  - rewrite (bool_decide_eq_false_2 (String c r = ""%string)) by discriminate. intros H. apply andb_true_iff in H as [H1 H2].
    apply bool_decide_eq_true_1 in H1 as ->. eauto.
Qed.

(** The slashes behind the scheme. *)
Lemma slashes buf p r x : exec uri_program buf p ("/"%char :: "/"%char :: r) 509 x = exec uri_program buf (S (S p)) r 511 x.
Proof.
  rewrite (exec_char buf "/"%char _ p 509 x [] 510 x) by (reflexivity || discriminate).
  apply (exec_char buf "/"%char r (S p) 510 x [] 511 x); reflexivity || discriminate.
Qed.

Lemma dump_chars u path : 0 <= m_port u -> getPath u = String "/" path ->
  chars (Uri.toString u) = chars (m_scheme u) ++ [":"; "/"; "/"]%char
    ++ chars (m_userinfo u) ++ chars (if bool_decide (m_userinfo u = ""%string) then "" else "@")
    ++ chars (m_host u) ++ chars (port_text (m_port u) (isDefaultPort u)) ++ chars (String "/" path)
    ++ chars (after "?" (m_query u)) ++ chars (after "#" (m_fragment u)).
Proof.
  intros Hp Ep. unfold Uri.toString, dump. rewrite Ep, !chars_append. do 5 f_equal.
  unfold port_text, to_string. rewrite (proj2 (Z.ltb_ge _ _)) by exact Hp. reflexivity.
Qed.

(** User, host and the rest. *)
Lemma authority_part pre u path v :
  uri_ok u = true -> getPath u = String "/" path -> text_ok true path_char 0 (chars path) = true ->
  m_userinfo v = ""%string -> m_query v = ""%string -> m_fragment v = ""%string ->
  let l := chars (m_userinfo u) ++ chars (if bool_decide (m_userinfo u = ""%string) then "" else "@")
    ++ chars (m_host u) ++ chars (port_text (m_port u) (isDefaultPort u)) ++ chars (String "/" path)
    ++ chars (after "?" (m_query u)) ++ chars (after "#" (m_fragment u)) in
  ends_with (exec uri_program (pre ++ l) (length pre) l 511 (None, v))
    (setFragment (m_fragment u) (setQuery (m_query u) (setPath (String "/" path)
      (put_port (m_port u) (isDefaultPort u) (setHost (m_host u) (setUserinfo (m_userinfo u) v)))))).
Proof.
  unfold uri_ok. rewrite !andb_true_iff, negb_true_iff, Z.leb_le, Z.ltb_lt.
  intros ((((((((Hs & Hu) & Hn) & Hh) & _) & Hq) & Hf) & Hp1) & Hp2) Ep Hpath Hv1 Hv2 Hv3.
  apply bool_decide_eq_false_1 in Hn.
  destruct host_phase as (A1 & A2 & A3 & A4 & A5), host'_phase as (B1 & B2 & B3 & B4).
  destruct port_phase as (C1 & C2 & C3), port'_phase as (D1 & D2 & D3).
  destruct (decide (m_userinfo u = ""%string)) as [Eu|Eu].
  - rewrite bool_decide_eq_true_2, Eu by exact Eu. change (chars "") with (@nil ascii). cbn [app].
    apply (host_part 511 521 R_host R_port A1 A2 A4 A5 ltac:(discriminate) C1 C2 C3 pre (m_host u) (m_port u)
      (isDefaultPort u) path (m_query u) (m_fragment u) (None, v) (setUserinfo "" v)); auto.
    destruct v. cbn in *. subst. reflexivity.
  - rewrite bool_decide_eq_false_2 by exact Eu. change (chars "@") with ["@"%char].
    set (r := chars (m_host u) ++ _). set (buf := pre ++ _).
    destruct (exec_phase buf 511 markh true name_char name_char R_host (chars (m_userinfo u)) (length pre) (None, v)
      (["@"%char] ++ r)) as (cs & Hin & E); auto.
    { apply starts_text; [exact Hu|apply chars_nonempty, Eu]. }
    rewrite E. cbn [app snd].
    rewrite (exec_leave buf R_host 64 [save_userinfo] 522 "@"%char r (length pre + length (chars (m_userinfo u))) cs
      (Some (length pre), v) (None, setUserinfo (m_userinfo u) v) A3 Hin); [|reflexivity|discriminate|].
    2: { cbn [do_actions do_action fst snd]. unfold buf. rewrite save_text by reflexivity. reflexivity. }
    set (pre1 := pre ++ chars (m_userinfo u) ++ ["@"%char]).
    assert (E1 : S (length pre + length (chars (m_userinfo u))) = length pre1)
      by (unfold pre1; rewrite !length_app; simpl; lia).
    assert (Eb : buf = pre1 ++ r) by (unfold buf, pre1; rewrite <- !app_assoc; reflexivity).
    rewrite E1, Eb.
    apply (host_part 522 514 R_host' R_port' B1 B2 B3 B4 ltac:(discriminate) D1 D2 D3 pre1 (m_host u) (m_port u)
      (isDefaultPort u) path (m_query u) (m_fragment u) (None, setUserinfo (m_userinfo u) v)
      (setUserinfo (m_userinfo u) v)); auto.
Qed.

Lemma canonical_answers u : path_ok (m_path u) = true ->
  getPath (canonical u) = getPath u /\ getPort (canonical u) = getPort u.
Proof.
  intros Hp. destruct (canonical_path u Hp) as (path & Ep & _). split.
  - assert (E : m_path (canonical u) = String "/" path) by exact Ep.
    unfold getPath at 1. rewrite E. symmetry. exact Ep.
  - unfold canonical, getPort, isDefaultPort. cbn [m_port m_scheme setPort setPath].
    destruct (Z.eqb_spec (m_port u) 0) as [->|Hn]; [reflexivity|]. apply Z.eqb_neq in Hn. cbn [negb].
    destruct (bool_decide _ || bool_decide _);
      [destruct (Z.eqb_spec (m_port u) 80) as [->|]; [reflexivity|rewrite Hn; reflexivity]|].
    destruct (bool_decide _ || bool_decide _);
      [destruct (Z.eqb_spec (m_port u) 443) as [->|]; [reflexivity|rewrite Hn; reflexivity]|].
    rewrite Hn. reflexivity.
Qed.

Lemma create_text u path : uri_ok u = true -> getPath u = String "/" path ->
  text_ok true path_char 0 (chars path) = true -> Uri_Create (Uri.toString u) = Ret (Some (canonical u)).
Proof.
  intros Hok Ep Hpath. pose proof Hok as Hok'. unfold uri_ok in Hok'. rewrite !andb_true_iff, Z.leb_le in Hok'.
  destruct Hok' as ((((((((Hs & _) & _) & _) & _) & _) & _) & Hp1) & _).
  unfold Uri_Create, Create. rewrite (dump_chars u path Hp1 Ep). set (l := chars (m_userinfo u) ++ _).
  set (buf := chars (m_scheme u) ++ _). destruct scheme_phase as (S1 & S2 & S3).
  destruct (exec_phase buf 451 marku false z_alpha scheme_char R_scheme (chars (m_scheme u)) 0 (None, Uri_new)
    ([":"; "/"; "/"]%char ++ l)) as (cs & Hin & E); auto.
  unfold buf at 2. unfold uri_parser_start. rewrite E. cbn [app snd].
  rewrite (exec_leave buf R_scheme 58 [save_scheme] 509 ":"%char ("/"%char :: "/"%char :: l)
    (0 + length (chars (m_scheme u))) cs (Some 0%nat, Uri_new) (None, setScheme (m_scheme u) Uri_new) S3 Hin); [|reflexivity|discriminate|].
  2: { cbn [do_actions do_action fst snd]. unfold buf.
       change (obind (save setScheme ([] ++ chars (m_scheme u) ++ [":"; "/"; "/"]%char ++ l) (0 + length (chars (m_scheme u)))
         (Some (length (@nil ascii)), Uri_new)) (do_actions buf (0 + length (chars (m_scheme u))) [])
         = Ret (None, setScheme (m_scheme u) Uri_new)).
       rewrite save_text by reflexivity. reflexivity. }
  rewrite slashes. set (pre := chars (m_scheme u) ++ [":"; "/"; "/"]%char).
  assert (Eb : buf = pre ++ l) by (unfold buf, pre; rewrite <- app_assoc; reflexivity).
  assert (El : S (S (S (0 + length (chars (m_scheme u))))) = length pre) by (unfold pre; rewrite length_app; simpl; lia).
  rewrite El, Eb.
  destruct (authority_part pre u path (setScheme (m_scheme u) Uri_new) Hok Ep Hpath eq_refl eq_refl eq_refl)
    as (cs' & E' & Hc). fold l in E'. rewrite E'. cbn [obind fst snd]. unfold uri_parser_error, uri_parser_first_final in *.
  rewrite (proj2 (Z.eqb_neq _ _)) by lia. rewrite (proj2 (Z.leb_le _ _)) by lia. do 2 f_equal.
  unfold canonical. rewrite Ep. unfold put_port. destruct u, (isDefaultPort _); reflexivity.
Qed.

(** C29: The text of a Uri is parsed back, for a scheme, a user without a colon,
    a registered name as host (no bracketed address) and any port, path, query and
    fragment, each over the characters that RFC 3986 gives to the part,
    percent-encoded bytes included, and in path, query and fragment the bytes
    above 127: [Uri::Create] of [toString] is the same Uri, with a slash for an
    empty path and without a default port; [getPath] and [getPort] answer as
    before.  A user with a colon may lose its first part ([user_with_colon]). *)
Theorem uri_roundtrip (u : Uri) : uri_ok u = true ->
  Uri_Create (Uri.toString u) = Ret (Some (canonical u))
  /\ getPath (canonical u) = getPath u /\ getPort (canonical u) = getPort u.
Proof.
  intros Hok. assert (Hp : path_ok (m_path u) = true)
    by (unfold uri_ok in Hok; rewrite !andb_true_iff in Hok; tauto).
  destruct (canonical_path u Hp) as (path & Ep & Hpath).
  split; [exact (create_text u path Hok Ep Hpath)|exact (canonical_answers u Hp)].
Qed.

Definition sample_uri : Uri := mkUri "http" "li" "www.sylar.top" "/a%20b/c" "id=1&n=x" "top" 8080.

Lemma uri_roundtrip_witness :
  Uri.toString sample_uri = "http://li@www.sylar.top:8080/a%20b/c?id=1&n=x#top"%string
  /\ Uri_Create "http://li@www.sylar.top:8080/a%20b/c?id=1&n=x#top" = Ret (Some sample_uri).
Proof.
  split; [vm_compute; reflexivity|].
  apply (uri_roundtrip sample_uri). vm_compute. reflexivity.
Defined.

(** What the automaton makes of texts outside the theorem: the part of the user
    before a colon is lost when the part behind it begins with a digit, and the
    path of a text without scheme and authority is not saved. *)
Example user_with_colon : Uri_Create "http://li:80@h/" = Ret (Some (mkUri "http" "80" "h" "/" "" "" 0)).
Proof. vm_compute. reflexivity. Qed.

Example relative_path : Uri_Create "/a/b?x" = Ret (Some (mkUri "" "" "" "" "x" "" 0)).
Proof. vm_compute. reflexivity. Qed.
