(* ===== verification/HttpConnection.v ===== *)
(** * HttpConnection: the client's end (sylar/http/http_connection.h,
    sylar/http/http_connection.cpp)

    [recvResponse] over the interface [Stream], with its three ways to get a
    body, and the requests that [DoRequest] builds and sends.  The texts of
    HttpResult are not modelled, its code and its response are. *)

From Stdlib Require Import ZArith Lia Ascii String List.
From stdpp Require Import base list strings.
From S2P Require Import Prelude Ordered CString Uri Stream Http HttpResponse HttpRequest HttpParser HttpResponseParser HttpSession.

Local Open Scope string_scope.
Local Open Scope list_scope.
Local Open Scope Z_scope.
Local Open Scope cpp_scope.

Section connection.
Context {S : Type} {I : Stream S ascii} (s_close : M S unit).
Context {CA : ClientAutomaton} {LC : LexicalCast Z}.

Definition fail {X} : M S (option X) := s_close ;;; cret None.

(** [data[len] = '\0'] *)
Definition terminate (len : Z) (data : list ascii) : list ascii := overlay len [NUL] data.

Fixpoint response_head_loop (fuel : nat) (buff_size : Z) (p : HttpResponseParser) (data : list ascii)
    (offset : Z) : M S (option (HttpResponseParser * list ascii * Z)) :=
  match fuel with
  | O => cundef FuelExhausted
  | Datatypes.S fuel' =>
      let! r := s_read (u64 (buff_size - offset)) in
      let data1 := overlay offset r.2 data in
      if r.1 <=? 0 then fail else
      let len := i32 (r.1 + offset) in
      let! x := lift (HttpResponseParser.execute p (terminate len data1) len false) in
      let '(p', data2, nparse) := x in
      if HttpResponseParser.hasError p' then fail else
      let offset' := i32 (len - nparse) in
      if offset' =? i32 buff_size then fail else
      if HttpResponseParser.isFinished p' then cret (Some (p', data2, offset'))
      else response_head_loop fuel' buff_size p' data2 offset'
  end.

(** The inner do-while: the line with the size of a chunk. *)
Fixpoint chunk_head_loop (fuel : nat) (buff_size : Z) (p : HttpResponseParser) (data : list ascii)
    (len : Z) (begin : bool) : M S (option (HttpResponseParser * list ascii * Z)) :=
  match fuel with
  | O => cundef FuelExhausted
  | Datatypes.S fuel' =>
      let! r := (if negb begin || (len =? 0) then s_read (u64 (buff_size - len)) else cret (1, [])) in
      if r.1 <=? 0 then fail else
      let data1 := overlay len r.2 data in
      let len1 := if negb begin || (len =? 0) then i32 (len + r.1) else len in
      let! x := lift (HttpResponseParser.execute p (terminate len1 data1) len1 true) in
      let '(p', data2, nparse) := x in
      if HttpResponseParser.hasError p' then fail else
      let len2 := i32 (len1 - nparse) in
      if len2 =? i32 buff_size then fail else
      if HttpResponseParser.isFinished p' then cret (Some (p', data2, len2))
      else chunk_head_loop fuel' buff_size p' data2 len2 false
  end.

(** [while (left > 0)]: the part of a chunk that is not in the buffer. *)
Fixpoint chunk_rest (fuel : nat) (buff_size : Z) (data : list ascii) (left_ : Z) (body : list ascii)
  : M S (option (list ascii * list ascii)) :=
  match fuel with
  | O => cundef FuelExhausted
  | Datatypes.S fuel' =>
      if left_ <=? 0 then cret (Some (body, data)) else
      let! r := s_read (if i32 buff_size <? left_ then i32 buff_size else left_) in
      if r.1 <=? 0 then fail
      else chunk_rest fuel' buff_size (overlay 0 r.2 data) (i32 (left_ - r.1)) (body ++ r.2)
  end.

(** The outer do-while: the parser afterwards and the body. *)
Fixpoint chunk_loop (fuel : nat) (buff_size : Z) (p : HttpResponseParser) (data : list ascii) (len : Z)
    (body : list ascii) : M S (option (HttpResponseParser * list ascii)) :=
  match fuel with
  | O => cundef FuelExhausted
  | Datatypes.S fuel' =>
      let! h := chunk_head_loop fuel' buff_size p data len true in
      match h with
      | None => cret None
      | Some (p', data1, len1) =>
          let content_len := cp_content_len (HttpResponseParser.m_parser p') in
          let done := cp_chunks_done (HttpResponseParser.m_parser p') in
          if i32 (content_len + 2) <=? len1 then
            (* append with a length beyond max_size *)
            if content_len <? 0 then cthrow LengthError else
            let body' := body ++ slice 0 content_len data1 in
            let data2 := overlay 0 (slice (content_len + 2) (len1 - content_len - 2) data1) data1 in
            let len2 := i32 (len1 - i32 (content_len + 2)) in
            if done then cret (Some (p', body')) else chunk_loop fuel' buff_size p' data2 len2 body'
          else
            let left_ := i32 (content_len - len1 + 2) in
            let! r := chunk_rest (Datatypes.S (Z.to_nat left_)) buff_size data1 left_ (body ++ slice 0 len1 data1) in
            match r with
            | None => cret None
            | Some (body1, data2) =>
                (* resize(size() - 2) below zero *)
                if (length body1 <? 2)%nat then cthrow LengthError else
                let body' := take (length body1 - 2) body1 in
                if done then cret (Some (p', body')) else chunk_loop fuel' buff_size p' data2 0 body'
            end
      end
  end.

Definition recvResponse (fuel : nat) (l : HttpLimits) (mem0 : list ascii) : M S (option HttpResponse) :=
  let buff_size := GetHttpRequestBufferSize l in
  let! r := response_head_loop fuel buff_size HttpResponseParser_new mem0 0 in
  match r with
  | None => cret None
  | Some (p, data, offset) =>
      if cp_chunked (HttpResponseParser.m_parser p) then
        let! c := chunk_loop fuel buff_size p data offset [] in
        match c with
        | None => cret None
        | Some (p', body) =>
            cret (Some (HttpResponse.setBody (string_of_list_ascii body) (HttpResponseParser.m_data p')))
        end
      else
        let length := i64 (HttpResponseParser.getContentLenght p) in
        if 0 <? length then
          if max_size <? length then cthrow LengthError else
          let body0 := replicate (Z.to_nat length) NUL in
          let len := if offset <=? length then offset else i32 length in
          let body1 := overlay 0 (slice 0 len data) body0 in
          let length' := i64 (length - offset) in
          if 0 <? length' then
            let! r := readFixSize (drop (Z.to_nat len) body1) length' in
            if r.2 <=? 0 then fail
            else cret (Some (HttpResponse.setBody
                   (string_of_list_ascii (take (Z.to_nat len) body1 ++ r.1)) (HttpResponseParser.m_data p)))
          else cret (Some (HttpResponse.setBody (string_of_list_ascii body1) (HttpResponseParser.m_data p)))
        else cret (Some (HttpResponseParser.m_data p))
  end.

Definition sendRequest (req : HttpRequest) : M S Z :=
  let! data := lift (HttpRequest.dump req) in
  writeFixSize (list_ascii_of_string data) (slength data).
End connection.

(** ** The requests of DoRequest *)

Definition set_headers_loop_step (a : HttpRequest * bool) (i : string * string) : HttpRequest * bool :=
  let '(req, has_host) := a in
  if strcasecmp i.1 "connection" =? 0 then
    (if strcasecmp i.2 "keep-alive" =? 0 then HttpRequest.setClose false req else req, has_host)
  else
    let has_host' := if negb has_host && (strcasecmp i.1 "host" =? 0)
                     then negb (bool_decide (i.2 = "")) else has_host in
    (HttpRequest.setHeader i.1 i.2 req, has_host').

(** The loop over the caller's headers. *)
Definition set_headers_loop (headers : list (string * string)) (req : HttpRequest) : HttpRequest * bool :=
  fold_left set_headers_loop_step headers (req, false).

(** The request of [HttpConnection::DoRequest(method, uri, ...)]. *)
Definition DoRequest_build (method : HttpMethod.t) (uri : Uri) (headers : list (string * string))
    (body : string) : HttpRequest :=
  let req := HttpRequest_new 17 true in
  let req := setPath (getPath uri) req in
  let req := setQuery (Uri.m_query uri) req in
  let req := setFragment (Uri.m_fragment uri) req in
  let req := setMethod method req in
  let '(req, has_host) := set_headers_loop headers req in
  let req := if has_host then req else HttpRequest.setHeader "Host" (Uri.m_host uri) req in
  HttpRequest.setBody body req.

(** The request of [HttpConnectionPool::doRequest(method, url, ...)]. *)
Definition pool_build (m_host m_vhost : string) (method : HttpMethod.t) (url : string)
    (headers : list (string * string)) (body : string) : HttpRequest :=
  let req := HttpRequest_new 17 true in
  let req := setPath url req in
  let req := setMethod method req in
  let req := HttpRequest.setClose false req in
  let '(req, has_host) := set_headers_loop headers req in
  let req := if has_host then req
             else if bool_decide (m_vhost = "") then HttpRequest.setHeader "Host" m_host req
             else HttpRequest.setHeader "Host" m_vhost req in
  HttpRequest.setBody body req.

(** The target text of the pool's calls with a [Uri]. *)
Definition pool_target (uri : Uri) : string :=
  (getPath uri ++ after "?" (Uri.m_query uri) ++ after "#" (Uri.m_fragment uri))%string.
