(* ===== verification/HttpConnectionSpec.v ===== *)
(** * What the client receives and sends

    [recvResponse] puts a chunked body together, and [DoRequest] builds requests
    with a host. *)

From Stdlib Require Import ZArith Lia Ascii String List HexadecimalString HexadecimalN.
From stdpp Require Import base list strings.
From S2P Require Import Prelude Ordered CString Stream Http HttpResponse HttpRequest HttpRequestSpec HttpParser HttpWire HttpWireSpec HttpResponseParser HttpSession HttpSessionSpec HttpConnection.

Local Open Scope string_scope.
Local Open Scope list_scope.
Local Open Scope Z_scope.
Local Open Scope cpp_scope.

(** ** Chunked bodies *)

(** The line with the size of a chunk, in hexadecimal digits. *)
Definition size_line (n : Z) : list ascii :=
  chars (NilEmpty.string_of_uint (N.to_hex_uint (Z.to_N n))) ++ chars CRLF.

Definition chunk_text (d : list ascii) : list ascii := size_line (zlen d) ++ d ++ chars CRLF.

Definition chunked_text (ds : list (list ascii)) : list ascii :=
  concat (map chunk_text ds) ++ size_line 0 ++ chars CRLF.

Definition chunk_event (e : cevent) : bool :=
  match e with Chunk_size _ _ | Last_chunk _ _ | CHeader_done _ _ => true | _ => false end.

(** What the generated code does with a buffer that begins with such a line and
    ends with a NUL, which it asserts, after [httpclient_parser_init]. *)
Definition reads_chunks (CA : ClientAutomaton) : Prop :=
  forall st buffer len n rest, 0 <= n < 2 ^ 31 - 2 -> 0 <= len <= zlen buffer ->
    buffer !! Z.to_nat len = Some NUL -> take (Z.to_nat len) buffer = size_line n ++ rest ->
    exists st' evs, cp_execute (cp_init st) buffer len = (st', evs, zlen (size_line n))
      /\ forallb chunk_event evs = true /\ cp_has_error st' = false /\ cp_is_finished st' = true
      /\ cp_content_len st' = n /\ cp_chunks_done st' = (n =? 0).

Lemma zlen_size_line n : 2 <= zlen (size_line n).
Proof.
  unfold size_line. rewrite zlen_app. change (zlen (chars CRLF)) with 2.
  pose proof (zlen_nonneg (chars (NilEmpty.string_of_uint (N.to_hex_uint (Z.to_N n))))). lia.
Qed.

Lemma slice_take {X} n (l : list X) : slice 0 n l = take (Z.to_nat n) l.
Proof. reflexivity. Qed.

(** The data behind a prefix, moved to the front. *)
Lemma move_front {X} (l rest pre : list X) len :
  0 <= len <= zlen l -> take (Z.to_nat len) l = pre ++ rest ->
  slice (zlen pre) (len - zlen pre) l = rest
  /\ take (length rest) (overlay 0 rest l) = rest /\ zlen (overlay 0 rest l) = zlen l
  /\ len = zlen pre + zlen rest.
Proof.
  intros Hl Ht. assert (Hlen : len = zlen pre + zlen rest).
  { apply (f_equal length) in Ht. rewrite length_take, length_app in Ht. unfold zlen in *. lia. }
  pose proof (zlen_nonneg pre). pose proof (zlen_nonneg rest).
  split; [|split; [|split; [apply zlen_overlay; lia|exact Hlen]]].
  - rewrite <- (slice_prefix (zlen pre) (len - zlen pre) len) by lia. rewrite slice_take, Ht.
    unfold slice, zlen. rewrite Nat2Z.id, drop_app_length. apply take_ge. unfold zlen in Hlen. lia.
  - unfold overlay. apply (take_app_length rest).
Qed.

Section chunks.
Context {S : Type} {I : Stream S ascii} (s_close : M S unit).
Context {CA : ClientAutomaton} (Hch : reads_chunks CA).
Implicit Types (p : HttpResponseParser) (data body : list ascii).

Lemma chunk_events_quiet buffer p evs :
  forallb chunk_event evs = true -> on_cevents buffer p evs = Ret p.
Proof.
  induction evs as [|e evs IH]; simpl; [reflexivity|]. intros H. apply andb_true_iff in H as [He H].
  destruct e; try discriminate; cbn; auto.
Qed.

Lemma take_terminate len data : 0 <= len -> len + 1 <= zlen data ->
  take (Z.to_nat len) (terminate len data) = take (Z.to_nat len) data /\ zlen (terminate len data) = zlen data
  /\ terminate len data !! Z.to_nat len = Some NUL.
Proof.
  intros H1 H2. unfold terminate. split; [|split; [apply zlen_overlay; unfold zlen in *; simpl; lia|]].
  - rewrite <- !slice_take. apply slice_overlay_before; unfold zlen in *; simpl; lia.
  - unfold overlay, zlen in *. rewrite lookup_app_r, length_take by (rewrite length_take; lia).
    replace (Z.to_nat len - _)%nat with 0%nat by lia. reflexivity.
Qed.

(** The size line of a chunk is in the buffer. *)
Lemma chunk_head_ok fuel bs p data len n rest st :
  m_error p = 0 -> 0 <= n < 2 ^ 31 - 2 -> 0 < len <= bs -> bs < 2 ^ 31 -> zlen data = bs + 1 ->
  take (Z.to_nat len) data = size_line n ++ rest ->
  exists p' data', chunk_head_loop s_close (Datatypes.S fuel) bs p data len true st
      = (st, Ret (Some (p', data', zlen rest)))
    /\ take (length rest) data' = rest /\ zlen data' = bs + 1 /\ m_error p' = 0
    /\ m_data p' = m_data p /\ cp_content_len (m_parser p') = n /\ cp_chunks_done (m_parser p') = (n =? 0).
Proof.
  intros He Hn Hl Hb Hd Ht. cbn [chunk_head_loop]. rewrite (proj2 (Z.eqb_neq len 0)) by lia.
  cbn [negb orb]. rewrite cbind_cret. cbn [fst snd Z.leb Z.compare].
  rewrite overlay_nil. destruct (take_terminate len data) as (E1 & E2 & E3); [lia|lia|].
  pose proof (zlen_size_line n). rewrite <- E1 in Ht.
  destruct (Hch (m_parser p) (terminate len data) len n rest Hn ltac:(lia) E3 Ht)
    as (st' & evs & Hx & Hev & Herr & Hfin & Hcl & Hdone).
  unfold HttpResponseParser.execute at 1. rewrite Hx, (chunk_events_quiet _ _ _ Hev). cbn [obind].
  destruct (move_front (terminate len data) rest (size_line n) len) as (F1 & F2 & F3 & F4); [lia|exact Ht|].
  rewrite F1. pose proof (zlen_nonneg rest).
  unfold lift at 1. erewrite cbind_ret by reflexivity.
  unfold HttpResponseParser.hasError, HttpResponseParser.isFinished, httpclient_parser_finish.
  cbn [m_parser m_error m_data]. rewrite He, Herr, Hfin. cbn [Z.eqb negb orb].
  replace (len - zlen (size_line n)) with (zlen rest) by lia.
  rewrite !i32_nat by lia. rewrite (proj2 (Z.eqb_neq _ _)) by lia.
  eexists _, _. split; [reflexivity|]. rewrite F2, F3, E2. cbn [m_parser m_error m_data]. auto 10.
Qed.

(** The whole rest of a chunked body is in the buffer. *)
Lemma chunk_loop_ok ds fuel bs p data len body tail st :
  m_error p = 0 -> Forall (fun d => d <> []) ds -> 0 < len <= bs -> bs < 2 ^ 31 - 2 -> zlen data = bs + 1 ->
  take (Z.to_nat len) data = chunked_text ds ++ tail -> (length ds + 1 < fuel)%nat ->
  exists p', chunk_loop s_close fuel bs p data len body st = (st, Ret (Some (p', body ++ concat ds)))
    /\ m_data p' = m_data p.
Proof.
  revert fuel p data len body. induction ds as [|d ds IH]; intros [|[|fuel]] p data len body He Hne Hl Hb Hd Ht Hf;
    simpl in Hf; try lia.
  - unfold chunked_text in Ht. cbn [map concat] in Ht; rewrite app_nil_l in Ht. rewrite <- (assoc_L (++)) in Ht.
    destruct (chunk_head_ok fuel bs p data len 0 (chars CRLF ++ tail) st He ltac:(lia) Hl ltac:(lia) Hd Ht)
      as (p' & data' & R & T & Hz & He' & Hm & Hc & Hdone).
    remember (Datatypes.S fuel) as f1. cbn [chunk_loop]. rewrite (cbind_ret _ _ _ _ _ R). rewrite Hc, Hdone.
    rewrite zlen_app. pose proof (zlen_nonneg tail). change (zlen (chars CRLF)) with 2.
    change (i32 (0 + 2)) with 2. rewrite (proj2 (Z.leb_le 2 _)) by lia. cbn [Z.ltb Z.compare Z.eqb].
    exists p'. rewrite slice_0. auto.
  - inversion Hne as [|? ? Hd0 Hne']; subst.
    assert (Htext : chunked_text (d :: ds) = size_line (zlen d) ++ d ++ chars CRLF ++ chunked_text ds).
    { unfold chunked_text. cbn [map concat]. unfold chunk_text. rewrite <- !(assoc_L (++)). reflexivity. }
    rewrite Htext, <- !(assoc_L (++)) in Ht.
    assert (Hsz : len = zlen (size_line (zlen d)) + zlen (d ++ chars CRLF ++ chunked_text ds ++ tail))
      by (apply (move_front data _ _ len); [lia|exact Ht]).
    rewrite !zlen_app in Hsz. change (zlen (chars CRLF)) with 2 in Hsz.
    pose proof (zlen_size_line (zlen d)). pose proof (zlen_nonneg d). pose proof (zlen_nonneg tail).
    assert (Hct : 0 < zlen (chunked_text ds)).
    { unfold chunked_text. rewrite !zlen_app. pose proof (zlen_size_line 0).
      pose proof (zlen_nonneg (concat (map chunk_text ds))). pose proof (zlen_nonneg (chars CRLF)). lia. }
    destruct (chunk_head_ok fuel bs p data len (zlen d) (d ++ chars CRLF ++ chunked_text ds ++ tail) st He
      ltac:(lia) Hl ltac:(lia) Hd Ht) as (p' & data' & R & T & Hz & He' & Hm & Hc & Hdone).
    assert (Hpos : 0 < zlen d) by (destruct d; [congruence|rewrite zlen_cons; pose proof (zlen_nonneg d); lia]).
    remember (Datatypes.S fuel) as f1. cbn [chunk_loop]. rewrite (cbind_ret _ _ _ _ _ R). rewrite Hc, Hdone.
    set (r := chunked_text ds ++ tail) in *.
    assert (Hr : zlen r = zlen (chunked_text ds) + zlen tail) by apply zlen_app.
    rewrite !zlen_app. change (zlen (chars CRLF)) with 2.
    rewrite !i32_nat by lia. rewrite (proj2 (Z.leb_le _ _)) by lia.
    rewrite (proj2 (Z.ltb_ge _ _)) by lia. rewrite (proj2 (Z.eqb_neq _ _)) by lia.
    assert (Ed : slice 0 (zlen d) data' = d).
    { rewrite <- (slice_prefix 0 (zlen d) (zlen (d ++ chars CRLF ++ r))) by (rewrite ?zlen_app; pose proof (zlen_nonneg r); unfold zlen in *; simpl; lia).
      rewrite (slice_take (zlen (d ++ _))). unfold zlen at 2. rewrite Nat2Z.id, T.
      unfold slice, zlen. rewrite Nat2Z.id. simpl. apply take_app_length. }
    destruct (move_front data' r (d ++ chars CRLF) (zlen (d ++ chars CRLF ++ r))) as (F1 & F2 & F3 & F4).
    { rewrite Hz, !zlen_app. change (zlen (chars CRLF)) with 2. pose proof (zlen_nonneg r). lia. }
    { unfold zlen at 1. rewrite Nat2Z.id, T, <- (assoc_L (++)). reflexivity. }
    rewrite zlen_app in F1. change (zlen (chars CRLF)) with 2 in F1. rewrite !zlen_app in F1.
    change (zlen (chars CRLF)) with 2 in F1.
    replace (zlen d + (2 + zlen r) - (zlen d + 2)) with (zlen r) in F1 by lia.
    replace (zlen d + (2 + zlen r) - zlen d - 2) with (zlen r) by lia.
    rewrite F1, Ed. replace (zlen d + (2 + zlen r) - (zlen d + 2)) with (zlen r) by lia.
    subst f1. destruct (IH (Datatypes.S fuel) p' (overlay 0 r data') (zlen r) (body ++ d)) as (p2 & R2 & Hm2); auto; try lia.
    { unfold zlen. rewrite Nat2Z.id. exact F2. }
    exists p2. rewrite R2. simpl. rewrite (assoc_L (++)). split; [reflexivity|congruence].
Qed.
End chunks.

(** C26: A chunked body is put together from its chunks.  When the buffer holds
    the whole text of the body (for each chunk its size in hexadecimal, its data
    and the line end, then the chunk of size 0) behind the head, the do-while loop
    of [recvResponse] returns the concatenation of the chunks, reads nothing from
    the connection and leaves the parsed response as it is, whatever follows the
    body in the buffer; one round per chunk is enough. *)
Theorem chunks_are_concatenated {S} (I : Stream S ascii) s_close (CA : ClientAutomaton)
    ds fuel bs p data len body tail (st : S) :
  reads_chunks CA -> m_error p = 0 -> Forall (fun d => d <> []) ds ->
  0 < len <= bs -> bs < 2 ^ 31 - 2 -> zlen data = bs + 1 ->
  take (Z.to_nat len) data = chunked_text ds ++ tail -> (length ds + 1 < fuel)%nat ->
  exists p', chunk_loop s_close fuel bs p data len body st = (st, Ret (Some (p', body ++ concat ds)))
    /\ m_data p' = m_data p.
Proof. intros. eapply chunk_loop_ok; eassumption. Qed.

(** A reader of the size lines. *)
Definition not_cr (c : ascii) : bool := negb (Ascii.eqb c "013"%char).

Fixpoint span_line (l : list ascii) : list ascii :=
  match l with [] => [] | c :: r => if not_cr c then c :: span_line r else [] end.

Definition hex_value (l : list ascii) : Z :=
  match NilEmpty.uint_of_string (string_of_list_ascii l) with
  | Some u => Z.of_N (N.of_hex_uint u)
  | None => 0
  end.

Definition chunk_reader : ClientAutomaton := {|
  cp_state := Z;
  cp_init := fun _ => 0;
  cp_zero := 0;
  cp_execute := fun _ buffer len =>
    let l := span_line (take (Z.to_nat len) buffer) in
    (hex_value l, [Chunk_size 0 (length l)], zlen l + 2);
  cp_has_error := fun _ => false;
  cp_is_finished := fun _ => true;
  cp_content_len := fun n => n;
  cp_chunked := fun _ => true;
  cp_chunks_done := fun n => n =? 0
|}.

Lemma hex_digits_no_cr u : forallb not_cr (chars (NilEmpty.string_of_uint u)) = true.
Proof. induction u; simpl; auto. Qed.

Lemma span_line_app l r : forallb not_cr l = true -> span_line (l ++ chars CRLF ++ r) = l.
Proof.
  induction l as [|c l IH]; [reflexivity|]. cbn [forallb app span_line]. intros H.
  apply andb_true_iff in H as [-> H]. rewrite IH by exact H. reflexivity.
Qed.

Lemma chunk_reader_reads : reads_chunks chunk_reader.
Proof.
  intros st buffer len n rest Hn Hl _ Ht. cbn. rewrite Ht. unfold size_line.
  rewrite <- (assoc_L (++)), span_line_app by apply hex_digits_no_cr.
  assert (E : hex_value (chars (NilEmpty.string_of_uint (N.to_hex_uint (Z.to_N n)))) = n).
  { unfold hex_value. rewrite string_of_list_ascii_of_string, NilEmpty.usu, Unsigned.of_to. lia. }
  eexists _, _. split; [rewrite zlen_app; reflexivity|]. rewrite E. auto.
Qed.

(** "4\r\nWiki\r\n5\r\npedia\r\n0\r\n\r\n" *)
Definition sample_chunks : list (list ascii) := [chars "Wiki"; chars "pedia"].

Lemma chunks_are_concatenated_witness :
  exists p', chunk_loop (I := chunk_stream 1) (CA := chunk_reader) (cret tt) 4 100 HttpResponseParser_new
      (chunked_text sample_chunks ++ replicate 77 NUL) 24 [] [] = ([], Ret (Some (p', chars "Wikipedia")))
    /\ m_data p' = HttpResponse_new 17 true.
Proof.
  refine (chunks_are_concatenated (chunk_stream 1) (cret tt) chunk_reader sample_chunks 4 100
    HttpResponseParser_new (chunked_text sample_chunks ++ replicate 77 NUL) 24 [] [] []
    chunk_reader_reads eq_refl _ _ _ eq_refl eq_refl _); [|lia|lia|simpl; lia].
  repeat constructor; discriminate.
Defined.

(** ** The requests of DoRequest *)

