(* ===== verification/HttpClient.v ===== *)
(** * The client's calls and its connection pool
    (sylar/http/http_connection.h, sylar/http/http_connection.cpp)

    A call makes its objects, runs and destroys them in the reverse order, also
    when an exception leaves it ([scoped]).  A connection of the pool is owned by
    the list of idle connections or by the holder of the pointer that
    [getConnection] returns; it is a value that moves between the two.  The clock
    (GetCurrentMS) is an argument of the calls that read it, the lookup of host
    names (Address::LookupAnyIPAddress) a parameter.  Of HttpResult the code and
    the response are kept, not the text. *)

From Stdlib Require Import ZArith Lia Ascii String List.
From stdpp Require Import base list strings.
From S2P Require Import Prelude Ordered CString Uri UriParser FdManager Socket Stream SocketStream Http HttpResponse HttpRequest HttpParser HttpResponseParser HttpSession HttpConnection.

Local Open Scope string_scope.
Local Open Scope list_scope.
Local Open Scope Z_scope.
Local Open Scope cpp_scope.

Inductive Error : Type :=
  | OK | INVALID_URL | INVALID_HOST | CONNECT_FAIL | SEND_CLOSE_BY_PEER | SEND_SOCKET_ERROR
  | TIMEOUT | CREATE_SOCKET_ERROR | POOL_GET_CONNECTION | POOL_INVALID_CONNECTION.

Record HttpResult : Type := mkResult { result : Error; response : option HttpResponse }.

Section client.
Context {A : Type} {K : Kernel ascii A} {CA : ClientAutomaton} {LC : LexicalCast Z}.
Context (LookupAnyIPAddress : string -> option A) (addr_setPort : Z -> A -> A).
(** The memory and the number of rounds of [recvResponse], and its limits. *)
Context (fuel : nat) (limits : HttpLimits) (mem0 : list ascii).

(** The object [o] for the time of [m]; its destructor [del] runs at the end and
    when an exception leaves [m]. *)
Definition scoped {O X} (o : O) (del : M (O * world) unit) (m : M (O * world) X) : M world X := fun w =>
  match m (o, w) with
  | (st, Undef f) => (st.2, Undef f)
  | (st, r) => match del st with
               | (st', Ret _) => (st'.2, r)
               | (st', Throw e) => (st'.2, Throw e)
               | (st', Undef f) => (st'.2, Undef f)
               end
  end.

(** [~Socket] *)
Definition Socket_delete : M (St ascii A K) unit := Socket.close ;;; cret tt.

(** A SocketStream on the socket, for the time of [m]. *)
Definition with_stream {X} (owner : bool) (m : M (SS ascii A K) X) : M (St ascii A K) X := fun st =>
  let back (r : SS ascii A K) := (match m_socket r.1 with Some s => s | None => st.1 end, r.2) in
  match m (SocketStream_new st.1 owner, st.2) with
  | (ss, Undef f) => (back ss, Undef f)
  | (ss, r) => match SocketStream_delete ss with
               | (ss', Ret _) => (back ss', r)
               | (ss', Throw e) => (back ss', Throw e)
               | (ss', Undef f) => (back ss', Undef f)
               end
  end.

(** Send, then receive; [peer] is what the error text asks of the socket. *)
Definition exchange (peer : M (SS ascii A K) unit) (req : HttpRequest) : M (SS ascii A K) HttpResult :=
  let! rt := sendRequest req in
  if rt =? 0 then peer ;;; cret (mkResult SEND_CLOSE_BY_PEER None) else
  if rt <? 0 then cret (mkResult SEND_SOCKET_ERROR None) else
  let! rsp := recvResponse SocketStream.close fuel limits mem0 in
  match rsp with
  | None => peer ;;; cret (mkResult TIMEOUT None)
  | Some r => cret (mkResult OK (Some r))
  end.

(** [HttpConnection::DoRequest(req, uri, timeout_ms)].  [CreateTCP] does not
    return a null pointer, so CREATE_SOCKET_ERROR does not occur. *)
Definition DoRequest (req : HttpRequest) (uri : Uri) (timeout_ms : Z) : M world HttpResult :=
  match createAddress LookupAnyIPAddress addr_setPort uri with
  | None => cret (mkResult INVALID_HOST None)
  | Some addr =>
      scoped (CreateTCP addr) Socket_delete
        (let! ok := Socket.connect addr (u64 (-1)) in
         if negb ok then cret (mkResult CONNECT_FAIL None) else
         setRecvTimeout (i64 timeout_ms) ;;;
         with_stream true (exchange (cret tt) req))
  end.

(** [HttpConnection::DoRequest(method, uri, ...)], [DoGet] and [DoPost]. *)
Definition DoRequest_method (method : HttpMethod.t) (uri : Uri) (timeout_ms : Z)
    (headers : list (string * string)) (body : string) : M world HttpResult :=
  DoRequest (DoRequest_build method uri headers body) uri timeout_ms.
Definition DoGet := DoRequest_method HttpMethod.GET.
Definition DoPost := DoRequest_method HttpMethod.POST.

(** The overloads that take a text. *)
Definition DoRequest_url (method : HttpMethod.t) (url : string) (timeout_ms : Z)
    (headers : list (string * string)) (body : string) : M world HttpResult :=
  let! uri := lift (Uri_Create url) in
  match uri with
  | None => cret (mkResult INVALID_URL None)
  | Some uri => DoRequest_method method uri timeout_ms headers body
  end.
Definition DoGet_url := DoRequest_url HttpMethod.GET.
Definition DoPost_url := DoRequest_url HttpMethod.POST.

(** ** The pool *)

Record HttpConnection : Type := mkConnection {
  hc_stream : SocketStream A;
  m_createTime : Z;
  m_request : Z
}.

Definition HttpConnection_new (sock : Socket A) : HttpConnection :=
  mkConnection (SocketStream_new sock true) 0 0.

(** [isConnected] of the stream, which looks at the object alone. *)
Definition is_connected (c : HttpConnection) : bool :=
  match m_socket (hc_stream c) with Some s => m_isConnect s | None => false end.

(** [delete ptr]: the stream's destructor and then, with the last pointer to it,
    the socket's. *)
Definition HttpConnection_delete (c : HttpConnection) : M world unit :=
  scoped (hc_stream c) (if_socket Socket_delete tt) SocketStream_delete.

Record HttpConnectionPool : Type := mkPool {
  m_host : string;
  m_vhost : string;
  m_port : Z;
  m_maxSize : Z;
  m_maxAliveTime : Z;
  m_maxRequest : Z;
  m_conns : list HttpConnection;
  m_total : Z
}.

Definition HttpConnectionPool_new (host vhost : string) (port max_size max_alive_time max_request : Z)
  : HttpConnectionPool :=
  mkPool host vhost (if negb (port =? 0) then port else 80) max_size max_alive_time max_request [] 0.

(** [HttpConnectionPool::Create]: a text that is not a Uri is logged, then its
    null pointer is used. *)
Definition HttpConnectionPool_Create (uri vhost : string) (max_size max_alive_time max_request : Z)
  : outcome HttpConnectionPool :=
  obind (Uri_Create uri) (fun turi =>
  match turi with
  | None => Undef NullDeref
  | Some t => Ret (HttpConnectionPool_new (Uri.m_host t) vhost (u32 (getPort t)) max_size max_alive_time max_request)
  end).

Definition PS : Type := HttpConnectionPool * world.

Definition set_conns (l : list HttpConnection) (p : HttpConnectionPool) : HttpConnectionPool :=
  mkPool (m_host p) (m_vhost p) (m_port p) (m_maxSize p) (m_maxAliveTime p) (m_maxRequest p) l (m_total p).
Definition add_total (n : Z) (p : HttpConnectionPool) : HttpConnectionPool :=
  mkPool (m_host p) (m_vhost p) (m_port p) (m_maxSize p) (m_maxAliveTime p) (m_maxRequest p) (m_conns p)
    (i32 (m_total p + n)).

Definition upd_pool (f : HttpConnectionPool -> HttpConnectionPool) : M PS unit :=
  cmod (fun st => (f st.1, st.2)).
Definition in_world {X} (m : M world X) : M PS X := fun st =>
  let '(w', o) := m st.2 in ((st.1, w'), o).

(** The while loop: the connection found, those left and those to delete. *)
Fixpoint take_conn (alive now_ms : Z) (conns : list HttpConnection)
  : option HttpConnection * list HttpConnection * list HttpConnection :=
  match conns with
  | [] => (None, [], [])
  | conn :: rest =>
      if negb (is_connected conn) || (now_ms <? u64 (m_createTime conn + alive)) then
        let '(ptr, left_, invalid) := take_conn alive now_ms rest in (ptr, left_, conn :: invalid)
      else (Some conn, rest, [])
  end.

Fixpoint delete_all (l : list HttpConnection) : M world unit :=
  match l with [] => cret tt | c :: r => HttpConnection_delete c ;;; delete_all r end.

(** A new connection to the pool's host: the socket, or nothing when it does not
    connect. *)
Definition open_conn (addr : A) : M world (option (Socket A)) := fun w =>
  match Socket.connect addr (u64 (-1)) (CreateTCP addr, w) with
  | (st, Ret true) => (st.2, Ret (Some st.1))
  | (st, Ret false) => (cbind (fun w' => scoped st.1 Socket_delete (cret tt) w') (fun _ => cret None)) st.2
  | (st, Throw e) => (st.2, Throw e)
  | (st, Undef f) => (st.2, Undef f)
  end.

Definition getConnection (now_ms : Z) : M PS (option HttpConnection) := fun st =>
  let '(ptr, left_, invalid) := take_conn (m_maxAliveTime st.1) now_ms (m_conns st.1) in
  (upd_pool (set_conns left_) ;;;
   in_world (delete_all invalid) ;;;
   upd_pool (add_total (- zlen invalid)) ;;;
   match ptr with
   | Some c => cret (Some c)
   | None =>
       match LookupAnyIPAddress (m_host st.1) with
       | None => cret None
       | Some addr =>
           let! sock := in_world (open_conn (addr_setPort (u16 (m_port st.1)) addr)) in
           match sock with
           | None => cret None
           | Some s => upd_pool (add_total 1) ;;; cret (Some (HttpConnection_new s))
           end
       end
   end) st.

Definition ReleasePtr (ptr : HttpConnection) (now_ms : Z) : M PS unit := fun st =>
  let ptr := mkConnection (hc_stream ptr) (m_createTime ptr) (u64 (m_request ptr + 1)) in
  if negb (is_connected ptr) || (now_ms <=? u64 (m_createTime ptr + m_maxAliveTime st.1))
     || (m_maxRequest st.1 <=? m_request ptr)
  then (in_world (HttpConnection_delete ptr) ;;; upd_pool (add_total (-1))) st
  else upd_pool (fun p => set_conns (m_conns p ++ [ptr]) p) st.

(** A call on a connection that is held. *)
Definition on_conn {X} (c : HttpConnection) (m : M (SS ascii A K) X) (w : world)
  : HttpConnection * world * outcome X :=
  let '(ss, o) := m (hc_stream c, w) in
  (mkConnection ss.1 (m_createTime c) (m_request c), ss.2, o).

(** What the body of the pool's [doRequest] does with the connection. *)
Definition pool_body (req : HttpRequest) (timeout_ms : Z) : M (SS ascii A K) HttpResult := fun ss =>
  match m_socket ss.1 with
  | None => (ss, Ret (mkResult POOL_INVALID_CONNECTION None))
  | Some _ =>
      (through (setRecvTimeout (i64 timeout_ms)) ;;;
       exchange (through Socket.getRemoteAddress ;;; cret tt) req) ss
  end.

(** [HttpConnectionPool::doRequest(req, timeout_ms)]; the pointer gives the
    connection back when the call is left. *)
Definition doRequest (req : HttpRequest) (timeout_ms now_get now_release : Z) : M PS HttpResult :=
  let! conn := getConnection now_get in
  match conn with
  | None => cret (mkResult POOL_GET_CONNECTION None)
  | Some c => fun st =>
      match on_conn c (pool_body req timeout_ms) st.2 with
      | (_, w, Undef f) => ((st.1, w), Undef f)
      | (c', w, o) => (ReleasePtr c' now_release ;;; lift o) (st.1, w)
      end
  end.

(** [HttpConnectionPool::doRequest(method, url, ...)], with a [Uri], [doGet] and
    [doPost]. *)
Definition doRequest_method (method : HttpMethod.t) (url : string) (timeout_ms now_get now_release : Z)
    (headers : list (string * string)) (body : string) : M PS HttpResult := fun st =>
  doRequest (pool_build (m_host st.1) (m_vhost st.1) method url headers body)
    timeout_ms now_get now_release st.
Definition doRequest_uri (method : HttpMethod.t) (uri : Uri) := doRequest_method method (pool_target uri).
Definition doGet := doRequest_method HttpMethod.GET.
Definition doPost := doRequest_method HttpMethod.POST.
End client.
Arguments HttpConnection _ : clear implicits.
Arguments HttpConnectionPool _ : clear implicits.
Arguments PS : clear implicits.
