(* ===== verification/HttpClientSpec.v ===== *)
(** * The client's descriptors and the accounts of its pool

    [preserves P m]: whichever way [m] ends, [P] holds of the state after it if
    it held before.  The calls of the client are built from [read], [write] and
    [close] of a stream, so they preserve what these preserve, in particular who
    owns which descriptor. *)

From Stdlib Require Import ZArith Lia Ascii String List.
From stdpp Require Import base list strings gmap sets.
From S2P Require Import HttpWireSpec HttpConnectionSpec Prelude Ordered CString Uri UriParser FdManager Socket SocketSpec Stream SocketStream Http HttpResponse HttpRequest HttpParser HttpResponseParser HttpSession HttpConnection HttpClient.

Local Open Scope string_scope.
Local Open Scope list_scope.
Local Open Scope Z_scope.
Local Open Scope cpp_scope.

(** ** Predicates kept by a call *)

Section preserves.
Context {S : Type} (P : S -> Prop).

Definition preserves {X} (m : M S X) : Prop := forall s, P s -> P (m s).1.

Lemma preserves_ret {X} (x : X) : preserves (cret x).
Proof. intros s H. exact H. Qed.

Lemma preserves_lift {X} (o : outcome X) : preserves (lift o).
Proof. intros s H. exact H. Qed.

Lemma preserves_throw {X} e : preserves (cthrow e : M S X).
Proof. intros s H. exact H. Qed.

Lemma preserves_undef {X} f : preserves (cundef f : M S X).
Proof. intros s H. exact H. Qed.

Lemma preserves_bind {X Y} (m : M S X) (k : X -> M S Y) :
  preserves m -> (forall x, preserves (k x)) -> preserves (cbind m k).
Proof.
  intros Hm Hk s H. specialize (Hm s H). unfold cbind.
  destruct (m s) as [s' [x|e|f]]; simpl in *; [apply Hk, Hm|exact Hm|exact Hm].
Qed.
End preserves.

Create HintDb preserves.
#[export] Hint Resolve preserves_ret preserves_lift preserves_throw preserves_undef : preserves.

Ltac preserves_tac :=
  repeat first
    [ solve [auto 2 with preserves nocore]
    | apply preserves_bind; [|intros ?]
    | progress cbv zeta
    | match goal with
      | |- preserves _ (if ?b then _ else _) => destruct b
      | |- preserves _ (match ?o with _ => _ end) => destruct o
      end ].

Section calls.
Context {S : Type} {I : Stream S ascii} (s_close : M S unit) (P : S -> Prop).
Context (Hread : forall n, preserves P (s_read n)) (Hwrite : forall d, preserves P (s_write d)).
Context (Hclose : preserves P s_close).
Context {CA : ClientAutomaton} {LC : LexicalCast Z}.
#[local] Hint Resolve Hread Hwrite Hclose : preserves.

Lemma preserves_fail {X} : preserves P (fail s_close : M S (option X)).
Proof. unfold fail. preserves_tac. Qed.
#[local] Hint Resolve preserves_fail : preserves.

Lemma preserves_head fuel : forall bs p data off, preserves P (response_head_loop s_close fuel bs p data off).
Proof. induction fuel; intros; cbn [response_head_loop]; preserves_tac. Qed.

Lemma preserves_chunk_head fuel : forall bs p data len b, preserves P (chunk_head_loop s_close fuel bs p data len b).
Proof. induction fuel; intros; cbn [chunk_head_loop]; preserves_tac. Qed.

Lemma preserves_chunk_rest fuel : forall bs data l body, preserves P (chunk_rest s_close fuel bs data l body).
Proof. induction fuel; intros; cbn [chunk_rest]; preserves_tac. Qed.
#[local] Hint Resolve preserves_head preserves_chunk_head preserves_chunk_rest : preserves.

Lemma preserves_chunks fuel : forall bs p data len body, preserves P (chunk_loop s_close fuel bs p data len body).
Proof. induction fuel; intros; cbn [chunk_loop]; preserves_tac. Qed.

Lemma preserves_read_loop fuel : forall buffer o l, preserves P (read_loop fuel buffer o l).
Proof. induction fuel; intros; cbn [read_loop]; preserves_tac. Qed.

Lemma preserves_write_loop fuel : forall buffer o l, preserves P (write_loop fuel buffer o l).
Proof. induction fuel; intros; cbn [write_loop]; preserves_tac. Qed.
#[local] Hint Resolve preserves_chunks preserves_read_loop preserves_write_loop : preserves.

Lemma preserves_recvResponse fuel limits mem0 : preserves P (recvResponse s_close fuel limits mem0).
Proof. unfold recvResponse, readFixSize. preserves_tac. Qed.

Lemma preserves_sendRequest req : preserves P (sendRequest req).
Proof. unfold sendRequest, writeFixSize. preserves_tac. Qed.
End calls.

(** ** A stream owns the descriptor of its socket *)

Section ownership.
Context {A : Type} {K : Kernel ascii A} {L : KernelLaws K}.
Context {CA : ClientAutomaton} {LC : LexicalCast Z}.
Implicit Types (U : gset Z) (w : world).

Definition stream_ok U (ss : SS ascii A K) : Prop :=
  exists s, m_socket ss.1 = Some s /\ sock_ok U (s, ss.2).

Lemma preserves_through {X} U (m : M (St ascii A K) X) : keeps m -> preserves (stream_ok U) (through m).
Proof.
  intros Hm [[sk o] w] (s & E & Hs). cbn [fst snd m_socket] in *. subst sk. unfold through. cbn [fst snd m_socket].
  destruct (Hm U (s, w) Hs) as [H _]. destruct (m (s, w)) as [[s' w'] r]. exists s'. split; [reflexivity|exact H].
Qed.

Lemma preserves_if_socket {X} U (m : M (St ascii A K) X) d :
  keeps m -> preserves (stream_ok U) (if_socket m d).
Proof.
  intros Hm ss H. pose proof (preserves_through U m Hm ss H) as Ht.
  unfold if_socket. destruct H as (s & E & _). rewrite E. exact Ht.
Qed.

Lemma keeps_connected : keeps (Socket.isConnected (B := ascii) (A := A)).
Proof. apply disc_get. Qed.

Lemma keeps_delete : keeps (Socket_delete (A := A)).
Proof. apply keeps_bind; [apply keeps_close|intros ?; apply disc_ret]. Qed.

Lemma preserves_ss_read U n : preserves (stream_ok U) (SocketStream.read n).
Proof.
  apply preserves_bind; [apply preserves_if_socket, keeps_connected|].
  intros c. destruct (negb c); [apply preserves_ret|apply preserves_through, still_keeps, still_recv].
Qed.

Lemma preserves_ss_write U d : preserves (stream_ok U) (SocketStream.write d).
Proof.
  apply preserves_bind; [apply preserves_if_socket, keeps_connected|].
  intros c. destruct (negb c); [apply preserves_ret|apply preserves_through, still_keeps, still_send].
Qed.

Lemma preserves_ss_close U : preserves (stream_ok U) SocketStream.close.
Proof. apply preserves_if_socket, keeps_delete. Qed.

Lemma preserves_ss_delete U : preserves (stream_ok U) SocketStream_delete.
Proof.
  intros ss H. unfold SocketStream_delete. destruct (m_owner ss.1); [|exact H].
  apply preserves_ss_close, H.
Qed.

Lemma preserves_exchange fuel limits mem0 U peer req :
  preserves (stream_ok U) peer -> preserves (stream_ok U) (exchange fuel limits mem0 peer req).
Proof.
  intros Hp. unfold exchange.
  assert (Hs : preserves (stream_ok U) (sendRequest req))
    by (apply preserves_sendRequest; intros; apply preserves_ss_write).
  assert (Hr : preserves (stream_ok U) (recvResponse SocketStream.close fuel limits mem0)).
  { apply preserves_recvResponse; intros; first [apply preserves_ss_read|apply preserves_ss_close]. }
  preserves_tac.
Qed.

(** The destructors return. *)
Lemma ss_close_returns (ss : SS ascii A K) : exists ss', SocketStream.close ss = (ss', Ret tt).
Proof.
  destruct ss as [[[s|] o] w]; unfold SocketStream.close, if_socket, through; cbn; [|eauto].
  unfold Socket.close, cbind. cbn. destruct (_ && _), (m_sock s =? -1); eauto.
Qed.

Lemma ss_delete_returns (ss : SS ascii A K) : exists ss', SocketStream_delete ss = (ss', Ret tt).
Proof. unfold SocketStream_delete. destruct (m_owner ss.1); [apply ss_close_returns|eauto]. Qed.

(** After the destructor of a socket only the descriptors of others are open. *)
Lemma socket_deleted U (st : St ascii A K) : sock_ok U st ->
  exists st', Socket_delete st = (st', Ret tt) /\ k_open st'.2 = U.
Proof.
  intros H. destruct (keeps_delete U st H) as [(H1 & _ & _) [[] Hr]].
  destruct (close_releases st) as [C _].
  assert (E : (Socket_delete st).1 = (Socket.close st).1).
  { unfold Socket_delete, cbind. destruct (keeps_close U st H) as [_ [b Hb]].
    destruct (Socket.close st) as [st' o]. simpl in Hb. subst o. reflexivity. }
  destruct (Socket_delete st) as [st' o]. cbn [fst snd] in *. subst o. exists st'. split; [reflexivity|].
  rewrite H1. unfold owned. rewrite E, C. set_solver.
Qed.

Lemma scoped_socket {X} U s w (m : M (St ascii A K) X) w' o :
  sock_ok U (s, w) -> preserves (sock_ok U) m ->
  scoped s Socket_delete m w = (w', o) -> (exists f, o = Undef f) \/ k_open w' = U.
Proof.
  intros Hs Hm. unfold scoped. specialize (Hm (s, w) Hs). destruct (m (s, w)) as [st r]. cbn [fst] in Hm.
  destruct (socket_deleted U st Hm) as (st' & -> & Ho).
  destruct r; intros E; injection E as <- <-; eauto.
Qed.

Lemma preserves_with_stream {X} U owner (m : M (SS ascii A K) X) :
  preserves (stream_ok U) m -> preserves (sock_ok U) (with_stream owner m).
Proof.
  intros Hm [s w] Hs. unfold with_stream. cbn [fst snd].
  specialize (Hm (SocketStream_new s owner, w) (ex_intro _ s (conj eq_refl Hs))).
  assert (Hback : forall ss : SS ascii A K, stream_ok U ss ->
    sock_ok U (match m_socket ss.1 with Some s => s | None => s end, ss.2))
    by (intros ss (s1 & E & H); rewrite E; exact H).
  destruct (m (SocketStream_new s owner, w)) as [ss r]. cbn [fst] in Hm.
  pose proof (preserves_ss_delete U ss Hm) as Hd. destruct (ss_delete_returns ss) as (ss' & E).
  rewrite E in *. destruct r; cbn [fst]; apply Hback; assumption.
Qed.

Lemma keeps_preserves {X} U (m : M (St ascii A K) X) : keeps m -> preserves (sock_ok U) m.
Proof. intros Hm st H. apply Hm, H. Qed.
End ownership.

(** ** Calls without a pool *)

Lemma DoRequest_closes {A} (K : Kernel ascii A) (L : KernelLaws K)
    (CA : ClientAutomaton) (LC : LexicalCast Z) lookup setport fuel limits mem0 req uri timeout w w' o :
  DoRequest lookup setport fuel limits mem0 req uri timeout w = (w', o) ->
  (exists f, o = Undef f) \/ k_open w' = k_open w.
Proof.
  unfold DoRequest. destruct (createAddress lookup setport uri) as [addr|]; [|intros E; injection E as <- <-; auto].
  apply scoped_socket; [apply new_ok|].
  apply preserves_bind; [apply keeps_preserves, keeps_connect|]. intros ok. destruct (negb ok); [apply preserves_ret|].
  apply preserves_bind; [apply keeps_preserves, still_keeps, still_timeouts|]. intros _.
  apply preserves_with_stream, preserves_exchange, preserves_ret.
Qed.

(** C27: A client call does not leak its descriptor.  Whichever way
    [HttpConnection::DoRequest] on a text ends, by a return with any code or by an
    exception, the open descriptors are those that were open before the call; a
    text that is not a Uri gives INVALID_URL and nothing is done. *)
Theorem client_call_closes_its_socket {A} (K : Kernel ascii A) (L : KernelLaws K)
    (CA : ClientAutomaton) (LC : LexicalCast Z) lookup setport fuel limits mem0 method url timeout headers body w w' o :
  DoRequest_url lookup setport fuel limits mem0 method url timeout headers body w = (w', o) ->
  ((exists f, o = Undef f) \/ k_open w' = k_open w)
  /\ (Uri_Create url = Ret None -> w' = w /\ o = Ret (mkResult INVALID_URL None)).
Proof.
  unfold DoRequest_url, lift, cbind. destruct (Uri_Create url) as [[uri|]|e|f].
  - intros E. split; [exact (DoRequest_closes K L CA LC _ _ _ _ _ _ _ _ _ _ _ E)|discriminate].
  - intros E. injection E as <- <-. auto.
  - intros E. injection E as <- <-. split; [auto|discriminate].
  - intros E. injection E as <- <-. split; [eauto|discriminate].
Qed.

(** On a kernel whose peers close at once. *)
Definition sample_call : gset nat * outcome HttpResult :=
  DoRequest_url (K := small_kernel) (CA := chunk_reader) (LC := decimal_cast) (fun _ => Some 2) (fun _ a => a)
    1 HttpLimits_init [] HttpMethod.GET "http://www.sylar.top/" 1000 [] "" ∅.

Lemma client_call_closes_its_socket_witness :
  (exists f, sample_call.2 = Undef f) \/ @k_open ascii Z small_kernel sample_call.1 = @k_open ascii Z small_kernel (∅ : gset nat).
Proof.
  apply (client_call_closes_its_socket small_kernel _ chunk_reader decimal_cast (fun _ => Some 2) (fun _ a => a)
    1 HttpLimits_init [] HttpMethod.GET "http://www.sylar.top/" 1000 [] "" ∅).
  exact (surjective_pairing sample_call).
Defined.

Example sample_call_returns : sample_call.2 = Ret (mkResult SEND_CLOSE_BY_PEER None).
Proof. vm_compute. reflexivity. Qed.

(** ** The pool *)

Section pool.
Context {A : Type} {K : Kernel ascii A} {L : KernelLaws K}.
Context {CA : ClientAutomaton} {LC : LexicalCast Z}.
Implicit Types (U X Y : gset Z) (c : HttpConnection A) (cs : list (HttpConnection A)).
Implicit Types (p : HttpConnectionPool A) (w : world).

(** The descriptor of a connection. *)
Definition conn_fd c : gset Z := match m_socket (hc_stream c) with Some s => owned s | None => ∅ end.

Definition conn_valid c : Prop :=
  exists s, m_socket (hc_stream c) = Some s /\ (m_isConnect s = true -> m_sock s <> -1).

(** The open descriptors [X] are those of [cs], one each at most, and [U]. *)
Fixpoint held U cs X : Prop :=
  match cs with
  | [] => X = U
  | c :: r => conn_valid c /\ exists Y, X = conn_fd c ∪ Y /\ conn_fd c ## Y /\ held U r Y
  end.

#[global] Instance held_perm U : Proper (Permutation ==> eq ==> iff) (held U).
Proof.
  assert (Hw : forall cs cs', cs ≡ₚ cs' -> forall X, held U cs X -> held U cs' X).
  { intros cs cs' Hp. induction Hp as [|c cs cs' _ IH|c d cs|cs cs' cs'' _ IH1 _ IH2]; intros X; simpl; auto.
    - intros (Hv & Y & H1 & H2 & H3). split; [exact Hv|]. exists Y. auto.
    - intros (Hc & Y & -> & H2 & Hd & Z & -> & H4 & H5). split; [exact Hd|].
      exists (conn_fd d ∪ Z). split; [set_solver|]. split; [set_solver|]. split; [exact Hc|].
      exists Z. split; [reflexivity|]. split; [set_solver|exact H5]. }
  intros cs cs' Hp X ? <-. split; apply Hw; [exact Hp|symmetry; exact Hp].
Qed.

Lemma held_cons_ok U c cs w : held U (c :: cs) (k_open w) ->
  exists Y, held U cs Y /\ stream_ok Y (hc_stream c, w).
Proof.
  simpl. intros ((s & E & Hs) & Y & H1 & H2 & H3). exists Y. split; [exact H3|]. exists s. split; [exact E|].
  unfold conn_fd in *. rewrite E in *. split; [exact H1|]. auto.
Qed.

Lemma stream_ok_held U Y c cs w : held U cs Y -> stream_ok Y (hc_stream c, w) -> held U (c :: cs) (k_open w).
Proof.
  intros H (s & E & H1 & H2 & H3). cbn [fst snd] in *. split; [exists s; auto|]. exists Y.
  unfold conn_fd. rewrite E. auto.
Qed.

(** Deleting a connection closes its descriptor and nothing else. *)
Lemma delete_ok U c cs w : held U (c :: cs) (k_open w) ->
  exists w', HttpConnection_delete c w = (w', Ret tt) /\ held U cs (k_open w').
Proof.
  intros H. destruct (held_cons_ok _ _ _ _ H) as (Y & Hr & Hok). unfold HttpConnection_delete, scoped.
  pose proof (preserves_ss_delete Y _ Hok) as Hd. destruct (ss_delete_returns (hc_stream c, w)) as (ss & E).
  rewrite E in *. destruct Hd as (s & Es & Hs). cbn [fst] in *.
  destruct (socket_deleted Y _ Hs) as ([s' w'] & Ed & Ho).
  unfold if_socket, through. rewrite Es, Ed. exists w'. cbn [snd] in *. rewrite Ho. auto.
Qed.

Lemma delete_all_ok U cs rest : forall w, held U (cs ++ rest) (k_open w) ->
  exists w', delete_all cs w = (w', Ret tt) /\ held U rest (k_open w').
Proof.
  induction cs as [|c cs IH]; intros w H; [exists w; auto|].
  destruct (delete_ok U c (cs ++ rest) w H) as (w1 & E1 & H1). destruct (IH w1 H1) as (w2 & E2 & H2).
  exists w2. cbn [delete_all]. rewrite (cbind_ret _ _ _ _ _ E1). auto.
Qed.

Lemma held_valid U cs X : held U cs X -> Forall conn_valid cs.
Proof. revert X. induction cs as [|c cs IH]; intros X; simpl; [constructor|]. intros (H & Y & _ & _ & HY). eauto. Qed.

(** A new connection owns a new descriptor, or none stays open. *)
Lemma open_conn_ok U cs addr w : held U cs (k_open w) ->
  exists w' r, open_conn addr w = (w', Ret r)
    /\ match r with
       | Some s => held U (HttpConnection_new s :: cs) (k_open w') /\ m_isConnect s = true
       | None => held U cs (k_open w')
       end.
Proof.
  intros H. unfold open_conn.
  destruct (keeps_connect addr (u64 (-1)) (k_open w) (CreateTCP addr, w) (new_ok _ _ _ w)) as [Hc [b Hb]].
  pose proof (connect_connects addr (u64 (-1)) (CreateTCP addr, w)) as Ht.
  destruct (connect addr (u64 (-1)) (CreateTCP addr, w)) as [[s w'] o]. cbn [fst snd] in *. subst o.
  destruct b.
  - exists w', (Some s). split; [reflexivity|]. split; [|apply Ht; reflexivity].
    apply (stream_ok_held U (k_open w)); [exact H|]. exists s. auto.
  - destruct (socket_deleted _ _ Hc) as ([s' w''] & Ed & Ho).
    exists w'', None. unfold scoped, cbind, cret. cbn [fst snd]. rewrite Ed. cbn [snd] in *.
    split; [reflexivity|]. rewrite Ho. exact H.
Qed.

Lemma in_world_ret {V : Type} (m : M world V) p w w' x : m w = (w', Ret x) -> in_world m (p, w) = ((p, w'), Ret x).
Proof. intros E. unfold in_world. cbn [fst snd]. rewrite E. reflexivity. Qed.

(** ** Runs of the pool and of the holders of its connections *)

Context (lookup : string -> option A) (setport : Z -> A -> A).
Context (fuel : nat) (limits : HttpLimits) (mem0 : list ascii).

Inductive use_op : Type := UWrite (d : list ascii) | URead (n : Z) | UClose | URequest (req : HttpRequest) (timeout : Z).

Definition run_use (u : use_op) : M (SS ascii A K) unit :=
  match u with
  | UWrite d => SocketStream.write d ;;; cret tt
  | URead n => SocketStream.read n ;;; cret tt
  | UClose => SocketStream.close
  | URequest req timeout => pool_body fuel limits mem0 req timeout ;;; cret tt
  end.

Definition PState : Type := HttpConnectionPool A * list (HttpConnection A) * world.

Definition option_elems {V : Type} (o : option V) : list V := match o with Some x => [x] | None => [] end.

(** The pool, the connections that are held, and the world, which may change in
    all but the open descriptors. *)
Inductive pool_step : PState -> PState -> Prop :=
  | step_get now p lent w p' w' r : getConnection lookup setport now (p, w) = ((p', w'), Ret r) ->
      pool_step (p, lent, w) (p', option_elems r ++ lent, w')
  | step_use u p l1 c l2 w c' w' o : on_conn c (run_use u) w = (c', w', o) ->
      pool_step (p, l1 ++ c :: l2, w) (p, l1 ++ c' :: l2, w')
  | step_release now p l1 c l2 w p' w' : ReleasePtr c now (p, w) = ((p', w'), Ret tt) ->
      pool_step (p, l1 ++ c :: l2, w) (p', l1 ++ l2, w')
  | step_world p lent w w' : k_open w' = k_open w -> pool_step (p, lent, w) (p, lent, w').

Definition idle_ok p c : Prop := is_connected c = true /\ m_createTime c = 0 /\ m_request c < m_maxRequest p.

Definition pool_ok U (st : PState) : Prop :=
  let '(p, lent, w) := st in
  held U (m_conns p ++ lent) (k_open w)
  /\ m_total p = i32 (zlen (m_conns p ++ lent))
  /\ Forall (idle_ok p) (m_conns p) /\ Forall (fun c => m_createTime c = 0) lent.

Lemma take_conn_split alive now cs : let '(ptr, left_, invalid) := take_conn alive now cs in
  cs = invalid ++ option_elems ptr ++ left_.
Proof.
  induction cs as [|c cs IH]; simpl; [reflexivity|]. destruct (_ || _); [|reflexivity].
  destruct (take_conn alive now cs) as [[ptr left_] invalid]. simpl. rewrite IH. reflexivity.
Qed.

Lemma i32_shift a b : i32 (i32 a + b) = i32 (a + b).
Proof.
  unfold swrap. f_equal. replace (_ mod _ - _ + b + _) with ((a + 2 ^ (32 - 1)) mod 2 ^ 32 + b) by lia.
  rewrite Zplus_mod_idemp_l. f_equal. lia.
Qed.

Definition same_limits p p' : Prop := m_maxAliveTime p' = m_maxAliveTime p /\ m_maxRequest p' = m_maxRequest p.

Lemma getConnection_ok U now p lent w : pool_ok U (p, lent, w) ->
  exists p' w' r, getConnection lookup setport now (p, w) = ((p', w'), Ret r)
    /\ pool_ok U (p', option_elems r ++ lent, w') /\ same_limits p p'.
Proof.
  intros (Hh & Ht & Hi & Hl). unfold getConnection. cbn [fst snd].
  pose proof (take_conn_split (m_maxAliveTime p) now (m_conns p)) as Hs.
  destruct (take_conn (m_maxAliveTime p) now (m_conns p)) as [[ptr left_] invalid].
  rewrite Hs in Hh, Hi, Ht. rewrite <- (assoc_L (++)) in Hh.
  destruct (delete_all_ok _ _ _ _ Hh) as (w1 & E1 & H1).
  apply Forall_app in Hi as [_ Hi]. apply Forall_app in Hi as [Hp Hi].
  unfold upd_pool at 1. rewrite cbind_mod. cbn [fst snd].
  rewrite (cbind_ret _ _ _ _ _ (in_world_ret _ (set_conns left_ p) _ _ _ E1)).
  unfold upd_pool at 1. rewrite cbind_mod. cbn [fst snd].
  assert (Htot : m_total (add_total (- zlen invalid) (set_conns left_ p)) = i32 (zlen (option_elems ptr ++ left_ ++ lent))).
  { cbn. rewrite Ht, i32_shift, !zlen_app. f_equal. lia. }
  assert (Hconns : m_conns (add_total (- zlen invalid) (set_conns left_ p)) = left_) by reflexivity.
  assert (Hlim : same_limits p (add_total (- zlen invalid) (set_conns left_ p))) by (split; reflexivity).
  set (p1 := add_total (- zlen invalid) (set_conns left_ p)) in *.
  assert (Hidle : Forall (idle_ok p1) left_) by exact Hi.
  destruct ptr as [c|]; cbn [option_elems] in *.
  - exists p1, w1, (Some c). split; [reflexivity|]. split; [|exact Hlim]. unfold pool_ok. cbn [option_elems app].
    rewrite Hconns, Htot. split; [|split; [|split; [exact Hidle|]]].
    + rewrite <- Permutation_middle. exact H1.
    + f_equal. cbn [app]. rewrite !zlen_cons, !zlen_app, zlen_cons. lia.
    + constructor; [|exact Hl]. apply Forall_cons in Hp as [(_ & Hp & _) _]. exact Hp.
  - destruct (lookup (m_host p)) as [addr|].
    + destruct (open_conn_ok U (left_ ++ lent) (setport (u16 (m_port p)) addr) w1 H1) as (w2 & r & E2 & H2).
      rewrite (cbind_ret _ _ _ _ _ (in_world_ret _ p1 _ _ _ E2)). destruct r as [s|].
      * destruct H2 as [H2 _]. exists (add_total 1 p1), w2, (Some (HttpConnection_new s)).
        split; [reflexivity|]. split; [|exact Hlim]. unfold pool_ok. cbn [option_elems app].
        change (m_conns (add_total 1 p1)) with (m_conns p1). rewrite Hconns.
        split; [|split; [|split; [exact Hidle|constructor; [reflexivity|exact Hl]]]].
        -- rewrite <- Permutation_middle. exact H2.
        -- cbn [add_total m_total app]. rewrite Htot, i32_shift. cbn [app]. rewrite !zlen_app, zlen_cons. f_equal. lia.
      * exists p1, w2, None. split; [reflexivity|]. split; [|exact Hlim]. unfold pool_ok. rewrite Hconns, Htot. auto.
    + exists p1, w1, None. split; [reflexivity|]. split; [|exact Hlim]. unfold pool_ok. rewrite Hconns, Htot. auto.
Qed.

Lemma release_ok U now p l1 c l2 w : pool_ok U (p, l1 ++ c :: l2, w) ->
  exists p' w', ReleasePtr c now (p, w) = ((p', w'), Ret tt) /\ pool_ok U (p', l1 ++ l2, w') /\ same_limits p p'.
Proof.
  intros (Hh & Ht & Hi & Hl).
  rewrite <- Permutation_middle, <- Permutation_middle in Hh. apply Forall_app in Hl as [Hl1 Hl2]. apply Forall_cons in Hl2 as [Hc Hl2].
  set (c' := mkConnection (hc_stream c) (m_createTime c) (u64 (m_request c + 1))).
  assert (Hh' : held U (c' :: m_conns p ++ l1 ++ l2) (k_open w)) by exact Hh.
  assert (Hz : zlen (m_conns p ++ l1 ++ c :: l2) = 1 + zlen (m_conns p ++ l1 ++ l2))
    by (rewrite !zlen_app, zlen_cons; lia).
  unfold ReleasePtr. cbn [fst snd]. fold c'. destruct (_ || _) eqn:Ec.
  - destruct (delete_ok _ _ _ _ Hh') as (w' & E & H').
    rewrite (cbind_ret _ _ _ _ _ (in_world_ret _ p _ _ _ E)). unfold upd_pool, cmod. cbn [fst snd].
    eexists _, w'. split; [reflexivity|]. split; [|split; reflexivity]. unfold pool_ok. cbn.
    split; [exact H'|]. split; [rewrite Ht, i32_shift, Hz; f_equal; lia|]. split; [exact Hi|].
    apply Forall_app. auto.
  - apply orb_false_iff in Ec as [Ec Er]. apply orb_false_iff in Ec as [Ec _].
    apply negb_false_iff in Ec. apply Z.leb_gt in Er.
    unfold upd_pool, cmod. cbn [fst snd]. eexists _, w. split; [reflexivity|]. split; [|split; reflexivity].
    unfold pool_ok. cbn. split.
    { rewrite <- (Permutation_cons_append (m_conns p) c'). exact Hh'. }
    split; [rewrite Ht, Hz, !zlen_app, zlen_cons; f_equal; unfold zlen; simpl; lia|].
    split; [|apply Forall_app; auto].
    apply Forall_app. split; [exact Hi|]. constructor; [|constructor]. repeat split; auto.
Qed.

Lemma use_preserves U u : preserves (stream_ok U) (run_use u).
Proof.
  destruct u; simpl; try (apply preserves_bind; [|intros ?; apply preserves_ret]).
  - apply preserves_ss_write.
  - apply preserves_ss_read.
  - apply preserves_ss_close.
  - intros ss H. unfold pool_body. destruct (m_socket ss.1); [|exact H].
    revert ss H. change (preserves (stream_ok U) (through (setRecvTimeout (i64 timeout)) ;;;
      exchange fuel limits mem0 (through Socket.getRemoteAddress ;;; cret tt) req)).
    apply preserves_bind; [apply preserves_through, still_keeps, still_timeouts|intros _].
    apply preserves_exchange. apply preserves_bind; [|intros ?; apply preserves_ret].
    apply preserves_through, still_keeps, still_getRemoteAddress.
Qed.

Lemma use_ok U u p l1 c l2 w c' w' o : pool_ok U (p, l1 ++ c :: l2, w) ->
  on_conn c (run_use u) w = (c', w', o) -> pool_ok U (p, l1 ++ c' :: l2, w').
Proof.
  intros (Hh & Ht & Hi & Hl) E. rewrite <- !Permutation_middle in Hh.
  destruct (held_cons_ok _ _ _ _ Hh) as (Y & Hr & Hok). pose proof (use_preserves Y u _ Hok) as Hp.
  unfold on_conn in E. destruct (run_use u (hc_stream c, w)) as [ss r]. injection E as <- <- <-.
  unfold pool_ok. split.
  - rewrite <- !Permutation_middle. apply (stream_ok_held U Y); [exact Hr|]. cbn. destruct ss. exact Hp.
  - split; [rewrite Ht, !zlen_app, !zlen_cons; reflexivity|]. split; [exact Hi|].
    apply Forall_app in Hl as [Hl1 Hl2]. apply Forall_cons in Hl2 as [Hc Hl2].
    apply Forall_app. split; [exact Hl1|]. constructor; assumption.
Qed.

Lemma step_ok U st st' : pool_step st st' -> pool_ok U st ->
  pool_ok U st' /\ same_limits st.1.1 st'.1.1.
Proof.
  intros Hs Hok. destruct Hs as [now p lent w p' w' r E|u p l1 c l2 w c' w' o E|now p l1 c l2 w p' w' E|p lent w w' E].
  - destruct (getConnection_ok U now p lent w Hok) as (p1 & w1 & r1 & E1 & H1 & Hlim). rewrite E in E1.
    injection E1 as <- <- <-. auto.
  - split; [apply (use_ok U u p l1 c l2 w c' w' o Hok E)|split; reflexivity].
  - destruct (release_ok U now p l1 c l2 w Hok) as (p1 & w1 & E1 & H1 & Hlim). rewrite E in E1.
    injection E1 as <- <-. auto.
  - split; [|split; reflexivity]. unfold pool_ok in *. rewrite E. exact Hok.
Qed.

Lemma reach_ok U st st' : rtc pool_step st st' -> pool_ok U st -> pool_ok U st' /\ same_limits st.1.1 st'.1.1.
Proof.
  intros Hr. induction Hr as [st|st1 st2 st3 Hs _ IH]; intros Hok; [split; [exact Hok|split; reflexivity]|].
  destruct (step_ok U _ _ Hs Hok) as [H2 [L1 L2]]. destruct (IH H2) as [H3 [L3 L4]].
  split; [exact H3|]. split; congruence.
Qed.

(** An idle connection is taken whatever its age: [m_createTime] stays 0 and the
    clock is past every [m_maxAliveTime]. *)
Lemma get_reuses U now p lent w c rest : pool_ok U (p, lent, w) -> u_range 32 (m_maxAliveTime p) -> 2 ^ 32 <= now ->
  m_conns p = c :: rest ->
  getConnection lookup setport now (p, w) = ((add_total 0 (set_conns rest p), w), Ret (Some c)).
Proof.
  intros (_ & _ & Hi & _) Ha Hn Ec. rewrite Ec in Hi. apply Forall_cons in Hi as [(H1 & H2 & _) _].
  unfold getConnection. cbn [fst snd]. rewrite Ec. cbn [take_conn]. rewrite H1, H2. cbn [negb orb].
  unfold u_range in Ha. rewrite Z.add_0_l, uwrap_id by (unfold u_range; lia).
  rewrite (proj2 (Z.ltb_ge _ _)) by lia. reflexivity.
Qed.

(** The pool's [doRequest] is a run: a connection is taken, used and given back. *)
Lemma doRequest_run U req timeout now now' p lent w p' w' o : pool_ok U (p, lent, w) ->
  doRequest lookup setport fuel limits mem0 req timeout now now' (p, w) = ((p', w'), o) ->
  (exists f, o = Undef f) \/ rtc pool_step (p, lent, w) (p', lent, w').
Proof.
  intros Hok. destruct (getConnection_ok U now p lent w Hok) as (p1 & w1 & r & E1 & H1 & _).
  pose proof (step_get now p lent w p1 w1 r E1) as S1. unfold doRequest. rewrite (cbind_ret _ _ _ _ _ E1).
  destruct r as [c|]; [|intros E; injection E as <- <- <-; right; apply rtc_once, S1]. cbn [option_elems app fst snd] in *.
  destruct (on_conn c (pool_body fuel limits mem0 req timeout) w1) as [[c' w2] ob] eqn:E2.
  assert (E2' : exists o', on_conn c (run_use (URequest req timeout)) w1 = (c', w2, o')).
  { unfold on_conn in *. cbn [run_use]. unfold cbind.
    destruct (pool_body fuel limits mem0 req timeout (hc_stream c, w1)) as [ss [x|e|f]]; injection E2 as <- <- <-; eauto. }
  destruct E2' as (o' & E2'). pose proof (step_use _ p1 [] c lent w1 c' w2 o' E2') as S2. cbn [app] in S2.
  destruct (release_ok U now' p1 [] c' lent w2) as (p3 & w3 & E3 & H3 & _);
    [apply (step_ok _ _ _ S2 H1)|].
  pose proof (step_release now' p1 [] c' lent w2 p3 w3 E3) as S3. cbn [app] in S3.
  assert (Hr : rtc pool_step (p, lent, w) (p3, lent, w3))
    by (eapply rtc_l; [exact S1|]; eapply rtc_l; [exact S2|]; apply rtc_once, S3).
  destruct ob as [x|e|f]; rewrite ?(cbind_ret _ _ _ _ _ E3); unfold lift; intros E; injection E as <- <- <-; eauto.
Qed.
End pool.

(** C28: The accounts of the connection pool.  In every run of a pool and of the
    holders of its connections (takes, releases, reads, writes, closes, requests):
    [m_total] counts the idle and the held connections; each of them owns at most
    one descriptor, no two the same, and no other descriptor was opened or closed;
    every idle connection is connected and has served less than [m_maxRequest]
    requests; [getConnection] and [ReleasePtr] return; the first idle connection
    is handed out as it is, however old, for [m_createTime] is never set; and the
    pool's [doRequest] gives its connection back whichever way it ends. *)
Theorem pool_accounts {A} (K : Kernel ascii A) (L : KernelLaws K) (CA : ClientAutomaton) (LC : LexicalCast Z)
    lookup setport fuel limits mem0 host vhost port size alive max_request w0 p lent w :
  u_range 32 alive ->
  rtc (pool_step lookup setport fuel limits mem0)
    (HttpConnectionPool_new host vhost port size alive max_request, [], w0) (p, lent, w) ->
  m_total p = i32 (zlen (m_conns p ++ lent))
  /\ held (k_open w0) (m_conns p ++ lent) (k_open w)
  /\ Forall (fun c => is_connected c = true /\ m_request c < max_request) (m_conns p)
  /\ (forall now, exists st r, getConnection lookup setport now (p, w) = (st, Ret r))
  /\ (forall now c, c ∈ lent -> exists st, ReleasePtr c now (p, w) = (st, Ret tt))
  /\ (forall now c rest, 2 ^ 32 <= now -> m_conns p = c :: rest ->
        getConnection lookup setport now (p, w) = ((set_conns rest p, w), Ret (Some c)))
  /\ (forall req timeout now now' p' w' o,
        doRequest lookup setport fuel limits mem0 req timeout now now' (p, w) = ((p', w'), o) ->
        (exists f, o = Undef f) \/ rtc (pool_step lookup setport fuel limits mem0) (p, lent, w) (p', lent, w')).
Proof.
  intros Ha Hr. destruct (reach_ok lookup setport fuel limits mem0 (k_open w0) _ _ Hr) as [Hok [L1 L2]].
  { repeat split; constructor. }
  cbn in L1, L2. pose proof Hok as (H1 & H2 & H3 & H4). split; [exact H2|]. split; [exact H1|]. split.
  { eapply Forall_impl; [exact H3|]. intros c (? & _ & ?). rewrite <- L2. auto. }
  split. { intros now. destruct (getConnection_ok lookup setport _ now _ _ _ Hok) as (p' & w' & r & E & _). eauto. }
  split.
  { intros now c Hc. apply list_elem_of_split in Hc as (l1 & l2 & ->).
    edestruct release_ok as (p' & w' & E & _); [exact Hok|]. eauto. }
  split; [|intros *; apply (doRequest_run lookup setport fuel limits mem0 _ _ _ _ _ _ _ _ _ _ _ Hok)].
  intros now c rest Hn Ec. rewrite (get_reuses lookup setport _ now p lent w c rest Hok) by (rewrite ?L1; assumption).
  unfold add_total. cbn [m_total set_conns m_host m_vhost m_port m_maxSize m_maxAliveTime m_maxRequest m_conns].
  rewrite H2, i32_shift, Z.add_0_r. unfold set_conns. rewrite <- H2. reflexivity.
Qed.

Definition sample_pool : HttpConnectionPool Z := HttpConnectionPool_new "host" "" 0 10 1000 5.

Lemma pool_accounts_witness : exists p w,
  rtc (pool_step (K := small_kernel) (CA := chunk_reader) (LC := decimal_cast) (fun _ => Some 2) (fun _ a => a)
         1 HttpLimits_init [])
    (sample_pool, [], ∅) (p, [], w)
  /\ m_total p = 1 /\ zlen (m_conns p) = 1
  /\ Forall (fun c => is_connected c = true /\ m_request c < 5) (m_conns p).
Proof.
  eexists _, _. match goal with |- ?G /\ _ => assert (Hr : G) end.
  { eapply rtc_l; [eapply (step_get _ _ _ _ _ (2 ^ 40)); vm_compute; reflexivity|].
    eapply rtc_l; [eapply (step_use _ _ _ _ _ (UWrite [NUL]) _ [] _ []); vm_compute; reflexivity|].
    eapply rtc_l; [eapply (step_release _ _ _ _ _ (2 ^ 41) _ [] _ []); vm_compute; reflexivity|]. apply rtc_refl. }
  split; [exact Hr|].
  destruct (pool_accounts small_kernel _ chunk_reader decimal_cast (fun _ => Some 2) (fun _ a => a)
    1%nat HttpLimits_init [] "host" "" 0 10 1000 5 (∅ : gset nat) _ _ _
    ltac:(vm_compute; split; congruence) Hr) as (H1 & _ & H3 & _).
  split; [exact H1|]. split; [reflexivity|exact H3].
Defined.
