(* ===== verification/Servlet.v ===== *)
(** * Servlets and their dispatch (sylar/http/servlet.h, sylar/http/servlet.cpp)

    A servlet acts on the request, the response and the session ([Ctx]); the
    callback of a FunctionServlet and a servlet class of the application are
    functions.  [fnmatch] is a parameter.  Every operation of the dispatcher
    holds its lock for its whole length. *)

From Stdlib Require Import ZArith Lia Ascii String List.
From stdpp Require Import base list strings gmap.
From S2P Require Import Prelude Ordered CString Http HttpResponse HttpRequest.

Local Open Scope string_scope.
Local Open Scope list_scope.
Local Open Scope Z_scope.

Section servlet.
Context {Session : Type}.
(** [!fnmatch(pattern, string, 0)] *)
Variable fnmatch : list ascii -> list ascii -> bool.

Definition Ctx : Type := HttpRequest * HttpResponse * Session.

Inductive Servlet : Type :=
  | FunctionServlet (m_cb : Ctx -> Ctx * Z)
  | NotFounfServlet (m_content : string)
  | UserServlet (m_name : string) (body : Ctx -> Ctx * Z).

Definition getName (s : Servlet) : string :=
  match s with
  | FunctionServlet _ => "FunctionServlet"
  | NotFounfServlet _ => "NotFoundServlet"
  | UserServlet n _ => n
  end.

Definition NotFounfServlet_new (name : string) : Servlet :=
  NotFounfServlet ("<html><head><title>404 Not Found"
    ++ "</title></head><body><center><h1>404 Not Found</h1></center>"
    ++ "<hr><center>" ++ name ++ "</center></body></html>").

Definition NotFound_handle (m_content : string) (c : Ctx) : Ctx * Z :=
  let '(req, rsp, ss) := c in
  let rsp := HttpResponse.setStatus 404 rsp in
  let rsp := HttpResponse.setHeader "Server" "sylar/1.0.0" rsp in
  let rsp := HttpResponse.setHeader "Content-Type" "text/html" rsp in
  let rsp := HttpResponse.setBody m_content rsp in
  ((req, rsp, ss), 0).

(** The virtual call. *)
Definition Servlet_handle (s : Servlet) (c : Ctx) : Ctx * Z :=
  match s with
  | FunctionServlet cb => cb c
  | NotFounfServlet content => NotFound_handle content c
  | UserServlet _ body => body c
  end.

(** A [Servlet::ptr] is [None] when it is null. *)
Record ServletDispatch : Type := mkDispatch {
  m_datas : gmap string (option Servlet);
  m_globs : list (string * option Servlet);
  m_default : option Servlet
}.

Definition ServletDispatch_new : ServletDispatch :=
  mkDispatch ∅ [] (Some (NotFounfServlet_new "sylar_lzh/1.0.0")).

Definition addServlet (uri : string) (slt : option Servlet) (d : ServletDispatch) : ServletDispatch :=
  mkDispatch (<[uri := slt]> (m_datas d)) (m_globs d) (m_default d).

Definition addServlet_cb (uri : string) (cb : Ctx -> Ctx * Z) (d : ServletDispatch) : ServletDispatch :=
  addServlet uri (Some (FunctionServlet cb)) d.

(** The loop that erases the first entry of the pattern and breaks. *)
Fixpoint erase_glob (uri : string) (l : list (string * option Servlet)) : list (string * option Servlet) :=
  match l with
  | [] => []
  | it :: r => if bool_decide (it.1 = uri) then r else it :: erase_glob uri r
  end.

Definition addGlobServlet (uri : string) (slt : option Servlet) (d : ServletDispatch) : ServletDispatch :=
  mkDispatch (m_datas d) (erase_glob uri (m_globs d) ++ [(uri, slt)]) (m_default d).

Definition addGlobServlet_cb (uri : string) (cb : Ctx -> Ctx * Z) (d : ServletDispatch) : ServletDispatch :=
  addGlobServlet uri (Some (FunctionServlet cb)) d.

Definition delServlet (uri : string) (d : ServletDispatch) : ServletDispatch :=
  mkDispatch (m_datas d) (erase_glob uri (m_globs d)) (m_default d).

Definition delGlobServlet (uri : string) (d : ServletDispatch) : ServletDispatch := d.

Definition setDefault (v : option Servlet) (d : ServletDispatch) : ServletDispatch :=
  mkDispatch (m_datas d) (m_globs d) v.

Definition getServlet (uri : string) (d : ServletDispatch) : option Servlet :=
  match m_datas d !! uri with None => None | Some s => s end.

Fixpoint find_glob (uri : string) (l : list (string * option Servlet)) : option Servlet :=
  match l with
  | [] => None
  | it :: r => if bool_decide (it.1 = uri) then it.2 else find_glob uri r
  end.

Definition getGlobServlet (uri : string) (d : ServletDispatch) : option Servlet :=
  find_glob uri (m_globs d).

Fixpoint match_glob (uri : string) (l : list (string * option Servlet)) (def : option Servlet)
  : option Servlet :=
  match l with
  | [] => def
  | it :: r => if fnmatch (c_str it.1) (c_str uri) then it.2 else match_glob uri r def
  end.

Definition getMatchServlet (uri : string) (d : ServletDispatch) : option Servlet :=
  match m_datas d !! uri with
  | Some s => s
  | None => match_glob uri (m_globs d) (m_default d)
  end.

Definition handle (d : ServletDispatch) (c : Ctx) : Ctx * Z :=
  let '(req, _, _) := c in
  match getMatchServlet (m_path req) d with
  | Some slt => ((Servlet_handle slt c).1, 0)
  | None => (c, 0)
  end.

(** ** The routes as a function of the history *)

Inductive route_op : Type :=
  | AddServlet (uri : string) (slt : option Servlet)
  | AddGlob (uri : string) (slt : option Servlet)
  | DelServlet (uri : string)
  | DelGlob (uri : string).

Definition route (d : ServletDispatch) (o : route_op) : ServletDispatch :=
  match o with
  | AddServlet u s => addServlet u s d
  | AddGlob u s => addGlobServlet u s d
  | DelServlet u => delServlet u d
  | DelGlob u => delGlobServlet u d
  end.

(** The last servlet added for the path, and what follows. *)
Fixpoint last_added (uri : string) (os : list route_op) : option (option Servlet) :=
  match os with
  | [] => None
  | o :: r =>
      match last_added uri r with
      | Some s => Some s
      | None => match o with
                | AddServlet u s => if bool_decide (u = uri) then Some s else None
                | _ => None
                end
      end
  end.

(** The pattern is added anew, or deleted with [delServlet], in [os]. *)
Fixpoint touched (uri : string) (os : list route_op) : bool :=
  match os with
  | [] => false
  | AddGlob u _ :: r | DelServlet u :: r => bool_decide (u = uri) || touched uri r
  | _ :: r => touched uri r
  end.

(** The additions of patterns that nothing later replaces, in their order. *)
Fixpoint live_globs (os : list route_op) : list (string * option Servlet) :=
  match os with
  | [] => []
  | AddGlob u s :: r => if touched u r then live_globs r else (u, s) :: live_globs r
  | _ :: r => live_globs r
  end.

Lemma touched_app uri l l' : touched uri (l ++ l') = touched uri l || touched uri l'.
Proof.
  induction l as [|o l IH]; [reflexivity|]. destruct o; simpl; rewrite IH; rewrite ?orb_assoc; reflexivity.
Qed.

Lemma erase_live uri l :
  erase_glob uri (live_globs l)
  = live_globs (l ++ [DelServlet uri]).
Proof.
  induction l as [|o l IH]; [reflexivity|]. destruct o as [u s|u s|u|u]; simpl; try exact IH.
  rewrite touched_app. simpl. rewrite orb_false_r. destruct (touched u l) eqn:E; simpl; [exact IH|].
  rewrite (bool_decide_ext (u = uri) (uri = u)) by (split; congruence).
  case_bool_decide as Eu; [|rewrite IH; reflexivity]. subst u. rewrite <- IH.
  clear IH. revert E. induction l as [|o l IH]; [reflexivity|].
  destruct o as [u s'|u s'|u|u]; simpl; try exact IH; rewrite orb_false_iff; intros [E1 E2].
  - destruct (touched u l); [auto|]. simpl.
    apply bool_decide_eq_false in E1. rewrite bool_decide_eq_false_2 by congruence. f_equal. auto.
  - auto.
Qed.

Lemma live_add uri s l : live_globs (l ++ [AddGlob uri s]) = live_globs (l ++ [DelServlet uri]) ++ [(uri, s)].
Proof.
  induction l as [|o l IH]; [reflexivity|]. destruct o as [u s'|u s'|u|u]; simpl; try exact IH.
  rewrite !touched_app. simpl. rewrite !orb_false_r. destruct (_ || _); [exact IH|].
  rewrite IH. reflexivity.
Qed.

Lemma last_added_snoc uri l o :
  last_added uri (l ++ [o])
  = match o with
    | AddServlet u s => if bool_decide (u = uri) then Some s else last_added uri l
    | _ => last_added uri l
    end.
Proof.
  induction l as [|o' l IH]; simpl.
  - destruct o; try reflexivity; case_bool_decide; reflexivity.
  - rewrite IH. destruct o; try reflexivity; case_bool_decide; reflexivity.
Qed.

Lemma routes_of_history os :
  let d := fold_left route os ServletDispatch_new in
  (forall uri, m_datas d !! uri = last_added uri os) /\ m_globs d = live_globs os
  /\ m_default d = Some (NotFounfServlet_new "sylar_lzh/1.0.0").
Proof.
  induction os as [|o os (IH1 & IH2 & IH3)] using rev_ind; [repeat split; intros; apply lookup_empty|].
  rewrite fold_left_app. cbn [fold_left]. set (d := fold_left route os ServletDispatch_new) in *.
  destruct o as [u s|u s|u|u]; simpl.
  - split; [|split; [rewrite IH2|exact IH3]].
    + intros uri. rewrite last_added_snoc. case_bool_decide as E.
      * subst. apply lookup_insert_eq.
      * rewrite lookup_insert_ne by assumption. apply IH1.
    + clear. induction os as [|o os IH]; [reflexivity|].
      destruct o; simpl; rewrite ?touched_app; simpl; rewrite ?orb_false_r, <- ?IH; reflexivity.
  - split; [intros uri; rewrite last_added_snoc; apply IH1|]. split; [|exact IH3].
    rewrite live_add, <- erase_live, IH2. reflexivity.
  - split; [intros uri; rewrite last_added_snoc; apply IH1|]. split; [|exact IH3].
    rewrite <- erase_live, IH2. reflexivity.
  - split; [intros uri; rewrite last_added_snoc; apply IH1|]. split; [|exact IH3].
    etransitivity; [exact IH2|]. clear. induction os as [|o os IH]; [reflexivity|].
    destruct o; simpl; rewrite ?touched_app; simpl; rewrite ?orb_false_r, <- ?IH; reflexivity.
Qed.
End servlet.
Arguments Servlet : clear implicits.
Arguments ServletDispatch : clear implicits.
Arguments Ctx : clear implicits.

Lemma match_glob_find {Session} fnmatch uri (l : list (string * option (Servlet Session))) def :
  match_glob fnmatch uri l def
  = match List.find (fun it => fnmatch (c_str it.1) (c_str uri)) l with Some it => it.2 | None => def end.
Proof.
  induction l as [|it l IH]; simpl; [reflexivity|]. destruct (fnmatch _ _); [reflexivity|exact IH].
Qed.

(** C40: Where a request goes, after any sequence of additions and deletions on
    a new dispatcher: to the servlet last added for exactly its path, if one
    ever was, for no deletion removes it; otherwise to the oldest live pattern
    that matches the path, a pattern being live until it is added again (which
    moves it to the end) or named in [delServlet]; otherwise the response becomes
    the 404 page.  The result is always 0. *)
Theorem dispatch_by_history {Session} fnmatch (os : list (@route_op Session)) req rsp (ss : Session) :
  let d := fold_left route os ServletDispatch_new in
  let found := List.find (fun it => fnmatch (c_str it.1) (c_str (m_path req))) (live_globs os) in
  let run s := match s with
               | Some slt => ((Servlet_handle slt (req, rsp, ss)).1, 0)
               | None => ((req, rsp, ss), 0)
               end in
  match last_added (m_path req) os, found with
  | Some s, _ => handle fnmatch d (req, rsp, ss) = run s
  | None, Some it => handle fnmatch d (req, rsp, ss) = run it.2
  | None, None => exists rsp', handle fnmatch d (req, rsp, ss) = ((req, rsp', ss), 0)
      /\ HttpResponse.m_status rsp' = 404 /\ HttpResponse.m_version rsp' = HttpResponse.m_version rsp
      /\ NotFounfServlet_new "sylar_lzh/1.0.0" = @NotFounfServlet Session (HttpResponse.m_body rsp')
  end.
Proof.
  intros d found run. destruct (routes_of_history os) as (H1 & H2 & H3). fold d in H1, H2, H3.
  unfold handle, getMatchServlet. rewrite H1. destruct (last_added (m_path req) os) as [[s|]|]; try reflexivity.
  rewrite match_glob_find, H2, H3. fold found. destruct found as [it|].
  - unfold run. destruct it.2; reflexivity.
  - cbn [Servlet_handle NotFounfServlet_new NotFound_handle fst]. eexists. split; [reflexivity|].
    repeat split.
Qed.

(** A path that was added stays routed after it was deleted. *)
Example deleted_path_is_still_served {Session} fnmatch (s : Servlet Session) :
  getMatchServlet fnmatch "/a" (delGlobServlet "/a" (delServlet "/a" (addServlet "/a" (Some s) ServletDispatch_new)))
  = Some s.
Proof. reflexivity. Qed.
