(* ===== verification/Config.v ===== *)
(** * Configuration variables (sylar/config.h, sylar/config.cpp)

    A variable has a type, a value and listeners; the registry maps names to
    variables.  Variables are never removed, so a pointer to one is its name.
    The types of C++ are codes [Ty] with values [V]; FromStr and ToStr of a type
    are parameters of the registry ([None] is an exception), the conversions of
    the containers that the header gives are defined over the conversions of the
    elements and over the YAML library (Load and operator<<).  What a listener is
    told is kept as a trace. *)

From Stdlib Require Import ZArith Lia Ascii String List.
From stdpp Require Import base list strings gmap.
From S2P Require Import Prelude Ordered CString.

Local Open Scope string_scope.
Local Open Scope list_scope.
Local Open Scope Z_scope.

(** ** YAML nodes *)

Inductive Node : Type :=
  | Null
  | Scalar (s : string)
  | Sequence (l : list Node)
  | Map (l : list (string * Node)).

Definition IsMap (n : Node) : bool := match n with Map _ => true | _ => false end.
Definition IsScalar (n : Node) : bool := match n with Scalar _ => true | _ => false end.

(** [find_first_not_of(...) == npos]: the digit 9 is not in the list. *)
Definition name_letters : string := "abcdefghijklmnopqrstuvwxyz._012345678".
Definition valid_name (s : string) : bool :=
  forallb (fun c => bool_decide (c ∈ list_ascii_of_string name_letters)) (list_ascii_of_string s).

(** [prefix.empty() ? key : prefix + "." + key] *)
Definition join (prefix key : string) : string :=
  if bool_decide (prefix = "") then key else (prefix ++ "." ++ key)%string.

Fixpoint ListAllMember (prefix : string) (node : Node) : list (string * Node) :=
  if valid_name prefix then
    (prefix, node) :: match node with
                      | Map l => flat_map (fun kn => ListAllMember (join prefix kn.1) kn.2) l
                      | _ => []
                      end
  else [].

(** [std::transform(..., ::tolower)] *)
Definition lower (c : ascii) : ascii := ascii_of_N (Z.to_N (tolower c)).
Fixpoint lower_string (s : string) : string :=
  match s with EmptyString => "" | String c r => String (lower c) (lower_string r) end.

(** ** Conversions of containers *)

Definition obind_opt {A B} (o : option A) (k : A -> option B) : option B :=
  match o with Some a => k a | None => None end.

Section casts.
Context (Load : string -> option Node) (emit : Node -> string).
(** What the library gives for a map that is indexed by the numbers below its size. *)
Context (index_map : list (string * Node) -> option (list Node)).
Context {T : Type} (from : string -> option T) (to : T -> option string).

(** The elements that [node[i]] for [i < node.size()] gives. *)
Definition elements_of (n : Node) : option (list Node) :=
  match n with
  | Sequence l => Some l
  | Map (_ :: _ as l) => index_map l
  | Map [] | Null | Scalar _ => Some []
  end.

(** [vector] and [list] from a text: each element is written and converted. *)
Definition cast_to_vector (v : string) : option (list T) :=
  obind_opt (Load v) (fun node =>
  obind_opt (elements_of node) (fun l => mapM (fun n => from (emit n)) l)).

(** A node is null until something is pushed. *)
Definition cast_from_vector (v : list T) : option string :=
  obind_opt (mapM (fun i => obind_opt (to i) Load) v) (fun ns =>
  Some (emit (match ns with [] => Null | _ => Sequence ns end))).

(** [set<T>]: the elements in the order [lt], the first of equals stays. *)
Context (lt : T -> T -> bool).
Definition cast_to_set (v : string) : option (list T) :=
  obind_opt (cast_to_vector v) (fun l => Some (fold_left (fun m x => set_insert lt x m) l [])).
Definition cast_from_set (v : list T) : option string := cast_from_vector v.

(** [map<string, T>]: the pairs in the order of the keys, the first of a key
    stays; the elements of a sequence are no pairs, which throws. *)
Definition pairs_of (n : Node) : option (list (string * Node)) :=
  match n with Map l => Some l | Sequence (_ :: _) => None | _ => Some [] end.

Definition cast_to_map (v : string) : option (list (string * T)) :=
  obind_opt (Load v) (fun node =>
  obind_opt (pairs_of node) (fun ps =>
  obind_opt (mapM (fun kn => obind_opt (from (emit kn.2)) (fun x => Some (kn.1, x))) ps) (fun l =>
  Some (fold_left (fun m kx => set_insert (entry_lt String.ltb) kx m) l [])))).

Definition cast_from_map (v : list (string * T)) : option string :=
  obind_opt (mapM (fun kx => obind_opt (to kx.2) (fun s => obind_opt (Load s) (fun n => Some (kx.1, n)))) v) (fun l =>
  Some (emit (Map l))).
End casts.

(** ** The registry *)

Section config.
Context {Ty V : Type} `{EqDecision Ty, EqDecision V}.
Context (FromStr : Ty -> string -> option V) (ToStr : Ty -> V -> option string) (emit : Node -> string).

Record ConfigVar : Type := mkVar {
  m_type : Ty;
  m_name : string;
  m_description : string;
  m_val : V;
  m_cbs : list (Z * nat)
}.

Record Config : Type := mkConfig {
  datas : gmap string ConfigVar;
  (** [s_func_id], one for each type *)
  func_ids : Ty -> Z;
  (** variable, key and function of the listener, old and new value *)
  calls : list (string * Z * nat * V * V)
}.

Definition Config_new : Config := mkConfig ∅ (fun _ => 0) [].

Definition ConfigVar_new (t : Ty) (name : string) (default_value : V) (description : string) : ConfigVar :=
  mkVar t (lower_string name) description default_value [].

Definition set_val (v : V) (x : ConfigVar) : ConfigVar :=
  mkVar (m_type x) (m_name x) (m_description x) v (m_cbs x).
Definition set_cbs (l : list (Z * nat)) (x : ConfigVar) : ConfigVar :=
  mkVar (m_type x) (m_name x) (m_description x) (m_val x) l.
Definition put (name : string) (x : ConfigVar) (c : Config) : Config :=
  mkConfig (<[name := x]> (datas c)) (func_ids c) (calls c).

Definition toString (x : ConfigVar) : string := match ToStr (m_type x) (m_val x) with Some s => s | None => "" end.

(** [var->setValue(v)] of the variable [x] named [name]. *)
Definition setValue (name : string) (v : V) (c : Config) : Config :=
  match datas c !! name with
  | None => c
  | Some x =>
      if decide (v = m_val x) then c
      else mkConfig (<[name := set_val v x]> (datas c)) (func_ids c)
             (calls c ++ map (fun cb => (name, cb.1, cb.2, m_val x, v)) (m_cbs x))
  end.

(** It returns false on every path. *)
Definition fromString (name : string) (str : string) (c : Config) : Config * bool :=
  match datas c !! name with
  | None => (c, false)
  | Some x => match FromStr (m_type x) str with
              | Some v => (setValue name v c, false)
              | None => (c, false)
              end
  end.

Definition addListener (name : string) (cb : nat) (c : Config) : Config * Z :=
  match datas c !! name with
  | None => (c, 0)
  | Some x =>
      let id := u64 (func_ids c (m_type x) + 1) in
      (mkConfig (<[name := set_cbs (map_set Z.ltb id cb (m_cbs x)) x]> (datas c))
         (fun t => if decide (t = m_type x) then id else func_ids c t) (calls c), id)
  end.

Definition delListener (name : string) (key : Z) (c : Config) : Config :=
  match datas c !! name with
  | None => c
  | Some x => put name (set_cbs (map_erase Z.ltb key (m_cbs x)) x) c
  end.

Definition getListener (name : string) (key : Z) (c : Config) : option nat :=
  match datas c !! name with
  | None => None
  | Some x => option_map snd (map_find Z.ltb key (m_cbs x))
  end.

Definition clearListeners (name : string) (c : Config) : Config :=
  match datas c !! name with None => c | Some x => put name (set_cbs [] x) c end.

(** [Lookup<T>(name, default, description)]: the variable as its name; a name in
    use by another type gives a null pointer. *)
Definition Lookup_create (t : Ty) (name : string) (default_value : V) (description : string) (c : Config)
  : Config * outcome (option string) :=
  match datas c !! name with
  | Some x => if decide (m_type x = t) then (c, Ret (Some name)) else (c, Ret None)
  | None =>
      if negb (valid_name name) then (c, Throw InvalidArgument)
      else (put name (ConfigVar_new t name default_value description) c, Ret (Some name))
  end.

Definition Lookup (t : Ty) (name : string) (c : Config) : option string :=
  match datas c !! name with
  | Some x => if decide (m_type x = t) then Some name else None
  | None => None
  end.

Definition LookupBase (name : string) (c : Config) : option ConfigVar := datas c !! name.

(** The text that a node is converted from. *)
Definition text_of (n : Node) : string := match n with Scalar s => s | _ => emit n end.

(** One entry of the flattened tree. *)
Definition load_entry (c : Config) (i : string * Node) : Config :=
  if bool_decide (i.1 = "") then c
  else
    let key := lower_string i.1 in
    match LookupBase key c with
    | None => c
    | Some _ => (fromString key (text_of i.2) c).1
    end.

Definition LoadFromYaml (root : Node) (c : Config) : Config :=
  fold_left load_entry (ListAllMember "" root) c.

(** The variables that [Visit] calls back with, in the order of the table. *)
Definition Visit (c : Config) : list ConfigVar := map snd (map_to_list (datas c)).
End config.
