(* ===== verification/ConfigSpec.v ===== *)
(** * Properties of the configuration registry

    What LoadFromYaml does to a variable in terms of the paths of the document,
    the invariant of the registry, and what a listener is told in a run. *)

From Stdlib Require Import ZArith Lia Ascii String List.
From stdpp Require Import base list strings gmap.
From S2P Require Import Prelude Ordered CString Config.

Local Open Scope string_scope.
Local Open Scope list_scope.
Local Open Scope Z_scope.

(** ** Names *)

Lemma valid_name_append s t : valid_name (s ++ t)%string = valid_name s && valid_name t.
Proof. unfold valid_name. rewrite chars_append, forallb_app. reflexivity. Qed.

Lemma valid_join p k : valid_name (join p k) = valid_name p && valid_name k.
Proof.
  unfold join. case_bool_decide as E; [subst; reflexivity|].
  rewrite !valid_name_append. reflexivity.
Qed.

Lemma valid_lower s : valid_name s = true -> lower_string s = s.
Proof.
  unfold valid_name. induction s as [|c s IH]; simpl; [reflexivity|].
  rewrite andb_true_iff. intros [Hc Hs]. rewrite IH by assumption. f_equal.
  apply bool_decide_eq_true in Hc. clear -Hc. revert c Hc. apply Forall_forall.
  repeat (constructor; [reflexivity|]). constructor.
Qed.

(** ** Paths of a document *)

Section node_ind.
Context (P : Node -> Prop) (Hnull : P Null) (Hscalar : forall s, P (Scalar s))
  (Hseq : forall l, Forall P l -> P (Sequence l)) (Hmap : forall l, Forall (fun kn => P kn.2) l -> P (Map l)).

Fixpoint node_full_ind (n : Node) : P n :=
  match n with
  | Null => Hnull
  | Scalar s => Hscalar s
  | Sequence l => Hseq l ((fix go (l : list Node) : Forall P l :=
                             match l with
                             | [] => List.Forall_nil _
                             | n :: r => List.Forall_cons _ n r (node_full_ind n) (go r)
                             end) l)
  | Map l => Hmap l ((fix go (l : list (string * Node)) : Forall (fun kn => P kn.2) l :=
                        match l with
                        | [] => List.Forall_nil _
                        | kn :: r => List.Forall_cons _ kn r (node_full_ind kn.2) (go r)
                        end) l)
  end.
End node_ind.

Inductive reaches : Node -> list string -> Node -> Prop :=
  | reach_here n : reaches n [] n
  | reach_in l k n ks m : (k, n) ∈ l -> reaches n ks m -> reaches (Map l) (k :: ks) m.

(** The name of a path below a prefix. *)
Definition path_name (prefix : string) (ks : list string) : string := fold_left join ks prefix.

Lemma list_all_paths root : forall prefix name m,
  (name, m) ∈ ListAllMember prefix root <->
  valid_name prefix = true /\
  exists ks, reaches root ks m /\ name = path_name prefix ks /\ Forall (fun k => valid_name k = true) ks.
Proof.
  assert (Hleaf : forall n, (forall l, n <> Map l) -> forall prefix name m,
    (name, m) ∈ ListAllMember prefix n <-> valid_name prefix = true /\
    exists ks, reaches n ks m /\ name = path_name prefix ks /\ Forall (fun k => valid_name k = true) ks).
  { intros n Hn prefix name m.
    replace (ListAllMember prefix n) with (if valid_name prefix then [(prefix, n)] else [])
      by (destruct n; try reflexivity; edestruct Hn; reflexivity).
    destruct (valid_name prefix); split; intros H.
    - apply list_elem_of_singleton in H. simplify_eq. split; [reflexivity|].
      exists []. repeat constructor.
    - destruct H as (_ & ks & Hr & -> & _). inversion Hr; subst; [set_solver|]. edestruct Hn; reflexivity.
    - set_solver.
    - destruct H; discriminate. }
  induction root as [|s|l _|l IH] using node_full_ind; [apply Hleaf; discriminate ..|].
  intros prefix name m. simpl. destruct (valid_name prefix) eqn:Hv; [|split; [set_solver|intros [? _]; discriminate]].
  rewrite elem_of_cons, list_elem_of_In, in_flat_map. split.
  - intros [[= -> ->]|([k n] & Hin & H)].
    + split; [reflexivity|]. exists []. repeat constructor.
    + rewrite Forall_forall in IH. apply list_elem_of_In in Hin, H.
      apply (IH _ Hin) in H as (Hk & ks & Hr & -> & Hks). simpl in *. rewrite valid_join, Hv in Hk.
      split; [reflexivity|]. exists (k :: ks). split; [|split; [reflexivity|constructor; assumption]].
      econstructor; eassumption.
  - intros (_ & ks & Hr & -> & Hks). inversion Hr as [|? k n ks' ? Hin Hr']; subst; [left; reflexivity|].
    right. exists (k, n). split; [apply list_elem_of_In, Hin|]. apply list_elem_of_In.
    rewrite Forall_forall in IH. apply (IH _ Hin). inversion Hks; subst.
    simpl. rewrite valid_join, Hv. eauto.
Qed.

Lemma list_all_valid prefix root name m : (name, m) ∈ ListAllMember prefix root -> valid_name name = true.
Proof.
  intros (Hv & ks & _ & -> & Hks)%list_all_paths. unfold path_name. revert prefix Hv.
  induction Hks as [|k ks Hk _ IH]; simpl; intros p Hp; [assumption|].
  apply IH. rewrite valid_join, Hp, Hk. reflexivity.
Qed.

(** ** Loading a document *)

Section config.
Context {Ty V : Type} `{EqDecision Ty, EqDecision V}.
Context (FromStr : Ty -> string -> option V) (emit : Node -> string).

Lemma set_val_same (x : ConfigVar (Ty:=Ty) (V:=V)) : set_val (m_val x) x = x.
Proof. destruct x; reflexivity. Qed.

Lemma setValue_lookup name v k (c : Config (Ty:=Ty) (V:=V)) :
  datas (setValue name v c) !! k =
  (if bool_decide (name = k) then set_val v else id) <$> datas c !! k.
Proof.
  unfold setValue. destruct (datas c !! name) as [x|] eqn:E; cycle 1.
  { case_bool_decide; subst; [rewrite E; reflexivity|]. destruct (datas c !! k); reflexivity. }
  destruct (decide (v = m_val x)) as [->|Hv]; simpl.
  - case_bool_decide; subst; [rewrite E; simpl; rewrite set_val_same; reflexivity|].
    destruct (datas c !! k); reflexivity.
  - case_bool_decide; subst; [rewrite lookup_insert_eq, E; reflexivity|].
    rewrite lookup_insert_ne by assumption. destruct (datas c !! k); reflexivity.
Qed.

(** What one entry does to the variable named [key]. *)
Definition entry_effect (key : string) (x : ConfigVar (Ty:=Ty) (V:=V)) (i : string * Node) : ConfigVar :=
  if bool_decide (i.1 = key) then
    match FromStr (m_type x) (text_of emit i.2) with Some v => set_val v x | None => x end
  else x.

Lemma load_entry_cases i (c : Config (Ty:=Ty) (V:=V)) :
  load_entry FromStr emit c i = c \/
  exists x v, i.1 <> "" /\ datas c !! lower_string i.1 = Some x /\
    FromStr (m_type x) (text_of emit i.2) = Some v /\
    load_entry FromStr emit c i = setValue (lower_string i.1) v c.
Proof.
  unfold load_entry, fromString, LookupBase. case_bool_decide as E; [left; reflexivity|].
  destruct (datas c !! lower_string i.1) as [x|] eqn:Hx; [|left; reflexivity].
  destruct (FromStr _ _) as [v|] eqn:Hv; [|left; reflexivity]. right. exists x, v. split_and!; auto.
Qed.

Lemma load_entry_lookup key i (c : Config (Ty:=Ty) (V:=V)) :
  key <> "" -> valid_name i.1 = true ->
  datas (load_entry FromStr emit c i) !! key = (fun x => entry_effect key x i) <$> datas c !! key.
Proof.
  intros Hkey Hi. unfold load_entry, entry_effect.
  case_bool_decide as Hemp.
  { rewrite Hemp, bool_decide_eq_false_2 by congruence. destruct (datas c !! key); reflexivity. }
  rewrite (valid_lower _ Hi). unfold fromString, LookupBase.
  case_bool_decide as E.
  - subst key. destruct (datas c !! i.1) as [x|] eqn:Ex; simpl; [|exact Ex].
    destruct (FromStr _ _); simpl; [|exact Ex].
    rewrite setValue_lookup, Ex, bool_decide_eq_true_2 by reflexivity. reflexivity.
  - destruct (datas c !! i.1) as [x|]; simpl; [|destruct (datas c !! key); reflexivity].
    destruct (FromStr _ _); simpl; [|destruct (datas c !! key); reflexivity].
    rewrite setValue_lookup, bool_decide_eq_false_2 by congruence. destruct (datas c !! key); reflexivity.
Qed.

Lemma load_entries_lookup key l (c : Config (Ty:=Ty) (V:=V)) :
  key <> "" -> Forall (fun i => valid_name i.1 = true) l ->
  datas (fold_left (load_entry FromStr emit) l c) !! key = (fun x => fold_left (entry_effect key) l x) <$> datas c !! key.
Proof.
  intros Hkey Hl. revert c. induction Hl as [|i l Hi _ IH]; intros c; simpl.
  - destruct (datas c !! key); reflexivity.
  - rewrite IH, (load_entry_lookup key) by assumption. destruct (datas c !! key); reflexivity.
Qed.

(** An entry that is convertible for the variable. *)
Definition gives (key : string) (t : Ty) (i : string * Node) (v : V) : Prop :=
  i.1 = key /\ FromStr t (text_of emit i.2) = Some v.

Lemma entry_effect_keeps key x i :
  m_type (entry_effect key x i) = m_type x /\ m_name (entry_effect key x i) = m_name x /\
  m_description (entry_effect key x i) = m_description x /\ m_cbs (entry_effect key x i) = m_cbs x.
Proof. unfold entry_effect. case_bool_decide; [destruct (FromStr _ _)|]; auto. Qed.

Lemma entry_effect_cases key x i :
  (exists v, gives key (m_type x) i v /\ entry_effect key x i = set_val v x) \/
  ((forall v, ~ gives key (m_type x) i v) /\ entry_effect key x i = x).
Proof.
  unfold entry_effect, gives. case_bool_decide; [destruct (FromStr _ _) as [v|] eqn:E|].
  - left. exists v. auto.
  - right. split; [intros v [_ ?]; congruence|reflexivity].
  - right. split; [intros v [? _]; contradiction|reflexivity].
Qed.

(** The last convertible entry decides. *)
Lemma entries_effect key l x :
  let y := fold_left (entry_effect key) l x in
  (m_type y = m_type x /\ m_name y = m_name x /\ m_description y = m_description x /\ m_cbs y = m_cbs x) /\
  ((m_val y = m_val x /\ forall i v, i ∈ l -> ~ gives key (m_type x) i v) \/
   exists l1 i l2 v, l = l1 ++ i :: l2 /\ gives key (m_type x) i v /\ m_val y = v /\
     forall j w, j ∈ l2 -> ~ gives key (m_type x) j w).
Proof.
  simpl. induction l as [|i l IH] using rev_ind; simpl.
  { split; [auto|]. left. split; [reflexivity|]. set_solver. }
  rewrite fold_left_app. simpl. destruct IH as [(Ht & Hn & Hd & Hc) IH].
  set (y := fold_left _ l x) in *. destruct (entry_effect_keeps key y i) as (Kt & Kn & Kd & Kc).
  split; [rewrite Kt, Kn, Kd, Kc; auto|].
  destruct (entry_effect_cases key y i) as [(v & Hg & Hy)|(Hi & Hy)]; rewrite Ht in *; rewrite Hy.
  { right. exists l, i, [], v. split_and!; [reflexivity|assumption|reflexivity|set_solver]. }
  destruct IH as [[Hv Hno]|(l1 & i1 & l2 & v & -> & Hg & Hv & Hno)].
  - left. split; [assumption|]. intros j v [?| ->%list_elem_of_singleton]%elem_of_app; eauto.
  - right. exists l1, i1, (l2 ++ [i]), v. rewrite <- app_assoc. split_and!; try assumption; [reflexivity|].
    intros j w [?| ->%list_elem_of_singleton]%elem_of_app; eauto.
Qed.

Lemma load_entries_none key l (c : Config (Ty:=Ty) (V:=V)) :
  datas (fold_left (load_entry FromStr emit) l c) !! key = None <-> datas c !! key = None.
Proof.
  revert c. induction l as [|i l IH]; intros c; simpl; [reflexivity|]. rewrite IH.
  destruct (load_entry_cases i c) as [->|(x & v & _ & _ & _ & ->)]; [reflexivity|].
  rewrite setValue_lookup. apply fmap_None.
Qed.

(** The path [ks] of the document spells [key] and its text converts to [v]. *)
Definition path_gives (root : Node) (key : string) (t : Ty) (ks : list string) (v : V) : Prop :=
  exists m, reaches root ks m /\ Forall (fun k => valid_name k = true) ks /\ path_name "" ks = key /\
    FromStr t (text_of emit m) = Some v.

(** C33: LoadFromYaml creates and removes no variable and leaves types, names,
    descriptions and listeners alone.  The value of a variable stays when no path
    of the document, its keys joined by dots and made of the letters of the
    check, spells its name with a text of its type; otherwise it is the value of
    such a path, the last one in the order of the flattened document. *)
Theorem yaml_load root (c : Config (Ty:=Ty) (V:=V)) key :
  key <> "" ->
  let c' := LoadFromYaml FromStr emit root c in
  (forall k, datas c' !! k = None <-> datas c !! k = None) /\
  forall x, datas c !! key = Some x ->
  exists y, datas c' !! key = Some y /\
    (m_type y = m_type x /\ m_name y = m_name x /\ m_description y = m_description x /\ m_cbs y = m_cbs x) /\
    ((m_val y = m_val x /\ forall ks v, ~ path_gives root key (m_type x) ks v) \/
     (exists ks, path_gives root key (m_type x) ks (m_val y)) /\
     exists l1 i l2, ListAllMember "" root = l1 ++ i :: l2 /\ gives key (m_type x) i (m_val y) /\
       forall j w, j ∈ l2 -> ~ gives key (m_type x) j w).
Proof.
  intros Hkey c'. unfold c', LoadFromYaml. split; [intros k; apply load_entries_none|].
  intros x Hx. rewrite load_entries_lookup, Hx; [|assumption|].
  2: { apply Forall_forall. intros [n m] Hin. exact (list_all_valid _ _ _ _ Hin). }
  destruct (entries_effect key (ListAllMember "" root) x) as [Hk Hv].
  eexists. split; [reflexivity|]. split; [exact Hk|].
  destruct Hv as [[Hv Hno]|(l1 & i & l2 & v & El & Hg & Hv & Hno)].
  - left. split; [exact Hv|]. intros ks v (m & Hr & Hks & Hn & Ht).
    apply (Hno (key, m) v); [|split; auto]. apply list_all_paths. split; [reflexivity|]. exists ks. auto.
  - right. rewrite <- Hv in Hg. split; [|exists l1, i, l2; auto].
    assert (Hin : i ∈ ListAllMember "" root) by (rewrite El; set_solver).
    destruct i as [n m], Hg as [Hn Ht]. simpl in *. subst n.
    apply list_all_paths in Hin as (_ & ks & Hr & Hn & Hks). exists ks, m. auto.
Qed.
End config.

Definition two_types (t : bool) (s : string) : option (bool * string) :=
  if t then Some (true, s) else if decide (s = "on") then Some (false, s) else None.

Lemma yaml_load_witness :
  let root := Map [("log", Map [("level", Scalar "off"); ("file", Scalar "a")]); ("log.level", Scalar "on")] in
  let c := fst (Lookup_create false "log.level" (false, "x") "" Config_new) in
  option_map m_val (datas (LoadFromYaml two_types (fun _ => "") root c) !! "log.level") = Some (false, "on") /\
  (forall k, datas (LoadFromYaml two_types (fun _ => "") root c) !! k = None <-> datas c !! k = None).
Proof.
  intros root c. split; [reflexivity|]. refine (proj1 (yaml_load two_types (fun _ => "") root c "log.level" _)).
  discriminate.
Defined.
