(* ===== verification/ConfigRun.v ===== *)
(** * Runs of the configuration registry

    Clients look variables up by type and name, set them, load documents and
    register listeners.  The invariant of the registry in every run, and what a
    listener is told from its registration on. *)

From Stdlib Require Import ZArith Lia Ascii String List.
From stdpp Require Import base list strings gmap.
From S2P Require Import Prelude Ordered CString Config ConfigSpec.

Local Open Scope string_scope.
Local Open Scope list_scope.
Local Open Scope Z_scope.

#[local] Instance Zltb_strict : StrictWeak Z.ltb.
Proof. split; intros; rewrite ?Z.ltb_lt, ?Z.ltb_ge in *; lia. Qed.

Lemma same_keyb_Z a b : same_keyb Z.ltb a b = bool_decide (a = b).
Proof.
  apply Bool.eq_iff_eq_true. rewrite same_keyb_spec, bool_decide_eq_true. unfold same_key.
  rewrite !Z.ltb_ge. lia.
Qed.

Section runs.
Context {Ty V : Type} `{EqDecision Ty, EqDecision V}.
Context (FromStr : Ty -> string -> option V) (emit : Node -> string).
(** The values of a type; conversions give values of their type. *)
Context (has_type : Ty -> V -> Prop)
  (from_typed : forall t s v, FromStr t s = Some v -> has_type t v).

Abbreviation Config := (Config (Ty:=Ty) (V:=V)).

Inductive op : Type :=
  | OLookup (t : Ty) (name : string) (default_value : V) (description : string)
  | OSet (t : Ty) (name : string) (v : V)
  | OLoad (root : Node)
  | OAdd (name : string) (cb : nat)
  | ODel (name : string) (key : Z)
  | OClear (name : string).

(** [Lookup<T>(name)->setValue(v)] for a variable of that type. *)
Definition do_op (c : Config) (o : op) : Config :=
  match o with
  | OLookup t name v d => (Lookup_create t name v d c).1
  | OSet t name v => match Lookup t name c with Some n => setValue n v c | None => c end
  | OLoad root => LoadFromYaml FromStr emit root c
  | OAdd name cb => (addListener name cb c).1
  | ODel name key => delListener name key c
  | OClear name => clearListeners name c
  end.

Definition run (ops : list op) (c : Config) : Config := fold_left do_op ops c.

Definition op_typed (o : op) : Prop :=
  match o with OLookup t _ v _ | OSet t _ v => has_type t v | _ => True end.

(** ** The invariant *)

Record var_ok (ids : Ty -> Z) (name : string) (x : ConfigVar (Ty:=Ty) (V:=V)) : Prop := {
  vo_name : m_name x = name /\ valid_name name = true;
  vo_type : has_type (m_type x) (m_val x);
  vo_keys : sorted (entry_lt Z.ltb) (m_cbs x);
  vo_ids : forall k cb, (k, cb) ∈ m_cbs x -> 0 < k <= ids (m_type x)
}.

(** [n] counts the calls so far; keys are counted in 64 bits. *)
Record config_ok (n : nat) (c : Config) : Prop := {
  co_vars : map_Forall (var_ok (func_ids c)) (datas c);
  co_ids : forall t, 0 <= func_ids c t <= Z.of_nat n
}.

Lemma var_ok_mono ids ids' name x : (forall t, ids t <= ids' t) -> var_ok ids name x -> var_ok ids' name x.
Proof.
  intros Hle [H1 H2 H3 H4]. split; try assumption. intros k cb Hin. specialize (H4 _ _ Hin).
  specialize (Hle (m_type x)). lia.
Qed.

Lemma config_ok_put n name x c :
  config_ok n c -> var_ok (func_ids c) name x -> config_ok n (put name x c).
Proof. intros [H1 H2] Hx. split; [|exact H2]. simpl. apply map_Forall_insert_2; assumption. Qed.

Lemma config_ok_set n name v x c :
  config_ok n c -> datas c !! name = Some x -> has_type (m_type x) v -> config_ok n (setValue name v c).
Proof.
  intros Hc Hx Hv. unfold setValue. rewrite Hx. destruct (decide _) as [_|_]; [assumption|].
  destruct (co_vars n c Hc name x Hx) as [H1 H2 H3 H4].
  destruct (config_ok_put n name (set_val v x) c Hc) as [K1 K2]; [split; assumption|].
  split; assumption.
Qed.

(** Loading a document is a sequence of typed [setValue]s. *)
Lemma load_ind (P : Config -> Prop) root c :
  (forall name x v c, P c -> datas c !! name = Some x -> has_type (m_type x) v -> P (setValue name v c)) ->
  P c -> P (LoadFromYaml FromStr emit root c).
Proof.
  intros Hset. unfold LoadFromYaml. generalize (ListAllMember "" root) as l. intros l. revert c.
  induction l as [|i l IH]; intros c Hc; simpl; [assumption|]. apply IH.
  destruct (load_entry_cases FromStr emit i c) as [->|(x & v & _ & Hx & Hv & ->)]; [assumption|].
  eapply Hset; eauto.
Qed.

Lemma var_ok_add n c name x cb id :
  config_ok n c -> datas c !! name = Some x -> id = func_ids c (m_type x) + 1 ->
  config_ok (S n) (mkConfig (<[name := set_cbs (map_set Z.ltb id cb (m_cbs x)) x]> (datas c))
    (fun t => if decide (t = m_type x) then id else func_ids c t) (calls c)).
Proof.
  intros [H1 H2] Hx Hid. destruct (H1 _ _ Hx) as [Hn Ht Hk Hi]. split; simpl.
  - apply map_Forall_insert_2.
    + split; simpl; [assumption|assumption|apply map_set_sorted; assumption || apply _|].
      intros k cb' Hin. rewrite decide_True by reflexivity.
      specialize (H2 (m_type x)).
      apply elem_map_set in Hin as [[E1 E2]|Hin]; [|specialize (Hi _ _ Hin); lia | apply _].
      simpl in *. rewrite Z.ltb_ge in *. lia.
    + intros k y Hy. apply (var_ok_mono (func_ids c)); [|exact (H1 _ _ Hy)].
      intros t. destruct (decide _); subst; lia.
  - intros t. specialize (H2 t). destruct (decide _); subst; lia.
Qed.

Lemma config_ok_op n o c :
  config_ok n c -> op_typed o -> Z.of_nat n < 2 ^ 64 - 1 -> config_ok (S n) (do_op c o).
Proof.
  intros Hc Ho Hn.
  assert (Hup : forall c', config_ok n c' -> config_ok (S n) c').
  { intros c' [H1 H2]. split; [assumption|]. intros t. specialize (H2 t). lia. }
  destruct o as [t name v d|t name v|root|name cb|name key|name]; simpl in *.
  - apply Hup. unfold Lookup_create. destruct (datas c !! name) as [x|] eqn:Hx; [destruct (decide _); assumption|].
    destruct (valid_name name) eqn:Hv; simpl; [|assumption]. apply config_ok_put; [assumption|].
    unfold ConfigVar_new. rewrite valid_lower by assumption. split; simpl; [auto|assumption|constructor|set_solver].
  - apply Hup. unfold Lookup. destruct (datas c !! name) as [x|] eqn:Hx; [|assumption].
    destruct (decide _) as [<-|_]; [|assumption]. eapply config_ok_set; eassumption.
  - apply Hup. apply load_ind; [|assumption]. intros. eapply config_ok_set; eassumption.
  - unfold addListener. destruct (datas c !! name) as [x|] eqn:Hx; simpl; [|auto].
    apply (var_ok_add n c); [assumption|assumption|]. pose proof (co_ids n c Hc (m_type x)).
    apply uwrap_id. unfold u_range. lia.
  - apply Hup. unfold delListener. destruct (datas c !! name) as [x|] eqn:Hx; [|assumption].
    apply config_ok_put; [assumption|]. destruct (co_vars n c Hc _ _ Hx) as [? ? ? Hi].
    split; simpl; try assumption; [apply map_erase_sorted; assumption || apply _|].
    intros k cb Hin. eapply Hi, elem_of_submseteq; [exact Hin|]. apply sublist_submseteq, map_erase_sublist.
  - apply Hup. unfold clearListeners. destruct (datas c !! name) as [x|] eqn:Hx; [|assumption].
    apply config_ok_put; [assumption|]. destruct (co_vars n c Hc _ _ Hx).
    split; simpl; try assumption; [constructor|set_solver].
Qed.

Lemma config_ok_run ops : forall n c,
  config_ok n c -> Forall op_typed ops -> Z.of_nat (n + length ops) < 2 ^ 64 ->
  config_ok (n + length ops) (run ops c).
Proof.
  induction ops as [|o ops IH]; intros n c Hc Hty Hn; simpl in *; [rewrite Nat.add_0_r; assumption|].
  inversion Hty; subst. rewrite Nat.add_succ_r in *. apply (IH (S n)); [|assumption|lia].
  apply config_ok_op; [assumption|assumption|lia].
Qed.

Lemma config_ok_new : config_ok 0 Config_new.
Proof. split; [apply map_Forall_empty|simpl; lia]. Qed.

(** Variables are never removed and keep their type. *)
Lemma op_keeps o c name x :
  datas c !! name = Some x -> exists y, datas (do_op c o) !! name = Some y /\ m_type y = m_type x.
Proof.
  assert (Hset : forall k v (c : Config) x, datas c !! name = Some x ->
    exists y, datas (setValue k v c) !! name = Some y /\ m_type y = m_type x).
  { intros k v c' x' Hx. rewrite setValue_lookup, Hx. simpl. eexists. split; [reflexivity|].
    case_bool_decide; reflexivity. }
  assert (Hput : forall k (z : ConfigVar (Ty:=Ty) (V:=V)), (k = name -> m_type z = m_type x) -> datas c !! name = Some x ->
    exists y, datas (put k z c) !! name = Some y /\ m_type y = m_type x).
  { intros k z Hz Hx. simpl. destruct (decide (k = name)) as [->|E].
    - rewrite lookup_insert_eq. eauto.
    - rewrite lookup_insert_ne by assumption. eauto. }
  intros Hx. destruct o as [t k v d|t k v|root|k cb|k key|k]; simpl.
  - unfold Lookup_create. destruct (datas c !! k) as [z|] eqn:Hk; [destruct (decide _); eauto|].
    destruct (negb _); [eauto|]. apply Hput; [congruence|assumption].
  - unfold Lookup. destruct (datas c !! k); [destruct (decide _)|]; eauto.
  - apply (load_ind (fun c => exists y, datas c !! name = Some y /\ m_type y = m_type x)); [|eauto].
    intros k z v c' (y & Hy & <-) _ _. apply Hset. exact Hy.
  - unfold addListener. destruct (datas c !! k) as [z|] eqn:Hk; [|eauto]. apply (Hput k); [|assumption].
    intros ->. simpl. congruence.
  - unfold delListener. destruct (datas c !! k) as [z|] eqn:Hk; [|eauto]. apply Hput; [|assumption].
    intros ->. simpl. congruence.
  - unfold clearListeners. destruct (datas c !! k) as [z|] eqn:Hk; [|eauto]. apply Hput; [|assumption].
    intros ->. simpl. congruence.
Qed.

Lemma run_keeps ops : forall c name x,
  datas c !! name = Some x -> exists y, datas (run ops c) !! name = Some y /\ m_type y = m_type x.
Proof.
  induction ops as [|o ops IH]; intros c name x Hx; simpl; [eauto|].
  destruct (op_keeps o c name x Hx) as (y & Hy & <-). apply IH. exact Hy.
Qed.

(** C34: in every run with less than 2^64 calls whose values have the types that
    they are given for, each variable is in the table under its own, valid name
    and holds a value of its type, its listeners have distinct keys that were
    given out; and a variable that was found once is found under its name and
    type ever after, and under no other type. *)
Theorem config_invariant ops ops' name x :
  Forall op_typed (ops ++ ops') -> Z.of_nat (length (ops ++ ops')) < 2 ^ 64 ->
  datas (run ops Config_new) !! name = Some x ->
  (m_name x = name /\ valid_name name = true /\ has_type (m_type x) (m_val x) /\ NoDup (m_cbs x).*1 /\
   Forall (fun k => 0 < k < 2 ^ 64) (m_cbs x).*1) /\
  forall t, Lookup t name (run (ops ++ ops') Config_new) = if decide (m_type x = t) then Some name else None.
Proof.
  intros Hty Hn Hx. apply Forall_app in Hty as [Hty Hty']. rewrite length_app in Hn.
  destruct (config_ok_run ops 0 Config_new config_ok_new Hty ltac:(lia)) as [Hv Hi].
  destruct (Hv _ _ Hx) as [[H1 H2] H3 H4 H5]. split.
  - split_and!; try assumption.
    + apply NoDup_alt. intros i j k Hik Hjk. rewrite list_lookup_fmap in Hik, Hjk.
      apply fmap_Some in Hik as (p & Hp & ->), Hjk as (q & Hq & E).
      apply (sorted_keys_distinct Z.ltb (m_cbs x) i j p q H4 Hp Hq). rewrite E. apply same_key_refl, _.
    + apply Forall_fmap, Forall_forall. intros [k cb] Hin. simpl. specialize (H5 _ _ Hin).
      specialize (Hi (m_type x)). simpl in Hi. lia.
  - intros t. unfold run, Lookup. rewrite fold_left_app.
    destruct (run_keeps ops' _ _ _ Hx) as (y & Hy & Et). unfold run in Hy. rewrite Hy, Et. reflexivity.
Qed.

(** ** What a listener is told *)

Abbreviation call := (string * Z * nat * V * V)%type.

Definition told (name : string) (id : Z) (l : list call) : list call :=
  filter (fun e : call => e.1.1.1.1 = name /\ e.1.1.1.2 = id) l.

(** Changes that lead from one value to another. *)
Inductive history : V -> list (V * V) -> V -> Prop :=
  | history_nil v : history v [] v
  | history_cons v w l u : v <> w -> history w l u -> history v ((v, w) :: l) u.

Lemma history_snoc v l w u : history v l w -> w <> u -> history v (l ++ [(w, u)]) u.
Proof. intros H Hne. induction H; simpl; repeat constructor; auto. Qed.

Lemma told_other name id name' old v (l : list (Z * nat)) :
  (name' = name -> forall k cb, (k, cb) ∈ l -> k <> id) ->
  told name id (map (fun cb => (name', cb.1, cb.2, old, v)) l) = [].
Proof.
  induction l as [|[k cb] l IH]; intros Hl; simpl; [reflexivity|]. unfold told in *.
  rewrite filter_cons_False.
  - apply IH. intros E k' cb' Hin. apply (Hl E k' cb'). set_solver.
  - simpl. intros [E1 E2]. apply (Hl E1 k cb); [set_solver|assumption].
Qed.

Lemma told_map name id old v (l : list (Z * nat)) :
  sorted (entry_lt Z.ltb) l ->
  told name id (map (fun cb => (name, cb.1, cb.2, old, v)) l) =
  match map_get Z.ltb id l with Some cb => [(name, id, cb, old, v)] | None => [] end.
Proof.
  induction l as [|[k cb] l IH]; intros Hs; [reflexivity|].
  destruct (sorted_cons_inv _ _ _ Hs) as [Hr Hgt]. unfold map_get. simpl map_find.
  assert (Hbig : id <= k -> told name id (map (fun cb => (name, cb.1, cb.2, old, v)) l) = []).
  { intros Hle. apply told_other. intros _ k' cb' Hin. specialize (Hgt _ Hin). unfold entry_lt in Hgt.
    simpl in Hgt. apply Z.ltb_lt in Hgt. lia. }
  unfold told in *. destruct (k <? id) eqn:E1; [|destruct (id <? k) eqn:E2];
    rewrite ?Z.ltb_lt, ?Z.ltb_ge in *; simpl.
  - rewrite filter_cons_False by (simpl; lia). apply IH, Hr.
  - rewrite filter_cons_False by (simpl; lia). apply Hbig. lia.
  - assert (k = id) as -> by lia. rewrite filter_cons_True by auto. rewrite Hbig by lia. reflexivity.
Qed.

Section listener.
Context (name : string) (id : Z) (cb : option nat) (base : list call) (v0 : V).

(** The key [id] has been given out and stands for [cb]; since the trace was
    [base] the value went through [h] and the listener, if any, was told so. *)
Definition attached (c : Config) : Prop :=
  exists x h, datas c !! name = Some x /\ map_get Z.ltb id (m_cbs x) = cb /\ id <= func_ids c (m_type x) /\
    history v0 h (m_val x) /\
    told name id (calls c) =
      base ++ match cb with Some f => map (fun p => (name, id, f, p.1, p.2)) h | None => [] end.

(** The calls that leave the listener in place. *)
Definition op_keeps_listener (o : op) : Prop :=
  match o with
  | ODel k i => k = name /\ i = id -> cb = None
  | OClear k => k = name -> cb = None
  | _ => True
  end.

Lemma attached_set n k v c : config_ok n c -> attached c -> attached (setValue k v c).
Proof.
  intros Hc (x & h & Hx & Hg & Hid & Hh & Ht). destruct (co_vars n c Hc _ _ Hx) as [_ _ Hs _].
  unfold setValue. destruct (datas c !! k) as [z|] eqn:Hz; [|exists x, h; auto 10].
  destruct (decide (v = m_val z)) as [|Hne]; [exists x, h; auto 10|]. destruct (decide (k = name)) as [->|E].
  - rewrite Hx in Hz. injection Hz as <-. exists (set_val v x), (h ++ [(m_val x, v)]). simpl.
    rewrite lookup_insert_eq. split_and!; auto; [apply history_snoc; auto|].
    unfold told in *. rewrite filter_app, Ht. fold (told name id (map (fun c => (name, c.1, c.2, m_val x, v)) (m_cbs x))).
    rewrite told_map, Hg by assumption. destruct cb; rewrite ?map_app, ?app_nil_r, <- ?app_assoc; reflexivity.
  - exists x, h. simpl. rewrite lookup_insert_ne by assumption. split_and!; auto.
    unfold told in *. rewrite filter_app, Ht. fold (told name id (map (fun c => (k, c.1, c.2, m_val z, v)) (m_cbs z))).
    rewrite told_other, app_nil_r by (intros; contradiction). reflexivity.
Qed.

(** A change of the listeners of one variable that keeps this one. *)
Lemma attached_cbs c c' k z l :
  attached c -> datas c !! k = Some z -> datas c' = <[k := set_cbs l z]> (datas c) -> calls c' = calls c ->
  (forall t, func_ids c t <= func_ids c' t) ->
  (k = name -> map_get Z.ltb id (m_cbs z) = cb -> id <= func_ids c (m_type z) -> map_get Z.ltb id l = cb) ->
  attached c'.
Proof.
  intros (x & h & Hx & Hg & Hid & Hh & Ht) Hz Hd Hc Hf Hl.
  assert (Hle : id <= func_ids c' (m_type x)) by (specialize (Hf (m_type x)); lia).
  unfold attached. rewrite Hd, Hc. destruct (decide (k = name)) as [->|E].
  - rewrite Hx in Hz. injection Hz as <-. exists (set_cbs l x), h. rewrite lookup_insert_eq. auto 10.
  - exists x, h. rewrite lookup_insert_ne by assumption. auto 10.
Qed.

Lemma attached_op n o c :
  config_ok n c -> op_typed o -> Z.of_nat n < 2 ^ 64 - 1 -> op_keeps_listener o -> attached c -> attached (do_op c o).
Proof.
  intros Hc Ho Hn Hk Ha.
  destruct o as [t k v d|t k v|root|k f|k i|k]; simpl in *.
  - unfold Lookup_create. destruct (datas c !! k) as [z|] eqn:Hz; [destruct (decide _); assumption|].
    destruct (negb _); [assumption|]. destruct Ha as (x & h & Hx & Ha). exists x, h. simpl.
    rewrite lookup_insert_ne by congruence. auto.
  - unfold Lookup. destruct (datas c !! k); [destruct (decide _)|]; try assumption. eapply attached_set; eassumption.
  - apply (load_ind (fun c => config_ok n c /\ attached c)); [|auto].
    intros k z v c' [Hc' Ha'] Hz Hv. split; [eapply config_ok_set|eapply attached_set]; eassumption.
  - unfold addListener. destruct (datas c !! k) as [z|] eqn:Hz; [|assumption].
    destruct (co_vars n c Hc _ _ Hz) as [_ _ Hs _]. pose proof (co_ids n c Hc (m_type z)).
    rewrite uwrap_id by (unfold u_range; lia). eapply attached_cbs; [eassumption|eassumption|reflexivity|reflexivity| |].
    + simpl. intros t. destruct (decide _); subst; lia.
    + intros -> Hg Hid. rewrite map_get_set by (apply _ || assumption). rewrite same_keyb_Z, bool_decide_eq_false_2 by lia. assumption.
  - unfold delListener. destruct (datas c !! k) as [z|] eqn:Hz; [|assumption].
    destruct (co_vars n c Hc _ _ Hz) as [_ _ Hs _].
    eapply attached_cbs; [eassumption|eassumption|reflexivity|reflexivity|reflexivity|].
    intros -> Hg _. rewrite map_get_erase by (apply _ || assumption). rewrite same_keyb_Z. case_bool_decide; [|assumption].
    symmetry. auto.
  - unfold clearListeners. destruct (datas c !! k) as [z|] eqn:Hz; [|assumption].
    eapply attached_cbs; [eassumption|eassumption|reflexivity|reflexivity|reflexivity|].
    intros -> _ _. symmetry. auto.
Qed.

Lemma attached_run ops : forall n c,
  config_ok n c -> Forall op_typed ops -> Z.of_nat (n + length ops) < 2 ^ 64 -> Forall op_keeps_listener ops ->
  attached c -> attached (run ops c).
Proof.
  induction ops as [|o ops IH]; intros n c Hc Hty Hn Hk Ha; simpl in *; [assumption|].
  inversion Hty; inversion Hk; subst. apply (IH (S n)); [|assumption|lia|assumption|].
  - apply config_ok_op; [assumption|assumption|lia].
  - apply (attached_op n); [assumption|assumption|lia|assumption|assumption].
Qed.
End listener.

(** A listener is attached when it is added, and its key is free once it is deleted. *)
Lemma attached_add n c name cb x :
  config_ok n c -> Z.of_nat n < 2 ^ 64 - 1 -> datas c !! name = Some x ->
  let id := (addListener name cb c).2 in
  attached name id (Some cb) (told name id (calls c)) (m_val x) (addListener name cb c).1.
Proof.
  intros Hc Hn Hx. destruct (co_vars _ _ Hc _ _ Hx) as [_ _ Hs _]. pose proof (co_ids _ _ Hc (m_type x)).
  unfold addListener. rewrite Hx. simpl. rewrite uwrap_id by (unfold u_range; lia).
  eexists _, []. simpl. rewrite lookup_insert_eq, app_nil_r. split_and!; [reflexivity| | |constructor|reflexivity].
  - simpl. rewrite map_get_set by (apply _ || assumption). rewrite same_keyb_refl by apply _. reflexivity.
  - simpl. rewrite decide_True by reflexivity. lia.
Qed.

Lemma attached_del n c name id x :
  config_ok n c -> datas c !! name = Some x -> id <= func_ids c (m_type x) ->
  attached name id None (told name id (calls c)) (m_val x) (delListener name id c).
Proof.
  intros Hc Hx Hle. destruct (co_vars _ _ Hc _ _ Hx) as [_ _ Hs _]. unfold delListener. rewrite Hx.
  eexists _, []. simpl. rewrite lookup_insert_eq, app_nil_r. split_and!; [reflexivity| |exact Hle|constructor|reflexivity].
  simpl. rewrite map_get_erase by (apply _ || assumption). rewrite same_keyb_refl by apply _. reflexivity.
Qed.

(** C35: a listener that is added after any run and neither deleted nor cleared is
    found under its key, and what it is told by whatever follows, documents
    loaded and other listeners added included, is the history of the variable:
    changes that lead without a gap from the value at its registration to the
    present one, each told once, in order.  Once it is deleted it is told nothing
    in any continuation, since its key is not given out again. *)
Theorem listener_history ops1 ops2 ops3 name cb x0 :
  let c0 := run ops1 Config_new in
  let c1 := (addListener name cb c0).1 in
  let id := (addListener name cb c0).2 in
  let c2 := run ops2 c1 in
  let c3 := run ops3 (delListener name id c2) in
  Forall op_typed (ops1 ++ ops2 ++ ops3) -> Z.of_nat (2 + length (ops1 ++ ops2 ++ ops3)) < 2 ^ 64 ->
  datas c0 !! name = Some x0 -> Forall (op_keeps_listener name id (Some cb)) ops2 ->
  (exists x2 h, datas c2 !! name = Some x2 /\ getListener name id c2 = Some cb /\
    history (m_val x0) h (m_val x2) /\
    told name id (calls c2) = told name id (calls c0) ++ map (fun p => (name, id, cb, p.1, p.2)) h) /\
  told name id (calls c3) = told name id (calls c2).
Proof.
  intros c0 c1 id c2 c3 Hty Hn Hx Hk.
  apply Forall_app in Hty as [Hty1 Hty]. apply Forall_app in Hty as [Hty2 Hty3]. rewrite !length_app in Hn.
  pose proof (config_ok_run ops1 0 Config_new config_ok_new Hty1 ltac:(lia)) as Hc0. fold c0 in Hc0.
  pose proof (config_ok_op _ (OAdd name cb) c0 Hc0 I ltac:(lia)) as Hc1.
  change (do_op c0 (OAdd name cb)) with c1 in Hc1.
  pose proof (config_ok_run ops2 _ _ Hc1 Hty2 ltac:(lia)) as Hc2. fold c2 in Hc2.
  pose proof (attached_run _ _ _ _ _ ops2 _ _ Hc1 Hty2 ltac:(lia) Hk
    (attached_add _ _ _ cb _ Hc0 ltac:(lia) Hx)) as (x2 & h & Hx2 & Hg & Hle & Hh & Ht).
  fold c2 in Hx2, Ht, Hle. split.
  { exists x2, h. split_and!; try assumption. unfold getListener. rewrite Hx2. exact Hg. }
  pose proof (config_ok_op _ (ODel name id) c2 Hc2 I ltac:(lia)) as Hc2'.
  assert (Hall : Forall (op_keeps_listener name id None) ops3)
    by (apply Forall_forall; intros [] _; simpl; auto).
  pose proof (attached_run _ _ _ _ _ ops3 _ _ Hc2' Hty3 ltac:(lia) Hall (attached_del _ _ _ _ _ Hc2 Hx2 Hle))
    as (x3 & h3 & _ & _ & _ & _ & E).
  rewrite app_nil_r in E. exact E.
Qed.
End runs.

Lemma two_types_typed t s v : two_types t s = Some v -> fst v = t.
Proof. unfold two_types. destruct t; [|destruct (decide _); [|discriminate]]; intros [= <-]; reflexivity. Qed.

Lemma config_invariant_witness :
  let ops := [OLookup true "log.file" (true, "a") "d"; OAdd "log.file" 7%nat] in
  let ops' := [OLoad (Map [("log", Map [("file", Scalar "b")])])] in
  Lookup true "log.file" (run two_types (fun _ => "") (ops ++ ops') Config_new) = Some "log.file".
Proof.
  intros ops ops'.
  refine (eq_trans (proj2 (config_invariant two_types (fun _ => "") (fun t v => fst v = t) two_types_typed ops ops' "log.file"
    (mkVar true "log.file" "d" (true, "a") [(1, 7%nat)]) _ _ _) true) _).
  - repeat constructor.
  - reflexivity.
  - reflexivity.
  - reflexivity.
Defined.

Lemma listener_history_witness :
  let ops1 := [OLookup true "log.file" (true, "a") "d"] in
  let ops2 := [OLoad (Map [("log", Map [("file", Scalar "b")])]); OAdd "log.file" 8%nat; OSet true "log.file" (true, "c")] in
  let ops3 := [OSet true "log.file" (true, "e")] in
  let c1 := fst (addListener "log.file" 7%nat (run two_types (fun _ => "") ops1 Config_new)) in
  let c2 := run two_types (fun _ => "") ops2 c1 in
  told "log.file" 1 (calls c2) =
    [("log.file", 1, 7%nat, (true, "a"), (true, "b")); ("log.file", 1, 7%nat, (true, "b"), (true, "c"))] /\
  told "log.file" 1 (calls (run two_types (fun _ => "") ops3 (delListener "log.file" 1 c2))) = told "log.file" 1 (calls c2).
Proof.
  intros ops1 ops2 ops3 c1 c2. split; [reflexivity|].
  refine (proj2 (listener_history two_types (fun _ => "") (fun t v => fst v = t) two_types_typed ops1 ops2 ops3
    "log.file" 7%nat (mkVar true "log.file" "d" (true, "a") []) _ _ _ _)).
  - repeat constructor.
  - reflexivity.
  - reflexivity.
  - repeat constructor.
Defined.
