(* ===== verification/ConfigCasts.v ===== *)
(** * Round trips of the container conversions of config.h

    A conversion pair is faithful when a value survives being written and read
    through the YAML library; the conversions of vectors, sets and maps are
    faithful when those of the elements are, so nested containers are too. *)

From Stdlib Require Import ZArith Lia Ascii String List Sorted DecimalString DecimalPos Decimal.
From stdpp Require Import base list strings gmap countable.
From S2P Require Import Prelude Ordered CString Config ConfigSpec.

Local Open Scope string_scope.
Local Open Scope list_scope.

(** What the YAML library promises of nodes without repeated keys: a node that
    is written is read back. *)
Class Yaml (Load : string -> option Node) (emit : Node -> string) : Prop := {
  load_null : Load (emit Null) = Some Null;
  load_scalar s : Load (emit (Scalar s)) = Some (Scalar s);
  load_sequence l : Forall (fun n => Load (emit n) = Some n) l -> Load (emit (Sequence l)) = Some (Sequence l);
  load_map l : NoDup l.*1 -> Forall (fun kn => Load (emit kn.2) = Some kn.2) l -> Load (emit (Map l)) = Some (Map l)
}.

#[global] Instance ltb_strict : StrictWeak String.ltb.
Proof.
  assert (Hlt : forall a b, String.ltb a b = true <-> String.compare a b = Lt).
  { intros a b. unfold String.ltb. destruct (String.compare a b); split; congruence. }
  assert (Htr : forall a b c, String.ltb a b = true -> String.ltb b c = true -> String.ltb a c = true).
  { intros a b c. rewrite !Hlt. revert b c.
    induction a as [|x a IH]; intros [|y b] [|z c]; simpl; try congruence.
    destruct (Ascii.compare x y) eqn:E1, (Ascii.compare y z) eqn:E2; try congruence;
      unfold Ascii.compare in *; rewrite ?N.compare_eq_iff, ?N.compare_lt_iff in *;
      destruct (N_of_ascii x ?= N_of_ascii z)%N eqn:E3; rewrite ?N.compare_gt_iff, ?N.compare_eq_iff in E3;
      try lia; try congruence; try (rewrite N.compare_lt_iff in E3; lia); eauto. }
  split; [|exact Htr|].
  - intros a. apply not_true_is_false. rewrite Hlt.
    pose proof (String.compare_antisym a a) as H. destruct (String.compare a a); simpl in H; congruence.
  - intros a b c Hab. destruct (String.compare a c) eqn:E; [| left; apply Hlt, E |].
    + apply String.compare_eq_iff in E. subst. auto.
    + right. apply (Htr c a b); [|assumption]. apply Hlt. rewrite String.compare_antisym, E. reflexivity.
Qed.

Section insert_sorted.
Context {E : Type} (lt : E -> E -> bool) `{!StrictWeak lt}.

Lemma set_insert_last x m : (forall y, y ∈ m -> lt y x = true) -> set_insert lt x m = m ++ [x].
Proof.
  induction m as [|y m IH]; simpl; intros H; [reflexivity|].
  rewrite (H y) by set_solver. rewrite IH by set_solver. reflexivity.
Qed.

Lemma fold_insert_sorted l : forall m, sorted lt (m ++ l) -> fold_left (fun m x => set_insert lt x m) l m = m ++ l.
Proof.
  induction l as [|x l IH]; intros m Hs; simpl; [rewrite app_nil_r; reflexivity|].
  rewrite set_insert_last.
  - rewrite (IH (m ++ [x])), <- app_assoc; [reflexivity|]. rewrite <- app_assoc. exact Hs.
  - intros y Hy. destruct (sorted_app_inv lt m (x :: l) Hs) as (_ & _ & H). apply H; set_solver.
Qed.
End insert_sorted.

Section casts.
Context (Load : string -> option Node) (emit : Node -> string) (index_map : list (string * Node) -> option (list Node)).
Context `{!Yaml Load emit}.

(** The value [x] is written as a text that the library reads as a node, and
    the text of that node converts back to [x]. *)
Definition survives {T} (from : string -> option T) (to : T -> option string) (x : T) : Prop :=
  exists n, obind_opt (to x) Load = Some n /\ Load (emit n) = Some n /\ from (emit n) = Some x.

Lemma survives_all {T} (from : string -> option T) to l :
  Forall (survives from to) l ->
  exists ns, mapM (fun i => obind_opt (to i) Load) l = Some ns /\
    Forall (fun n => Load (emit n) = Some n) ns /\ mapM (fun n => from (emit n)) ns = Some l.
Proof.
  induction 1 as [|x l (n & H1 & H2 & H3) _ (ns & K1 & K2 & K3)]; [exists []; auto|].
  exists (n :: ns). simpl. rewrite H1, K1. simpl. rewrite H3. simpl. rewrite K3. auto.
Qed.

Lemma survives_pairs {T} (from : string -> option T) to (l : list (string * T)) :
  Forall (fun kx => survives from to kx.2) l ->
  exists ps, mapM (fun kx => obind_opt (to kx.2) (fun s => obind_opt (Load s) (fun n => Some (kx.1, n)))) l = Some ps /\
    ps.*1 = l.*1 /\ Forall (fun kn => Load (emit kn.2) = Some kn.2) ps /\
    mapM (fun kn => obind_opt (from (emit kn.2)) (fun x => Some (kn.1, x))) ps = Some l.
Proof.
  induction 1 as [|[k x] l (n & H1 & H2 & H3) _ (ps & K1 & K2 & K3 & K4)]; [exists []; auto|].
  exists ((k, n) :: ps). simpl in *. destruct (to x) as [s|]; [|discriminate]. simpl in *.
  rewrite H1, K1. simpl. rewrite H3. simpl. rewrite K4. split_and!; auto. f_equal. exact K2.
Qed.

Lemma vector_survives {T} (from : string -> option T) to l :
  Forall (survives from to) l ->
  exists n, obind_opt (cast_from_vector Load emit to l) Load = Some n /\ Load (emit n) = Some n /\
    cast_to_vector Load emit index_map from (emit n) = Some l.
Proof.
  intros (ns & H1 & H2 & H3)%survives_all. unfold cast_from_vector, cast_to_vector. rewrite H1. simpl.
  exists (match ns with [] => Null | _ => Sequence ns end).
  assert (Hl : Load (emit (match ns with [] => Null | _ => Sequence ns end)) = Some (match ns with [] => Null | _ => Sequence ns end))
    by (destruct ns; [apply load_null|apply load_sequence, H2]).
  rewrite Hl. split_and!; [reflexivity|reflexivity|]. simpl.
  replace (elements_of _ _) with (Some ns) by (destruct ns; reflexivity). exact H3.
Qed.

(** C36: the conversions of the containers keep faithful conversions faithful: a
    vector whose elements survive being written and read, a set that is in order,
    a map with its keys in order, written by LexicalCast and read back through
    the YAML library, come back as they were.  The statement composes, so that
    vectors of maps of sets survive too. *)
Theorem containers_survive {T} (from : string -> option T) to (lt : T -> T -> bool) :
  (forall l, Forall (survives from to) l ->
     survives (cast_to_vector Load emit index_map from) (cast_from_vector Load emit to) l) /\
  (StrictWeak lt -> forall l, Forall (survives from to) l -> sorted lt l ->
     survives (cast_to_set Load emit index_map from lt) (cast_from_set Load emit to) l) /\
  (forall m, Forall (fun kx => survives from to kx.2) m -> sorted (entry_lt String.ltb) m ->
     survives (cast_to_map Load emit from) (cast_from_map Load emit to) m).
Proof.
  split_and!.
  - intros l Hl. exact (vector_survives from to l Hl).
  - intros Hlt l Hl Hs. destruct (vector_survives from to l Hl) as (n & H1 & H2 & H3). exists n.
    split_and!; [exact H1|exact H2|]. unfold cast_to_set. rewrite H3. simpl. f_equal.
    exact (fold_insert_sorted lt l [] Hs).
  - intros m Hm Hs. destruct (survives_pairs from to m Hm) as (ps & H1 & H2 & H3 & H4).
    assert (Hl : Load (emit (Map ps)) = Some (Map ps)).
    { apply load_map; [|exact H3]. rewrite H2. apply NoDup_alt. intros i j k Hi Hj.
      rewrite list_lookup_fmap in Hi, Hj. apply fmap_Some in Hi as (p & Hp & ->), Hj as (q & Hq & E).
      apply (sorted_keys_distinct String.ltb m i j p q Hs Hp Hq). rewrite E. apply same_key_refl, _. }
    unfold cast_from_map, cast_to_map. exists (Map ps). rewrite H1. simpl. rewrite Hl. simpl. rewrite H4. simpl.
    split_and!; [reflexivity|reflexivity|]. f_equal. exact (fold_insert_sorted (entry_lt String.ltb) m [] Hs).
Qed.
End casts.

(** A library that keeps the promise: nodes numbered in decimal. *)

Fixpoint node_tree (n : Node) : gen_tree string :=
  match n with
  | Null => GenNode 0 []
  | Scalar s => GenLeaf s
  | Sequence l => GenNode 1 (map node_tree l)
  | Map l => GenNode 2 (map (fun kn => GenNode 3 [GenLeaf kn.1; node_tree kn.2]) l)
  end.

Fixpoint tree_node (t : gen_tree string) : Node :=
  match t with
  | GenLeaf s => Scalar s
  | GenNode 1 l => Sequence (map tree_node l)
  | GenNode 2 l => Map (map (fun t => match t with GenNode _ [GenLeaf k; u] => (k, tree_node u) | _ => ("", Null) end) l)
  | GenNode _ _ => Null
  end.

Definition decimal_emit (n : Node) : string := NilEmpty.string_of_uint (Pos.to_uint (encode (node_tree n))).
Definition decimal_load (s : string) : option Node :=
  match NilEmpty.uint_of_string s with
  | Some u => match Pos.of_uint u with Npos p => tree_node <$> decode p | N0 => None end
  | None => None
  end.

Lemma tree_node_tree n : tree_node (node_tree n) = n.
Proof.
  induction n as [|s|l IH|l IH] using node_full_ind; simpl; try reflexivity; f_equal; rewrite map_map.
  - induction IH; simpl; congruence.
  - induction IH as [|[k n] l Hn _ IHl]; simpl in *; [reflexivity|]. rewrite Hn, IHl. reflexivity.
Qed.

Lemma decimal_load_emit n : decimal_load (decimal_emit n) = Some n.
Proof.
  unfold decimal_load, decimal_emit. rewrite NilEmpty.usu, DecimalPos.Unsigned.of_to, decode_encode. simpl.
  rewrite tree_node_tree. reflexivity.
Qed.

#[global] Instance decimal_yaml : Yaml decimal_load decimal_emit.
Proof. split; intros; apply decimal_load_emit. Qed.

(** A map of two lists of texts. *)
Lemma containers_survive_witness :
  let from s := match decimal_load s with Some (Scalar t) => Some t | _ => None end in
  let to s := Some (decimal_emit (Scalar s)) in
  survives decimal_load decimal_emit
    (cast_to_map decimal_load decimal_emit (cast_to_vector decimal_load decimal_emit (fun _ => None) from))
    (cast_from_map decimal_load decimal_emit (cast_from_vector decimal_load decimal_emit to))
    [("a", ["x"; "y"]); ("b", [])].
Proof.
  intros from to.
  assert (H : forall s, survives decimal_load decimal_emit from to s).
  { intros s. exists (Scalar s). unfold from, to. simpl. rewrite !decimal_load_emit. auto. }
  apply (proj2 (proj2 (containers_survive decimal_load decimal_emit (fun _ => None) _ _ (fun _ _ => false)))).
  - repeat constructor; apply (proj1 (containers_survive decimal_load decimal_emit (fun _ => None) from to (fun _ _ => false)));
      repeat constructor; apply H.
  - repeat constructor.
Defined.
