(* ===== verification/ConfigUnordered.v ===== *)
(** * The conversions of unordered containers (sylar/config.h)

    An unordered container is its elements in the order of an iteration.  Where
    the hash table puts a new element is [place], of which only is known that it
    loses and adds nothing, so that containers are compared up to a
    permutation. *)

From Stdlib Require Import ZArith Lia Ascii String List.
From stdpp Require Import base list strings sets.
From S2P Require Import Prelude Ordered CString Config ConfigSpec ConfigCasts.

Local Open Scope string_scope.
Local Open Scope list_scope.

Section unordered.
Context {E K : Type} `{EqDecision K} (key : E -> K).

(** What the containers of the library promise of an insertion. *)
Class Place (place : E -> list E -> list E) : Prop := place_perm x l : place x l ≡ₚ x :: l.

Context (place : E -> list E -> list E).

(** [insert]: the first of a key stays. *)
Definition uinsert (x : E) (m : list E) : list E := if bool_decide (key x ∈ map key m) then m else place x m.

Definition uinsert_all (l m : list E) : list E := fold_left (fun m x => uinsert x m) l m.

Context `{!Place place}.

Lemma uinsert_all_perm l : forall m, NoDup (map key (l ++ m)) -> uinsert_all l m ≡ₚ l ++ m.
Proof.
  induction l as [|x l IH]; intros m N; [reflexivity|]. simpl in *. apply NoDup_cons in N as [Hx N].
  assert (E1 : uinsert x m = place x m).
  { unfold uinsert. rewrite bool_decide_eq_false_2; [reflexivity|]. intros Hm. apply Hx. rewrite map_app. set_solver. }
  rewrite E1, IH, (place_perm x m).
  - apply Permutation_sym, Permutation_middle.
  - eapply NoDup_Permutation_proper; [apply Permutation_map, Permutation_app_head, place_perm|].
    rewrite !map_app. simpl. eapply NoDup_Permutation_proper; [apply Permutation_sym, Permutation_middle|].
    apply NoDup_cons. rewrite map_app in Hx, N. auto.
Qed.
End unordered.

Section casts.
Context (Load : string -> option Node) (emit : Node -> string) (index_map : list (string * Node) -> option (list Node)).
Context {T : Type} `{EqDecision T} (from : string -> option T) (to : T -> option string).
Context (place : T -> list T -> list T) (place_pair : string * T -> list (string * T) -> list (string * T)).

(** [unordered_set<T>] *)
Definition cast_to_unordered_set (v : string) : option (list T) :=
  obind_opt (cast_to_vector Load emit index_map from v) (fun l => Some (uinsert_all id place l [])).
Definition cast_from_unordered_set (v : list T) : option string := cast_from_vector Load emit to v.

(** [unordered_map<string, T>] *)
Definition cast_to_unordered_map (v : string) : option (list (string * T)) :=
  obind_opt (Load v) (fun node =>
  obind_opt (pairs_of node) (fun ps =>
  obind_opt (mapM (fun kn => obind_opt (from (emit kn.2)) (fun x => Some (kn.1, x))) ps) (fun l =>
  Some (uinsert_all fst place_pair l [])))).
Definition cast_from_unordered_map (v : list (string * T)) : option string := cast_from_map Load emit to v.

Context `{!Yaml Load emit, !Place place, !Place place_pair}.

(** An unordered set or map, in whatever order it is iterated, is written and
    read back as the same set or map, in perhaps another order. *)
Theorem unordered_survive :
  (forall l, NoDup l -> Forall (survives Load emit from to) l ->
     exists n l', obind_opt (cast_from_unordered_set l) Load = Some n /\
       cast_to_unordered_set (emit n) = Some l' /\ l' ≡ₚ l) /\
  (forall m, NoDup (map fst m) -> Forall (fun kx => survives Load emit from to kx.2) m ->
     exists n m', obind_opt (cast_from_unordered_map m) Load = Some n /\
       cast_to_unordered_map (emit n) = Some m' /\ m' ≡ₚ m).
Proof.
  split.
  - intros l N Hl. destruct (vector_survives Load emit index_map from to l Hl) as (n & H1 & H2 & H3).
    exists n, (uinsert_all id place l []). split; [exact H1|]. unfold cast_to_unordered_set. rewrite H3. split; [reflexivity|].
    rewrite (uinsert_all_perm id place l []), app_nil_r; [reflexivity|]. rewrite app_nil_r, map_id. exact N.
  - intros m N Hm. destruct (survives_pairs Load emit from to m Hm) as (ps & H1 & H2 & H3 & H4).
    assert (Hl : Load (emit (Map ps)) = Some (Map ps)) by (apply load_map; [rewrite H2; exact N|exact H3]).
    exists (Map ps), (uinsert_all fst place_pair m []). unfold cast_from_unordered_map, cast_from_map, cast_to_unordered_map.
    rewrite H1. simpl. rewrite Hl. simpl. rewrite H4. simpl. split; [reflexivity|]. split; [reflexivity|].
    rewrite (uinsert_all_perm fst place_pair m []), app_nil_r; [reflexivity|]. rewrite app_nil_r. exact N.
Qed.
End casts.

(** Elements put at the front, and a map of two texts. *)
#[global] Instance cons_place {E : Type} : Place (E := E) cons.
Proof. intros x l. reflexivity. Qed.

Lemma unordered_survive_witness :
  let from s := match decimal_load s with Some (Scalar t) => Some t | _ => None end in
  let to s := Some (decimal_emit (Scalar s)) in
  exists n l', obind_opt (cast_from_unordered_set decimal_load decimal_emit to ["b"; "a"; "c"]) decimal_load = Some n /\
    cast_to_unordered_set decimal_load decimal_emit (fun _ => None) from cons (decimal_emit n) = Some l' /\ l' ≡ₚ ["b"; "a"; "c"].
Proof.
  intros from to. apply (unordered_survive decimal_load decimal_emit (fun _ => None) from to cons cons).
  - repeat constructor; set_solver.
  - assert (H : forall s, survives decimal_load decimal_emit from to s).
    { intros s. exists (Scalar s). unfold from, to. simpl. rewrite !decimal_load_emit. auto. }
    repeat constructor; apply H.
Defined.
