(* ===== verification/Log.v ===== *)
(** * Log levels, events and the pattern formatter (sylar/log.h, sylar/log.cpp)

    A formatter is the list of items its pattern is taken apart into; the loop of
    LogFormatter::init is written over positions in the pattern, as in the
    source.  Threads, fibers and time are what the event was made with; strftime
    on the local time is a parameter. *)

From Stdlib Require Import ZArith Lia Ascii String List.
From stdpp Require Import base list strings.
From S2P Require Import Prelude CString.

Local Open Scope string_scope.
Local Open Scope list_scope.

(** ** LogLevel *)

Module LogLevel.
Definition UNKNOW : Z := 0.
Definition DEBUG : Z := 1.
Definition INFO : Z := 2.
Definition WARN : Z := 3.
Definition ERROR : Z := 4.
Definition FATAL : Z := 5.

Definition ToString (level : Z) : string :=
  if (level =? DEBUG)%Z then "DEBUG" else if (level =? INFO)%Z then "INFO" else if (level =? WARN)%Z then "WARN"
  else if (level =? ERROR)%Z then "ERROR" else if (level =? FATAL)%Z then "FATAL" else "UNKNOW".

Definition FromString (str : string) : Z :=
  if bool_decide (str = "debug") then DEBUG else if bool_decide (str = "info") then INFO
  else if bool_decide (str = "warn") then WARN else if bool_decide (str = "error") then ERROR
  else if bool_decide (str = "fatal") then FATAL
  else if bool_decide (str = "DEBUG") then DEBUG else if bool_decide (str = "INFO") then INFO
  else if bool_decide (str = "WARN") then WARN else if bool_decide (str = "ERROR") then ERROR
  else if bool_decide (str = "FATAL") then FATAL else UNKNOW.
End LogLevel.

(** ** Events

    The logger of an event is its name, under which it stays in the table. *)

Record LogEvent : Type := mkEvent {
  e_file : string;
  e_line : Z;
  e_threadId : Z;
  e_fiberId : Z;
  e_time : Z;
  e_elapse : Z;
  e_threadName : string;
  e_content : string;
  e_logger : string;
  e_level : Z
}.

Definition LogEvent_new (logger : string) (level : Z) (file : string) (line elapse threadId fiberId time : Z)
  (thread_name : string) : LogEvent :=
  mkEvent file (i32 line) (u32 threadId) (u32 fiberId) (u64 time) (u32 elapse) thread_name "" logger level.

(** [getSS() << s]; [format] does the same with the text of vasprintf, or nothing
    when it fails. *)
Definition event_write (s : string) (e : LogEvent) : LogEvent :=
  mkEvent (e_file e) (e_line e) (e_threadId e) (e_fiberId e) (e_time e) (e_elapse e) (e_threadName e)
    (e_content e ++ s)%string (e_logger e) (e_level e).
Definition event_format (text : option string) (e : LogEvent) : LogEvent :=
  match text with Some s => event_write s e | None => e end.

(** ** Items *)

Inductive FormatItem : Type :=
  | MessageFormatItem
  | LevelFormatItem
  | ElapseFormatItem
  | NameFormatItem
  | ThreadIdFormatItem
  | NewLineFormatItem
  | DateTimeFormatItem (m_format : string)
  | FilenameFormatItem
  | LineFormatItem
  | TabFormatItem
  | FiberIdFormatItem
  | ThreadNameFormatItem
  | StringFormatItem (m_string : string).

#[global] Instance FormatItem_eq_dec : EqDecision FormatItem.
Proof. solve_decision. Defined.

Definition default_time : string := "%Y-%m-%d %H:%M:%S".
Definition DateTimeFormatItem_new (format : string) : FormatItem :=
  DateTimeFormatItem (if bool_decide (format = "") then default_time else format).

Definition newline : string := String "010"%char "".
Definition tab : string := String "009"%char "".

(** A signed number as the stream writes it. *)
Definition sdec (z : Z) : string := if (z <? 0)%Z then ("-" ++ dec (- z))%string else dec z.

Section format.
Context (strftime : string -> Z -> string).

Definition format_item (item : FormatItem) (level : Z) (event : LogEvent) : string :=
  match item with
  | MessageFormatItem => e_content event
  | LevelFormatItem => LogLevel.ToString level
  | ElapseFormatItem => dec (e_elapse event)
  | NameFormatItem => e_logger event
  | ThreadIdFormatItem => dec (e_threadId event)
  | NewLineFormatItem => newline
  | DateTimeFormatItem f => strftime f (e_time event)
  | FilenameFormatItem => e_file event
  | LineFormatItem => sdec (e_line event)
  | TabFormatItem => tab
  | FiberIdFormatItem => dec (e_fiberId event)
  | ThreadNameFormatItem => e_threadName event
  | StringFormatItem s => s
  end.

Definition format_items (items : list FormatItem) (level : Z) (event : LogEvent) : string :=
  fold_left (fun os i => (os ++ format_item i level event)%string) items "".
End format.

(** ** LogFormatter::init *)

Definition isalpha (c : ascii) : bool :=
  ((65 <=? code c) && (code c <=? 90) || (97 <=? code c) && (code c <=? 122))%Z.

(** [substr(pos, len)] *)
Definition substr (p : list ascii) (pos len : nat) : list ascii := take len (drop pos p).

(** The while loop behind a percent sign at [i]: the position behind the
    directive, whether a brace is left open, the name and the format. *)
Fixpoint scan (fuel : nat) (p : list ascii) (i n : nat) (fmt_status : bool) (fmt_begin : nat) (str fmt : list ascii)
  : nat * bool * list ascii * list ascii :=
  match fuel with
  | O => (n, fmt_status, str, fmt)
  | S fuel =>
      match p !! n with
      | None => (n, fmt_status, str, fmt)
      | Some c =>
          if negb fmt_status && (negb (isalpha c) && negb (Ascii.eqb c "{") && negb (Ascii.eqb c "}"))
          then (n, fmt_status, substr p (i + 1) (n - i - 1), fmt)
          else if negb fmt_status && Ascii.eqb c "{"
          then scan fuel p i (n + 1) true n (substr p (i + 1) (n - i - 1)) fmt
          else if fmt_status && Ascii.eqb c "}"
          then (n + 1, false, str, substr p (fmt_begin + 1) (n - fmt_begin - 1))
          else
            let str' := if (n + 1 =? length p)%nat && bool_decide (str = [])
                        then drop (i + 1) p else str in
            scan fuel p i (n + 1) fmt_status fmt_begin str' fmt
      end
  end%nat.

(** What the pattern is taken apart into: texts, and names with a format. *)
Inductive entry : Type :=
  | Text (s : list ascii)
  | Directive (str fmt : list ascii).

Definition flush (nstr : list ascii) : list entry := match nstr with [] => [] | _ => [Text nstr] end.

Definition pattern_error : list ascii := list_ascii_of_string "<<pattern_error>>".

(** The for loop, with the text collected so far. *)
Fixpoint init_loop (fuel : nat) (p : list ascii) (i : nat) (nstr : list ascii) (vec : list entry) (m_error : bool)
  : list entry * bool :=
  match fuel with
  | O => (vec ++ flush nstr, m_error)
  | S fuel =>
      match p !! i with
      | None => (vec ++ flush nstr, m_error)
      | Some c =>
          if negb (Ascii.eqb c "%") then init_loop fuel p (i + 1) (nstr ++ [c]) vec m_error
          else if bool_decide (p !! (i + 1) = Some "%"%char)
          then init_loop fuel p (i + 1) (nstr ++ ["%"%char]) vec m_error
          else
            match scan (length p) p i (i + 1) false 0 [] [] with
            | (n, false, str, fmt) => init_loop fuel p n [] (vec ++ flush nstr ++ [Directive str fmt]) m_error
            | (n, true, str, fmt) => init_loop fuel p (i + 1) nstr (vec ++ [Text pattern_error]) true
            end
      end
  end%nat.

(** [s_format_items] *)
Definition format_item_of (str fmt : string) : option FormatItem :=
  if bool_decide (str = "m") then Some MessageFormatItem
  else if bool_decide (str = "p") then Some LevelFormatItem
  else if bool_decide (str = "r") then Some ElapseFormatItem
  else if bool_decide (str = "c") then Some NameFormatItem
  else if bool_decide (str = "t") then Some ThreadIdFormatItem
  else if bool_decide (str = "n") then Some NewLineFormatItem
  else if bool_decide (str = "d") then Some (DateTimeFormatItem_new fmt)
  else if bool_decide (str = "f") then Some FilenameFormatItem
  else if bool_decide (str = "l") then Some LineFormatItem
  else if bool_decide (str = "T") then Some TabFormatItem
  else if bool_decide (str = "F") then Some FiberIdFormatItem
  else if bool_decide (str = "N") then Some ThreadNameFormatItem
  else None.

(** The second loop: items and whether one was not known. *)
Definition item_of (e : entry) : FormatItem * bool :=
  match e with
  | Text s => (StringFormatItem (string_of_list_ascii s), false)
  | Directive str fmt =>
      match format_item_of (string_of_list_ascii str) (string_of_list_ascii fmt) with
      | Some it => (it, false)
      | None => (StringFormatItem ("<<error_format %" ++ string_of_list_ascii str ++ ">>")%string, true)
      end
  end.

Record LogFormatter : Type := mkFormatter {
  m_items : list FormatItem;
  m_pattern : string;
  m_error : bool
}.

Definition LogFormatter_new (pattern : string) : LogFormatter :=
  let p := list_ascii_of_string pattern in
  let '(vec, err) := init_loop (length p) p 0 [] [] false in
  mkFormatter (map (fun e => (item_of e).1) vec) pattern (err || existsb (fun e => (item_of e).2) vec).

Definition default_pattern : string := "%d{%Y-%m-%d %H:%M:%S}%T%t%T%N%T%F%T[%p]%T[%c]%T%f:%l%T%m%n".
