(* ===== verification/LogSpec.v ===== *)
(** * The pattern parser of the logger against a recursive reader

    LogFormatter::init works with positions and flags; [read_pattern] reads the
    list of characters.  They agree on every pattern, broken ones included. *)

From Equations Require Import Equations.
From Stdlib Require Import ZArith Lia Ascii String List.
From stdpp Require Import base list strings.
From S2P Require Import Prelude CString Log.

Local Open Scope string_scope.
Local Open Scope list_scope.
Local Open Scope nat_scope.

(** ** The reader *)

Definition name_char (c : ascii) : bool := isalpha c || Ascii.eqb c "}".

Fixpoint span (P : ascii -> bool) (l : list ascii) : list ascii * list ascii :=
  match l with
  | [] => ([], [])
  | c :: r => if P c then let '(a, b) := span P r in (c :: a, b) else ([], l)
  end.

(** Up to a character, and behind it. *)
Fixpoint cut (d : ascii) (l : list ascii) : option (list ascii * list ascii) :=
  match l with
  | [] => None
  | c :: r => if Ascii.eqb c d then Some ([], r)
              else match cut d r with Some (a, b) => Some (c :: a, b) | None => None end
  end.

(** Behind a percent sign: the name, the format in braces and the rest;
    nothing when the brace is not closed. *)
Definition directive (r : list ascii) : option (list ascii * list ascii * list ascii) :=
  let '(name, rest) := span name_char r in
  match rest with
  | c :: t => if Ascii.eqb c "{"
              then match cut "}" t with Some (fmt, rest') => Some (name, fmt, rest') | None => None end
              else Some (name, [], rest)
  | [] => Some (name, [], [])
  end.

Lemma span_parts P l : l = (span P l).1 ++ (span P l).2.
Proof.
  induction l as [|c r IH]; simpl; [reflexivity|]. destruct (P c); [|reflexivity].
  destruct (span P r); simpl in *. congruence.
Qed.

Lemma cut_app d l a b : cut d l = Some (a, b) -> l = a ++ d :: b.
Proof.
  revert a b. induction l as [|c r IH]; intros a b; simpl; [discriminate|].
  destruct (Ascii.eqb_spec c d) as [->|]; [intros [= <- <-]; reflexivity|].
  destruct (cut d r) as [[a' b']|]; [|discriminate]. intros [= <- <-]. simpl. f_equal. auto.
Qed.

Lemma directive_suffix r name fmt rest : directive r = Some (name, fmt, rest) -> exists d, r = d ++ rest.
Proof.
  unfold directive. pose proof (span_parts name_char r) as E. destruct (span name_char r) as [a b]. simpl in E. subst r.
  destruct b as [|c t]; [intros [= <- <- <-]; eauto|].
  destruct (Ascii.eqb c "{"); [|intros [= <- <- <-]; eauto].
  destruct (cut "}" t) as [[f q]|] eqn:Ec; [|discriminate]. intros [= <- <- <-]. apply cut_app in Ec. subst t.
  exists (a ++ c :: f ++ ["}"%char]). rewrite <- !app_assoc. simpl. rewrite <- app_assoc. reflexivity.
Qed.

Definition inspect {A} (x : A) : { y : A | x = y } := exist _ x eq_refl.

Definition doubled (r : list ascii) : bool := bool_decide (r !! 0 = Some "%"%char).

(** The text collected so far is put out before a directive and at the end; of
    two percent signs the first becomes text and the second is read again. *)
Equations? read_pattern (nstr l : list ascii) : list entry * bool by wf (length l) lt :=
  read_pattern nstr [] := (flush nstr, false);
  read_pattern nstr (c :: r) with Ascii.eqb c "%" => {
    | false := read_pattern (nstr ++ [c]) r;
    | true with doubled r => {
      | true := read_pattern (nstr ++ ["%"%char]) r;
      | false with inspect (directive r) => {
        | exist _ (Some (name, fmt, rest)) H :=
            let q := read_pattern [] rest in (flush nstr ++ [Directive name fmt] ++ q.1, q.2);
        | exist _ None _ := let q := read_pattern nstr r in (Text pattern_error :: q.1, true) } } }.
Proof. all: simpl; try lia. apply directive_suffix in H as [d ->]. rewrite length_app. lia. Qed.

Example read_pattern_ex :
  read_pattern [] (list_ascii_of_string "a%d{x}%%m") =
  ([Text ["a"%char]; Directive ["d"%char] ["x"%char]; Text ["%"%char]; Directive ["m"%char] []], false).
Proof. reflexivity. Qed.

(** ** The loops over positions *)

Lemma lookup_at (pre : list ascii) c todo n : n = length pre -> (pre ++ c :: todo) !! n = Some c.
Proof. intros ->. apply list_lookup_middle. reflexivity. Qed.

Lemma substr_at (pre m todo : list ascii) pos len :
  pos = length pre -> len = length m -> substr (pre ++ m ++ todo) pos len = m.
Proof.
  intros -> ->. unfold substr. rewrite drop_app_length. apply take_app_length.
Qed.

(** Inside the braces. *)
Lemma scan_format todo : forall fuel pre i str fdone fmt,
  length todo <= fuel ->
  let p := (pre ++ ["{"%char]) ++ fdone ++ todo in
  exists n str' fmt', scan fuel p i (length pre + 1 + length fdone) true (length pre) str fmt =
    match cut "}" todo with
    | Some (f, rest) => (length p - length rest, false, str, fdone ++ f)
    | None => (n, true, str', fmt')
    end.
Proof.
  induction todo as [|c t IH]; intros fuel pre i str fdone fmt Hf; cbv zeta.
  - exists (length pre + 1 + length fdone), str, fmt. simpl cut. destruct fuel; [reflexivity|]. simpl.
    rewrite app_nil_r, lookup_ge_None_2; [reflexivity|]. rewrite !length_app. simpl. lia.
  - destruct fuel as [|fuel]; simpl in Hf; [lia|]. simpl scan.
    rewrite (app_assoc _ fdone (c :: t)), lookup_at by (rewrite !length_app; simpl; lia).
    cbn [andb negb]. simpl cut. destruct (Ascii.eqb_spec c "}") as [->|Hc].
    + exists 0, [], []. rewrite app_nil_r. rewrite <- app_assoc.
      rewrite substr_at by (rewrite ?length_app; simpl; lia). repeat f_equal. rewrite !length_app. simpl. lia.
    + match goal with |- context [scan fuel _ i _ true _ ?s _] => set (str1 := s) end.
      destruct (IH fuel pre i str1 (fdone ++ [c]) fmt) as (n & str' & fmt' & E).
      { lia. }
      rewrite <- (app_assoc fdone) in E. simpl in E.
      replace (length pre + 1 + length fdone + 1) with (length pre + 1 + length (fdone ++ [c]))
        by (rewrite length_app; simpl; lia).
      rewrite <- app_assoc.
      destruct (cut "}" t) as [[f rest]|] eqn:Ec; [|exists n, str', fmt'; exact E].
      exists 0, [], []. rewrite E, <- (app_assoc fdone). simpl.
      assert (Hs : str1 = str); [|rewrite Hs; reflexivity]. unfold str1.
      apply cut_app in Ec. subst t.
      rewrite (proj2 (Nat.eqb_neq _ _)); [reflexivity|]. rewrite !length_app. simpl. rewrite length_app. simpl. lia.
Qed.

(** The name in front of them. *)
Lemma scan_name todo : forall fuel pre done str,
  length todo <= fuel -> (if bool_decide (todo = []) then str = done else str = []) ->
  let p := (pre ++ ["%"%char]) ++ done ++ todo in
  exists n str' fmt', scan fuel p (length pre) (length pre + 1 + length done) false 0 str [] =
    match directive todo with
    | Some (name, fmt, rest) => (length p - length rest, false, done ++ name, fmt)
    | None => (n, true, str', fmt')
    end.
Proof.
  induction todo as [|c t IH]; intros fuel pre done str Hf Hstr; cbv zeta.
  - exists 0, [], []. simpl in *. subst str. rewrite !app_nil_r.
    assert (E : length pre + 1 + length done = length ((pre ++ ["%"%char]) ++ done) - 0)
      by (rewrite !length_app; simpl; lia).
    destruct fuel; simpl; [rewrite E; reflexivity|]. rewrite lookup_ge_None_2 by lia. rewrite E. reflexivity.
  - destruct fuel as [|fuel]; simpl in Hf; [lia|]. simpl scan. simpl in Hstr. subst str.
    rewrite (app_assoc _ done (c :: t)), lookup_at by (rewrite !length_app; simpl; lia).
    cbn [andb negb]. unfold directive. simpl span. unfold name_char at 1.
    assert (Hsub : substr (((pre ++ ["%"%char]) ++ done) ++ c :: t) (length pre + 1)
      (length pre + 1 + length done - length pre - 1) = done).
    { rewrite <- app_assoc. apply substr_at; rewrite ?length_app; simpl; lia. }
    destruct (isalpha c || Ascii.eqb c "}") eqn:Hn.
    + replace (negb (isalpha c) && negb (Ascii.eqb c "{") && negb (Ascii.eqb c "}")) with false
        by (destruct (isalpha c), (Ascii.eqb c "{"), (Ascii.eqb c "}"); try reflexivity; discriminate).
      destruct (Ascii.eqb_spec c "{") as [->|_]; [discriminate Hn|].
      match goal with |- context [scan fuel _ _ _ false 0 ?s _] => set (str1 := s) end.
      destruct (IH fuel pre (done ++ [c]) str1) as (n & str' & fmt' & E); [lia| |].
      { unfold str1. rewrite (bool_decide_eq_true_2 ([] = [])), andb_true_r by reflexivity.
        case_bool_decide as Et.
        - subst t. rewrite (proj2 (Nat.eqb_eq _ _)) by (rewrite !length_app; simpl; lia).
          rewrite <- app_assoc. replace (length pre + 1) with (length (pre ++ ["%"%char])) by (rewrite length_app; reflexivity).
          apply drop_app_length.
        - rewrite (proj2 (Nat.eqb_neq _ _)); [reflexivity|]. rewrite !length_app. destruct t; [congruence|]. simpl. lia. }
      rewrite <- !(app_assoc done) in E. simpl in E. exists n, str', fmt'.
      replace (length pre + 1 + length done + 1) with (length pre + 1 + length (done ++ [c]))
        by (rewrite length_app; simpl; lia).
      rewrite <- (app_assoc _ done), E. unfold directive. destruct (span name_char t) as [a b]. simpl.
      assert (Ha : forall x, (done ++ [c]) ++ x = done ++ c :: x) by (intros; rewrite <- app_assoc; reflexivity).
      destruct b as [|c' b]; [rewrite Ha; reflexivity|].
      destruct (Ascii.eqb c' "{"); [destruct (cut "}" b) as [[f q]|]|]; rewrite ?Ha; reflexivity.
    + apply orb_false_iff in Hn as [Hn1 Hn2]. rewrite Hn1, Hn2. simpl.
      destruct (Ascii.eqb_spec c "{") as [->|Hb]; simpl.
      * rewrite Hsub. destruct (scan_format t fuel ((pre ++ ["%"%char]) ++ done) (length pre) done [] []) as (n & s' & f' & E); [lia|].
        simpl in E. rewrite !length_app in E. simpl in E. exists n, s', f'.
        rewrite Nat.add_0_r in E. rewrite <- (app_assoc _ ["{"%char]) in E. simpl in E.
        rewrite E. destruct (cut "}" t) as [[f q]|]; [|reflexivity].
        rewrite app_nil_r. repeat f_equal. rewrite !length_app. simpl. lia.
      * rewrite Hsub. exists 0, [], []. rewrite app_nil_r. repeat f_equal. rewrite !length_app. simpl. lia.
Qed.

Lemma scan_directive pre r :
  let p := pre ++ "%"%char :: r in
  exists n str fmt, scan (length p) p (length pre) (length pre + 1) false 0 [] [] =
    match directive r with
    | Some (name, fmt, rest) => (length p - length rest, false, name, fmt)
    | None => (n, true, str, fmt)
    end.
Proof.
  cbv zeta. destruct (scan_name r (length (pre ++ "%"%char :: r)) pre [] []) as (n & str & fmt & E).
  - rewrite length_app. simpl. lia.
  - case_bool_decide; reflexivity.
  - simpl in E. rewrite <- app_assoc, Nat.add_0_r in E. exists n, str, fmt. exact E.
Qed.

Lemma next_app (pre : list ascii) c r : pre ++ c :: r = (pre ++ [c]) ++ r.
Proof. rewrite <- app_assoc. reflexivity. Qed.

Lemma next_length (pre : list ascii) c : length pre + 1 = length (pre ++ [c]).
Proof. rewrite length_app. reflexivity. Qed.

Lemma not_doubled pre r : doubled r = false -> (pre ++ "%"%char :: r) !! (length pre + 1) <> Some "%"%char.
Proof.
  intros H E. rewrite (next_length pre "%"%char), (next_app pre "%"%char r), lookup_app_r, Nat.sub_diag in E by lia.
  apply bool_decide_eq_false in H. contradiction.
Qed.

(** [l] is what the loop has still to read. *)
Lemma init_loop_reads nstr l : forall fuel pre vec err,
  length l <= fuel ->
  init_loop fuel (pre ++ l) (length pre) nstr vec err =
  (vec ++ (read_pattern nstr l).1, err || (read_pattern nstr l).2).
Proof.
  funelim (read_pattern nstr l); intros fuel pre vec err Hf; simp read_pattern; rewrite ?Heq1, ?Heq0, ?Heq; simpl;
    (destruct fuel as [|fuel]; simpl in Hf; [try lia|]); simpl init_loop; rewrite ?lookup_at, ?Heq by reflexivity; simpl.
  - rewrite orb_false_r. reflexivity.
  - rewrite orb_false_r, app_nil_r, lookup_ge_None_2 by lia. reflexivity.
  - rewrite (next_length pre c), (next_app pre c r). rewrite H by lia. reflexivity.
  - apply Ascii.eqb_eq in Heq0. subst c. rewrite (next_length pre "%"%char), (next_app pre "%"%char r). simpl.
    rewrite bool_decide_eq_true_2; [rewrite H by lia; reflexivity|].
    apply bool_decide_eq_true in Heq. rewrite lookup_app_r, Nat.sub_diag by lia. exact Heq.
  - apply Ascii.eqb_eq in Heq0. subst c. simpl. rewrite bool_decide_eq_false_2 by (apply not_doubled; assumption).
    destruct (scan_directive pre r) as (n & str & f & ->). rewrite H. destruct (directive_suffix _ _ _ _ H) as [d ->].
    rewrite (next_app pre "%"%char (d ++ rest)), (app_assoc _ d rest), (length_app _ rest), Nat.add_sub.
    rewrite H0 by (rewrite length_app in Hf; lia). rewrite <- !app_assoc. reflexivity.
  - apply Ascii.eqb_eq in Heq0. subst c. simpl. rewrite bool_decide_eq_false_2 by (apply not_doubled; assumption).
    destruct (scan_directive pre r) as (n & str & f & ->). rewrite e.
    rewrite (next_length pre "%"%char), (next_app pre "%"%char r), H by lia.
    rewrite <- app_assoc, orb_true_r. reflexivity.
Qed.

(** The constructor of a formatter. *)
Lemma formatter_reads pattern :
  let q := read_pattern [] (list_ascii_of_string pattern) in
  LogFormatter_new pattern =
  mkFormatter (map (fun e => (item_of e).1) q.1) pattern (q.2 || existsb (fun e => (item_of e).2) q.1).
Proof.
  cbv zeta. unfold LogFormatter_new.
  rewrite (init_loop_reads [] (list_ascii_of_string pattern) _ [] [] false) by lia. reflexivity.
Qed.

(** C37: On every pattern, broken ones included, the loops of init over positions
    and flags give what the reader of characters gives: plain text is collected
    up to the next directive, a directive is a percent sign, a run of letters
    and closing braces and an optional format in braces, an open brace is
    reported and what follows the percent sign becomes text, and of two percent
    signs the second one starts a directive.  The loops end. *)
Theorem init_reads pattern :
  let q := read_pattern [] (list_ascii_of_string pattern) in
  LogFormatter_new pattern =
  mkFormatter (map (fun e => (item_of e).1) q.1) pattern (q.2 || existsb (fun e => (item_of e).2) q.1).
Proof. apply formatter_reads. Qed.

(** ** Well-formed patterns *)

Inductive piece : Type :=
  | Plain (s : list ascii)
  | Item (c : ascii) (fmt : list ascii).

Definition render_piece (q : piece) : list ascii :=
  match q with
  | Plain s => s
  | Item c [] => ["%"%char; c]
  | Item c fmt => "%"%char :: c :: "{"%char :: fmt ++ ["}"%char]
  end.
Definition render (l : list piece) : list ascii := flat_map render_piece l.

Definition letters : list ascii := list_ascii_of_string "mprctndflTFN".

Definition piece_ok (q : piece) : bool :=
  match q with
  | Plain s => bool_decide (s <> []) && forallb (fun c => negb (Ascii.eqb c "%")) s
  | Item c fmt => bool_decide (c ∈ letters) && forallb (fun c => negb (Ascii.eqb c "}")) fmt
  end.

(** Texts are not split, and a text behind an item without a format does not
    start with what could belong to the item. *)
Fixpoint pieces_ok (l : list piece) : bool :=
  match l with
  | [] => true
  | Plain s :: r => piece_ok (Plain s) && pieces_ok r && match r with Plain _ :: _ => false | _ => true end
  | Item c fmt :: r =>
      piece_ok (Item c fmt) && pieces_ok r &&
      match fmt, r with
      | [], Plain (d :: _) :: _ => negb (name_char d) && negb (Ascii.eqb d "{")
      | _, _ => true
      end
  end.

Definition entry_of (q : piece) : entry := match q with Plain s => Text s | Item c fmt => Directive [c] fmt end.

(** What an item prints. *)
Definition print_piece (strftime : string -> Z -> string) (level : Z) (e : LogEvent) (q : piece) : string :=
  match q with
  | Plain s => string_of_list_ascii s
  | Item c fmt =>
      match String c "" with
      | "m" => e_content e
      | "p" => LogLevel.ToString level
      | "r" => dec (e_elapse e)
      | "c" => e_logger e
      | "t" => dec (e_threadId e)
      | "n" => newline
      | "d" => strftime (if bool_decide (fmt = []) then default_time else string_of_list_ascii fmt) (e_time e)
      | "f" => e_file e
      | "l" => sdec (e_line e)
      | "T" => tab
      | "F" => dec (e_fiberId e)
      | _ => e_threadName e
      end
  end.

Lemma read_text s : forall nstr l, forallb (fun c => negb (Ascii.eqb c "%")) s = true ->
  read_pattern nstr (s ++ l) = read_pattern (nstr ++ s) l.
Proof.
  induction s as [|c s IH]; intros nstr l Hs; simpl in *; [rewrite app_nil_r; reflexivity|].
  apply andb_prop in Hs as [Hc Hs]. apply negb_true_iff in Hc. simp read_pattern. rewrite Hc. simpl.
  rewrite IH by assumption. rewrite <- app_assoc. reflexivity.
Qed.

Lemma cut_format fmt l : forallb (fun c => negb (Ascii.eqb c "}")) fmt = true -> cut "}" (fmt ++ "}"%char :: l) = Some (fmt, l).
Proof.
  induction fmt as [|c fmt IH]; simpl; intros H; [reflexivity|].
  apply andb_prop in H as [Hc H]. apply negb_true_iff in Hc. rewrite Hc, IH by assumption. reflexivity.
Qed.

Lemma read_item nstr c r name fmt rest :
  c <> "%"%char -> directive (c :: r) = Some (name, fmt, rest) ->
  read_pattern nstr ("%"%char :: c :: r) =
  (flush nstr ++ Directive name fmt :: (read_pattern [] rest).1, (read_pattern [] rest).2).
Proof.
  intros Hc Hd. simp read_pattern. simpl. unfold doubled. simpl lookup.
  rewrite bool_decide_eq_false_2 by congruence. simpl.
  generalize (inspect (directive (c :: r))). rewrite Hd. intros [o Ho]. subst o. reflexivity.
Qed.

Lemma letter_ok c : c ∈ letters -> name_char c = true /\ c <> "%"%char.
Proof. revert c. apply Forall_forall. repeat (constructor; [split; [reflexivity|discriminate]|]). constructor. Qed.

(** What may stand behind an item without a format. *)
Definition ends_item (l : list ascii) : bool :=
  match l with [] => true | d :: _ => negb (name_char d) && negb (Ascii.eqb d "{") end.

Lemma directive_plain c l : name_char c = true -> ends_item l = true -> directive (c :: l) = Some ([c], [], l).
Proof.
  intros Hc Hl. unfold directive. simpl. rewrite Hc. destruct l as [|d l]; [reflexivity|]. simpl in *.
  apply andb_prop in Hl as [H1 H2]. apply negb_true_iff in H1, H2. rewrite H1, H2. reflexivity.
Qed.

Lemma directive_format c fmt l :
  name_char c = true -> forallb (fun c => negb (Ascii.eqb c "}")) fmt = true ->
  directive (c :: "{"%char :: fmt ++ "}"%char :: l) = Some ([c], fmt, l).
Proof. intros Hc Hf. unfold directive. simpl. rewrite Hc, cut_format by assumption. reflexivity. Qed.

Lemma render_ends l :
  pieces_ok l = true ->
  match l with Plain (d :: _) :: _ => negb (name_char d) && negb (Ascii.eqb d "{") | _ => true end = true ->
  ends_item (render l) = true.
Proof.
  destruct l as [|[[|d s]|c fmt] r]; simpl; intros H1 H2; [reflexivity|discriminate|assumption|].
  destruct fmt; reflexivity.
Qed.

Lemma read_pieces l : pieces_ok l = true -> forall nstr,
  match l with Plain _ :: _ => nstr = [] | _ => True end ->
  read_pattern nstr (render l) = (flush nstr ++ map entry_of l, false).
Proof.
  induction l as [|[s|c fmt] r IH]; intros Hok nstr Hn.
  - simp read_pattern. rewrite app_nil_r. reflexivity.
  - subst nstr. simpl in Hok. apply andb_prop in Hok as [Hok Hr]. apply andb_prop in Hok as [Hs Hok].
    apply andb_prop in Hs as [Hs1 Hs2]. apply bool_decide_eq_true in Hs1. simpl.
    rewrite read_text by assumption. simpl. rewrite IH; [|assumption|destruct r as [|[]]; [exact I|discriminate|exact I]].
    destruct s; [contradiction|reflexivity].
  - simpl in Hok. apply andb_prop in Hok as [Hok Hr]. apply andb_prop in Hok as [Hi Hok].
    apply andb_prop in Hi as [Hc Hf]. apply bool_decide_eq_true, letter_ok in Hc as [Hc1 Hc2].
    assert (Hrest : read_pattern [] (render r) = (map entry_of r, false))
      by (rewrite IH; [reflexivity|assumption|destruct r as [|[]]; constructor]).
    destruct fmt as [|d fmt].
    + cbn [render flat_map render_piece app]. rewrite (read_item _ _ _ [c] [] (render r));
        [rewrite Hrest; reflexivity|assumption|apply directive_plain; [assumption|apply render_ends; assumption]].
    + cbn [render flat_map render_piece app]. rewrite <- app_assoc. cbn [app].
      rewrite (read_item _ _ _ [c] (d :: fmt) (render r));
        [rewrite Hrest; reflexivity|assumption|apply (directive_format c (d :: fmt)); assumption].
Qed.

Lemma format_items_concat strftime items level e : forall acc,
  fold_left (fun os i => (os ++ format_item strftime i level e)%string) items acc =
  (acc ++ String.concat "" (map (fun i => format_item strftime i level e) items))%string.
Proof.
  induction items as [|i items IH]; intros acc; simpl; [rewrite append_nil_r; reflexivity|].
  rewrite IH, append_assoc. f_equal. destruct items; simpl; [apply append_nil_r|reflexivity].
Qed.

Lemma string_of_list_nonempty (l : list ascii) : bool_decide (string_of_list_ascii l = "") = bool_decide (l = []).
Proof. apply bool_decide_ext. destruct l; simpl; split; congruence. Qed.

Lemma piece_item strftime level e q : piece_ok q = true ->
  (item_of (entry_of q)).2 = false /\ format_item strftime (item_of (entry_of q)).1 level e = print_piece strftime level e q.
Proof.
  destruct q as [s|c fmt]; [split; reflexivity|]. simpl. intros H. apply andb_prop in H as [Hc _].
  apply bool_decide_eq_true in Hc. rewrite <- string_of_list_nonempty. revert c Hc. apply Forall_forall.
  repeat (constructor; [split; reflexivity|]). constructor.
Qed.

(** A pattern made of plain texts and of the documented items, with or
    without a format, is taken apart without an error, and formatting an event
    prints the texts as they stand and each item as documented: the message, the
    level, the elapsed time, the names and numbers of logger, thread and fiber,
    the time in the given or the default format, file, line, tab and newline. *)
Theorem pattern_prints strftime level e l :
  pieces_ok l = true ->
  let fmt := LogFormatter_new (string_of_list_ascii (render l)) in
  m_error fmt = false /\
  format_items strftime (m_items fmt) level e = String.concat "" (map (print_piece strftime level e) l).
Proof.
  intros Hok fmt. unfold fmt. rewrite (formatter_reads (string_of_list_ascii _)), list_ascii_of_string_of_list_ascii.
  rewrite (read_pieces l Hok []) by (destruct l as [|[]]; constructor). simpl.
  assert (Hall : Forall (fun q => piece_ok q = true) l).
  { clear fmt. induction l as [|[s|c f] r IH]; constructor; simpl in Hok;
      apply andb_prop in Hok as [Hok _]; apply andb_prop in Hok as [Hq Hr]; auto. }
  unfold format_items. rewrite format_items_concat, map_map. clear Hok fmt. split.
  - induction Hall as [|q l Hq _ IH]; simpl; [reflexivity|].
    rewrite (proj1 (piece_item strftime level e q Hq)). exact IH.
  - rewrite append_nil_l. f_equal. rewrite map_map. apply map_ext_Forall.
    eapply Forall_impl; [exact Hall|]. intros q Hq. exact (proj2 (piece_item strftime level e q Hq)).
Qed.

Lemma pattern_prints_witness :
  let ch := list_ascii_of_string in
  let l := [Item "d" (ch "%H"); Plain (ch " ["); Item "p" []; Plain (ch "] "); Item "m" []; Item "n" []] in
  let e := event_write "hello" (LogEvent_new "root" 2 "a.cc" 7 0 1 2 3 "main") in
  string_of_list_ascii (render l) = "%d{%H} [%p] %m%n" /\
  format_items (fun f _ => f) (m_items (LogFormatter_new (string_of_list_ascii (render l)))) 2 e
  = ("%H [INFO] hello" ++ newline)%string.
Proof.
  intros ch l e. split; [reflexivity|].
  refine (eq_trans (proj2 (pattern_prints (fun f _ => f) 2 e l _)) _); reflexivity.
Defined.
