(* ===== verification/LogManager.v ===== *)
(** * Appenders, loggers and the log configuration (sylar/log.h, sylar/log.cpp)

    Loggers stay in the table of the manager, so a pointer to one is its name;
    appenders are shared by pointer and live in a heap.  Formatters do not change
    once they are made and are values; a null pointer is [None].  What is written
    is a trace: texts with the appender that wrote them, files opened (which
    truncates them), and texts lost on a stream that could not be opened.  The
    time and whether a file can be opened are given from outside. *)

From Stdlib Require Import ZArith Lia Ascii String List.
From stdpp Require Import base list strings gmap.
From S2P Require Import Prelude Ordered CString Log.

Local Open Scope string_scope.
Local Open Scope list_scope.
Local Open Scope Z_scope.
Local Open Scope cpp_scope.

Inductive kind : Type :=
  | StdoutLogAppender
  | FileLogAppender (m_filename : string).

Record Appender : Type := mkAppender {
  a_kind : kind;
  a_level : Z;
  a_hasFormatter : bool;
  a_formatter : option LogFormatter;
  a_lastTime : Z;
  a_stream : bool
}.

Record Logger : Type := mkLogger {
  l_name : string;
  l_level : Z;
  l_appenders : list nat;
  l_formatter : option LogFormatter;
  l_root : option string
}.

Inductive output : Type :=
  | OWrite (id : nat) (text : string)
  | OLost (id : nat) (text : string)
  | OOpen (id : nat) (file : string) (ok : bool).

Record LoggerManager : Type := mkManager {
  m_loggers : gmap string Logger;
  heap : list Appender;
  out : list output
}.

Abbreviation ML A := (M LoggerManager A).

(** ** Fields *)

Definition set_loggers f (s : LoggerManager) := mkManager (f (m_loggers s)) (heap s) (out s).
Definition set_heap f (s : LoggerManager) := mkManager (m_loggers s) (f (heap s)) (out s).
Definition put_out (o : output) (s : LoggerManager) := mkManager (m_loggers s) (heap s) (out s ++ [o]).

Definition with_level v (a : Appender) := mkAppender (a_kind a) v (a_hasFormatter a) (a_formatter a) (a_lastTime a) (a_stream a).
Definition with_formatter h f (a : Appender) := mkAppender (a_kind a) (a_level a) h f (a_lastTime a) (a_stream a).
Definition with_stream b (a : Appender) := mkAppender (a_kind a) (a_level a) (a_hasFormatter a) (a_formatter a) (a_lastTime a) b.
Definition with_time t (a : Appender) := mkAppender (a_kind a) (a_level a) (a_hasFormatter a) (a_formatter a) t (a_stream a).

Definition lwith_level v (l : Logger) := mkLogger (l_name l) v (l_appenders l) (l_formatter l) (l_root l).
Definition lwith_appenders v (l : Logger) := mkLogger (l_name l) (l_level l) v (l_formatter l) (l_root l).
Definition lwith_formatter v (l : Logger) := mkLogger (l_name l) (l_level l) (l_appenders l) v (l_root l).

Definition upd_appender (id : nat) (f : Appender -> Appender) : LoggerManager -> LoggerManager := set_heap (alter f id).
Definition upd_logger (name : string) (f : Logger -> Logger) : LoggerManager -> LoggerManager := set_loggers (alter f name).

(** ** Appenders *)

Section log.
Context (strftime : string -> Z -> string) (can_open : string -> Z -> bool).

(** [LogAppender::setFormatter] *)
Definition appender_setFormatter (id : nat) (val : option LogFormatter) : LoggerManager -> LoggerManager :=
  upd_appender id (with_formatter (match val with Some _ => true | None => false end) val).

Definition appender_setLevel (id : nat) (val : Z) : LoggerManager -> LoggerManager := upd_appender id (with_level val).

(** [FileLogAppender::reopen]: [open] without the append flag truncates. *)
Definition reopen (id : nat) (file : string) (now : Z) (s : LoggerManager) : LoggerManager :=
  let ok := can_open file now in
  put_out (OOpen id file ok) (upd_appender id (with_stream ok) s).

Definition new_appender (k : kind) (s : LoggerManager) : LoggerManager * nat :=
  (set_heap (fun h => h ++ [mkAppender k LogLevel.DEBUG false None 0 true]) s, length (heap s)).

Definition StdoutLogAppender_new (s : LoggerManager) : LoggerManager * nat := new_appender StdoutLogAppender s.

Definition FileLogAppender_new (file : string) (now : Z) (s : LoggerManager) : LoggerManager * nat :=
  let '(s1, id) := new_appender (FileLogAppender file) s in (reopen id file now s1, id).

(** [StdoutLogAppender::log] and [FileLogAppender::log] *)
Definition appender_log (level : Z) (event : LogEvent) (now : Z) (id : nat) : ML unit :=
  let! h := cget heap in
  match h !! id with
  | None => cundef NullDeref
  | Some a =>
      if level >=? a_level a then
        match a_kind a with
        | StdoutLogAppender =>
            match a_formatter a with
            | None => cundef NullDeref
            | Some f => cmod (put_out (OWrite id (format_items strftime (m_items f) level event)))
            end
        | FileLogAppender file =>
            (if now >=? u64 (a_lastTime a + 3)
             then cmod (reopen id file now) ;;; cmod (upd_appender id (with_time now)) else cret tt) ;;;
            let! h := cget heap in
            match h !! id with
            | None => cundef NullDeref
            | Some a =>
                match a_formatter a with
                | None => cundef NullDeref
                | Some f =>
                    let text := format_items strftime (m_items f) level event in
                    cmod (put_out (if a_stream a then OWrite id text else OLost id text))
                end
            end
        end
      else cret tt
  end.

(** ** Loggers *)

Definition Logger_new (name : string) : Logger :=
  mkLogger name LogLevel.DEBUG [] (Some (LogFormatter_new default_pattern)) None.

Definition setLevel (name : string) (val : Z) : LoggerManager -> LoggerManager := upd_logger name (lwith_level val).

(** [Logger::setFormatter(ptr)]: the appenders without a formatter of their own
    get it too. *)
Definition setFormatter (name : string) (val : option LogFormatter) (s : LoggerManager) : LoggerManager :=
  match m_loggers s !! name with
  | None => s
  | Some l =>
      fold_left (fun s id => upd_appender id (fun a => if a_hasFormatter a then a else with_formatter false val a) s)
        (l_appenders l) (upd_logger name (lwith_formatter val) s)
  end.

(** [Logger::setFormatter(string)]: a broken pattern is refused. *)
Definition setFormatter_pattern (name : string) (val : string) (s : LoggerManager) : LoggerManager :=
  let new_val := LogFormatter_new val in
  if m_error new_val then s else setFormatter name (Some new_val) s.

Definition addAppender (name : string) (id : nat) (s : LoggerManager) : LoggerManager :=
  match m_loggers s !! name with
  | None => s
  | Some l =>
      upd_logger name (lwith_appenders (l_appenders l ++ [id]))
        (upd_appender id (fun a => match a_formatter a with
                                   | None => with_formatter (a_hasFormatter a) (l_formatter l) a
                                   | Some _ => a
                                   end) s)
  end.

Fixpoint remove_first (id : nat) (l : list nat) : list nat :=
  match l with [] => [] | x :: r => if (x =? id)%nat then r else x :: remove_first id r end.
Definition delAppender (name : string) (id : nat) : LoggerManager -> LoggerManager :=
  upd_logger name (fun l => lwith_appenders (remove_first id (l_appenders l)) l).
Definition clearAppenders (name : string) : LoggerManager -> LoggerManager :=
  upd_logger name (lwith_appenders []).

Fixpoint each {A} (f : A -> ML unit) (l : list A) : ML unit :=
  match l with [] => cret tt | x :: r => f x ;;; each f r end.

(** [Logger::log]; the root of the manager has no root, so the call goes one
    logger up at most. *)
Fixpoint log (fuel : nat) (name : string) (level : Z) (event : LogEvent) (now : Z) : ML unit :=
  match fuel with
  | O => cundef FuelExhausted
  | S fuel =>
      let! ls := cget m_loggers in
      match ls !! name with
      | None => cundef NullDeref
      | Some l =>
          if level >=? l_level l then
            match l_appenders l, l_root l with
            | (_ :: _) as ids, _ => each (appender_log level event now) ids
            | [], Some r => log fuel r level event now
            | [], None => cret tt
            end
          else cret tt
      end
  end.

(** [SYLAR_LOG_LEVEL(logger, level)]: the event is logged when the wrapper is
    destroyed. *)
Definition SYLAR_LOG_LEVEL (name : string) (level : Z) (event : LogEvent) (now : Z) : ML unit :=
  let! ls := cget m_loggers in
  match ls !! name with
  | None => cundef NullDeref
  | Some l => if l_level l <=? level then log 2 name level event now else cret tt
  end.

(** ** The manager *)

Definition LoggerManager_new : LoggerManager :=
  let s := mkManager {["root" := Logger_new "root"]} [] [] in
  let '(s1, id) := StdoutLogAppender_new s in
  addAppender "root" id s1.

Definition getLogger (name : string) (s : LoggerManager) : LoggerManager :=
  match m_loggers s !! name with
  | Some _ => s
  | None => set_loggers (fun m => <[name := let l := Logger_new name in
                                            mkLogger (l_name l) (l_level l) (l_appenders l) (l_formatter l) (Some "root")]> m) s
  end.

(** ** The log configuration *)

Record LogAppenderDefine : Type := mkAppenderDefine {
  d_type : Z;
  d_level : Z;
  d_formatter : string;
  d_file : string
}.

Record LogDefine : Type := mkDefine {
  d_name : string;
  d_loglevel : Z;
  d_logformatter : string;
  d_appenders : list LogAppenderDefine
}.

#[global] Instance LogAppenderDefine_eq_dec : EqDecision LogAppenderDefine.
Proof. solve_decision. Defined.
#[global] Instance LogDefine_eq_dec : EqDecision LogDefine.
Proof. solve_decision. Defined.

(** [set.find(i)]: by name alone. *)
Definition find_define (i : LogDefine) (l : list LogDefine) : option LogDefine :=
  find (fun d => bool_decide (d_name d = d_name i)) l.

(** One appender of a definition. *)
Definition make_appender (now : Z) (name : string) (a : LogAppenderDefine) : ML unit := fun s =>
  let made := if d_type a =? 1 then Some (FileLogAppender_new (d_file a) now s)
              else if d_type a =? 2 then Some (StdoutLogAppender_new s) else None in
  match made with
  | None => (s, Undef NullDeref)
  | Some (s1, ap) =>
      let s2 := appender_setLevel ap (d_level a) s1 in
      let s3 := if bool_decide (d_formatter a = "") then s2
                else let fmt := LogFormatter_new (d_formatter a) in
                     if m_error fmt then s2 else appender_setFormatter ap (Some fmt) s2 in
      (addAppender name ap s3, Ret tt)
  end.

(** A definition of the new value: [logger] stays null for one that is in the old
    value as it is. *)
Definition apply_define (old_value : list LogDefine) (now : Z) (i : LogDefine) : ML unit :=
  match find_define i old_value with
  | Some d => if decide (i = d) then cundef NullDeref else cret tt
  | None => cret tt
  end ;;;
  cmod (getLogger (d_name i)) ;;;
  cmod (setLevel (d_name i) (d_loglevel i)) ;;;
  cmod (fun s => if bool_decide (d_logformatter i = "") then s else setFormatter_pattern (d_name i) (d_logformatter i) s) ;;;
  cmod (clearAppenders (d_name i)) ;;;
  each (make_appender now (d_name i)) (d_appenders i).

(** A definition of the old value that is gone. *)
Definition drop_define (new_value : list LogDefine) (i : LogDefine) : ML unit :=
  match find_define i new_value with
  | Some _ => cret tt
  | None => cmod (getLogger (d_name i)) ;;; cmod (setLevel (d_name i) 100) ;;; cmod (clearAppenders (d_name i))
  end.

(** The listener of [LogIniter]. *)
Definition on_logger_conf_changed (event : LogEvent) (now : Z) (old_value new_value : list LogDefine) : ML unit :=
  SYLAR_LOG_LEVEL "root" LogLevel.INFO event now ;;;
  each (apply_define old_value now) new_value ;;;
  each (drop_define new_value) old_value.
End log.
