(* ===== verification/LogRoutes.v ===== *)
(** * Where events go

    In every state that the calls of the manager reach, logging returns and the
    event reaches exactly the appenders it is meant for. *)

From Stdlib Require Import ZArith Lia Ascii String List.
From stdpp Require Import base list strings gmap.
From S2P Require Import Prelude Ordered CString Log LogManager.

Local Open Scope string_scope.
Local Open Scope list_scope.
Local Open Scope Z_scope.
Local Open Scope cpp_scope.

(** ** The invariant *)

Definition has_formatter (s : LoggerManager) (id : nat) : Prop :=
  exists a f, heap s !! id = Some a /\ a_formatter a = Some f.

Record logger_ok (s : LoggerManager) (name : string) (l : Logger) : Prop := {
  lo_name : l_name l = name;
  lo_root : l_root l = if bool_decide (name = "root") then None else Some "root";
  lo_formatter : exists f, l_formatter l = Some f;
  lo_appenders : Forall (has_formatter s) (l_appenders l)
}.

Record mgr_ok (s : LoggerManager) : Prop := {
  mo_root : is_Some (m_loggers s !! "root");
  mo_loggers : map_Forall (logger_ok s) (m_loggers s)
}.

Definition keeps_formatter (f : Appender -> Appender) : Prop :=
  forall a x, a_formatter a = Some x -> exists y, a_formatter (f a) = Some y.

Lemma has_formatter_upd s id f i : keeps_formatter f -> has_formatter s i -> has_formatter (upd_appender id f s) i.
Proof.
  intros Hf (a & x & Ha & Hx). unfold has_formatter, upd_appender. simpl. rewrite list_lookup_alter.
  destruct (decide (i = id)) as [->|E]; [rewrite decide_True by reflexivity|rewrite decide_False by congruence]; rewrite Ha; simpl.
  - destruct (Hf a x Hx) as [y Hy]. eauto.
  - eauto.
Qed.

Lemma mgr_ok_heap s s' :
  m_loggers s' = m_loggers s -> (forall i, has_formatter s i -> has_formatter s' i) -> mgr_ok s -> mgr_ok s'.
Proof.
  intros Hl Hh [H1 H2]. split; rewrite Hl; [exact H1|]. intros name l E. destruct (H2 name l E) as [? ? ? Ha].
  split; try assumption. eapply Forall_impl; [exact Ha|exact Hh].
Qed.

Lemma mgr_ok_appender s id f : keeps_formatter f -> mgr_ok s -> mgr_ok (upd_appender id f s).
Proof. intros Hf. apply mgr_ok_heap; [reflexivity|]. intros i. apply has_formatter_upd, Hf. Qed.

Lemma mgr_ok_out s o : mgr_ok s -> mgr_ok (put_out o s).
Proof. apply mgr_ok_heap; [reflexivity|auto]. Qed.

Lemma mgr_ok_new_appender s a : mgr_ok s -> mgr_ok (set_heap (fun h => h ++ [a]) s).
Proof.
  apply mgr_ok_heap; [reflexivity|]. intros i (b & f & Hb & Hf). exists b, f. split; [|assumption].
  simpl. apply lookup_app_l_Some, Hb.
Qed.

Lemma mgr_ok_logger s name f :
  (forall l, logger_ok s name l -> logger_ok s name (f l)) -> mgr_ok s -> mgr_ok (upd_logger name f s).
Proof.
  intros Hf [H1 H2]. split; unfold upd_logger; simpl.
  - rewrite lookup_alter. destruct (decide _) as [->|_]; [apply fmap_is_Some|]; exact H1.
  - intros k l. rewrite lookup_alter. destruct (decide (name = k)) as [->|E].
    + intros (l0 & El & ->)%fmap_Some. destruct (Hf l0 (H2 _ _ El)). split; assumption.
    + intros El. destruct (H2 k l El). split; assumption.
Qed.

(** ** The calls *)

Section log.
Context (strftime : string -> Z -> string) (can_open : string -> Z -> bool).

Lemma setFormatter_ok s name f : mgr_ok s -> mgr_ok (setFormatter name (Some f) s).
Proof.
  intros Hs. unfold setFormatter. destruct (m_loggers s !! name) as [l|]; [|assumption].
  assert (H0 : mgr_ok (upd_logger name (lwith_formatter (Some f)) s)).
  { apply mgr_ok_logger; [|assumption]. intros l' []. split; simpl; eauto. }
  revert H0. generalize (upd_logger name (lwith_formatter (Some f)) s) as s0. generalize (l_appenders l) as ids.
  induction ids as [|id ids IH]; intros s0 H0; simpl; [assumption|]. apply IH. apply mgr_ok_appender; [|assumption].
  intros a x Hx. destruct (a_hasFormatter a); simpl; eauto.
Qed.

Lemma addAppender_ok s name id : is_Some (heap s !! id) -> mgr_ok s -> mgr_ok (addAppender name id s).
Proof.
  intros [a Ha] Hs. unfold addAppender. destruct (m_loggers s !! name) as [l|] eqn:El; [|assumption].
  destruct (mo_loggers s Hs name l El) as [? ? [f Hf] Hap].
  set (g := fun a => match a_formatter a with None => with_formatter (a_hasFormatter a) (l_formatter l) a | Some _ => a end).
  assert (Hg : keeps_formatter g) by (intros b x Hx; unfold g; rewrite Hx; eauto).
  assert (Hid : has_formatter (upd_appender id g s) id).
  { unfold has_formatter. simpl. rewrite list_lookup_alter_eq, Ha. simpl. exists (g a). unfold g.
    destruct (a_formatter a) as [y|] eqn:Ey; [exists y|exists f]; auto. }
  apply mgr_ok_logger; [|apply mgr_ok_appender; assumption].
  intros l' []. split; simpl; try assumption. apply Forall_app. split; [|constructor; [exact Hid|constructor]].
  eapply Forall_impl; [exact Hap|]. intros i. apply has_formatter_upd, Hg.
Qed.

Lemma getLogger_ok s name : mgr_ok s -> mgr_ok (getLogger name s).
Proof.
  intros Hs. unfold getLogger. destruct (m_loggers s !! name) as [l|] eqn:El; [assumption|].
  destruct Hs as [H1 H2]. split; simpl.
  - rewrite lookup_insert. destruct (decide _); [eauto|exact H1].
  - apply map_Forall_insert_2.
    + assert (name <> "root") by (intros ->; destruct H1; congruence).
      split; simpl; [reflexivity|rewrite bool_decide_eq_false_2 by assumption; reflexivity|eauto|constructor].
    + intros k l E. destruct (H2 k l E). split; assumption.
Qed.

Lemma mgr_ok_new : mgr_ok LoggerManager_new.
Proof.
  apply addAppender_ok; [eexists; reflexivity|]. split; simpl; [rewrite lookup_singleton_eq; eauto|].
  intros k l (<- & <-)%lookup_singleton_Some. split; simpl; eauto.
Qed.

Lemma setFormatter_pattern_ok s name p : mgr_ok s -> mgr_ok (setFormatter_pattern name p s).
Proof. intros H. unfold setFormatter_pattern. destruct (m_error _); [assumption|apply setFormatter_ok, H]. Qed.

Lemma setLevel_ok s name v : mgr_ok s -> mgr_ok (setLevel name v s).
Proof. apply mgr_ok_logger. intros l []. split; assumption. Qed.

Lemma clearAppenders_ok s name : mgr_ok s -> mgr_ok (clearAppenders name s).
Proof. apply mgr_ok_logger. intros l []. split; simpl; auto. Qed.

Lemma delAppender_ok s name id : mgr_ok s -> mgr_ok (delAppender name id s).
Proof.
  apply mgr_ok_logger. intros l [? ? ? Ha]. split; simpl; try assumption. clear -Ha.
  induction Ha as [|x r Hx Hr IH]; simpl; [constructor|]. destruct (x =? id)%nat; [assumption|constructor; assumption].
Qed.

Lemma appender_setFormatter_ok s id f : mgr_ok s -> mgr_ok (appender_setFormatter id (Some f) s).
Proof. apply mgr_ok_appender. intros a x _. simpl. eauto. Qed.

Lemma appender_setLevel_ok s id v : mgr_ok s -> mgr_ok (appender_setLevel id v s).
Proof. apply mgr_ok_appender. intros a x Hx. simpl. eauto. Qed.

Lemma reopen_ok s id file now : mgr_ok s -> mgr_ok (reopen can_open id file now s).
Proof. intros H. apply mgr_ok_out, mgr_ok_appender; [|assumption]. intros a x Hx. simpl. eauto. Qed.

(** ** Deliveries *)

(** The text an appender was given, also when its file could not be opened. *)
Definition delivery (o : output) : list (nat * string) :=
  match o with OWrite i t | OLost i t => [(i, t)] | OOpen _ _ _ => [] end.
Definition deliveries (l : list output) : list (nat * string) := flat_map delivery l.

(** An appender but for its stream. *)
Definition quiet (a : Appender) : Appender := with_time 0 (with_stream true a).

(** Logging changes streams and the trace only. *)
Record logged (s s' : LoggerManager) (d : list (nat * string)) : Prop := {
  lg_loggers : m_loggers s' = m_loggers s;
  lg_heap : quiet <$> heap s' = quiet <$> heap s;
  lg_out : deliveries (out s') = deliveries (out s) ++ d
}.

Lemma logged_refl s : logged s s [].
Proof. split; [reflexivity|reflexivity|rewrite app_nil_r; reflexivity]. Qed.

Lemma logged_trans s1 s2 s3 d e : logged s1 s2 d -> logged s2 s3 e -> logged s1 s3 (d ++ e).
Proof. intros [? ? A] [? ? B]. split; [congruence|congruence|]. rewrite B, A, app_assoc. reflexivity. Qed.

Lemma logged_out s o : logged s (put_out o s) (delivery o).
Proof. split; [reflexivity|reflexivity|]. simpl. unfold deliveries. rewrite flat_map_app. simpl. rewrite app_nil_r. reflexivity. Qed.

Lemma logged_appender s id f : (forall a, quiet (f a) = quiet a) -> logged s (upd_appender id f s) [].
Proof.
  intros Hf. split; [reflexivity| |rewrite app_nil_r; reflexivity]. simpl. apply list_eq. intros i.
  rewrite !list_lookup_fmap, list_lookup_alter. destruct (decide (id = i)) as [->|]; [|reflexivity].
  destruct (heap s !! i); simpl; [rewrite Hf|]; reflexivity.
Qed.

Lemma quiet_lookup s s' d i a : logged s s' d -> heap s !! i = Some a ->
  exists a', heap s' !! i = Some a' /\ a_kind a' = a_kind a /\ a_level a' = a_level a /\
    a_hasFormatter a' = a_hasFormatter a /\ a_formatter a' = a_formatter a.
Proof.
  intros [_ Hh _] Ha. assert (E : (quiet <$> heap s') !! i = (quiet <$> heap s) !! i) by (rewrite Hh; reflexivity).
  rewrite !list_lookup_fmap, Ha in E. destruct (heap s' !! i) as [a'|]; [|discriminate].
  exists a'. injection E as ? ? ? ?. auto.
Qed.

(** What an event brings to one appender. *)
Definition deliver (s : LoggerManager) (level : Z) (e : LogEvent) (id : nat) : list (nat * string) :=
  match heap s !! id with
  | Some a => match a_formatter a with
              | Some f => if level >=? a_level a then [(id, format_items strftime (m_items f) level e)] else []
              | None => []
              end
  | None => []
  end.

Lemma deliver_logged s s' d level e id : logged s s' d -> deliver s' level e id = deliver s level e id.
Proof.
  intros Hl. unfold deliver. destruct (heap s !! id) as [a|] eqn:Ha.
  - destruct (quiet_lookup _ _ _ _ _ Hl Ha) as (a' & -> & _ & -> & _ & ->). reflexivity.
  - destruct (heap s' !! id) as [a'|] eqn:Ha'; [|reflexivity]. exfalso.
    destruct Hl as [_ Hh _]. apply lookup_ge_None_1 in Ha. apply lookup_lt_Some in Ha'.
    apply (f_equal length) in Hh. rewrite !length_fmap in Hh. lia.
Qed.

Lemma appender_log_delivers s level e now id :
  has_formatter s id ->
  exists s', appender_log strftime can_open level e now id s = (s', Ret tt) /\ logged s s' (deliver s level e id).
Proof.
  intros (a & f & Ha & Hf). unfold appender_log, deliver. rewrite cbind_get, Ha, Hf.
  destruct (level >=? a_level a); [|exists s; split; [reflexivity|apply logged_refl]].
  destruct (a_kind a) as [|file]; [eexists; split; [reflexivity|apply logged_out]|].
  set (s1 := if now >=? u64 (a_lastTime a + 3)
             then upd_appender id (with_time now) (reopen can_open id file now s) else s).
  assert (Hl : logged s s1 []).
  { unfold s1. destruct (now >=? _); [|apply logged_refl].
    apply (logged_trans _ (upd_appender id (with_stream (can_open file now)) s) _ [] []);
      [apply logged_appender; reflexivity|].
    eapply (logged_trans _ _ _ [] []); [apply (logged_out _ (OOpen id file (can_open file now)))|].
    apply logged_appender. reflexivity. }
  destruct (quiet_lookup _ _ _ _ _ Hl Ha) as (a' & Ha' & _ & _ & _ & Hf').
  rewrite (cbind_ret _ _ s s1 tt) by (unfold s1; destruct (now >=? _); reflexivity).
  rewrite cbind_get, Ha', Hf', Hf. eexists. split; [reflexivity|].
  apply (logged_trans _ _ _ [] _ Hl).
  replace [(id, format_items strftime (m_items f) level e)]
    with (delivery (if a_stream a' then OWrite id (format_items strftime (m_items f) level e)
                    else OLost id (format_items strftime (m_items f) level e))) by (destruct (a_stream a'); reflexivity).
  apply logged_out.
Qed.

Lemma has_formatter_logged s s' d i : logged s s' d -> has_formatter s i -> has_formatter s' i.
Proof.
  intros Hl (a & f & Ha & Hf). destruct (quiet_lookup _ _ _ _ _ Hl Ha) as (a' & Ha' & _ & _ & _ & Hf').
  exists a', f. split; congruence.
Qed.

Lemma each_delivers level e now ids : forall s,
  Forall (has_formatter s) ids ->
  exists s', each (appender_log strftime can_open level e now) ids s = (s', Ret tt) /\
    logged s s' (flat_map (deliver s level e) ids).
Proof.
  induction ids as [|id ids IH]; intros s Hids; [exists s; split; [reflexivity|apply logged_refl]|].
  inversion Hids as [|? ? Hid Hr]; subst.
  destruct (appender_log_delivers s level e now id Hid) as (s1 & E1 & L1).
  destruct (IH s1) as (s2 & E2 & L2); [eapply Forall_impl; [exact Hr|]; intros i; eapply has_formatter_logged, L1|].
  exists s2. simpl. rewrite (cbind_ret _ _ _ _ _ E1). split; [exact E2|].
  eapply logged_trans; [exact L1|]. erewrite flat_map_ext; [exact L2|]. intros i. symmetry. eapply deliver_logged, L1.
Qed.

(** The appenders an event of a logger goes to: its own, or those of the root
    when it has none. *)
Definition route (s : LoggerManager) (name : string) (level : Z) : list nat :=
  let passes l := if level >=? l_level l then l_appenders l else [] in
  match m_loggers s !! name with
  | None => []
  | Some l =>
      match l_appenders l, l_root l with
      | [], Some r => if level >=? l_level l then match m_loggers s !! r with Some lr => passes lr | None => [] end else []
      | _, _ => passes l
      end
  end.

Lemma log_delivers s name level e now :
  mgr_ok s -> is_Some (m_loggers s !! name) ->
  exists s', log strftime can_open 2 name level e now s = (s', Ret tt) /\
    logged s s' (flat_map (deliver s level e) (route s name level)).
Proof.
  intros Hs [l El]. destruct (mo_root s Hs) as [lr Er].
  destruct (mo_loggers s Hs name l El) as [_ Hroot _ Hap]. destruct (mo_loggers s Hs "root" lr Er) as [_ Hroot' _ Hap'].
  simpl in Hroot'. unfold route. rewrite El. cbn [log]. rewrite cbind_get, El.
  destruct (l_appenders l) as [|x ids] eqn:Ei.
  - rewrite Hroot. case_bool_decide as En; [destruct (level >=? l_level l); exists s; split; try reflexivity; apply logged_refl|].
    rewrite Er. destruct (level >=? l_level l); [|exists s; split; [reflexivity|apply logged_refl]].
    rewrite cbind_get, Er. destruct (level >=? l_level lr); [|exists s; split; [reflexivity|apply logged_refl]].
    destruct (l_appenders lr) as [|y ids'] eqn:Ei'; [rewrite Hroot'; exists s; split; [reflexivity|apply logged_refl]|].
    apply each_delivers, Hap'.
  - destruct (level >=? l_level l); [|exists s; split; [reflexivity|apply logged_refl]]. apply each_delivers, Hap.
Qed.

(** ** Runs *)

Lemma logged_ok s s' d : logged s s' d -> mgr_ok s -> mgr_ok s'.
Proof. intros Hl. apply mgr_ok_heap; [apply Hl|]. intros i. apply (has_formatter_logged _ _ _ _ Hl). Qed.

Lemma each_preserves {A} (f : A -> ML unit) l :
  (forall x s s', mgr_ok s -> f x s = (s', Ret tt) -> mgr_ok s') ->
  forall s s', mgr_ok s -> each f l s = (s', Ret tt) -> mgr_ok s'.
Proof.
  intros Hf. induction l as [|x l IH]; intros s s' Hs; simpl; [intros [= <-]; assumption|].
  unfold cbind. destruct (f x s) as [s1 [[]| |]] eqn:E; try discriminate. apply IH. eapply Hf; eassumption.
Qed.

(** A new appender, its number and its fields. *)
Definition fresh (k : kind) (stream : bool) : Appender := mkAppender k LogLevel.DEBUG false None 0 stream.

Lemma made_heap (s : LoggerManager) k : heap (set_heap (fun h => h ++ [fresh k true]) s) !! length (heap s) = Some (fresh k true).
Proof. simpl. apply list_lookup_middle. reflexivity. Qed.

Lemma upd_is_Some s id f i : is_Some (heap s !! i) -> is_Some (heap (upd_appender id f s) !! i).
Proof.
  intros Hi. simpl. rewrite list_lookup_alter. destruct (decide _) as [->|]; [apply fmap_is_Some|]; exact Hi.
Qed.

Lemma make_appender_ok now name a s s' : mgr_ok s -> make_appender can_open now name a s = (s', Ret tt) -> mgr_ok s'.
Proof.
  intros Hs. unfold make_appender. destruct (if d_type a =? 1 then _ else _) as [[s1 ap]|] eqn:E; [|discriminate].
  assert (H1 : mgr_ok s1 /\ is_Some (heap s1 !! ap)).
  { destruct (d_type a =? 1); [|destruct (d_type a =? 2); [|discriminate]]; injection E as <- <-.
    - split; [apply reopen_ok, mgr_ok_new_appender, Hs|]. apply upd_is_Some. eexists. apply made_heap.
    - split; [apply mgr_ok_new_appender, Hs|]. eexists. apply made_heap. }
  destruct H1 as [H1 Hap]. intros [= <-]. apply (upd_is_Some _ ap (with_level (d_level a))) in Hap.
  apply (appender_setLevel_ok _ ap (d_level a)) in H1. destruct (bool_decide _); [apply addAppender_ok; assumption|].
  destruct (m_error _); [apply addAppender_ok; assumption|].
  apply addAppender_ok; [apply upd_is_Some; assumption|apply appender_setFormatter_ok; assumption].
Qed.

(** The logger of a definition with its level, formatter and no appenders. *)
Definition prepared (i : LogDefine) (s : LoggerManager) : LoggerManager :=
  clearAppenders (d_name i)
    (let s1 := setLevel (d_name i) (d_loglevel i) (getLogger (d_name i) s) in
     if bool_decide (d_logformatter i = "") then s1 else setFormatter_pattern (d_name i) (d_logformatter i) s1).

Lemma apply_define_ret old now i s s' o :
  apply_define can_open old now i s = (s', Ret o) ->
  find_define i old <> Some i /\ each (make_appender can_open now (d_name i)) (d_appenders i) (prepared i s) = (s', Ret o).
Proof.
  unfold apply_define. destruct (find_define i old) as [d|].
  - destruct (decide (i = d)) as [|Hne]; [discriminate|]. autorewrite with cmonad. intros H. split; [congruence|exact H].
  - autorewrite with cmonad. intros H. split; [discriminate|exact H].
Qed.

Lemma conf_changed_ok e now old new s s' :
  mgr_ok s -> on_logger_conf_changed strftime can_open e now old new s = (s', Ret tt) -> mgr_ok s'.
Proof.
  intros Hs. unfold on_logger_conf_changed, SYLAR_LOG_LEVEL. unfold cbind at 1. rewrite cbind_get.
  destruct (mo_root s Hs) as [lr Er]. rewrite Er.
  assert (Hlog : exists s1 d, (if l_level lr <=? LogLevel.INFO then log strftime can_open 2 "root" LogLevel.INFO e now else cret tt) s
    = (s1, Ret tt) /\ logged s s1 d).
  { destruct (_ <=? _).
    - destruct (log_delivers s "root" LogLevel.INFO e now Hs (mk_is_Some _ _ Er)) as (s1 & E & L). eauto.
    - exists s, []. split; [reflexivity|apply logged_refl]. }
  destruct Hlog as (s1 & d & -> & L). pose proof (logged_ok _ _ _ L Hs) as H1.
  unfold cbind at 1. destruct (each _ new s1) as [s2 [[]| |]] eqn:E2; try discriminate.
  eapply each_preserves; [|eapply each_preserves; [|exact H1|exact E2]]; clear -strftime.
  - intros i s s' Hs. unfold drop_define. destruct (find_define i new); [intros [= <-]; assumption|].
    autorewrite with cmonad. intros [= <-]. apply clearAppenders_ok, setLevel_ok, getLogger_ok, Hs.
  - intros i s s' Hs Hi. apply apply_define_ret in Hi as (_ & Hi). revert Hi.
    apply each_preserves; [intros; eapply make_appender_ok; eassumption|].
    apply clearAppenders_ok. destruct (bool_decide _); [|apply setFormatter_pattern_ok]; apply setLevel_ok, getLogger_ok, Hs.
Qed.

(** The calls of a program that passes no null pointers. *)
Inductive step : LoggerManager -> LoggerManager -> Prop :=
  | step_get s name : step s (getLogger name s)
  | step_level s name v : step s (setLevel name v s)
  | step_formatter s name f : step s (setFormatter name (Some f) s)
  | step_pattern s name p : step s (setFormatter_pattern name p s)
  | step_stdout s : step s (StdoutLogAppender_new s).1
  | step_file s file now : step s (FileLogAppender_new can_open file now s).1
  | step_alevel s id v : step s (appender_setLevel id v s)
  | step_aformatter s id f : step s (appender_setFormatter id (Some f) s)
  | step_reopen s id file now : step s (reopen can_open id file now s)
  | step_add s name id : is_Some (heap s !! id) -> step s (addAppender name id s)
  | step_del s name id : step s (delAppender name id s)
  | step_clear s name : step s (clearAppenders name s)
  | step_log s s' name level e now : log strftime can_open 2 name level e now s = (s', Ret tt) -> step s s'
  | step_conf s s' e now old new : on_logger_conf_changed strftime can_open e now old new s = (s', Ret tt) -> step s s'.

Lemma mgr_step_ok s s' : step s s' -> mgr_ok s -> mgr_ok s'.
Proof.
  intros H Hs. destruct H; auto using getLogger_ok, setLevel_ok, setFormatter_ok, setFormatter_pattern_ok,
    appender_setLevel_ok, appender_setFormatter_ok, reopen_ok, addAppender_ok, delAppender_ok, clearAppenders_ok,
    mgr_ok_new_appender.
  - apply mgr_ok_new_appender, Hs.
  - apply reopen_ok, mgr_ok_new_appender, Hs.
  - destruct (m_loggers s !! name) as [l|] eqn:El.
    + destruct (log_delivers s name level e now Hs (mk_is_Some _ _ El)) as (s2 & E & L).
      rewrite E in H. injection H as <-. eapply logged_ok; eassumption.
    + cbn [log] in H. rewrite cbind_get, El in H. discriminate.
  - eapply conf_changed_ok; eassumption.
Qed.

Lemma reachable_ok s : rtc step LoggerManager_new s -> mgr_ok s.
Proof.
  intros Hr. assert (Hgen : mgr_ok LoggerManager_new -> mgr_ok s); [|exact (Hgen mgr_ok_new)].
  induction Hr as [|s1 s2 s3 H _ IH]; [auto|]. intros H1. apply IH. eapply mgr_step_ok; eassumption.
Qed.

(** C38: In every state that the calls reach, with appenders shared between
    loggers, formatters replaced and configurations applied in any order,
    logging to a logger of the table returns (no formatter is a null pointer and
    the call goes up at most once), changes neither loggers nor appenders but for
    their streams, and gives the event, formatted by the appender's formatter,
    to exactly the appenders of the logger, or of the root when it has none,
    whose threshold the level passes, once for each time they were added and in
    that order; nothing when the level is below the logger's threshold. *)
Theorem log_routes s name level e now :
  rtc step LoggerManager_new s -> is_Some (m_loggers s !! name) ->
  exists s', log strftime can_open 2 name level e now s = (s', Ret tt) /\
    m_loggers s' = m_loggers s /\ quiet <$> heap s' = quiet <$> heap s /\
    deliveries (out s') = deliveries (out s) ++ flat_map (deliver s level e) (route s name level).
Proof.
  intros Hr%reachable_ok Hn.
  destruct (log_delivers s name level e now Hr Hn) as (s' & E & [L1 L2 L3]). exists s'. auto.
Qed.
End log.

(** A logger without appenders and one with a file of its own. *)
Lemma log_routes_witness :
  let st := fun (f : string) (_ : Z) => f in
  let op := fun (_ : string) (_ : Z) => true in
  let s1 := getLogger "sys" (getLogger "db" LoggerManager_new) in
  let s2 := (FileLogAppender_new op "db.log" 9 s1).1 in
  let s := appender_setFormatter 1 (Some (LogFormatter_new "%m")) (addAppender "db" 1 s2) in
  let e := event_write "x" (LogEvent_new "db" 1 "f" 1 0 0 0 5 "t") in
  exists s', log st op 2 "db" LogLevel.INFO e 5 s = (s', Ret tt) /\
    deliveries (out s') = deliveries (out s) ++ [(1%nat, "x")].
Proof.
  intros st op s1 s2 s e.
  destruct (log_routes st op s "db" LogLevel.INFO e 5) as (s' & E & _ & _ & H).
  - eapply rtc_l; [apply (step_get _ _ _ "db")|]. eapply rtc_l; [apply (step_get _ _ _ "sys")|].
    eapply rtc_l; [apply (step_file _ _ _ "db.log" 9)|]. eapply rtc_l; [apply (step_add _ _ _ "db" 1); eexists; reflexivity|].
    eapply rtc_l; [apply (step_aformatter _ _ _ 1 (LogFormatter_new "%m"))|]. apply rtc_refl.
  - eexists. reflexivity.
  - exists s'. split; [exact E|]. rewrite H. reflexivity.
Defined.
