(* ===== verification/LogConf.v ===== *)
(** * Applying a log configuration

    What the listener of the configuration variable "logs" does to the loggers
    for an old and a new set of definitions. *)

From Stdlib Require Import ZArith Lia Ascii String List.
From stdpp Require Import base list strings gmap.
From S2P Require Import Prelude Ordered CString Log LogManager LogRoutes.

Local Open Scope string_scope.
Local Open Scope list_scope.
Local Open Scope Z_scope.
Local Open Scope cpp_scope.

Section conf.
Context (strftime : string -> Z -> string) (can_open : string -> Z -> bool).

(** A formatter that is given and not broken. *)
Definition own_formatter (p : string) : option LogFormatter :=
  if bool_decide (p = "") then None
  else let f := LogFormatter_new p in if m_error f then None else Some f.

(** The appender that a definition asks for, under a logger with formatter [lf]. *)
Definition made (lf : option LogFormatter) (now : Z) (d : LogAppenderDefine) : Appender :=
  let own := own_formatter (d_formatter d) in
  mkAppender (if d_type d =? 1 then FileLogAppender (d_file d) else StdoutLogAppender) (d_level d)
    (match own with Some _ => true | None => false end) (match own with Some _ => own | None => lf end) 0
    (if d_type d =? 1 then can_open (d_file d) now else true).

Definition type_ok (d : LogAppenderDefine) : Prop := d_type d = 1 \/ d_type d = 2.

Lemma alter_last {A} (f : A -> A) (h : list A) x : alter f (length h) (h ++ [x]) = h ++ [f x].
Proof. induction h; simpl; [reflexivity|]. f_equal. assumption. Qed.

Lemma upd_last f s h x : heap s = h ++ [x] -> heap (upd_appender (length h) f s) = h ++ [f x].
Proof. intros E. simpl. rewrite E. apply alter_last. Qed.

Lemma make_appender_spec now name d l s :
  type_ok d -> m_loggers s !! name = Some l ->
  exists s', make_appender can_open now name d s = (s', Ret tt) /\
    m_loggers s' = <[name := lwith_appenders (l_appenders l ++ [length (heap s)]) l]> (m_loggers s) /\
    heap s' = heap s ++ [made (l_formatter l) now d].
Proof.
  intros Ht Hl. unfold make_appender.
  set (r := if d_type d =? 1 then _ else _).
  assert (Hr : exists s1, r = Some (s1, length (heap s)) /\ m_loggers s1 = m_loggers s /\
    heap s1 = heap s ++ [mkAppender (if d_type d =? 1 then FileLogAppender (d_file d) else StdoutLogAppender)
      LogLevel.DEBUG false None 0 (if d_type d =? 1 then can_open (d_file d) now else true)]).
  { unfold r. destruct Ht as [->| ->]; simpl; eexists; (split; [reflexivity|]); (split; [reflexivity|]); [|reflexivity].
    exact (alter_last (with_stream (can_open (d_file d) now)) (heap s) (fresh (FileLogAppender (d_file d)) true)). }
  destruct Hr as (s1 & -> & Hl1 & Hh1). eexists. split; [reflexivity|].
  apply (upd_last (with_level (d_level d))) in Hh1.
  set (s2 := if bool_decide (d_formatter d = "") then _ else _).
  assert (Hs2 : m_loggers s2 = m_loggers s /\ exists f h, (h, f) = match own_formatter (d_formatter d) with Some f => (true, Some f) | None => (false, None) end /\
    heap s2 = heap s ++ [mkAppender (if d_type d =? 1 then FileLogAppender (d_file d) else StdoutLogAppender)
      (d_level d) h f 0 (if d_type d =? 1 then can_open (d_file d) now else true)]).
  { unfold s2, own_formatter. destruct (bool_decide _); [split; [exact Hl1|eauto]|].
    cbv zeta. destruct (m_error _); [split; [exact Hl1|eauto]|]. split; [exact Hl1|]. eexists _, _. split; [reflexivity|].
    apply (upd_last (with_formatter true (Some (LogFormatter_new (d_formatter d))))) in Hh1. exact Hh1. }
  destruct Hs2 as (Hl2 & f & h & Ef & Hh2). unfold addAppender. rewrite Hl2, Hl. split.
  - simpl. rewrite Hl2. apply map_eq. intros k. rewrite lookup_alter, lookup_insert.
    destruct (decide (name = k)) as [<-|]; [rewrite Hl|]; reflexivity.
  - simpl. rewrite Hh2, alter_last. unfold made.
    destruct (own_formatter (d_formatter d)); injection Ef as -> ->; reflexivity.
Qed.

Lemma make_appenders_spec now name ds : forall l s,
  Forall type_ok ds -> m_loggers s !! name = Some l ->
  exists s', each (make_appender can_open now name) ds s = (s', Ret tt) /\
    m_loggers s' = <[name := lwith_appenders (l_appenders l ++ seq (length (heap s)) (length ds)) l]> (m_loggers s) /\
    heap s' = heap s ++ map (made (l_formatter l) now) ds.
Proof.
  induction ds as [|d ds IH]; intros l s Ht Hl.
  - exists s. simpl. rewrite !app_nil_r. split; [reflexivity|]. split; [|reflexivity].
    rewrite insert_id; [reflexivity|]. rewrite Hl. destruct l; reflexivity.
  - inversion Ht as [|? ? Hd Hds]; subst. destruct (make_appender_spec now name d l s) as (s1 & E1 & L1 & H1); [assumption|assumption|].
    destruct (IH (lwith_appenders (l_appenders l ++ [length (heap s)]) l) s1) as (s2 & E2 & L2 & H2);
      [assumption|rewrite L1; apply lookup_insert_eq|].
    exists s2. simpl. rewrite (cbind_ret _ _ _ _ _ E1). split; [exact E2|]. rewrite L2, H2, L1, H1. simpl. split.
    + rewrite insert_insert_eq. unfold lwith_appenders. simpl. rewrite <- app_assoc, length_app. simpl.
      rewrite Nat.add_1_r. reflexivity.
    + rewrite <- app_assoc. reflexivity.
Qed.

(** ** One definition *)

(** The logger as [getLogger] finds or makes it. *)
Definition old_logger (s : LoggerManager) (name : string) : Logger :=
  match m_loggers s !! name with
  | Some l => l
  | None => mkLogger name LogLevel.DEBUG [] (Some (LogFormatter_new default_pattern)) (Some "root")
  end.

Definition configured (l : Logger) (i : LogDefine) : Logger :=
  mkLogger (l_name l) (d_loglevel i) []
    (match own_formatter (d_logformatter i) with Some f => Some f | None => l_formatter l end) (l_root l).

Lemma getLogger_loggers s name : m_loggers (getLogger name s) = <[name := old_logger s name]> (m_loggers s) /\
  heap (getLogger name s) = heap s.
Proof.
  unfold getLogger, old_logger. destruct (m_loggers s !! name) as [l|] eqn:E; [|split; reflexivity].
  rewrite insert_id by assumption. split; reflexivity.
Qed.

Lemma upd_logger_insert s s0 name l f :
  m_loggers s = <[name := l]> s0 -> m_loggers (upd_logger name f s) = <[name := f l]> s0.
Proof. intros E. simpl. rewrite E. apply alter_insert_eq. Qed.

(** Replacing the formatter touches the appenders of the logger only. *)
Lemma upd_all_heap f ids : forall s,
  let s' := fold_left (fun s id => upd_appender id f s) ids s in
  m_loggers s' = m_loggers s /\ length (heap s') = length (heap s) /\
  forall i, i ∉ ids -> heap s' !! i = heap s !! i.
Proof.
  induction ids as [|id ids IH]; intros s; simpl; [auto|].
  destruct (IH (upd_appender id f s)) as (H1 & H2 & H3). split_and!.
  - rewrite H1. reflexivity.
  - rewrite H2. simpl. apply length_alter.
  - intros i Hi. rewrite H3 by set_solver. simpl. apply list_lookup_alter_ne. set_solver.
Qed.

Lemma prepared_spec i s :
  m_loggers (prepared i s) = <[d_name i := configured (old_logger s (d_name i)) i]> (m_loggers s) /\
  length (heap (prepared i s)) = length (heap s) /\
  forall k, k ∉ l_appenders (old_logger s (d_name i)) -> heap (prepared i s) !! k = heap s !! k.
Proof.
  unfold prepared. set (s1 := setLevel _ _ _). set (l0 := old_logger s (d_name i)).
  assert (H1 : m_loggers s1 = <[d_name i := lwith_level (d_loglevel i) l0]> (m_loggers s) /\ heap s1 = heap s).
  { destruct (getLogger_loggers s (d_name i)) as [E1 E2]. split; [|exact E2]. apply upd_logger_insert, E1. }
  clearbody s1. destruct H1 as [H1 H1']. unfold configured, own_formatter, clearAppenders.
  destruct (bool_decide (d_logformatter i = "")).
  { split; [|simpl; rewrite H1'; auto]. erewrite upd_logger_insert by exact H1. reflexivity. }
  unfold setFormatter_pattern. cbv zeta. destruct (m_error (LogFormatter_new (d_logformatter i))).
  { split; [|simpl; rewrite H1'; auto]. erewrite upd_logger_insert by exact H1. reflexivity. }
  unfold setFormatter. rewrite H1, lookup_insert_eq.
  set (s2 := upd_logger (d_name i) (lwith_formatter _) s1).
  destruct (upd_all_heap (fun a => if a_hasFormatter a then a else with_formatter false (Some (LogFormatter_new (d_logformatter i))) a)
    (l_appenders (lwith_level (d_loglevel i) l0)) s2) as (E1 & E2 & E3).
  assert (H2 : m_loggers s2 = <[d_name i := lwith_formatter (Some (LogFormatter_new (d_logformatter i))) (lwith_level (d_loglevel i) l0)]> (m_loggers s))
    by (apply upd_logger_insert, H1).
  assert (H2' : heap s2 = heap s) by exact H1'. clearbody s2.
  split; [|split].
  - erewrite upd_logger_insert; [|rewrite E1; exact H2]. reflexivity.
  - simpl in *. rewrite E2, H2'. reflexivity.
  - intros k Hk. simpl in *. rewrite E3, H2' by exact Hk. reflexivity.
Qed.

Lemma apply_define_spec old now i s :
  find_define i old <> Some i -> Forall type_ok (d_appenders i) ->
  let l := configured (old_logger s (d_name i)) i in
  exists s', apply_define can_open old now i s = (s', Ret tt) /\
    m_loggers s' = <[d_name i := lwith_appenders (seq (length (heap s)) (length (d_appenders i))) l]> (m_loggers s) /\
    (forall k, (k < length (heap s))%nat -> k ∉ l_appenders (old_logger s (d_name i)) -> heap s' !! k = heap s !! k) /\
    exists h, length h = length (heap s) /\ heap s' = h ++ map (made (l_formatter l) now) (d_appenders i).
Proof.
  intros Hnew Ht l. destruct (prepared_spec i s) as (P1 & P2 & P3).
  destruct (make_appenders_spec now (d_name i) (d_appenders i) l (prepared i s) Ht) as (s' & E & L & H);
    [rewrite P1; apply lookup_insert_eq|].
  exists s'. split_and!.
  - unfold apply_define. destruct (find_define i old) as [d|]; [rewrite decide_False by congruence|];
      autorewrite with cmonad; exact E.
  - rewrite L, P1, insert_insert_eq, P2. reflexivity.
  - intros k Hk Hn. rewrite H, lookup_app_l by lia. apply P3, Hn.
  - eauto.
Qed.

(** ** All definitions *)

(** The logger of [i] is as the definition asks, on appenders that were made for
    it: [n] is the number of appenders before. *)
Definition set_up (s0 s : LoggerManager) (n : nat) (now : Z) (i : LogDefine) : Prop :=
  let l := configured (old_logger s0 (d_name i)) i in
  exists ids, m_loggers s !! d_name i = Some (lwith_appenders ids l) /\
    Forall2 (fun d id => (n <= id)%nat /\ heap s !! id = Some (made (l_formatter l) now d)) (d_appenders i) ids.

Record conf_inv (s0 : LoggerManager) (now : Z) (done : list LogDefine) (s : LoggerManager) : Prop := {
  ci_len : (length (heap s0) <= length (heap s))%nat;
  ci_rest : forall k, k ∉ map d_name done -> m_loggers s !! k = m_loggers s0 !! k;
  ci_done : Forall (set_up s0 s (length (heap s0)) now) done
}.

Lemma seq_lookup {A B} (f : A -> B) ds : forall h n, (n <= length h)%nat ->
  Forall2 (fun d id => (n <= id)%nat /\ (h ++ map f ds) !! id = Some (f d)) ds (seq (length h) (length ds)).
Proof.
  induction ds as [|d ds IH]; intros h n Hn; simpl; constructor.
  - split; [assumption|]. apply list_lookup_middle. reflexivity.
  - specialize (IH (h ++ [f d]) n). rewrite length_app in IH. simpl in IH. rewrite Nat.add_1_r, <- app_assoc in IH.
    apply IH. lia.
Qed.

Lemma old_appenders s name : mgr_ok s -> Forall (fun k => (k < length (heap s))%nat) (l_appenders (old_logger s name)).
Proof.
  intros Hs. unfold old_logger. destruct (m_loggers s !! name) as [l|] eqn:E; [|constructor].
  destruct (mo_loggers s Hs name l E) as [_ _ _ Ha]. eapply Forall_impl; [exact Ha|].
  intros k (a & f & Hk & _). eapply lookup_lt_Some, Hk.
Qed.

Lemma apply_one old s0 now done i s :
  mgr_ok s0 -> conf_inv s0 now done s -> d_name i ∉ map d_name done ->
  find_define i old <> Some i -> Forall type_ok (d_appenders i) ->
  exists s', apply_define can_open old now i s = (s', Ret tt) /\ conf_inv s0 now (i :: done) s'.
Proof.
  intros Hs0 [Hlen Hrest Hdone] Hi Hnew Ht.
  destruct (apply_define_spec old now i s Hnew Ht) as (s' & E & L & H & h & Hh & Eh).
  assert (Eo : old_logger s (d_name i) = old_logger s0 (d_name i)) by (unfold old_logger; rewrite Hrest by assumption; reflexivity).
  rewrite Eo in *. exists s'. split; [exact E|]. split.
  - rewrite Eh, length_app. lia.
  - intros k Hk. simpl in Hk. rewrite L, lookup_insert_ne by set_solver. apply Hrest. set_solver.
  - constructor.
    + exists (seq (length (heap s)) (length (d_appenders i))). rewrite L, lookup_insert_eq. split; [reflexivity|].
      rewrite Eh, <- Hh. apply seq_lookup. lia.
    + apply Forall_forall. intros j Hj. rewrite Forall_forall in Hdone. destruct (Hdone j Hj) as (ids & Ej & Fj).
      exists ids. split.
      * rewrite L, lookup_insert_ne; [exact Ej|]. intros Ename. apply Hi. rewrite Ename. apply list_elem_of_In, in_map, list_elem_of_In, Hj.
      * eapply Forall2_impl; [exact Fj|]. intros d id [Hid Hlk]. split; [assumption|]. rewrite H; [exact Hlk| |].
        -- eapply lookup_lt_Some, Hlk.
        -- intros Hin. pose proof (old_appenders s0 (d_name i) Hs0) as Ho. rewrite Forall_forall in Ho. specialize (Ho _ Hin). simpl in Ho. lia.
Qed.

(** Some definition is in both values as it is. *)
Definition unchanged (old new : list LogDefine) : bool := existsb (fun i => bool_decide (i ∈ old)) new.

Lemma find_define_in i old : NoDup (map d_name old) -> find_define i old = Some i <-> i ∈ old.
Proof.
  unfold find_define. intros Hnd. split; [intros H%find_some; apply list_elem_of_In, H|].
  induction old as [|d old IH]; [set_solver|]. simpl in *. inversion Hnd as [|? ? Hd Hr]; subst.
  intros [->|Hi]%elem_of_cons; [rewrite bool_decide_eq_true_2 by reflexivity; reflexivity|].
  rewrite bool_decide_eq_false_2; [auto|]. intros E. apply Hd. rewrite E. apply list_elem_of_In, in_map, list_elem_of_In, Hi.
Qed.

Lemma apply_all old s0 now new : mgr_ok s0 -> NoDup (map d_name old) -> forall done s,
  conf_inv s0 now done s -> NoDup (map d_name new) -> (forall i, i ∈ new -> d_name i ∉ map d_name done) ->
  Forall (fun i => Forall type_ok (d_appenders i)) new ->
  if unchanged old new then (each (apply_define can_open old now) new s).2 = Undef NullDeref
  else exists s', each (apply_define can_open old now) new s = (s', Ret tt) /\ conf_inv s0 now (rev new ++ done) s'.
Proof.
  intros Hs0 Hold. induction new as [|i new IH]; intros done s Hinv Hnd Hfresh Ht; simpl; [eauto|].
  inversion Hnd as [|? ? Hi Hnd']; inversion Ht as [|? ? Hti Ht']; subst.
  destruct (bool_decide (i ∈ old)) eqn:Ei; simpl.
  { apply bool_decide_eq_true, (find_define_in i old Hold) in Ei. unfold apply_define at 1. rewrite Ei, decide_True by reflexivity.
    reflexivity. }
  apply bool_decide_eq_false in Ei.
  destruct (apply_one old s0 now done i s Hs0 Hinv) as (s1 & E1 & H1);
    [apply Hfresh; set_solver|intros Hf; apply Ei, (find_define_in i old Hold), Hf|assumption|].
  rewrite (cbind_ret _ _ _ _ _ E1), <- app_assoc. apply (IH (i :: done) s1 H1 Hnd'); [|assumption].
  intros j Hj. simpl. apply not_elem_of_cons. split; [|apply Hfresh; set_solver].
  intros E. apply Hi. rewrite <- E. apply list_elem_of_In, in_map, list_elem_of_In, Hj.
Qed.

(** ** Definitions that are gone *)

Definition dropped (l : Logger) : Logger := lwith_appenders [] (lwith_level 100 l).

Definition gone (new : list LogDefine) (l : list LogDefine) : list string :=
  map d_name (filter (fun i => d_name i ∉ map d_name new) l).

Lemma find_define_none i new : find_define i new = None <-> d_name i ∉ map d_name new.
Proof.
  unfold find_define. split.
  - intros H Hin. apply list_elem_of_In, in_map_iff in Hin as (d & E & Hd).
    apply (find_none _ _ H) in Hd. rewrite bool_decide_eq_true_2 in Hd by assumption. discriminate.
  - intros Hn. destruct (find _ new) as [d|] eqn:E; [|reflexivity]. apply find_some in E as [Hd E].
    apply bool_decide_eq_true in E. exfalso. apply Hn. rewrite <- E. apply list_elem_of_In, in_map, Hd.
Qed.

Lemma drop_define_spec new i s :
  exists s', drop_define new i s = (s', Ret tt) /\ heap s' = heap s /\
    m_loggers s' = if decide (d_name i ∉ map d_name new) then <[d_name i := dropped (old_logger s (d_name i))]> (m_loggers s)
                   else m_loggers s.
Proof.
  unfold drop_define. destruct (find_define i new) as [d|] eqn:E.
  - exists s. rewrite decide_False; [auto|]. rewrite <- find_define_none, E. discriminate.
  - autorewrite with cmonad. eexists. split; [reflexivity|]. destruct (getLogger_loggers s (d_name i)) as [E1 E2].
    split; [exact E2|]. rewrite decide_True by (apply find_define_none, E).
    apply (upd_logger_insert _ _ _ (lwith_level 100 (old_logger s (d_name i)))), upd_logger_insert, E1.
Qed.

Lemma drop_all new old : NoDup (map d_name old) -> forall s,
  exists s', each (drop_define new) old s = (s', Ret tt) /\ heap s' = heap s /\
    forall k, m_loggers s' !! k = if decide (k ∈ gone new old) then Some (dropped (old_logger s k)) else m_loggers s !! k.
Proof.
  induction old as [|i old IH]; intros Hnd s; [exists s; auto|]. inversion Hnd as [|? ? Hi Hr]; subst.
  destruct (drop_define_spec new i s) as (s1 & E1 & H1 & L1). destruct (IH Hr s1) as (s2 & E2 & H2 & L2).
  exists s2. simpl. rewrite (cbind_ret _ _ _ _ _ E1). split; [exact E2|]. split; [congruence|]. intros k. rewrite L2.
  assert (Hin : d_name i ∉ gone new old).
  { intros H. apply Hi. unfold gone in H. apply list_elem_of_In, in_map_iff in H as (d & Ed & Hd).
    apply list_elem_of_In, list_elem_of_filter in Hd as [_ Hd]. rewrite <- Ed. apply list_elem_of_In, in_map, list_elem_of_In, Hd. }
  unfold gone. rewrite filter_cons. destruct (decide (d_name i ∉ map d_name new)) as [Hn|Hn]; fold (gone new old).
  - unfold gone. simpl. fold (gone new old). destruct (decide (k = d_name i)) as [->|Hk].
    + rewrite decide_False by assumption. rewrite decide_True by set_solver. rewrite L1, lookup_insert_eq. reflexivity.
    + assert (Ek : m_loggers s1 !! k = m_loggers s !! k) by (rewrite L1; apply lookup_insert_ne; congruence).
      assert (Eo : old_logger s1 k = old_logger s k) by (unfold old_logger; rewrite Ek; reflexivity).
      rewrite Ek, Eo. destruct (decide (k ∈ gone new old)); [rewrite decide_True by set_solver|rewrite decide_False by set_solver]; reflexivity.
  - assert (Eo : old_logger s1 k = old_logger s k) by (unfold old_logger; rewrite L1; reflexivity).
    rewrite L1, Eo. reflexivity.
Qed.

(** ** The listener *)

Lemma conf_announced e now old new s :
  mgr_ok s -> exists s1 d, logged s s1 d /\ mgr_ok s1 /\
    on_logger_conf_changed strftime can_open e now old new s =
    (each (apply_define can_open old now) new ;;; each (drop_define new) old) s1.
Proof.
  intros Hs. destruct (mo_root s Hs) as [lr Er]. unfold on_logger_conf_changed, SYLAR_LOG_LEVEL.
  assert (H : exists s1 d, (let! ls := cget m_loggers in match ls !! "root" with
      | None => cundef NullDeref
      | Some l => if l_level l <=? LogLevel.INFO then log strftime can_open 2 "root" LogLevel.INFO e now else cret tt
      end) s = (s1, Ret tt) /\ logged s s1 d).
  { rewrite cbind_get, Er. destruct (_ <=? _).
    - destruct (log_delivers strftime can_open s "root" LogLevel.INFO e now Hs (mk_is_Some _ _ Er)) as (s1 & E & L). eauto.
    - exists s, []. split; [reflexivity|apply logged_refl]. }
  destruct H as (s1 & d & E & L). exists s1, d. split; [exact L|]. split; [eapply logged_ok; eassumption|].
  rewrite (cbind_ret _ _ _ _ _ E). reflexivity.
Qed.

Lemma set_up_logged s0 s1 s d n now i :
  logged s0 s1 d -> set_up s1 s n now i -> set_up s0 s n now i.
Proof.
  intros L. unfold set_up. replace (old_logger s1 (d_name i)) with (old_logger s0 (d_name i)); [auto|].
  unfold old_logger. rewrite (lg_loggers _ _ _ L). reflexivity.
Qed.

Lemma logged_length s s' d : logged s s' d -> length (heap s') = length (heap s).
Proof. intros L. pose proof (f_equal length (lg_heap _ _ _ L)) as E. rewrite !length_fmap in E. exact E. Qed.

(** C39: When the set of definitions changes, and some definition is in the old
    and the new value as it is, the listener uses a null pointer.  Otherwise it
    returns, and then each logger of the new value has the level of its
    definition, its formatter if that is given and not broken (else the one it
    had), and appenders of its own as they are listed, each with its level and
    its formatter or else the logger's; the loggers that only the old value names
    have no appenders and a level that no event passes; all other loggers are as
    they were. *)
Theorem conf_changed_spec s e now old new :
  rtc (step strftime can_open) LoggerManager_new s ->
  NoDup (map d_name old) -> NoDup (map d_name new) -> Forall (fun i => Forall type_ok (d_appenders i)) new ->
  if unchanged old new then (on_logger_conf_changed strftime can_open e now old new s).2 = Undef NullDeref
  else exists s', on_logger_conf_changed strftime can_open e now old new s = (s', Ret tt) /\
    (forall i, i ∈ new -> set_up s s' (length (heap s)) now i) /\
    (forall k, k ∈ gone new old -> m_loggers s' !! k = Some (dropped (old_logger s k))) /\
    (forall k, k ∉ map d_name new -> k ∉ gone new old -> m_loggers s' !! k = m_loggers s !! k).
Proof.
  intros Hr Hold Hnew Ht. destruct (conf_announced e now old new s) as (s1 & d & L & Hs1 & ->);
    [eapply reachable_ok; eassumption|].
  assert (Hinv : conf_inv s1 now [] s1) by (split; [lia|reflexivity|constructor]).
  pose proof (apply_all old s1 now new Hs1 Hold [] s1 Hinv Hnew ltac:(set_solver) Ht) as Happ.
  destruct (unchanged old new).
  { unfold cbind. destruct (each _ new s1) as [s2 [u|x|x]]; simpl in *; congruence. }
  destruct Happ as (s2 & E2 & [Hlen Hrest Hdone]). destruct (drop_all new old Hold s2) as (s3 & E3 & H3 & L3).
  exists s3. rewrite (cbind_ret _ _ _ _ _ E2). split; [exact E3|]. rewrite app_nil_r in *.
  assert (Hgone : forall k, k ∈ gone new old -> k ∉ map d_name new).
  { intros k Hk. unfold gone in Hk. apply list_elem_of_In, in_map_iff in Hk as (i & <- & Hi).
    apply list_elem_of_In, list_elem_of_filter in Hi as [Hi _]. exact Hi. }
  assert (Hrest' : forall k, k ∉ map d_name new -> m_loggers s2 !! k = m_loggers s !! k).
  { intros k Hk. rewrite Hrest, (lg_loggers _ _ _ L); [reflexivity|]. rewrite map_rev, list_elem_of_In, <- in_rev, <- list_elem_of_In. exact Hk. }
  split_and!.
  - intros i Hi. apply (set_up_logged s s1 _ d _ _ _ L). rewrite <- (logged_length _ _ _ L).
    rewrite Forall_forall in Hdone. destruct (Hdone i) as (ids & E & F); [rewrite list_elem_of_In, <- in_rev, <- list_elem_of_In; exact Hi|].
    exists ids. rewrite H3, L3, decide_False; [auto|]. intros H. apply (Hgone _ H). apply list_elem_of_In, in_map, list_elem_of_In, Hi.
  - intros k Hk. rewrite L3, decide_True by assumption. unfold old_logger. rewrite Hrest' by auto. reflexivity.
  - intros k Hk Hg. rewrite L3, decide_False by assumption. auto.
Qed.
End conf.

(** A new logger with a file, one that is gone, and one that is kept. *)
Lemma conf_changed_spec_witness :
  let st := fun (f : string) (_ : Z) => f in
  let op := fun (_ : string) (_ : Z) => true in
  let a := mkAppenderDefine 1 0 "" "db.log" in
  let new := [mkDefine "db" 2 "%m" [a]] in
  let old := [mkDefine "sys" 1 "" []] in
  let e := LogEvent_new "root" 2 "log.cpp" 1 0 0 0 5 "t" in
  (exists s', on_logger_conf_changed st op e 5 old new LoggerManager_new = (s', Ret tt) /\
     m_loggers s' !! "sys" = Some (mkLogger "sys" 100 [] (Some (LogFormatter_new default_pattern)) (Some "root"))) /\
  (on_logger_conf_changed st op e 5 old (old ++ new) LoggerManager_new).2 = Undef NullDeref.
Proof.
  intros st op a new old e. split.
  - destruct (conf_changed_spec st op LoggerManager_new e 5 old new) as (s' & E & _ & H & _);
      [constructor|repeat constructor; set_solver|repeat constructor; set_solver|repeat constructor|].
    exists s'. split; [exact E|]. rewrite H; [reflexivity|]. unfold gone. simpl. set_solver.
  - apply (conf_changed_spec st op LoggerManager_new e 5 old (old ++ new)); [constructor|repeat constructor; set_solver| |repeat constructor].
    apply NoDup_cons. split; [|repeat constructor; set_solver]. simpl. set_solver.
Defined.
