(* ===== verification/LogCasts.v ===== *)
(** * The text form of a log configuration (LexicalCast of log.cpp)

    The conversions between sets of definitions, kept in the order of the names,
    and YAML, and what is left of a configuration that is written and read. *)

From Stdlib Require Import ZArith Lia Ascii String List.
From stdpp Require Import base list strings gmap.
From S2P Require Import Prelude Ordered CString Config ConfigSpec ConfigCasts Log LogManager.

Local Open Scope string_scope.
Local Open Scope list_scope.
Local Open Scope Z_scope.

(** ** Nodes *)

(** [n[key]]: a scalar throws; [Some None] is a node that is not defined. *)
Definition node_get (n : Node) (key : string) : option (option Node) :=
  match n with
  | Map l => Some (option_map snd (find (fun kn => bool_decide (kn.1 = key)) l))
  | Scalar _ => None
  | Null | Sequence _ => Some None
  end.

Section casts.
Context (Load : string -> option Node) (emit : Node -> string) (index_map : list (string * Node) -> option (list Node)).
(** [as<std::string>] of a null node *)
Context (null_text : option string).

Definition as_string (n : Node) : option string :=
  match n with Scalar s => Some s | Null => null_text | _ => None end.

(** [n[key].as<std::string>()] if it is defined *)
Definition get_text (n : Node) (key : string) : option (option string) :=
  obind_opt (node_get n key) (fun o =>
  match o with None => Some None | Some m => obind_opt (as_string m) (fun s => Some (Some s)) end).

Definition text_or_empty (o : option string) : string := match o with Some s => s | None => "" end.

(** One appender: [Some None] is one that is reported and left out. *)
Definition read_appender (a : Node) : option (option LogAppenderDefine) :=
  obind_opt (get_text a "type") (fun ty =>
  match ty with
  | None => Some None
  | Some type =>
      if bool_decide (type = "FileLogAppender") then
        obind_opt (get_text a "file") (fun file =>
        match file with
        | None => Some None
        | Some f => obind_opt (get_text a "formatter") (fun fmt => Some (Some (mkAppenderDefine 1 LogLevel.UNKNOW (text_or_empty fmt) f)))
        end)
      else if bool_decide (type = "StdoutLogAppender") then Some (Some (mkAppenderDefine 2 LogLevel.UNKNOW "" ""))
      else Some None
  end).

Definition read_appenders (n : Node) : option (list LogAppenderDefine) :=
  obind_opt (node_get n "appenders") (fun o =>
  match o with
  | None => Some []
  | Some l => obind_opt (elements_of index_map l) (fun ns => obind_opt (mapM read_appender ns) (fun l => Some (omap id l)))
  end).

Definition read_define (n : Node) : option (option LogDefine) :=
  obind_opt (get_text n "name") (fun name =>
  match name with
  | None => Some None
  | Some name =>
      obind_opt (get_text n "level") (fun level =>
      obind_opt (get_text n "formatter") (fun fmt =>
      obind_opt (read_appenders n) (fun aps =>
      Some (Some (mkDefine name (LogLevel.FromString (text_or_empty level)) (text_or_empty fmt) aps)))))
  end).

(** [operator<] of LogDefine *)
Definition define_lt (a b : LogDefine) : bool := String.ltb (d_name a) (d_name b).

Definition cast_to_defines (v : string) : option (list LogDefine) :=
  obind_opt (Load v) (fun node =>
  obind_opt (elements_of index_map node) (fun ns =>
  obind_opt (mapM read_define ns) (fun l =>
  Some (fold_left (fun m i => set_insert define_lt i m) (omap id l) [])))).

(** A node becomes a map with its first key. *)
Definition map_node (l : list (string * Node)) : Node := match l with [] => Null | _ => Map l end.

Definition text_unless (b : bool) (key s : string) : list (string * Node) := if b then [] else [(key, Scalar s)].

Definition appender_node (a : LogAppenderDefine) : Node :=
  map_node ((if d_type a =? 1 then [("type", Scalar "FileLogAppender"); ("file", Scalar (d_file a))]
             else if d_type a =? 2 then [("type", Scalar "StdoutLogAppender")] else []) ++
            text_unless (d_level a =? LogLevel.UNKNOW) "level" (LogLevel.ToString (d_level a)) ++
            text_unless (bool_decide (d_formatter a = "")) "formatter" (d_formatter a)).

(** The formatter is written when it is empty. *)
Definition define_node (i : LogDefine) : Node :=
  Map ([("name", Scalar (d_name i))] ++
       text_unless (d_loglevel i =? LogLevel.UNKNOW) "level" (LogLevel.ToString (d_loglevel i)) ++
       text_unless (negb (bool_decide (d_logformatter i = ""))) "formatter" (d_logformatter i) ++
       match d_appenders i with [] => [] | l => [("appenders", Sequence (map appender_node l))] end).

Definition cast_from_defines (v : list LogDefine) : string :=
  emit (match v with [] => Null | _ => Sequence (map define_node v) end).

(** ** What survives *)

Definition known_level (l : Z) : Z := if (LogLevel.DEBUG <=? l) && (l <=? LogLevel.FATAL) then l else LogLevel.UNKNOW.

Definition surviving_appender (a : LogAppenderDefine) : option LogAppenderDefine :=
  if d_type a =? 1 then Some (mkAppenderDefine 1 LogLevel.UNKNOW (d_formatter a) (d_file a))
  else if d_type a =? 2 then Some (mkAppenderDefine 2 LogLevel.UNKNOW "" "") else None.

Definition surviving (i : LogDefine) : LogDefine :=
  mkDefine (d_name i) (known_level (d_loglevel i)) "" (omap surviving_appender (d_appenders i)).

Lemma level_text l : LogLevel.FromString (if l =? LogLevel.UNKNOW then "" else LogLevel.ToString l) = known_level l.
Proof.
  unfold known_level, LogLevel.ToString, LogLevel.DEBUG, LogLevel.INFO, LogLevel.WARN, LogLevel.ERROR, LogLevel.FATAL, LogLevel.UNKNOW.
  destruct (Z.eqb_spec l 0); [subst; reflexivity|].
  destruct (Z.eqb_spec l 1); [subst; reflexivity|]. destruct (Z.eqb_spec l 2); [subst; reflexivity|].
  destruct (Z.eqb_spec l 3); [subst; reflexivity|]. destruct (Z.eqb_spec l 4); [subst; reflexivity|].
  destruct (Z.eqb_spec l 5); [subst; reflexivity|].
  replace ((1 <=? l) && (l <=? 5)) with false by (symmetry; apply andb_false_iff; rewrite !Z.leb_gt; lia). reflexivity.
Qed.

Lemma read_appender_node a : read_appender (appender_node a) = Some (surviving_appender a).
Proof.
  unfold read_appender, appender_node, surviving_appender, text_unless.
  destruct (d_type a =? 1); [|destruct (d_type a =? 2)];
    destruct (d_level a =? LogLevel.UNKNOW); destruct (bool_decide (d_formatter a = "")) eqn:E; try reflexivity;
    apply bool_decide_eq_true in E; simpl; rewrite E; reflexivity.
Qed.

Lemma read_appenders_nodes l : mapM read_appender (map appender_node l) = Some (map surviving_appender l).
Proof. induction l as [|a l IH]; simpl; [reflexivity|]. rewrite read_appender_node. simpl. rewrite IH. reflexivity. Qed.

Lemma omap_id_map {A B} (f : A -> option B) l : omap id (map f l) = omap f l.
Proof. induction l as [|a l IH]; simpl; [reflexivity|]. destruct (f a); simpl; [f_equal|]; exact IH. Qed.

Lemma read_all l :
  obind_opt (mapM read_appender (map appender_node l)) (fun l => Some (omap id l)) = Some (omap surviving_appender l).
Proof. rewrite read_appenders_nodes. simpl. rewrite omap_id_map. reflexivity. Qed.

Lemma read_define_node i : read_define (define_node i) = Some (Some (surviving i)).
Proof.
  assert (Ha : read_appenders (define_node i) = Some (omap surviving_appender (d_appenders i))).
  { unfold read_appenders, define_node, text_unless.
    destruct (d_appenders i) as [|a l] eqn:El; destruct (_ =? _), (negb _); try reflexivity; exact (read_all (a :: l)). }
  unfold read_define, surviving. rewrite Ha, <- level_text. unfold define_node, text_unless.
  destruct (bool_decide (d_logformatter i = "")) eqn:E; simpl; [apply bool_decide_eq_true in E; rewrite E|];
    destruct (d_loglevel i =? LogLevel.UNKNOW); destruct (d_appenders i); reflexivity.
Qed.

Lemma read_define_nodes v : mapM read_define (map define_node v) = Some (map (fun i => Some (surviving i)) v).
Proof. induction v as [|i v IH]; simpl; [reflexivity|]. rewrite read_define_node. simpl. rewrite IH. reflexivity. Qed.

#[global] Instance define_lt_strict : StrictWeak define_lt.
Proof.
  split; unfold define_lt; intros.
  - apply sw_irrefl.
  - eapply sw_trans; eassumption.
  - apply sw_split; assumption.
Qed.

Lemma surviving_sorted v : sorted define_lt v -> sorted define_lt (map surviving v).
Proof.
  induction v as [|i v IH]; intros Hs; simpl; [constructor|].
  destruct (sorted_cons_inv _ _ _ Hs) as [Hr Hi]. apply sorted_cons; [auto|].
  intros y Hy. apply list_elem_of_In, in_map_iff in Hy as (j & <- & Hj). apply (Hi j), list_elem_of_In, Hj.
Qed.

Context `{!Yaml Load emit}.

Lemma load_text_unless b key s :
  Forall (fun kn => Load (emit kn.2) = Some kn.2) (text_unless b key s).
Proof. unfold text_unless. destruct b; repeat constructor. apply load_scalar. Qed.

(** The keys of a node that is written are distinct. *)
Lemma load_map_node l :
  NoDup l.*1 -> Forall (fun kn => Load (emit kn.2) = Some kn.2) l -> Load (emit (map_node l)) = Some (map_node l).
Proof. intros Hd Hl. destruct l as [|p l]; [apply load_null|apply load_map; assumption]. Qed.

Ltac nodup_keys := apply (bool_decide_eq_true_1 (NoDup _)); reflexivity.

Lemma load_appender_node a : Load (emit (appender_node a)) = Some (appender_node a).
Proof.
  apply load_map_node.
  - unfold text_unless. destruct (d_type a =? 1); [|destruct (d_type a =? 2)]; destruct (d_level a =? _), (bool_decide _);
      nodup_keys.
  - apply Forall_app. split; [|apply Forall_app; split; apply load_text_unless].
    destruct (d_type a =? 1); [|destruct (d_type a =? 2)]; repeat constructor; apply load_scalar.
Qed.

Lemma load_define_node i : Load (emit (define_node i)) = Some (define_node i).
Proof.
  unfold define_node. apply load_map.
  - unfold text_unless. destruct (d_loglevel i =? _), (negb _), (d_appenders i); nodup_keys.
  - repeat (apply Forall_app; split); try apply load_text_unless.
    + repeat constructor. apply load_scalar.
    + destruct (d_appenders i) as [|a l]; repeat constructor. apply load_sequence, Forall_forall.
      intros n Hn. apply list_elem_of_In, in_map_iff in Hn as (b & <- & _). apply load_appender_node.
Qed.

(** What is left of a log configuration that is written and read again: the
    names, the known levels, and the kinds and files of the appenders with the
    formatters of files.  The formatters of loggers, the levels of appenders and
    the formatters of the standard output are lost, and so is an appender whose
    type is neither of the two. *)
Theorem defines_survive v :
  sorted define_lt v ->
  cast_to_defines (cast_from_defines v) = Some (map surviving v).
Proof.
  intros Hs. unfold cast_to_defines, cast_from_defines.
  assert (Hl : Load (emit (match v with [] => Null | _ => Sequence (map define_node v) end)) =
    Some (match v with [] => Null | _ => Sequence (map define_node v) end)).
  { destruct v as [|i v]; [apply load_null|]. apply load_sequence, Forall_forall.
    intros n Hn. apply list_elem_of_In, in_map_iff in Hn as (j & <- & _). apply load_define_node. }
  rewrite Hl. simpl. replace (elements_of _ _) with (Some (map define_node v)) by (destruct v; reflexivity).
  simpl. rewrite read_define_nodes. simpl. f_equal. rewrite omap_id_map.
  replace (omap (fun i => Some (surviving i)) v) with (map surviving v)
    by (clear; induction v as [|i v IH]; simpl; [reflexivity|f_equal; exact IH]).
  apply (fold_insert_sorted define_lt (map surviving v) []), surviving_sorted, Hs.
Qed.
End casts.

Lemma defines_survive_witness :
  let v := [mkDefine "db" 2 "%m" [mkAppenderDefine 1 3 "%p" "f"; mkAppenderDefine 2 4 "%m" ""]; mkDefine "sys" 100 "" []] in
  cast_to_defines decimal_load (fun _ => None) None (cast_from_defines decimal_emit v) =
  Some [mkDefine "db" 2 "" [mkAppenderDefine 1 0 "%p" "f"; mkAppenderDefine 2 0 "" ""]; mkDefine "sys" 0 "" []].
Proof.
  intros v. refine (eq_trans (defines_survive decimal_load decimal_emit (fun _ => None) None v _) _); [|reflexivity].
  repeat constructor.
Defined.
