(* ===== verification/LogYaml.v ===== *)
(** * Writing the loggers as a configuration (toYamlString of log.cpp)

    The text of the manager is in the form that the configuration variable
    "logs" is read from; reading it gives the definitions of the loggers. *)

From Stdlib Require Import ZArith Lia Ascii String List.
From stdpp Require Import base list strings gmap sorting.
From S2P Require Import Prelude Ordered CString Config ConfigSpec ConfigCasts Log LogManager LogRoutes LogCasts.

Local Open Scope string_scope.
Local Open Scope list_scope.
Local Open Scope Z_scope.

Section yaml.
Context (Load : string -> option Node) (emit : Node -> string).

Definition formatter_text (f : option LogFormatter) : list (string * Node) :=
  match f with Some f => [("formatter", Scalar (m_pattern f))] | None => [] end.

(** [FileLogAppender::toYamlString] and [StdoutLogAppender::toYamlString] *)
Definition appender_yaml (a : Appender) : Node :=
  Map (match a_kind a with
       | FileLogAppender file => [("type", Scalar "FileLogAppender"); ("file", Scalar file)]
       | StdoutLogAppender => [("type", Scalar "StdoutLogAppender")]
       end ++
       text_unless (a_level a =? LogLevel.UNKNOW) "level" (LogLevel.ToString (a_level a)) ++
       (if a_hasFormatter a then formatter_text (a_formatter a) else [])).

Definition appender_toYamlString (a : Appender) : string := emit (appender_yaml a).

(** The appenders of a logger as nodes; [None] is an exception of YAML::Load. *)
Definition appender_nodes (s : LoggerManager) (ids : list nat) : option (list Node) :=
  mapM (fun id => obind_opt (heap s !! id) (fun a => Load (appender_toYamlString a))) ids.

(** [Logger::toYamlString] *)
Definition logger_yaml (l : Logger) (aps : list Node) : Node :=
  Map ([("name", Scalar (l_name l))] ++
       text_unless (l_level l =? LogLevel.UNKNOW) "level" (LogLevel.ToString (l_level l)) ++
       formatter_text (l_formatter l) ++
       match aps with [] => [] | _ => [("appenders", Sequence aps)] end).

Definition logger_toYamlString (s : LoggerManager) (l : Logger) : option string :=
  obind_opt (appender_nodes s (l_appenders l)) (fun aps => Some (emit (logger_yaml l aps))).

(** The table in the order of its keys. *)
Definition key_le (p q : string * Logger) : Prop := String.ltb q.1 p.1 = false.
#[local] Instance key_le_dec : RelDecision key_le.
Proof. intros p q. unfold key_le. apply _. Defined.
Definition loggers_in_order (s : LoggerManager) : list (string * Logger) := merge_sort key_le (map_to_list (m_loggers s)).

(** [LoggerManager::toYamlString] *)
Definition manager_toYamlString (s : LoggerManager) : option string :=
  obind_opt (mapM (fun kl => obind_opt (logger_toYamlString s kl.2) Load) (loggers_in_order s)) (fun ns =>
  Some (emit (match ns with [] => Null | _ => Sequence ns end))).

(** ** Reading it back *)

Definition pattern_of (f : option LogFormatter) : string := match f with Some f => m_pattern f | None => "" end.

Definition appender_define (a : Appender) : LogAppenderDefine :=
  match a_kind a with
  | FileLogAppender file => mkAppenderDefine 1 LogLevel.UNKNOW (if a_hasFormatter a then pattern_of (a_formatter a) else "") file
  | StdoutLogAppender => mkAppenderDefine 2 LogLevel.UNKNOW "" ""
  end.

Definition logger_define (s : LoggerManager) (l : Logger) : LogDefine :=
  mkDefine (l_name l) (known_level (l_level l)) (pattern_of (l_formatter l))
    (omap (fun id => appender_define <$> heap s !! id) (l_appenders l)).

Context `{!Yaml Load emit} (index_map : list (string * Node) -> option (list Node)) (null_text : option string).

Ltac nodup_keys := apply (bool_decide_eq_true_1 (NoDup _)); reflexivity.

Lemma load_formatter_text f : Forall (fun kn => Load (emit kn.2) = Some kn.2) (formatter_text f).
Proof. destruct f; repeat constructor. apply load_scalar. Qed.

Lemma load_appender_yaml a : Load (emit (appender_yaml a)) = Some (appender_yaml a).
Proof.
  apply load_map.
  - unfold text_unless, formatter_text. destruct (a_kind a), (a_level a =? _), (a_hasFormatter a), (a_formatter a); nodup_keys.
  - repeat (apply Forall_app; split); [|apply load_text_unless; apply _|].
    + destruct (a_kind a); repeat constructor; apply load_scalar.
    + destruct (a_hasFormatter a); [apply load_formatter_text|constructor].
Qed.

Lemma read_appender_yaml a : read_appender null_text (appender_yaml a) = Some (Some (appender_define a)).
Proof.
  unfold read_appender, appender_yaml, appender_define, text_unless, formatter_text.
  destruct (a_kind a), (a_level a =? _), (a_hasFormatter a), (a_formatter a); reflexivity.
Qed.

Lemma appender_nodes_spec s ids :
  Forall (fun id => is_Some (heap s !! id)) ids ->
  exists aps, appender_nodes s ids = Some aps /\ Forall (fun n => Load (emit n) = Some n) aps /\
    mapM (read_appender null_text) aps = Some (map Some (omap (fun id => appender_define <$> heap s !! id) ids)).
Proof.
  induction 1 as [|id ids [a Ha] _ (aps & E & F & R)]; [exists []; auto|].
  exists (appender_yaml a :: aps). unfold appender_nodes in *. simpl. rewrite Ha. simpl.
  rewrite (load_appender_yaml a : Load (appender_toYamlString a) = _). simpl. rewrite E, read_appender_yaml. simpl. rewrite R.
  split_and!; [reflexivity|constructor; [apply load_appender_yaml|assumption]|reflexivity].
Qed.

Lemma load_logger_yaml l aps :
  Forall (fun n => Load (emit n) = Some n) aps -> Load (emit (logger_yaml l aps)) = Some (logger_yaml l aps).
Proof.
  intros Ha. apply load_map.
  - unfold text_unless, formatter_text. destruct (l_level l =? _), (l_formatter l), aps; nodup_keys.
  - repeat (apply Forall_app; split); [|apply load_text_unless; apply _|apply load_formatter_text|].
    + repeat constructor. apply load_scalar.
    + destruct aps; repeat constructor. apply load_sequence, Ha.
Qed.

Lemma omap_id_some {A} (l : list A) : omap id (map Some l) = l.
Proof. induction l as [|a l IH]; simpl; [reflexivity|]. f_equal. exact IH. Qed.

Lemma read_logger_yaml l aps ds :
  mapM (read_appender null_text) aps = Some (map Some ds) ->
  read_define index_map null_text (logger_yaml l aps) =
  Some (Some (mkDefine (l_name l) (known_level (l_level l)) (pattern_of (l_formatter l)) ds)).
Proof.
  intros Ha.
  assert (Hr : read_appenders index_map null_text (logger_yaml l aps) = Some ds).
  { unfold read_appenders, logger_yaml, text_unless, formatter_text.
    destruct aps as [|n aps]; [simpl in Ha; destruct ds; [|discriminate]; destruct (l_level l =? _), (l_formatter l); reflexivity|].
    assert (H : obind_opt (mapM (read_appender null_text) (n :: aps)) (fun l => Some (omap id l)) = Some ds)
      by (rewrite Ha; simpl; rewrite omap_id_some; reflexivity).
    destruct (l_level l =? _), (l_formatter l); exact H. }
  unfold read_define. rewrite Hr, <- level_text. unfold logger_yaml, text_unless, formatter_text.
  destruct (l_level l =? LogLevel.UNKNOW), (l_formatter l), aps; reflexivity.
Qed.

Lemma logger_written s name l :
  mgr_ok s -> m_loggers s !! name = Some l ->
  exists n, obind_opt (logger_toYamlString s l) Load = Some n /\ Load (emit n) = Some n /\
    read_define index_map null_text n = Some (Some (logger_define s l)).
Proof.
  intros Hs Hl. destruct (mo_loggers s Hs name l Hl) as [_ _ _ Ha].
  destruct (appender_nodes_spec s (l_appenders l)) as (aps & E & F & R).
  { eapply Forall_impl; [exact Ha|]. intros id (a & f & Hid & _). eauto. }
  exists (logger_yaml l aps). unfold logger_toYamlString. rewrite E. simpl.
  split_and!; [apply load_logger_yaml, F|apply load_logger_yaml, F|apply read_logger_yaml, R].
Qed.

(** ** The order of the table *)

Lemma ltb_total a b : String.ltb a b = false -> String.ltb b a = false -> a = b.
Proof.
  unfold String.ltb. rewrite (String.compare_antisym b a). destruct (String.compare a b) eqn:E; simpl; try discriminate.
  intros _ _. apply String.compare_eq_iff, E.
Qed.

#[local] Instance key_le_trans : Transitive key_le.
Proof.
  intros p q r H1 H2. unfold key_le in *. apply not_true_is_false. intros H.
  destruct (sw_split _ _ q.1 H); congruence.
Qed.
#[local] Instance key_le_total : Total key_le.
Proof. intros p q. unfold key_le. destruct (String.ltb q.1 p.1) eqn:E; [right; apply lt_asym, E; apply _|left; reflexivity]. Qed.

Lemma in_order_perm s : loggers_in_order s ≡ₚ map_to_list (m_loggers s).
Proof. apply merge_sort_Permutation. Qed.

Lemma in_order_lookup s kl : kl ∈ loggers_in_order s -> m_loggers s !! kl.1 = Some kl.2.
Proof. rewrite in_order_perm. destruct kl as [k l]. apply elem_of_map_to_list. Qed.

Lemma strictly_ordered (l : list (string * Logger)) :
  StronglySorted key_le l -> NoDup l.*1 -> sorted (fun p q => String.ltb p.1 q.1) l.
Proof.
  induction 1 as [|p l Hs IH Hp]; intros Hd; [constructor|]. inversion Hd as [|? ? Hn Hd']; subst.
  apply sorted_cons; [apply IH, Hd'|]. rewrite Forall_forall in Hp. intros q Hq.
  destruct (String.ltb p.1 q.1) eqn:E; [reflexivity|]. exfalso. apply Hn.
  rewrite (ltb_total _ _ E (Hp q Hq)). apply list_elem_of_fmap_2, Hq.
Qed.

Lemma in_order_sorted s : sorted (fun p q => String.ltb p.1 q.1) (loggers_in_order s).
Proof.
  apply strictly_ordered; [apply StronglySorted_merge_sort; apply _|].
  rewrite in_order_perm. apply NoDup_fst_map_to_list.
Qed.

Lemma defines_sorted s (Hs : mgr_ok s) l :
  Forall (fun kl => m_loggers s !! kl.1 = Some kl.2) l -> sorted (fun p q => String.ltb p.1 q.1) l ->
  sorted define_lt (map (fun kl => logger_define s kl.2) l).
Proof.
  intros Hl Hsort. induction Hsort as [|p l _ IH Hp]; simpl; [constructor|]. inversion Hl as [|? ? Hpl Hl']; subst.
  apply sorted_cons; [apply IH, Hl'|]. rewrite Forall_forall in Hp, Hl'. intros d Hd.
  apply list_elem_of_In, in_map_iff in Hd as (q & <- & Hq). apply list_elem_of_In in Hq.
  unfold define_lt. simpl. rewrite (lo_name _ _ _ (mo_loggers s Hs _ _ Hpl)), (lo_name _ _ _ (mo_loggers s Hs _ _ (Hl' q Hq))).
  apply Hp, Hq.
Qed.

Lemma loggers_written s (Hs : mgr_ok s) l :
  Forall (fun kl => m_loggers s !! kl.1 = Some kl.2) l ->
  exists ns, mapM (fun kl => obind_opt (logger_toYamlString s kl.2) Load) l = Some ns /\
    Forall (fun n => Load (emit n) = Some n) ns /\
    mapM (read_define index_map null_text) ns = Some (map Some (map (fun kl => logger_define s kl.2) l)).
Proof.
  induction 1 as [|[k l0] l Hk _ (ns & E & F & R)]; [exists []; auto|]. simpl in Hk.
  destruct (logger_written s k l0 Hs Hk) as (n & E1 & F1 & R1). exists (n :: ns). simpl.
  rewrite E1. simpl. rewrite E, R1. simpl. rewrite R. auto.
Qed.

(** In every state the manager's text can be read as a configuration, and
    gives for each logger, in the order of the names, its name, its level if it
    is one of the known ones, the pattern of its formatter and its appenders:
    their kind and file, and the pattern of a file's own formatter.  The levels
    of appenders and the level 100 of a logger that was removed are not kept. *)
Theorem manager_saved strftime can_open s :
  rtc (step strftime can_open) LoggerManager_new s ->
  exists text, manager_toYamlString s = Some text /\
    cast_to_defines Load index_map null_text text = Some (map (fun kl => logger_define s kl.2) (loggers_in_order s)).
Proof.
  intros Hs%reachable_ok.
  assert (Hl : Forall (fun kl => m_loggers s !! kl.1 = Some kl.2) (loggers_in_order s))
    by (apply Forall_forall; intros kl; apply in_order_lookup).
  destruct (loggers_written s Hs _ Hl) as (ns & E & F & R). unfold manager_toYamlString. rewrite E. eexists. split; [reflexivity|].
  unfold cast_to_defines.
  assert (Hload : Load (emit (match ns with [] => Null | _ => Sequence ns end)) = Some (match ns with [] => Null | _ => Sequence ns end))
    by (destruct ns; [apply load_null|apply load_sequence, F]).
  rewrite Hload. simpl. replace (elements_of _ _) with (Some ns) by (destruct ns; reflexivity).
  simpl. rewrite R. simpl. rewrite omap_id_some. f_equal.
  apply (fold_insert_sorted define_lt _ []). apply (defines_sorted s Hs); [exact Hl|apply in_order_sorted].
Qed.
End yaml.

Lemma manager_saved_witness :
  let st := fun (f : string) (_ : Z) => f in
  let op := fun (_ : string) (_ : Z) => true in
  let s := setLevel "db" 100 (getLogger "db" LoggerManager_new) in
  exists text, manager_toYamlString decimal_load decimal_emit s = Some text /\
    cast_to_defines decimal_load (fun _ => None) None text =
    Some [mkDefine "db" 0 default_pattern []; mkDefine "root" 1 default_pattern [mkAppenderDefine 2 0 "" ""]].
Proof.
  intros st op s. destruct (manager_saved decimal_load decimal_emit (fun _ => None) None st op s) as (text & E & H).
  - eapply rtc_l; [apply (step_get _ _ _ "db")|]. eapply rtc_l; [apply (step_level _ _ _ "db" 100)|]. apply rtc_refl.
  - exists text. split; [exact E|]. rewrite H. vm_compute. reflexivity.
Defined.
