(* ===== verification/Hook.v ===== *)
(** * The hooked system calls (sylar/hook.h, sylar/hook.cpp)

    A hooked call that would block registers its fiber with the IOManager, sets a
    timer if it has a timeout, and yields; [do_io] and [connect_with_timeout] are
    cut at the points where other threads can act: the call itself, the timer,
    the registration, the wake-up, the cancelling of the timer, the test of the
    flag.  The system is the registry of IOManager.v, the timers of Timer.v, the
    timer_info objects that are alive, the hooked calls of the fibers and the
    callbacks that other threads have in hand.  What the kernel answers is an
    argument of the step; errno belongs to the call, since every use of it is
    behind the call that set it. *)

From Stdlib Require Import ZArith Lia.
From stdpp Require Import base list gmap.
From S2P Require Import Prelude Timer FdManager IOManager.

Local Open Scope Z_scope.
Local Open Scope cpp_scope.

Definition EINTR : Z := 4.
Definition EBADF : Z := 9.
Definition EAGAIN : Z := 11.
Definition EBADE : Z := 52.
Definition ETIMEDOUT : Z := 110.
Definition EINPROGRESS : Z := 115.

(** ** The guards *)

Inductive entered : Type :=
  | Direct
  | Refused (errno : Z)
  | Hooked (to : Z).

(** [do_io] up to the label retry. *)
Definition do_io_enter (t_hook_enable : bool) (ctx : option FdCtx) (timeout_so : Z) : entered :=
  if negb t_hook_enable then Direct
  else match ctx with
       | None => Direct
       | Some c =>
           if m_isClsed c then Refused EBADE
           else if negb (m_isSocket c) || m_userNonblock c then Direct
           else Hooked (getTimeout timeout_so c)
       end.

(** [connect_with_timeout] up to the call of connect_f. *)
Definition connect_enter (t_hook_enable : bool) (ctx : option FdCtx) (timeout_ms : Z) : entered :=
  if negb t_hook_enable then Direct
  else match ctx with
       | None => Refused EBADF
       | Some c =>
           if m_isClsed c then Refused EBADF
           else if negb (m_isSocket c) then Direct
           else if m_userNonblock c then Direct
           else Hooked timeout_ms
       end.

(** ** The system *)

Inductive kind : Type := Io | Connect.

Inductive phase : Type :=
  | PCalling
  | PArming
  | PArmed
  | PWaiting
  | PWoken
  | PChecking
  | PAsking
  | PReturned (n errno : Z).

Record io_call : Type := mkCall {
  c_kind : kind;
  c_fd : Z;
  c_event : Z;
  c_to : Z;
  c_info : nat;
  c_timer : option Z;
  c_phase : phase
}.

(** [timer_info], with what the timer's lambda has captured beside it. *)
Record timer_info : Type := mkInfo {
  cancelled : Z;
  i_fd : Z;
  i_event : Z
}.

Record Sys : Type := mkSys {
  iom : IOManager;
  tm : TimerManager;
  infos : gmap nat timer_info;
  next_info : nat;
  calls : gmap nat io_call;
  (** expired callbacks that have not run yet *)
  due : list (option callback);
  (** lambdas between setting the flag and cancelEvent *)
  cancels : list (Z * Z)
}.

Definition set_iom v s := mkSys v (tm s) (infos s) (next_info s) (calls s) (due s) (cancels s).
Definition set_tm v s := mkSys (iom s) v (infos s) (next_info s) (calls s) (due s) (cancels s).
Definition set_infos v s := mkSys (iom s) (tm s) v (next_info s) (calls s) (due s) (cancels s).
Definition set_calls v s := mkSys (iom s) (tm s) (infos s) (next_info s) v (due s) (cancels s).
Definition set_due v s := mkSys (iom s) (tm s) (infos s) (next_info s) (calls s) v (cancels s).
Definition set_cancels v s := mkSys (iom s) (tm s) (infos s) (next_info s) (calls s) (due s) v.

Definition on_iom {A} (m : M IOManager A) : M Sys A := fun s => let r := m (iom s) in (set_iom r.1 s, r.2).
Definition on_tm {A} (m : M TimerManager A) : M Sys A := fun s => let r := m (tm s) in (set_tm r.1 s, r.2).

Definition with_phase p c := mkCall (c_kind c) (c_fd c) (c_event c) (c_to c) (c_info c) (c_timer c) p.
Definition with_timer t p c := mkCall (c_kind c) (c_fd c) (c_event c) (c_to c) (c_info c) t p.

Definition put_call (f : nat) (c : io_call) : M Sys unit := cmod (fun s => set_calls (<[f := c]> (calls s)) s).

Definition IOTIMEOUT_NONE : Z := 2 ^ 64 - 1.

Section hook.
(** [IOManager::GetThis()] *)
Context (self : nat).

(** ** The parts of do_io and connect_with_timeout *)

(** The timer_info is made for the call. *)
Definition io_begin (f : nat) (k : kind) (fd event to : Z) : M Sys unit := fun s =>
  let w := next_info s in
  (mkSys (iom s) (tm s) (<[w := mkInfo 0 fd event]> (infos s)) (S w)
     (<[f := mkCall k fd event to w None PCalling]> (calls s)) (due s) (cancels s), Ret tt).

(** [return]: the last owner of the timer_info goes. *)
Definition io_return (f : nat) (c : io_call) (n errno : Z) : M Sys unit :=
  cmod (fun s => set_infos (delete (c_info c) (infos s)) s) ;;;
  put_call f (with_timer None (PReturned n errno) c).

(** The system call answered [n] and [errno]. *)
Definition io_result (f : nat) (c : io_call) (n errno : Z) : M Sys unit :=
  match c_kind c with
  | Io =>
      if (n =? -1) && (errno =? EINTR) then cret tt
      else if (n =? -1) && (errno =? EAGAIN) then put_call f (with_phase PArming c)
      else io_return f c n errno
  | Connect =>
      if n =? 0 then io_return f c 0 errno
      else if negb (n =? -1) || negb (errno =? EINPROGRESS) then io_return f c n errno
      else put_call f (with_phase PArming c)
  end.

(** The condition timer; [p] is the address of the new Timer. *)
Definition io_arm (f : nat) (c : io_call) (now p : Z) : M Sys unit :=
  if negb (c_to c =? IOTIMEOUT_NONE)
  then on_tm (addConditionTimer now p (c_to c) (Some (Fun (c_info c))) (c_info c) false) ;;;
       put_call f (with_timer (Some p) PArmed c)
  else put_call f (with_phase PArmed c).

Definition cancel_timer (c : io_call) : M Sys unit :=
  match c_timer c with Some p => on_tm (cancel p) ;;; cret tt | None => cret tt end.

(** [addEvent] and the error path behind it; [errno] is what epoll_ctl left. *)
Definition io_register (f : nat) (c : io_call) (refused : bool) (errno : Z) : M Sys unit :=
  let! rt := on_iom (addEvent refused (Some self) f (c_fd c) (c_event c) None) in
  if negb (rt =? 0) then
    cancel_timer c ;;;
    match c_kind c with
    | Io => io_return f c (-1) errno
    | Connect => put_call f (with_timer None PAsking c)
    end
  else put_call f (with_phase PWaiting c).

(** The scheduler swaps the fiber in. *)
Fixpoint take_task (t : nat * task) (l : list (nat * task)) : option (list (nat * task)) :=
  match l with
  | [] => None
  | x :: r => if bool_decide (x = t) then Some r
              else match take_task t r with Some r' => Some (x :: r') | None => None end
  end.

Definition set_scheduled l (s : IOManager) := mkIO (m_fdContexts s) (m_pendingEventCount s) (interest s) l.

(** Behind YieldToHold. *)
Definition io_wake (f : nat) (c : io_call) : M Sys unit :=
  cancel_timer c ;;; put_call f (with_timer None PChecking c).

Definition io_check (f : nat) (c : io_call) : M Sys unit :=
  let! live := cget infos in
  match live !! c_info c with
  | None => cundef NullDeref
  | Some i =>
      if negb (cancelled i =? 0) then io_return f c (-1) (cancelled i)
      else put_call f (with_phase (match c_kind c with Io => PCalling | Connect => PAsking end) c)
  end.

(** [getsockopt(SO_ERROR)] answered [rt] and [error]. *)
Definition io_asked (f : nat) (c : io_call) (rt error errno : Z) : M Sys unit :=
  if rt =? -1 then io_return f c (-1) errno
  else if error =? 0 then io_return f c 0 errno
  else io_return f c (-1) error.

(** ** The lambda of the timer

    One step up to cancelEvent.  The lambda holds the timer_info until it is
    over, but all it does with it is to read and set the flag, which the call
    reads behind its wait only: a lambda that locked the pointer before the call
    returned and sets the flag after it does what one does that is done with the
    flag just before the return. *)

Definition timeout_cb (w : nat) (s : Sys) : Sys :=
  match infos s !! w with
  | None => s
  | Some i =>
      if negb (cancelled i =? 0) then s
      else set_cancels (cancels s ++ [(i_fd i, i_event i)])
             (set_infos (<[w := mkInfo ETIMEDOUT (i_fd i) (i_event i)]> (infos s)) s)
  end.

Definition alive (s : Sys) (w : nat) : bool := bool_decide (is_Some (infos s !! w)).

(** A thread runs an expired callback. *)
Definition run_callback (cb : option callback) (s : Sys) : Sys :=
  match cb with
  | Some cb => match call (alive s) cb with
               | Some ids => fold_left (fun s w => timeout_cb w s) ids s
               | None => s
               end
  | None => s
  end.

(** ** Steps *)

Definition done (c : io_call) : bool := match c_phase c with PReturned _ _ => true | _ => false end.

(** A fiber is free when it has no hooked call under way. *)
Definition free (s : Sys) (f : nat) : Prop := match calls s !! f with Some c => done c = true | None => True end.

Inductive step (s : Sys) : Sys -> Prop :=
  | s_begin f k fd event to s' :
      free s f -> 0 <= fd < 2 ^ 30 -> is_event event -> u_range 64 to ->
      io_begin f k fd event to s = (s', Ret tt) -> step s s'
  | s_result f c n errno s' :
      calls s !! f = Some c -> c_phase c = PCalling -> io_result f c n errno s = (s', Ret tt) -> step s s'
  | s_arm f c now p s' :
      calls s !! f = Some c -> c_phase c = PArming -> heap (tm s) !! p = None ->
      io_arm f c now p s = (s', Ret tt) -> step s s'
  | s_register f c refused errno s' :
      calls s !! f = Some c -> c_phase c = PArmed -> io_register f c refused errno s = (s', Ret tt) -> step s s'
  | s_resume f c l :
      calls s !! f = Some c -> c_phase c = PWaiting -> take_task (self, TFiber f) (scheduled (iom s)) = Some l ->
      step s (set_calls (<[f := with_phase PWoken c]> (calls s)) (set_iom (set_scheduled l (iom s)) s))
  | s_wake f c s' :
      calls s !! f = Some c -> c_phase c = PWoken -> io_wake f c s = (s', Ret tt) -> step s s'
  | s_check f c s' :
      calls s !! f = Some c -> c_phase c = PChecking -> io_check f c s = (s', Ret tt) -> step s s'
  | s_asked f c rt error errno s' :
      calls s !! f = Some c -> c_phase c = PAsking -> io_asked f c rt error errno s = (s', Ret tt) -> step s s'
  | s_report fd mask s' :
      on_iom (handle_event false fd mask) s = (s', Ret tt) -> step s s'
  | s_expire now q s' cbs :
      heap (tm s) !! q = None -> on_tm (listExpiredCb now q) s = (s', Ret cbs) ->
      step s (set_due (due s' ++ cbs) s')
  | s_callback i cb :
      due s !! i = Some cb -> step s (run_callback cb (set_due (delete i (due s)) s))
  | s_cancel i fd event b s' :
      cancels s !! i = Some (fd, event) ->
      on_iom (cancelEvent false fd event) (set_cancels (delete i (cancels s)) s) = (s', Ret b) -> step s s'.

Definition Sys_new (now : Z) : Sys := mkSys IOManager_new (TimerManager_new now) ∅ 0 ∅ [] [].
End hook.
