(* ===== verification/HookIo.v ===== *)
(** * Waiting fibers in the registry

    What the calls of the IOManager do to the place where a waiting fiber is
    held: in the registry under its descriptor and event, or handed to the
    scheduler. *)

From Stdlib Require Import ZArith Lia.
From stdpp Require Import base list gmap.
From S2P Require Import Prelude IOManager IOManagerSpec Hook.

Local Open Scope Z_scope.
Local Open Scope cpp_scope.

Lemma reg_event m x y w : reg m x y = Some w -> is_event y.
Proof.
  unfold reg, is_event. destruct (ctx_at m x); [|discriminate].
  destruct (Z.eqb_spec y READ); [auto|]. destruct (Z.eqb_spec y WRITE); [auto|discriminate].
Qed.

(** ** Firing *)

(** Some entries are taken out and their tasks handed to the scheduler. *)
Record fires (m m' : IOManager) : Prop := {
  fi_inv : IOInv m';
  fi_keys : exists ks : list (Z * Z), NoDup ks /\ Forall (fun k => is_Some (reg m k.1 k.2)) ks
    /\ scheduled m' = scheduled m ++ omap (fun k => reg m k.1 k.2) ks
    /\ forall x y, reg m' x y = if decide ((x, y) ∈ ks) then None else reg m x y
}.

Lemma fires_refl m : IOInv m -> fires m m.
Proof.
  intros I. split; [assumption|]. exists []. split; [constructor|]. split; [constructor|].
  split; [simpl; rewrite app_nil_r; reflexivity|]. intros. rewrite decide_False by set_solver. reflexivity.
Qed.

(** From what is known of the events to all keys. *)
Lemma fires_from m m' (ks : list (Z * Z)) :
  IOInv m' -> NoDup ks -> Forall (fun k => is_Some (reg m k.1 k.2)) ks ->
  scheduled m' = scheduled m ++ omap (fun k => reg m k.1 k.2) ks ->
  (forall x y, is_event y -> reg m' x y = if decide ((x, y) ∈ ks) then None else reg m x y) -> fires m m'.
Proof.
  intros I Hnd Hin Hs Hr. split; [assumption|]. exists ks. split; [assumption|]. split; [assumption|].
  split; [assumption|]. intros x y. destruct (decide (y = READ \/ y = WRITE)) as [E|E]; [apply Hr, E|].
  assert (Hn : forall m0, reg m0 x y = None).
  { intros m0. destruct (reg m0 x y) as [w|] eqn:Ew; [|reflexivity]. apply reg_event in Ew. contradiction. }
  rewrite !Hn. destruct (decide _); reflexivity.
Qed.

Lemma cancelEvent_fires fd ev m m' b :
  IOInv m -> 0 <= fd -> is_event ev -> cancelEvent false fd ev m = (m', Ret b) -> fires m m'.
Proof.
  intros I Hfd E H. destruct (Z.le_gt_cases (zlen (m_fdContexts m)) fd) as [Hle|Hlt].
  { unfold cancelEvent in H. rewrite (lookup_out m fd _ false I Hle) in H. injection H as <- <-. apply fires_refl, I. }
  destruct (ctx_in m fd) as [c Hc]; [lia|]. pose proof (cancelEvent_ok false fd ev m c I Hc E) as K.
  destruct (reg m fd ev) as [w|] eqn:Hr.
  - destruct K as (s' & H2 & I' & Hs & Hg). rewrite H in H2. injection H2 as <- _.
    apply (fires_from _ _ [(fd, ev)]); [assumption|repeat constructor; set_solver| | |].
    + repeat constructor. simpl. rewrite Hr. eauto.
    + simpl. rewrite Hr. exact Hs.
    + intros x y Ey. rewrite Hg by assumption.
      destruct (decide (x = fd /\ y = ev)) as [[-> ->]|N]; [rewrite decide_True by set_solver; reflexivity|].
      rewrite decide_False; [reflexivity|]. intros [= -> ->]%list_elem_of_singleton. auto.
  - rewrite H in K. injection K as -> _. apply fires_refl, I.
Qed.

(** ** Reports *)

Lemma trigger_inv fd ev m c m' :
  ctx_at m fd = Some c -> triggerEvent fd ev m = (m', Ret tt) -> has (events c) ev = true.
Proof.
  intros Hc. unfold triggerEvent. cstep (ctx_run m fd c Hc). destruct (has (events c) ev); [reflexivity|].
  intros H. discriminate H.
Qed.

(** A report that returns found everything it triggers registered. *)
Lemma handle_event_sound fd mask m m' c :
  IOInv m -> ctx_at m fd = Some c -> handle_event false fd mask m = (m', Ret tt) ->
  (Z.land (events c) (real_events mask c) =? NONE) = true \/
  forall y, is_event y -> has (real_events mask c) y = true -> has (events c) y = true.
Proof.
  intros I Hc. unfold handle_event. cstep (ctx_run m fd c Hc).
  set (real := real_events mask c). destruct (Z.land (events c) real =? NONE) eqn:Z; [auto|].
  intros H. right. unfold cbind at 1 in H.
  destruct (epoll_ctl false _ (fc_fd c) _ m) as [m1 [ok|e|e]] eqn:He; try discriminate.
  assert (H1 : ctx_at m1 fd = Some c /\ m_pendingEventCount m1 = m_pendingEventCount m /\ ok = true).
  { revert He. unfold epoll_ctl. rewrite cbind_get. destruct (co_fd _ _ (io_ctx m I fd c Hc)).
    match goal with |- context [if ?b then CTL_DEL else CTL_MOD] => destruct b end;
      rewrite (io_interest m I), Hc; unfold want; destruct (events c =? 0) eqn:E0;
      try (apply Z.eqb_eq in E0; rewrite E0 in Z; discriminate Z);
      autorewrite with cmonad; intros [= <- <-]; auto. }
  destruct H1 as (Hc1 & Hp1 & ->). simpl in H.
  unfold cbind at 1 in H.
  destruct ((if has real READ then triggerEvent fd READ;;; cmod (add_pending (-1)) else cret tt) m1) as [m2 [u|e|e]] eqn:H1;
    try discriminate.
  assert (HR : has real READ = true -> has (events c) READ = true).
  { intros Hh. rewrite Hh in H1. unfold cbind in H1. destruct (triggerEvent fd READ m1) as [m3 [[]|e|e]] eqn:Ht; try discriminate.
    exact (trigger_inv fd READ m1 c m3 Hc1 Ht). }
  assert (Hcr : ctx_ok fd c) by exact (io_ctx m I fd c Hc).
  intros y [-> | ->] Hy; [auto|].
  destruct (opt_trigger (has real READ) m1 fd c READ Hc1 (or_introl eq_refl)) as (m4 & H4 & Hctx & _).
  { rewrite Hp1, (io_pending m I). apply uwrap_range. lia. }
  { intros Hh. split; [auto|]. pose proof (armed_ctx fd c READ Hcr (or_introl eq_refl)) as A. unfold armed in A.
    rewrite (HR Hh) in A. exact A. }
  rewrite H4 in H1. injection H1 as <- _. rewrite Hy in H. unfold cbind in H.
  destruct (triggerEvent fd WRITE m4) as [m5 [[]|e|e]] eqn:Ht; try discriminate.
  pose proof (trigger_inv fd WRITE m4 _ m5 (ctx_at_insert m1 m4 fd c _ Hc1 Hctx) Ht) as Hw.
  unfold cleared in Hw. destruct (has real READ); [|exact Hw].
  rewrite set_one_events in Hw. unfold new_mask in Hw. rewrite has_clear in Hw;
    [exact Hw|apply Hcr|left; reflexivity|right; reflexivity].
Qed.

Lemma handle_event_fires fd mask m m' :
  IOInv m -> handle_event false fd mask m = (m', Ret tt) -> fires m m'.
Proof.
  intros I H. destruct (ctx_at m fd) as [c|] eqn:Hc; cycle 1.
  { assert (Hx : context fd m = (m, Undef OutOfBounds)).
    { unfold context, ctx_at in *. rewrite cbind_get. destruct (fd <? 0); [reflexivity|]. rewrite Hc. reflexivity. }
    unfold handle_event, cbind in H. rewrite Hx in H. discriminate. }
  destruct (handle_event_sound fd mask m m' c I Hc H) as [Z|Hall].
  { unfold handle_event in H. rewrite (cbind_ret _ _ _ _ _ (ctx_run m fd c Hc)), Z in H. injection H as <-.
    apply fires_refl, I. }
  set (real := real_events mask c) in *.
  assert (Hreg : forall y, is_event y -> has real y = true -> is_Some (reg m fd y)).
  { intros y Ey Hy. apply (bool_decide_eq_true_1 (is_Some (reg m fd y))). rewrite <- (reg_has m fd c y I Hc Ey). auto. }
  destruct (handle_event_run m fd mask c I Hc Hreg) as (m2 & H2 & I2 & Hs & Hg & _).
  rewrite H in H2. injection H2 as <-. fold real in Hs, Hg.
  set (ks := (if has real READ then [(fd, READ)] else []) ++ (if has real WRITE then [(fd, WRITE)] else [])).
  apply (fires_from _ _ ks); [assumption| | | |].
  - unfold ks. destruct (has real READ), (has real WRITE); repeat constructor; set_solver.
  - unfold ks. destruct (has real READ) eqn:E1, (has real WRITE) eqn:E2; repeat constructor; simpl;
      apply Hreg; (assumption || (left; reflexivity) || (right; reflexivity)).
  - rewrite Hs. unfold ks. f_equal.
    destruct (has real READ), (has real WRITE); simpl; destruct (reg m fd READ), (reg m fd WRITE); reflexivity.
  - intros x y Ey. rewrite Hg by assumption.
    assert (Hk : (x, y) ∈ ks <-> x = fd /\ has real y = true).
    { unfold ks. destruct Ey as [-> | ->]; destruct (has real READ) eqn:E1, (has real WRITE) eqn:E2;
        rewrite ?elem_of_app, ?list_elem_of_singleton; set_solver. }
    destruct (decide (x = fd /\ has real y = true)), (decide ((x, y) ∈ ks)); tauto.
Qed.

(** ** Where a waiting fiber is *)

Section tokens.
Context (self : nat).

Definition token (f : nat) : nat * task := (self, TFiber f).

Definition cnt (m : IOManager) (f : nat) : nat := length (filter (fun t => t = token f) (scheduled m)).

(** Held for one key of the registry, there or with the scheduler, once. *)
Definition parked (m : IOManager) (f : nat) (fd ev : Z) : Prop :=
  (forall x y, reg m x y = Some (token f) -> x = fd /\ y = ev) /\
  (reg m fd ev = Some (token f) /\ cnt m f = 0%nat \/ reg m fd ev <> Some (token f) /\ cnt m f = 1%nat).

Definition absent (m : IOManager) (f : nat) : Prop :=
  (forall x y, reg m x y <> Some (token f)) /\ cnt m f = 0%nat.

Lemma token_inj f g : token f = token g -> f = g.
Proof. unfold token. congruence. Qed.

Lemma token_ne f g : g <> f -> Some (token f) <> Some (token g).
Proof. unfold token. congruence. Qed.

(** How often the fired keys hold the fiber. *)
Definition hits (m : IOManager) (f : nat) (ks : list (Z * Z)) : nat :=
  length (filter (fun t => t = token f) (omap (fun k => reg m k.1 k.2) ks)).

Lemma hits_none m f ks : (forall k, k ∈ ks -> reg m k.1 k.2 <> Some (token f)) -> hits m f ks = 0%nat.
Proof.
  unfold hits. induction ks as [|k ks IH]; intros H; [reflexivity|]. simpl.
  destruct (reg m k.1 k.2) as [w|] eqn:E; [|apply IH; set_solver].
  rewrite filter_cons_False; [apply IH; set_solver|]. intros ->. apply (H k); [set_solver|exact E].
Qed.

Lemma hits_one m f ks k :
  NoDup ks -> k ∈ ks -> reg m k.1 k.2 = Some (token f) ->
  (forall j, j ∈ ks -> reg m j.1 j.2 = Some (token f) -> j = k) -> hits m f ks = 1%nat.
Proof.
  intros Hnd Hk Hr Hu. unfold hits. induction Hnd as [|j ks Hj Hnd IH]; [set_solver|]. simpl.
  destruct (decide (j = k)) as [->|Hne].
  - rewrite Hr, filter_cons_True by reflexivity. simpl. f_equal. apply (hits_none m f ks).
    intros i Hi E. apply Hj. rewrite <- (Hu i); [assumption|set_solver|assumption].
  - assert (Hk' : k ∈ ks) by set_solver. specialize (IH Hk' ltac:(set_solver)).
    destruct (reg m j.1 j.2) as [w|] eqn:E; [|exact IH]. rewrite filter_cons_False; [exact IH|].
    intros ->. apply Hne, Hu; [set_solver|exact E].
Qed.

Lemma fires_cnt m m' f : fires m m' -> exists ks, NoDup ks /\ cnt m' f = (cnt m f + hits m f ks)%nat /\
  forall x y, reg m' x y = if decide ((x, y) ∈ ks) then None else reg m x y.
Proof.
  intros [_ (ks & Hnd & _ & Hs & Hr)]. exists ks. split; [assumption|]. split; [|assumption].
  unfold cnt, hits. rewrite Hs, filter_app, length_app. reflexivity.
Qed.

Lemma fires_absent m m' f : fires m m' -> absent m f -> absent m' f.
Proof.
  intros F [Hr Hc]. destruct (fires_cnt m m' f F) as (ks & _ & Hc' & Hr'). split.
  - intros x y. rewrite Hr'. destruct (decide _); [discriminate|apply Hr].
  - rewrite Hc', Hc, hits_none; [reflexivity|]. intros k _. apply Hr.
Qed.

Lemma fires_parked m m' f fd ev : fires m m' -> parked m f fd ev -> parked m' f fd ev.
Proof.
  intros F [Hu Hp]. destruct (fires_cnt m m' f F) as (ks & Hnd & Hc' & Hr'). split.
  { intros x y. rewrite Hr'. destruct (decide _); [discriminate|apply Hu]. }
  rewrite Hr', Hc'. destruct Hp as [[Hr Hc]|[Hr Hc]].
  - destruct (decide ((fd, ev) ∈ ks)) as [Hin|Hin].
    + right. split; [discriminate|]. rewrite Hc, (hits_one m f ks (fd, ev)); auto.
      intros [x y] _ E. simpl in E. destruct (Hu x y E) as [-> ->]. reflexivity.
    + left. split; [assumption|]. rewrite Hc, hits_none; [reflexivity|]. intros [x y] Hk E. simpl in E.
      destruct (Hu x y E) as [-> ->]. contradiction.
  - right. split; [destruct (decide _); [discriminate|assumption]|]. rewrite Hc, hits_none; [reflexivity|].
    intros [x y] _ E. simpl in E. destruct (Hu x y E) as [-> ->]. contradiction.
Qed.

(** ** Registration *)

Record added (m m' : IOManager) (f : nat) (fd ev : Z) : Prop := {
  ad_inv : IOInv m';
  ad_sched : scheduled m' = scheduled m;
  ad_free : reg m fd ev = None;
  ad_reg : forall x y, reg m' x y = if decide (x = fd /\ y = ev) then Some (token f) else reg m x y
}.

Lemma addEvent_inv refused f fd ev m m' rt :
  IOInv m -> 0 <= fd < 2 ^ 30 -> is_event ev ->
  addEvent refused (Some self) f fd ev None m = (m', Ret rt) ->
  if rt =? 0 then added m m' f fd ev
  else IOInv m' /\ scheduled m' = scheduled m /\ forall x y, reg m' x y = reg m x y.
Proof.
  intros I Hfd E H. destruct (reg m fd ev) as [w|] eqn:Hr.
  { destruct (addEvent_run m fd I Hfd) as (m1 & c1 & I1 & Hc1 & _ & Hr1 & Hrun). rewrite Hrun in H.
    unfold addEvent_body in H. rewrite (cbind_ret _ _ _ _ _ (ctx_run m1 fd c1 Hc1)) in H.
    rewrite (reg_has m1 fd c1 ev I1 Hc1 E), Hr1, Hr in H. discriminate. }
  destruct (addEvent_ok refused self f fd ev None m I Hfd E Hr) as (m2 & H2 & I2 & Hs & Hg).
  rewrite H in H2. injection H2 as <- ->.
  assert (Hall : forall x y, reg m' x y = if decide (x = fd /\ y = ev) then (if refused then None else Some (token f)) else reg m x y).
  { intros x y. destruct (decide (y = READ \/ y = WRITE)) as [Ey|Ey]; [apply Hg, Ey|].
    rewrite decide_False by (intros [_ ->]; contradiction).
    destruct (reg m' x y) as [w|] eqn:Ew; [apply reg_event in Ew; contradiction|].
    destruct (reg m x y) as [w|] eqn:Ew'; [apply reg_event in Ew'; contradiction|reflexivity]. }
  destruct refused; simpl.
  - split_and!; [assumption|assumption|]. intros x y. rewrite Hall. destruct (decide _) as [[-> ->]|]; congruence.
  - split; assumption.
Qed.

Lemma added_parks m m' f fd ev : added m m' f fd ev -> absent m f -> parked m' f fd ev.
Proof.
  intros [_ Hs _ Hr] [Ha Hc]. split.
  - intros x y. rewrite Hr. destruct (decide _) as [[-> ->]|]; [auto|]. intros E. destruct (Ha _ _ E).
  - left. rewrite Hr, decide_True by auto. split; [reflexivity|]. unfold cnt. rewrite Hs. exact Hc.
Qed.

Lemma added_absent m m' f fd ev g : added m m' f fd ev -> g <> f -> absent m g -> absent m' g.
Proof.
  intros [_ Hs _ Hr] Hne [Ha Hc]. split.
  - intros x y. rewrite Hr. destruct (decide _); [intros E; destruct (token_ne f g Hne E)|apply Ha].
  - unfold cnt. rewrite Hs. exact Hc.
Qed.

Lemma added_parked m m' f fd ev g fd' ev' :
  added m m' f fd ev -> g <> f -> parked m g fd' ev' -> parked m' g fd' ev'.
Proof.
  intros [_ Hs Hfree Hr] Hne [Hu Hp]. split.
  - intros x y. rewrite Hr. destruct (decide _); [intros E; destruct (token_ne f g Hne E)|apply Hu].
  - unfold cnt in *. rewrite Hs, Hr. destruct (decide (fd' = fd /\ ev' = ev)) as [[-> ->]|]; [|exact Hp].
    right. split; [apply token_ne, Hne|]. destruct Hp as [[E _]|[_ Hc]]; [congruence|exact Hc].
Qed.

(** Nothing moved. *)
Lemma same_parked m m' f fd ev :
  scheduled m' = scheduled m -> (forall x y, reg m' x y = reg m x y) -> parked m f fd ev -> parked m' f fd ev.
Proof. intros Hs Hr. unfold parked, cnt. rewrite Hs. setoid_rewrite Hr. auto. Qed.

Lemma same_absent m m' f :
  scheduled m' = scheduled m -> (forall x y, reg m' x y = reg m x y) -> absent m f -> absent m' f.
Proof. intros Hs Hr. unfold absent, cnt. rewrite Hs. setoid_rewrite Hr. auto. Qed.

(** ** Resumption *)

Lemma take_task_cnt t l l' :
  take_task t l = Some l' -> forall u, length (filter (fun x => x = u) l) =
    ((if decide (u = t) then 1 else 0) + length (filter (fun x => x = u) l'))%nat.
Proof.
  revert l'. induction l as [|x l IH]; intros l' H u; simpl in H; [discriminate|].
  case_bool_decide as E.
  - injection H as <-. subst x. rewrite filter_cons.
    destruct (decide (t = u)) as [->|N]; [rewrite decide_True by reflexivity|rewrite decide_False by congruence]; reflexivity.
  - destruct (take_task t l) as [r|]; [|discriminate]. injection H as <-.
    rewrite !filter_cons. specialize (IH r eq_refl u).
    destruct (decide (x = u)) as [->|N]; simpl; rewrite IH; [destruct (decide (u = t)); [congruence|lia]|reflexivity].
Qed.

Lemma resumed m f fd ev l : parked m f fd ev -> take_task (token f) (scheduled m) = Some l -> absent (set_scheduled l m) f.
Proof.
  intros [Hu Hp] Ht. pose proof (take_task_cnt _ _ _ Ht (token f)) as Hc. rewrite decide_True in Hc by reflexivity.
  destruct Hp as [[_ H0]|[Hr H1]]; unfold cnt in *; [lia|]. split; [|unfold cnt; simpl; lia].
  intros x y E. change (reg m x y = Some (token f)) in E. destruct (Hu x y E) as [-> ->]. contradiction.
Qed.

Lemma resumed_other m f g l : take_task (token f) (scheduled m) = Some l -> g <> f -> cnt (set_scheduled l m) g = cnt m g.
Proof.
  intros Ht Hne. pose proof (take_task_cnt _ _ _ Ht (token g)) as Hc. rewrite decide_False in Hc by (intros E; apply token_inj in E; auto).
  unfold cnt. simpl. lia.
Qed.

Lemma set_scheduled_inv l m : IOInv m -> IOInv (set_scheduled l m).
Proof. intros []. split; assumption. Qed.
End tokens.
