(* ===== verification/HookSpec.v ===== *)
(** * Properties of the hooked calls

    The steps of Hook.v are sequences of elementary actions; the invariant of
    the system is kept by each of them. *)

From Stdlib Require Import ZArith Lia.
From stdpp Require Import base list gmap relations.
From S2P Require Import Prelude Ordered Timer TimerSpec FdManager IOManager IOManagerSpec Hook HookIo.

Local Open Scope Z_scope.
Local Open Scope cpp_scope.

(** ** Timers *)

Lemma addTimer_heap now p ms cb w m :
  TInv m -> heap m !! p = None ->
  exists m', addConditionTimer now p ms cb w false m = (m', Ret p) /\ TInv m' /\
    heap m' = <[p := Timer_new now ms (Some (OnTimer w cb)) false]> (heap m).
Proof.
  intros I Hp. destruct (addTimer_ok now p ms (Some (OnTimer w cb)) false m I Hp) as (m' & H & I' & T & _).
  exists m'. split; [exact H|]. split; [exact I'|apply T].
Qed.

Lemma drop_cb_none t : m_cb t = None -> drop_cb t = t.
Proof. destruct t. simpl. intros ->. reflexivity. Qed.

Lemma cancel_heap p t m :
  TInv m -> heap m !! p = Some t ->
  exists m' b, cancel p m = (m', Ret b) /\ TInv m' /\ heap m' = <[p := drop_cb t]> (heap m).
Proof.
  intros I Hp. pose proof (timer_cancel_ok p t m I Hp) as K. destruct (m_cb t) eqn:E.
  - destruct K as (m' & H & I' & T & _). exists m', true. split; [exact H|]. split; [exact I'|apply T].
  - exists m, false. split; [exact K|]. split; [exact I|]. rewrite drop_cb_none, insert_id; auto.
Qed.

Lemma expire_heap now q m :
  TInv m -> heap m !! q = None ->
  exists m' expired cbs, listExpiredCb now q m = (m', Ret cbs) /\ TInv m' /\
    map Some cbs = map (fun p => m_cb <$> heap m !! p) expired /\
    (forall p, heap m' !! p = if decide (p ∈ expired) then fired now <$> heap m !! p else heap m !! p) /\
    (forall p t, p ∈ m_timers m -> heap m !! p = Some t -> m_next t <= now -> p ∈ expired).
Proof.
  intros I Hq. destruct (take_expired_ok m now q I Hq) as (s1 & ps & Hrun & C).
  destruct (cut_inv _ _ _ _ I C) as (I1 & N & Hin).
  destruct (expire_loop_ok now ps s1 I1 N Hin) as (s2 & cbs & Hrun2 & X & Hcbs).
  pose proof (cut_heap _ _ _ _ C) as Hh. exists s2, ps, cbs.
  split; [unfold listExpiredCb; cstep Hrun; exact Hrun2|]. split; [apply X|].
  split; [rewrite Hcbs, Hh; reflexivity|]. split; [intros p; rewrite (ex_heap _ _ _ _ X), Hh; reflexivity|].
  intros p t Hp Ht Hn. rewrite (cut_list _ _ _ _ C) in Hp. apply elem_of_app in Hp as [Hp|Hp]; [exact Hp|].
  destruct (cut_later _ _ _ _ C p Hp) as (_ & d & Hd & Hlt). unfold deadline in Hd. rewrite Ht in Hd. injection Hd as <-. lia.
Qed.

(** The callbacks of the expired timers. *)
Lemma cbs_in (h : gmap Z Timer) expired cbs :
  map Some cbs = map (fun p => m_cb <$> h !! p) expired ->
  forall p t, p ∈ expired -> h !! p = Some t -> m_cb t ∈ cbs.
Proof.
  intros Hcbs p t Hp Ht. apply list_elem_of_In in Hp. apply (in_map (fun p => m_cb <$> h !! p)) in Hp.
  rewrite <- Hcbs, Ht in Hp. apply in_map_iff in Hp as (cb & [= ->] & Hcb). apply list_elem_of_In, Hcb.
Qed.

Lemma cbs_out (h : gmap Z Timer) expired cbs :
  map Some cbs = map (fun p => m_cb <$> h !! p) expired ->
  forall cb, cb ∈ cbs -> exists p t, h !! p = Some t /\ m_cb t = cb.
Proof.
  intros Hcbs cb Hcb. apply list_elem_of_In, (in_map Some) in Hcb. rewrite Hcbs in Hcb.
  apply in_map_iff in Hcb as (p & E & _). destruct (h !! p) as [t|] eqn:Ep; [|discriminate].
  exists p, t. split; [exact Ep|]. injection E as ->. reflexivity.
Qed.

Section hook.
Context (self : nat).

(** The callback of a hooked call. *)
Definition wcb (w : nat) : callback := OnTimer w (Some (Fun w)).

(** ** The invariant *)

(** The timer of a call between arming and waking: as long as the flag is not
    set, the timer has its callback or the callback is due. *)
Definition timer_ok (s : Sys) (c : io_call) : Prop :=
  match c_phase c with
  | PArmed | PWaiting | PWoken =>
      match c_timer c with
      | None => c_to c = IOTIMEOUT_NONE
      | Some p => c_to c <> IOTIMEOUT_NONE /\ exists t i, heap (tm s) !! p = Some t /\ infos s !! c_info c = Some i /\
          m_recurring t = false /\ (cancelled i = 0 -> m_cb t = Some (wcb (c_info c)) \/ Some (wcb (c_info c)) ∈ due s)
      end
  | _ => c_timer c = None
  end.

(** The timer_info of a call lives as long as the call. *)
Definition live_ok (s : Sys) (c : io_call) : Prop :=
  if done c then infos s !! c_info c = None
  else exists i, infos s !! c_info c = Some i /\ i_fd i = c_fd c /\ i_event i = c_event c /\
    (cancelled i = 0 \/ cancelled i = ETIMEDOUT /\ c_to c <> IOTIMEOUT_NONE).

Definition token_ok (s : Sys) (f : nat) (c : io_call) : Prop :=
  match c_phase c with
  | PWaiting => parked self (iom s) f (c_fd c) (c_event c)
  | _ => absent self (iom s) f
  end.

Record call_ok (s : Sys) (f : nat) (c : io_call) : Prop := {
  k_fd : 0 <= c_fd c < 2 ^ 30;
  k_ev : is_event (c_event c);
  k_new : (c_info c < next_info s)%nat;
  k_live : live_ok s c;
  k_timer : timer_ok s c;
  k_token : token_ok s f c
}.

Record sys_ok (s : Sys) : Prop := {
  so_io : IOInv (iom s);
  so_tm : TInv (tm s);
  so_calls : map_Forall (call_ok s) (calls s);
  so_free : forall f, calls s !! f = None -> absent self (iom s) f;
  so_inj : forall f g c d, calls s !! f = Some c -> calls s !! g = Some d -> c_info c = c_info d -> f = g;
  so_tinj : forall f g c d p, calls s !! f = Some c -> calls s !! g = Some d -> c_timer c = Some p -> c_timer d = Some p -> f = g;
  so_timers : forall p t cb, heap (tm s) !! p = Some t -> m_cb t = Some cb ->
    exists f c, calls s !! f = Some c /\ cb = wcb (c_info c) /\ c_timer c = Some p;
  so_due : forall cb, Some cb ∈ due s -> exists w, cb = wcb w /\ (w < next_info s)%nat /\
    forall f c, calls s !! f = Some c -> c_info c = w -> c_to c <> IOTIMEOUT_NONE;
  so_infos : forall w i, infos s !! w = Some i -> (w < next_info s)%nat /\ 0 <= i_fd i /\ is_event (i_event i);
  so_cancels : forall k, k ∈ cancels s -> 0 <= k.1 /\ is_event k.2
}.

(** ** Elementary actions *)

Definition simple_move (p q : phase) (c : io_call) : Prop :=
  match p, q with
  | PCalling, PArming | PChecking, PCalling | PChecking, PAsking => True
  | PArming, PArmed | PArmed, PChecking | PWoken, PChecking => c_timer c = None /\ c_to c = IOTIMEOUT_NONE
  | _, _ => False
  end.

Inductive act (s : Sys) : Sys -> Prop :=
  | a_begin f k fd event to :
      free s f -> 0 <= fd < 2 ^ 30 -> is_event event -> act s (io_begin f k fd event to s).1
  | a_phase f c q :
      calls s !! f = Some c -> simple_move (c_phase c) q c -> act s (set_calls (<[f := with_phase q c]> (calls s)) s)
  | a_return f c n e :
      calls s !! f = Some c -> c_phase c = PCalling \/ c_phase c = PChecking \/ c_phase c = PAsking ->
      act s (set_calls (<[f := with_timer None (PReturned n e) c]> (calls s)) (set_infos (delete (c_info c) (infos s)) s))
  | a_arm f c now p m' :
      calls s !! f = Some c -> c_phase c = PArming -> c_to c <> IOTIMEOUT_NONE -> heap (tm s) !! p = None ->
      TInv m' -> heap m' = <[p := Timer_new now (c_to c) (Some (wcb (c_info c))) false]> (heap (tm s)) ->
      act s (set_calls (<[f := with_timer (Some p) PArmed c]> (calls s)) (set_tm m' s))
  | a_register f c m' :
      calls s !! f = Some c -> c_phase c = PArmed -> added self (iom s) m' f (c_fd c) (c_event c) ->
      act s (set_calls (<[f := with_phase PWaiting c]> (calls s)) (set_iom m' s))
  | a_same m' :
      IOInv m' -> scheduled m' = scheduled (iom s) -> (forall x y, reg m' x y = reg (iom s) x y) -> act s (set_iom m' s)
  | a_resume f c l :
      calls s !! f = Some c -> c_phase c = PWaiting -> take_task (token self f) (scheduled (iom s)) = Some l ->
      act s (set_calls (<[f := with_phase PWoken c]> (calls s)) (set_iom (set_scheduled l (iom s)) s))
  | a_untimer f c p t m' :
      calls s !! f = Some c -> c_phase c = PArmed \/ c_phase c = PWoken -> c_timer c = Some p ->
      heap (tm s) !! p = Some t -> TInv m' -> heap m' = <[p := drop_cb t]> (heap (tm s)) ->
      act s (set_calls (<[f := with_timer None PChecking c]> (calls s)) (set_tm m' s))
  | a_fires m' : fires (iom s) m' -> act s (set_iom m' s)
  | a_expire now m' expired cbs :
      TInv m' -> map Some cbs = map (fun p => m_cb <$> heap (tm s) !! p) expired ->
      (forall p, heap m' !! p = if decide (p ∈ expired) then fired now <$> heap (tm s) !! p else heap (tm s) !! p) ->
      act s (set_due (due s ++ cbs) (set_tm m' s))
  | a_callback i cb : due s !! i = Some cb -> act s (run_callback cb (set_due (delete i (due s)) s))
  | a_uncancel i : act s (set_cancels (delete i (cancels s)) s).

(** ** Frames *)

(** The parts of a call's invariant, when the system changes elsewhere. *)
Lemma call_ok_frame s s' f c :
  call_ok s f c -> (next_info s <= next_info s')%nat ->
  infos s' !! c_info c = infos s !! c_info c ->
  (forall p, c_timer c = Some p -> heap (tm s') !! p = heap (tm s) !! p) ->
  (Some (wcb (c_info c)) ∈ due s -> Some (wcb (c_info c)) ∈ due s') ->
  token_ok s' f c -> call_ok s' f c.
Proof.
  intros [H1 H2 H3 H4 H5 H6] Hn Hi Hh Hd Ht. split; [assumption|assumption|lia| | |assumption].
  - unfold live_ok in *. rewrite Hi. exact H4.
  - unfold timer_ok in *. destruct (c_timer c) as [p|] eqn:Ep; [|exact H5].
    destruct (c_phase c); try exact H5; destruct H5 as (Hto & t & i & Et & Ei & Hr & Hcb);
      (split; [exact Hto|]); exists t, i; rewrite (Hh p eq_refl), Hi; (split; [exact Et|]); (split; [exact Ei|]);
      (split; [exact Hr|]); intros Hc; destruct (Hcb Hc); auto.
Qed.

Lemma token_ok_frame s s' f c : iom s' = iom s -> token_ok s f c -> token_ok s' f c.
Proof. intros E. unfold token_ok. rewrite E. auto. Qed.

Lemma timer_live s f c p : call_ok s f c -> c_timer c = Some p -> exists t, heap (tm s) !! p = Some t.
Proof.
  intros [_ _ _ _ H _] Hp. unfold timer_ok in H. rewrite Hp in H.
  destruct (c_phase c); try discriminate; destruct H as (_ & t & _ & Et & _); eauto.
Qed.

(** One call changes. *)
Lemma sys_ok_upd s s' f c c' :
  sys_ok s -> calls s !! f = Some c -> calls s' = <[f := c']> (calls s) ->
  c_info c' = c_info c -> c_to c' = c_to c ->
  IOInv (iom s') -> TInv (tm s') -> next_info s' = next_info s -> due s' = due s -> cancels s' = cancels s ->
  call_ok s' f c' ->
  (forall g d, g <> f -> calls s !! g = Some d -> call_ok s g d -> call_ok s' g d) ->
  (forall g, calls s !! g = None -> absent self (iom s') g) ->
  (forall g d p, g <> f -> calls s !! g = Some d -> c_timer c' = Some p -> c_timer d <> Some p) ->
  (forall p t cb, heap (tm s') !! p = Some t -> m_cb t = Some cb ->
    exists g d, calls s' !! g = Some d /\ cb = wcb (c_info d) /\ c_timer d = Some p) ->
  (forall w i, infos s' !! w = Some i -> infos s !! w = Some i) ->
  sys_ok s'.
Proof.
  intros Hs Hf Hc Hinfo Hto Hio Htm Hn Hd Hk Hcall Hother Hfree Htinj Htimers Hinfos.
  assert (Hlk : forall g d, calls s' !! g = Some d -> (g = f /\ d = c') \/ (g <> f /\ calls s !! g = Some d)).
  { intros g d. rewrite Hc. destruct (decide (g = f)) as [->|N]; [rewrite lookup_insert_eq; intros [= <-]; auto|].
    rewrite lookup_insert_ne by congruence. auto. }
  split; [assumption|assumption| | | | | assumption | | |].
  - intros g d Hg. destruct (Hlk g d Hg) as [[-> ->]|[N Hg']]; [assumption|]. apply Hother; [assumption|assumption|].
    exact (so_calls s Hs g d Hg').
  - intros g Hg. apply Hfree. rewrite Hc in Hg. destruct (decide (g = f)) as [->|N]; [rewrite lookup_insert_eq in Hg; discriminate|].
    rewrite lookup_insert_ne in Hg by congruence. exact Hg.
  - intros g h d e Hg Hh E. destruct (Hlk g d Hg) as [[-> ->]|[N Hg']], (Hlk h e Hh) as [[-> ->]|[N' Hh']]; try reflexivity.
    + apply (so_inj s Hs f h c e Hf Hh'). congruence.
    + apply (so_inj s Hs g f d c Hg' Hf). congruence.
    + exact (so_inj s Hs g h d e Hg' Hh' E).
  - intros g h d e p Hg Hh E1 E2. destruct (Hlk g d Hg) as [[-> ->]|[N Hg']], (Hlk h e Hh) as [[-> ->]|[N' Hh']]; try reflexivity.
    + destruct (Htinj h e p N' Hh' E1 E2).
    + destruct (Htinj g d p N Hg' E2 E1).
    + exact (so_tinj s Hs g h d e p Hg' Hh' E1 E2).
  - intros cb Hin. rewrite Hd in Hin. destruct (so_due s Hs cb Hin) as (w & -> & Hw & Hall).
    exists w. rewrite Hn. split; [reflexivity|]. split; [assumption|]. intros g d Hg E.
    destruct (Hlk g d Hg) as [[-> ->]|[N Hg']]; [|exact (Hall g d Hg' E)].
    rewrite Hto. apply (Hall f c Hf). congruence.
  - intros w i Hi. rewrite Hn. apply (so_infos s Hs w i), Hinfos, Hi.
  - rewrite Hk. apply (so_cancels s Hs).
Qed.

(** The owner of a timer, when the timers of the calls stay. *)
Lemma timers_kept s f c c' :
  sys_ok s -> calls s !! f = Some c -> c_info c' = c_info c ->
  c_timer c' = c_timer c ->
  forall p t cb, heap (tm s) !! p = Some t -> m_cb t = Some cb ->
  exists g d, <[f := c']> (calls s) !! g = Some d /\ cb = wcb (c_info d) /\ c_timer d = Some p.
Proof.
  intros Hs Hf Hi Ht p t cb Hp Hcb. destruct (so_timers s Hs p t cb Hp Hcb) as (g & d & Hg & -> & Hd).
  destruct (decide (g = f)) as [->|N].
  - exists f, c'. rewrite lookup_insert_eq. rewrite Hf in Hg. injection Hg as <-. split_and!; congruence.
  - exists g, d. rewrite lookup_insert_ne by congruence. auto.
Qed.

(** ** Each action keeps the invariant *)

Lemma free_absent s f : sys_ok s -> free s f -> absent self (iom s) f.
Proof.
  intros Hs Hf. unfold free in Hf. destruct (calls s !! f) as [c|] eqn:Ef; [|exact (so_free s Hs f Ef)].
  pose proof (k_token _ _ _ (so_calls s Hs f c Ef)) as T. unfold token_ok, done in *.
  destruct (c_phase c); try discriminate. exact T.
Qed.

Lemma free_timer s f c : sys_ok s -> free s f -> calls s !! f = Some c -> c_timer c = None.
Proof.
  intros Hs Hf Ec. unfold free in Hf. rewrite Ec in Hf.
  pose proof (k_timer _ _ _ (so_calls s Hs f c Ec)) as T. unfold timer_ok, done in *.
  destruct (c_phase c); try discriminate. exact T.
Qed.

Lemma begin_ok s f k fd ev to :
  sys_ok s -> free s f -> 0 <= fd < 2 ^ 30 -> is_event ev -> sys_ok (io_begin f k fd ev to s).1.
Proof.
  intros Hs Hf Hfd Hev. simpl. set (w := next_info s). set (c' := mkCall k fd ev to w None PCalling).
  set (s' := mkSys _ _ _ _ _ _ _).
  assert (Hlk : forall g d, <[f := c']> (calls s) !! g = Some d -> (g = f /\ d = c') \/ (g <> f /\ calls s !! g = Some d)).
  { intros g d. destruct (decide (g = f)) as [->|N]; [rewrite lookup_insert_eq; intros [= <-]; auto|].
    rewrite lookup_insert_ne by congruence. auto. }
  assert (Hw : forall g d, calls s !! g = Some d -> (c_info d < w)%nat) by (intros g d Hg; apply (so_calls s Hs g d Hg)).
  split; simpl.
  - apply Hs.
  - apply Hs.
  - apply map_Forall_insert_2.
    + split; simpl; [assumption|assumption|lia| |reflexivity|apply (free_absent s f Hs Hf)].
      exists (mkInfo 0 fd ev). simpl. rewrite lookup_insert_eq. auto.
    + intros g d Hg. apply (call_ok_frame s); [exact (so_calls s Hs g d Hg)|simpl; lia| |auto|auto|].
      * simpl. apply lookup_insert_ne. specialize (Hw g d Hg). lia.
      * exact (k_token _ _ _ (so_calls s Hs g d Hg)).
  - intros g Hg. apply (so_free s Hs). destruct (decide (g = f)) as [->|N]; [rewrite lookup_insert_eq in Hg; discriminate|].
    rewrite lookup_insert_ne in Hg by congruence. exact Hg.
  - intros g h d e Hg Hh E. destruct (Hlk g d Hg) as [[-> ->]|[N Hg']], (Hlk h e Hh) as [[-> ->]|[N' Hh']]; try reflexivity.
    + specialize (Hw h e Hh'). simpl in E. lia.
    + specialize (Hw g d Hg'). simpl in E. lia.
    + exact (so_inj s Hs g h d e Hg' Hh' E).
  - intros g h d e p Hg Hh E1 E2. destruct (Hlk g d Hg) as [[-> ->]|[N Hg']], (Hlk h e Hh) as [[-> ->]|[N' Hh']];
      try discriminate; try reflexivity. exact (so_tinj s Hs g h d e p Hg' Hh' E1 E2).
  - intros p t cb Hp Hcb. destruct (so_timers s Hs p t cb Hp Hcb) as (g & d & Hg & -> & Hd). exists g, d.
    rewrite lookup_insert_ne; [auto|]. intros ->. pose proof (free_timer s g d Hs Hf Hg). congruence.
  - intros cb Hin. destruct (so_due s Hs cb Hin) as (v & -> & Hv & Hall). exists v. split; [reflexivity|]. split; [lia|].
    intros g d Hg E. destruct (Hlk g d Hg) as [[-> ->]|[N Hg']]; [simpl in E; lia|exact (Hall g d Hg' E)].
  - intros v i. destruct (decide (v = w)) as [->|N].
    + rewrite lookup_insert_eq. intros [= <-]. simpl. split; [lia|]. split; [lia|assumption].
    + rewrite lookup_insert_ne by congruence. intros Hi. destruct (so_infos s Hs v i Hi) as (H1 & H2). split; [lia|assumption].
  - apply Hs.
Qed.

(** A call that moves without touching the rest. *)
Lemma phase_ok s f c q :
  sys_ok s -> calls s !! f = Some c -> simple_move (c_phase c) q c ->
  sys_ok (set_calls (<[f := with_phase q c]> (calls s)) s).
Proof.
  intros Hs Hf Hm. pose proof (so_calls s Hs f c Hf) as [K1 K2 K3 K4 K5 K6].
  eapply (sys_ok_upd s _ f c (with_phase q c)); try exact Hf; try reflexivity; try apply Hs; auto.
  - split; [exact K1|exact K2|exact K3| | |];
      unfold live_ok, timer_ok, token_ok, done in *; simpl; destruct (c_phase c), q; simpl in Hm; try contradiction;
      try exact K4; try exact K5; try exact K6; try (destruct Hm as [Hm1 Hm2]; rewrite Hm1 in *; assumption); apply Hm.
  - intros g d N Hg Hgd. apply (call_ok_frame s); auto. apply Hgd.
  - intros g d p N Hg E1 E2. simpl in E1. apply N. eapply (so_tinj s Hs g f d c p); eassumption.
  - simpl. exact (timers_kept s f c (with_phase q c) Hs Hf eq_refl eq_refl).
Qed.

Lemma return_ok s f c n e :
  sys_ok s -> calls s !! f = Some c -> c_phase c = PCalling \/ c_phase c = PChecking \/ c_phase c = PAsking ->
  sys_ok (set_calls (<[f := with_timer None (PReturned n e) c]> (calls s)) (set_infos (delete (c_info c) (infos s)) s)).
Proof.
  intros Hs Hf Hp. pose proof (so_calls s Hs f c Hf) as [K1 K2 K3 K4 K5 K6].
  assert (Ht : c_timer c = None) by (unfold timer_ok in K5; destruct Hp as [E|[E|E]]; rewrite E in K5; exact K5).
  assert (Ha : absent self (iom s) f) by (unfold token_ok in K6; destruct Hp as [E|[E|E]]; rewrite E in K6; exact K6).
  eapply (sys_ok_upd s _ f c (with_timer None (PReturned n e) c)); try exact Hf; try reflexivity; try apply Hs; auto.
  - split; [exact K1|exact K2|exact K3| |reflexivity|exact Ha]. unfold live_ok. simpl. apply lookup_delete_eq.
  - intros g d N Hg Hgd. apply (call_ok_frame s); auto; [|apply Hgd]. simpl. apply lookup_delete_ne.
    intros E. apply N. symmetry. eapply (so_inj s Hs f g c d); eassumption.
  - simpl. apply (timers_kept s f c (with_timer None (PReturned n e) c) Hs Hf eq_refl). simpl. congruence.
  - simpl. intros w i Hi. apply lookup_delete_Some in Hi as [_ Hi]. exact Hi.
Qed.

Lemma arm_ok s f c now p m' :
  sys_ok s -> calls s !! f = Some c -> c_phase c = PArming -> c_to c <> IOTIMEOUT_NONE -> heap (tm s) !! p = None ->
  TInv m' -> heap m' = <[p := Timer_new now (c_to c) (Some (wcb (c_info c))) false]> (heap (tm s)) ->
  sys_ok (set_calls (<[f := with_timer (Some p) PArmed c]> (calls s)) (set_tm m' s)).
Proof.
  intros Hs Hf Hph Hto Hp Im Hh. pose proof (so_calls s Hs f c Hf) as [K1 K2 K3 K4 K5 K6].
  assert (Hne : forall g d q, calls s !! g = Some d -> c_timer d = Some q -> q <> p).
  { intros g d q Hg Hq ->. destruct (timer_live s g d p (so_calls s Hs g d Hg) Hq). congruence. }
  unfold live_ok, timer_ok, token_ok, done in K4, K5, K6. rewrite Hph in *.
  eapply (sys_ok_upd s _ f c (with_timer (Some p) PArmed c)); try exact Hf; try reflexivity; try apply Hs; auto.
  - split; [exact K1|exact K2|exact K3|exact K4| |exact K6]. unfold timer_ok. simpl. split; [exact Hto|].
    destruct K4 as (i & Ei & _). eexists _, i. rewrite Hh, lookup_insert_eq. split; [reflexivity|]. split; [exact Ei|].
    split; [reflexivity|]. left. reflexivity.
  - intros g d N Hg Hgd. apply (call_ok_frame s); auto; [|apply Hgd]. intros q Hq. simpl. rewrite Hh.
    apply lookup_insert_ne. intros E. apply (Hne g d q Hg Hq). congruence.
  - intros g d q N Hg E1 E2. simpl in E1. injection E1 as <-. exact (Hne g d p Hg E2 eq_refl).
  - simpl. intros q t cb. rewrite Hh. destruct (decide (q = p)) as [->|N].
    + rewrite lookup_insert_eq. intros [= <-] [= <-]. exists f, (with_timer (Some p) PArmed c). rewrite lookup_insert_eq. auto.
    + rewrite lookup_insert_ne by congruence. intros Hq Hcb. destruct (so_timers s Hs q t cb Hq Hcb) as (g & d & Hg & -> & Hd).
      exists g, d. rewrite lookup_insert_ne; [auto|]. intros ->. congruence.
Qed.

Lemma untimer_ok s f c p t m' :
  sys_ok s -> calls s !! f = Some c -> c_phase c = PArmed \/ c_phase c = PWoken -> c_timer c = Some p ->
  heap (tm s) !! p = Some t -> TInv m' -> heap m' = <[p := drop_cb t]> (heap (tm s)) ->
  sys_ok (set_calls (<[f := with_timer None PChecking c]> (calls s)) (set_tm m' s)).
Proof.
  intros Hs Hf Hph Htp Hp Im Hh. pose proof (so_calls s Hs f c Hf) as [K1 K2 K3 K4 K5 K6].
  eapply (sys_ok_upd s _ f c (with_timer None PChecking c)); try exact Hf; try reflexivity; try apply Hs; auto.
  - split; [exact K1|exact K2|exact K3| |reflexivity|].
    + unfold live_ok, done in *. destruct Hph as [E|E]; rewrite E in K4; exact K4.
    + unfold token_ok in *. destruct Hph as [E|E]; rewrite E in K6; exact K6.
  - intros g d N Hg Hgd. apply (call_ok_frame s); auto; [|apply Hgd]. intros q Hq. simpl. rewrite Hh.
    apply lookup_insert_ne. intros <-. apply N. exact (so_tinj s Hs g f d c p Hg Hf Hq Htp).
  - simpl. intros q u cb. rewrite Hh. destruct (decide (q = p)) as [->|N].
    + rewrite lookup_insert_eq. intros [= <-]. discriminate.
    + rewrite lookup_insert_ne by congruence. intros Hq Hcb. destruct (so_timers s Hs q u cb Hq Hcb) as (g & d & Hg & -> & Hd).
      exists g, d. rewrite lookup_insert_ne; [auto|]. intros ->. congruence.
Qed.

(** The registry changes, and the call of [f] perhaps with it. *)
Lemma register_ok s f c m' :
  sys_ok s -> calls s !! f = Some c -> c_phase c = PArmed -> added self (iom s) m' f (c_fd c) (c_event c) ->
  sys_ok (set_calls (<[f := with_phase PWaiting c]> (calls s)) (set_iom m' s)).
Proof.
  intros Hs Hf Hph Ha. pose proof (so_calls s Hs f c Hf) as [K1 K2 K3 K4 K5 K6].
  unfold live_ok, timer_ok, token_ok, done in K4, K5, K6. rewrite Hph in *.
  eapply (sys_ok_upd s _ f c (with_phase PWaiting c)); try exact Hf; try reflexivity; try apply Hs; auto.
  - apply Ha.
  - split; [exact K1|exact K2|exact K3|exact K4|exact K5|]. exact (added_parks _ _ _ _ _ _ Ha K6).
  - intros g d N Hg Hgd. apply (call_ok_frame s); auto. pose proof (k_token _ _ _ Hgd) as T. unfold token_ok in *. simpl.
    destruct (c_phase d); try exact (added_absent _ _ _ _ _ _ _ Ha N T). exact (added_parked _ _ _ _ _ _ _ _ _ Ha N T).
  - intros g Hg. apply (added_absent _ _ _ _ _ _ _ Ha); [congruence|]. exact (so_free s Hs g Hg).
  - intros g d p N Hg E1 E2. apply N. exact (so_tinj s Hs g f d c p Hg Hf E2 E1).
  - simpl. exact (timers_kept s f c (with_phase PWaiting c) Hs Hf eq_refl eq_refl).
Qed.

Lemma resume_ok s f c l :
  sys_ok s -> calls s !! f = Some c -> c_phase c = PWaiting -> take_task (token self f) (scheduled (iom s)) = Some l ->
  sys_ok (set_calls (<[f := with_phase PWoken c]> (calls s)) (set_iom (set_scheduled l (iom s)) s)).
Proof.
  intros Hs Hf Hph Ht. pose proof (so_calls s Hs f c Hf) as [K1 K2 K3 K4 K5 K6].
  unfold live_ok, timer_ok, token_ok, done in K4, K5, K6. rewrite Hph in *.
  assert (Hab : forall g, g <> f -> absent self (iom s) g -> absent self (set_scheduled l (iom s)) g).
  { intros g N [H1 H2]. split; [exact H1|]. rewrite (resumed_other _ _ f g l Ht N). exact H2. }
  eapply (sys_ok_upd s _ f c (with_phase PWoken c)); try exact Hf; try reflexivity; try apply Hs; auto.
  - apply set_scheduled_inv, Hs.
  - split; [exact K1|exact K2|exact K3|exact K4|exact K5|]. exact (resumed _ _ _ _ _ _ K6 Ht).
  - intros g d N Hg Hgd. apply (call_ok_frame s); auto. pose proof (k_token _ _ _ Hgd) as T. unfold token_ok in *. simpl.
    destruct (c_phase d); try exact (Hab g N T). destruct T as [T1 T2]. split; [exact T1|].
    rewrite (resumed_other _ _ f g l Ht N). exact T2.
  - intros g Hg. apply Hab; [congruence|]. exact (so_free s Hs g Hg).
  - intros g d p N Hg E1 E2. apply N. exact (so_tinj s Hs g f d c p Hg Hf E2 E1).
  - simpl. exact (timers_kept s f c (with_phase PWoken c) Hs Hf eq_refl eq_refl).
Qed.

(** The registry changes and no call does. *)
Lemma iom_ok s m' :
  sys_ok s -> IOInv m' ->
  (forall f fd ev, parked self (iom s) f fd ev -> parked self m' f fd ev) ->
  (forall f, absent self (iom s) f -> absent self m' f) ->
  sys_ok (set_iom m' s).
Proof.
  intros Hs I Hp Ha. split; simpl; try apply Hs; [assumption| |].
  - intros f c Hf. pose proof (so_calls s Hs f c Hf) as K. apply (call_ok_frame s); auto.
    pose proof (k_token _ _ _ K) as T. unfold token_ok in *. simpl. destruct (c_phase c); auto.
  - intros f Hf. apply Ha, (so_free s Hs f Hf).
Qed.

Lemma uncancel_ok s i : sys_ok s -> sys_ok (set_cancels (delete i (cancels s)) s).
Proof.
  intros Hs. split; simpl; try apply Hs.
  - intros f c Hf. apply (call_ok_frame s); auto; [exact (so_calls s Hs f c Hf)|apply (so_calls s Hs f c Hf)].
  - intros k Hk. apply (so_cancels s Hs). exact (list_elem_of_delete_inv _ _ _ Hk).
Qed.

Lemma timer_phase s f c p : call_ok s f c -> c_timer c = Some p ->
  c_to c <> IOTIMEOUT_NONE /\ exists t i, heap (tm s) !! p = Some t /\ infos s !! c_info c = Some i /\
    m_recurring t = false /\ (cancelled i = 0 -> m_cb t = Some (wcb (c_info c)) \/ Some (wcb (c_info c)) ∈ due s).
Proof.
  intros [_ _ _ _ H _] Hp. unfold timer_ok in H. rewrite Hp in H. destruct (c_phase c); try discriminate; exact H.
Qed.

Lemma expire_ok s now m' expired cbs :
  sys_ok s -> TInv m' -> map Some cbs = map (fun p => m_cb <$> heap (tm s) !! p) expired ->
  (forall p, heap m' !! p = if decide (p ∈ expired) then fired now <$> heap (tm s) !! p else heap (tm s) !! p) ->
  sys_ok (set_due (due s ++ cbs) (set_tm m' s)).
Proof.
  intros Hs I Hcbs Hh.
  pose proof (cbs_in _ _ _ Hcbs) as Hin. pose proof (cbs_out _ _ _ Hcbs) as Hout.
  split; simpl; try apply Hs; [assumption| | |].
  - intros f c Hf. pose proof (so_calls s Hs f c Hf) as K. destruct K as [K1 K2 K3 K4 K5 K6]. split; auto.
    unfold timer_ok in *. destruct (c_phase c); try exact K5; (destruct (c_timer c) as [p|]; [|exact K5]);
      destruct K5 as (Hto & t & i & Ht & Hi & Hr & Hcb); (split; [exact Hto|]); simpl; rewrite Hh;
      (destruct (decide (p ∈ expired)) as [Hp|Hp];
        [exists (fired now t), i; rewrite Ht; split_and!; [reflexivity|exact Hi| |]; [unfold fired; rewrite Hr; exact Hr|];
         intros Hc; right; destruct (Hcb Hc) as [E|E]; apply elem_of_app; [right; rewrite <- E; exact (Hin p t Hp Ht)|left; exact E]
        |exists t, i; split_and!; [exact Ht|exact Hi|exact Hr|]; intros Hc; destruct (Hcb Hc) as [E|E]; [left; exact E|right; apply elem_of_app; left; exact E]]).
  - intros p t' cb. rewrite Hh. destruct (decide (p ∈ expired)) as [Hp|Hp]; [|apply (so_timers s Hs)].
    destruct (heap (tm s) !! p) as [t|] eqn:Ht; [|discriminate]. intros [= <-] Hcb. exfalso.
    assert (Ho : exists cb', m_cb t = Some cb') by (unfold fired in Hcb; destruct (m_recurring t); [exists cb; exact Hcb|discriminate]).
    destruct Ho as [cb' Ho]. destruct (so_timers s Hs p t cb' Ht Ho) as (f & c & Hf & _ & Hc).
    destruct (timer_phase s f c p (so_calls s Hs f c Hf) Hc) as (_ & t2 & _ & Ht2 & _ & Hr & _).
    rewrite Ht in Ht2. injection Ht2 as <-. unfold fired in Hcb. rewrite Hr in Hcb. discriminate.
  - intros cb [Hd|Hd]%elem_of_app; [exact (so_due s Hs cb Hd)|]. destruct (Hout _ Hd) as (p & t & Ht & E).
    destruct (so_timers s Hs p t cb Ht E) as (f & c & Hf & -> & Hc). exists (c_info c). split; [reflexivity|].
    split; [apply (so_calls s Hs f c Hf)|]. intros g d Hg Hi.
    assert (g = f) as -> by exact (so_inj s Hs g f d c Hg Hf Hi). rewrite Hf in Hg. injection Hg as <-.
    exact (proj1 (timer_phase s f c p (so_calls s Hs f c Hf) Hc)).
Qed.

(** ** Expired callbacks *)

Lemma run_wcb w s : run_callback (Some (wcb w)) s = timeout_cb w s.
Proof.
  unfold run_callback, wcb, timeout_cb, alive. simpl.
  destruct (infos s !! w) as [i|] eqn:E; simpl; rewrite ?E; reflexivity.
Qed.

Lemma delete_other {A} (l : list A) i x y : l !! i = Some x -> y <> x -> y ∈ l -> y ∈ delete i l.
Proof.
  intros Hi N (j & Hj)%list_elem_of_lookup_1. assert (j <> i) by congruence. apply list_elem_of_lookup.
  destruct (decide (j < i)%nat) as [L|L].
  - exists j. rewrite list_lookup_delete_lt; assumption.
  - exists (j - 1)%nat. rewrite list_lookup_delete_ge by lia. replace (S (j - 1)) with j by lia. exact Hj.
Qed.

(** The callback of [w] is gone, and a timer_info of [w] that lives is flagged. *)
Record flagged (s s' : Sys) (i w : nat) : Prop := {
  fl_same : iom s' = iom s /\ tm s' = tm s /\ next_info s' = next_info s /\ calls s' = calls s;
  fl_due : due s' = delete i (due s);
  fl_other : forall u, u <> w -> infos s' !! u = infos s !! u;
  fl_info : forall j, infos s' !! w = Some j -> exists j', infos s !! w = Some j' /\ i_fd j = i_fd j' /\ i_event j = i_event j' /\
    cancelled j <> 0 /\ (cancelled j = cancelled j' \/ cancelled j = ETIMEDOUT);
  fl_live : is_Some (infos s' !! w) <-> is_Some (infos s !! w);
  fl_cancels : forall k, k ∈ cancels s' -> k ∈ cancels s \/ exists j, infos s !! w = Some j /\ k = (i_fd j, i_event j)
}.

Lemma flagged_call s s' i w f c :
  sys_ok s -> due s !! i = Some (Some (wcb w)) -> flagged s s' i w -> calls s !! f = Some c -> call_ok s' f c.
Proof.
  intros Hs Hi [(E1 & E2 & E3 & E4) Hd Ho Hj Hl _] Hf. pose proof (so_calls s Hs f c Hf) as K.
  destruct (decide (c_info c = w)) as [E|N].
  - destruct (so_due s Hs (wcb w)) as (v & [= <-] & _ & Hto); [apply list_elem_of_lookup; eauto|].
    specialize (Hto f c Hf E). destruct K as [K1 K2 K3 K4 K5 K6].
    assert (Hlive : live_ok s' c).
    { unfold live_ok in *. rewrite E in *. destruct (done c).
      - apply eq_None_not_Some. rewrite Hl, K4. intros [? [=]].
      - destruct K4 as (j & Ej & F1 & F2 & F3). assert (Hs' : is_Some (infos s' !! w)) by (apply Hl; eauto).
        destruct Hs' as [j2 Ej2]. destruct (Hj j2 Ej2) as (j' & Ej' & G1 & G2 & G3 & G4).
        rewrite Ej in Ej'. injection Ej' as <-. exists j2. rewrite G1, G2. split_and!; auto.
        right. split; [|exact Hto]. destruct G4 as [G4|G4]; [destruct F3 as [F3|[F3 _]]; congruence|exact G4]. }
    split; [exact K1|exact K2|rewrite E3; exact K3|exact Hlive| |unfold token_ok; rewrite E1; exact K6].
    unfold timer_ok in *. unfold live_ok, done in Hlive. rewrite E2.
    destruct (c_phase c); try exact K5; (destruct (c_timer c) as [p|]; [|exact K5]);
      destruct K5 as (_ & t & i0 & Ht & _ & Hr & _); destruct Hlive as (j & Ej & _);
      (split; [exact Hto|]); exists t, j; (split_and!; [exact Ht|exact Ej|exact Hr|]);
      intros Hc; rewrite E in Ej; destruct (Hj j Ej) as (_ & _ & _ & _ & Hn & _); contradiction.
  - apply (call_ok_frame s); auto; [lia|rewrite E2; reflexivity| |apply (token_ok_frame s); [exact E1|apply K]].
    rewrite Hd. apply (delete_other _ i (Some (wcb w))); [exact Hi|]. intros E. injection E as E. contradiction.
Qed.

Lemma flagged_ok s s' i w :
  sys_ok s -> due s !! i = Some (Some (wcb w)) -> flagged s s' i w -> sys_ok s'.
Proof.
  intros Hs Hi F. pose proof F as [(E1 & E2 & E3 & E4) Hd Ho Hj Hl Hk].
  split; rewrite ?E1, ?E2, ?E3, ?E4; try apply Hs.
  - intros f c Hf. exact (flagged_call s s' i w f c Hs Hi F Hf).
  - intros cb Hcb. rewrite Hd in Hcb. exact (so_due s Hs cb (list_elem_of_delete_inv _ _ _ Hcb)).
  - intros v j Ev. destruct (decide (v = w)) as [->|N].
    + destruct (Hj j Ev) as (j' & Ej' & -> & -> & _). exact (so_infos s Hs w j' Ej').
    + rewrite Ho in Ev by assumption. exact (so_infos s Hs v j Ev).
  - intros k Hin. destruct (Hk k Hin) as [H|(j & Ej & ->)]; [exact (so_cancels s Hs k H)|].
    exact (proj2 (so_infos s Hs w j Ej)).
Qed.

(** What a callback does: the flag of its timer_info, once. *)
Lemma timeout_cb_flags s i w : flagged s (timeout_cb w (set_due (delete i (due s)) s)) i w.
Proof.
  unfold timeout_cb. simpl. destruct (infos s !! w) as [j|] eqn:Ej.
  - destruct (Z.eqb_spec (cancelled j) 0) as [E0|N0]; simpl.
    + split; simpl; auto.
      * intros u N. apply lookup_insert_ne. congruence.
      * intros j'. rewrite lookup_insert_eq. intros [= <-]. exists j. simpl. split_and!; auto.
      * rewrite lookup_insert_eq, Ej. split; eauto.
      * intros k [Hk|Hk%list_elem_of_singleton]%elem_of_app; [left; exact Hk|right; exists j; auto].
    + split; simpl; auto. intros j' Ej'. rewrite Ej in Ej'. injection Ej' as <-. exists j. split_and!; auto.
  - split; simpl; auto. intros j' Ej'. congruence.
Qed.

Lemma callback_ok s i cb : sys_ok s -> due s !! i = Some cb -> sys_ok (run_callback cb (set_due (delete i (due s)) s)).
Proof.
  intros Hs Hi. destruct cb as [cb|].
  - destruct (so_due s Hs cb) as (w & -> & _ & _); [apply list_elem_of_lookup; eauto|]. rewrite run_wcb.
    apply (flagged_ok s _ i w Hs Hi), timeout_cb_flags.
  - simpl. split; simpl; try apply Hs.
    + intros f c Hf. apply (call_ok_frame s); auto; [exact (so_calls s Hs f c Hf)| |apply (so_calls s Hs f c Hf)].
      apply (delete_other _ i None); [exact Hi|discriminate].
    + intros cb Hcb. exact (so_due s Hs cb (list_elem_of_delete_inv _ _ _ Hcb)).
Qed.

(** ** Every action, every step *)

Theorem act_ok s s' : act s s' -> sys_ok s -> sys_ok s'.
Proof.
  intros A Hs. destruct A.
  - apply begin_ok; assumption.
  - apply phase_ok; assumption.
  - apply return_ok; assumption.
  - eapply arm_ok; eassumption.
  - apply register_ok; assumption.
  - apply iom_ok; [assumption|assumption| |].
    + intros f fd ev. apply same_parked; assumption.
    + intros f. apply same_absent; assumption.
  - apply resume_ok; assumption.
  - eapply untimer_ok; eassumption.
  - apply iom_ok; [assumption|apply H| |].
    + intros f fd ev. apply fires_parked, H.
    + intros f. apply fires_absent, H.
  - eapply expire_ok; eassumption.
  - apply callback_ok; assumption.
  - apply uncancel_ok, Hs.
Qed.

Lemma cancel_timer_act s f c s1 :
  sys_ok s -> calls s !! f = Some c -> c_phase c = PArmed \/ c_phase c = PWoken -> cancel_timer c s = (s1, Ret tt) ->
  calls s1 = calls s /\ infos s1 = infos s /\ act s (set_calls (<[f := with_timer None PChecking c]> (calls s)) s1).
Proof.
  intros Hs Hf Hph. unfold cancel_timer. pose proof (so_calls s Hs f c Hf) as K. destruct (c_timer c) as [p|] eqn:Ep.
  - destruct (timer_live s f c p K Ep) as [t Ht]. destruct (cancel_heap p t (tm s) (so_tm s Hs) Ht) as (m' & b & H & I & Hh).
    unfold cbind, on_tm. rewrite H. simpl. intros [= <-]. split_and!; [reflexivity|reflexivity|].
    exact (a_untimer s f c p t m' Hf Hph Ep Ht I Hh).
  - intros [= <-]. split_and!; [reflexivity|reflexivity|]. pose proof (k_timer _ _ _ K) as T. unfold timer_ok in T. rewrite Ep in T.
    assert (Ec : with_timer None PChecking c = with_phase PChecking c) by (unfold with_timer, with_phase; rewrite Ep; reflexivity).
    rewrite Ec. apply a_phase; [exact Hf|]. destruct Hph as [E|E]; rewrite E in T |- *; simpl; auto.
Qed.

Lemma return_act s f c n e s' :
  calls s !! f = Some c -> c_phase c = PCalling \/ c_phase c = PChecking \/ c_phase c = PAsking ->
  io_return f c n e s = (s', Ret tt) -> act s s'.
Proof. intros Hf Hp [= <-]. apply (a_return s f c n e Hf Hp). Qed.

Lemma result_act s f c n e s' :
  calls s !! f = Some c -> c_phase c = PCalling -> io_result f c n e s = (s', Ret tt) -> rtc act s s'.
Proof.
  intros Hf Hp. unfold io_result.
  assert (Hr : forall n' e', io_return f c n' e' s = (s', Ret tt) -> rtc act s s') by
    (intros n' e' H; apply rtc_once; eapply return_act; [exact Hf|left; exact Hp|exact H]).
  assert (Ha : put_call f (with_phase PArming c) s = (s', Ret tt) -> rtc act s s').
  { intros [= <-]. apply rtc_once. apply (a_phase s f c PArming Hf). rewrite Hp. exact Logic.I. }
  destruct (c_kind c).
  - destruct ((n =? -1) && (e =? EINTR)); [intros [= <-]; reflexivity|]. destruct (_ && _); eauto.
  - destruct (n =? 0); [eauto|]. destruct (_ || _); eauto.
Qed.

Lemma arm_act s f c now p s' :
  sys_ok s -> calls s !! f = Some c -> c_phase c = PArming -> heap (tm s) !! p = None ->
  io_arm f c now p s = (s', Ret tt) -> act s s'.
Proof.
  intros Hs Hf Hph Hp. unfold io_arm. destruct (Z.eqb_spec (c_to c) IOTIMEOUT_NONE) as [E|N]; simpl.
  - intros [= <-]. apply (a_phase s f c PArmed Hf). pose proof (k_timer _ _ _ (so_calls s Hs f c Hf)) as T.
    unfold timer_ok in T. rewrite Hph in T |- *. simpl. auto.
  - destruct (addTimer_heap now p (c_to c) (Some (Fun (c_info c))) (c_info c) (tm s) (so_tm s Hs) Hp) as (m' & H & I & Hh).
    unfold cbind, on_tm. rewrite H. simpl. intros [= <-]. exact (a_arm s f c now p m' Hf Hph N Hp I Hh).
Qed.

Lemma register_act s f c refused e s' :
  sys_ok s -> calls s !! f = Some c -> c_phase c = PArmed -> io_register self f c refused e s = (s', Ret tt) -> rtc act s s'.
Proof.
  intros Hs Hf Hph. pose proof (so_calls s Hs f c Hf) as K. unfold io_register, cbind at 1, on_iom.
  destruct (addEvent refused (Some self) f (c_fd c) (c_event c) None (iom s)) as [m' [rt|x|x]] eqn:Ha; simpl; try discriminate.
  apply addEvent_inv in Ha; [|apply Hs|apply K|apply K]. destruct (rt =? 0); simpl.
  - intros [= <-]. apply rtc_once. exact (a_register s f c m' Hf Hph Ha).
  - destruct Ha as (I & Hsch & Hreg). intros H. pose proof (a_same s m' I Hsch Hreg) as A1.
    pose proof (act_ok _ _ A1 Hs) as Hs1. unfold cbind at 1 in H.
    destruct (cancel_timer c (set_iom m' s)) as [s1 [[]|x|x]] eqn:Hc; try discriminate.
    destruct (cancel_timer_act _ f c s1 Hs1 Hf (or_introl Hph) Hc) as (E1 & E2 & A2). simpl in E1, E2, A2.
    set (c1 := with_timer None PChecking c) in *. set (s2 := set_calls _ s1) in A2.
    assert (Hf2 : calls s2 !! f = Some c1) by apply lookup_insert_eq.
    eapply rtc_l; [exact A1|]. eapply rtc_l; [exact A2|]. apply rtc_once. destruct (c_kind c).
    + pose proof (a_return s2 f c1 (-1) e Hf2 (or_intror (or_introl eq_refl))) as A3.
      assert (E : s' = set_calls (<[f := with_timer None (PReturned (-1) e) c1]> (calls s2))
        (set_infos (delete (c_info c1) (infos s2)) s2)); [|rewrite E; exact A3].
      injection H as <-. unfold set_calls at 1 2, set_infos. simpl. rewrite insert_insert_eq, E1. reflexivity.
    + pose proof (a_phase s2 f c1 PAsking Hf2 Logic.I) as A3.
      assert (E : s' = set_calls (<[f := with_phase PAsking c1]> (calls s2)) s2); [|rewrite E; exact A3].
      injection H as <-. unfold set_calls at 1 2. simpl. rewrite insert_insert_eq, E1. reflexivity.
Qed.

Lemma check_act s f c s' :
  calls s !! f = Some c -> c_phase c = PChecking -> io_check f c s = (s', Ret tt) -> act s s'.
Proof.
  intros Hf Hp. unfold io_check. rewrite cbind_get. destruct (infos s !! c_info c) as [i|]; [|discriminate].
  destruct (negb (cancelled i =? 0)).
  - intros H. eapply return_act; [exact Hf|right; left; exact Hp|exact H].
  - intros [= <-]. apply (a_phase s f c _ Hf). rewrite Hp. destruct (c_kind c); exact Logic.I.
Qed.

Theorem step_acts s s' : sys_ok s -> step self s s' -> rtc act s s'.
Proof.
  intros Hs H. destruct H.
  - injection H3 as <-. apply rtc_once. apply (a_begin s f k fd event to); assumption.
  - eapply result_act; eassumption.
  - apply rtc_once. eapply arm_act; eassumption.
  - eapply register_act; eassumption.
  - apply rtc_once. apply a_resume; assumption.
  - unfold io_wake, cbind in H1. destruct (cancel_timer c s) as [s1 [[]|x|x]] eqn:Hc; try discriminate.
    destruct (cancel_timer_act s f c s1 Hs H (or_intror H0) Hc) as (E1 & _ & A).
    injection H1 as <-. rewrite E1. apply rtc_once, A.
  - apply rtc_once. eapply check_act; eassumption.
  - unfold io_asked in H1. apply rtc_once.
    destruct (rt =? -1); [|destruct (error =? 0)]; (eapply return_act; [exact H|right; right; exact H0|exact H1]).
  - unfold on_iom in H. destruct (handle_event false fd _ (iom s)) as [m' r] eqn:He. simpl in H. injection H as <- ->.
    apply rtc_once, a_fires. exact (handle_event_fires fd _ _ _ (so_io s Hs) He).
  - destruct (expire_heap now q (tm s) (so_tm s Hs) H) as (m' & expired & cbs' & H' & I & Hcb & Hh & _).
    unfold on_tm in H0. rewrite H' in H0. injection H0 as <- <-. apply rtc_once. exact (a_expire s now m' expired cbs' I Hcb Hh).
  - apply rtc_once, a_callback, H.
  - unfold on_iom in H0. simpl in H0. destruct (cancelEvent false fd event (iom s)) as [m' r] eqn:He. simpl in H0. injection H0 as <- ->.
    destruct (so_cancels s Hs (fd, event)) as [Hfd Hev]; [apply list_elem_of_lookup; eauto|]. simpl in Hfd, Hev.
    eapply rtc_l; [apply (a_uncancel s i)|]. apply rtc_once, a_fires. simpl.
    exact (cancelEvent_fires fd event _ _ b (so_io s Hs) Hfd Hev He).
Qed.

Lemma hook_acts_ok s s' : rtc act s s' -> sys_ok s -> sys_ok s'.
Proof. induction 1 as [|a b c H _ IH]; intros Hs; [exact Hs|]. exact (IH (act_ok _ _ H Hs)). Qed.

Lemma new_absent f : absent self IOManager_new f.
Proof.
  split; [|reflexivity]. intros x y. unfold reg. rewrite new_ctx_at. destruct (decide _); [|discriminate].
  simpl. destruct (y =? READ), (y =? WRITE); discriminate.
Qed.

Lemma new_sys_ok now : sys_ok (Sys_new now).
Proof.
  assert (Hn : forall f c, calls (Sys_new now) !! f = Some c -> False) by (intros f c; simpl; rewrite lookup_empty; discriminate).
  split; simpl.
  - apply new_IOInv.
  - apply new_inv.
  - apply map_Forall_empty.
  - intros f _. apply new_absent.
  - intros f g c d Hf. destruct (Hn f c Hf).
  - intros f g c d p Hf. destruct (Hn f c Hf).
  - intros p t cb. unfold TimerManager_new. simpl. rewrite lookup_empty. discriminate.
  - set_solver.
  - intros w i. rewrite lookup_empty. discriminate.
  - set_solver.
Qed.

Lemma steps_ok s s' : sys_ok s -> rtc (step self) s s' -> sys_ok s'.
Proof. intros Hs. induction 1 as [|a b c H _ IH]; [exact Hs|]. apply IH. exact (hook_acts_ok _ _ (step_acts _ _ Hs H) Hs). Qed.

Lemma reachable_sys_ok now s : rtc (step self) (Sys_new now) s -> sys_ok s.
Proof. apply steps_ok, new_sys_ok. Qed.
End hook.
