(* ===== verification/HookTimeout.v ===== *)
(** * What the hooked calls promise

    A waiting fiber is held exactly once, a call that returned left nothing
    behind, and a call with a timeout can always be brought to its end by the
    timer, as long as the timer finds it registered. *)

From Stdlib Require Import ZArith Lia.
From stdpp Require Import base list gmap relations.
From S2P Require Import Prelude Ordered Timer TimerSpec FdManager IOManager IOManagerSpec Hook HookIo HookSpec.

Local Open Scope Z_scope.
Local Open Scope cpp_scope.

(** What the fiber is yielded for. *)
Definition waiting (s : Sys) (f : nat) : option (Z * Z) :=
  match calls s !! f with
  | Some c => match c_phase c with PWaiting => Some (c_fd c, c_event c) | _ => None end
  | None => None
  end.

(** ** From the timer to the return *)

Section hook.
Context (self : nat).

(** The steps of the timers and their callbacks, and of the fiber [f] when it is
    resumed: no call of the kernel, no report of epoll and no other fiber. *)
Inductive by_timer (f : nat) (s : Sys) : Sys -> Prop :=
  | t_expire now q s' cbs :
      heap (tm s) !! q = None -> on_tm (listExpiredCb now q) s = (s', Ret cbs) ->
      by_timer f s (set_due (due s' ++ cbs) s')
  | t_callback i cb :
      due s !! i = Some cb -> by_timer f s (run_callback cb (set_due (delete i (due s)) s))
  | t_cancel i fd event b s' :
      cancels s !! i = Some (fd, event) ->
      on_iom (cancelEvent false fd event) (set_cancels (delete i (cancels s)) s) = (s', Ret b) -> by_timer f s s'
  | t_resume c l :
      calls s !! f = Some c -> c_phase c = PWaiting -> take_task (self, TFiber f) (scheduled (iom s)) = Some l ->
      by_timer f s (set_calls (<[f := with_phase PWoken c]> (calls s)) (set_iom (set_scheduled l (iom s)) s))
  | t_wake c s' :
      calls s !! f = Some c -> c_phase c = PWoken -> io_wake f c s = (s', Ret tt) -> by_timer f s s'
  | t_check c s' :
      calls s !! f = Some c -> c_phase c = PChecking -> io_check f c s = (s', Ret tt) -> by_timer f s s'.

Lemma by_timer_step f s s' : by_timer f s s' -> step self s s'.
Proof. destruct 1; econstructor; eassumption. Qed.

Lemma by_timer_ok f n s s' : nsteps (by_timer f) n s s' -> sys_ok self s -> sys_ok self s'.
Proof.
  induction 1 as [|n x y z Hxy _ IH]; intros Hs; [done|]. apply IH.
  apply (steps_ok self x); [done|]. by apply rtc_once, (by_timer_step f).
Qed.

(** What the steps of the timer leave alone. *)
Definition quiet (s s' : Sys) : Prop := calls s' = calls s /\ iom s' = iom s.

Lemma go_due s f c p t :
  sys_ok self s -> calls s !! f = Some c -> c_timer c = Some p -> heap (tm s) !! p = Some t ->
  m_cb t = Some (wcb (c_info c)) ->
  exists s', by_timer f s s' /\ quiet s s' /\ infos s' = infos s /\ Some (wcb (c_info c)) ∈ due s'.
Proof.
  intros Hs Hf Hp Ht Hcb. pose proof (so_tm _ _ Hs) as I. set (q := fresh (dom (heap (tm s)))).
  assert (Hq : heap (tm s) !! q = None) by (apply not_elem_of_dom, is_fresh).
  destruct (expire_heap (m_next t) q (tm s) I Hq) as (m' & expired & cbs & H & _ & Hcbs & _ & Hall).
  exists (set_due (due s ++ cbs) (set_tm m' s)). split; [|split_and!; try reflexivity].
  - apply (t_expire f s (m_next t) q (set_tm m' s) cbs Hq). unfold on_tm. rewrite H. reflexivity.
  - split; reflexivity.
  - simpl. apply elem_of_app. right. rewrite <- Hcb. apply (cbs_in _ _ _ Hcbs p t); [|exact Ht].
    destruct (ti_cb _ _ I p t Ht) as [Hm|Hm]; [congruence| |set_solver]. apply (Hall p t Hm Ht). lia.
Qed.

(** The expired callback flags the call and is about to cancel its event. *)
Lemma go_flag f s w i :
  infos s !! w = Some i -> cancelled i = 0 -> Some (wcb w) ∈ due s ->
  exists s' j, by_timer f s s' /\ quiet s s' /\ infos s' !! w = Some (mkInfo ETIMEDOUT (i_fd i) (i_event i)) /\
    cancels s' !! j = Some (i_fd i, i_event i).
Proof.
  intros Hi Hc (k & Hk)%list_elem_of_lookup_1. eexists _, (length (cancels s)).
  split; [apply (t_callback f s k _ Hk)|]. rewrite run_wcb. unfold timeout_cb. simpl. rewrite Hi, Hc. simpl.
  split; [split; reflexivity|]. rewrite lookup_insert_eq, lookup_app_r, Nat.sub_diag by lia. auto.
Qed.

(** Behind cancelEvent the fiber is with the scheduler. *)
Lemma go_cancel s j f fd ev :
  sys_ok self s -> cancels s !! j = Some (fd, ev) -> parked self (iom s) f fd ev ->
  exists s', by_timer f s s' /\ calls s' = calls s /\ infos s' = infos s /\ parked self (iom s') f fd ev /\ cnt self (iom s') f = 1%nat.
Proof.
  intros Hs Hj Hp. destruct (so_cancels _ _ Hs (fd, ev)) as [Hfd Hev]; [apply list_elem_of_lookup; eauto|]. simpl in Hfd, Hev.
  pose proof (so_io _ _ Hs) as I.
  assert (Hc : exists m' b, cancelEvent false fd ev (iom s) = (m', Ret b) /\ reg m' fd ev = None).
  { destruct (Z.le_gt_cases (zlen (m_fdContexts (iom s))) fd) as [Hle|Hlt].
    - exists (iom s), false. split; [apply (lookup_out (iom s) fd _ false I Hle)|]. unfold reg, ctx_at.
      destruct (fd <? 0); [reflexivity|]. rewrite lookup_ge_None_2; [reflexivity|unfold zlen in Hle; lia].
    - destruct (ctx_in (iom s) fd) as [c Hc]; [lia|]. pose proof (cancelEvent_ok false fd ev (iom s) c I Hc Hev) as K.
      destruct (reg (iom s) fd ev) as [w|] eqn:Hr; [|eauto]. destruct K as (m' & H & _ & _ & Hg).
      exists m', true. split; [exact H|]. rewrite Hg, decide_True by auto. reflexivity. }
  destruct Hc as (m' & b & H & Hnone). pose proof (cancelEvent_fires fd ev _ _ b I Hfd Hev H) as F.
  exists (set_iom m' (set_cancels (delete j (cancels s)) s)). split_and!; try reflexivity.
  - apply (t_cancel f s j fd ev b _ Hj). unfold on_iom. simpl. rewrite H. reflexivity.
  - exact (fires_parked self _ _ f fd ev F Hp).
  - destruct (fires_parked self _ _ f fd ev F Hp) as [_ [[E _]|[_ E]]]; [congruence|exact E].
Qed.

Lemma take_task_some t l : length (filter (fun x => x = t) l) <> 0%nat -> exists l', take_task t l = Some l'.
Proof.
  induction l as [|x l IH]; [simpl; lia|]. simpl. intros H. case_bool_decide as E; [eauto|].
  rewrite filter_cons_False in H by exact E. destruct (IH H) as [l' ->]. eauto.
Qed.

(** A queued fiber whose flag is set returns with it. *)
Lemma go_return s f c i :
  sys_ok self s -> calls s !! f = Some c -> c_phase c = PWaiting -> cnt self (iom s) f = 1%nat ->
  infos s !! c_info c = Some i -> cancelled i <> 0 ->
  exists s', nsteps (by_timer f) 3 s s' /\ calls s' !! f = Some (with_timer None (PReturned (-1) (cancelled i)) c).
Proof.
  intros Hs Hf Hph Hc Hi Hn. destruct (take_task_some (token self f) (scheduled (iom s))) as [l Hl]; [unfold cnt in Hc; lia|].
  set (c1 := with_phase PWoken c). set (s1 := set_calls (<[f := c1]> (calls s)) (set_iom (set_scheduled l (iom s)) s)).
  pose proof (t_resume f s c l Hf Hph Hl) as S1. fold c1 s1 in S1.
  assert (Hs1 : sys_ok self s1) by (apply (by_timer_ok f 1 s); [by apply nsteps_once|exact Hs]).
  assert (Hf1 : calls s1 !! f = Some c1) by apply lookup_insert_eq.
  assert (Hw : exists s2, cancel_timer c1 s1 = (s2, Ret tt) /\ calls s2 = calls s1 /\ infos s2 = infos s1).
  { unfold cancel_timer. destruct (c_timer c1) as [p|] eqn:Ep; [|eauto].
    destruct (timer_live self s1 f c1 p (so_calls _ _ Hs1 f c1 Hf1) Ep) as [t Ht].
    destruct (cancel_heap p t (tm s1) (so_tm _ _ Hs1) Ht) as (m' & b & H & _).
    exists (set_tm m' s1). unfold cbind, on_tm. rewrite H. auto. }
  destruct Hw as (s2 & Hw & Ec & Ei). set (c2 := with_timer None PChecking c1).
  set (s3 := set_calls (<[f := c2]> (calls s2)) s2).
  assert (S2 : by_timer f s1 s3) by (apply (t_wake f s1 c1 s3 Hf1 eq_refl); unfold io_wake, cbind; rewrite Hw; reflexivity).
  assert (Hf3 : calls s3 !! f = Some c2) by apply lookup_insert_eq.
  eexists. split.
  - eapply nsteps_l; [exact S1|]. eapply nsteps_l; [exact S2|]. apply nsteps_once. apply (t_check f s3 c2 _ Hf3 eq_refl).
    unfold io_check. rewrite cbind_get. change (infos s3) with (infos s2). rewrite Ei.
    change (infos s1 !! c_info c2) with (infos s !! c_info c). rewrite Hi.
    rewrite (proj2 (Z.eqb_neq _ _) Hn). reflexivity.
  - simpl. rewrite lookup_insert_eq. reflexivity.
Qed.
End hook.

(** ** Theorems *)

Section promises.
Context (self : nat) (now : Z) (s : Sys).

(** C16: a fiber that waits in a hooked call is held exactly once, in every
    reachable state: in the registry under the descriptor and the event it waits
    for and not with the scheduler, or once with the scheduler and no longer in
    the registry; a fiber that does not wait is in neither, so that nothing
    resumes it twice or behind its back. *)
Theorem waiting_held_once f :
  rtc (step self) (Sys_new now) s ->
  match waiting s f with
  | Some (fd, ev) => parked self (iom s) f fd ev
  | None => absent self (iom s) f
  end.
Proof.
  intros H. pose proof (reachable_sys_ok self now s H) as Hs. unfold waiting.
  destruct (calls s !! f) as [c|] eqn:Hf; [|exact (so_free _ _ Hs f Hf)].
  pose proof (k_token _ _ _ _ (so_calls _ _ Hs f c Hf)) as T. unfold token_ok in T. destruct (c_phase c); exact T.
Qed.

(** C18: when a hooked call has returned, the call has given up its timer_info,
    no timer has a callback for it, nothing of the fiber is left in the registry
    or with the scheduler, and a callback of it that a thread has in hand but has
    not begun does nothing.  A callback that is past its test when the call
    returns still runs its cancelEvent: see [late_cancel_hits_another]. *)
Theorem returned_call_clean f c n e :
  rtc (step self) (Sys_new now) s -> calls s !! f = Some c -> c_phase c = PReturned n e ->
  infos s !! c_info c = None /\ absent self (iom s) f /\
  (forall p t, heap (tm s) !! p = Some t -> m_cb t <> Some (wcb (c_info c))) /\
  (forall i, due s !! i = Some (Some (wcb (c_info c))) ->
    run_callback (Some (wcb (c_info c))) (set_due (delete i (due s)) s) = set_due (delete i (due s)) s).
Proof.
  intros H Hf Hp. pose proof (reachable_sys_ok self now s H) as Hs. destruct (so_calls _ _ Hs f c Hf) as [_ _ _ L T K].
  unfold live_ok, timer_ok, token_ok, done in L, T, K. rewrite Hp in L, T, K. split_and!; [exact L|exact K| |].
  - intros p t Ht Hcb. destruct (so_timers _ _ Hs p t _ Ht Hcb) as (g & d & Hg & [= E] & Hd).
    assert (g = f) as -> by (eapply (so_inj _ _ Hs g f d c); congruence). congruence.
  - intros i _. rewrite run_wcb. unfold timeout_cb. simpl. rewrite L. reflexivity.
Qed.

(** C17: a waiting call whose timer was set and whose flag is not set can be
    brought to its end from every reachable state by its timer alone, in at most
    six steps and without a word from the kernel: the timer expires, its callback
    runs, cancelEvent hands the fiber to the scheduler, and the fiber, resumed,
    cancels the timer, finds the flag and returns -1 with ETIMEDOUT. *)
Theorem timeout_returns f c i :
  rtc (step self) (Sys_new now) s -> calls s !! f = Some c -> c_phase c = PWaiting ->
  c_to c <> IOTIMEOUT_NONE -> infos s !! c_info c = Some i -> cancelled i = 0 ->
  exists n s', (n <= 6)%nat /\ nsteps (by_timer self f) n s s' /\
    calls s' !! f = Some (with_timer None (PReturned (-1) ETIMEDOUT) c).
Proof.
  intros H Hf Hph Hto Hi Hc. pose proof (reachable_sys_ok self now s H) as Hs.
  pose proof (so_calls _ _ Hs f c Hf) as K.
  assert (Hdue : exists n s1, (n <= 1)%nat /\ nsteps (by_timer self f) n s s1 /\ quiet s s1 /\ infos s1 = infos s /\
    Some (wcb (c_info c)) ∈ due s1).
  { destruct (c_timer c) as [p|] eqn:Ep; cycle 1.
    { pose proof (k_timer _ _ _ _ K) as T. unfold timer_ok in T. rewrite Hph, Ep in T. contradiction. }
    destruct (timer_phase self s f c p K Ep) as (_ & t & i' & Ht & Hi' & _ & Hcb). rewrite Hi in Hi'. injection Hi' as <-.
    destruct (Hcb Hc) as [E|E]; [|exists 0%nat, s; split_and!; [lia|constructor|split; reflexivity|reflexivity|exact E]].
    destruct (go_due self s f c p t Hs Hf Ep Ht E) as (s1 & S1 & Q & R). exists 1%nat, s1.
    split; [lia|]. split; [by apply nsteps_once|auto]. }
  destruct Hdue as (n & s1 & Hn & S1 & [Q1 Q2] & Ei & Hd). rewrite <- Ei in Hi.
  destruct (go_flag self f s1 _ i Hi Hc Hd) as (s2 & j & S2 & [R1 R2] & Hi2 & Hj).
  pose proof (k_live _ _ _ _ K) as L. pose proof (k_token _ _ _ _ K) as T. unfold live_ok, done, token_ok in L, T. rewrite Hph in L, T.
  destruct L as (i' & Hi' & F1 & F2 & _). rewrite <- Ei, Hi in Hi'. injection Hi' as <-.
  assert (Hr2 : nsteps (by_timer self f) (n + 1) s s2) by (eapply nsteps_trans; [done|by apply nsteps_once]).
  rewrite F1, F2 in Hj. rewrite <- Q2, <- R2 in T.
  destruct (go_cancel self s2 j f _ _ (by_timer_ok self f _ _ _ Hr2 Hs) Hj T) as (s3 & S3 & C3 & I3 & _ & Hcnt).
  assert (Hr3 : nsteps (by_timer self f) (n + 1 + 1) s s3) by (eapply nsteps_trans; [done|by apply nsteps_once]).
  rewrite <- I3 in Hi2. rewrite <- Q1, <- R1, <- C3 in Hf.
  destruct (go_return self s3 f c _ (by_timer_ok self f _ _ _ Hr3 Hs) Hf Hph Hcnt Hi2) as (s4 & S4 & Hf4); [discriminate|].
  exists (n + 1 + 1 + 3)%nat, s4. split; [lia|]. split; [by eapply nsteps_trans|exact Hf4].
Qed.
End promises.

(** ** Runs *)

Definition wait5 (t : option Z) (p : phase) : io_call := mkCall Io 5 READ 1000 0 t p.

(** Fiber 7 reads descriptor 5 with a timeout of a second and waits. *)
Definition run_wait : list (Sys -> Sys) :=
  [ fun s => (io_begin 7 Io 5 READ 1000 s).1;
    fun s => (io_result 7 (wait5 None PCalling) (-1) EAGAIN s).1;
    fun s => (io_arm 7 (wait5 None PArming) 0 100 s).1;
    fun s => (io_register 1 7 (wait5 (Some 100) PArmed) false 0 s).1 ].

Definition after (l : list (Sys -> Sys)) : Sys := fold_left (fun s f => f s) l (Sys_new 0).

Lemma waits_reachable : rtc (step 1) (Sys_new 0) (after run_wait).
Proof.
  eapply rtc_l; [apply (s_begin 1 _ 7 Io 5 READ 1000 _); [exact Logic.I|lia|left; reflexivity|unfold u_range; lia|reflexivity]|].
  eapply rtc_l; [eapply (s_result 1 _ 7 (wait5 None PCalling) (-1) EAGAIN); [reflexivity|reflexivity|reflexivity]|].
  eapply rtc_l; [eapply (s_arm 1 _ 7 (wait5 None PArming) 0 100); [reflexivity|reflexivity|reflexivity|reflexivity]|].
  eapply rtc_l; [eapply (s_register 1 _ 7 (wait5 (Some 100) PArmed) false 0); [reflexivity|reflexivity|reflexivity]|].
  apply rtc_refl.
Qed.

Lemma waiting_held_once_witness : parked 1 (iom (after run_wait)) 7 5 READ.
Proof. exact (waiting_held_once 1 0 (after run_wait) 7 waits_reachable). Defined.

Lemma timeout_returns_witness :
  exists n s', (n <= 6)%nat /\ nsteps (by_timer 1 7) n (after run_wait) s' /\
    calls s' !! 7%nat = Some (wait5 None (PReturned (-1) ETIMEDOUT)).
Proof.
  apply (timeout_returns 1 0 (after run_wait) 7 (wait5 (Some 100) PWaiting) (mkInfo 0 5 READ) waits_reachable);
    [reflexivity|reflexivity|discriminate|reflexivity|reflexivity].
Defined.

(** The descriptor is ready at once. *)
Definition run_read : list (Sys -> Sys) :=
  [ fun s => (io_begin 7 Io 5 READ 1000 s).1; fun s => (io_result 7 (wait5 None PCalling) 3 0 s).1 ].

Lemma read_reachable : rtc (step 1) (Sys_new 0) (after run_read).
Proof.
  eapply rtc_l; [apply (s_begin 1 _ 7 Io 5 READ 1000 _); [exact Logic.I|lia|left; reflexivity|unfold u_range; lia|reflexivity]|].
  eapply rtc_l; [eapply (s_result 1 _ 7 (wait5 None PCalling) 3 0); [reflexivity|reflexivity|reflexivity]|].
  apply rtc_refl.
Qed.

Lemma returned_call_clean_witness :
  infos (after run_read) !! 0%nat = None /\ absent 1 (iom (after run_read)) 7.
Proof.
  destruct (returned_call_clean 1 0 (after run_read) 7 (wait5 None (PReturned 3 0)) 3 0 read_reachable) as (H1 & H2 & _);
    [reflexivity|reflexivity|]. split; [exact H1|exact H2].
Defined.

(** A timer that expires while the reply arrives: its callback is past the test
    when the call of fiber 7 returns; then fiber 8 registers for the same
    descriptor and event, and the cancelEvent that was left takes its registration
    away: fiber 8 is woken with its flag unset although nothing was reported for
    it, and its connect goes on to ask SO_ERROR of an unfinished connection. *)
Definition connect5 (w : nat) (t : option Z) (p : phase) : io_call := mkCall Connect 5 WRITE 1000 w t p.

Theorem late_cancel_hits_another :
  exists s s1 s2, rtc (step 1) (Sys_new 0) s /\ rtc (step 1) s s1 /\ rtc (step 1) s1 s2 /\
    c_phase <$> calls s !! 7%nat = Some (PReturned 0 0) /\ cancels s = [(5, WRITE)] /\
    waiting s1 8 = Some (5, WRITE) /\ scheduled (iom s1) = [] /\ cancels s1 = [(5, WRITE)] /\
    scheduled (iom s2) = [(1%nat, TFiber 8)] /\ cancelled <$> infos s2 !! 1%nat = Some 0.
Proof.
  eexists _, _, _. split; [|split; [|split]].
  - eapply rtc_l; [apply (s_begin 1 _ 7 Connect 5 WRITE 1000 _); [exact Logic.I|lia|right; reflexivity|unfold u_range; lia|vm_compute; reflexivity]|].
    eapply rtc_l; [eapply (s_result 1 _ 7 (connect5 0 None PCalling) (-1) EINPROGRESS); vm_compute; reflexivity|].
    eapply rtc_l; [eapply (s_arm 1 _ 7 (connect5 0 None PArming) 0 100); vm_compute; reflexivity|].
    eapply rtc_l; [eapply (s_register 1 _ 7 (connect5 0 (Some 100) PArmed) false 0); vm_compute; reflexivity|].
    eapply rtc_l; [eapply (s_expire 1 _ 1000 101); vm_compute; reflexivity|].
    eapply rtc_l; [eapply (s_report 1 _ 5 EPOLLOUT); vm_compute; reflexivity|].
    eapply rtc_l; [eapply (s_resume 1 _ 7 (connect5 0 (Some 100) PWaiting) []); vm_compute; reflexivity|].
    eapply rtc_l; [eapply (s_wake 1 _ 7 (connect5 0 (Some 100) PWoken)); vm_compute; reflexivity|].
    eapply rtc_l; [eapply (s_check 1 _ 7 (connect5 0 None PChecking)); vm_compute; reflexivity|].
    eapply rtc_l; [apply (s_callback 1 _ 0 (Some (wcb 0))); vm_compute; reflexivity|].
    eapply rtc_l; [eapply (s_asked 1 _ 7 (connect5 0 None PAsking) 0 0 0); vm_compute; reflexivity|].
    apply rtc_refl.
  - eapply rtc_l; [apply (s_begin 1 _ 8 Connect 5 WRITE 1000 _); [exact Logic.I|lia|right; reflexivity|unfold u_range; lia|vm_compute; reflexivity]|].
    eapply rtc_l; [eapply (s_result 1 _ 8 (connect5 1 None PCalling) (-1) EINPROGRESS); vm_compute; reflexivity|].
    eapply rtc_l; [eapply (s_arm 1 _ 8 (connect5 1 None PArming) 0 102); vm_compute; reflexivity|].
    eapply rtc_l; [eapply (s_register 1 _ 8 (connect5 1 (Some 102) PArmed) false 0); vm_compute; reflexivity|].
    apply rtc_refl.
  - apply rtc_once. eapply (s_cancel 1 _ 0 5 WRITE); vm_compute; reflexivity.
  - vm_compute. auto 10.
Qed.

(** A timer that expires before the event is registered is lost: the fiber
    yields with the flag already set, its timer spent, no callback due and no
    cancelEvent to come, so that only the peer can wake it. *)
Theorem timeout_lost :
  exists s, rtc (step 1) (Sys_new 0) s /\ waiting s 7 = Some (5, READ) /\
    c_to <$> calls s !! 7%nat = Some 1000 /\ cancelled <$> infos s !! 0%nat = Some ETIMEDOUT /\
    m_timers (tm s) = [] /\ due s = [] /\ cancels s = [] /\ scheduled (iom s) = [].
Proof.
  eexists. split.
  - eapply rtc_l; [apply (s_begin 1 _ 7 Io 5 READ 1000 _); [exact Logic.I|lia|left; reflexivity|unfold u_range; lia|vm_compute; reflexivity]|].
    eapply rtc_l; [eapply (s_result 1 _ 7 (wait5 None PCalling) (-1) EAGAIN); vm_compute; reflexivity|].
    eapply rtc_l; [eapply (s_arm 1 _ 7 (wait5 None PArming) 0 100); vm_compute; reflexivity|].
    eapply rtc_l; [eapply (s_expire 1 _ 1000 101); vm_compute; reflexivity|].
    eapply rtc_l; [apply (s_callback 1 _ 0 (Some (wcb 0))); vm_compute; reflexivity|].
    eapply rtc_l; [eapply (s_cancel 1 _ 0 5 READ false); vm_compute; reflexivity|].
    eapply rtc_l; [eapply (s_register 1 _ 7 (wait5 (Some 100) PArmed) false 0); vm_compute; reflexivity|].
    apply rtc_refl.
  - vm_compute. auto 10.
Qed.
