(* ===== verification/HookCalls.v ===== *)
(** * The other hooked calls (sylar/hook.cpp)

    The sleeping calls, the calls that open, configure and close descriptors,
    and what each of the eleven I/O calls asks of [do_io].  The original
    functions of the C library are parameters; the status flags of a descriptor
    are the state of FdManager.v, so that F_SETFL can be followed.  Some hooks
    call themselves where they mean the original: those run on fuel. *)

From Stdlib Require Import ZArith Lia.
From stdpp Require Import base list gmap.
From S2P Require Import Prelude Ordered Timer TimerSpec FdManager IOManager Hook HookSpec.

Local Open Scope Z_scope.
Local Open Scope cpp_scope.

Definition SOL_SOCKET : Z := 1.
Definition FIONBIO : Z := 0x5421.

Definition F_DUPFD : Z := 0.
Definition F_GETFD : Z := 1.
Definition F_SETFD : Z := 2.
Definition F_GETFL : Z := 3.
Definition F_SETFL : Z := 4.
Definition F_GETLK : Z := 5.
Definition F_SETLK : Z := 6.
Definition F_SETLKW : Z := 7.
Definition F_SETOWN : Z := 8.
Definition F_GETOWN : Z := 9.
Definition F_SETSIG : Z := 10.
Definition F_GETSIG : Z := 11.
Definition F_SETOWN_EX : Z := 15.
Definition F_GETOWN_EX : Z := 16.
Definition F_SETLEASE : Z := 1024.
Definition F_GETLEASE : Z := 1025.
Definition F_NOTIFY : Z := 1026.
Definition F_DUPFD_CLOEXEC : Z := 1030.
Definition F_SETPIPE_SZ : Z := 1031.
Definition F_GETPIPE_SZ : Z := 1032.

(** The cases of the switch that hand the call on, by the type of the argument. *)
Definition takes_int : list Z :=
  [F_DUPFD; F_DUPFD_CLOEXEC; F_SETFD; F_SETOWN; F_SETSIG; F_SETLEASE; F_NOTIFY; F_SETPIPE_SZ].
Definition takes_nothing : list Z := [F_GETFD; F_GETOWN; F_GETSIG; F_GETLEASE; F_GETPIPE_SZ].
Definition takes_pointer : list Z := [F_SETLK; F_SETLKW; F_GETLK; F_GETOWN_EX; F_SETOWN_EX].

(** ** The I/O calls *)

Inductive io_fun : Type :=
  | accept | read | readv | recv | recvfrom | recvmsg | write | writev | send | sendto | sendmsg.

Definition io_event (fn : io_fun) : Z :=
  match fn with accept | read | readv | recv | recvfrom | recvmsg => READ | _ => WRITE end.

Definition io_timeout (fn : io_fun) : Z :=
  match fn with accept | read | readv | recv | recvfrom | recvmsg => SO_RCVTIMEO | _ => SO_SNDTIMEO end.

(** ** Sleeping

    The callback [Fun f] is [iom->schedule(fiber f, -1)]; [Some r] is what the
    original returned, [None] says that the fiber yields and gets 0 when it is
    scheduled again. *)

Section sleeping.
Context (sleep_f usleep_f : Z -> Z) (t_hook_enable : bool) (f : nat) (now p : Z).

Definition park_for (ms : Z) : M TimerManager (option Z) :=
  addTimer now p ms (Some (Fun f)) false ;;; cret None.

Definition sleep (seconds : Z) : M TimerManager (option Z) :=
  if negb t_hook_enable then cret (Some (sleep_f seconds)) else park_for (u32 (seconds * 1000)).

Definition usleep (usec : Z) : M TimerManager (option Z) :=
  if negb t_hook_enable then cret (Some (usleep_f usec)) else park_for (usec / 1000).

Definition nanosleep_ms (tv_sec tv_nsec : Z) : Z := i32 (tv_sec * 1000 + Z.quot (Z.quot tv_nsec 1000) 1000).

Fixpoint nanosleep (fuel : nat) (tv_sec tv_nsec : Z) : M TimerManager (option Z) :=
  match fuel with
  | O => cundef FuelExhausted
  | S fuel =>
      if negb t_hook_enable then nanosleep fuel tv_sec tv_nsec
      else if bool_decide (s_range 64 (tv_sec * 1000) /\ s_range 64 (tv_sec * 1000 + Z.quot (Z.quot tv_nsec 1000) 1000))
           then park_for (u64 (nanosleep_ms tv_sec tv_nsec))
           else cundef SignedOverflow
  end.
End sleeping.

(** ** Descriptors *)

Record Proc : Type := mkProc { fds : FdManager; io : option IOManager }.

Definition on_fds {A} (m : M FdManager A) : M Proc A := fun s => let r := m (fds s) in (mkProc r.1 (io s), r.2).
Definition on_io {A} (m : M IOManager A) (none : A) : M Proc A := fun s =>
  match io s with Some i => let r := m i in (mkProc (fds s) (Some r.1), r.2) | None => (s, Ret none) end.

Section calls.
Context (fstat : Z -> option bool).
Context (socket_f : Z -> Z -> Z -> Z) (close_f : Z -> Z) (fcntl_other ioctl_f : Z -> Z -> Z -> Z)
  (setsockopt_f getsockopt_f : Z -> Z -> Z -> Z).

(** [FdMgr::GetInstance()->get(fd)] and the object behind it. *)
Definition get_ctx (fd : Z) : M FdManager (option (nat * FdCtx)) :=
  let! r := get fstat fd false in
  match r with
  | None => cret None
  | Some p => let! h := cget ctxs in
              match h !! p with Some c => cret (Some (p, c)) | None => cundef NullDeref end
  end.

Definition upd_ctx (p : nat) (g : FdCtx -> FdCtx) : M FdManager unit := cmod (fun s => FdManager.set_ctxs (alter g p (ctxs s)) s).

(** [do_io] up to its guards, for one of the I/O calls. *)
Definition enter_io (t_hook_enable : bool) (fn : io_fun) (fd : Z) : M FdManager entered :=
  if negb t_hook_enable then cret Direct
  else let! c := get_ctx fd in cret (do_io_enter t_hook_enable (snd <$> c) (io_timeout fn)).

Definition socket (t_hook_enable : bool) (domain type protocol : Z) : M FdManager Z :=
  let fd := socket_f domain type protocol in
  if negb t_hook_enable then cret fd
  else if fd =? -1 then cret fd
  else get fstat fd true ;;; cret fd.

(** [accept] behind [do_io]. *)
Definition accepted (fd : Z) : M FdManager Z :=
  if fd >=? 0 then get fstat fd true ;;; cret fd else cret fd.

Fixpoint close (fuel : nat) (t_hook_enable : bool) (fd : Z) : M Proc Z :=
  match fuel with
  | O => cundef FuelExhausted
  | S fuel =>
      if negb t_hook_enable then close fuel t_hook_enable fd
      else
        let! ctx := on_fds (get fstat fd false) in
        (match ctx with
         | Some _ => on_io (cancelAll false fd) false ;;; on_fds (del fd)
         | None => cret tt
         end) ;;;
        cret (close_f fd)
  end.

(** The original fcntl: F_SETFL sets the flags of an open descriptor. *)
Definition fcntl_f (fd cmd arg : Z) : M FdManager Z :=
  if cmd =? F_SETFL
  then match fstat fd with
       | Some _ => cmod (fun s => set_fl (<[fd := arg]> (fl s)) s) ;;; cret 0
       | None => cret (-1)
       end
  else cret (fcntl_other fd cmd arg).

Fixpoint fcntl (fuel : nat) (fildes cmd arg : Z) : M FdManager Z :=
  match fuel with
  | O => cundef FuelExhausted
  | S fuel =>
      if cmd =? F_SETFL then
        let! ctx := get_ctx fildes in
        match ctx with
        | None => fcntl_f fildes cmd arg
        | Some (p, c) =>
            if m_isClsed c || m_isSocket c then fcntl_f fildes cmd arg
            else
              upd_ctx p (setUserNonblock (negb (Z.land arg O_NONBLOCK =? 0))) ;;;
              fcntl_f fildes cmd
                (if m_sysNonblock c then Z.lor arg O_NONBLOCK else Z.land arg (Z.lnot O_NONBLOCK))
        end
      else if cmd =? F_GETFL then
        let! flags := fcntl fuel fildes cmd 0 in
        let! ctx := get_ctx fildes in
        match ctx with
        | None => cret flags
        | Some (_, c) =>
            if m_isClsed c || negb (m_isSocket c) then cret flags
            else if m_userNonblock c then cret (Z.lor flags O_NONBLOCK)
            else cret (Z.land flags (Z.lnot O_NONBLOCK))
        end
      else if bool_decide (cmd ∈ takes_int ++ takes_pointer) then fcntl_f fildes cmd arg
      else if bool_decide (cmd ∈ takes_nothing) then fcntl_f fildes cmd 0
      else fcntl fuel fildes cmd 0
  end.

(** [arg] is the int behind the pointer. *)
Fixpoint ioctl (fuel : nat) (fildes intrequest arg : Z) : M FdManager Z :=
  match fuel with
  | O => cundef FuelExhausted
  | S fuel =>
      if FIONBIO =? intrequest then
        let user_nonblock := negb (arg =? 0) in
        let! ctx := get_ctx fildes in
        match ctx with
        | None => ioctl fuel fildes intrequest arg
        | Some (p, c) =>
            if m_isSocket c || m_isClsed c then ioctl fuel fildes intrequest arg
            else upd_ctx p (setUserNonblock user_nonblock) ;;; cret (ioctl_f fildes intrequest arg)
        end
      else cret (ioctl_f fildes intrequest arg)
  end.

Definition getsockopt (socket level option_name : Z) : M FdManager Z := cret (getsockopt_f socket level option_name).

(** [timeval] as its two longs. *)
Definition setsockopt (t_hook_enable : bool) (socket level option_name tv_sec tv_usec : Z) : M FdManager Z :=
  if negb t_hook_enable then cret (setsockopt_f socket level option_name)
  else
    (if (level =? SOL_SOCKET) && ((option_name =? SO_RCVTIMEO) || (option_name =? SO_SNDTIMEO)) then
       let! ctx := get_ctx socket in
       match ctx with
       | Some (p, _) =>
           if bool_decide (s_range 64 (tv_sec * 1000) /\ s_range 64 (tv_sec * 1000 + Z.quot tv_usec 1000))
           then upd_ctx p (setTimeout option_name (u64 (tv_sec * 1000 + Z.quot tv_usec 1000)))
           else cundef SignedOverflow
       | None => cret tt
       end
     else cret tt) ;;;
    cret (setsockopt_f socket level option_name).
End calls.

(** ** The timeout of connect *)

(** [_HookIniter]: the value of the configuration, and its listener. *)
Definition s_connect_timeout_init (value : Z) : Z := u64 value.
Definition connect_timeout_changed (old_value new_value : Z) (s_connect_timeout : Z) : Z := u64 new_value.

Definition connect (t_hook_enable : bool) (ctx : option FdCtx) (s_connect_timeout : Z) : entered :=
  connect_enter t_hook_enable ctx s_connect_timeout.
