(* ===== verification/HookCallsSpec.v ===== *)
(** * Properties of the other hooked calls

    What a new socket is to the hooks, which hooks never come back, and when a
    sleeping fiber is handed to the scheduler. *)

From Stdlib Require Import ZArith Lia.
From stdpp Require Import base list gmap.
From S2P Require Import Prelude Ordered Timer TimerSpec FdManager IOManager Hook HookSpec HookCalls.

Local Open Scope Z_scope.
Local Open Scope cpp_scope.

(** ** Descriptors *)

Section calls.
Context (fstat : Z -> option bool).

Lemma get_ctx_run fd p c s :
  table_ok s -> 0 <= fd -> entry fd s = Some p -> ctxs s !! p = Some c -> get_ctx fstat fd s = (s, Ret (Some (p, c))).
Proof.
  intros T Hfd He Hc. unfold get_ctx. cstep (get_entry fstat fd false s T Hfd (or_intror eq_refl)).
  rewrite He, cbind_get, Hc. reflexivity.
Qed.

Lemma upd_entry g p s fd : entry fd (upd_ctx p g s).1 = entry fd s.
Proof. reflexivity. Qed.

Lemma enter_io_run fn fd p c s :
  table_ok s -> 0 <= fd -> entry fd s = Some p -> ctxs s !! p = Some c ->
  enter_io fstat true fn fd s = (s, Ret (do_io_enter true (Some c) (io_timeout fn))).
Proof.
  intros T Hfd He Hc. unfold enter_io. simpl. cstep (get_ctx_run fd p c s T Hfd He Hc). reflexivity.
Qed.

(** A descriptor the hooks own: in the table, a socket, non-blocking in the
    kernel and blocking for the program. *)
Record owned (fd : Z) (rcv snd : Z) (s : FdManager) : Prop := {
  ow_table : table_ok s;
  ow_entry : exists p c, entry fd s = Some p /\ ctxs s !! p = Some c /\ m_isClsed c = false /\ m_isSocket c = true
    /\ m_userNonblock c = false /\ m_recvTimeout c = rcv /\ m_sendTimeout c = snd;
  ow_fl : Z.land (default 0 (fl s !! fd)) O_NONBLOCK = O_NONBLOCK
}.

Lemma owned_enters fn fd rcv snd s :
  0 <= fd -> owned fd rcv snd s ->
  enter_io fstat true fn fd s = (s, Ret (Hooked (if io_timeout fn =? SO_RCVTIMEO then rcv else snd))).
Proof.
  intros Hfd [T (p & c & He & Hc & H1 & H2 & H3 & H4 & H5) _]. rewrite (enter_io_run fn fd p c s T Hfd He Hc).
  unfold do_io_enter, getTimeout. simpl. rewrite H1, H2, H3, H4, H5. reflexivity.
Qed.

Lemma get_owns fd s :
  table_ok s -> 0 <= fd < 2 ^ 30 -> entry fd s = None -> is_socket fstat fd = true ->
  exists s' p, get fstat fd true s = (s', Ret (Some p)) /\ owned fd (u64 (-1)) (u64 (-1)) s' /\
    forall x, x <> fd -> entry x s' = entry x s.
Proof.
  intros T Hfd He Hk. destruct (get_create_ok fstat fd s T Hfd) as (s' & p & Hrun & T' & _ & Hc & Hfl & Hx).
  exists s', p. rewrite get_new by (auto; lia). split; [exact Hrun|]. split.
  - split; [exact T'| |rewrite Hfl; apply new_nonblock, Hk].
    exists p, (FdCtx_new fstat fd (fl s)).1. rewrite Hx, decide_True, Hc, lookup_insert_eq by reflexivity.
    unfold FdCtx_new, init. simpl. rewrite Hk. auto 10.
  - intros x N. rewrite Hx, decide_False by assumption. reflexivity.
Qed.

Lemma setsockopt_run setsockopt_f fd p c name sec usec s :
  table_ok s -> 0 <= fd -> entry fd s = Some p -> ctxs s !! p = Some c -> name = SO_RCVTIMEO \/ name = SO_SNDTIMEO ->
  s_range 64 (sec * 1000) -> s_range 64 (sec * 1000 + Z.quot usec 1000) ->
  setsockopt fstat setsockopt_f true fd SOL_SOCKET name sec usec s =
    (FdManager.set_ctxs (alter (setTimeout name (u64 (sec * 1000 + Z.quot usec 1000))) p (ctxs s)) s,
     Ret (setsockopt_f fd SOL_SOCKET name)).
Proof.
  intros T Hfd He Hc Hn R1 R2. unfold setsockopt. simpl.
  assert (Hb : ((name =? SO_RCVTIMEO) || (name =? SO_SNDTIMEO)) = true) by (destruct Hn as [-> | ->]; reflexivity).
  unfold cbind at 1. rewrite Hb. rewrite (cbind_ret _ _ _ _ _ (get_ctx_run fd p c s T Hfd He Hc)).
  rewrite bool_decide_eq_true_2 by auto. reflexivity.
Qed.

Lemma setsockopt_owned setsockopt_f fd name sec usec rcv snd s :
  0 <= fd -> owned fd rcv snd s -> name = SO_RCVTIMEO \/ name = SO_SNDTIMEO ->
  s_range 64 (sec * 1000) -> s_range 64 (sec * 1000 + Z.quot usec 1000) ->
  let to := u64 (sec * 1000 + Z.quot usec 1000) in
  exists s', setsockopt fstat setsockopt_f true fd SOL_SOCKET name sec usec s = (s', Ret (setsockopt_f fd SOL_SOCKET name)) /\
    owned fd (if name =? SO_RCVTIMEO then to else rcv) (if name =? SO_RCVTIMEO then snd else to) s'.
Proof.
  intros Hfd [T (p & c & He & Hc & H1 & H2 & H3 & H4 & H5) F] Hn R1 R2 to.
  eexists. split; [exact (setsockopt_run setsockopt_f fd p c name sec usec s T Hfd He Hc Hn R1 R2)|].
  split; [exact T| |exact F]. exists p, (setTimeout name to c). split; [exact He|].
  simpl. rewrite lookup_alter_eq, Hc. split; [reflexivity|].
  unfold setTimeout. destruct Hn as [-> | ->]; simpl; auto 10.
Qed.
End calls.

(** ** Theorems *)

(** C19: a descriptor that the hooked socket() returns is from then on one the
    hooks own: the kernel has it non-blocking, every I/O call on it takes the
    waiting path of do_io, first without a timeout and after
    setsockopt(SO_RCVTIMEO or SO_SNDTIMEO) with the milliseconds of the timeval,
    reading calls and accept with the one and writing calls with the other. *)
Theorem socket_is_hooked fstat socket_f setsockopt_f d t pr s rsec rusec ssec susec fn :
  let fd := socket_f d t pr in
  table_ok s -> 0 <= fd < 2 ^ 30 -> entry fd s = None -> is_socket fstat fd = true ->
  s_range 64 (rsec * 1000) -> s_range 64 (rsec * 1000 + Z.quot rusec 1000) ->
  s_range 64 (ssec * 1000) -> s_range 64 (ssec * 1000 + Z.quot susec 1000) ->
  exists s1 s2 s3,
    socket fstat socket_f true d t pr s = (s1, Ret fd) /\
    Z.land (default 0 (fl s1 !! fd)) O_NONBLOCK = O_NONBLOCK /\
    enter_io fstat true fn fd s1 = (s1, Ret (Hooked IOTIMEOUT_NONE)) /\
    setsockopt fstat setsockopt_f true fd SOL_SOCKET SO_RCVTIMEO rsec rusec s1 = (s2, Ret (setsockopt_f fd SOL_SOCKET SO_RCVTIMEO)) /\
    setsockopt fstat setsockopt_f true fd SOL_SOCKET SO_SNDTIMEO ssec susec s2 = (s3, Ret (setsockopt_f fd SOL_SOCKET SO_SNDTIMEO)) /\
    enter_io fstat true fn fd s3 =
      (s3, Ret (Hooked (u64 (match fn with
                             | accept | read | readv | recv | recvfrom | recvmsg => rsec * 1000 + Z.quot rusec 1000
                             | write | writev | send | sendto | sendmsg => ssec * 1000 + Z.quot susec 1000
                             end)))).
Proof.
  intros fd T Hfd He Hk R1 R2 R3 R4. assert (H0 : 0 <= fd) by lia.
  destruct (get_owns fstat fd s T Hfd He Hk) as (s1 & p & H1 & O1 & _).
  destruct (setsockopt_owned fstat setsockopt_f fd SO_RCVTIMEO rsec rusec _ _ s1 H0 O1 (or_introl eq_refl) R1 R2) as (s2 & H2 & O2).
  destruct (setsockopt_owned fstat setsockopt_f fd SO_SNDTIMEO ssec susec _ _ s2 H0 O2 (or_intror eq_refl) R3 R4) as (s3 & H3 & O3).
  exists s1, s2, s3. split.
  { unfold socket. fold fd. simpl. rewrite (proj2 (Z.eqb_neq fd (-1))) by lia. cstep H1. reflexivity. }
  split; [apply O1|]. split; [rewrite (owned_enters fstat fn fd _ _ s1 H0 O1); destruct fn; reflexivity|].
  split; [exact H2|]. split; [exact H3|]. rewrite (owned_enters fstat fn fd _ _ s3 H0 O3).
  destruct fn; reflexivity.
Qed.

Lemma socket_is_hooked_witness :
  exists s1 s2 s3,
    socket demo_kernel (fun _ _ _ => 7) true 2 1 0 FdManager_new = (s1, Ret 7) /\
    Z.land (default 0 (fl s1 !! 7)) O_NONBLOCK = O_NONBLOCK /\
    enter_io demo_kernel true recv 7 s1 = (s1, Ret (Hooked IOTIMEOUT_NONE)) /\
    setsockopt demo_kernel (fun _ _ _ => 0) true 7 SOL_SOCKET SO_RCVTIMEO 5 0 s1 = (s2, Ret 0) /\
    setsockopt demo_kernel (fun _ _ _ => 0) true 7 SOL_SOCKET SO_SNDTIMEO 2 500000 s2 = (s3, Ret 0) /\
    enter_io demo_kernel true recv 7 s3 = (s3, Ret (Hooked (u64 5000))).
Proof.
  apply (socket_is_hooked demo_kernel (fun _ _ _ => 7) (fun _ _ _ => 0) 2 1 0 FdManager_new 5 0 2 500000 recv);
    unfold s_range; try (vm_compute; intuition congruence).
Defined.

(** ** Hooks that call themselves *)

(** Some hooks never come back, whatever the fuel: close() and nanosleep()
    on a thread without hooks, ioctl(FIONBIO) on a socket the table knows,
    fcntl(F_GETFL), and fcntl with a command the switch does not list; each
    calls itself where it means the function of the C library. *)
Theorem selfcalls_never_return fstat close_f fcntl_other ioctl_f fuel :
  (forall fd s, close fstat close_f fuel false fd s = (s, Undef FuelExhausted)) /\
  (forall f now p sec nsec m, nanosleep false f now p fuel sec nsec m = (m, Undef FuelExhausted)) /\
  (forall fd arg s, fcntl fstat fcntl_other fuel fd F_GETFL arg s = (s, Undef FuelExhausted)) /\
  (forall fd cmd arg s, cmd ∉ [F_SETFL; F_GETFL] ++ takes_int ++ takes_pointer ++ takes_nothing ->
     fcntl fstat fcntl_other fuel fd cmd arg s = (s, Undef FuelExhausted)) /\
  (forall fd arg p c s, table_ok s -> 0 <= fd -> entry fd s = Some p -> ctxs s !! p = Some c -> m_isSocket c = true ->
     ioctl fstat ioctl_f fuel fd FIONBIO arg s = (s, Undef FuelExhausted)).
Proof.
  split_and!; induction fuel as [|fuel IH]; intros; try reflexivity; simpl.
  - apply IH.
  - apply IH.
  - apply cbind_undef, IH.
  - destruct (Z.eqb_spec cmd F_SETFL) as [->|]; [set_solver|]. destruct (Z.eqb_spec cmd F_GETFL) as [->|]; [set_solver|].
    rewrite !bool_decide_eq_false_2 by set_solver. apply IH. assumption.
  - cstep (get_ctx_run fstat fd p c s H H0 H1 H2). rewrite H3. simpl. eapply IH; eassumption.
Qed.

(** ** F_SETFL *)

Lemma setfl_run fstat fcntl_other fuel fd arg p c s :
  table_ok s -> 0 <= fd -> entry fd s = Some p -> ctxs s !! p = Some c -> m_isClsed c || m_isSocket c = true ->
  is_Some (fstat fd) ->
  fcntl fstat fcntl_other (S fuel) fd F_SETFL arg s = (set_fl (<[fd := arg]> (fl s)) s, Ret 0).
Proof.
  intros T Hfd He Hc Hk [b Hb]. simpl. cstep (get_ctx_run fstat fd p c s T Hfd He Hc). rewrite Hk.
  unfold fcntl_f. simpl. rewrite Hb. reflexivity.
Qed.

(** Fcntl(F_SETFL) on a socket the hooks own does nothing of what the hook is
    for: the wish of the program for non-blocking calls is not recorded, so that
    every I/O call still waits, and flags without O_NONBLOCK make the descriptor
    blocking in the kernel, so that a call of the hooks would stop the thread. *)
Theorem setfl_bypasses_hook fstat fcntl_other fuel fd arg rcv snd fn s :
  0 <= fd -> is_Some (fstat fd) -> owned fd rcv snd s ->
  exists s', fcntl fstat fcntl_other (S fuel) fd F_SETFL arg s = (s', Ret 0) /\
    default 0 (fl s' !! fd) = arg /\
    enter_io fstat true fn fd s' = (s', Ret (Hooked (if io_timeout fn =? SO_RCVTIMEO then rcv else snd))).
Proof.
  intros Hfd Hf O. pose proof O as [T (p & c & He & Hc & H1 & H2 & H3 & H4 & H5) _].
  eexists. split; [apply (setfl_run fstat fcntl_other fuel fd arg p c s T Hfd He Hc); [rewrite H2; apply orb_true_r|exact Hf]|].
  simpl. rewrite lookup_insert_eq. split; [reflexivity|].
  erewrite (enter_io_run fstat fn fd p c (set_fl (<[fd := arg]> (fl s)) s) T Hfd He Hc).
  unfold do_io_enter, getTimeout. simpl. rewrite H1, H2, H3, H4, H5. reflexivity.
Qed.

(** ** Sleeping *)

(** What parking for [ms] milliseconds promises. *)
Definition wakes_at (f : nat) (p d : Z) (m m' : TimerManager) : Prop :=
  TInv m' /\ (forall x, x <> p -> heap m' !! x = heap m !! x) /\
  forall later q, heap m' !! q = None -> exists m2 cbs,
    listExpiredCb later q m' = (m2, Ret cbs) /\ (d <= later -> Some (Fun f) ∈ cbs) /\
    (rolled_over later m' = false -> later < d -> exists t, heap m2 !! p = Some t /\ m_cb t = Some (Fun f)).

Lemma park_wakes f now p ms m :
  TInv m -> heap m !! p = None ->
  exists m', park_for f now p ms m = (m', Ret None) /\ wakes_at f p (u64 (now + ms)) m m'.
Proof.
  intros I Hp. destruct (addTimer_ok now p ms (Some (Fun f)) false m I Hp) as (m' & H & I' & T & _).
  exists m'. unfold park_for. cstep H. split; [reflexivity|]. pose proof (to_heap _ _ _ _ _ T) as Hh.
  split; [exact I'|]. split; [intros x N; rewrite Hh; apply lookup_insert_ne; congruence|].
  intros later q Hq.
  assert (Hp' : heap m' !! p = Some (Timer_new now ms (Some (Fun f)) false)) by (rewrite Hh; apply lookup_insert_eq).
  destruct (take_expired_ok m' later q I' Hq) as (s1 & ps & Hrun & C).
  destruct (cut_inv _ _ _ _ I' C) as (I1 & N & Hin).
  destruct (expire_loop_ok later ps s1 I1 N Hin) as (s2 & cbs & Hrun2 & X & Hcbs).
  exists s2, cbs. split; [unfold listExpiredCb; cstep Hrun; exact Hrun2|]. rewrite (cut_heap _ _ _ _ C) in Hcbs. split.
  - intros Hd. refine (cbs_in _ _ _ Hcbs p (Timer_new now ms (Some (Fun f)) false) _ Hp').
    assert (Hm : p ∈ m_timers m') by (destruct (ti_cb _ _ I' p _ Hp') as [?|?]; [simpl; discriminate|assumption|set_solver]).
    rewrite (cut_list _ _ _ _ C) in Hm. apply elem_of_app in Hm as [Hm|Hm]; [exact Hm|].
    destruct (cut_later _ _ _ _ C p Hm) as (_ & d & Ed & Hlt). unfold deadline in Ed. rewrite Hp' in Ed. injection Ed as <-. simpl in Hlt. lia.
  - intros Hr Hd. rewrite (ex_heap _ _ _ _ X), (cut_heap _ _ _ _ C). rewrite decide_False; [eauto|].
    intros Hx. destruct (cut_due _ _ _ _ C p Hx) as [E|(d & Ed & Hle)]; [congruence|].
    unfold deadline in Ed. rewrite Hp' in Ed. injection Ed as <-. simpl in Hle. lia.
Qed.

(** A hooked sleep, usleep or nanosleep yields with a timer of its own that
    hands the fiber to the scheduler at the first look at the clock at or behind
    its deadline and at none before it (the clock not set back); the deadline is
    [seconds * 1000] computed in 32 bits, the microseconds rounded down to
    milliseconds, and the milliseconds of the timespec as an int. *)
Theorem sleep_wakes f now p m sleep_f usleep_f fuel :
  TInv m -> heap m !! p = None ->
  (forall seconds, exists m', sleep sleep_f true f now p seconds m = (m', Ret None) /\
     wakes_at f p (u64 (now + u32 (seconds * 1000))) m m') /\
  (forall usec, exists m', usleep usleep_f true f now p usec m = (m', Ret None) /\
     wakes_at f p (u64 (now + usec / 1000)) m m') /\
  (forall sec nsec, 0 <= sec < 2 ^ 31 -> 0 <= nsec < 10 ^ 9 ->
     exists m', nanosleep true f now p (S fuel) sec nsec m = (m', Ret None) /\
     wakes_at f p (u64 (now + u64 (i32 (sec * 1000 + nsec / 1000000)))) m m').
Proof.
  intros I Hp. split_and!.
  - intros seconds. exact (park_wakes f now p _ m I Hp).
  - intros usec. exact (park_wakes f now p _ m I Hp).
  - intros sec nsec Hs Hn. simpl.
    assert (Hq : Z.quot (Z.quot nsec 1000) 1000 = nsec / 1000000).
    { rewrite !Z.quot_div_nonneg by (try apply Z.quot_pos; lia). rewrite Z.div_div by lia. reflexivity. }
    unfold nanosleep_ms. rewrite Hq. rewrite bool_decide_eq_true_2; [exact (park_wakes f now p _ m I Hp)|].
    assert (0 <= nsec / 1000000 < 1000) by (split; [apply Z.div_pos; lia|apply Z.div_lt_upper_bound; lia]).
    unfold s_range. lia.
Qed.

Lemma sleep_wakes_witness :
  exists m', sleep (fun _ => 0) true 7 1000 100 2 (TimerManager_new 0) = (m', Ret None) /\
    wakes_at 7 100 3000 (TimerManager_new 0) m'.
Proof. exact (proj1 (sleep_wakes 7 1000 100 (TimerManager_new 0) (fun _ => 0) (fun _ => 0) 0 (new_inv 0) eq_refl) 2). Defined.

(** sleep multiplies in 32 bits: a sleep of 4294968 seconds ends after 704 ms. *)
Example sleep_wraps : u32 (4294968 * 1000) = 704.
Proof. reflexivity. Qed.

(** A socket as the hooks make it. *)
Lemma demo_owned : owned 7 (u64 (-1)) (u64 (-1)) (get demo_kernel 7 true FdManager_new).1.
Proof.
  destruct (get_owns demo_kernel 7 FdManager_new) as (s' & p & H & O & _); [vm_compute; intuition congruence|lia|reflexivity|reflexivity|].
  rewrite H. exact O.
Qed.

Lemma setfl_bypasses_hook_witness :
  exists s', fcntl demo_kernel (fun _ _ _ => 0) 1 7 F_SETFL 0 (get demo_kernel 7 true FdManager_new).1 = (s', Ret 0) /\
    default 0 (fl s' !! 7) = 0 /\ enter_io demo_kernel true recv 7 s' = (s', Ret (Hooked (u64 (-1)))).
Proof.
  apply (setfl_bypasses_hook demo_kernel (fun _ _ _ => 0) 0 7 0 (u64 (-1)) (u64 (-1)) recv); [lia|vm_compute; eauto|exact demo_owned].
Defined.
