(* ===== verification/IOLoop.v ===== *)
(** * The idle loop of the IOManager (sylar/iomanager.cpp)

    One turn of [idle] between two switches of the fiber: the test for the end,
    the wait, the expired timers, the reports.  The registry (IOManager.v), the
    timers (Timer.v) and the wake-up pipe are one state; what epoll_wait answers
    is an argument.  The pipe holds as many bytes as were written and not read;
    its reading end does not block. *)

From Stdlib Require Import ZArith Lia.
From stdpp Require Import base list gmap.
From S2P Require Import Prelude Ordered Timer TimerSpec IOManager IOManagerSpec Hook HookIo HookSpec.

Local Open Scope Z_scope.
Local Open Scope cpp_scope.

(** What one entry of the array says; [refused] is what [epoll_ctl] answers when
    the loop handles it. *)
Inductive report : Type := RPipe | RFd (fd mask : Z) (refused : bool).

#[export] Instance report_eq_dec : EqDecision report.
Proof. solve_decision. Defined.

(** What [epoll_wait] returns: interrupted, another error, or entries. *)
Inductive answer : Type := AIntr | AError | AReports (l : list report).

Record Loop : Type := mkLoop {
  l_io : IOManager;
  l_tm : TimerManager;
  l_pipe : nat;
  (** callbacks handed to [schedule(cbs.begin(), cbs.end())] *)
  l_cbs : list (option callback)
}.

Definition lift_io {A} (m : M IOManager A) : M Loop A := fun s =>
  let r := m (l_io s) in (mkLoop r.1 (l_tm s) (l_pipe s) (l_cbs s), r.2).
Definition lift_tm {A} (m : M TimerManager A) : M Loop A := fun s =>
  let r := m (l_tm s) in (mkLoop (l_io s) r.1 (l_pipe s) (l_cbs s), r.2).

Definition set_pipe n s := mkLoop (l_io s) (l_tm s) n (l_cbs s).
Definition add_cbs l s := mkLoop (l_io s) (l_tm s) (l_pipe s) (l_cbs s ++ l).

(** [trickle] and [onTimerInsertedAtFront]. *)
Definition trickle (hasIdleThreads : bool) : M Loop unit :=
  if negb hasIdleThreads then cret tt else cmod (fun s => set_pipe (S (l_pipe s)) s).
Definition onTimerInsertedAtFront (hasIdleThreads : bool) : M Loop unit := trickle hasIdleThreads.

(** [while (read(m_trickleFds[0], &dummy, 1) == 1);] *)
Fixpoint drain (n : nat) : nat := match n with O => O | S n => drain n end.

(** The loop around [epoll_wait]: [None] when the answers end before it does. *)
Fixpoint wait_loop (answers : list answer) : option (list report) :=
  match answers with
  | [] => None
  | AIntr :: rest => wait_loop rest
  | AError :: _ => Some []
  | AReports l :: _ => Some l
  end.

Definition handle_report (r : report) : M Loop unit :=
  match r with
  | RPipe => cmod (fun s => set_pipe (drain (l_pipe s)) s)
  | RFd fd mask refused => lift_io (handle_event refused fd mask)
  end.

Fixpoint handle_reports (l : list report) : M Loop unit :=
  match l with [] => cret tt | r :: rest => handle_report r ;;; handle_reports rest end.

(** One turn; the result says that the loop ends. *)
Definition idle_turn (sched : bool) (now now' q : Z) (answers : list answer) : M Loop bool :=
  let! next_timeout := lift_tm (getNextTimer now) in
  let! stop := lift_io (IOManager.stopping next_timeout sched) in
  if stop then cret true
  else match wait_loop answers with
       | None => cundef FuelExhausted
       | Some reports =>
           let! cbs := lift_tm (listExpiredCb now' q) in
           cmod (add_cbs cbs) ;;;
           handle_reports reports ;;;
           cret false
       end.

(** ** What the reports ask for *)

Definition registered (m : IOManager) (fd ev : Z) : bool := bool_decide (is_Some (reg m fd ev)).

(** An entry asks for an event by its own flag, or, with an error or a hang-up,
    when the event is registered. *)
Definition asks (m : IOManager) (fd mask ev : Z) : bool :=
  has mask ev || (has mask (Z.lor EPOLLERR EPOLLHUP) && registered m fd ev).

(** The registered events an entry is for. *)
Definition keys (m : IOManager) (r : report) : list (Z * Z) :=
  match r with
  | RFd fd mask false =>
      filter (fun k => asks m fd mask k.2 && registered m fd k.2) [(fd, READ); (fd, WRITE)]
  | _ => []
  end.

(** It is for one that is registered and asks for one that is not. *)
Definition stale (m : IOManager) (r : report) : bool :=
  match r with
  | RFd fd mask false =>
      negb (bool_decide (keys m r = [])) &&
      existsb (fun ev => asks m fd mask ev && negb (registered m fd ev)) [READ; WRITE]
  | _ => false
  end.

Definition fd_of (r : report) : option Z := match r with RPipe => None | RFd fd _ _ => Some fd end.

(** An entry of a descriptor carries its context. *)
Definition known (m : IOManager) (r : report) : Prop :=
  match r with RPipe => True | RFd fd _ _ => 0 <= fd < zlen (m_fdContexts m) end.

(** ** Reports *)

Lemma drain_zero n : drain n = O.
Proof. induction n; auto. Qed.

Lemma has_lor a b e : has (Z.lor a b) e = has a e || has b e.
Proof.
  unfold has. rewrite Z.land_lor_distr_l.
  destruct (Z.eqb_spec (Z.land a e) 0) as [->|Ha]; [by rewrite Z.lor_0_l|].
  destruct (Z.eqb_spec (Z.lor (Z.land a e) (Z.land b e)) 0) as [E|]; [|done].
  apply Z.lor_eq_0_iff in E as [? _]. done.
Qed.

Lemma asks_real m fd mask c ev :
  IOInv m -> ctx_at m fd = Some c -> is_event ev -> has (real_events mask c) ev = asks m fd mask ev.
Proof.
  intros I Hc E. unfold asks, registered. rewrite <- (reg_has m fd c ev I Hc E).
  pose proof (co_mask _ _ (io_ctx m I fd c Hc)) as Mk. unfold real_events.
  set (e := if has mask (Z.lor EPOLLERR EPOLLHUP) then _ else mask).
  assert (He : has e ev = has mask ev || (has mask (Z.lor EPOLLERR EPOLLHUP) && has (events c) ev)).
  { unfold e. destruct (has mask (Z.lor EPOLLERR EPOLLHUP)); [|by rewrite orb_false_r].
    rewrite has_lor. f_equal. by destruct Mk as [-> |[-> |[-> | ->]]], E as [-> | ->]. }
  rewrite <- He. destruct E as [-> | ->]; change EPOLLIN with READ; change EPOLLOUT with WRITE;
    by destruct (has e READ), (has e WRITE).
Qed.

Lemma keys_fd m r x y : (x, y) ∈ keys m r -> fd_of r = Some x /\ is_event y.
Proof.
  destruct r as [|fd mask []]; simpl; try (intros H; by apply not_elem_of_nil in H).
  intros [_ H]%list_elem_of_filter. unfold is_event.
  apply elem_of_cons in H as [[= -> ->]|[= -> ->]%list_elem_of_singleton]; auto.
Qed.

Lemma keys_ext m m' r :
  (forall x y, fd_of r = Some x -> reg m' x y = reg m x y) -> keys m' r = keys m r /\ stale m' r = stale m r.
Proof.
  destruct r as [|fd mask []]; simpl; try done. intros H.
  assert (E : forall y, registered m' fd y = registered m fd y) by (intros; unfold registered; by rewrite H).
  assert (A : forall y, asks m' fd mask y = asks m fd mask y) by (intros; unfold asks; by rewrite E).
  assert (K : filter (fun k : Z * Z => asks m' fd mask k.2 && registered m' fd k.2) [(fd, READ); (fd, WRITE)]
            = filter (fun k : Z * Z => asks m fd mask k.2 && registered m fd k.2) [(fd, READ); (fd, WRITE)]).
  { apply list_filter_iff. intros k. by rewrite A, E. }
  rewrite K. cbn [existsb]. by rewrite !A, !E.
Qed.

(** The tasks of [ks] leave the registry for the scheduler. *)
Record delivered (ks : list (Z * Z)) (m m' : IOManager) : Prop := {
  dl_inv : IOInv m';
  dl_tasks : scheduled m' = scheduled m ++ omap (fun k => reg m k.1 k.2) ks;
  dl_reg x y : reg m' x y = if decide ((x, y) ∈ ks) then None else reg m x y;
  dl_len : zlen (m_fdContexts m') = zlen (m_fdContexts m)
}.

Lemma delivered_nil m : IOInv m -> delivered [] m m.
Proof.
  intros I. split; [done|by rewrite app_nil_r| |done]. intros. by rewrite decide_False by set_solver.
Qed.

(** From what is known of the events to all keys. *)
Lemma delivered_from ks m m' :
  IOInv m' -> scheduled m' = scheduled m ++ omap (fun k => reg m k.1 k.2) ks ->
  zlen (m_fdContexts m') = zlen (m_fdContexts m) ->
  (forall x y, is_event y -> reg m' x y = if decide ((x, y) ∈ ks) then None else reg m x y) -> delivered ks m m'.
Proof.
  intros I Hs Hl Hr. split; [done..| |done].
  intros x y. destruct (decide (y = READ \/ y = WRITE)) as [E|E]; [apply Hr, E|].
  assert (Hn : forall m0, reg m0 x y = None).
  { intros m0. destruct (reg m0 x y) as [w|] eqn:Ew; [|done]. by apply reg_event in Ew. }
  rewrite !Hn. by destruct (decide _).
Qed.

Lemma handle_event_delivers m fd mask refused :
  let r := RFd fd mask refused in
  IOInv m -> known m r ->
  if stale m r then exists m', handle_event refused fd mask m = (m', Undef AssertFailed)
  else exists m', handle_event refused fd mask m = (m', Ret tt) /\ delivered (keys m r) m m'.
Proof.
  intros r I Hk. destruct (ctx_in m fd Hk) as [c Hc].
  pose proof (asks_real m fd mask c) as Hreal. set (real := real_events mask c) in *.
  assert (HR : is_event READ) by (by left). assert (HW : is_event WRITE) by (by right).
  assert (Hreg : forall y, is_event y -> has (events c) y = registered m fd y)
    by (intros; by apply reg_has).
  assert (Hnone : (Z.land (events c) real =? NONE)
    = negb (asks m fd mask READ && registered m fd READ || asks m fd mask WRITE && registered m fd WRITE)).
  { rewrite <- !Hreg, <- !Hreal by done. pose proof (real_split mask c) as Hsp. fold real in Hsp. cbv zeta in Hsp.
    rewrite Hsp at 1. destruct (has real READ), (has real WRITE);
      by destruct (co_mask _ _ (io_ctx m I fd c Hc)) as [-> |[-> |[-> | ->]]]. }
  destruct refused.
  { exists m. split; [|by apply delivered_nil]. unfold handle_event. cstep (ctx_run m fd c Hc). fold real.
    by destruct (_ =? NONE). }
  assert (Hkeys : bool_decide (keys m r = []) = (Z.land (events c) real =? NONE)).
  { rewrite Hnone. subst r. unfold keys. rewrite !filter_cons, filter_nil. cbn [snd].
    destruct (asks m fd mask READ && registered m fd READ), (asks m fd mask WRITE && registered m fd WRITE); done. }
  destruct (stale m r) eqn:Hst.
  - apply andb_true_iff in Hst as [H1 H2]. rewrite Hkeys in H1. apply negb_true_iff in H1.
    apply existsb_exists in H2 as (y & Hy & [Ha Hn]%andb_true_iff). apply negb_true_iff in Hn.
    assert (Ey : is_event y) by (destruct Hy as [<-|[<-|[]]]; done).
    apply (handle_event_stale m fd mask c y I Hc H1 Ey); [by rewrite Hreal|by rewrite Hreg].
  - destruct (Z.land (events c) real =? NONE) eqn:Hz.
    + exists m. split; [unfold handle_event; cstep (ctx_run m fd c Hc); fold real; by rewrite Hz|].
      apply bool_decide_eq_true in Hkeys. rewrite Hkeys. by apply delivered_nil.
    + unfold stale in Hst. fold r in Hst. subst r. rewrite Hkeys in Hst. simpl in Hst. rewrite orb_false_r in Hst.
      apply orb_false_iff in Hst as [S1 S2].
      assert (Hall : forall y, is_event y -> has real y = true -> registered m fd y = true).
      { intros y Ey Hy. rewrite Hreal in Hy by done.
        destruct Ey as [-> | ->]; [rewrite Hy in S1|rewrite Hy in S2]; by apply negb_false_iff. }
      destruct (handle_event_run m fd mask c I Hc) as (m' & E & I' & Hs & Hg & Hlen).
      { intros y Ey Hy. by apply (bool_decide_eq_true_1 _), (Hall y Ey Hy). }
      fold real in Hs, Hg. exists m'. split; [exact E|].
      assert (Hk2 : forall y, is_event y -> asks m fd mask y && registered m fd y = has real y).
      { intros y Ey. rewrite <- (Hreal y) by done. destruct (has real y) eqn:Hy; [|done]. by rewrite Hall. }
      apply delivered_from; [done| |done|].
      * rewrite Hs. f_equal. unfold keys. rewrite !filter_cons, filter_nil. cbn [snd]. rewrite !Hk2 by done.
        destruct (has real READ), (has real WRITE); simpl;
          destruct (reg m fd READ), (reg m fd WRITE); reflexivity.
      * intros x y Ey. rewrite Hg by done.
        assert (Hin : (x, y) ∈ keys m (RFd fd mask false) <-> x = fd /\ has real y = true).
        { unfold keys. rewrite list_elem_of_filter, elem_of_cons, list_elem_of_singleton. cbn [snd].
          rewrite Hk2 by done. split; [|intros [-> Hh]; split; [by rewrite Hh|]; destruct Ey as [-> | ->]; auto].
          intros [Hh [[= -> ->]|[= -> ->]]]; (split; [done|]); by apply Is_true_true. }
        destruct (decide (x = fd /\ has real y = true)), (decide ((x, y) ∈ keys m (RFd fd mask false))); tauto.
Qed.

(** One report, then the others: their descriptors are not touched. *)
Lemma delivered_app ks1 ks2 m1 m2 m3 :
  delivered ks1 m1 m2 -> delivered ks2 m2 m3 -> (forall k, k ∈ ks2 -> k ∉ ks1) -> delivered (ks1 ++ ks2) m1 m3.
Proof.
  intros [_ S1 R1 L1] [I2 S2 R2 L2] Hd. split; [done| | |congruence].
  - rewrite S2, S1, omap_app, app_assoc. f_equal.
    apply list_omap_ext, Forall_Forall2_diag, Forall_forall. intros [x y] Hk. simpl.
    by rewrite R1, decide_False by (by apply Hd).
  - intros x y. rewrite R2, R1.
    destruct (decide ((x, y) ∈ ks2)), (decide ((x, y) ∈ ks1)), (decide ((x, y) ∈ ks1 ++ ks2)); set_solver.
Qed.

Definition all_keys (m : IOManager) (l : list report) : list (Z * Z) := concat (map (keys m) l).

Lemma all_keys_fd m l x y : (x, y) ∈ all_keys m l -> x ∈ omap fd_of l.
Proof.
  unfold all_keys. induction l as [|r l IH]; simpl; [set_solver|]. intros [H|H]%elem_of_app.
  - apply keys_fd in H as [-> _]. left.
  - destruct (fd_of r); [right|]; auto.
Qed.

Lemma all_keys_ext m m' l :
  (forall x y, x ∈ omap fd_of l -> reg m' x y = reg m x y) ->
  all_keys m' l = all_keys m l /\ existsb (stale m') l = existsb (stale m) l.
Proof.
  induction l as [|r l IH]; intros H; [done|]. unfold all_keys. cbn [map concat existsb].
  destruct (keys_ext m m' r) as [-> ->]; [intros x y Hx; apply H; simpl; rewrite Hx; left|].
  destruct IH as [E1 E2]; [intros x y Hx; apply H; simpl; destruct (fd_of r); [by right|done]|].
  unfold all_keys in E1. by rewrite E1, E2.
Qed.

Lemma handle_reports_delivers l : forall s,
  IOInv (l_io s) -> NoDup (omap fd_of l) -> Forall (known (l_io s)) l ->
  if existsb (stale (l_io s)) l then exists s', handle_reports l s = (s', Undef AssertFailed)
  else exists m', handle_reports l s
    = (mkLoop m' (l_tm s) (if bool_decide (RPipe ∈ l) then O else l_pipe s) (l_cbs s), Ret tt) /\
    delivered (all_keys (l_io s) l) (l_io s) m'.
Proof.
  induction l as [|r l IH]; intros s I Hnd Hk; [exists (l_io s); split; [by destruct s|by apply delivered_nil]|].
  inversion Hk as [|? ? Hkr Hkl]; subst. cbn [handle_reports existsb]. destruct r as [|fd mask refused].
  - cbn [handle_report stale orb]. rewrite cbind_mod, drain_zero. specialize (IH (set_pipe 0 s) I Hnd Hkl).
    cbn [l_io set_pipe] in IH. destruct (existsb _ l); [done|]. destruct IH as (m' & E & D).
    exists m'. split; [|done]. rewrite E. cbn. f_equal. f_equal.
    rewrite (bool_decide_eq_true_2 (RPipe ∈ RPipe :: l)) by left. by destruct (bool_decide _).
  - apply NoDup_cons in Hnd as [Hfd Hnd].
    pose proof (handle_event_delivers (l_io s) fd mask refused I Hkr) as Hr.
    set (r := RFd fd mask refused) in *. destruct (stale (l_io s) r); cbn [orb].
    { destruct Hr as (m' & E). eexists. apply cbind_undef. unfold r, handle_report, lift_io. rewrite E. reflexivity. }
    destruct Hr as (m1 & E1 & D1).
    assert (Hsame : forall x y, x ∈ omap fd_of l -> reg m1 x y = reg (l_io s) x y).
    { intros x y Hx. rewrite (dl_reg _ _ _ D1), decide_False; [done|]. intros [[= ->] _]%keys_fd. done. }
    destruct (all_keys_ext _ _ _ Hsame) as [Ek Es].
    specialize (IH (mkLoop m1 (l_tm s) (l_pipe s) (l_cbs s)) (dl_inv _ _ _ D1) Hnd).
    cbn [l_io l_tm l_pipe l_cbs] in IH. rewrite Es, Ek in IH.
    assert (Hk1 : Forall (known m1) l).
    { eapply Forall_impl; [exact Hkl|]. intros [|x z b]; simpl; [done|]. by rewrite (dl_len _ _ _ D1). }
    specialize (IH Hk1).
    assert (E2 : handle_report r s = (mkLoop m1 (l_tm s) (l_pipe s) (l_cbs s), Ret tt))
      by (unfold r, handle_report, lift_io; by rewrite E1).
    cstep E2.
    destruct (existsb _ l); [done|]. destruct IH as (m' & E & D). exists m'. split.
    + rewrite E. f_equal. f_equal. by rewrite (bool_decide_ext (RPipe ∈ RFd fd mask refused :: l) (RPipe ∈ l)) by set_solver.
    + change (all_keys (l_io s) (r :: l)) with (keys (l_io s) r ++ all_keys (l_io s) l).
      eapply delivered_app; [done..|]. intros [x y] H2 [H1 _]%keys_fd. apply all_keys_fd in H2.
      simpl in H1. by simplify_eq.
Qed.

(** Nothing is left to wait for. *)
Definition finished (sched : bool) (s : Loop) : Prop :=
  m_timers (l_tm s) = [] /\ m_pendingEventCount (l_io s) = 0 /\ sched = true.

(** C15: one turn of the idle loop, taken in one piece, whose wait returned the
    entries [reports], one for a descriptor at most.  When no timer is set, no
    event is pending and the scheduler may stop, it ends the loop and changes
    nothing.  Otherwise, when no entry is stale, the turn ends; exactly the timers
    that are due have their callbacks scheduled, in the order of their deadlines;
    exactly the registered events that the entries ask for leave the registry, and
    their tasks go to the scheduler in the order of the entries, the reader before
    the writer; an entry of the pipe empties it.  A stale entry, which asks for a
    registered event and for one that is not, fails the assertion of
    [triggerEvent]. *)
Theorem idle_turn_delivers sched now now' q answers reports s :
  IOInv (l_io s) -> TInv (l_tm s) -> in_range (l_tm s) -> heap (l_tm s) !! q = None -> 0 < now ->
  wait_loop answers = Some reports -> NoDup (omap fd_of reports) -> Forall (known (l_io s)) reports ->
  (finished sched s -> exists tm, idle_turn sched now now' q answers s
     = (mkLoop (l_io s) tm (l_pipe s) (l_cbs s), Ret true) /\ tm = set_trickled false (l_tm s)) /\
  (~ finished sched s ->
     if existsb (stale (l_io s)) reports
     then exists s', idle_turn sched now now' q answers s = (s', Undef AssertFailed)
     else exists s' expired cbs, idle_turn sched now now' q answers s = (s', Ret false) /\
       TInv (l_tm s') /\ l_cbs s' = l_cbs s ++ cbs /\
       map Some cbs = map (fun p => m_cb <$> heap (l_tm s) !! p) expired /\
       sorted (less (heap (l_tm s))) expired /\
       (forall p, p ∈ expired <-> p ∈ m_timers (l_tm s) /\
          (rolled_over now' (l_tm s) = true \/ exists d, deadline (heap (l_tm s)) p = Some d /\ d <= now')) /\
       delivered (all_keys (l_io s) reports) (l_io s) (l_io s') /\
       l_pipe s' = if bool_decide (RPipe ∈ reports) then O else l_pipe s).
Proof.
  intros I T R Hq Hn Hw Hnd Hk. unfold idle_turn. destruct (getNextTimer_ok now (l_tm s) T) as (v & Hv & Hval).
  assert (Hlift : lift_tm (getNextTimer now) s = (mkLoop (l_io s) (set_trickled false (l_tm s)) (l_pipe s) (l_cbs s), Ret v))
    by (unfold lift_tm; rewrite Hv; reflexivity).
  set (m1 := set_trickled false (l_tm s)) in *.
  assert (Hst : lift_io (IOManager.stopping v sched) (mkLoop (l_io s) m1 (l_pipe s) (l_cbs s))
    = (mkLoop (l_io s) m1 (l_pipe s) (l_cbs s), Ret ((v =? 2 ^ 64 - 1) && (m_pendingEventCount (l_io s) =? 0) && sched)))
    by reflexivity.
  rewrite !(cbind_ret _ _ _ _ _ Hlift), !(cbind_ret _ _ _ _ _ Hst).
  assert (Hnone : (v =? 2 ^ 64 - 1) = true <-> m_timers (l_tm s) = []).
  { rewrite Z.eqb_eq. destruct (m_timers (l_tm s)) as [|p l]; [tauto|]. destruct Hval as (t & Ht & ->).
    specialize (R p t Ht). unfold u_range in R. split; [|discriminate]. destruct (Z.geb_spec now (m_next t)); [lia|].
    unfold uwrap. rewrite Z.mod_small by lia. lia. }
  assert (Hstop : (v =? 2 ^ 64 - 1) && (m_pendingEventCount (l_io s) =? 0) && sched = true <-> finished sched s)
    by (unfold finished; rewrite !andb_true_iff, Hnone, Z.eqb_eq; tauto).
  split; intros Hf.
  - apply Hstop in Hf. rewrite Hf. by eexists.
  - destruct (_ && sched); [by destruct Hf; apply Hstop|]. rewrite Hw.
    assert (T1 : TInv m1) by (destruct T; split; assumption).
    destruct (expired_exact m1 now' q T1 Hq) as (m2 & expired & cbs & Hx & Hso & Hex & Hcbs & _ & _ & T2).
    assert (Hx' : lift_tm (listExpiredCb now' q) (mkLoop (l_io s) m1 (l_pipe s) (l_cbs s))
      = (mkLoop (l_io s) m2 (l_pipe s) (l_cbs s), Ret cbs)) by (unfold lift_tm; simpl; by rewrite Hx).
    rewrite (cbind_ret _ _ _ _ _ Hx'), cbind_mod.
    pose proof (handle_reports_delivers reports (add_cbs cbs (mkLoop (l_io s) m2 (l_pipe s) (l_cbs s))) I Hnd Hk) as Hr.
    cbn [l_io add_cbs] in Hr. destruct (existsb _ _).
    + destruct Hr as (s' & E). exists s'. by apply cbind_undef.
    + destruct Hr as (m' & E & D). cstep E. eexists _, expired, cbs. split; [reflexivity|].
      split; [done|]. split; [done|]. split; [done|]. split; [done|]. split; [done|]. by split.
Qed.

(** ** A turn with a due timer, an event and a wake-up *)

Definition demo_loop : Loop :=
  mkLoop demo_io (addTimer 1000 100 500 (Some (Fun 9)) false (TimerManager_new 0)).1 3 [].

Definition demo_answers : list answer := [AIntr; AReports [RPipe; RFd 40 EPOLLIN false]].

Definition demo_turn : Loop := (idle_turn true 1200 1500 101 demo_answers demo_loop).1.

(** The callback of the timer and the reader of descriptor 40 are scheduled. *)
Lemma idle_turn_delivers_witness :
  l_cbs demo_turn = [Some (Fun 9)] /\ l_pipe demo_turn = O /\
  scheduled (l_io demo_turn) = scheduled demo_io ++ [(1%nat, TFiber 7)] /\ reg (l_io demo_turn) 40 READ = None.
Proof.
  destruct (addTimer_ok 1000 100 500 (Some (Fun 9)) false (TimerManager_new 0) (new_inv 0) eq_refl) as (m & Hm & T & _).
  assert (Hl : l_tm demo_loop = m) by (unfold demo_loop; rewrite Hm; reflexivity).
  destruct (idle_turn_delivers true 1200 1500 101 demo_answers [RPipe; RFd 40 EPOLLIN false] demo_loop) as (_ & H).
  - exact demo_IOInv.
  - rewrite Hl. exact T.
  - intros p t. change (heap (l_tm demo_loop)) with ({[100 := Timer_new 1000 500 (Some (Fun 9)) false]} : gmap Z Timer).
    intros [_ <-]%lookup_singleton_Some. split; [discriminate|reflexivity].
  - reflexivity.
  - lia.
  - reflexivity.
  - repeat constructor. set_solver.
  - repeat constructor; vm_compute; congruence.
  - assert (Hf : ~ finished true demo_loop) by (intros (E & _); vm_compute in E; discriminate E).
    specialize (H Hf). change (existsb _ _) with false in H.
    destruct H as (s' & expired & cbs & E & _ & _ & _ & _ & _ & D & P).
    assert (Es : s' = demo_turn) by (unfold demo_turn; rewrite E; reflexivity). subst s'.
    split; [vm_compute; reflexivity|]. split; [exact P|]. split; [exact (dl_tasks _ _ _ D)|].
    rewrite (dl_reg _ _ _ D). reflexivity.
Defined.
