(* ===== verification/SocketDatagram.v ===== *)
(** * The other calls of a socket (sylar/socket.cpp)

    Options, datagrams, the cancelling of waits and the text of a socket.  The
    system calls behind them are parameters of the section. *)

From Stdlib Require Import ZArith Lia String.
From stdpp Require Import base list gmap sets.
From S2P Require Import Prelude CString FdManager IOManager Socket SocketSpec.

Local Open Scope string_scope.
Local Open Scope Z_scope.
Local Open Scope cpp_scope.

Definition SO_ERROR : Z := 4.

Section more.
Context {B A : Type} {K : Kernel B A}.
(** [getsockopt]: the value, or errno. *)
Context (k_getsockopt : Z -> Z -> Z -> world -> Z + Z).
(** [sendto] and [sendmsg] with an address; [recvfrom] and [recvmsg] with the
    result, the bytes and the address of the sender. *)
Context (k_sendto : Z -> list B -> A -> world -> world * Z).
Context (k_recvfrom : Z -> Z -> A -> world -> world * (Z * list B * A)).
Context (address_text : A -> string).

Definition getOption (level option_ : Z) : M (St B A K) (Z + Z) := fun st =>
  (st, Ret (k_getsockopt (m_sock st.1) level option_ st.2)).

Definition getError : M (St B A K) Z :=
  let! r := getOption SOL_SOCKET SO_ERROR in
  cret (match r with inl error => error | inr errno => errno end).

Definition sendTo (buffer : list B) (to : A) : M (St B A K) Z :=
  let! c := isConnected in
  if c then let! fd := Socket.get m_sock in
            let! r := sys (k_sendto fd buffer to) in
            cret (i32 r)
  else cret (-1).

Definition recvFrom (length : Z) (from : A) : M (St B A K) (Z * list B * A) :=
  let! c := isConnected in
  if c then let! fd := Socket.get m_sock in
            let! r := sys (k_recvfrom fd length from) in
            cret (i32 r.1.1, r.1.2, r.2)
  else cret (-1, [], from).

(** [IOManager::GetThis()->cancelEvent(m_sock, ...)] *)
Definition cancelRead (s : Socket A) : M IOManager bool := cancelEvent false (m_sock s) READ.
Definition cancelWrite (s : Socket A) : M IOManager bool := cancelEvent false (m_sock s) WRITE.
Definition cancelAccept (s : Socket A) : M IOManager bool := cancelEvent false (m_sock s) READ.
Definition socket_cancelAll (s : Socket A) : M IOManager bool := cancelAll false (m_sock s).

(** [operator<<] of an int and of a bool. *)
Definition int_text (v : Z) : string := if v <? 0 then "-" ++ dec (- v) else dec v.
Definition bool_text (b : bool) : string := if b then "1" else "0".

Definition dump (s : Socket A) : string :=
  "[Socket sock =" ++ int_text (m_sock s) ++ "is_connected=" ++ bool_text (m_isConnect s)
  ++ " family=" ++ int_text (m_family s) ++ " type=" ++ int_text (m_type s)
  ++ " protocol=" ++ int_text (m_protocol s)
  ++ match m_localAddress s with Some a => " local_address =" ++ address_text a | None => "" end
  ++ match m_remoteAddress s with Some a => " remote_address =" ++ address_text a | None => "" end
  ++ "]".

(** ** Datagrams without a connection *)

Context {L : KernelLaws K}.

Lemma bind_keeps_unconnected a st b st' :
  m_isConnect st.1 = false -> Socket.bind a st = (st', Ret b) -> m_isConnect st'.1 = false.
Proof.
  intros Hc. unfold Socket.bind. unfold cbind at 1.
  assert (Hv : m_isConnect (ensure_valid st).1.1 = false).
  { unfold ensure_valid, isValid. rewrite bind_get. destruct (negb _); [exact Hc|].
    unfold newSock, cbind, sys, upd, cmod. simpl.
    destruct (k_socket _ _ _ st.2) as [w fd]. simpl. destruct (fd =? -1); [exact Hc|].
    destruct (still_initSock (set_sock fd st.1, w)) as (_ & E & _ & [] & Hr).
    destruct (initSock (set_sock fd st.1, w)) as [st1 r]. simpl in *. subst r. rewrite <- Hc. exact E. }
  destruct (ensure_valid st) as [[o w] [[]| |]]; simpl in *; try discriminate; [|intros [= <- _]; exact Hv].
  rewrite bind_get. cbn [fst id]. destruct (addr_family a =? m_family o); cbn [negb]; [|intros [= <- _]; exact Hv].
  destruct (k_bind (m_sock o) a w) as [w1 rt] eqn:E. rewrite (bind_sys _ _ _ _ _ _ E).
  destruct (rt =? 0); cbn [negb]; [|intros [= <- _]; exact Hv].
  destruct (still_run getLocalAddress (o, w1) still_getLocalAddress) as (st2 & y & R & _ & Ec & _).
  rewrite (cbind_ret _ _ _ _ _ R). intros [= <- _]. rewrite Ec. exact Hv.
Qed.

(** A datagram socket that was bound but not connected can neither send nor
    receive: both directions ask for a connection first. *)
Theorem bound_datagram_is_mute addr data to length from w st b :
  Socket.bind addr (CreateUDP addr, w) = (st, Ret b) ->
  sendTo data to st = (st, Ret (-1)) /\ recvFrom length from st = (st, Ret (-1, [], from)).
Proof.
  intros H. pose proof (bind_keeps_unconnected addr (CreateUDP addr, w) b st eq_refl H) as Hc.
  unfold sendTo, recvFrom, isConnected. rewrite !bind_get, Hc. auto.
Qed.
End more.
