(* ===== verification/TcpServer.v ===== *)
(** * The TCP server (sylar/tcp_server.h, sylar/tcp_server.cpp)

    The listening sockets are shared: the vector of the server and the accept
    tasks point to the same objects, so sockets live in a heap and are destroyed
    with their last pointer.  The tasks the server hands to its schedulers are
    part of the state: an accept loop for each listening socket, the lambdas of
    [stop], and the clients waiting for [handleClient].  One turn of an accept
    loop is one step. *)

From Stdlib Require Import ZArith Lia Ascii String.
From stdpp Require Import base list gmap sets.
From S2P Require Import Prelude CString FdManager IOManager Socket SocketDatagram.

Local Open Scope Z_scope.
Local Open Scope cpp_scope.

Definition SOMAXCONN : Z := 4096.
Definition endl : string := String "010"%char EmptyString.

Section tcp.
Context {B A : Type} {K : Kernel B A}.

Record TcpServer : Type := mkServer {
  m_socks : list nat;
  m_recvTimeout : Z;
  m_name : string;
  m_server_type : string;
  m_isStop : bool
}.

(** The server, the socket objects, the system, the IOManager, and the tasks. *)
Record TS : Type := mkTS {
  server : TcpServer;
  objs : gmap nat (Socket A);
  kw : world;
  iom : IOManager;
  accepting : list nat;
  stops : nat;
  clients : list nat
}.

Definition set_server v s := mkTS v (objs s) (kw s) (iom s) (accepting s) (stops s) (clients s).
Definition set_objs v s := mkTS (server s) v (kw s) (iom s) (accepting s) (stops s) (clients s).
Definition set_accepting v s := mkTS (server s) (objs s) (kw s) (iom s) v (stops s) (clients s).
Definition set_stops v s := mkTS (server s) (objs s) (kw s) (iom s) (accepting s) v (clients s).
Definition set_clients v s := mkTS (server s) (objs s) (kw s) (iom s) (accepting s) (stops s) v.
Definition set_iom v s := mkTS (server s) (objs s) (kw s) v (accepting s) (stops s) (clients s).

Definition with_socks v c := mkServer v (m_recvTimeout c) (m_name c) (m_server_type c) (m_isStop c).
Definition with_stop v c := mkServer (m_socks c) (m_recvTimeout c) (m_name c) (m_server_type c) v.

Definition socks (s : TS) : list nat := m_socks (server s).

(** The constructor; the time limit comes from the configuration. *)
Definition TcpServer_new (read_timeout : Z) : TcpServer := mkServer [] read_timeout "sylar/1.0.0" "tcp" true.

Definition setRecvTimeout_of (v : Z) (c : TcpServer) : TcpServer :=
  mkServer (m_socks c) v (m_name c) (m_server_type c) (m_isStop c).
Definition setName (v : string) (c : TcpServer) : TcpServer :=
  mkServer (m_socks c) (m_recvTimeout c) v (m_server_type c) (m_isStop c).

(** ** Objects *)

Definition on_sock {X} (p : nat) (m : M (St B A K) X) : M TS X := fun s =>
  match objs s !! p with
  | None => (s, Undef NullDeref)
  | Some o => let r := m (o, kw s) in
      (mkTS (server s) (<[p := r.1.1]> (objs s)) r.1.2 (iom s) (accepting s) (stops s) (clients s), r.2)
  end.

Definition new_sock (o : Socket A) : M TS nat := fun s =>
  let p := fresh (dom (objs s)) in (set_objs (<[p := o]> (objs s)) s, Ret p).

Definition held (s : TS) : list nat := socks s ++ accepting s ++ clients s.

(** A pointer to [p] is gone: with the last one goes the object. *)
Definition release (p : nat) : M TS unit := fun s =>
  if bool_decide (p ∈ held s) then (s, Ret tt)
  else (on_sock p Socket.close ;;; cmod (fun s => set_objs (delete p (objs s)) s)) s.

Fixpoint release_all (l : list nat) : M TS unit :=
  match l with [] => cret tt | p :: r => release p ;;; release_all r end.

(** [m_socks.clear()] *)
Definition clear_socks : M TS unit :=
  let! l := cget socks in
  cmod (fun s => set_server (with_socks [] (server s)) s) ;;;
  release_all l.

(** ** Binding *)

Fixpoint bind_each (addrs fails : list A) : M TS (list A) :=
  match addrs with
  | [] => cret fails
  | addr :: rest =>
      let! sock := new_sock (CreateTCP addr) in
      let! ok := on_sock sock (Socket.bind addr) in
      if negb ok then release sock ;;; bind_each rest (fails ++ [addr])
      else
        let! ok := on_sock sock (Socket.listen SOMAXCONN) in
        if negb ok then release sock ;;; bind_each rest (fails ++ [addr])
        else
          cmod (fun s => set_server (with_socks (socks s ++ [sock]) (server s)) s) ;;;
          bind_each rest fails
  end.

(** [bind(addrs, fails)]: the new value of fails, and the result. *)
Definition bind_all (addrs fails : list A) : M TS (list A * bool) :=
  let! fails' := bind_each addrs fails in
  match fails' with
  | [] => cret (fails', true)
  | _ :: _ => clear_socks ;;; cret (fails', false)
  end.

Definition bind_one (addr : A) : M TS bool :=
  let! r := bind_all [addr] [] in cret r.2.

(** ** Starting and stopping *)

Definition start : M TS bool :=
  let! stopped := cget (fun s => m_isStop (server s)) in
  if negb stopped then cret true
  else
    cmod (fun s => set_server (with_stop false (server s)) s) ;;;
    cmod (fun s => set_accepting (accepting s ++ socks s) s) ;;;
    cret true.

Definition stop : M TS unit :=
  cmod (fun s => set_server (with_stop true (server s)) s) ;;;
  cmod (fun s => set_stops (S (stops s)) s).

(** [sock->cancelAll(); sock->close();] *)
Definition cancel_and_close (p : nat) : M TS unit :=
  let! fd := on_sock p (Socket.get m_sock) in
  (fun s => let r := cancelAll false fd (iom s) in (set_iom r.1 s, r.2)) ;;;
  on_sock p Socket.close ;;; cret tt.

Fixpoint cancel_and_close_all (l : list nat) : M TS unit :=
  match l with [] => cret tt | p :: r => cancel_and_close p ;;; cancel_and_close_all r end.

(** The lambda of [stop], run by the accept scheduler. *)
Definition run_stop : M TS unit :=
  cmod (fun s => set_stops (pred (stops s)) s) ;;;
  let! l := cget socks in
  cancel_and_close_all l ;;;
  clear_socks.

(** ** Accepting *)

(** One turn of [startAccept] for the [i]-th accept task. *)
Definition startAccept_turn (i p : nat) : M TS unit :=
  let! stopped := cget (fun s => m_isStop (server s)) in
  if stopped then cmod (fun s => set_accepting (delete i (accepting s)) s) ;;; release p
  else
    let! client := on_sock p Socket.accept in
    match client with
    | Some o =>
        let! c := new_sock o in
        let! timeout := cget (fun s => m_recvTimeout (server s)) in
        on_sock c (setRecvTimeout timeout) ;;;
        cmod (fun s => set_clients (clients s ++ [c]) s)
    | None => cret tt
    end.

(** [handleClient] of the base class writes a line to the log; the pointer of
    the task goes with it. *)
Definition handleClient (i c : nat) : M TS unit :=
  cmod (fun s => set_clients (delete i (clients s)) s) ;;; release c.

(** [~TcpServer] *)
Fixpoint close_all (l : list nat) : M TS unit :=
  match l with [] => cret tt | p :: r => on_sock p Socket.close ;;; close_all r end.

Definition TcpServer_delete : M TS unit :=
  let! l := cget socks in
  close_all l ;;; clear_socks.

(** [tostring]; the names of the schedulers are "" when there is none. *)
Definition tostring (address_text : A -> string) (worker accept_worker prefix : string) (s : TS) : string :=
  let pfx := (if String.eqb prefix "" then "    " else prefix)%string in
  (prefix ++ "[type=" ++ m_server_type (server s) ++ " name = " ++ m_name (server s)
   ++ " worker = " ++ worker ++ " accept= " ++ accept_worker
   ++ " recv_timeout = " ++ dec (m_recvTimeout (server s)) ++ "]" ++ endl
   ++ String.concat "" (map (fun p => match objs s !! p with
                                       | Some o => pfx ++ pfx ++ dump address_text o ++ endl
                                       | None => ""
                                       end) (socks s)))%string.

(** ** Steps *)

Inductive step (s : TS) : TS -> Prop :=
  | t_bind addrs fails : step s (bind_all addrs fails s).1
  | t_start : step s (start s).1
  | t_stop : step s (stop s).1
  | t_run_stop : stops s <> 0%nat -> step s (run_stop s).1
  | t_accept i p : accepting s !! i = Some p -> step s (startAccept_turn i p s).1
  | t_client i c : clients s !! i = Some c -> step s (handleClient i c s).1.

Definition TS_new (read_timeout : Z) (w : world) (m : IOManager) : TS :=
  mkTS (TcpServer_new read_timeout) ∅ w m [] 0 [].
End tcp.
Arguments TS : clear implicits.
