(* ===== verification/TcpServerSpec.v ===== *)
(** * Who owns the descriptors of a TCP server

    In every run the open descriptors are those that were open before the
    server and one for each socket object, and an object lives exactly as long
    as the server or one of its tasks points to it. *)

From Stdlib Require Import ZArith Lia String.
From stdpp Require Import base list gmap sets relations.
From S2P Require Import Prelude FdManager IOManager IOManagerSpec Socket SocketSpec TcpServer.

Local Open Scope Z_scope.
Local Open Scope cpp_scope.

Section ownership.
Context {B A : Type} {K : Kernel B A} {L : KernelLaws K}.
Implicit Types (os : gmap nat (Socket A)) (o : Socket A) (s : TS B A K) (base : gset Z).

(** ** Descriptors and objects *)

Record desc_ok base os (w : world) : Prop := {
  de_open : forall fd, fd ∈ k_open w <-> fd ∈ base \/ exists p o, os !! p = Some o /\ fd ∈ owned o;
  de_inj : forall p q o o' fd, os !! p = Some o -> os !! q = Some o' -> fd ∈ owned o -> fd ∈ owned o' -> p = q;
  de_base : forall p o fd, os !! p = Some o -> fd ∈ owned o -> fd ∉ base;
  de_conn : forall p o, os !! p = Some o -> m_isConnect o = true -> m_sock o <> -1
}.

(** What an object sees of the others. *)
Lemma desc_sock base os w p o :
  desc_ok base os w -> os !! p = Some o -> sock_ok (k_open w ∖ owned o) (o, w).
Proof.
  intros D Hp. split; [|split; [simpl; set_solver|exact (de_conn _ _ _ D p o Hp)]]. simpl.
  assert (owned o ⊆ k_open w) by (intros fd Hfd; apply (de_open _ _ _ D); eauto).
  rewrite <- union_difference_L; auto.
Qed.

Lemma desc_upd base os w p o o' w' :
  desc_ok base os w -> os !! p = Some o -> sock_ok (k_open w ∖ owned o) (o', w') -> desc_ok base (<[p := o']> os) w'.
Proof.
  intros D Hp (H1 & H2 & H3). simpl in H1, H2, H3.
  assert (Hlk : forall q x, <[p := o']> os !! q = Some x -> (q = p /\ x = o') \/ (q <> p /\ os !! q = Some x)).
  { intros q x. destruct (decide (q = p)) as [->|N]; [rewrite lookup_insert_eq; intros [= <-]; auto|].
    rewrite lookup_insert_ne by congruence. auto. }
  assert (Hout : forall q x fd, q <> p -> os !! q = Some x -> fd ∈ owned x -> fd ∈ k_open w ∖ owned o).
  { intros q x fd N Hq Hfd. apply elem_of_difference. split; [apply (de_open _ _ _ D); eauto|].
    intros Hfd'. apply N. exact (de_inj _ _ _ D q p x o fd Hq Hp Hfd Hfd'). }
  assert (Hb : forall fd, fd ∈ base -> fd ∈ k_open w ∖ owned o).
  { intros fd Hfd. apply elem_of_difference. split; [apply (de_open _ _ _ D); auto|].
    intros Hfd'. exact (de_base _ _ _ D p o fd Hp Hfd' Hfd). }
  split.
  - intros fd. rewrite H1, elem_of_union. split.
    + intros [Hfd|Hfd]; [right; exists p, o'; rewrite lookup_insert_eq; auto|].
      apply elem_of_difference in Hfd as [Hfd Hn]. apply (de_open _ _ _ D) in Hfd as [Hfd|(q & x & Hq & Hfd)]; [auto|].
      right. exists q, x. rewrite lookup_insert_ne; [auto|]. intros <-. rewrite Hp in Hq. injection Hq as <-. contradiction.
    + intros [Hfd|(q & x & Hq & Hfd)]; [right; auto|].
      destruct (Hlk q x Hq) as [[-> ->]|[N Hq']]; [left; exact Hfd|right; eauto].
  - intros q r x y fd Hq Hr Hx Hy. destruct (Hlk q x Hq) as [[-> ->]|[N Hq']], (Hlk r y Hr) as [[-> ->]|[N' Hr']]; try reflexivity.
    + exfalso. exact (H2 fd Hx (Hout r y fd N' Hr' Hy)).
    + exfalso. exact (H2 fd Hy (Hout q x fd N Hq' Hx)).
    + exact (de_inj _ _ _ D q r x y fd Hq' Hr' Hx Hy).
  - intros q x fd Hq Hx Hfd. destruct (Hlk q x Hq) as [[-> ->]|[N Hq']]; [exact (H2 fd Hx (Hb fd Hfd))|].
    exact (de_base _ _ _ D q x fd Hq' Hx Hfd).
  - intros q x Hq Hc. destruct (Hlk q x Hq) as [[-> ->]|[N Hq']]; [exact (H3 Hc)|]. exact (de_conn _ _ _ D q x Hq' Hc).
Qed.

(** A new object, with a descriptor of its own or without one. *)
Lemma desc_new base os w p o w' :
  desc_ok base os w -> os !! p = None -> owned o ## k_open w -> k_open w' = owned o ∪ k_open w ->
  (m_isConnect o = true -> m_sock o <> -1) -> desc_ok base (<[p := o]> os) w'.
Proof.
  intros D Hp Hd Ho Hc.
  assert (Hlk : forall q x, <[p := o]> os !! q = Some x -> (q = p /\ x = o) \/ (q <> p /\ os !! q = Some x)).
  { intros q x. destruct (decide (q = p)) as [->|N]; [rewrite lookup_insert_eq; intros [= <-]; auto|].
    rewrite lookup_insert_ne by congruence. auto. }
  assert (Hin : forall q x fd, os !! q = Some x -> fd ∈ owned x -> fd ∈ k_open w).
  { intros q x fd Hq Hfd. apply (de_open _ _ _ D). eauto. }
  split.
  - intros fd. rewrite Ho, elem_of_union, (de_open _ _ _ D). split.
    + intros [Hfd|[Hfd|(q & x & Hq & Hfd)]]; [right; exists p, o; rewrite lookup_insert_eq; auto|auto|].
      right. exists q, x. rewrite lookup_insert_ne by congruence. auto.
    + intros [Hfd|(q & x & Hq & Hfd)]; [auto|]. destruct (Hlk q x Hq) as [[-> ->]|[N Hq']]; [auto|eauto 10].
  - intros q r x y fd Hq Hr Hx Hy. destruct (Hlk q x Hq) as [[-> ->]|[N Hq']], (Hlk r y Hr) as [[-> ->]|[N' Hr']]; try reflexivity.
    + exfalso. exact (Hd fd Hx (Hin r y fd Hr' Hy)).
    + exfalso. exact (Hd fd Hy (Hin q x fd Hq' Hx)).
    + exact (de_inj _ _ _ D q r x y fd Hq' Hr' Hx Hy).
  - intros q x fd Hq Hx Hfd. destruct (Hlk q x Hq) as [[-> ->]|[N Hq']]; [|exact (de_base _ _ _ D q x fd Hq' Hx Hfd)].
    apply (Hd fd Hx), (de_open _ _ _ D). auto.
  - intros q x Hq. destruct (Hlk q x Hq) as [[-> ->]|[N Hq']]; [exact Hc|]. exact (de_conn _ _ _ D q x Hq').
Qed.

(** An object without a descriptor goes. *)
Lemma desc_delete base os w p o :
  desc_ok base os w -> os !! p = Some o -> m_sock o = -1 -> desc_ok base (delete p os) w.
Proof.
  intros D Hp Hm. assert (Ho : owned o = ∅) by (unfold owned; rewrite Hm; reflexivity).
  assert (Hlk : forall q x, delete p os !! q = Some x -> os !! q = Some x) by (intros q x [_ H]%lookup_delete_Some; exact H).
  split.
  - intros fd. rewrite (de_open _ _ _ D). split; (intros [Hfd|(q & x & Hq & Hfd)]; [auto|]); right; exists q, x; [|eauto].
    rewrite lookup_delete_ne; [auto|]. intros <-. rewrite Hp in Hq. injection Hq as <-. rewrite Ho in Hfd. set_solver.
  - intros q r x y fd Hq Hr. apply (de_inj _ _ _ D); auto.
  - intros q x fd Hq. apply (de_base _ _ _ D q); auto.
  - intros q x Hq. apply (de_conn _ _ _ D q); auto.
Qed.

(** ** States *)

(** Objects are what the server, its tasks and the running call ([X]) point to. *)
Record own_ok base (X : list nat) s : Prop := {
  ow_desc : desc_ok base (objs s) (kw s);
  ow_live : forall p, is_Some (objs s !! p) <-> p ∈ X ++ held s;
  ow_iom : IOInv (iom s)
}.

(** Only objects and system change. *)
Record tasks_same s s' : Prop := {
  ts_server : server s' = server s;
  ts_iom : iom s' = iom s;
  ts_acc : accepting s' = accepting s;
  ts_stops : stops s' = stops s;
  ts_cl : clients s' = clients s
}.

Lemma tasks_refl s : tasks_same s s.
Proof. split; reflexivity. Qed.

Lemma tasks_trans s1 s2 s3 : tasks_same s1 s2 -> tasks_same s2 s3 -> tasks_same s1 s3.
Proof. intros [] []. split; congruence. Qed.

Lemma tasks_held s s' : tasks_same s s' -> held s' = held s.
Proof. intros [E1 _ E2 _ E3]. unfold held, socks. rewrite E1, E2, E3. reflexivity. Qed.

Lemma on_sock_ok {Y} base X s p o (m : M (St B A K) Y) :
  own_ok base X s -> objs s !! p = Some o -> keeps m ->
  exists s' y, on_sock p m s = (s', Ret y) /\ m (o, kw s) = ((default o (objs s' !! p), kw s'), Ret y) /\
    own_ok base X s' /\ tasks_same s s' /\ exists o', objs s' = <[p := o']> (objs s).
Proof.
  intros [D Hl I] Hp Hm. unfold on_sock. rewrite Hp.
  destruct (Hm _ _ (desc_sock _ _ _ _ _ D Hp)) as [Hok [y Hy]]. destruct (m (o, kw s)) as [[o' w'] r]. simpl in *. subst r.
  eexists _, y. split; [reflexivity|]. simpl. rewrite lookup_insert_eq. split; [reflexivity|]. split; [|split; [split; reflexivity|eauto]].
  split; [exact (desc_upd _ _ _ _ _ _ _ D Hp Hok)| |exact I].
  intros q. simpl. rewrite <- (Hl q : is_Some (objs s !! q) <-> q ∈ X ++ held (mkTS _ _ _ _ _ _ _)).
  destruct (decide (q = p)) as [->|N]; [rewrite lookup_insert_eq, Hp; split; eauto|].
  rewrite lookup_insert_ne by congruence. reflexivity.
Qed.

Lemma sock_release_ok base X p s :
  own_ok base (p :: X) s -> p ∉ X ->
  exists s', release p s = (s', Ret tt) /\ own_ok base X s' /\ tasks_same s s' /\
    forall q, q <> p -> objs s' !! q = objs s !! q.
Proof.
  intros O Hn. unfold release. case_bool_decide as Hh.
  - exists s. split; [reflexivity|]. split; [|split; [apply tasks_refl|auto]]. destruct O as [D Hl I].
    split; [exact D| |exact I]. intros q. rewrite Hl. simpl. split; [|set_solver].
    intros [->|H]%elem_of_cons; [apply elem_of_app; auto|exact H].
  - destruct (proj2 (ow_live _ _ _ O p)) as [o Ho]; [set_solver|].
    destruct (on_sock_ok base (p :: X) s p o Socket.close O Ho keeps_close) as (s1 & y & R & Hm & O1 & T & o' & Hobj).
    cstep R. eexists. split; [reflexivity|].
    assert (Ho' : objs s1 !! p = Some o') by (rewrite Hobj; apply lookup_insert_eq).
    assert (Hrel : m_sock o' = -1).
    { destruct (close_releases (o, kw s)) as [E _]. rewrite Hm, Ho' in E. exact E. }
    destruct O1 as [D1 Hl1 I1]. split; [split; simpl|split].
    + exact (desc_delete _ _ _ _ _ D1 Ho' Hrel).
    + intros q. rewrite lookup_delete_is_Some, Hl1. change (held (set_objs _ s1)) with (held s1). rewrite (tasks_held _ _ T) in *.
      set_solver.
    + exact I1.
    + destruct T. split; assumption.
    + intros q N. simpl. rewrite lookup_delete_ne, Hobj, lookup_insert_ne by congruence. reflexivity.
Qed.

Lemma release_all_ok base l X s :
  own_ok base (l ++ X) s -> NoDup (l ++ X) ->
  exists s', release_all l s = (s', Ret tt) /\ own_ok base X s' /\ tasks_same s s' /\
    forall q, q ∉ l -> objs s' !! q = objs s !! q.
Proof.
  revert s. induction l as [|p l IH]; intros s O N; simpl.
  - exists s. split; [reflexivity|]. split; [exact O|]. split; [apply tasks_refl|auto].
  - apply NoDup_cons in N as [Hp N]. destruct (sock_release_ok base (l ++ X) p s O Hp) as (s1 & R & O1 & T1 & H1).
    destruct (IH s1 O1 N) as (s2 & R2 & O2 & T2 & H2). exists s2. cstep R. split; [exact R2|]. split; [exact O2|].
    split; [exact (tasks_trans _ _ _ T1 T2)|]. intros q Hq. rewrite H2, H1 by set_solver. reflexivity.
Qed.

Lemma clear_socks_ok base s :
  own_ok base [] s -> NoDup (socks s) ->
  exists s', clear_socks s = (s', Ret tt) /\ own_ok base [] s' /\ server s' = with_socks [] (server s) /\
    accepting s' = accepting s /\ stops s' = stops s /\ clients s' = clients s.
Proof.
  intros [D Hl I] N. unfold clear_socks. rewrite cbind_get, cbind_mod. set (s1 := set_server _ s).
  assert (O1 : own_ok base (socks s ++ []) s1).
  { rewrite app_nil_r. split; [exact D| |exact I]. intros p. change (objs s1) with (objs s). rewrite Hl. reflexivity. }
  destruct (release_all_ok base (socks s) [] s1 O1) as (s2 & R & O2 & [E1 E2 E3 E4 E5] & _); [rewrite app_nil_r; exact N|].
  exists s2. split; [exact R|]. split; [exact O2|]. rewrite E1, E3, E4, E5. auto.
Qed.

(** ** The invariant of the server *)

Record srv_ok base s : Prop := {
  sv_own : own_ok base [] s;
  sv_nodup : NoDup (socks s);
  sv_valid : forall p o, p ∈ socks s -> objs s !! p = Some o -> 0 <= m_sock o
}.

Lemma new_sock_ok base s o w :
  desc_ok base (objs s) w -> (forall p, is_Some (objs s !! p) <-> p ∈ held s) -> IOInv (iom s) ->
  owned o ## k_open w -> k_open (kw s) = owned o ∪ k_open w -> (m_isConnect o = true -> m_sock o <> -1) ->
  exists s' p, new_sock o s = (s', Ret p) /\ own_ok base [p] s' /\ tasks_same s s' /\ objs s !! p = None /\
    (p ∉ held s) /\ objs s' = <[p := o]> (objs s).
Proof.
  intros D Hl I Hd Ho Hc. set (p := fresh (dom (objs s))).
  assert (Hp : objs s !! p = None) by (apply not_elem_of_dom, is_fresh).
  exists (set_objs (<[p := o]> (objs s)) s), p. split; [reflexivity|]. split; [|split; [split; reflexivity|]].
  - split; [exact (desc_new _ _ _ _ _ _ D Hp Hd Ho Hc)| |exact I]. intros q. simpl.
    rewrite lookup_insert_is_Some, Hl. change (held (set_objs _ s)) with (held s). rewrite elem_of_cons.
    destruct (decide (q = p)); intuition congruence.
  - split; [exact Hp|]. split; [|reflexivity]. rewrite <- Hl, Hp. intros [? [=]].
Qed.

(** A bound socket has a descriptor. *)
Lemma bind_valid a o w o' w' :
  m_sock o = -1 -> Socket.bind a (o, w) = ((o', w'), Ret true) -> 0 <= m_sock o'.
Proof.
  intros Hm. unfold Socket.bind, ensure_valid, isValid. unfold cbind at 1. rewrite bind_get. simpl. rewrite Hm. simpl.
  unfold newSock. unfold cbind at 1. rewrite bind_get. cbn [fst id].
  destruct (k_socket (m_family o) (m_type o) (m_protocol o) w) as [w1 fd] eqn:E.
  rewrite (bind_sys _ _ _ _ _ _ E), bind_upd.
  destruct (socket_opens _ _ _ _ _ _ E) as [[-> _]|(Hfd & _ & _)]; [simpl; discriminate|].
  rewrite (proj2 (Z.eqb_neq fd (-1))) by lia.
  destruct (still_run initSock (set_sock fd o, w1) still_initSock) as ([o2 w2] & [] & R & Hs & _). rewrite R. simpl in *.
  rewrite Hs, (proj2 (Z.eqb_neq fd (-1))) by lia. simpl. rewrite bind_get. cbn [fst id].
  destruct (addr_family a =? m_family o2); [|discriminate]. cbn [negb].
  destruct (k_bind (m_sock o2) a w2) as [w3 rt] eqn:Eb. rewrite (bind_sys _ _ _ _ _ _ Eb).
  destruct (rt =? 0); [|discriminate]. cbn [negb].
  destruct (still_run getLocalAddress (o2, w3) still_getLocalAddress) as ([o4 w4] & y & R4 & Hs4 & _).
  rewrite (cbind_ret _ _ _ _ _ R4). simpl in *. intros [= <- _]. lia.
Qed.

Lemma own_live0 base s : own_ok base [] s -> forall p, is_Some (objs s !! p) <-> p ∈ held s.
Proof. intros O p. apply (ow_live _ _ _ O p). Qed.

(** The rest of the state, when the object [p] comes and goes. *)
Lemma srv_frame base s s' p :
  srv_ok base s -> own_ok base [] s' -> tasks_same s s' -> p ∉ held s ->
  (forall q, q <> p -> objs s' !! q = objs s !! q) -> srv_ok base s'.
Proof.
  intros [O N V] O' T Hp Hq. assert (E : socks s' = socks s) by (unfold socks; rewrite (ts_server _ _ T); reflexivity).
  split; [exact O'|rewrite E; exact N|]. rewrite E. intros q o Hin Ho. apply (V q o Hin). rewrite <- Hq; [exact Ho|].
  intros ->. apply Hp. unfold held. set_solver.
Qed.

(** What a call leaves to the others. *)
Definition tasks_kept s s' : Prop :=
  accepting s' = accepting s /\ stops s' = stops s /\ clients s' = clients s /\ m_isStop (server s') = m_isStop (server s).

(** A socket that cannot be used is dropped, and the loop goes on. *)
Lemma bind_failed base s s3 p :
  srv_ok base s -> p ∉ held s -> own_ok base [p] s3 -> tasks_same s s3 -> (forall q, q <> p -> objs s3 !! q = objs s !! q) ->
  exists s4, release p s3 = (s4, Ret tt) /\ srv_ok base s4 /\ tasks_kept s s4.
Proof.
  intros S Hh O3 T3 H3. destruct (sock_release_ok base [] p s3 O3) as (s4 & R4 & O4 & T4 & H4); [set_solver|].
  pose proof (tasks_trans _ _ _ T3 T4) as T. exists s4. split; [exact R4|]. split; [|destruct T; unfold tasks_kept; split_and!; congruence].
  apply (srv_frame base s s4 p S O4 T Hh). intros q Nq. rewrite H4, H3 by assumption. reflexivity.
Qed.

(** One that can is put into the vector. *)
Lemma bind_pushed base s s3 p o3 :
  srv_ok base s -> p ∉ held s -> own_ok base [p] s3 -> tasks_same s s3 -> (forall q, q <> p -> objs s3 !! q = objs s !! q) ->
  objs s3 !! p = Some o3 -> 0 <= m_sock o3 ->
  let s4 := set_server (with_socks (socks s3 ++ [p]) (server s3)) s3 in srv_ok base s4 /\ tasks_kept s s4.
Proof.
  intros S Hh [D3 L3 I3] T H3 Hobj3 Hv s4.
  assert (Es : socks s4 = socks s ++ [p]) by (unfold s4, socks; simpl; rewrite (ts_server _ _ T); reflexivity).
  split; [|destruct T; unfold tasks_kept; simpl; split_and!; congruence]. split.
  - split; [exact D3| |exact I3]. intros q. change (objs s4) with (objs s3). rewrite L3.
    unfold held. rewrite Es. unfold socks. rewrite (ts_server _ _ T). set_solver.
  - rewrite Es. apply NoDup_app. split; [apply S|]. split; [|apply NoDup_singleton].
    intros q Hq ->%list_elem_of_singleton. apply Hh. unfold held. set_solver.
  - rewrite Es. intros q x [Hq| ->%list_elem_of_singleton]%elem_of_app Hx.
    + apply (sv_valid _ _ S q x Hq). rewrite <- H3; [exact Hx|]. intros ->. apply Hh. unfold held. set_solver.
    + change (objs s4) with (objs s3) in Hx. rewrite Hobj3 in Hx. injection Hx as <-. exact Hv.
Qed.

(** [bind] and [listen] on the new socket. *)
Lemma bind_each_ok base addrs fails s :
  srv_ok base s -> exists s' fails', bind_each addrs fails s = (s', Ret fails') /\ srv_ok base s' /\ tasks_kept s s'.
Proof.
  revert fails s. induction addrs as [|a rest IH]; intros fails s S; simpl.
  { exists s, fails. unfold tasks_kept. auto 10. }
  pose proof (sv_own _ _ S) as O. set (o := CreateTCP a : Socket A).
  destruct (new_sock_ok base s o (kw s) (ow_desc _ _ _ O) (own_live0 _ _ O) (ow_iom _ _ _ O)) as
    (s1 & p & R1 & O1 & T1 & Hp & Hh & Hobj); [unfold owned; simpl; set_solver|unfold owned; simpl; set_solver|discriminate|].
  assert (Hgo : forall s4 fails4, srv_ok base s4 -> tasks_kept s s4 -> exists s' fails',
    bind_each rest fails4 s4 = (s', Ret fails') /\ srv_ok base s' /\ tasks_kept s s').
  { intros s4 fails4 S4 K4. destruct (IH fails4 s4 S4) as (s' & fs & R & S' & K'). exists s', fs. split; [exact R|].
    split; [exact S'|]. unfold tasks_kept in *. intuition congruence. }
  assert (Ho : objs s1 !! p = Some o) by (rewrite Hobj; apply lookup_insert_eq).
  destruct (on_sock_ok base [p] s1 p o (Socket.bind a) O1 Ho (keeps_bind_op a)) as (s2 & ok & R2 & M2 & O2 & T2 & o2 & Hobj2).
  assert (Ho2 : objs s2 !! p = Some o2) by (rewrite Hobj2; apply lookup_insert_eq).
  assert (H2 : forall q, q <> p -> objs s2 !! q = objs s !! q)
    by (intros q Nq; rewrite Hobj2, Hobj, !lookup_insert_ne by congruence; reflexivity).
  cstep R1. cstep R2. pose proof (tasks_trans _ _ _ T1 T2) as T12. destruct ok; simpl; cycle 1.
  { destruct (bind_failed base s s2 p S Hh O2 T12 H2) as (s4 & R4 & S4 & K4). cstep R4. apply Hgo; assumption. }
  destruct (on_sock_ok base [p] s2 p o2 (Socket.listen SOMAXCONN) O2 Ho2 (still_keeps _ (still_listen SOMAXCONN)))
    as (s3 & ok & R3 & M3 & O3 & T3 & o3 & Hobj3).
  assert (H3 : forall q, q <> p -> objs s3 !! q = objs s !! q)
    by (intros q Nq; rewrite Hobj3, lookup_insert_ne by congruence; auto).
  assert (Ho3 : objs s3 !! p = Some o3) by (rewrite Hobj3; apply lookup_insert_eq).
  cstep R3. pose proof (tasks_trans _ _ _ T12 T3) as T. destruct ok; simpl; cycle 1.
  { destruct (bind_failed base s s3 p S Hh O3 T H3) as (s4 & R4 & S4 & K4). cstep R4. apply Hgo; assumption. }
  destruct (bind_pushed base s s3 p o3 S Hh O3 T H3 Ho3) as [S4 K4]; [|rewrite cbind_mod; apply Hgo; assumption].
  destruct (still_listen SOMAXCONN (o2, kw s2)) as (E & _). rewrite M3, Ho3 in E. simpl in E. rewrite E.
  rewrite Ho2 in M2. exact (bind_valid a o (kw s1) o2 (kw s2) eq_refl M2).
Qed.

(** The call returns and keeps the invariant. *)
Definition srv_keeps {Y} base (m : M (TS B A K) Y) : Prop :=
  forall s, srv_ok base s -> exists s' y, m s = (s', Ret y) /\ srv_ok base s'.

Lemma clear_srv base s :
  own_ok base [] s -> NoDup (socks s) -> exists s', clear_socks s = (s', Ret tt) /\ srv_ok base s' /\ socks s' = [].
Proof.
  intros O N. destruct (clear_socks_ok base s O N) as (s' & R & O' & E & _). exists s'.
  assert (Es : socks s' = []) by (unfold socks; rewrite E; reflexivity).
  split; [exact R|]. split; [|exact Es]. split; [exact O'|rewrite Es; constructor|rewrite Es; set_solver].
Qed.

Lemma bind_all_srv base addrs fails : srv_keeps base (bind_all addrs fails).
Proof.
  intros s S. unfold bind_all. destruct (bind_each_ok base addrs fails s S) as (s1 & fs & R & S1 & _). cstep R.
  destruct fs as [|a fs]; [eexists _, _; split; [reflexivity|exact S1]|].
  destruct (clear_srv base s1 (sv_own _ _ S1) (sv_nodup _ _ S1)) as (s2 & R2 & S2 & _). cstep R2. eauto.
Qed.

(** Pointers to living sockets may be copied and flags set. *)
Lemma srv_tasks base s s' :
  srv_ok base s -> objs s' = objs s -> kw s' = kw s -> iom s' = iom s -> socks s' = socks s ->
  (forall p, p ∈ held s' <-> p ∈ held s) -> srv_ok base s'.
Proof.
  intros [[D Hl I] N V] E1 E2 E3 E4 Hh. split; [|rewrite E4; exact N|rewrite E4, E1; exact V].
  split; [rewrite E1, E2; exact D| |rewrite E3; exact I]. intros p. rewrite E1, Hl. simpl. symmetry. apply Hh.
Qed.

Lemma start_srv base : srv_keeps base start.
Proof.
  intros s S. unfold start. rewrite cbind_get. destruct (negb (m_isStop (server s))); [eexists _, _; split; [reflexivity|exact S]|].
  eexists _, _. split; [reflexivity|]. apply (srv_tasks base s); auto. intros p. unfold held, socks. simpl. set_solver.
Qed.

Lemma stop_srv base : srv_keeps base stop.
Proof. intros s S. eexists _, _. split; [reflexivity|]. apply (srv_tasks base s); auto. Qed.

(** Closing the sockets of a list; [cancelAll] does nothing to a valid one. *)
Lemma cancel_and_close_ok base p s :
  own_ok base [] s -> (forall o, objs s !! p = Some o -> 0 <= m_sock o) -> p ∈ held s ->
  exists s', cancel_and_close p s = (s', Ret tt) /\ own_ok base [] s' /\ tasks_same s s' /\
    forall q, q <> p -> objs s' !! q = objs s !! q.
Proof.
  intros O V Hp. destruct (proj2 (own_live0 _ _ O p) Hp) as [o Ho]. specialize (V o Ho). unfold cancel_and_close.
  destruct (on_sock_ok base [] s p o (Socket.get m_sock) O Ho (disc_get m_sock)) as (s1 & fd & R1 & M1 & O1 & T1 & o1 & H1).
  cstep R1. injection M1 as M1 _ <-.
  assert (Hc : (fun s : TS B A K => let r := cancelAll false (m_sock o) (iom s) in (set_iom r.1 s, r.2)) s1 = (s1, Ret false)).
  { cbv beta zeta. rewrite (cancelAll_never_cancels false (iom s1) (m_sock o) (ow_iom _ _ _ O1) V). destruct s1. reflexivity. }
  cstep Hc.
  assert (Ho1 : objs s1 !! p = Some o1) by (rewrite H1; apply lookup_insert_eq).
  destruct (on_sock_ok base [] s1 p o1 Socket.close O1 Ho1 keeps_close) as (s2 & b & R2 & _ & O2 & T2 & o2 & H2).
  cstep R2. exists s2. split; [reflexivity|]. split; [exact O2|]. split; [exact (tasks_trans _ _ _ T1 T2)|].
  intros q N. rewrite H2, H1, !lookup_insert_ne by congruence. reflexivity.
Qed.

Lemma cancel_and_close_all_ok base l s :
  own_ok base [] s -> NoDup l -> (forall p o, p ∈ l -> objs s !! p = Some o -> 0 <= m_sock o) -> (forall p, p ∈ l -> p ∈ held s) ->
  exists s', cancel_and_close_all l s = (s', Ret tt) /\ own_ok base [] s' /\ tasks_same s s'.
Proof.
  revert s. induction l as [|p l IH]; intros s O N V Hl; simpl.
  { exists s. split; [reflexivity|]. split; [exact O|apply tasks_refl]. }
  apply NoDup_cons in N as [Hp N].
  destruct (cancel_and_close_ok base p s O) as (s1 & R1 & O1 & T1 & H1); [intros o; apply V; set_solver|apply Hl; set_solver|].
  destruct (IH s1 O1 N) as (s2 & R2 & O2 & T2).
  - intros q o Hq Ho. apply (V q o); [set_solver|]. rewrite <- H1; [exact Ho|]. intros ->. contradiction.
  - intros q Hq. rewrite (tasks_held _ _ T1). apply Hl. set_solver.
  - exists s2. cstep R1. split; [exact R2|]. split; [exact O2|exact (tasks_trans _ _ _ T1 T2)].
Qed.

Lemma run_stop_srv base s : srv_ok base s -> exists s', run_stop s = (s', Ret tt) /\ srv_ok base s' /\ socks s' = [].
Proof.
  intros S. unfold run_stop. rewrite cbind_mod, cbind_get. set (s1 := set_stops _ s).
  assert (S1 : srv_ok base s1) by (apply (srv_tasks base s); auto).
  destruct (cancel_and_close_all_ok base (socks s1) s1 (sv_own _ _ S1) (sv_nodup _ _ S1) (sv_valid _ _ S1)) as (s2 & R2 & O2 & T2);
    [unfold held; set_solver|]. cstep R2.
  apply clear_srv; [exact O2|]. unfold socks at 1. rewrite (ts_server _ _ T2). apply (sv_nodup _ _ S1).
Qed.

(** ** Accepting *)

(** The hooked accept registers what it returns (hook.cpp), so that the new
    object finds a context for it. *)
Definition accept_registers : Prop := forall fd0 (o : Socket A) w w' fd,
  k_accept fd0 w = (w', fd) -> fd <> -1 ->
  exists c, (fd_ctx fd (o, w')).2 = Ret (Some c) /\ m_isSocket c = true /\ m_isClsed c = false.

Lemma accept_cases (HA : accept_registers) o w :
  exists w' r, accept (o, w) = ((o, w'), Ret r) /\
    match r with
    | None => k_open w' = k_open w
    | Some n => owned n ## k_open w /\ k_open w' = owned n ∪ k_open w /\ (m_isConnect n = true -> m_sock n <> -1)
    end.
Proof.
  destruct (k_accept (m_sock o) w) as [w1 fd] eqn:E. destruct (Z.eqb_spec fd (-1)) as [->|N].
  - exists w1, None. unfold accept. rewrite bind_get. cbn [fst id]. rewrite (bind_sys _ _ _ _ _ _ E). simpl.
    split; [reflexivity|]. destruct (accept_opens _ _ _ _ E) as [[_ H]|[H _]]; [exact H|lia].
  - destruct (HA _ (Socket_new (m_family o) (m_type o) (m_protocol o)) w w1 fd E N) as (c & Hc & H1 & H2).
    destruct (accept_open o w w1 fd (Some c) E N Hc) as (w2 & r & R & Ho & Hr). unfold usable in Hr. rewrite H1, H2 in Hr.
    destruct Hr as (n & -> & Hn & _). exists w2, (Some n). split; [exact R|]. unfold owned. rewrite Hn, (proj2 (Z.eqb_neq _ _) N).
    destruct (accept_opens _ _ _ _ E) as [[? _]|(_ & Hf & _)]; [congruence|]. split; [set_solver|]. split; [exact Ho|auto].
Qed.

Lemma desc_world base os w w' : desc_ok base os w -> k_open w' = k_open w -> desc_ok base os w'.
Proof. intros [H1 H2 H3 H4] E. split; auto. intros fd. rewrite E. apply H1. Qed.

(** A pointer of a task goes. *)
Lemma drop_task base p s s1 :
  srv_ok base s -> objs s1 = objs s -> kw s1 = kw s -> iom s1 = iom s -> server s1 = server s ->
  (forall q, q ∈ held s <-> q = p \/ q ∈ held s1) ->
  exists s', release p s1 = (s', Ret tt) /\ srv_ok base s'.
Proof.
  intros [[D Hl I] N V] E1 E2 E3 E4 Hh.
  assert (O1 : own_ok base [p] s1).
  { split; [rewrite E1, E2; exact D| |rewrite E3; exact I]. intros q. rewrite E1, Hl. simpl. rewrite Hh, elem_of_cons. reflexivity. }
  destruct (sock_release_ok base [] p s1 O1) as (s' & R & O' & T & H); [set_solver|]. exists s'. split; [exact R|].
  assert (Es : socks s' = socks s) by (unfold socks; rewrite (ts_server _ _ T), E4; reflexivity).
  split; [exact O'|rewrite Es; exact N|]. rewrite Es. intros q o Hq Ho. apply (V q o Hq). rewrite <- E1.
  destruct (decide (q = p)) as [->|Nq]; [|rewrite <- H; assumption].
  assert (Hp : p ∈ held s1) by (unfold held; apply elem_of_app; left; unfold socks; rewrite E4; exact Hq).
  unfold release in R. rewrite bool_decide_eq_true_2 in R by exact Hp. injection R as <-. exact Ho.
Qed.

Lemma delete_elem {Y} (l : list Y) i p q : l !! i = Some p -> q ∈ l <-> q = p \/ q ∈ delete i l.
Proof. intros H. rewrite (delete_Permutation l i p H) at 1. apply elem_of_cons. Qed.

Lemma accept_srv (HA : accept_registers) base i p s :
  srv_ok base s -> accepting s !! i = Some p -> exists s', startAccept_turn i p s = (s', Ret tt) /\ srv_ok base s'.
Proof.
  intros S Hi. unfold startAccept_turn. rewrite cbind_get. destruct (m_isStop (server s)).
  { rewrite cbind_mod. apply (drop_task base p s); auto. intros q. unfold held. simpl.
    rewrite !elem_of_app, (delete_elem _ i p q Hi). tauto. }
  pose proof (sv_own _ _ S) as O. pose proof O as [D Hl I].
  assert (Hh : p ∈ held s) by (unfold held; rewrite !elem_of_app; right; left; apply list_elem_of_lookup; eauto).
  destruct (proj2 (own_live0 _ _ O p) Hh) as [o Ho].
  destruct (accept_cases HA o (kw s)) as (w' & r & R & Hr).
  set (s1 := mkTS (server s) (objs s) w' (iom s) (accepting s) (stops s) (clients s)).
  assert (R1 : on_sock p accept s = (s1, Ret r)) by (unfold on_sock; rewrite Ho, R; simpl; rewrite insert_id by exact Ho; reflexivity).
  cstep R1. destruct r as [n|]; cycle 1.
  { eexists. split; [reflexivity|]. destruct S as [_ N V]. split; [|exact N|exact V].
    split; [exact (desc_world _ _ _ _ D Hr)|exact Hl|exact I]. }
  destruct Hr as (H1 & H2 & H3).
  destruct (new_sock_ok base s1 n (kw s) D Hl I H1 H2 H3) as (s2 & c & R2 & O2 & T2 & Hc & Hn & Hobj). cstep R2. rewrite cbind_get.
  assert (Hc2 : objs s2 !! c = Some n) by (rewrite Hobj; apply lookup_insert_eq).
  destruct (on_sock_ok base [c] s2 c n _ O2 Hc2 (still_keeps _ (proj2 (still_timeouts (m_recvTimeout (server s2))))))
    as (s3 & [] & R3 & _ & O3 & T3 & n' & Hobj3).
  cstep R3. pose proof (tasks_trans _ _ _ T2 T3) as T. eexists. split; [reflexivity|]. set (s4 := set_clients _ s3).
  assert (Es : socks s4 = socks s) by (unfold s4, socks; simpl; rewrite (ts_server _ _ T); reflexivity).
  split; [|rewrite Es; apply S|].
  - destruct O3 as [D3 L3 I3]. split; [exact D3| |exact I3]. intros q. change (objs s4) with (objs s3). rewrite L3.
    unfold held, s4, socks. simpl. set_solver.
  - rewrite Es. intros q x Hq Hx. apply (sv_valid _ _ S q x Hq). change (objs s4) with (objs s3) in Hx.
    rewrite Hobj3, Hobj, !lookup_insert_ne in Hx; [exact Hx| |]; intros <-; apply Hn; unfold held; set_solver.
Qed.

Lemma client_srv base i c s :
  srv_ok base s -> clients s !! i = Some c -> exists s', handleClient i c s = (s', Ret tt) /\ srv_ok base s'.
Proof.
  intros S Hi. unfold handleClient. rewrite cbind_mod. apply (drop_task base c s); auto.
  intros q. unfold held. simpl. rewrite !elem_of_app, (delete_elem _ i c q Hi). tauto.
Qed.

(** ** Runs *)

Lemma server_step_ok (HA : accept_registers) base s s' : srv_ok base s -> TcpServer.step s s' -> srv_ok base s'.
Proof.
  intros S H. destruct H as [addrs fails| | |Hn|i p Hi|i c Hi].
  - destruct (bind_all_srv base addrs fails s S) as (s' & y & -> & S'). exact S'.
  - destruct (start_srv base s S) as (s' & y & -> & S'). exact S'.
  - destruct (stop_srv base s S) as (s' & y & -> & S'). exact S'.
  - destruct (run_stop_srv base s S) as (s' & -> & S' & _). exact S'.
  - destruct (accept_srv HA base i p s S Hi) as (s' & -> & S'). exact S'.
  - destruct (client_srv base i c s S Hi) as (s' & -> & S'). exact S'.
Qed.

Lemma new_srv_ok t w m : IOInv m -> srv_ok (k_open w) (TS_new t w m).
Proof.
  intros I. split; [|constructor|simpl; set_solver]. split; [|intros p; simpl; rewrite lookup_empty; split; [intros [? [=]]|set_solver]|exact I].
  split; simpl; try (intros *; rewrite lookup_empty; discriminate).
  intros fd. split; [auto|]. intros [H|(p & o & Hp & _)]; [exact H|]. rewrite lookup_empty in Hp. discriminate.
Qed.

Lemma runs_ok (HA : accept_registers) base s s' : srv_ok base s -> rtc TcpServer.step s s' -> srv_ok base s'.
Proof. intros S. induction 1 as [|a b c H _ IH]; [exact S|]. apply IH. exact (server_step_ok HA base a b S H). Qed.

Lemma close_all_ok base l s :
  own_ok base [] s -> (forall p, p ∈ l -> p ∈ held s) ->
  exists s', close_all l s = (s', Ret tt) /\ own_ok base [] s' /\ tasks_same s s'.
Proof.
  revert s. induction l as [|p l IH]; intros s O Hl; simpl.
  { exists s. split; [reflexivity|]. split; [exact O|apply tasks_refl]. }
  destruct (proj2 (own_live0 _ _ O p)) as [o Ho]; [apply Hl; set_solver|].
  destruct (on_sock_ok base [] s p o Socket.close O Ho keeps_close) as (s1 & b & R1 & _ & O1 & T1 & _). cstep R1.
  destruct (IH s1 O1) as (s2 & R2 & O2 & T2); [intros q Hq; rewrite (tasks_held _ _ T1); apply Hl; set_solver|].
  exists s2. split; [exact R2|]. split; [exact O2|exact (tasks_trans _ _ _ T1 T2)].
Qed.
End ownership.

(** C23: the descriptors of a TCP server.  In every run of bind, start, stop, the
    lambdas of stop, the accept loops and the clients, from a new server: every
    call returns, the open descriptors are those that were open before the
    server and one of each socket object, no two objects share one, an object
    lives exactly as long as the server or one of its tasks points to it, and
    once the tasks are gone the destructor leaves the descriptors that were open
    before the server was made. *)
Theorem server_owns_its_descriptors {B A} (K : Kernel B A) (L : KernelLaws K) t w m (s : TS B A K) :
  accept_registers -> IOInv m -> rtc TcpServer.step (TS_new t w m) s ->
  (forall fd, fd ∈ k_open (kw s) <-> fd ∈ k_open w \/ exists p o, p ∈ held s /\ objs s !! p = Some o /\ fd ∈ owned o) /\
  (forall p q o o' fd, objs s !! p = Some o -> objs s !! q = Some o' -> fd ∈ owned o -> fd ∈ owned o' -> p = q) /\
  (forall p, is_Some (objs s !! p) <-> p ∈ held s) /\
  (forall addrs fails, exists y, (bind_all addrs fails s).2 = Ret y) /\
  (run_stop s).2 = Ret tt /\
  (forall i p, accepting s !! i = Some p -> (startAccept_turn i p s).2 = Ret tt) /\
  (forall i c, clients s !! i = Some c -> (handleClient i c s).2 = Ret tt) /\
  (accepting s = [] -> clients s = [] -> k_open (kw (TcpServer_delete s).1) = k_open w).
Proof.
  intros HA I H. pose proof (runs_ok HA (k_open w) _ s (new_srv_ok t w m I) H) as S. pose proof (sv_own _ _ S) as O.
  pose proof O as [D Hl _]. pose proof (own_live0 _ _ O) as Hl0. split_and!.
  - intros fd. rewrite (de_open _ _ _ D). split; intros [Hfd|Hfd]; auto; right;
      [destruct Hfd as (p & o & Hp & Hfd); exists p, o; split; [apply Hl0; eauto|auto]|destruct Hfd as (p & o & _ & Hp); eauto].
  - intros p q o o' fd. apply (de_inj _ _ _ D).
  - exact Hl0.
  - intros addrs fails. destruct (bind_all_srv _ addrs fails s S) as (s' & y & -> & _). eauto.
  - destruct (run_stop_srv _ s S) as (s' & -> & _). reflexivity.
  - intros i p Hi. destruct (accept_srv HA _ i p s S Hi) as (s' & -> & _). reflexivity.
  - intros i c Hi. destruct (client_srv _ i c s S Hi) as (s' & -> & _). reflexivity.
  - intros Ha Hc. unfold TcpServer_delete. rewrite cbind_get.
    destruct (close_all_ok (k_open w) (socks s) s O) as (s1 & R1 & O1 & T1); [unfold held; set_solver|]. cstep R1.
    destruct (clear_socks_ok (k_open w) s1 O1) as (s2 & R2 & O2 & E1 & E2 & _ & E3);
      [unfold socks; rewrite (ts_server _ _ T1); apply (sv_nodup _ _ S)|]. rewrite R2. cbn [fst].
    assert (Hh : held s2 = []).
    { unfold held, socks. rewrite E1, E2, E3, (ts_acc _ _ T1), (ts_cl _ _ T1), Ha, Hc. reflexivity. }
    apply set_eq. intros fd. rewrite (de_open _ _ _ (ow_desc _ _ _ O2)). split; [|auto].
    intros [Hfd|(p & o & Hp & _)]; [exact Hfd|]. exfalso. assert (Hin : p ∈ held s2) by (apply (own_live0 _ _ O2); eauto).
    rewrite Hh in Hin. set_solver.
Qed.

(** A failing address takes all sockets of the server with it, those of earlier
    calls too. *)
Theorem bind_failure_clears {B A} (K : Kernel B A) (L : KernelLaws K) base addrs fails (s s' : TS B A K) fs :
  srv_ok base s -> bind_all addrs fails s = (s', Ret (fs, false)) -> socks s' = [].
Proof.
  intros S. unfold bind_all. destruct (bind_each_ok base addrs fails s S) as (s1 & [|a l] & R & S1 & _); cstep R; [discriminate|].
  destruct (clear_srv base s1 (sv_own _ _ S1) (sv_nodup _ _ S1)) as (s2 & R2 & _ & E). cstep R2. intros [= <- _]. exact E.
Qed.

(** ** A kernel whose accept registers *)

Definition open_table : FdManager :=
  mkFdManager (replicate 64 (Some 0%nat)) {[ 0%nat := mkFdCtx true true true false false 0 0 0 ]} ∅.

Definition hooked_kernel {B : Type} : Kernel B Z := {|
  world := gset nat;
  k_open X := set_map Z.of_nat X;
  k_in _ _ := [];
  k_out _ _ := [];
  k_fdmgr _ := open_table;
  k_fstat _ := Some true;
  addr_family a := a;
  UnknowAddress f := f;
  k_socket _ _ _ X := ({[fresh X]} ∪ X, Z.of_nat (fresh X));
  k_close fd X := if fd <? 0 then X else X ∖ {[Z.to_nat fd]};
  k_setsockopt _ _ _ _ X := (X, 0);
  k_bind _ _ X := (X, 0);
  k_connect _ _ _ X := (X, 0);
  k_listen _ _ X := (X, 0);
  k_accept _ X := if (fresh X <? 64)%nat then ({[fresh X]} ∪ X, Z.of_nat (fresh X)) else (X, -1);
  k_getpeername _ _ := Some 2;
  k_getsockname _ _ := Some 2;
  k_recv _ n X := (X, (0, []));
  k_send _ d X := (X, 0)
|}.

#[export] Instance hooked_kernel_laws {B : Type} : KernelLaws (hooked_kernel (B := B)).
Proof.
  pose proof (small_kernel_laws (B := B)) as []. split; try assumption.
  simpl. intros s X X' fd. destruct (fresh X <? 64)%nat; intros [= <- <-]; [right|left; auto].
  split; [lia|]. apply small_kernel_fresh.
Qed.

Lemma hooked_accept_registers {B : Type} : accept_registers (K := hooked_kernel (B := B)).
Proof.
  intros fd0 o w w' fd E N. assert (Hlt : (fresh (w : gset nat) < 64)%nat /\ fd = Z.of_nat (fresh (w : gset nat))).
  { revert E. simpl. destruct (Nat.ltb_spec (fresh (w : gset nat)) 64) as [Hlt|Hge]; intros E.
    - split; [exact Hlt|]. congruence.
    - destruct N. congruence. }
  destruct Hlt as [Hlt ->].
  exists (mkFdCtx true true true false false 0 0 0). split; [|auto].
  set (n := fresh (w : gset nat)) in *. clearbody n. clear E. unfold fd_ctx, FdManager.get, cbind. simpl.
  do 64 (destruct n as [|n]; [reflexivity|]). lia.
Qed.

(** The server binds an address, starts, accepts a client and is stopped. *)
Definition demo_server : TS Z Z hooked_kernel :=
  (stop (startAccept_turn 0 0 (start (bind_all [2] [] (TS_new 120000 ∅ IOManager_new)).1).1).1).1.

Lemma demo_server_run : rtc TcpServer.step (TS_new 120000 ∅ IOManager_new) demo_server.
Proof.
  eapply rtc_l; [apply (t_bind _ [2] [])|]. eapply rtc_l; [apply t_start|].
  eapply rtc_l; [apply (t_accept _ 0 0); vm_compute; reflexivity|]. eapply rtc_l; [apply t_stop|]. apply rtc_refl.
Qed.

Lemma server_owns_its_descriptors_witness :
  (forall fd, fd ∈ k_open (kw demo_server) <-> fd ∈ k_open (Kernel := hooked_kernel (B := Z)) (∅ : gset nat) \/
     exists p o, p ∈ held demo_server /\ objs demo_server !! p = Some o /\ fd ∈ owned o) /\
  (run_stop demo_server).2 = Ret tt.
Proof.
  destruct (server_owns_its_descriptors hooked_kernel _ 120000 (∅ : gset nat) IOManager_new demo_server
    hooked_accept_registers new_IOInv demo_server_run) as (H1 & _ & _ & _ & H2 & _). split; [exact H1|exact H2].
Defined.
